(* ===== verification/_CoqProject ===== *)
-Q . S2P
Prelude.v
CLib.v
Session.v
Lwftp.v
SessionInv.v
LwftpSafety.v
LwftpSystem.v
ReplySpec.v
Samples.v
LwftpCorrect.v
AppState.v
Callbacks.v
Utility.v
App.v
Menu.v
AppOps.v
AppSamples.v
AppSafety.v
AppCorrect.v
Listing.v
Transfers.v
FileFormat.v
AddrCorrect.v
UiCorrect.v
MemState.v
MemPressure.v
MemBuffer.v
MemLogic.v
RingList.v
RingQueue.v
RingCorrect.v
MemSamples.v
EthRing.v
EthState.v
EthDriver.v
EthInit.v
EthLogic.v
NcmCorrect.v
EthCorrect.v
EthIfaces.v
EthEdge.v
PoolCorrect.v
PressureCorrect.v
Base64.v
TlsHash.v
Sha256Ref.v
TlsKdf.v
Rsa.v
RsaCorrect.v
TlsSamples.v
Asn1.v
Asn1Correct.v
Aes.v
AesRef.v
AesBlock.v
GcmField.v
GcmCorrect.v
AesTyped.v
CbcCorrect.v
AesSamples.v
Handshake.v
KeySchedule.v
HelloCorrect.v
RecordCorrect.v
TlsSession.v
HandshakeSamples.v
AppConfig.v
Truststore.v
ConfigCorrect.v
TrustCorrect.v
TrustSamples.v
KeyObject.v
KeyCorrect.v
CertCorrect.v
CertImport.v
KeyEncrypted.v
KeySamples.v
AltcpTls.v
AltcpCorrect.v
AltcpLinks.v
