(* ===== verification/Prelude.v ===== *)
(** * lwFTP CE: a verification development

    lwFTP CE is an FTP client for the TI-84 Plus CE.  Under [src/src/] it is
    made of an FTP client library ([lwftp.c]), the application that uses it
    ([main.c], [menu.c], [ftp.c], [utility.c]) and the CE port of lwIP, whose
    own parts are a memory manager ([drivers/mem.c]), a USB ethernet driver
    ([drivers/usb_ethernet.c]) and a TLS layer ([tls/]); the TCP/IP stack
    itself ([core/], [netif/]) is third-party code.

    ** How the parts interact

    The user's keys run operations of utility.c, which call the public
    interface of lwftp.c ([lwftp_connect], [lwftp_store], ...).  lwftp.c writes
    commands on a control connection and, when replies or data arrive, is
    called back by the stack; it calls the application's data sinks, its data
    source and its completion callback, and completion callbacks call the
    interface again.  The application polls the network through
    [util_ServiceNetwork].  Received frames wait in a ring buffer of mem.c
    until the driver hands them to the stack; the stack's packets live in the
    pools of mem.c.

    ** The files

    - [Prelude]: machine widths, list and arithmetic lemmas, tactics, hints.
    - [CLib]: the string and memory routines of the C library the code calls,
      on buffers that know their extent.

    The FTP library.
    - [Session]: lwftp.h's session structure, control states and result codes;
      the calls of the raw TCP interface; the monad [M] of the handlers.  The
      application is a class ([Client], [ClientOps]), the stack and the peer a
      record of answers ([tcp_env]).
    - [Lwftp]: lwftp.c, one definition per function; the two switches of
      [lwftp_control_process] are [control_first] (with [control_reply] for the
      states after login) and [control_second].
    - [SessionInv]: weakest preconditions, the session invariant [sess_inv], and
      [ClientLaws], what the library asks of the application's callbacks.
    - [LwftpSafety], [LwftpSystem]: every handler and interface function keeps
      [sess_inv]; events, calls and edits of the client as a step relation
      [sys_step] and the reachable worlds.
    - [ReplySpec]: the address in a reply to PASV; [reply_table], the dialogue
      as an abstract table, and the proof that the library refines it.
    - [Samples], [LwftpCorrect]: sessions of a small client and the theorems.

    The application.
    - [AppState]: defines.h and the globals of main.c; the calculator is a class
      [TiOS] (variables, VAT order, key translation).
    - [Callbacks], [App]: ftp.c, and the operations of utility.c that drive the
      session; [Utility]: the rest of utility.c that does not; [Menu]: menu.c;
      [AppOps]: the user operations of utility.c, and main.c.
    - [AppSafety], [AppCorrect]: the application satisfies [ClientLaws], so the
      library's theorems hold of the whole program; [poll] is the network under
      it, which hands it events whenever it polls.
    - [Listing], [Transfers], [FileFormat], [AddrCorrect], [UiCorrect]: listings,
      uploads and downloads, the .8x file format, addresses, configuration and
      paths, and the user interface; [AppSamples] has a calculator to run.

    The memory manager and its clients.
    - [MemState]: mem.h, the static variables of mem.c, a heap of checked blocks
      with 24-bit addresses, the monad [MM]; malloc, free and realloc are a
      record of answers ([allocator]) with the laws [AllocLaws].
    - [MemPressure], [MemBuffer]: mem.c, one definition per function.
    - [MemLogic]: the program logic of [MM].
    - [RingList], [RingQueue], [RingCorrect]: a ring is a queue of bytes.
    - [PoolCorrect]: a pool is a map of disjoint live allocations, with pools
      for witnesses.
    - [PressureCorrect]: pressure tiers and the throttle hooks.
    - [MemSamples]: allocators and rings for witnesses.

    The USB ethernet driver.
    - [EthRing]: the receive ring of usb_ethernet.c, frames with a length in
      front.
    - [EthState]: the devices, interfaces and transfers; the USB library, the
      allocator and the stack's input are a record of answers ([usb_env]); the
      monad [EM].  [EthDriver]: throttle, drain, transfer callbacks, ECM and NCM
      framing; [EthInit]: the descriptor parser, attaching and detaching.
    - [EthLogic], [NcmCorrect], [EthCorrect], [EthIfaces], [EthEdge]: the program
      logic of [EM] and devices to run, NCM blocks, the parser, the bookkeeping
      of interfaces, and what happens at the edges.

    The TLS layer.
    - [Base64]: tls/core/base64.c.
    - [TlsHash]: hash.c, hmac.c, hkdf.c, passwords.c, over a class [Sha256] for
      the assembly hash with the laws [Sha256Laws]; [Sha256Ref]: FIPS 180-4, an
      instance; [TlsKdf]: the standards and the equivalences.
    - [Rsa], [RsaCorrect]: rsa.c and tls.c; OAEP and PSS.
    - [Asn1], [Asn1Correct]: asn1.c; trees, their encoding and the decoder.
    - [Aes]: aes.c and its assembly helpers; [AesRef], [AesBlock], [GcmField],
      [GcmCorrect], [CbcCorrect], [AesTyped]: FIPS 197, the field and the hash of
      GCM, GCM and CBC, and the types of the context.
    - [Handshake]: handshake.c; [KeySchedule], [HelloCorrect], [RecordCorrect],
      [TlsSession]: the key schedule of RFC 8446, both hellos, records, and the
      derivation of the keys.
    - [AppConfig], [ConfigCorrect]: core/app_config.c, and structs in memory as a
      class [Layout] with laws [LayoutLaws]; [Truststore], [TrustCorrect]:
      truststore.c.
    - [KeyObject]: keyobject.c; [KeyCorrect]: PEM files and RSA keys;
      [CertCorrect]: the decoder with a schema as a function of the elements of a
      tree, and the walk over a certificate; [CertImport]: certificates;
      [KeyEncrypted]: encrypted private keys.
    - [AltcpTls]: altcp_tls_ce.c, the layer that puts TLS between an application
      and TCP, with what it needs of altcp.c and pbuf.c; TCP, memory and the
      application are a record of answers ([tls_env]), the monad is [TM].
      [AltcpCorrect]: the record ring as a queue, the client's handshake,
      application data, acknowledgements; [AltcpLinks]: the list of states, and
      runs of the layer.
    - [TlsSamples], [AesSamples], [HandshakeSamples], [TrustSamples],
      [KeySamples]: published test vectors, and runs for the witnesses.

    ** What the theorems show

    - Library: the session owns exactly the connections it refers to in every
      reachable world ([session_invariant]); no event and no call uses a null or
      released connection, under a condition on packets and on the 150 reply to
      STOR that is stated ([event_safe], [call_safe]) and shown to be needed
      ([stor_after_data_error_faults]); under the same condition a reply does
      what one line of the table says ([control_process_refines]); accepted commands
      write exactly their bytes, rejected ones change nothing.
    - Application: [main] with its network never makes the library fault, under
      the same condition on what comes in ([main_safe]); callbacks nest two deep
      ([callback_depth]); a listing of short lines is parsed the same however it
      is cut into packets; an upload whose segments are accepted and
      acknowledged whole transmits the image, a download collects it; the reader accepts exactly the files whose checksum is right; round
      trips of addresses, configuration and paths; the line editor stays in its
      buffer, the cursor on existing entries.
    - Memory: a ring refines a queue for every allocator and leaks nothing; a
      pool allocates first fit without overlap and gives back what it took; the
      throttle is the maximum of the tiers and falls one tier at a time; frames
      round-trip through the receive ring.
    - Driver: an NCM block is received as the frames its tables point at, what
      is sent is received, reception ends on every block ([ncm_block_received],
      [ncm_round_trip], [ncm_reception_ends]); the descriptor parser is safe on
      well-formed descriptors, whatever strings the device sends; interface list, device pointers and number bitmap
      agree in every reachable state ([interfaces_consistent]).
    - Cryptography: HMAC, HKDF, MGF1, PBKDF2, AES, GCM and CBC are their
      standards, GCM on messages shorter than 8192 bytes that do not end on a
      block boundary; OAEP, CBC and ASN.1 round-trip; PSS verification accepts exactly the encodings.
    - Handshake: the keys derived are those of the RFC 8446 schedule for the
      messages hashed ([key_schedule_exact]); the ServerHello parser is exact on
      structures and safe on arbitrary bytes; a record off a block boundary opens
      exactly when its GCM tag is right; a stream of records round-trips.
    - Trust store and configuration: the clock is the Gregorian calendar; a store
      whose length word counts itself is accepted exactly when it is signed; a
      lookup returns true only for an entry with the hash that passes the checks,
      and finds any such entry unless another with the same hash fails them; a stored configuration is loaded exactly.
    - Keys and certificates: a PEM file with its text in one line, of an RSA key, plain or encrypted as RFC
      8018 says, of a public key or of an X.509 certificate gives an object whose
      fields lie exactly where the parts of the file are
      ([rsa_private_imported], [encrypted_private_imported],
      [rsa_public_imported], [certificate_imported]).
    - TLS under altcp: the client's handshake ends when one delivery brings the
      ServerHello, as the code has it without the server's Finished message
      ([client_handshake]); messages written at one end
      are received at the other ([messages_arrive]); acknowledgements held back
      under memory pressure are all given when it ends
      ([acknowledgements_complete]); the list of states never has a dangling
      entry ([states_listed]).
    - Defects of the code that modelling showed are theorems too: a refused
      frame leaves its header in the ring, a pool that shrinks moves under its
      users, the upload's checksum is two bytes short, a descriptor of length
      zero hangs the parser, the GCM tag of whole blocks is not the standard one,
      the lengths in the ClientHello are two too large, a certificate chain hangs
      the client, a failed check disables the trust store, EC keys and wrapped
      PEM text cannot be imported, two records in one segment abort a TLS
      connection and a record queued behind a full one is lost, and others.

    ** Faults, fuel and bounds

    Undefined behaviour is a value: [Fault f] names what went wrong (a null or
    released pcb, a read past a packet, ...), [Bad f] in the memory manager, and
    [None] for pure buffer code.  A safety theorem says which faults cannot
    happen; those of the client itself ([client_fault]) are the application's.

    - Loops over data recurse on the data.  The knot between callbacks and the
      library is tied with fuel two, which [callback_depth] shows is enough.
    - Loops that wait for a key or for the network take their fuel from the
      list of keypad scans: each turn of the loop consumes one scan, so the
      fault [F_fuel] means that the user has stopped pressing keys, never that
      the bound was too small.  An upload's fuel is one round per byte.
    - The NCM loops have fuel 700: every turn queues at least three bytes in a
      ring of at most 2048 ([ncm_reception_ends]).  The fuel of the notification
      and descriptor loops is the length of what was received, since every turn
      consumes a byte; of MGF1, PBKDF2 and the ServerHello's extensions the
      length of the output or buffer; of the ASN.1 decoder the size of the memory
      plus its depth (two bytes an element pay for its turns); AES modes and
      the calendar count their turns in advance.  The loop of [parse_chain] never
      ends on a chain, for any fuel.  The layer under altcp takes its fuel as an
      argument: one unit is enough for a handshake record and for a record of
      application data in a buffer of its own; a record that stays in the queue
      is met again, so no bound holds of every input.
    - Integers keep their width ([u8], [u16], [u24], [u32], [u64]).  The theorems on
      rings ask for limits below 2^23 bytes, half the address space, so that the
      sum of two sizes does not wrap; calculators have 256 KiB of memory.

    ** What is not modelled

    The lwIP stack (vendored; [tcp_env], [tls_env] and the parameter [service],
    instantiated with [poll] for the whole program, stand for it), [main_StartLwIP] (start-up calls of libraries), drawing other than the
    text shown, delays and key debouncing, debug output, the assembly files
    other than the two helpers of GCM (SHA-256, the random generator and modular
    exponentiation are parameters; elliptic curves are not used), clearing of
    local secrets, the ports of lwIP's applications (http, mdns, mqtt and the
    like) and its mbedTLS layer, which this program does not use, and the example
    program altcp_tls_ce_example.c. *)

From stdpp Require Export base list option numbers strings gmap.
From Stdlib Require Export ZArith Lia.

(** ** Notation scope and hint database *)

Declare Scope lwftp_scope.
Delimit Scope lwftp_scope with lwftp.
Create HintDb lwftp.
Create Rewrite HintDb lwftp.

#[global] Open Scope Z_scope.

(** ** Fixed-width unsigned integers

    The eZ80 toolchain has an 8-bit [char], a 16-bit [uint16_t], a 24-bit
    [int]/[size_t] and a 32-bit [unsigned long].  A value of such a type is a
    [Z] in range; an assignment to the type wraps. *)

Definition u8 (z : Z) : Z := z mod 2 ^ 8.
Definition u16 (z : Z) : Z := z mod 2 ^ 16.
Definition u24 (z : Z) : Z := z mod 2 ^ 24.
Definition u32 (z : Z) : Z := z mod 2 ^ 32.

(** [SIZE_MAX] and [UINT_MAX] of the 24-bit target. *)
Definition SIZE_MAX : Z := 2 ^ 24 - 1.

Lemma u8_range z : 0 <= u8 z < 256.
Proof. apply Z.mod_pos_bound; lia. Qed.
Lemma u16_range z : 0 <= u16 z < 65536.
Proof. apply Z.mod_pos_bound; lia. Qed.
Lemma u24_range z : 0 <= u24 z < 16777216.
Proof. apply Z.mod_pos_bound; lia. Qed.
Lemma u32_range z : 0 <= u32 z < 4294967296.
Proof. apply Z.mod_pos_bound; lia. Qed.

Lemma u8_small z : 0 <= z < 256 -> u8 z = z.
Proof. intros; apply Z.mod_small; lia. Qed.
Lemma u16_small z : 0 <= z < 65536 -> u16 z = z.
Proof. intros; apply Z.mod_small; lia. Qed.
Lemma u24_small z : 0 <= z < 16777216 -> u24 z = z.
Proof. intros; apply Z.mod_small; lia. Qed.
Lemma u32_small z : 0 <= z < 4294967296 -> u32 z = z.
Proof. intros; apply Z.mod_small; lia. Qed.

#[export] Hint Resolve u8_range u16_range u24_range u32_range : lwftp.
#[export] Hint Rewrite u8_small u16_small u24_small u32_small using lia : lwftp.

(** Bits: a shifted value or'ed with one that fits below the shift. *)
Lemma lor_shiftl_add a b k :
  0 <= k -> 0 <= b < 2 ^ k -> Z.lor (Z.shiftl a k) b = a * 2 ^ k + b.
Proof.
  intros Hk Hb. rewrite Z.shiftl_mul_pow2 by done.
  assert (Z.land (a * 2 ^ k) b = 0) as Hl; [|by rewrite <- Z.lxor_lor, <- Z.add_nocarry_lxor].
  apply Z.bits_inj'. intros i Hi. rewrite Z.land_spec, Z.bits_0.
  destruct (decide (i < k)); [by rewrite Z.mul_pow2_bits_low by lia|].
  destruct (decide (b = 0)) as [->|]; [by rewrite Z.bits_0, andb_false_r|].
  rewrite (Z.bits_above_log2 b), andb_false_r; [done|lia|].
  apply Z.log2_lt_pow2; [lia|]. eapply Z.lt_le_trans; [apply Hb|]. apply Z.pow_le_mono_r; lia.
Qed.

Lemma land_255 z : Z.land z 255 = z mod 256.
Proof. change 255 with (Z.ones 8). by rewrite Z.land_ones. Qed.

(** ** Tactics of the development *)

(** Turn boolean tests on integers in the context into propositions. *)
Ltac zbool :=
  repeat match goal with
  | H : (_ =? _) = true |- _ => apply Z.eqb_eq in H
  | H : (_ =? _) = false |- _ => apply Z.eqb_neq in H
  | H : (_ <? _) = true |- _ => apply Z.ltb_lt in H
  | H : (_ <? _) = false |- _ => apply Z.ltb_ge in H
  | H : (_ <=? _) = true |- _ => apply Z.leb_le in H
  | H : (_ <=? _) = false |- _ => apply Z.leb_gt in H
  | H : (_ >? _) = true |- _ => rewrite Z.gtb_lt in H
  | H : (_ >? _) = false |- _ => rewrite Z.gtb_ltb in H; apply Z.ltb_ge in H
  | H : (_ >=? _) = true |- _ => rewrite Z.geb_leb in H; apply Z.leb_le in H
  | H : (_ >=? _) = false |- _ => rewrite Z.geb_leb in H; apply Z.leb_gt in H
  | H : (_ && _) = true |- _ => apply andb_prop in H; destruct H
  | H : (_ || _) = false |- _ => apply orb_false_elim in H; destruct H
  | H : negb _ = true |- _ => apply negb_true_iff in H
  | H : negb _ = false |- _ => apply negb_false_iff in H
  end.

(** Split on every boolean condition of an [if] in the goal. *)
Ltac ifs :=
  repeat match goal with
  | |- context [if ?b then _ else _] =>
      match type of b with bool => let E := fresh "E" in destruct b eqn:E end
  end.

(** Decide an integer test of the goal from the context. *)
Ltac ztest :=
  repeat match goal with
  | |- context [?a =? ?b] =>
      first [ rewrite (proj2 (Z.eqb_eq a b)) by lia
            | rewrite (proj2 (Z.eqb_neq a b)) by lia ]
  | |- context [?a <? ?b] =>
      first [ rewrite (proj2 (Z.ltb_lt a b)) by lia
            | rewrite (proj2 (Z.ltb_ge a b)) by lia ]
  | |- context [?a <=? ?b] =>
      first [ rewrite (proj2 (Z.leb_le a b)) by lia
            | rewrite (proj2 (Z.leb_gt a b)) by lia ]
  end.

(** ** Bytes *)

(** A C byte array is a list of integers in [0, 256). *)
Abbreviation bytes := (list Z).

Definition is_byte (z : Z) : Prop := 0 <= z < 256.

(** The bytes of a literal. *)
Fixpoint str (s : string) : bytes :=
  match s with
  | EmptyString => []
  | String c s' => Z.of_N (Ascii.N_of_ascii c) :: str s'
  end.

Lemma str_app s1 s2 : str (s1 +:+ s2) = str s1 ++ str s2.
Proof. unfold String.app. induction s1 as [|c s1 IH]; simpl; [done|]. by rewrite IH. Qed.

Arguments str _ : simpl never.

(** ** Lists *)

(** The sum of a list of bytes. *)
Definition zsum (l : list Z) : Z := foldr Z.add 0 l.

Lemma zsum_app l k : zsum (l ++ k) = zsum l + zsum k.
Proof. induction l; simpl in *; unfold zsum in *; simpl; lia. Qed.

Lemma zsum_replicate0 n : zsum (replicate n 0) = 0.
Proof. induction n; simpl; unfold zsum in *; simpl; lia. Qed.
