(* ===== verification/CLib.v ===== *)
(** * The C library routines the program calls on byte buffers

    [strtoul], [strchr], [strrchr], [strstr], [strncmp], [memchr], [memcpy]
    and [memset] as the C standard gives them, on buffers that know their
    extent: an access outside the list is reported ([None]), it never invents
    a byte.  A pointer into a buffer is the suffix of the buffer it points
    at. *)

From S2P Require Import Prelude.

(** ** Character classes and constants *)

Definition isspace (c : Z) : bool := (c =? 32) || ((9 <=? c) && (c <=? 13)).
Definition isdigit (c : Z) : bool := (48 <=? c) && (c <=? 57).

Definition ch_nul : Z := 0.
Definition ch_lf : Z := 10.
Definition ch_cr : Z := 13.
Definition ch_space : Z := 32.
Definition ch_bang : Z := 33.
Definition ch_dquote : Z := 34.
Definition ch_hash : Z := 35.
Definition ch_lpar : Z := 40.
Definition ch_rpar : Z := 41.
Definition ch_dot : Z := 46.
Definition ch_slash : Z := 47.

(** ** [strtoul(p, &p, 10)] *)

Definition ULONG_MAX : Z := 2 ^ 32 - 1.

Fixpoint skip_space (l : bytes) : bytes :=
  match l with
  | c :: l' => if isspace c then skip_space l' else l
  | [] => []
  end.

(** Value of the leading digits, how many there are and where they end;
    [None] when the digits reach the end of the buffer. *)
Fixpoint scan_digits (acc : Z) (n : nat) (l : bytes) : option (Z * nat * bytes) :=
  match l with
  | [] => None
  | c :: l' =>
      if isdigit c then scan_digits (10 * acc + (c - 48)) (S n) l'
      else Some (acc, n, l)
  end.

Definition scan_sign (l : bytes) : bool * bytes :=
  match l with
  | c :: l' => if c =? 45 then (true, l') else if c =? 43 then (false, l') else (false, l)
  | [] => (false, l)
  end.

(** Returns the 32-bit value and the end pointer; [None] is a read past the
    end of the buffer.  With no digit the value is 0 and the pointer does not
    move; a value over [ULONG_MAX] saturates. *)
Definition strtoul10 (l : bytes) : option (Z * bytes) :=
  let '(neg, l1) := scan_sign (skip_space l) in
  match scan_digits 0 0 l1 with
  | None => None
  | Some (_, O, _) => Some (0, l)
  | Some (v, S _, rest) =>
      if v >? ULONG_MAX then Some (ULONG_MAX, rest)
      else Some (if neg then u32 (- v) else v, rest)
  end.

(** ** Searching *)

(** [strchr]: outer [None] is a read past the end of the buffer, inner [None]
    is the null pointer. *)
Fixpoint strchr (l : bytes) (c : Z) : option (option bytes) :=
  match l with
  | [] => None
  | x :: l' => if x =? c then Some (Some l)
               else if x =? 0 then Some None else strchr l' c
  end.

(** [memchr(p, c, n)]: index of the first [c] among the first [n] bytes. *)
Fixpoint memchr (l : bytes) (c : Z) (n : nat) : option nat :=
  match n, l with
  | S n', x :: l' => if x =? c then Some O else S <$> memchr l' c n'
  | _, _ => None
  end.

(** The string in a buffer: the bytes before its terminator. *)
Fixpoint cstr (l : bytes) : bytes :=
  match l with
  | c :: l' => if c =? 0 then [] else c :: cstr l'
  | [] => []
  end.

(** The buffer holds a terminated string. *)
Definition terminated (l : bytes) : bool := bool_decide (0 ∈ l).

(** [strrchr] on the string of a buffer: index of the last [c]. *)
Fixpoint strrchr (l : bytes) (c : Z) : option nat :=
  match l with
  | [] => None
  | x :: l' =>
      match strrchr l' c with
      | Some i => Some (S i)
      | None => if x =? c then Some O else None
      end
  end.

(** [strncmp(a, b, n) == 0]; both strings are given without their
    terminators, the end of a list reads as the terminator. *)
Fixpoint strncmp_eq (a b : bytes) (n : nat) : bool :=
  match n with
  | O => true
  | S n' =>
      match a, b with
      | [], [] => true
      | x :: a', y :: b' => (x =? y) && strncmp_eq a' b' n'
      | _, _ => false
      end
  end.

(** [strstr]: the suffix of [l] that starts with [pat]. *)
Fixpoint strstr (l pat : bytes) : option bytes :=
  if strncmp_eq l pat (length pat) then Some l
  else match l with
       | [] => None
       | _ :: l' => strstr l' pat
       end.

(** ** Writing *)

(** [memcpy(buf + off, data, |data|)]; [None] is a write outside the buffer. *)
Definition store (buf : bytes) (off : nat) (data : bytes) : option bytes :=
  if decide (off + length data <= length buf)%nat
  then Some (take off buf ++ data ++ drop (off + length data) buf)
  else None.

(** [memset(buf + off, 0, n)]. *)
Definition store0 (buf : bytes) (off n : nat) : option bytes :=
  store buf off (replicate n 0).

(** [strcpy(buf + off, s)]: the string and its terminator. *)
Definition strcpy (buf : bytes) (off : nat) (s : bytes) : option bytes :=
  store buf off (s ++ [0]).

(** Little-endian 16-bit load and store. *)
Definition load16 (buf : bytes) (off : nat) : option Z :=
  match buf !! off, buf !! S off with
  | Some lo, Some hi => Some (lo + 256 * hi)
  | _, _ => None
  end.

Definition bytes16 (v : Z) : bytes := [u16 v mod 256; u16 v / 256].

Definition store16 (buf : bytes) (off : nat) (v : Z) : option bytes :=
  store buf off (bytes16 v).

(** ** Printing an unsigned number in decimal *)

Fixpoint dec_digits (fuel : nat) (n : Z) : bytes :=
  match fuel with
  | O => []
  | S f => (if n <? 10 then [] else dec_digits f (n / 10)) ++ [48 + n mod 10]
  end.

(** Ten digits are enough for every 32-bit number. *)
Definition print_uint (n : Z) : bytes := dec_digits 10 n.
Arguments print_uint _ : simpl never.

(** ** Printing and parsing numbers *)

(** A buffer that goes on with something that is not a digit. *)
Definition no_digit (l : bytes) : Prop := exists c l', l = c :: l' /\ isdigit c = false.

Lemma isdigit_dec d : 0 <= d < 10 -> isdigit (48 + d) = true.
Proof. intros. unfold isdigit. by ztest. Qed.

Lemma dec_digits_nonempty f n : (0 < f)%nat -> dec_digits f n <> [].
Proof. destruct f; [lia|]. simpl. intros _ E. by apply app_eq_nil in E as [_ ?]. Qed.

Lemma dec_digits_head f n d l :
  0 <= n -> dec_digits f n = d :: l -> 48 <= d <= 57.
Proof.
  revert n d l. induction f as [|f IH]; [done|]. intros n d l Hn; simpl.
  destruct (n <? 10) eqn:E; zbool; simpl.
  - intros [= <- <-]. rewrite Z.mod_small by lia. lia.
  - destruct (dec_digits f (n / 10)) as [|d' l'] eqn:Ed; simpl; intros [= <- _].
    + pose proof (Z.mod_pos_bound n 10). lia.
    + eapply IH; [|done]. apply Z.div_pos; lia.
Qed.

Lemma scan_digits_dec f acc k n rest :
  0 <= n < 10 ^ Z.of_nat f -> (0 < f)%nat ->
  scan_digits acc k (dec_digits f n ++ rest) =
  scan_digits (acc * 10 ^ Z.of_nat (length (dec_digits f n)) + n)
    (k + length (dec_digits f n)) rest.
Proof.
  revert acc k n rest. induction f as [|f IH]; [lia|]. intros acc k n rest Hn _. simpl dec_digits.
  destruct (n <? 10) eqn:E; zbool.
  - simpl. rewrite isdigit_dec by (rewrite Z.mod_small; lia).
    rewrite Z.mod_small by lia. f_equal; lia.
  - assert (0 < f)%nat.
    { destruct f; [|lia]. change (10 ^ Z.of_nat 1) with 10 in Hn. lia. }
    rewrite <- app_assoc, IH; [|split; [apply Z.div_pos; lia|]|done].
    + simpl. pose proof (Z.mod_pos_bound n 10).
      rewrite isdigit_dec by lia. rewrite length_app. simpl. f_equal; [|lia].
      rewrite Nat2Z.inj_add, Z.pow_add_r by lia. change (10 ^ Z.of_nat 1) with 10.
      pose proof (Z.div_mod n 10). lia.
    + apply Z.div_lt_upper_bound; [lia|]. rewrite Nat2Z.inj_succ, Z.pow_succ_r in Hn by lia. lia.
Qed.

Lemma skip_space_digit d l : 48 <= d <= 57 -> skip_space (d :: l) = d :: l.
Proof. intros. simpl. unfold isspace. by ztest. Qed.

Lemma scan_sign_digit d l : 48 <= d <= 57 -> scan_sign (d :: l) = (false, d :: l).
Proof. intros. simpl. by ztest. Qed.

(** Parsing a printed 32-bit number gives it back and stops at its end. *)
Lemma strtoul10_print n rest :
  0 <= n <= ULONG_MAX -> no_digit rest ->
  strtoul10 (print_uint n ++ rest) = Some (n, rest).
Proof.
  intros Hn (c & l & -> & Hc). unfold print_uint.
  assert (n < 10 ^ Z.of_nat 10) as Hb.
  { change (10 ^ Z.of_nat 10) with 10000000000. change ULONG_MAX with 4294967295 in Hn. lia. }
  destruct (dec_digits 10 n) as [|d ds] eqn:Ed.
  { exfalso. eapply (dec_digits_nonempty 10 n); [lia|done]. }
  pose proof (dec_digits_head 10 n d ds ltac:(lia) Ed) as Hd.
  unfold strtoul10. simpl app. rewrite skip_space_digit, scan_sign_digit by done.
  change (d :: ds ++ c :: l) with ((d :: ds) ++ c :: l). rewrite <- Ed.
  rewrite scan_digits_dec by lia. rewrite Ed. simpl scan_digits. rewrite Hc. simpl length.
  replace (0 * _ + n) with n by lia. destruct (n >? ULONG_MAX) eqn:E; zbool; [lia|done].
Qed.
