(* ===== verification/Session.v ===== *)
(** * The FTP session, the TCP interface and the effect monad

    The data of [src/src/lwftp.h] (session structure, control states, result
    codes), the part of lwIP's raw TCP interface the client uses
    ([src/src/core/tcp.c], [src/src/core/tcp_out.c]), and the monad in which
    every handler of the client is written.

    - The application that owns the session is a class [Client]: the type of
      its state, of the [char] pointers it hands over and of its three kinds of
      callback.  What those callbacks do is a second class, [ClientOps].
    - The network is a record [tcp_env] of answers: each call of the TCP
      interface asks it with the whole history of calls so far, so quantifying
      over [tcp_env] quantifies over every behaviour of the stack and peer.
    - A handler runs in [M]: it passes the [world] on, or stops with the
      [fault] of the first undefined access. *)

From S2P Require Import Prelude CLib.

(** ** Result codes and control states (lwftp.h) *)

Definition LWFTP_RESULT_OK : Z := 0.
Definition LWFTP_RESULT_INPROGRESS : Z := 1.
Definition LWFTP_RESULT_LOGGED : Z := 2.
Definition LWFTP_RESULT_ERR_UNKNOWN : Z := 3.
Definition LWFTP_RESULT_ERR_ARGUMENT : Z := 4.
Definition LWFTP_RESULT_ERR_MEMORY : Z := 5.
Definition LWFTP_RESULT_ERR_CONNECT : Z := 6.
Definition LWFTP_RESULT_ERR_HOSTNAME : Z := 7.
Definition LWFTP_RESULT_ERR_CLOSED : Z := 8.
Definition LWFTP_RESULT_ERR_TIMEOUT : Z := 9.
Definition LWFTP_RESULT_ERR_SRVR_RESP : Z := 10.
Definition LWFTP_RESULT_ERR_INTERNAL : Z := 11.
Definition LWFTP_RESULT_ERR_LOCAL : Z := 12.
Definition LWFTP_RESULT_ERR_FILENAME : Z := 13.

Inductive lwftp_state_t :=
| LWFTP_CLOSED
| LWFTP_CONNECTED
| LWFTP_USER_SENT
| LWFTP_PASS_SENT
| LWFTP_LOGGED
| LWFTP_TYPE_SENT
| LWFTP_PASV_SENT
| LWFTP_RETR_SENT
| LWFTP_STOR_SENT
| LWFTP_XFERING
| LWFTP_DATAEND
| LWFTP_QUIT
| LWFTP_QUIT_SENT
| LWFTP_CLOSING
| LWFTP_MLSD_SENT
| LWFTP_DELE_SENT
| LWFTP_RMD_SENT
| LWFTP_CWD_SENT
| LWFTP_PWD_SENT
| LWFTP_RNFR_SENT
| LWFTP_RNTO_SENT
| LWFTP_CMDEND.

#[global] Instance lwftp_state_t_eq_dec : EqDecision lwftp_state_t.
Proof. solve_decision. Defined.

(** lwIP error codes (lwip/err.h). *)
Definition ERR_OK : Z := 0.
Definition ERR_BUF : Z := -2.
Definition ERR_ISCONN : Z := -10.
Definition ERR_ARG : Z := -16.

(** ** The client interface: types *)

(** A protocol control block, by identity. *)
Abbreviation pcb := nat.

Class Client := {
  cl_state : Type;   (** the application's own state *)
  cl_ptr : Type;     (** [const char *] values it stores in the session *)
  cl_source : Type;  (** function pointers of type [data_source] *)
  cl_sink : Type;    (** function pointers of type [data_sink] *)
  cl_done : Type     (** function pointers of type [done_fn] *)
}.

(** ** The session structure *)

Record lwftp_session_t `{Client} := mk_session {
  server_ip : Z;
  server_port : Z;
  remote_path : option cl_ptr;
  remote_new_path : option cl_ptr;
  user : option cl_ptr;
  pass : option cl_ptr;
  handle : option unit;
  data_source : option cl_source;
  data_sink : option cl_sink;
  done_fn : option cl_done;
  timeout : Z;
  control_state : lwftp_state_t;
  target_state : lwftp_state_t;
  data_state : lwftp_state_t;
  control_pcb : option pcb;
  data_pcb : option pcb
}.
Arguments mk_session {_}.

Definition set_server_ip `{Client} (v : Z) (s : lwftp_session_t) : lwftp_session_t :=
  mk_session v (server_port s) (remote_path s) (remote_new_path s) (user s) (pass s) (handle s) (data_source s) (data_sink s) (done_fn s) (timeout s) (control_state s) (target_state s) (data_state s) (control_pcb s) (data_pcb s).
Definition set_server_port `{Client} (v : Z) (s : lwftp_session_t) : lwftp_session_t :=
  mk_session (server_ip s) v (remote_path s) (remote_new_path s) (user s) (pass s) (handle s) (data_source s) (data_sink s) (done_fn s) (timeout s) (control_state s) (target_state s) (data_state s) (control_pcb s) (data_pcb s).
Definition set_remote_path `{Client} (v : option cl_ptr) (s : lwftp_session_t) : lwftp_session_t :=
  mk_session (server_ip s) (server_port s) v (remote_new_path s) (user s) (pass s) (handle s) (data_source s) (data_sink s) (done_fn s) (timeout s) (control_state s) (target_state s) (data_state s) (control_pcb s) (data_pcb s).
Definition set_remote_new_path `{Client} (v : option cl_ptr) (s : lwftp_session_t) : lwftp_session_t :=
  mk_session (server_ip s) (server_port s) (remote_path s) v (user s) (pass s) (handle s) (data_source s) (data_sink s) (done_fn s) (timeout s) (control_state s) (target_state s) (data_state s) (control_pcb s) (data_pcb s).
Definition set_user `{Client} (v : option cl_ptr) (s : lwftp_session_t) : lwftp_session_t :=
  mk_session (server_ip s) (server_port s) (remote_path s) (remote_new_path s) v (pass s) (handle s) (data_source s) (data_sink s) (done_fn s) (timeout s) (control_state s) (target_state s) (data_state s) (control_pcb s) (data_pcb s).
Definition set_pass `{Client} (v : option cl_ptr) (s : lwftp_session_t) : lwftp_session_t :=
  mk_session (server_ip s) (server_port s) (remote_path s) (remote_new_path s) (user s) v (handle s) (data_source s) (data_sink s) (done_fn s) (timeout s) (control_state s) (target_state s) (data_state s) (control_pcb s) (data_pcb s).
Definition set_handle `{Client} (v : option unit) (s : lwftp_session_t) : lwftp_session_t :=
  mk_session (server_ip s) (server_port s) (remote_path s) (remote_new_path s) (user s) (pass s) v (data_source s) (data_sink s) (done_fn s) (timeout s) (control_state s) (target_state s) (data_state s) (control_pcb s) (data_pcb s).
Definition set_data_source `{Client} (v : option cl_source) (s : lwftp_session_t) : lwftp_session_t :=
  mk_session (server_ip s) (server_port s) (remote_path s) (remote_new_path s) (user s) (pass s) (handle s) v (data_sink s) (done_fn s) (timeout s) (control_state s) (target_state s) (data_state s) (control_pcb s) (data_pcb s).
Definition set_data_sink `{Client} (v : option cl_sink) (s : lwftp_session_t) : lwftp_session_t :=
  mk_session (server_ip s) (server_port s) (remote_path s) (remote_new_path s) (user s) (pass s) (handle s) (data_source s) v (done_fn s) (timeout s) (control_state s) (target_state s) (data_state s) (control_pcb s) (data_pcb s).
Definition set_done_fn `{Client} (v : option cl_done) (s : lwftp_session_t) : lwftp_session_t :=
  mk_session (server_ip s) (server_port s) (remote_path s) (remote_new_path s) (user s) (pass s) (handle s) (data_source s) (data_sink s) v (timeout s) (control_state s) (target_state s) (data_state s) (control_pcb s) (data_pcb s).
Definition set_timeout `{Client} (v : Z) (s : lwftp_session_t) : lwftp_session_t :=
  mk_session (server_ip s) (server_port s) (remote_path s) (remote_new_path s) (user s) (pass s) (handle s) (data_source s) (data_sink s) (done_fn s) v (control_state s) (target_state s) (data_state s) (control_pcb s) (data_pcb s).
Definition set_control_state `{Client} (v : lwftp_state_t) (s : lwftp_session_t) : lwftp_session_t :=
  mk_session (server_ip s) (server_port s) (remote_path s) (remote_new_path s) (user s) (pass s) (handle s) (data_source s) (data_sink s) (done_fn s) (timeout s) v (target_state s) (data_state s) (control_pcb s) (data_pcb s).
Definition set_target_state `{Client} (v : lwftp_state_t) (s : lwftp_session_t) : lwftp_session_t :=
  mk_session (server_ip s) (server_port s) (remote_path s) (remote_new_path s) (user s) (pass s) (handle s) (data_source s) (data_sink s) (done_fn s) (timeout s) (control_state s) v (data_state s) (control_pcb s) (data_pcb s).
Definition set_data_state `{Client} (v : lwftp_state_t) (s : lwftp_session_t) : lwftp_session_t :=
  mk_session (server_ip s) (server_port s) (remote_path s) (remote_new_path s) (user s) (pass s) (handle s) (data_source s) (data_sink s) (done_fn s) (timeout s) (control_state s) (target_state s) v (control_pcb s) (data_pcb s).
Definition set_control_pcb `{Client} (v : option pcb) (s : lwftp_session_t) : lwftp_session_t :=
  mk_session (server_ip s) (server_port s) (remote_path s) (remote_new_path s) (user s) (pass s) (handle s) (data_source s) (data_sink s) (done_fn s) (timeout s) (control_state s) (target_state s) (data_state s) v (data_pcb s).
Definition set_data_pcb `{Client} (v : option pcb) (s : lwftp_session_t) : lwftp_session_t :=
  mk_session (server_ip s) (server_port s) (remote_path s) (remote_new_path s) (user s) (pass s) (handle s) (data_source s) (data_sink s) (done_fn s) (timeout s) (control_state s) (target_state s) (data_state s) (control_pcb s) v.

(** ** The TCP interface *)

(** The callbacks a pcb can carry: the functions of lwftp.c. *)
Inductive recv_fn := lwftp_control_recv_cb | lwftp_data_recv_cb.
Inductive sent_fn := lwftp_control_sent_cb | lwftp_data_sent_cb.
Inductive err_fn := lwftp_control_err_cb | lwftp_data_err_cb.
Inductive conn_fn := lwftp_control_connected_cb | lwftp_data_connected_cb.

(** The connection states the client can tell apart: a pcb on no list, one
    that has sent its SYN, one whose handshake is complete (all later states of
    [enum tcp_state] are folded into the last). *)
Inductive pcb_state := PCB_CLOSED | PCB_SYN_SENT | PCB_ESTABLISHED.

#[global] Instance pcb_state_eq_dec : EqDecision pcb_state.
Proof. solve_decision. Defined.

(** The application-visible fields of [struct tcp_pcb].  The only argument
    ever registered is the session. *)
Record tcp_pcb := mk_pcb {
  pstate : pcb_state;
  callback_arg : option unit;
  recv : option recv_fn;
  sent : option sent_fn;
  errf : option err_fn;
  connected : option conn_fn
}.

Definition set_pstate v p := mk_pcb v (callback_arg p) (recv p) (sent p) (errf p) (connected p).
Definition set_callback_arg v p := mk_pcb (pstate p) v (recv p) (sent p) (errf p) (connected p).
Definition set_recv v p := mk_pcb (pstate p) (callback_arg p) v (sent p) (errf p) (connected p).
Definition set_sent v p := mk_pcb (pstate p) (callback_arg p) (recv p) v (errf p) (connected p).
Definition set_errf v p := mk_pcb (pstate p) (callback_arg p) (recv p) (sent p) v (connected p).
Definition set_connected v p := mk_pcb (pstate p) (callback_arg p) (recv p) (sent p) (errf p) v.

(** A received packet: the payload of its first buffer and of the chained
    ones.  The stack never hands over an empty chain. *)
Record pbuf := mk_pbuf { payload : bytes; next : list bytes }.

Definition pbuf_chain (p : pbuf) : list bytes := payload p :: next p.
Definition tot_len (p : pbuf) : Z := Z.of_nat (length (concat (pbuf_chain p))).

(** What the client did to the stack, in order. *)
Inductive event :=
| E_new (r : option pcb)
| E_connect (p : pcb) (ip port : Z) (err : Z)
| E_write (p : pcb) (data : bytes) (err : Z)
| E_output (p : pcb)
| E_recved (p : pcb) (n : Z)
| E_close (p : pcb) (err : Z)
| E_pbuf_free (p : pbuf).

Abbreviation trace := (list event).

(** The answers of the stack; the trace is the history, latest call first. *)
Record tcp_env := mk_env {
  env_new : trace -> bool;
  env_connect : trace -> pcb -> Z -> Z -> Z;
  env_write : trace -> pcb -> bytes -> Z;
  env_close : trace -> pcb -> Z;
  env_mss : trace -> pcb -> Z
}.

(** ** World, faults and the monad *)

Record world `{Client} := mk_world {
  w_sess : lwftp_session_t;
  w_pcbs : gmap nat tcp_pcb;   (** the pcbs the client may use *)
  w_next : nat;                (** next fresh pcb *)
  w_trace : trace;             (** history, latest event first *)
  w_cl : cl_state
}.
Arguments mk_world {_}.

Definition upd_sess `{Client} (f : lwftp_session_t -> lwftp_session_t) (w : world) : world :=
  mk_world (f (w_sess w)) (w_pcbs w) (w_next w) (w_trace w) (w_cl w).
Definition upd_pcbs `{Client} (f : gmap nat tcp_pcb -> gmap nat tcp_pcb) (w : world) : world :=
  mk_world (w_sess w) (f (w_pcbs w)) (w_next w) (w_trace w) (w_cl w).
Definition upd_cl `{Client} (c : cl_state) (w : world) : world :=
  mk_world (w_sess w) (w_pcbs w) (w_next w) (w_trace w) c.
Definition log `{Client} (e : event) (w : world) : world :=
  mk_world (w_sess w) (w_pcbs w) (w_next w) (e :: w_trace w) (w_cl w).

(** Undefined behaviour of the C program, by what went wrong. *)
Inductive fault :=
| F_null_mss        (** [s->data_pcb->mss] through a null [data_pcb] *)
| F_null_pcb        (** a null pcb passed to [tcp_output] *)
| F_dead_pcb        (** a pcb used after it was closed or freed *)
| F_null_arg        (** a callback dereferences a null argument *)
| F_null_fn         (** a call through a null function pointer *)
| F_null_string     (** [strlen] of a null pointer *)
| F_overread        (** a read past the end of a received payload *)
| F_uninit          (** an uninitialised pointer handed to [tcp_write] *)
| F_client          (** undefined behaviour inside the application *)
| F_fuel.           (** callbacks nest deeper than the fuel, or the recorded
                        keypad input ends *)

#[global] Instance fault_eq_dec : EqDecision fault.
Proof. solve_decision. Defined.

Inductive outcome `{Client} (A : Type) :=
| Done (a : A) (w : world)
| Fault (f : fault).
Arguments Done {_ _} _ _.
Arguments Fault {_ _} _.

Definition M `{Client} (A : Type) : Type := world -> outcome A.

#[global] Instance M_ret `{Client} : MRet M := fun A a w => Done a w.
#[global] Instance M_bind `{Client} : MBind M :=
  fun A B k m w => match m w with Done a w' => k a w' | Fault f => Fault f end.

Definition fail `{Client} {A} (f : fault) : M A := fun _ => Fault f.
Definition gets `{Client} {A} (f : world -> A) : M A := fun w => Done (f w) w.
Definition modify `{Client} (f : world -> world) : M unit := fun w => Done tt (f w).
Definition sess `{Client} : M lwftp_session_t := gets w_sess.
Definition set `{Client} (f : lwftp_session_t -> lwftp_session_t) : M unit :=
  modify (upd_sess f).

(** A null-checked dereference. *)
Definition deref `{Client} {A} (f : fault) (o : option A) : M A :=
  match o with Some a => mret a | None => fail f end.

(** [if (c) { m }] *)
Definition whenM `{Client} (c : bool) (m : M unit) : M unit :=
  if c then m else mret tt.

(** ** Calls of the TCP interface *)

Section Tcp.
Context `{Client} (env : tcp_env).

(** Access to a pcb the stack has not taken back. *)
Definition live {A} (p : pcb) (k : tcp_pcb -> M A) : M A := fun w =>
  match w_pcbs w !! p with
  | Some t => k t w
  | None => Fault F_dead_pcb
  end.

(** Change a field of a live pcb; a null pcb is ignored, as the setters of
    tcp.c do. *)
Definition pcb_update (o : option pcb) (f : tcp_pcb -> tcp_pcb) : M unit :=
  match o with
  | None => mret tt
  | Some p => live p (fun t => modify (upd_pcbs (insert p (f t))))
  end.

Definition tcp_arg (o : option pcb) (arg : option unit) : M unit :=
  pcb_update o (set_callback_arg arg).
Definition tcp_recv (o : option pcb) (f : option recv_fn) : M unit :=
  pcb_update o (set_recv f).
Definition tcp_sent (o : option pcb) (f : option sent_fn) : M unit :=
  pcb_update o (set_sent f).
Definition tcp_err (o : option pcb) (f : option err_fn) : M unit :=
  pcb_update o (set_errf f).

(** A fresh pcb, or null when the stack has no memory left. *)
Definition tcp_new : M (option pcb) := fun w =>
  if env_new env (w_trace w) then
    Done (Some (w_next w))
      (log (E_new (Some (w_next w)))
        (mk_world (w_sess w)
          (<[w_next w := mk_pcb PCB_CLOSED None None None None None]> (w_pcbs w))
          (S (w_next w)) (w_trace w) (w_cl w)))
  else Done None (log (E_new None) w).

(** Only a pcb in state CLOSED can connect.  The connected callback takes
    effect when the SYN is enqueued: until then the pcb is on no list of the
    stack and calls nobody. *)
Definition tcp_connect (o : option pcb) (ip port : Z) (f : conn_fn) : M Z :=
  match o with
  | None => mret ERR_ARG
  | Some p => live p (fun t w =>
      if decide (pstate t = PCB_CLOSED) then
        let e := env_connect env (w_trace w) p ip port in
        let w' := log (E_connect p ip port e) w in
        if e =? ERR_OK then
          Done e (upd_pcbs (insert p (set_connected (Some f) (set_pstate PCB_SYN_SENT t))) w')
        else Done e w'
      else Done ERR_ISCONN w)
  end.

(** The call is logged with the bytes it refers to; the stack keeps a
    reference to them, not a copy ([apiflags] is 0). *)
Definition tcp_write (o : option pcb) (data : bytes) : M Z :=
  match o with
  | None => mret ERR_ARG
  | Some p => live p (fun _ w =>
      let e := env_write env (w_trace w) p data in
      Done e (log (E_write p data e) w))
  end.

(** [tcp_output] dereferences its argument unchecked. *)
Definition tcp_output (o : option pcb) : M unit :=
  p ← deref F_null_pcb o;
  live p (fun _ => modify (log (E_output p))).

Definition tcp_recved (o : option pcb) (n : Z) : M unit :=
  match o with
  | None => mret tt
  | Some p => live p (fun _ => modify (log (E_recved p n)))
  end.

(** A successful close gives the pcb back to the stack: it must not be used
    again.  On an error the pcb stays allocated. *)
Definition tcp_close (o : option pcb) : M Z :=
  match o with
  | None => mret ERR_ARG
  | Some p => live p (fun _ w =>
      let e := env_close env (w_trace w) p in
      let w' := log (E_close p e) w in
      if e =? ERR_OK then Done e (upd_pcbs (delete p) w') else Done e w')
  end.

(** The read [pcb->mss]. *)
Definition pcb_mss (o : option pcb) : M Z :=
  p ← deref F_null_mss o;
  live p (fun _ => gets (fun w => env_mss env (w_trace w) p)).

Definition pbuf_free (p : pbuf) : M unit := modify (log (E_pbuf_free p)).

End Tcp.

(** ** The client interface: operations *)

(** What the application's callbacks do.  A sink gets its data pointer (null
    or the bytes) and length; a source gets whether its [pptr] argument is
    non-null and the length, and returns the length together with what it
    stored in [*pptr]: the bytes at that address, if anything. *)
Class ClientOps `{Client} := {
  cl_str : cl_state -> cl_ptr -> bytes;
  call_done : cl_done -> option unit -> Z -> M unit;
  call_sink : cl_sink -> option unit -> option bytes -> Z -> M Z;
  call_source : cl_source -> option unit -> bool -> Z -> M (Z * option bytes)
}.
