(* ===== verification/Lwftp.v ===== *)
(** * The FTP client state machine ([src/src/lwftp.c])

    One definition per function of lwftp.c, in the order of the source, in the
    monad [M] of [Session].  The client's callbacks are reached through the
    [ClientOps] instance; the network answers through [env].  Debug output
    ([LWIP_DEBUGF], [LOG_ERROR], [LOG_TRACE]) has no effect on the state and is
    left out.  The build sets [NO_SYS], so [tcpip_callback] is the local
    [lwftp_tcpip_callback]. *)

From S2P Require Import Prelude CLib Session.

Section Lwftp.
Context `{ops : ClientOps} (env : tcp_env).

(** Run the function with the context, in place. *)
Definition lwftp_tcpip_callback (function : M unit) : M Z :=
  function;; mret ERR_OK.

(** Deregister the callbacks and close; the result of [tcp_close] is dropped. *)
Definition lwftp_pcb_close (tpcb : option pcb) : M Z :=
  tcp_err tpcb None;;
  tcp_recv tpcb None;;
  tcp_sent tpcb None;;
  _ ← tcp_close env tpcb;
  mret ERR_OK.

(** [s->done_fn(s->handle, result)], when there is one. *)
Definition done (result : Z) : M unit :=
  s ← sess;
  match done_fn s with
  | Some f => call_done f (handle s) result
  | None => mret tt
  end.

(** The string at a session pointer, for [strlen] and [tcp_write]. *)
Definition session_string (o : option cl_ptr) : M bytes :=
  p ← deref F_null_string o;
  gets (fun w => cl_str (w_cl w) p).

(** The bytes a source left at its pointer. *)
Definition source_bytes (len : Z) (data : option bytes) : M bytes :=
  match data with
  | None => fail F_uninit
  | Some b => if decide (length b < Z.to_nat len)%nat then fail F_overread
              else mret (take (Z.to_nat len) b)
  end.

Definition lwftp_send_next_data : M Z :=
  s ← sess;
  len ← (match data_source s with
         | Some f =>
             mss ← pcb_mss env (data_pcb s);
             '(len, data) ← call_source f (handle s) true mss;
             (if len =? 0 then mret tt
              else b ← source_bytes len data;
                   s' ← sess;
                   _ ← tcp_write env (data_pcb s') b;
                   mret tt);;
             mret len
         | None => mret 0
         end);
  (if len =? 0 then
     s' ← sess;
     _ ← lwftp_pcb_close (data_pcb s');
     set (set_data_pcb None)
   else mret tt);;
  mret ERR_OK.

(** Feed the buffers of a chain to the sink, in order; the function pointer
    is read again for each buffer. *)
Fixpoint sink_chain (qs : list bytes) : M unit :=
  match qs with
  | [] => mret tt
  | q :: qs' =>
      s ← sess;
      f ← deref F_null_fn (data_sink s);
      _ ← call_sink f (handle s) (Some q) (Z.of_nat (length q));
      sink_chain qs'
  end.

Definition lwftp_data_recv (arg : option unit) (tpcb : option pcb)
    (p : option pbuf) (err : Z) : M Z :=
  _ ← deref F_null_arg arg;
  s ← sess;
  (match p with
   | Some p =>
       (match data_sink s with
        | Some _ => sink_chain (pbuf_chain p)
        | None => mret tt
        end);;
       tcp_recved tpcb (tot_len p);;
       pbuf_free p
   | None =>
       (match data_sink s with
        | Some f => _ ← call_sink f (handle s) None 0; mret tt
        | None => mret tt
        end);;
       s' ← sess;
       match data_pcb s' with
       | Some d => _ ← lwftp_pcb_close (Some d); set (set_data_pcb None)
       | None => mret tt
       end
   end);;
  mret ERR_OK.

Definition lwftp_data_sent (arg : option unit) (tpcb : option pcb) (len : Z) : M Z :=
  _ ← deref F_null_arg arg;
  s ← sess;
  (match data_source s with
   | Some f => _ ← call_source f (handle s) false len; mret tt
   | None => mret tt
   end);;
  lwftp_send_next_data.

Definition lwftp_data_connected (arg : option unit) (tpcb : option pcb) (err : Z) : M Z :=
  _ ← deref F_null_arg arg;
  whenM (err =? ERR_OK) (set (set_data_state LWFTP_CONNECTED));;
  mret err.

(** [IP_ADDR4]: the address as the 32-bit number [a.b.c.d]. *)
Definition ip_addr4 (a b c d : Z) : Z :=
  Z.lor (Z.lor (Z.lor (Z.shiftl (Z.land a 255) 24) (Z.shiftl (Z.land b 255) 16))
               (Z.shiftl (Z.land c 255) 8)) (Z.land d 255).

(** [strtoul(ptr+1, &ptr, 10)] on a pointer into the payload; [None] is a
    read past its end. *)
Definition strtoul_next (ptr : bytes) : option (Z * bytes) :=
  match ptr with
  | [] => None
  | _ :: q => strtoul10 q
  end.

(** The address and port of a PASV reply, [inr ERR_BUF] when it has no
    parenthesised list; [None] when the parser reads past the payload. *)
Definition pasv_params (buf : bytes) : option (Z * Z + Z) :=
  o ← strchr buf ch_lpar;
  match o with
  | None => Some (inr ERR_BUF)
  | Some ptr =>
      '(a, ptr) ← strtoul_next ptr;
      '(b, ptr) ← strtoul_next ptr;
      '(c, ptr) ← strtoul_next ptr;
      '(d, ptr) ← strtoul_next ptr;
      '(hi, ptr) ← strtoul_next ptr;
      '(lo, ptr) ← strtoul_next ptr;
      last ← head ptr;
      if last =? ch_rpar
      then Some (inl (ip_addr4 a b c d, u16 (Z.lor (u16 (Z.shiftl hi 8)) (Z.land lo 255))))
      else Some (inr ERR_BUF)
  end.

Definition lwftp_data_open (p : pbuf) : M Z :=
  r ← deref F_overread (pasv_params (payload p));
  match r with
  | inr e => mret e
  | inl (data_server, data_port) =>
      s ← sess;
      tcp_arg (data_pcb s) (Some tt);;
      tcp_err (data_pcb s) (Some lwftp_data_err_cb);;
      tcp_recv (data_pcb s) (Some lwftp_data_recv_cb);;
      tcp_sent (data_pcb s) (Some lwftp_data_sent_cb);;
      tcp_connect env (data_pcb s) data_server data_port lwftp_data_connected_cb
  end.

Definition lwftp_send_msg (msg : bytes) : M Z :=
  s ← sess;
  tcp_write env (control_pcb s) msg.

(** [lwftp_send_msg(s, p, strlen(p))] for a string of the session. *)
Definition send_str (o : option cl_ptr) : M unit :=
  b ← session_string o;
  _ ← lwftp_send_msg b;
  mret tt.

(** [lwftp_send_msg(s, PTRNLEN("..."))] *)
Definition send_lit (l : bytes) : M unit :=
  _ ← lwftp_send_msg l;
  mret tt.

Definition crlf : bytes := [ch_cr; ch_lf].

Definition lwftp_data_close (result : Z) : M unit :=
  s ← sess;
  (match data_pcb s with
   | Some d => _ ← lwftp_pcb_close (Some d); set (set_data_pcb None)
   | None => mret tt
   end);;
  done result.

Definition lwftp_control_close (result : Z) : M unit :=
  s ← sess;
  (match data_pcb s with
   | Some d => _ ← lwftp_pcb_close (Some d); set (set_data_pcb None)
   | None => mret tt
   end);;
  s' ← sess;
  (match control_pcb s' with
   | Some c => _ ← lwftp_pcb_close (Some c); set (set_control_pcb None)
   | None => mret tt
   end);;
  set (set_control_state LWFTP_CLOSED);;
  whenM (result >=? 0) (done result).

(** The part of the first switch of [lwftp_control_process] for replies that
    end a command or a transfer, on the session as it was read; other states are
    left alone. *)
Definition control_reply (s : lwftp_session_t) (p : option pbuf) (response : Z) : M Z :=
  let result := LWFTP_RESULT_ERR_SRVR_RESP in
  let state st := set (set_control_state st) in
  let keep := mret result in
  match control_state s with
  | LWFTP_DELE_SENT | LWFTP_RMD_SENT | LWFTP_CWD_SENT =>
      if response >? 0 then
        state LWFTP_CMDEND;;
        mret (if response =? 250 then LWFTP_RESULT_OK
              else if response =? 550 then LWFTP_RESULT_ERR_FILENAME
              else result)
      else keep
  | LWFTP_PWD_SENT =>
      if response >? 0 then
        if response =? 257 then
          (match data_sink s with
           | Some f =>
               p ← deref F_null_arg p;
               _ ← call_sink f (handle s) (Some (payload p)) (Z.of_nat (length (payload p)));
               mret tt
           | None => mret tt
           end);;
          state LWFTP_CMDEND;; mret LWFTP_RESULT_OK
        else state LWFTP_CMDEND;; keep
      else keep
  | LWFTP_RNFR_SENT =>
      if response >? 0 then
        if response =? 350 then
          send_lit (str "RNTO ");; send_str (remote_new_path s);; send_lit crlf;;
          state LWFTP_RNTO_SENT;; keep
        else if response =? 550 then
          state LWFTP_CMDEND;; mret LWFTP_RESULT_ERR_FILENAME
        else state LWFTP_CMDEND;; keep
      else keep
  | LWFTP_RNTO_SENT =>
      if response >? 0 then
        state LWFTP_CMDEND;;
        mret (if response =? 250 then LWFTP_RESULT_OK else result)
      else keep
  | LWFTP_XFERING =>
      if response >? 0 then
        state LWFTP_DATAEND;;
        mret (if response =? 226 then LWFTP_RESULT_OK else LWFTP_RESULT_ERR_CLOSED)
      else keep
  | LWFTP_QUIT_SENT =>
      if response >? 0 then
        state LWFTP_CLOSING;;
        mret (if response =? 221 then LWFTP_RESULT_OK else LWFTP_RESULT_ERR_UNKNOWN)
      else keep
  | _ => keep
  end.

(** The first switch of [lwftp_control_process]: react to the response and
    give the result a completed command will report. *)
Definition control_first (p : option pbuf) (response : Z) : M Z :=
  s ← sess;
  let result := LWFTP_RESULT_ERR_SRVR_RESP in
  let state st := set (set_control_state st) in
  let keep := mret result in
  match control_state s with
  | LWFTP_CONNECTED =>
      if response >? 0 then
        if response =? 220 then
          send_lit (str "USER ");; send_str (user s);; send_lit crlf;;
          state LWFTP_USER_SENT;; keep
        else state LWFTP_QUIT;; keep
      else keep
  | LWFTP_USER_SENT =>
      if response >? 0 then
        if response =? 331 then
          send_lit (str "PASS ");; send_str (pass s);; send_lit crlf;;
          state LWFTP_PASS_SENT;; keep
        else state LWFTP_QUIT;; keep
      else keep
  | LWFTP_PASS_SENT =>
      if response >? 0 then
        if response =? 230 then
          state LWFTP_LOGGED;; done LWFTP_RESULT_LOGGED;; keep
        else state LWFTP_QUIT;; keep
      else keep
  | LWFTP_TYPE_SENT =>
      if response >? 0 then
        if response =? 200 then
          send_lit (str "PASV" ++ crlf);; state LWFTP_PASV_SENT;; keep
        else state LWFTP_QUIT;; keep
      else keep
  | LWFTP_PASV_SENT =>
      if response >? 0 then
        if response =? 227 then
          p ← deref F_null_arg p;
          _ ← lwftp_data_open p;
          (match target_state s with
           | LWFTP_STOR_SENT => send_lit (str "STOR ")
           | LWFTP_RETR_SENT => send_lit (str "RETR ")
           | LWFTP_MLSD_SENT => send_lit (str "MLSD ")
           | _ => set (set_target_state LWFTP_QUIT)
           end);;
          send_str (remote_path s);; send_lit crlf;;
          s' ← sess;
          state (target_state s');; keep
        else state LWFTP_QUIT;; keep
      else keep
  | LWFTP_RETR_SENT =>
      if response >? 0 then
        if response =? 150 then state LWFTP_XFERING;; keep
        else if response =? 550 then
          state LWFTP_DATAEND;; mret LWFTP_RESULT_ERR_FILENAME
        else state LWFTP_DATAEND;; keep
      else keep
  | LWFTP_STOR_SENT =>
      if response >? 0 then
        if response =? 150 then
          state LWFTP_XFERING;;
          _ ← lwftp_data_sent (Some tt) None 0;
          keep
        else state LWFTP_DATAEND;; keep
      else keep
  | LWFTP_MLSD_SENT =>
      if response >? 0 then
        if response =? 150 then state LWFTP_XFERING;; keep
        else state LWFTP_DATAEND;; keep
      else keep
  | _ => control_reply s p response
  end.

(** The second switch: finish a command, quit or close. *)
Definition control_second (result : Z) : M unit :=
  s ← sess;
  match control_state s with
  | LWFTP_DATAEND =>
      set (set_control_state LWFTP_LOGGED);;
      lwftp_data_close result
  | LWFTP_CMDEND =>
      set (set_control_state LWFTP_LOGGED);;
      done result
  | LWFTP_QUIT =>
      send_lit (str "QUIT" ++ crlf);;
      s' ← sess;
      tcp_output (control_pcb s');;
      set (set_control_state LWFTP_QUIT_SENT)
  | LWFTP_CLOSING => lwftp_control_close result
  | _ => mret tt
  end.

Definition lwftp_control_process (p : option pbuf) : M unit :=
  response ← (match p with
              | Some p => '(v, _) ← deref F_overread (strtoul10 (payload p)); mret (u16 v)
              | None => mret 0
              end);
  result ← control_first p response;
  (match p with Some p => pbuf_free p | None => mret tt end);;
  control_second result.

Definition lwftp_start_RETR (arg : option unit) : M unit :=
  _ ← deref F_null_arg arg;
  s ← sess;
  if decide (control_state s = LWFTP_LOGGED) then
    send_lit (str "TYPE I" ++ crlf);;
    set (set_control_state LWFTP_TYPE_SENT);;
    set (set_target_state LWFTP_RETR_SENT)
  else done LWFTP_RESULT_ERR_INTERNAL.

Definition lwftp_start_STOR (arg : option unit) : M unit :=
  _ ← deref F_null_arg arg;
  s ← sess;
  if decide (control_state s = LWFTP_LOGGED) then
    send_lit (str "TYPE I" ++ crlf);;
    set (set_control_state LWFTP_TYPE_SENT);;
    set (set_target_state LWFTP_STOR_SENT)
  else done LWFTP_RESULT_ERR_INTERNAL.

Definition lwftp_start_MLSD (arg : option unit) : M unit :=
  _ ← deref F_null_arg arg;
  s ← sess;
  if decide (control_state s = LWFTP_LOGGED) then
    send_lit (str "TYPE I" ++ crlf);;
    set (set_control_state LWFTP_TYPE_SENT);;
    set (set_target_state LWFTP_MLSD_SENT)
  else done LWFTP_RESULT_ERR_INTERNAL.

Definition lwftp_send_DELE (arg : option unit) : M unit :=
  _ ← deref F_null_arg arg;
  s ← sess;
  if decide (control_state s = LWFTP_LOGGED) then
    send_lit (str "DELE ");;
    send_str (remote_path s);;
    send_lit crlf;;
    set (set_control_state LWFTP_DELE_SENT)
  else done LWFTP_RESULT_ERR_INTERNAL.

Definition lwftp_send_RMD (arg : option unit) : M unit :=
  _ ← deref F_null_arg arg;
  s ← sess;
  if decide (control_state s = LWFTP_LOGGED) then
    send_lit (str "RMD ");;
    send_str (remote_path s);;
    send_lit crlf;;
    set (set_control_state LWFTP_RMD_SENT)
  else done LWFTP_RESULT_ERR_INTERNAL.

Definition lwftp_send_CWD (arg : option unit) : M unit :=
  _ ← deref F_null_arg arg;
  s ← sess;
  if decide (control_state s = LWFTP_LOGGED) then
    send_lit (str "CWD ");;
    send_str (remote_path s);;
    send_lit crlf;;
    set (set_control_state LWFTP_CWD_SENT)
  else done LWFTP_RESULT_ERR_INTERNAL.

Definition lwftp_send_PWD (arg : option unit) : M unit :=
  _ ← deref F_null_arg arg;
  s ← sess;
  if decide (control_state s = LWFTP_LOGGED) then
    send_lit (str "PWD" ++ crlf);;
    set (set_control_state LWFTP_PWD_SENT)
  else done LWFTP_RESULT_ERR_INTERNAL.

Definition lwftp_send_RNFR (arg : option unit) : M unit :=
  _ ← deref F_null_arg arg;
  s ← sess;
  if decide (control_state s = LWFTP_LOGGED) then
    send_lit (str "RNFR ");;
    send_str (remote_path s);;
    send_lit crlf;;
    set (set_control_state LWFTP_RNFR_SENT)
  else done LWFTP_RESULT_ERR_INTERNAL.

Definition lwftp_send_QUIT (arg : option unit) : M unit :=
  _ ← deref F_null_arg arg;
  s ← sess;
  match control_pcb s with
  | Some c =>
      send_lit (str "QUIT" ++ crlf);;
      tcp_output (Some c);;
      set (set_control_state LWFTP_QUIT_SENT)
  | None => mret tt
  end.

Definition lwftp_control_recv (arg : option unit) (tpcb : option pcb)
    (p : option pbuf) (err : Z) : M Z :=
  _ ← deref F_null_arg arg;
  (if err =? ERR_OK then
     match p with
     | Some p =>
         tcp_recved tpcb (tot_len p);;
         lwftp_control_process (Some p)
     | None => lwftp_control_close LWFTP_RESULT_ERR_CLOSED
     end
   else lwftp_control_close LWFTP_RESULT_ERR_UNKNOWN);;
  mret err.

Definition lwftp_control_sent (arg : option unit) (tpcb : option pcb) (len : Z) : M Z :=
  mret ERR_OK.

Definition lwftp_control_err (arg : option unit) (err : Z) : M unit :=
  match arg with
  | None => mret tt
  | Some _ =>
      s ← sess;
      let result := if decide (control_state s = LWFTP_CLOSED)
                    then LWFTP_RESULT_ERR_CONNECT else LWFTP_RESULT_ERR_CLOSED in
      set (set_control_pcb None);;
      lwftp_control_close result
  end.

Definition lwftp_control_connected (arg : option unit) (tpcb : option pcb) (err : Z) : M Z :=
  _ ← deref F_null_arg arg;
  whenM (err =? ERR_OK) (set (set_control_state LWFTP_CONNECTED));;
  mret err.

(** The data connection failed: its pcb is gone already. *)
Definition lwftp_data_err (arg : option unit) (err : Z) : M unit :=
  match arg with
  | None => mret tt
  | Some _ =>
      set (set_data_pcb None);;
      s ← sess;
      if decide (control_state s = LWFTP_XFERING) then
        set (set_control_state LWFTP_DATAEND);;
        lwftp_control_process None
      else mret tt
  end.

(** ** The public interface *)

(** The common exit of the interface functions. *)
Definition api_exit (retval : Z) : M Z :=
  done retval;; mret retval.

Definition lwftp_connect : M Z :=
  s ← sess;
  if decide (control_state s <> LWFTP_CLOSED \/ is_Some (control_pcb s) \/
             is_Some (data_pcb s) \/ user s = None \/ pass s = None)
  then api_exit LWFTP_RESULT_ERR_ARGUMENT
  else
    c ← tcp_new env;
    set (set_control_pcb c);;
    match c with
    | None => api_exit LWFTP_RESULT_ERR_MEMORY
    | Some _ =>
        tcp_arg c (Some tt);;
        tcp_err c (Some lwftp_control_err_cb);;
        tcp_recv c (Some lwftp_control_recv_cb);;
        tcp_sent c (Some lwftp_control_sent_cb);;
        s' ← sess;
        error ← tcp_connect env c (server_ip s') (server_port s') lwftp_control_connected_cb;
        if error =? ERR_OK then api_exit LWFTP_RESULT_INPROGRESS
        else
          lwftp_control_close (-1);;
          api_exit LWFTP_RESULT_ERR_UNKNOWN
    end.

Definition lwftp_retrieve : M Z :=
  s ← sess;
  if decide (control_state s <> LWFTP_LOGGED \/ remote_path s = None \/
             is_Some (data_pcb s))
  then api_exit LWFTP_RESULT_ERR_ARGUMENT
  else
    d ← tcp_new env;
    set (set_data_pcb d);;
    match d with
    | None => api_exit LWFTP_RESULT_ERR_MEMORY
    | Some _ =>
        error ← lwftp_tcpip_callback (lwftp_start_RETR (Some tt));
        api_exit (if error =? ERR_OK then LWFTP_RESULT_INPROGRESS
                  else LWFTP_RESULT_ERR_INTERNAL)
    end.

Definition lwftp_store : M Z :=
  s ← sess;
  if decide (control_state s <> LWFTP_LOGGED \/ remote_path s = None \/
             is_Some (data_pcb s))
  then api_exit LWFTP_RESULT_ERR_ARGUMENT
  else
    d ← tcp_new env;
    set (set_data_pcb d);;
    match d with
    | None => api_exit LWFTP_RESULT_ERR_MEMORY
    | Some _ =>
        error ← lwftp_tcpip_callback (lwftp_start_STOR (Some tt));
        api_exit (if error =? ERR_OK then LWFTP_RESULT_INPROGRESS
                  else LWFTP_RESULT_ERR_INTERNAL)
    end.

Definition lwftp_mlsd : M Z :=
  s ← sess;
  if decide (control_state s <> LWFTP_LOGGED \/ remote_path s = None \/
             is_Some (data_pcb s))
  then api_exit LWFTP_RESULT_ERR_ARGUMENT
  else
    d ← tcp_new env;
    set (set_data_pcb d);;
    match d with
    | None => api_exit LWFTP_RESULT_ERR_MEMORY
    | Some _ =>
        error ← lwftp_tcpip_callback (lwftp_start_MLSD (Some tt));
        api_exit (if error =? ERR_OK then LWFTP_RESULT_INPROGRESS
                  else LWFTP_RESULT_ERR_INTERNAL)
    end.

Definition lwftp_delete : M Z :=
  s ← sess;
  if decide (control_state s <> LWFTP_LOGGED \/ remote_path s = None \/
             is_Some (data_pcb s))
  then api_exit LWFTP_RESULT_ERR_ARGUMENT
  else
    error ← lwftp_tcpip_callback (lwftp_send_DELE (Some tt));
    api_exit (if error =? ERR_OK then LWFTP_RESULT_INPROGRESS
              else LWFTP_RESULT_ERR_INTERNAL).

Definition lwftp_remove_dir : M Z :=
  s ← sess;
  if decide (control_state s <> LWFTP_LOGGED \/ remote_path s = None \/
             is_Some (data_pcb s))
  then api_exit LWFTP_RESULT_ERR_ARGUMENT
  else
    error ← lwftp_tcpip_callback (lwftp_send_RMD (Some tt));
    api_exit (if error =? ERR_OK then LWFTP_RESULT_INPROGRESS
              else LWFTP_RESULT_ERR_INTERNAL).

Definition lwftp_change_dir : M Z :=
  s ← sess;
  if decide (control_state s <> LWFTP_LOGGED \/ remote_path s = None \/
             is_Some (data_pcb s))
  then api_exit LWFTP_RESULT_ERR_ARGUMENT
  else
    error ← lwftp_tcpip_callback (lwftp_send_CWD (Some tt));
    api_exit (if error =? ERR_OK then LWFTP_RESULT_INPROGRESS
              else LWFTP_RESULT_ERR_INTERNAL).

Definition lwftp_print_dir : M Z :=
  s ← sess;
  if decide (control_state s <> LWFTP_LOGGED \/ is_Some (data_pcb s))
  then api_exit LWFTP_RESULT_ERR_ARGUMENT
  else
    error ← lwftp_tcpip_callback (lwftp_send_PWD (Some tt));
    api_exit (if error =? ERR_OK then LWFTP_RESULT_INPROGRESS
              else LWFTP_RESULT_ERR_INTERNAL).

Definition lwftp_move : M Z :=
  s ← sess;
  if decide (control_state s <> LWFTP_LOGGED \/ remote_path s = None \/
             remote_new_path s = None \/ is_Some (data_pcb s))
  then api_exit LWFTP_RESULT_ERR_ARGUMENT
  else
    error ← lwftp_tcpip_callback (lwftp_send_RNFR (Some tt));
    api_exit (if error =? ERR_OK then LWFTP_RESULT_INPROGRESS
              else LWFTP_RESULT_ERR_INTERNAL).

Definition lwftp_close : M unit :=
  s ← sess;
  if decide (control_state s = LWFTP_CLOSED) then mret tt
  else
    error ← lwftp_tcpip_callback (lwftp_send_QUIT (Some tt));
    whenM (negb (error =? ERR_OK)) (set (set_control_state LWFTP_QUIT)).

(** ** Events from the stack

    lwIP calls the function registered on the pcb ([TCP_EVENT_RECV],
    [TCP_EVENT_SENT], [TCP_EVENT_CONNECTED], [TCP_EVENT_ERR] of tcp_priv.h);
    with none registered it acknowledges and drops the data
    ([tcp_recv_null]) or does nothing. *)

Inductive net_event :=
| N_connected (p : pcb)
| N_recv (p : pcb) (b : option pbuf) (err : Z)
| N_sent (p : pcb) (len : Z)
| N_err (p : pcb) (err : Z).

Definition tcp_recv_null (p : pcb) (b : option pbuf) (err : Z) : M Z :=
  match b with
  | Some b => tcp_recved (Some p) (tot_len b);; pbuf_free b;; mret ERR_OK
  | None => if err =? ERR_OK then tcp_close env (Some p) else mret ERR_OK
  end.

Definition run_recv (f : recv_fn) : option unit -> option pcb -> option pbuf -> Z -> M Z :=
  match f with
  | lwftp_control_recv_cb => lwftp_control_recv
  | lwftp_data_recv_cb => lwftp_data_recv
  end.

Definition run_sent (f : sent_fn) : option unit -> option pcb -> Z -> M Z :=
  match f with
  | lwftp_control_sent_cb => lwftp_control_sent
  | lwftp_data_sent_cb => lwftp_data_sent
  end.

Definition run_connected (f : conn_fn) : option unit -> option pcb -> Z -> M Z :=
  match f with
  | lwftp_control_connected_cb => lwftp_control_connected
  | lwftp_data_connected_cb => lwftp_data_connected
  end.

Definition run_err (f : err_fn) : option unit -> Z -> M unit :=
  match f with
  | lwftp_control_err_cb => lwftp_control_err
  | lwftp_data_err_cb => lwftp_data_err
  end.

(** One event.  An event for a pcb the client no longer holds reaches nobody.
    The handshake completes once; data and acknowledgements come after it; an
    error frees the pcb before the callback runs. *)
Definition deliver (e : net_event) : M unit := fun w =>
  match e with
  | N_connected p =>
      match w_pcbs w !! p with
      | Some t =>
          if decide (pstate t = PCB_SYN_SENT) then
            let w' := upd_pcbs (insert p (set_pstate PCB_ESTABLISHED t)) w in
            match connected t with
            | Some f => (_ ← run_connected f (callback_arg t) (Some p) ERR_OK; mret tt) w'
            | None => Done tt w'
            end
          else Done tt w
      | None => Done tt w
      end
  | N_recv p b err =>
      match w_pcbs w !! p with
      | Some t =>
          if decide (pstate t = PCB_ESTABLISHED) then
            match recv t with
            | Some f => (_ ← run_recv f (callback_arg t) (Some p) b err; mret tt) w
            | None => (_ ← tcp_recv_null p b err; mret tt) w
            end
          else Done tt w
      | None => Done tt w
      end
  | N_sent p len =>
      match w_pcbs w !! p with
      | Some t =>
          if decide (pstate t = PCB_ESTABLISHED) then
            match sent t with
            | Some f => (_ ← run_sent f (callback_arg t) (Some p) len; mret tt) w
            | None => Done tt w
            end
          else Done tt w
      | None => Done tt w
      end
  | N_err p err =>
      match w_pcbs w !! p with
      | Some t =>
          if decide (pstate t = PCB_CLOSED) then Done tt w
          else
            let w' := upd_pcbs (delete p) w in
            match errf t with
            | Some f => run_err f (callback_arg t) err w'
            | None => Done tt w'
            end
      | None => Done tt w
      end
  end.

End Lwftp.
