(* ===== verification/SessionInv.v ===== *)
(** * The session invariant and the contract with the client

    - [wp]: weakest preconditions of the monad, with the faults one is ready
      to accept, and the rules for its operations.
    - [sess_inv]: what holds of a session between two events: which pcbs it
      owns, which callbacks they carry, and what each control state requires.
    - [ClientLaws]: what the client's callbacks must respect; the theorems on
      lwftp.c are proved against this class. *)

From S2P Require Import Prelude CLib Session Lwftp.

(** ** Weakest preconditions *)

Section Wp.
Context `{Client}.

Definition wp {A} (m : M A) (E : fault -> Prop) (Q : A -> world -> Prop) (w : world) : Prop :=
  match m w with
  | Done a w' => Q a w'
  | Fault f => E f
  end.

Lemma wp_ret {A} (a : A) E Q w : Q a w -> wp (mret a) E Q w.
Proof. done. Qed.

Lemma wp_bind {A B} (m : M A) (k : A -> M B) E Q w :
  wp m E (fun a => wp (k a) E Q) w -> wp (m ≫= k) E Q w.
Proof. unfold wp, mbind, M_bind. by destruct (m w). Qed.

Lemma wp_mono {A} (m : M A) E (Q Q' : A -> world -> Prop) w :
  wp m E Q w -> (forall a w', Q a w' -> Q' a w') -> wp m E Q' w.
Proof. unfold wp. destruct (m w); eauto. Qed.

Lemma wp_weaken {A} (m : M A) (E E' : fault -> Prop) (Q : A -> world -> Prop) w :
  wp m E Q w -> (forall f, E f -> E' f) -> wp m E' Q w.
Proof. unfold wp. destruct (m w); eauto. Qed.

Lemma wp_sess E Q w : Q (w_sess w) w -> wp sess E Q w.
Proof. done. Qed.

Lemma wp_gets {A} (f : world -> A) E Q w : Q (f w) w -> wp (gets f) E Q w.
Proof. done. Qed.

Lemma wp_modify f E Q w : Q tt (f w) -> wp (modify f) E Q w.
Proof. done. Qed.

Lemma wp_set f E Q w : Q tt (upd_sess f w) -> wp (set f) E Q w.
Proof. done. Qed.

Lemma wp_deref_Some {A} f (a : A) E Q w : Q a w -> wp (deref f (Some a)) E Q w.
Proof. done. Qed.

Lemma wp_live {A} p t (k : tcp_pcb -> M A) E Q w :
  w_pcbs w !! p = Some t -> wp (k t) E Q w -> wp (live p k) E Q w.
Proof. unfold wp, live. by intros ->. Qed.

Lemma wp_pcb_update p t f E Q w :
  w_pcbs w !! p = Some t ->
  Q tt (upd_pcbs (insert p (f t)) w) -> wp (pcb_update (Some p) f) E Q w.
Proof. intros Hp HQ. by eapply wp_live. Qed.

Lemma wp_if {A} (b : bool) (m1 m2 : M A) E Q w :
  (b = true -> wp m1 E Q w) -> (b = false -> wp m2 E Q w) ->
  wp (if b then m1 else m2) E Q w.
Proof. destruct b; auto. Qed.

Lemma wp_whenM (b : bool) m E Q w :
  (b = true -> wp m E Q w) -> (b = false -> Q tt w) -> wp (whenM b m) E Q w.
Proof. destruct b; intros H1 H2; [by apply H1|by apply wp_ret, H2]. Qed.

End Wp.

(** One step of a straight-line handler. *)
Ltac wp_step :=
  lazymatch goal with
  | |- wp (mbind _ _) _ _ _ => apply wp_bind
  | |- wp (mret _) _ _ _ => apply wp_ret
  | |- wp sess _ _ _ => apply wp_sess
  | |- wp (gets _) _ _ _ => apply wp_gets
  | |- wp (set _) _ _ _ => apply wp_set
  | |- wp (modify _) _ _ _ => apply wp_modify
  | |- wp (deref _ (Some _)) _ _ _ => apply wp_deref_Some
  | |- wp (whenM _ _) _ _ _ => apply wp_whenM; intros ?
  | |- wp (if ?b then _ else _) _ _ _ =>
      lazymatch type of b with
      | bool => apply wp_if; intros ?
      | _ => case_decide
      end
  end.
Ltac wp_go := repeat (wp_step; cbn beta).

(** ** The faults attributed to the client *)

Definition client_fault (f : fault) : Prop := f = F_client \/ f = F_fuel.

(** ** The invariant *)

Section Inv.
Context `{Client}.

(** A pcb that carries the control callbacks of the session. *)
Definition ctl_pcb (st : lwftp_state_t) (t : tcp_pcb) : Prop :=
  callback_arg t = Some tt /\
  recv t = Some lwftp_control_recv_cb /\
  sent t = Some lwftp_control_sent_cb /\
  errf t = Some lwftp_control_err_cb /\
  connected t = Some lwftp_control_connected_cb /\
  pstate t = if decide (st = LWFTP_CLOSED) then PCB_SYN_SENT else PCB_ESTABLISHED.

(** A pcb that carries the data callbacks. *)
Definition dat_pcb (t : tcp_pcb) : Prop :=
  callback_arg t = Some tt /\
  recv t = Some lwftp_data_recv_cb /\
  sent t = Some lwftp_data_sent_cb /\
  errf t = Some lwftp_data_err_cb /\
  (pstate t = PCB_SYN_SENT ->
   connected t = None \/ connected t = Some lwftp_data_connected_cb).

(** A pcb from which nothing reaches the state machine: never opened, or
    deregistered by [lwftp_pcb_close] and refused by [tcp_close]. *)
Definition idle_pcb (t : tcp_pcb) : Prop :=
  recv t = None /\ sent t = None /\ errf t = None /\
  (pstate t = PCB_SYN_SENT ->
   connected t = None \/
   (connected t = Some lwftp_data_connected_cb /\ callback_arg t = Some tt)).

(** What each control state requires of the rest of the session. *)
Definition phase_ok (s : lwftp_session_t) : Prop :=
  match control_state s with
  | LWFTP_CLOSED =>
      data_pcb s = None /\
      (is_Some (control_pcb s) -> is_Some (user s) /\ is_Some (pass s))
  | LWFTP_CONNECTED =>
      is_Some (control_pcb s) /\ data_pcb s = None /\ is_Some (user s) /\ is_Some (pass s)
  | LWFTP_USER_SENT =>
      is_Some (control_pcb s) /\ data_pcb s = None /\ is_Some (pass s)
  | LWFTP_TYPE_SENT | LWFTP_PASV_SENT =>
      is_Some (control_pcb s) /\ is_Some (data_pcb s) /\ is_Some (remote_path s) /\
      (target_state s = LWFTP_RETR_SENT \/ target_state s = LWFTP_STOR_SENT \/
       target_state s = LWFTP_MLSD_SENT)
  | LWFTP_RETR_SENT | LWFTP_STOR_SENT | LWFTP_MLSD_SENT | LWFTP_XFERING
  | LWFTP_DATAEND | LWFTP_QUIT | LWFTP_QUIT_SENT | LWFTP_CLOSING =>
      is_Some (control_pcb s)
  | LWFTP_RNFR_SENT =>
      is_Some (control_pcb s) /\ data_pcb s = None /\ is_Some (remote_new_path s)
  | LWFTP_PASS_SENT | LWFTP_LOGGED | LWFTP_DELE_SENT | LWFTP_RMD_SENT
  | LWFTP_CWD_SENT | LWFTP_PWD_SENT | LWFTP_RNTO_SENT | LWFTP_CMDEND =>
      is_Some (control_pcb s) /\ data_pcb s = None
  end.

(** The states in which the machine waits for an event; the others occur only
    inside [lwftp_control_process]. *)
Definition at_rest (st : lwftp_state_t) : Prop :=
  match st with
  | LWFTP_DATAEND | LWFTP_CMDEND | LWFTP_QUIT | LWFTP_CLOSING => False
  | _ => True
  end.

(** Ownership of pcbs. *)
Record pcbs_ok (s : lwftp_session_t) (m : gmap nat tcp_pcb) (n : nat) : Prop := {
  po_ctl : forall c, control_pcb s = Some c ->
    exists t, m !! c = Some t /\ ctl_pcb (control_state s) t;
  po_dat : forall d, data_pcb s = Some d ->
    exists t, m !! d = Some t /\ (dat_pcb t \/ (idle_pcb t /\ pstate t = PCB_CLOSED));
  po_rest : forall p t, m !! p = Some t ->
    control_pcb s <> Some p -> data_pcb s <> Some p -> idle_pcb t;
  po_ne : forall p, control_pcb s = Some p -> data_pcb s <> Some p;
  po_next : forall p, is_Some (m !! p) -> (p < n)%nat
}.

(** Until the PASV reply the data pcb is allocated but not opened. *)
Definition unopened (s : lwftp_session_t) (m : gmap nat tcp_pcb) : Prop :=
  control_state s = LWFTP_TYPE_SENT \/ control_state s = LWFTP_PASV_SENT ->
  forall d t, data_pcb s = Some d -> m !! d = Some t -> idle_pcb t /\ pstate t = PCB_CLOSED.

(** The invariant inside a handler, and between two events. *)
Definition core_inv (w : world) : Prop :=
  pcbs_ok (w_sess w) (w_pcbs w) (w_next w) /\ phase_ok (w_sess w) /\
  unopened (w_sess w) (w_pcbs w).

Definition sess_inv (w : world) : Prop :=
  core_inv w /\ at_rest (control_state (w_sess w)).

(** A step that changed nothing but the application's own state. *)
Definition client_only (w w' : world) : Prop := w' = upd_cl (w_cl w') w.

End Inv.

(** Events on the data connection [o]. *)
Definition data_event (o : option pcb) (e : event) : Prop :=
  match e with
  | E_write q _ _ | E_close q _ => o = Some q
  | _ => False
  end.

(** The history grew by events of the data connection only. *)
Definition data_only `{Client} (w w' : world) : Prop :=
  exists l, w_trace w' = l ++ w_trace w /\ Forall (data_event (data_pcb (w_sess w))) l.

(** ** The contract with the client *)

Class ClientLaws `{ops : ClientOps} : Prop := {
  law_done : forall f h r w,
    sess_inv w -> wp (call_done f h r) client_fault (fun _ w' => sess_inv w') w;
  law_sink : forall f h d n w,
    wp (call_sink f h d n) client_fault (fun _ w' => client_only w w') w;
  law_source : forall f h b n w,
    wp (call_source f h b n) client_fault
      (fun r w' => client_only w w' /\
         (b = true -> r.1 <> 0 ->
          exists d, snd r = Some d /\ (Z.to_nat (r.1) <= length d)%nat)) w
}.

(** ** Preservation lemmas *)

Section Preserve.
Context `{Client}.

Lemma core_inv_log e w : core_inv (log e w) <-> core_inv w.
Proof. done. Qed.

Lemma core_inv_client w w' : client_only w w' -> core_inv w -> core_inv w'.
Proof. intros -> ?. done. Qed.

Lemma sess_inv_client w w' : client_only w w' -> sess_inv w -> sess_inv w'.
Proof. intros -> ?. done. Qed.

Lemma client_only_refl w : client_only w w.
Proof. by destruct w. Qed.

Lemma data_only_refl w w' : w_trace w' = w_trace w -> data_only w w'.
Proof. intros E. exists []. split; [done|constructor]. Qed.

Lemma data_only_trans w1 w2 w3 :
  data_only w1 w2 -> data_pcb (w_sess w2) = data_pcb (w_sess w1) ->
  data_only w2 w3 -> data_only w1 w3.
Proof.
  intros (l1 & E1 & F1) Ed (l2 & E2 & F2). exists (l2 ++ l1).
  rewrite Ed in F2. rewrite E2, E1. split; [by rewrite app_assoc|by apply Forall_app].
Qed.

Lemma client_only_trans w1 w2 w3 :
  client_only w1 w2 -> client_only w2 w3 -> client_only w1 w3.
Proof. unfold client_only. intros H1 H2. rewrite H2, H1. done. Qed.

(** Changing the control state, the target or the data state of an open
    session keeps the pcbs well owned. *)
Lemma pcbs_ok_state s m n st :
  pcbs_ok s m n -> control_state s <> LWFTP_CLOSED -> st <> LWFTP_CLOSED ->
  pcbs_ok (set_control_state st s) m n.
Proof.
  intros [Hc Hd Hr Hn Hx] H1 H2. split; simpl; try done.
  intros c E. destruct (Hc c E) as (t & Ht & Hok). exists t. split; [done|].
  unfold ctl_pcb in *. by repeat case_decide.
Qed.

Lemma pcbs_ok_proj s s' m n :
  control_pcb s' = control_pcb s -> data_pcb s' = data_pcb s ->
  control_state s' = control_state s -> pcbs_ok s m n -> pcbs_ok s' m n.
Proof.
  intros E1 E2 E3 [Hc Hd Hr Hn Hx].
  split; rewrite ?E1, ?E2, ?E3; done.
Qed.

(** Taking a pcb off the session and out of, or deregistered in, the table. *)
Definition stripped (t : tcp_pcb) : tcp_pcb :=
  set_sent None (set_recv None (set_errf None t)).

Lemma stripped_idle t :
  dat_pcb t \/ idle_pcb t -> idle_pcb (stripped t).
Proof.
  intros [(Ha & _ & _ & _ & Hc)|(_ & _ & _ & Hc)]; repeat split; simpl; try done.
  all: intros Hs; destruct (Hc Hs); eauto.
Qed.

Lemma stripped_settled_idle t :
  pstate t <> PCB_SYN_SENT -> idle_pcb (stripped t).
Proof. intros Hp. by repeat split. Qed.

(** The table after [lwftp_pcb_close] on [p]. *)
Definition closed_in (p : nat) (t : tcp_pcb) (m m' : gmap nat tcp_pcb) : Prop :=
  m' = delete p m \/ m' = <[p := stripped t]> m.

Lemma closed_in_lookup p t m m' q u :
  closed_in p t m m' -> m' !! q = Some u ->
  (q <> p /\ m !! q = Some u) \/ (q = p /\ u = stripped t).
Proof.
  intros [->| ->] Hq; destruct (decide (q = p)) as [->|Hne];
    simplify_map_eq; eauto.
Qed.

Lemma closed_in_other p t m m' q :
  closed_in p t m m' -> q <> p -> m' !! q = m !! q.
Proof. intros [->| ->] ?; by simplify_map_eq. Qed.

Lemma closed_in_next p t m m' n :
  closed_in p t m m' -> m !! p = Some t ->
  (forall q, is_Some (m !! q) -> (q < n)%nat) ->
  forall q, is_Some (m' !! q) -> (q < n)%nat.
Proof.
  intros Hcl Ht Hn q [u Hu].
  destruct (closed_in_lookup _ _ _ _ _ _ Hcl Hu) as [[? ?]|[-> ?]]; eauto.
Qed.

(** What closing the whole session needs of the table: the control pcb is not
    waiting for its handshake. *)
Record closable (s : lwftp_session_t) (m : gmap nat tcp_pcb) (n : nat) : Prop := {
  cb_ctl : forall c, control_pcb s = Some c ->
    exists t, m !! c = Some t /\ pstate t <> PCB_SYN_SENT;
  cb_dat : forall d, data_pcb s = Some d ->
    exists t, m !! d = Some t /\ (dat_pcb t \/ idle_pcb t);
  cb_rest : forall p t, m !! p = Some t ->
    control_pcb s <> Some p -> data_pcb s <> Some p -> idle_pcb t;
  cb_ne : forall p, control_pcb s = Some p -> data_pcb s <> Some p;
  cb_next : forall p, is_Some (m !! p) -> (p < n)%nat
}.

Lemma pcbs_ok_closable s m n :
  pcbs_ok s m n -> control_pcb s = None \/ control_state s <> LWFTP_CLOSED ->
  closable s m n.
Proof.
  intros [Hc Hd Hr Hn Hx] Hst. split; try done.
  - intros c Ec. destruct (Hc c Ec) as (t & Ht & Hok). exists t. split; [done|].
    destruct Hst as [?|Hst]; [congruence|]. destruct Hok as (_ & _ & _ & _ & _ & ->). by case_decide.
  - intros d Ed. destruct (Hd d Ed) as (t & Ht & Hok). exists t. tauto.
Qed.

Lemma closable_close_data s m m' n d t :
  closable s m n -> data_pcb s = Some d -> m !! d = Some t -> closed_in d t m m' ->
  closable (set_data_pcb None s) m' n.
Proof.
  intros [Hc Hd Hr Hn Hx] Ed Ht Hcl.
  destruct (Hd d Ed) as (t' & Ht' & Hok). simplify_eq.
  split; simpl; [| done | | done | by eapply closed_in_next ].
  - intros c Ec. destruct (Hc c Ec) as (u & Hu & ?). exists u. split; [|done].
    rewrite (closed_in_other _ _ _ _ _ Hcl); [done|]. intros ->. by apply (Hn _ Ec).
  - intros p u Hu Hcp _.
    destruct (closed_in_lookup _ _ _ _ _ _ Hcl Hu) as [[? ?]|[-> ->]].
    + eapply Hr; [done..|]. congruence.
    + by apply stripped_idle.
Qed.

Lemma closable_close_ctl s m m' n c t :
  closable s m n -> control_pcb s = Some c -> data_pcb s = None ->
  m !! c = Some t -> closed_in c t m m' ->
  pcbs_ok (set_control_state LWFTP_CLOSED (set_control_pcb None s)) m' n.
Proof.
  intros [Hc Hd Hr Hn Hx] Ec Ed Ht Hcl.
  destruct (Hc c Ec) as (t' & Ht' & Hok). simplify_eq.
  split; simpl; [done | by rewrite Ed | | done | by eapply closed_in_next ].
  intros p u Hu _ _.
  destruct (closed_in_lookup _ _ _ _ _ _ Hcl Hu) as [[? ?]|[-> ->]].
  - eapply Hr; [done| |]; congruence.
  - by apply stripped_settled_idle.
Qed.

Lemma closable_no_ctl s m n :
  closable s m n -> control_pcb s = None -> data_pcb s = None ->
  pcbs_ok (set_control_state LWFTP_CLOSED s) m n.
Proof.
  intros [Hc Hd Hr Hn Hx] E1 E2. split; simpl; rewrite ?E1, ?E2; try done.
  intros p t Hp _ _. eapply Hr; [done|congruence..].
Qed.

Lemma pcbs_ok_close_data s m m' n d t :
  pcbs_ok s m n -> data_pcb s = Some d -> m !! d = Some t -> closed_in d t m m' ->
  pcbs_ok (set_data_pcb None s) m' n.
Proof.
  intros [Hc Hd Hr Hn Hx] Ed Ht Hcl.
  destruct (Hd d Ed) as (t' & Ht' & Hok). simplify_eq.
  split; simpl; [| done | | done | by eapply closed_in_next ].
  - intros c Ec. destruct (Hc c Ec) as (u & Hu & ?). exists u. split; [|done].
    rewrite (closed_in_other _ _ _ _ _ Hcl); [done|]. intros ->. by apply (Hn _ Ec).
  - intros p u Hu Hcp _.
    destruct (closed_in_lookup _ _ _ _ _ _ Hcl Hu) as [[? ?]|[-> ->]].
    + eapply Hr; [done..|]. congruence.
    + apply stripped_idle. tauto.
Qed.

Lemma core_inv_state st w :
  core_inv w -> control_state (w_sess w) <> LWFTP_CLOSED -> st <> LWFTP_CLOSED ->
  phase_ok (set_control_state st (w_sess w)) ->
  (st = LWFTP_TYPE_SENT \/ st = LWFTP_PASV_SENT ->
   control_state (w_sess w) = LWFTP_TYPE_SENT \/ control_state (w_sess w) = LWFTP_PASV_SENT) ->
  core_inv (upd_sess (set_control_state st) w).
Proof.
  intros (Hp & Hf & Hu) H1 H2 Hf' Hst. split; [by apply pcbs_ok_state|]. split; [done|].
  intros Hs. apply Hu. by apply Hst.
Qed.

End Preserve.

(** Set an open session to a state whose phase the context implies. *)
Ltac new_state :=
  match goal with
  | Hi : core_inv ?w, E : control_state (w_sess ?w) = _ |- core_inv (upd_sess _ _) =>
      apply (core_inv_state _ w Hi);
      [ congruence | done
      | let Hf := fresh in destruct Hi as (_ & Hf & _);
        unfold phase_ok in Hf |- *; rewrite E in Hf; simpl; intuition (eauto; fail)
      | rewrite ?E; simpl; intuition congruence ]
  end.

#[export] Hint Resolve client_only_refl pcbs_ok_state : lwftp.
