(* ===== verification/LwftpSafety.v ===== *)
(** * Safety of the FTP client: the invariant is kept by every handler

    Every event of the stack and every call of the public interface keeps
    [sess_inv]; no handler uses a pcb it has given back.  The proofs rest on
    [ClientLaws] only, not on the application. *)

From S2P Require Import Prelude CLib Session Lwftp SessionInv.

Section Specs.
Context `{ops : ClientOps} (env : tcp_env).
Implicit Types (w : world) (E : fault -> Prop).

(** ** Closing a pcb *)

Lemma wp_pcb_close p t E (Q : Z -> world -> Prop) w :
  w_pcbs w !! p = Some t ->
  (forall m' e, closed_in p t (w_pcbs w) m' ->
     Q ERR_OK (mk_world (w_sess w) m' (w_next w) (E_close p e :: w_trace w) (w_cl w))) ->
  wp (lwftp_pcb_close env (Some p)) E Q w.
Proof.
  intros Ht HQ. unfold lwftp_pcb_close, tcp_err, tcp_recv, tcp_sent.
  apply wp_bind. eapply wp_pcb_update; [done|]. cbn beta.
  apply wp_bind. eapply wp_pcb_update; [simpl; apply lookup_insert_eq|]. cbn beta.
  apply wp_bind. eapply wp_pcb_update; [simpl; apply lookup_insert_eq|]. cbn beta.
  apply wp_bind. eapply wp_live; [simpl; apply lookup_insert_eq|].
  unfold wp; simpl. case_match; case_match; simplify_eq; apply HQ; simpl;
    rewrite !insert_insert_eq; [left|by right].
  by rewrite delete_insert_eq.
Qed.

Lemma wp_pcb_close_null E (Q : Z -> world -> Prop) w :
  Q ERR_OK w -> wp (lwftp_pcb_close env None) E Q w.
Proof. done. Qed.

(** ** Sending on the control connection *)

Lemma wp_send_lit l E (Q : unit -> world -> Prop) w :
  pcbs_ok (w_sess w) (w_pcbs w) (w_next w) -> is_Some (control_pcb (w_sess w)) ->
  (forall c e, control_pcb (w_sess w) = Some c -> Q tt (log (E_write c l e) w)) ->
  wp (send_lit env l) E Q w.
Proof.
  intros [Hc _ _ _ _] [c Ec] HQ. destruct (Hc c Ec) as (t & Ht & _).
  unfold send_lit, lwftp_send_msg. wp_go. rewrite Ec. by eapply wp_live; [|apply HQ].
Qed.

Lemma wp_send_str o E (Q : unit -> world -> Prop) w :
  pcbs_ok (w_sess w) (w_pcbs w) (w_next w) -> is_Some (control_pcb (w_sess w)) ->
  is_Some o ->
  (forall c q e, control_pcb (w_sess w) = Some c -> o = Some q ->
     Q tt (log (E_write c (cl_str (w_cl w) q) e) w)) ->
  wp (send_str env o) E Q w.
Proof.
  intros Hi Hc [q ->] HQ. unfold send_str, session_string. wp_go.
  unfold lwftp_send_msg. destruct Hc as [c Ec]. destruct Hi as [Hc _ _ _ _].
  destruct (Hc c Ec) as (t & Ht & _).
  wp_go. rewrite Ec. eapply wp_live; [done|]. by eapply HQ.
Qed.

(** ** Phases *)

Lemma phase_drop_data (s : lwftp_session_t) :
  phase_ok s -> control_state s <> LWFTP_TYPE_SENT -> control_state s <> LWFTP_PASV_SENT ->
  phase_ok (set_data_pcb None s).
Proof. unfold phase_ok; simpl. destruct (control_state s); intuition congruence. Qed.

Lemma core_inv_drop_data w m' d t tr :
  core_inv w -> data_pcb (w_sess w) = Some d -> w_pcbs w !! d = Some t ->
  closed_in d t (w_pcbs w) m' ->
  control_state (w_sess w) <> LWFTP_TYPE_SENT ->
  control_state (w_sess w) <> LWFTP_PASV_SENT ->
  core_inv (mk_world (set_data_pcb None (w_sess w)) m' (w_next w) tr (w_cl w)).
Proof.
  intros (Hp & Hf & Hu) Ed Ht Hcl H1 H2. split; [|split]; simpl.
  - by eapply pcbs_ok_close_data.
  - by apply phase_drop_data.
  - by intros _ ? ? [=].
Qed.

Lemma set_data_pcb_id (s : lwftp_session_t) :
  data_pcb s = None -> set_data_pcb None s = s.
Proof. destruct s; simpl; by intros ->. Qed.

(** Close and forget the data pcb, whether there is one or not. *)
Lemma wp_drop_data E (Q : unit -> world -> Prop) w :
  core_inv w ->
  control_state (w_sess w) <> LWFTP_TYPE_SENT ->
  control_state (w_sess w) <> LWFTP_PASV_SENT ->
  (forall m' tr,
     let w' := mk_world (set_data_pcb None (w_sess w)) m' (w_next w) tr (w_cl w) in
     core_inv w' -> data_only w w' -> Q tt w') ->
  wp (lwftp_pcb_close env (data_pcb (w_sess w))) E
    (fun _ => wp (set (set_data_pcb None)) E Q) w.
Proof.
  intros Hi H1 H2 HQ. destruct (data_pcb (w_sess w)) as [d|] eqn:Ed.
  - destruct Hi as (Hp & Hi). destruct (po_dat _ _ _ Hp d Ed) as (t & Ht & _).
    eapply wp_pcb_close; [done|]. intros m' e Hcl. wp_go.
    apply HQ; [by eapply core_inv_drop_data|]. exists [E_close d e]. split; [done|].
    by repeat constructor.
  - apply wp_pcb_close_null. wp_go. apply (HQ _ (w_trace w)); [|by apply data_only_refl].
    destruct w as [s m n tr c]; simpl in *. by rewrite set_data_pcb_id.
Qed.

Lemma wp_drop_data_opt E (Q : unit -> world -> Prop) w :
  core_inv w ->
  control_state (w_sess w) <> LWFTP_TYPE_SENT ->
  control_state (w_sess w) <> LWFTP_PASV_SENT ->
  (forall m' tr,
     let w' := mk_world (set_data_pcb None (w_sess w)) m' (w_next w) tr (w_cl w) in
     core_inv w' -> data_only w w' -> Q tt w') ->
  wp (match data_pcb (w_sess w) with
      | Some d => _ ← lwftp_pcb_close env (Some d); set (set_data_pcb None)
      | None => mret tt
      end) E Q w.
Proof.
  intros Hi H1 H2 HQ. pose proof (wp_drop_data E Q w Hi H1 H2 HQ) as Hw.
  destruct (data_pcb (w_sess w)) as [d|] eqn:Ed; [by apply wp_bind|].
  wp_go. destruct w as [s m n tr c]; simpl in *.
  specialize (HQ m tr). rewrite set_data_pcb_id in HQ by done. apply HQ; [done|].
  by apply data_only_refl.
Qed.

End Specs.

(** Run the writes of a command on the control connection. *)
Ltac send_all :=
  repeat (first [apply wp_send_lit|apply wp_send_str]; [done..|]; intros; cbn beta; wp_go).

(** ** Handlers *)

Section Handlers.
Context `{laws : ClientLaws} (env : tcp_env).
Implicit Types (w : world).

Abbreviation safe m Q w := (wp m client_fault Q w).

Lemma wp_done r (Q : unit -> world -> Prop) w :
  sess_inv w -> (forall w', sess_inv w' -> Q tt w') -> safe (done r) Q w.
Proof.
  intros Hi HQ. unfold done. wp_go. case_match; [|wp_go; auto].
  eapply wp_mono; [by apply law_done|]. intros [] w' ?. auto.
Qed.

Lemma wp_sink f h d n (Q : Z -> world -> Prop) w :
  (forall a w', client_only w w' -> Q a w') -> safe (call_sink f h d n) Q w.
Proof. intros HQ. eapply wp_mono; [apply law_sink|]. auto. Qed.

Lemma wp_source_ack f h n (Q : Z * option bytes -> world -> Prop) w :
  (forall a w', client_only w w' -> Q a w') -> safe (call_source f h false n) Q w.
Proof. intros HQ. eapply wp_mono; [apply law_source|]. simpl. intros a w' [? _]. auto. Qed.

(** What the application does leaves the session and the pcbs as they are. *)
Lemma client_only_proj w w' :
  client_only w w' ->
  w_sess w' = w_sess w /\ w_pcbs w' = w_pcbs w /\ w_next w' = w_next w /\
  w_trace w' = w_trace w.
Proof. by intros ->. Qed.

Lemma wp_sink_chain qs (Q : unit -> world -> Prop) w :
  is_Some (data_sink (w_sess w)) ->
  (forall w', client_only w w' -> Q tt w') -> safe (sink_chain qs) Q w.
Proof.
  revert w. induction qs as [|q qs IH]; intros w [f Hf] HQ; simpl.
  - wp_go. apply HQ, client_only_refl.
  - wp_go. rewrite Hf. wp_go. apply wp_sink. intros _ w1 H1.
    apply IH; [by rewrite (proj1 (client_only_proj _ _ H1)), Hf|].
    intros w2 H2. apply HQ. by eapply client_only_trans.
Qed.

(** Offer the next chunk, or close the data connection at the end of the
    file.  [data_pcb] must be there for its [mss] when there is a source. *)
Lemma wp_send_next_data (Q : Z -> world -> Prop) w :
  core_inv w ->
  control_state (w_sess w) <> LWFTP_TYPE_SENT ->
  control_state (w_sess w) <> LWFTP_PASV_SENT ->
  (is_Some (data_source (w_sess w)) -> is_Some (data_pcb (w_sess w))) ->
  (forall w', core_inv w' -> (exists o, w_sess w' = set_data_pcb o (w_sess w)) ->
     data_only w w' -> Q ERR_OK w') ->
  safe (lwftp_send_next_data env) Q w.
Proof.
  intros Hi H1 H2 Hd HQ. unfold lwftp_send_next_data. wp_go.
  set (Q1 := fun (len : Z) w' => core_inv w' /\ w_sess w' = w_sess w /\ data_only w w').
  apply wp_mono with (Q := Q1); unfold Q1; clear Q1.
  - destruct (data_source (w_sess w)) as [f|]; [|by wp_go; eauto using data_only_refl].
    destruct Hd as [d Ed]; [done|]. rewrite Ed.
    pose proof Hi as [Hp _]. destruct (po_dat _ _ _ Hp d Ed) as (t & Ht & _).
    unfold pcb_mss. wp_go. eapply wp_live; [done|]. wp_go.
    eapply wp_mono; [apply law_source|]. intros [len data] w1 [Hcl Hb]; simpl in Hb.
    pose proof (client_only_proj _ _ Hcl) as (Es & Em & _ & Et).
    pose proof (core_inv_client _ _ Hcl Hi) as Hi1.
    wp_go; [by eauto using data_only_refl|].
    zbool. destruct (Hb eq_refl) as (b & -> & Hlen); [done|]. simpl.
    rewrite decide_False by lia. wp_go. rewrite Es, Ed.
    eapply wp_live; [by rewrite Em|]. unfold wp; simpl.
    split; [by apply core_inv_log|]. split; [done|].
    eexists [_]. simpl. rewrite Et. split; [done|]. by repeat constructor.
  - intros len w1 (Hi1 & Es1 & Hd1). wp_go.
    2: { apply HQ; [done| |done]. exists (data_pcb (w_sess w)). rewrite Es1. by destruct (w_sess w). }
    apply wp_drop_data; [done|congruence..|]. intros m' tr w' Hi' Hd'. wp_go.
    apply HQ; [done|exists None; simpl; by rewrite Es1|].
    eapply data_only_trans; [done|by rewrite Es1|done].
Qed.

Lemma wp_data_sent tp n (Q : Z -> world -> Prop) w :
  core_inv w ->
  control_state (w_sess w) <> LWFTP_TYPE_SENT ->
  control_state (w_sess w) <> LWFTP_PASV_SENT ->
  (is_Some (data_source (w_sess w)) -> is_Some (data_pcb (w_sess w))) ->
  (forall w', core_inv w' -> (exists o, w_sess w' = set_data_pcb o (w_sess w)) ->
     data_only w w' -> Q ERR_OK w') ->
  safe (lwftp_data_sent env (Some tt) tp n) Q w.
Proof.
  intros Hi H1 H2 Hd HQ. unfold lwftp_data_sent. wp_go.
  apply wp_mono with (Q := fun _ w' => client_only w w').
  - case_match; wp_go; [|apply client_only_refl].
    apply wp_source_ack. intros _ w' ?. by wp_go.
  - intros [] w' Hcl. pose proof (client_only_proj _ _ Hcl) as (Es & _ & _ & Et).
    apply wp_send_next_data; rewrite ?Es; try done; [by eapply core_inv_client|].
    intros w2 Hi2 E2 Hd2. apply HQ; [done..|].
    eapply data_only_trans; [by apply data_only_refl|by rewrite Es|done].
Qed.

Lemma wp_data_recv tp b e (Q : Z -> world -> Prop) w :
  core_inv w ->
  control_state (w_sess w) <> LWFTP_TYPE_SENT ->
  control_state (w_sess w) <> LWFTP_PASV_SENT ->
  (exists t, w_pcbs w !! tp = Some t) ->
  (forall w', core_inv w' -> control_state (w_sess w') = control_state (w_sess w) ->
     Q ERR_OK w') ->
  safe (lwftp_data_recv env (Some tt) (Some tp) b e) Q w.
Proof.
  intros Hi H1 H2 [t Ht] HQ. unfold lwftp_data_recv. wp_go. destruct b as [b|]; wp_go.
  - apply wp_mono with (Q := fun _ w' => client_only w w').
    + case_match eqn:Ef; wp_go; [|apply client_only_refl].
      apply wp_sink_chain; [by rewrite Ef|done].
    + intros [] w1 Hcl. pose proof (client_only_proj _ _ Hcl) as (Es & Em & _).
      wp_go. unfold tcp_recved. eapply wp_live; [by rewrite Em|]. unfold pbuf_free. wp_go.
      apply HQ; [by apply core_inv_log, core_inv_log; eapply core_inv_client|].
      simpl. by rewrite Es.
  - apply wp_mono with (Q := fun _ w' => client_only w w').
    + case_match; wp_go; [|apply client_only_refl].
      apply wp_sink. intros _ w' ?. by wp_go.
    + intros [] w1 Hcl. pose proof (client_only_proj _ _ Hcl) as (Es & _).
      wp_go. apply wp_drop_data_opt; [by eapply core_inv_client|by rewrite Es..|].
      intros m' tr w' Hi' _. wp_go. apply HQ; [done|]. simpl. by rewrite Es.
Qed.

(** ** Opening the data connection *)

Definition is_connect (e : event) : Prop :=
  match e with E_connect _ _ _ _ => True | _ => False end.

Definition opened_in (d : nat) (m m' : gmap nat tcp_pcb) : Prop :=
  m' = m \/ exists t', dat_pcb t' /\ m' = <[d := t']> m.

Lemma wp_data_open b d (Q : Z -> world -> Prop) w :
  data_pcb (w_sess w) = Some d ->
  (exists t, w_pcbs w !! d = Some t /\ idle_pcb t /\ pstate t = PCB_CLOSED) ->
  is_Some (pasv_params (payload b)) ->
  (forall e m' l, opened_in d (w_pcbs w) m' -> Forall is_connect l ->
     Q e (mk_world (w_sess w) m' (w_next w) (l ++ w_trace w) (w_cl w))) ->
  safe (lwftp_data_open env b) Q w.
Proof.
  intros Ed (t & Ht & Hid & Hpc) [r Er] HQ. unfold lwftp_data_open. rewrite Er. wp_go.
  assert (forall e, Q e w) as HQw.
  { intros e. destruct w. apply (HQ e _ []); [by left|constructor]. }
  destruct r as [[ip port]|e]; [|wp_go; apply HQw]. wp_go.
  rewrite Ed. unfold tcp_arg, tcp_err, tcp_recv, tcp_sent.
  eapply wp_pcb_update; [done|]. cbn beta. apply wp_bind.
  eapply wp_pcb_update; [simpl; apply lookup_insert_eq|]. cbn beta. apply wp_bind.
  eapply wp_pcb_update; [simpl; apply lookup_insert_eq|]. cbn beta. apply wp_bind.
  eapply wp_pcb_update; [simpl; apply lookup_insert_eq|]. cbn beta.
  eapply wp_live; [simpl; apply lookup_insert_eq|]. unfold wp. simpl. rewrite Hpc. simpl.
  case_match; case_match; simplify_eq;
    (eapply (HQ _ _ [_]); [right|by repeat constructor]); simpl;
    rewrite !insert_insert_eq; (eexists; split; [|reflexivity]); repeat split; simpl; auto; congruence.
Qed.

(** ** Closing the session *)

Lemma phase_closed (s : lwftp_session_t) :
  control_state s = LWFTP_CLOSED -> control_pcb s = None -> data_pcb s = None -> phase_ok s.
Proof. unfold phase_ok. intros -> -> ->. split; [done|]. by intros [? [=]]. Qed.

Definition is_close (e : event) : Prop :=
  match e with E_close _ _ => True | _ => False end.

(** The session when both pcbs are gone, before the client hears of it. *)
Record torn_down (w w' : world) : Prop := {
  td_inv : sess_inv w';
  td_state : control_state (w_sess w') = LWFTP_CLOSED;
  td_control : control_pcb (w_sess w') = None;
  td_data : data_pcb (w_sess w') = None;
  td_done : done_fn (w_sess w') = done_fn (w_sess w);
  td_client : w_cl w' = w_cl w;
  td_trace : exists l, w_trace w' = l ++ w_trace w /\ Forall is_close l
}.

Lemma wp_control_close_strong r (Q : unit -> world -> Prop) w :
  closable (w_sess w) (w_pcbs w) (w_next w) ->
  (forall w', torn_down w w' -> safe (whenM (r >=? 0) (done r)) Q w') ->
  safe (lwftp_control_close env r) Q w.
Proof.
  intros Hc HQ. unfold lwftp_control_close. wp_go.
  set (Q1 := fun (_ : unit) w1 => closable (w_sess w1) (w_pcbs w1) (w_next w1) /\
    data_pcb (w_sess w1) = None /\ done_fn (w_sess w1) = done_fn (w_sess w) /\
    w_cl w1 = w_cl w /\ exists l, w_trace w1 = l ++ w_trace w /\ Forall is_close l).
  apply wp_mono with (Q := Q1); unfold Q1; clear Q1.
  { destruct (data_pcb (w_sess w)) as [d|] eqn:Ed;
      [|wp_go; split_and!; [done..|by exists []]].
    destruct (cb_dat _ _ _ Hc d Ed) as (t & Ht & _). wp_go.
    eapply wp_pcb_close; [done|]. intros m' e Hcl. wp_go. simpl.
    split; [by eapply closable_close_data|]. split_and!; [done..|].
    exists [E_close d e]. by repeat constructor. }
  clear Hc. intros [] w1 (Hc & Ed & Efn & Ecl & l1 & El1 & Hl1). wp_go.
  set (Q2 := fun (_ : unit) w2 =>
    pcbs_ok (set_control_state LWFTP_CLOSED (w_sess w2)) (w_pcbs w2) (w_next w2) /\
    data_pcb (w_sess w2) = None /\ control_pcb (w_sess w2) = None /\
    done_fn (w_sess w2) = done_fn (w_sess w) /\
    w_cl w2 = w_cl w /\ exists l, w_trace w2 = l ++ w_trace w /\ Forall is_close l).
  apply wp_mono with (Q := Q2); unfold Q2; clear Q2.
  { destruct (control_pcb (w_sess w1)) as [c|] eqn:Ec.
    - destruct (cb_ctl _ _ _ Hc c Ec) as (t & Ht & _). wp_go.
      eapply wp_pcb_close; [done|]. intros m' e Hcl. wp_go. simpl.
      split; [by eapply closable_close_ctl|]. split_and!; [done..|].
      exists (E_close c e :: l1). rewrite El1. by repeat constructor.
    - wp_go. split; [by apply closable_no_ctl|]. split_and!; [done..|]. by exists l1. }
  intros [] w2 (Hp & Hd & Hn & Efn2 & Ecl2 & Htr). wp_step. cbn beta. wp_step. cbn beta.
  apply HQ. split; try done. split; [|done].
  split; [done|split; [by apply phase_closed|]]; intros [?|?]; simpl in *; congruence.
Qed.

Lemma wp_control_close r (Q : unit -> world -> Prop) w :
  closable (w_sess w) (w_pcbs w) (w_next w) ->
  (forall w', sess_inv w' -> Q tt w') ->
  safe (lwftp_control_close env r) Q w.
Proof.
  intros Hc HQ. apply wp_control_close_strong; [done|]. intros w' [Hi _ _ _ _ _ _].
  wp_go; [by apply wp_done|by apply HQ].
Qed.

(** ** The state machine *)

(** The verb of the command that starts transfer [tgt]. *)
Definition transfer_verb (tgt : lwftp_state_t) : bytes :=
  match tgt with
  | LWFTP_STOR_SENT => str "STOR "
  | LWFTP_RETR_SENT => str "RETR "
  | LWFTP_MLSD_SENT => str "MLSD "
  | _ => []
  end.

(** After a PASV reply: the connection is being opened, the command is out. *)
Lemma wp_pasv p w (Q : Z -> world -> Prop) b :
  core_inv w -> control_state (w_sess w) = LWFTP_PASV_SENT ->
  p = Some b -> is_Some (pasv_params (payload b)) ->
  (forall m' l c q e1 e2 e3, Forall is_connect l ->
     control_pcb (w_sess w) = Some c -> remote_path (w_sess w) = Some q ->
     let w' := mk_world (set_control_state (target_state (w_sess w)) (w_sess w)) m' (w_next w)
       (E_write c crlf e3 :: E_write c (cl_str (w_cl w) q) e2 ::
        E_write c (transfer_verb (target_state (w_sess w))) e1 :: l ++ w_trace w) (w_cl w) in
     core_inv w' -> Q LWFTP_RESULT_ERR_SRVR_RESP w') ->
  safe (control_first env p 227) Q w.
Proof.
  intros Hi Est -> Hpp HQ. unfold control_first, control_reply. wp_go. rewrite Est.
  change (227 >? 0) with true. change (227 =? 227) with true. wp_go; try done.
  destruct Hi as (Hp & Hf & Hu). unfold phase_ok in Hf. rewrite Est in Hf.
  destruct Hf as (Hc & [d Ed] & Hrp & Ht).
  destruct (po_dat _ _ _ Hp d Ed) as (t & Hlt & _).
  apply (wp_data_open b d); [done| |done|].
  { exists t. split; [done|]. eapply Hu; eauto. }
  intros e m' l Hop Hl.
  assert (pcbs_ok (w_sess w) m' (w_next w)) as Hp'.
  { destruct Hop as [->|(t' & Hd' & ->)]; [done|].
    destruct Hp as [Hc1 Hd1 Hr1 Hn1 Hx1]. split; try done.
    - intros c Ec. destruct (Hc1 c Ec) as (u & Hu' & ?). exists u. split; [|done].
      rewrite lookup_insert_ne; [done|]. intros ->. by apply (Hn1 _ Ec).
    - intros d' Ed'. exists t'. rewrite Ed in Ed'; injection Ed' as <-.
      rewrite lookup_insert_eq. auto.
    - intros q u Hq H1 H2. rewrite lookup_insert_ne in Hq by congruence. eauto.
    - intros q Hq. destruct (decide (q = d)) as [->|Hne]; [apply Hx1; eauto|].
      rewrite lookup_insert_ne in Hq by done. auto. }
  assert (forall tr', core_inv (mk_world (set_control_state (target_state (w_sess w)) (w_sess w))
            m' (w_next w) tr' (w_cl w))) as Hfin.
  { intros tr'. split; [|split].
    - apply pcbs_ok_state; [done|congruence|]. destruct Ht as [->|[->| ->]]; done.
    - unfold phase_ok; simpl. by destruct Ht as [->|[->| ->]].
    - intros Hs; simpl in Hs. destruct Ht as [Ht|[Ht|Ht]]; rewrite Ht in Hs; intuition congruence. }
  clear Hop. cbn beta. wp_go. destruct Ht as [Ht|[Ht|Ht]]; rewrite Ht in *;
    (send_all; simpl in *; rewrite Ht; simplify_eq; by eapply HQ).
Qed.

(** What a response must satisfy for the first switch not to fault. *)
Definition response_ok (p : option pbuf) (response : Z) (s : lwftp_session_t) : Prop :=
  (response > 0 -> is_Some p) /\
  (control_state s = LWFTP_PASV_SENT -> response = 227 ->
   forall b, p = Some b -> is_Some (pasv_params (payload b))) /\
  (control_state s = LWFTP_STOR_SENT -> response = 150 ->
   is_Some (data_source s) -> is_Some (data_pcb s)).

Lemma wp_control_first p response (Q : Z -> world -> Prop) w :
  core_inv w -> response_ok p response (w_sess w) ->
  (forall r w', core_inv w' -> Q r w') ->
  safe (control_first env p response) Q w.
Proof.
  intros Hi (Hrp & Hpv & Hst) HQ.
  destruct (decide (control_state (w_sess w) = LWFTP_PASV_SENT /\ response = 227)) as [[E1 ->]|Hnp].
  { destruct Hrp as [b ->]; [lia|]. eapply wp_pasv; [done..|by eapply Hpv|]. intros. by apply HQ. }
  pose proof Hi as (Hp & Hf & _). unfold phase_ok in Hf.
  assert (HQ0 : forall r, Q r w) by auto.
  unfold control_first, control_reply. wp_go.
  destruct (control_state (w_sess w)) eqn:Est; wp_go; try apply HQ0; zbool;
    try (exfalso; apply Hnp; split; [done|lia]);
    try (apply HQ; new_state).
  - (* USER *)
    destruct Hf as (Hc & Hd & Hu & Hpw).
    send_all. apply HQ. new_state.
  - (* PASS *)
    destruct Hf as (Hc & Hd & Hpw).
    send_all. apply HQ. new_state.
  - (* logged in *)
    apply wp_done; [|intros w' Hi'; cbn beta; wp_go; by apply HQ; destruct Hi'].
    split; [new_state|done].
  - (* PASV *)
    destruct Hf as (Hc & Hd & Hpt & Ht).
    send_all. apply HQ. new_state.
  - (* STOR, 150 *)
    apply wp_data_sent; [new_state|done..| |].
    { intros ?. simpl in *. auto. }
    intros w' Hi' _ _. wp_go. by apply HQ.
  - (* PWD *)
    apply wp_mono with (Q := fun _ w' => client_only w w').
    { destruct (data_sink (w_sess w)); wp_go; [|apply client_only_refl].
      destruct Hrp as [b ->]; [lia|]. wp_go. apply wp_sink. intros; by wp_go. }
    intros [] w' Hcl. wp_go. apply HQ.
    pose proof (core_inv_client _ _ Hcl Hi) as Hi'.
    destruct (client_only_proj _ _ Hcl) as (Es & _). rewrite <- Es in Est. new_state.
  - (* RNTO *)
    destruct Hf as (Hc & Hd & Hn).
    send_all. apply HQ. new_state.
Qed.

(** The end of a transfer: back to LOGGED, the data pcb closed. *)
Lemma wp_end_data (Q : unit -> world -> Prop) w :
  core_inv w -> control_state (w_sess w) = LWFTP_DATAEND ->
  (forall m' tr,
     let w' := mk_world (set_data_pcb None (set_control_state LWFTP_LOGGED (w_sess w)))
                 m' (w_next w) tr (w_cl w) in
     sess_inv w' -> data_only w w' -> Q tt w') ->
  safe (match data_pcb (w_sess w) with
        | Some d => _ ← lwftp_pcb_close env (Some d); set (set_data_pcb None)
        | None => mret tt
        end) Q (upd_sess (set_control_state LWFTP_LOGGED) w).
Proof.
  intros Hi Est HQ. pose proof Hi as (Hp & Hf & _). unfold phase_ok in Hf. rewrite Est in Hf.
  assert (pcbs_ok (set_control_state LWFTP_LOGGED (w_sess w)) (w_pcbs w) (w_next w)) as Hp'
    by (apply pcbs_ok_state; [done|congruence|done]).
  destruct (data_pcb (w_sess w)) as [d|] eqn:Ed.
  - destruct (po_dat _ _ _ Hp d Ed) as (t & Ht & _). wp_go.
    eapply wp_pcb_close; [done|]. intros m' e Hcl. wp_go. apply HQ.
    + split; [|done]. split; [|split]; simpl; [by eapply pcbs_ok_close_data|done|].
      by intros [?|?].
    + exists [E_close d e]. by repeat constructor.
  - wp_go. specialize (HQ (w_pcbs w) (w_trace w)).
    destruct w as [s m n tr c]; simpl in *. rewrite set_data_pcb_id in HQ by done.
    apply HQ; [|by apply data_only_refl]. split; [|done]. split; [done|].
    split; [done|]. by intros [?|?].
Qed.

Lemma wp_control_second r (Q : unit -> world -> Prop) w :
  core_inv w -> (forall w', sess_inv w' -> Q tt w') ->
  safe (control_second env r) Q w.
Proof.
  intros Hi HQ. pose proof Hi as (Hp & Hf & _). unfold phase_ok in Hf.
  unfold control_second. wp_go.
  destruct (control_state (w_sess w)) eqn:Est; wp_go;
    try (apply HQ; split; [done|by rewrite Est]).
  - (* DATAEND *)
    unfold lwftp_data_close. wp_go. apply (wp_end_data _ w); [done..|].
    intros m' tr w' Hi' _. by apply wp_done.
  - (* QUIT *)
    apply wp_send_lit; [done..|]; intros c e Ec; cbn beta; wp_go. simpl. rewrite Ec.
    unfold tcp_output. wp_go. destruct (po_ctl _ _ _ Hp c Ec) as (t & Ht & _).
    eapply wp_live; [done|]. wp_go. apply HQ. split; [|done]. new_state.
  - (* CLOSING *)
    apply wp_control_close; [|done]. apply pcbs_ok_closable; [done|]. right; congruence.
  - (* CMDEND *)
    apply wp_done; [|done]. split; [new_state|done].
Qed.

(** ** Receiving *)

(** A packet on the control connection whose parsing stays inside it. *)
Definition reply_ok (b : pbuf) (s : lwftp_session_t) : Prop :=
  exists v rest, strtoul10 (payload b) = Some (v, rest) /\
    response_ok (Some b) (u16 v) s.

Lemma wp_control_process b (Q : unit -> world -> Prop) w :
  core_inv w -> reply_ok b (w_sess w) ->
  (forall w', sess_inv w' -> Q tt w') ->
  safe (lwftp_control_process env (Some b)) Q w.
Proof.
  intros Hi (v & rest & Ev & Hr) HQ. unfold lwftp_control_process. wp_go.
  rewrite Ev. wp_go. apply wp_control_first; [done..|]. intros r w' Hi'. unfold pbuf_free.
  cbn beta. wp_go. by apply wp_control_second.
Qed.

Lemma wp_control_process_null (Q : unit -> world -> Prop) w :
  core_inv w -> control_state (w_sess w) = LWFTP_DATAEND ->
  (forall w', sess_inv w' -> Q tt w') ->
  safe (lwftp_control_process env None) Q w.
Proof.
  intros Hi Est HQ. unfold lwftp_control_process. wp_go.
  unfold control_first, control_reply. wp_go. rewrite Est. wp_go. by apply wp_control_second.
Qed.

Lemma wp_control_recv b e c (Q : Z -> world -> Prop) w :
  core_inv w -> control_pcb (w_sess w) = Some c -> control_state (w_sess w) <> LWFTP_CLOSED ->
  (forall p, b = Some p -> e = ERR_OK -> reply_ok p (w_sess w)) ->
  (forall w', sess_inv w' -> Q e w') ->
  safe (lwftp_control_recv env (Some tt) (Some c) b e) Q w.
Proof.
  intros Hi Ec Hst Hb HQ. pose proof Hi as (Hp & _).
  unfold lwftp_control_recv. wp_go; zbool; subst;
    [destruct b as [p|]; wp_go|].
  - destruct (po_ctl _ _ _ Hp c Ec) as (t & Ht & _).
    eapply wp_live; [done|]. wp_go.
    apply wp_control_process; [done|by apply Hb|]. intros w' ?; cbn beta; wp_go; auto.
  - apply wp_control_close; [apply pcbs_ok_closable; auto|]. intros w' ?; cbn beta; wp_go; auto.
  - apply wp_control_close; [apply pcbs_ok_closable; auto|]. intros w' ?; cbn beta; wp_go; auto.
Qed.

(** ** Errors *)

Lemma pcbs_ok_lost_ctl s m n c :
  pcbs_ok s m n -> control_pcb s = Some c ->
  closable (set_control_pcb None s) (delete c m) n.
Proof.
  intros [Hc Hd Hr Hn Hx] Ec. split; simpl; try done.
  - intros d Ed. destruct (Hd d Ed) as (t & Ht & Hok). exists t.
    rewrite lookup_delete_ne; [tauto|]. intros ->. by apply (Hn _ Ec).
  - intros p t Hp _ Hdp. apply lookup_delete_Some in Hp as [Hne Hp].
    eapply Hr; [done| |done]. congruence.
  - intros p [t Ht]. apply lookup_delete_Some in Ht as [_ Ht]. eauto.
Qed.

Lemma wp_control_err e c (Q : unit -> world -> Prop) w :
  core_inv w -> control_pcb (w_sess w) = Some c ->
  (forall w', sess_inv w' -> Q tt w') ->
  safe (lwftp_control_err env (Some tt) e) Q (upd_pcbs (delete c) w).
Proof.
  intros (Hp & _) Ec HQ. unfold lwftp_control_err. wp_go.
  apply wp_control_close; [|done]. by apply pcbs_ok_lost_ctl.
Qed.

Lemma pcbs_ok_lost_dat s m n d :
  pcbs_ok s m n -> data_pcb s = Some d ->
  pcbs_ok (set_data_pcb None s) (delete d m) n.
Proof.
  intros [Hc Hd Hr Hn Hx] Ed. split; simpl; try done.
  - intros c Ec. destruct (Hc c Ec) as (t & Ht & Hok). exists t.
    rewrite lookup_delete_ne; [tauto|]. intros ->. by apply (Hn _ Ec).
  - intros p t Hp Hcp _. apply lookup_delete_Some in Hp as [Hne Hp].
    eapply Hr; [done|done|]. congruence.
  - intros p [t Ht]. apply lookup_delete_Some in Ht as [_ Ht]. eauto.
Qed.

Lemma wp_data_err e d (Q : unit -> world -> Prop) w :
  sess_inv w -> data_pcb (w_sess w) = Some d ->
  control_state (w_sess w) <> LWFTP_TYPE_SENT ->
  control_state (w_sess w) <> LWFTP_PASV_SENT ->
  (forall w', sess_inv w' -> Q tt w') ->
  safe (lwftp_data_err env (Some tt) e) Q (upd_pcbs (delete d) w).
Proof.
  intros ((Hp & Hf & Hu) & Hr) Ed H1 H2 HQ. unfold lwftp_data_err. wp_go.
  - simpl in *. assert (core_inv (upd_sess (set_data_pcb None) (upd_pcbs (delete d) w))) as Hi.
    { split; [by apply pcbs_ok_lost_dat|]. split; [by apply phase_drop_data|].
      by intros _ ? ? [=]. }
    apply wp_control_process_null; [|done|done].
    apply core_inv_state; simpl; try done; [congruence| |intuition congruence].
    unfold phase_ok in *; simpl. by destruct (control_state (w_sess w)).
  - apply HQ. split; [|done]. split; [by apply pcbs_ok_lost_dat|].
    split; [by apply phase_drop_data|]. by intros _ ? ? [=].
Qed.

(** ** Completed handshakes *)

Lemma sess_inv_control_connected w c t :
  sess_inv w -> control_pcb (w_sess w) = Some c -> w_pcbs w !! c = Some t ->
  pstate t = PCB_SYN_SENT ->
  sess_inv (upd_sess (set_control_state LWFTP_CONNECTED)
             (upd_pcbs (insert c (set_pstate PCB_ESTABLISHED t)) w)).
Proof.
  intros ((Hp & Hf & Hu) & Hr) Ec Ht Hs.
  destruct Hp as [Hc Hd Hrest Hn Hx].
  destruct (Hc c Ec) as (t' & Ht' & Hok). simplify_eq.
  destruct Hok as (A1 & A2 & A3 & A4 & A5 & A6). rewrite Hs in A6. case_decide as Est; [|done].
  unfold phase_ok in Hf. rewrite Est in Hf. destruct Hf as [Hf1 Hf2].
  split; [|done]. split; [|split].
  - split; simpl; try done.
    + intros c' Ec'. rewrite Ec in Ec'. injection Ec' as <-.
      eexists. rewrite lookup_insert_eq. split; [done|]. by repeat split.
    + by rewrite Hf1.
    + intros p u Hpu H1 H2. rewrite lookup_insert_ne in Hpu by congruence. eauto.
    + intros p Hp. destruct (decide (p = c)) as [->|]; [apply Hx; eauto|].
      rewrite lookup_insert_ne in Hp by done. eauto.
  - unfold phase_ok; simpl. rewrite Ec in *. destruct Hf2; eauto.
  - intros [?|?]; done.
Qed.

(** A pcb that is not the control one keeps its role when its handshake
    completes. *)
Lemma dat_pcb_est t : dat_pcb t -> dat_pcb (set_pstate PCB_ESTABLISHED t).
Proof. intros (? & ? & ? & ? & ?). by repeat split. Qed.

Lemma idle_pcb_est t : idle_pcb t -> idle_pcb (set_pstate PCB_ESTABLISHED t).
Proof. intros (? & ? & ? & ?). by repeat split. Qed.

Lemma core_inv_other_connected w p t :
  core_inv w -> control_pcb (w_sess w) <> Some p -> w_pcbs w !! p = Some t ->
  pstate t = PCB_SYN_SENT ->
  core_inv (upd_pcbs (insert p (set_pstate PCB_ESTABLISHED t)) w).
Proof.
  intros ([Hc Hd Hr Hn Hx] & Hf & Hu) Hnc Ht Hs. split; [|split; [done|]].
  - split; simpl; try done.
    + intros c Ec. destruct (Hc c Ec) as (u & ? & ?). exists u.
      rewrite lookup_insert_ne by congruence. done.
    + intros d Ed. destruct (Hd d Ed) as (u & Hu' & Hok).
      destruct (decide (d = p)) as [->|Hne].
      * simplify_eq. eexists. rewrite lookup_insert_eq. split; [done|].
        destruct Hok as [?|[_ ?]]; [|congruence]. left. by apply dat_pcb_est.
      * exists u. rewrite lookup_insert_ne by done. done.
    + intros q u Hq H1 H2. destruct (decide (q = p)) as [->|Hne].
      * rewrite lookup_insert_eq in Hq. simplify_eq. apply idle_pcb_est. eauto.
      * rewrite lookup_insert_ne in Hq by done. eauto.
    + intros q Hq. destruct (decide (q = p)) as [->|]; [apply Hx; eauto|].
      rewrite lookup_insert_ne in Hq by done. eauto.
  - intros Hs' d u Ed Hl. simpl in *. destruct (decide (d = p)) as [->|Hne].
    + destruct (Hu Hs' p t Ed Ht) as [_ ?]. congruence.
    + rewrite lookup_insert_ne in Hl by done. by eapply Hu.
Qed.

End Handlers.
