(* ===== verification/LwftpSystem.v ===== *)
(** * The client as a system: events, calls and reachable sessions

    The public interface keeps the invariant, so does every event the stack
    delivers; with the changes a client may make to its own fields these are
    the steps of [sys_step], and [sess_inv] holds of every reachable world. *)

From S2P Require Import Prelude CLib Session Lwftp SessionInv LwftpSafety.

(** ** The shape of a transfer

    [lwftp_retrieve], [lwftp_store] and [lwftp_mlsd] differ in the target
    state only. *)

Section Shapes.
Context `{ops : ClientOps} (env : tcp_env).

Definition start_transfer (tgt : lwftp_state_t) : M unit :=
  s ← sess;
  if decide (control_state s = LWFTP_LOGGED) then
    send_lit env (str "TYPE I" ++ crlf);;
    set (set_control_state LWFTP_TYPE_SENT);;
    set (set_target_state tgt)
  else done LWFTP_RESULT_ERR_INTERNAL.

Definition transfer (tgt : lwftp_state_t) : M Z :=
  s ← sess;
  if decide (control_state s <> LWFTP_LOGGED \/ remote_path s = None \/
             is_Some (data_pcb s))
  then api_exit LWFTP_RESULT_ERR_ARGUMENT
  else
    d ← tcp_new env;
    set (set_data_pcb d);;
    match d with
    | None => api_exit LWFTP_RESULT_ERR_MEMORY
    | Some _ =>
        error ← lwftp_tcpip_callback (start_transfer tgt);
        api_exit (if error =? ERR_OK then LWFTP_RESULT_INPROGRESS
                  else LWFTP_RESULT_ERR_INTERNAL)
    end.

Lemma retrieve_shape : lwftp_retrieve env = transfer LWFTP_RETR_SENT.
Proof. done. Qed.
Lemma store_shape : lwftp_store env = transfer LWFTP_STOR_SENT.
Proof. done. Qed.
Lemma mlsd_shape : lwftp_mlsd env = transfer LWFTP_MLSD_SENT.
Proof. done. Qed.

End Shapes.

(** ** The public interface keeps the invariant *)

Section Api.
Context `{laws : ClientLaws} (env : tcp_env).
Implicit Types (w : world).

Abbreviation safe m Q w := (wp m client_fault Q w).

Definition fresh_pcb : tcp_pcb := mk_pcb PCB_CLOSED None None None None None.

Lemma wp_tcp_new E (Q : option nat -> world -> Prop) w :
  Q None (log (E_new None) w) ->
  Q (Some (w_next w))
    (log (E_new (Some (w_next w)))
      (mk_world (w_sess w) (<[w_next w := fresh_pcb]> (w_pcbs w)) (S (w_next w))
         (w_trace w) (w_cl w))) ->
  wp (tcp_new env) E Q w.
Proof. unfold wp, tcp_new. by destruct (env_new env (w_trace w)). Qed.

Lemma wp_api_exit r (Q : Z -> world -> Prop) w :
  sess_inv w -> (forall w', sess_inv w' -> Q r w') -> safe (api_exit r) Q w.
Proof.
  intros Hi HQ. unfold api_exit. wp_go. apply wp_done; [done|].
  intros w' ?; cbn beta; wp_go; auto.
Qed.

Lemma fresh_absent s m n : pcbs_ok s m n -> m !! n = None.
Proof.
  intros Hp. destruct (m !! n) eqn:E; [|done].
  assert (n < n)%nat by (apply (po_next _ _ _ Hp); eauto). lia.
Qed.

(** What passes the argument check of an interface function. *)
Lemma logged_guard (s : lwftp_session_t) :
  ~ (control_state s <> LWFTP_LOGGED \/ remote_path s = None \/ is_Some (data_pcb s)) ->
  control_state s = LWFTP_LOGGED /\ is_Some (remote_path s) /\ data_pcb s = None.
Proof.
  intros Hn. destruct (decide (control_state s = LWFTP_LOGGED)); [|tauto].
  destruct (remote_path s); [|tauto]. destruct (data_pcb s); [exfalso; eauto 6|eauto].
Qed.

(** A fresh data pcb for a session that had none. *)
Lemma pcbs_ok_new_data s m n :
  pcbs_ok s m n -> data_pcb s = None ->
  pcbs_ok (set_data_pcb (Some n) s) (<[n := fresh_pcb]> m) (S n).
Proof.
  intros Hp Ed. pose proof (fresh_absent _ _ _ Hp) as Hf. destruct Hp as [Hc Hd Hr Hn Hx].
  split; simpl.
  - intros c Ec. destruct (Hc c Ec) as (t & Ht & ?). exists t.
    rewrite lookup_insert_ne by congruence. done.
  - intros d [= <-]. eexists. rewrite lookup_insert_eq. split; [done|]. right. by repeat split.
  - intros p t Hpt H1 H2. rewrite lookup_insert_ne in Hpt by congruence.
    eapply Hr; [done..|]. congruence.
  - intros p Ec [= <-]. destruct (Hc _ Ec) as (t & Ht & _). congruence.
  - intros p Hpt. destruct (decide (p = n)) as [->|]; [lia|].
    rewrite lookup_insert_ne in Hpt by done. specialize (Hx p Hpt). lia.
Qed.

(** The session once a transfer is requested: TYPE is sent, the data pcb is
    allocated. *)
Definition started (tgt : lwftp_state_t) (tr : trace) (w : world) : world :=
  mk_world
    (set_target_state tgt (set_control_state LWFTP_TYPE_SENT
       (set_data_pcb (Some (w_next w)) (w_sess w))))
    (<[w_next w := fresh_pcb]> (w_pcbs w)) (S (w_next w)) tr (w_cl w).

Lemma sess_inv_started tgt tr w :
  sess_inv w -> control_state (w_sess w) = LWFTP_LOGGED ->
  is_Some (remote_path (w_sess w)) -> data_pcb (w_sess w) = None ->
  tgt = LWFTP_RETR_SENT \/ tgt = LWFTP_STOR_SENT \/ tgt = LWFTP_MLSD_SENT ->
  sess_inv (started tgt tr w).
Proof.
  intros ((Hp & Hf & Hu) & _) Est Hrp Ed Ht.
  pose proof (pcbs_ok_new_data _ _ _ Hp Ed) as Hp'.
  unfold phase_ok in Hf. rewrite Est in Hf. destruct Hf as [Hc _].
  split; [|done]. split; [|split].
  - eapply (pcbs_ok_proj (set_control_state LWFTP_TYPE_SENT (set_data_pcb (Some (w_next w)) (w_sess w))));
      [done..|]. apply pcbs_ok_state; [done|simpl; congruence|done].
  - unfold phase_ok; simpl. eauto.
  - intros _ d t [= <-] Hl. simpl in Hl. rewrite lookup_insert_eq in Hl. injection Hl as <-.
    by repeat split.
Qed.

Lemma wp_start_transfer tgt E (Q : Z -> world -> Prop) w :
  sess_inv w -> control_state (w_sess w) = LWFTP_LOGGED -> data_pcb (w_sess w) = None ->
  (forall c e, control_pcb (w_sess w) = Some c ->
     Q ERR_OK (started tgt (E_write c (str "TYPE I" ++ crlf) e ::
                            E_new (Some (w_next w)) :: w_trace w) w)) ->
  wp (lwftp_tcpip_callback (start_transfer env tgt)) E Q
    (mk_world (set_data_pcb (Some (w_next w)) (w_sess w))
       (<[w_next w := fresh_pcb]> (w_pcbs w)) (S (w_next w))
       (E_new (Some (w_next w)) :: w_trace w) (w_cl w)).
Proof.
  intros ((Hp & Hf & Hu) & _) Est Ed HQ. unfold lwftp_tcpip_callback, start_transfer.
  wp_go; [|by simpl in *].
  unfold phase_ok in Hf. rewrite Est in Hf. destruct Hf as [Hc _].
  apply wp_send_lit; [by apply pcbs_ok_new_data|done|]. intros cp e Ec; cbn beta; wp_go.
  by apply HQ.
Qed.

Lemma wp_transfer tgt (Q : Z -> world -> Prop) w :
  sess_inv w ->
  tgt = LWFTP_RETR_SENT \/ tgt = LWFTP_STOR_SENT \/ tgt = LWFTP_MLSD_SENT ->
  (forall r w', sess_inv w' -> Q r w') ->
  safe (transfer env tgt) Q w.
Proof.
  intros Hi Ht HQ. unfold transfer. wp_go; [by apply wp_api_exit; auto|].
  match goal with Hn : ~ _ |- _ => apply logged_guard in Hn as (Est & Hrp & Ed) end.
  apply wp_tcp_new; wp_go.
  { apply wp_api_exit; [|auto]. destruct w as [s m n tr c]; simpl in *.
    unfold upd_sess; simpl. rewrite set_data_pcb_id by done. done. }
  apply (wp_start_transfer tgt _ _ w); [done..|]. intros c e Ec; cbn beta.
  apply wp_api_exit; [|auto]. by apply sess_inv_started.
Qed.

(** A command on the control connection of a session that is logged in: run
    its writes, then report. *)
Ltac run_command guard :=
  let Est := fresh "Est" in let Hf := fresh "Hf" in let Hi := fresh "Hi" in
  match goal with Hs : sess_inv _ |- _ => destruct Hs as [Hi _] end;
  pose proof Hi as (? & Hf & _); unfold phase_ok in Hf;
  match goal with Hn : ~ _ |- _ => apply guard in Hn as (Est & ?) end;
  rewrite Est in Hf; destruct Hf as [? _];
  unfold lwftp_tcpip_callback; wp_go; try tauto;
  intuition idtac;
  send_all; (apply wp_api_exit; [split; [new_state|done]|auto]).

Lemma wp_delete (Q : Z -> world -> Prop) w :
  sess_inv w -> (forall r w', sess_inv w' -> Q r w') -> safe (lwftp_delete env) Q w.
Proof.
  intros Hs HQ. unfold lwftp_delete, lwftp_send_DELE. wp_go; [by apply wp_api_exit; auto|].
  run_command logged_guard.
Qed.

Lemma wp_remove_dir (Q : Z -> world -> Prop) w :
  sess_inv w -> (forall r w', sess_inv w' -> Q r w') -> safe (lwftp_remove_dir env) Q w.
Proof.
  intros Hs HQ. unfold lwftp_remove_dir, lwftp_send_RMD. wp_go; [by apply wp_api_exit; auto|].
  run_command logged_guard.
Qed.

Lemma wp_change_dir (Q : Z -> world -> Prop) w :
  sess_inv w -> (forall r w', sess_inv w' -> Q r w') -> safe (lwftp_change_dir env) Q w.
Proof.
  intros Hs HQ. unfold lwftp_change_dir, lwftp_send_CWD. wp_go; [by apply wp_api_exit; auto|].
  run_command logged_guard.
Qed.

Lemma print_dir_guard (s : lwftp_session_t) :
  ~ (control_state s <> LWFTP_LOGGED \/ is_Some (data_pcb s)) ->
  control_state s = LWFTP_LOGGED /\ data_pcb s = None.
Proof.
  intros Hn. destruct (decide (control_state s = LWFTP_LOGGED)); [|tauto].
  destruct (data_pcb s); [exfalso; eauto 6|eauto].
Qed.

Lemma wp_print_dir (Q : Z -> world -> Prop) w :
  sess_inv w -> (forall r w', sess_inv w' -> Q r w') -> safe (lwftp_print_dir env) Q w.
Proof.
  intros Hs HQ. unfold lwftp_print_dir, lwftp_send_PWD. wp_go; [by apply wp_api_exit; auto|].
  run_command print_dir_guard.
Qed.

Lemma move_guard (s : lwftp_session_t) :
  ~ (control_state s <> LWFTP_LOGGED \/ remote_path s = None \/
     remote_new_path s = None \/ is_Some (data_pcb s)) ->
  control_state s = LWFTP_LOGGED /\ is_Some (remote_path s) /\
  is_Some (remote_new_path s) /\ data_pcb s = None.
Proof.
  intros Hn. destruct (decide (control_state s = LWFTP_LOGGED)); [|tauto].
  destruct (remote_path s); [|tauto]. destruct (remote_new_path s); [|tauto].
  destruct (data_pcb s); [exfalso; eauto 7|eauto].
Qed.

Lemma wp_move (Q : Z -> world -> Prop) w :
  sess_inv w -> (forall r w', sess_inv w' -> Q r w') -> safe (lwftp_move env) Q w.
Proof.
  intros Hs HQ. unfold lwftp_move, lwftp_send_RNFR. wp_go; [by apply wp_api_exit; auto|].
  run_command move_guard.
Qed.

Lemma phase_has_control (s : lwftp_session_t) :
  phase_ok s -> control_state s <> LWFTP_CLOSED -> is_Some (control_pcb s).
Proof. unfold phase_ok. destruct (control_state s); tauto. Qed.

Lemma wp_close (Q : unit -> world -> Prop) w :
  sess_inv w -> (forall w', sess_inv w' -> Q tt w') -> safe (lwftp_close env) Q w.
Proof.
  intros Hs HQ. unfold lwftp_close. wp_go; [by apply HQ|].
  destruct Hs as [Hi _]. pose proof Hi as (Hp & Hf & _).
  destruct (phase_has_control _ Hf) as [c Ec]; [done|].
  unfold lwftp_tcpip_callback, lwftp_send_QUIT. wp_go. rewrite Ec. wp_go.
  apply wp_send_lit; [done|by eexists|]. intros c' e Ec'; cbn beta; wp_go.
  unfold tcp_output. wp_go. destruct (po_ctl _ _ _ Hp c Ec) as (t & Ht & _).
  eapply wp_live; [done|]. wp_go; [done|]. apply HQ. split; [|done].
  apply (core_inv_state _ w Hi); [done|done| |by intros [?|?]].
  unfold phase_ok; simpl. by eexists.
Qed.

(** The table with a fresh control pcb [t] that nothing refers to yet. *)
Lemma closable_new_control s m n t :
  pcbs_ok s m n -> data_pcb s = None -> control_pcb s = None ->
  pstate t <> PCB_SYN_SENT ->
  closable (set_control_pcb (Some n) s) (<[n := t]> m) (S n).
Proof.
  intros [Hc Hd Hr Hn Hx] Ed Ec Ht. split; simpl; rewrite ?Ed; try done.
  - intros c [= <-]. exists t. by rewrite lookup_insert_eq.
  - intros p u Hpu H1 _. rewrite lookup_insert_ne in Hpu by congruence.
    eapply Hr; [done|congruence..].
  - intros p Hpt. destruct (decide (p = n)) as [->|]; [lia|].
    rewrite lookup_insert_ne in Hpt by done. specialize (Hx p Hpt). lia.
Qed.

Lemma sess_inv_connecting w tr t :
  sess_inv w -> control_state (w_sess w) = LWFTP_CLOSED ->
  control_pcb (w_sess w) = None ->
  is_Some (user (w_sess w)) -> is_Some (pass (w_sess w)) ->
  ctl_pcb LWFTP_CLOSED t ->
  sess_inv (mk_world (set_control_pcb (Some (w_next w)) (w_sess w))
              (<[w_next w := t]> (w_pcbs w)) (S (w_next w)) tr (w_cl w)).
Proof.
  intros ((Hp & Hf & Hu) & _) Est Ec Hus Hpw Ht.
  unfold phase_ok in Hf. rewrite Est in Hf. destruct Hf as [Ed _].
  destruct Hp as [Hc Hd Hr Hn Hx].
  split; [|by simpl; rewrite Est]. split; [split; simpl; rewrite ?Ed, ?Est; try done|split].
  - intros c [= <-]. exists t. by rewrite lookup_insert_eq.
  - intros p u Hpu H1 _. rewrite lookup_insert_ne in Hpu by congruence.
    eapply Hr; [done|congruence..].
  - intros p Hpt. destruct (decide (p = w_next w)) as [->|]; [lia|].
    rewrite lookup_insert_ne in Hpt by done. specialize (Hx p Hpt). lia.
  - unfold phase_ok; simpl. by rewrite Est.
  - intros [?|?]; simpl in *; congruence.
Qed.

Lemma connect_guard (s : lwftp_session_t) :
  ~ (control_state s <> LWFTP_CLOSED \/ is_Some (control_pcb s) \/
     is_Some (data_pcb s) \/ user s = None \/ pass s = None) ->
  control_state s = LWFTP_CLOSED /\ control_pcb s = None /\ data_pcb s = None /\
  is_Some (user s) /\ is_Some (pass s).
Proof.
  intros Hn. destruct (decide (control_state s = LWFTP_CLOSED)); [|tauto].
  destruct (control_pcb s); [exfalso; eauto 6|]. destruct (data_pcb s); [exfalso; eauto 6|].
  destruct (user s); [|tauto]. destruct (pass s); [eauto 6|tauto].
Qed.

Lemma wp_connect (Q : Z -> world -> Prop) w :
  sess_inv w -> (forall r w', sess_inv w' -> Q r w') -> safe (lwftp_connect env) Q w.
Proof.
  intros Hi HQ. unfold lwftp_connect. wp_go; [by apply wp_api_exit; auto|].
  match goal with Hn : ~ _ |- _ => apply connect_guard in Hn as (Est & Ec & Ed & Hus & Hpw) end.
  apply wp_tcp_new; wp_go.
  { apply wp_api_exit; [|auto]. destruct w as [s m n tr c]; simpl in *.
    unfold upd_sess; simpl. destruct s; simpl in *; subst. done. }
  unfold tcp_arg, tcp_err, tcp_recv, tcp_sent.
  eapply wp_pcb_update; [simpl; apply lookup_insert_eq|]. cbn beta. wp_go.
  do 3 (eapply wp_pcb_update; [simpl; apply lookup_insert_eq|]; cbn beta; wp_go).
  eapply wp_live; [simpl; apply lookup_insert_eq|]. unfold wp at 1. simpl.
  match goal with |- context [?e =? ERR_OK] => destruct (e =? ERR_OK) eqn:Eo end; simpl; rewrite Eo.
  - apply wp_api_exit; [|auto].
    unfold upd_sess, upd_pcbs, log; simpl. rewrite !insert_insert_eq.
    by apply sess_inv_connecting.
  - wp_go. apply wp_control_close; [|intros w' ?; cbn beta; by apply wp_api_exit; auto].
    destruct Hi as ((Hp & _) & _). simpl. rewrite !insert_insert_eq. by apply closable_new_control.
Qed.

End Api.

(** ** Events *)

Section Events.
Context `{laws : ClientLaws} (env : tcp_env).
Implicit Types (w : world).

Abbreviation safe m Q w := (wp m client_fault Q w).

(** A packet on the control connection must be one the parser stays inside of
    (see [reply_ok]); nothing is asked of any other event. *)
Definition event_ok (e : net_event) (w : world) : Prop :=
  match e with
  | N_recv p (Some b) err =>
      control_pcb (w_sess w) = Some p -> err = ERR_OK -> reply_ok b (w_sess w)
  | _ => True
  end.

(** Which pcb carries which callbacks. *)
Lemma owner_control s m n p t :
  pcbs_ok s m n -> m !! p = Some t ->
  recv t = Some lwftp_control_recv_cb \/ errf t = Some lwftp_control_err_cb ->
  control_pcb s = Some p.
Proof.
  intros [Hc Hd Hr Hn Hx] Ht Hcb.
  destruct (decide (control_pcb s = Some p)) as [?|H1]; [done|]. exfalso.
  destruct (decide (data_pcb s = Some p)) as [H2|H2].
  - destruct (Hd p H2) as (t' & Ht' & [(?&?&?&?&?)|[(?&?&?&?) _]]); simplify_eq;
      destruct Hcb; congruence.
  - destruct (Hr p t Ht H1 H2) as (?&?&?&?). destruct Hcb; congruence.
Qed.

Lemma owner_data s m n p t :
  pcbs_ok s m n -> m !! p = Some t ->
  recv t = Some lwftp_data_recv_cb \/ sent t = Some lwftp_data_sent_cb \/
  errf t = Some lwftp_data_err_cb ->
  data_pcb s = Some p.
Proof.
  intros [Hc Hd Hr Hn Hx] Ht Hcb.
  destruct (decide (data_pcb s = Some p)) as [?|H2]; [done|]. exfalso.
  destruct (decide (control_pcb s = Some p)) as [H1|H1].
  - destruct (Hc p H1) as (t' & Ht' & (?&?&?&?&?&?)); simplify_eq; intuition congruence.
  - destruct (Hr p t Ht H1 H2) as (?&?&?&?). intuition congruence.
Qed.

(** An opened data pcb: the transfer commands are out already. *)
Lemma data_open_states w p t :
  core_inv w -> data_pcb (w_sess w) = Some p -> w_pcbs w !! p = Some t ->
  pstate t <> PCB_CLOSED ->
  callback_arg t = Some tt /\
  control_state (w_sess w) <> LWFTP_TYPE_SENT /\ control_state (w_sess w) <> LWFTP_PASV_SENT.
Proof.
  intros (Hp & _ & Hu) Ed Ht Hs.
  destruct (po_dat _ _ _ Hp p Ed) as (t' & Ht' & [Hd|[_ ?]]); simplify_eq.
  destruct Hd as (? & _). split; [done|].
  split; intros Est; destruct (Hu ltac:(eauto) p t Ed Ht); congruence.
Qed.

(** A deregistered pcb is given back by the stack itself at the end of file. *)
Lemma core_inv_idle_gone w p t tr :
  core_inv w -> w_pcbs w !! p = Some t -> recv t = None -> pstate t <> PCB_CLOSED ->
  core_inv (mk_world (w_sess w) (delete p (w_pcbs w)) (w_next w) tr (w_cl w)).
Proof.
  intros Hi Ht Hr0 Hs. pose proof Hi as ([Hc Hd Hr Hn Hx] & Hf & Hu).
  assert (control_pcb (w_sess w) <> Some p) as H1.
  { intros E. destruct (Hc p E) as (t' & ? & (?&?&?)); simplify_eq; congruence. }
  assert (data_pcb (w_sess w) <> Some p) as H2.
  { intros E. destruct (Hd p E) as (t' & ? & [(?&?&?)|[_ ?]]); simplify_eq; congruence. }
  split; [split; simpl; try done|split; [done|]].
  - intros c Ec. rewrite lookup_delete_ne by congruence. by apply Hc.
  - intros d Ed. rewrite lookup_delete_ne by congruence. by apply Hd.
  - intros q u Hq. apply lookup_delete_Some in Hq as [_ Hq]. by eapply Hr.
  - intros q [u Hq]. apply lookup_delete_Some in Hq as [_ Hq]. eauto.
  - intros Hst d u Ed Hl. simpl in Hl. apply lookup_delete_Some in Hl as [_ Hl]. by eapply Hu.
Qed.

Lemma wp_recv_null p t b e (Q : Z -> world -> Prop) w :
  sess_inv w -> w_pcbs w !! p = Some t -> recv t = None -> pstate t = PCB_ESTABLISHED ->
  (forall r w', sess_inv w' -> Q r w') ->
  safe (tcp_recv_null env p b e) Q w.
Proof.
  intros [Hi Hr] Ht Hrn Hs HQ. unfold tcp_recv_null. destruct b as [b|]; wp_go.
  - eapply wp_live; [done|]. unfold pbuf_free. wp_go. by apply HQ.
  - eapply wp_live; [done|]. unfold wp; simpl. case_match; case_match; simplify_eq; apply HQ.
    + split; [|done]. eapply core_inv_idle_gone; [done..|congruence].
    + done.
  - by apply HQ.
Qed.

Lemma wp_deliver_recv p b e (Q : unit -> world -> Prop) w :
  sess_inv w -> event_ok (N_recv p b e) w -> (forall w', sess_inv w' -> Q tt w') ->
  safe (deliver env (N_recv p b e)) Q w.
Proof.
  intros Hs Hok HQ. unfold wp at 1, deliver. fold (wp (A:=unit)).
  destruct (w_pcbs w !! p) as [t|] eqn:Ht; [|by apply HQ].
  case_decide as Hps; [|by apply HQ].
  pose proof Hs as [Hi Hr]. pose proof Hi as (Hp & Hf & _).
  destruct (recv t) as [[]|] eqn:Erc; simpl.
  - assert (control_pcb (w_sess w) = Some p) as Ec by (eapply owner_control; eauto).
    destruct (po_ctl _ _ _ Hp p Ec) as (t' & Ht' & Hct). simplify_eq.
    destruct Hct as (-> & _ & _ & _ & _ & Hst). rewrite Hps in Hst. case_decide; [done|].
    apply wp_bind. eapply wp_control_recv; [done..| |].
    + intros b' -> He. by apply Hok.
    + intros w' ?. by apply HQ.
  - assert (data_pcb (w_sess w) = Some p) as Ed by (eapply owner_data; eauto).
    destruct (data_open_states w p t) as (-> & H1 & H2); [done..|congruence|].
    apply wp_bind. eapply wp_data_recv; [done..|by eexists|].
    intros w' Hi' Est. apply HQ. split; [done|by rewrite Est].
  - apply wp_bind. eapply wp_recv_null; [done..|]. intros r w' ?. by apply HQ.
Qed.

Lemma wp_deliver_sent p n (Q : unit -> world -> Prop) w :
  sess_inv w -> (forall w', sess_inv w' -> Q tt w') ->
  safe (deliver env (N_sent p n)) Q w.
Proof.
  intros Hs HQ. unfold wp at 1, deliver. fold (wp (A:=unit)).
  destruct (w_pcbs w !! p) as [t|] eqn:Ht; [|by apply HQ].
  case_decide as Hps; [|by apply HQ].
  destruct (sent t) as [[]|] eqn:Esn; simpl; [by apply HQ| |by apply HQ].
  pose proof Hs as [Hi Hr]. pose proof Hi as (Hp & Hf & _).
  assert (data_pcb (w_sess w) = Some p) as Ed by (eapply owner_data; eauto).
  destruct (data_open_states w p t) as (-> & H1 & H2); [done..|congruence|].
  apply wp_bind. eapply wp_data_sent; [done..|rewrite Ed; by eexists|].
  intros w' Hi' [o Es] _. apply HQ. split; [done|by rewrite Es].
Qed.

Lemma wp_deliver_err p e (Q : unit -> world -> Prop) w :
  sess_inv w -> (forall w', sess_inv w' -> Q tt w') ->
  safe (deliver env (N_err p e)) Q w.
Proof.
  intros Hs HQ. unfold wp at 1, deliver. fold (wp (A:=unit)).
  destruct (w_pcbs w !! p) as [t|] eqn:Ht; [|by apply HQ].
  case_decide as Hps; [by apply HQ|].
  pose proof Hs as [Hi Hr]. pose proof Hi as (Hp & Hf & _).
  destruct (errf t) as [[]|] eqn:Eer; simpl.
  - assert (control_pcb (w_sess w) = Some p) as Ec by (eapply owner_control; eauto).
    destruct (po_ctl _ _ _ Hp p Ec) as (t' & Ht' & Hct). simplify_eq.
    destruct Hct as (-> & _). by apply wp_control_err.
  - assert (data_pcb (w_sess w) = Some p) as Ed by (eapply owner_data; eauto 6).
    destruct (data_open_states w p t) as (-> & H1 & H2); [done..|].
    by apply wp_data_err.
  - apply HQ. split; [|done].
    assert (recv t = None) as Hrc.
    { destruct (recv t) as [[]|] eqn:Erc; [| |done].
      - assert (control_pcb (w_sess w) = Some p) as Ec by (eapply owner_control; eauto).
        destruct (po_ctl _ _ _ Hp p Ec) as (t' & Ht' & (?&?&?&?&?)). by simplify_eq.
      - assert (data_pcb (w_sess w) = Some p) as Ed by (eapply owner_data; eauto).
        destruct (po_dat _ _ _ Hp p Ed) as (t' & Ht' & [(?&?&?&?&?)|[_ ?]]); simplify_eq; congruence. }
    by eapply core_inv_idle_gone.
Qed.

Lemma wp_deliver_connected p (Q : unit -> world -> Prop) w :
  sess_inv w -> (forall w', sess_inv w' -> Q tt w') ->
  safe (deliver env (N_connected p)) Q w.
Proof.
  intros Hs HQ. unfold wp at 1, deliver. fold (wp (A:=unit)).
  destruct (w_pcbs w !! p) as [t|] eqn:Ht; [|by apply HQ].
  case_decide as Hps; [|by apply HQ].
  pose proof Hs as [Hi Hr]. pose proof Hi as (Hp & Hf & _).
  destruct (decide (control_pcb (w_sess w) = Some p)) as [Ec|Hnc].
  - destruct (po_ctl _ _ _ Hp p Ec) as (t' & Ht' & Hct). simplify_eq.
    destruct Hct as (-> & _ & _ & _ & -> & _). simpl.
    apply HQ. by apply sess_inv_control_connected.
  - pose proof (core_inv_other_connected w p t Hi Hnc Ht Hps) as Hi'.
    assert (connected t = None \/
            (connected t = Some lwftp_data_connected_cb /\ callback_arg t = Some tt)) as Hcn.
    { destruct (decide (data_pcb (w_sess w) = Some p)) as [Ed|Hnd].
      - destruct (po_dat _ _ _ Hp p Ed) as (t' & Ht' & [(?&?&?&?&Hx)|[_ ?]]);
          simplify_eq; [|congruence].
        destruct (Hx Hps) as [?|?]; auto.
      - destruct (po_rest _ _ _ Hp p t Ht Hnc Hnd) as (?&?&?&Hx). auto. }
    destruct Hcn as [->|[-> ->]]; simpl; apply HQ; (split; [|done]); [done|].
    destruct Hi' as (Hp' & Hf' & Hu'). split; [|split; [|exact Hu']].
    + eapply pcbs_ok_proj; [..|exact Hp']; done.
    + unfold phase_ok in *; simpl in *. by destruct (control_state (w_sess w)).
Qed.

Lemma wp_deliver e (Q : unit -> world -> Prop) w :
  sess_inv w -> event_ok e w -> (forall w', sess_inv w' -> Q tt w') ->
  safe (deliver env e) Q w.
Proof.
  destruct e.
  - intros ? _. by apply wp_deliver_connected.
  - apply wp_deliver_recv.
  - intros ? _. by apply wp_deliver_sent.
  - intros ? _. by apply wp_deliver_err.
Qed.

(** ** Calls, and the client's own fields *)

Inductive api_call :=
| C_connect | C_retrieve | C_store | C_mlsd | C_delete | C_remove_dir
| C_change_dir | C_print_dir | C_move | C_close.

Definition run_api (c : api_call) : M unit :=
  match c with
  | C_connect => _ ← lwftp_connect env; mret tt
  | C_retrieve => _ ← lwftp_retrieve env; mret tt
  | C_store => _ ← lwftp_store env; mret tt
  | C_mlsd => _ ← lwftp_mlsd env; mret tt
  | C_delete => _ ← lwftp_delete env; mret tt
  | C_remove_dir => _ ← lwftp_remove_dir env; mret tt
  | C_change_dir => _ ← lwftp_change_dir env; mret tt
  | C_print_dir => _ ← lwftp_print_dir env; mret tt
  | C_move => _ ← lwftp_move env; mret tt
  | C_close => lwftp_close env
  end.

Lemma wp_run_api c (Q : unit -> world -> Prop) w :
  sess_inv w -> (forall w', sess_inv w' -> Q tt w') -> safe (run_api c) Q w.
Proof.
  intros Hi HQ. destruct c; simpl; try apply wp_bind.
  - by apply wp_connect.
  - rewrite retrieve_shape. by apply wp_transfer; auto.
  - rewrite store_shape. by apply wp_transfer; auto.
  - rewrite mlsd_shape. by apply wp_transfer; auto.
  - by apply wp_delete.
  - by apply wp_remove_dir.
  - by apply wp_change_dir.
  - by apply wp_print_dir.
  - by apply wp_move.
  - by apply wp_close.
Qed.

(** What a client may do to the session on its own: everything to the fields
    of the user interface, except taking back a string it has set. *)
Record client_edit (s s' : lwftp_session_t) : Prop := {
  ce_control_state : control_state s' = control_state s;
  ce_target_state : target_state s' = target_state s;
  ce_control_pcb : control_pcb s' = control_pcb s;
  ce_data_pcb : data_pcb s' = data_pcb s;
  ce_remote_path : is_Some (remote_path s) -> is_Some (remote_path s');
  ce_remote_new_path : is_Some (remote_new_path s) -> is_Some (remote_new_path s');
  ce_user : is_Some (user s) -> is_Some (user s');
  ce_pass : is_Some (pass s) -> is_Some (pass s')
}.

Lemma sess_inv_edit w s' tr c :
  sess_inv w -> client_edit (w_sess w) s' ->
  sess_inv (mk_world s' (w_pcbs w) (w_next w) tr c).
Proof.
  intros ((Hp & Hf & Hu) & Hr) [E1 E2 E3 E4 P1 P2 P3 P4].
  split; [|by simpl; rewrite E1]. split; [|split].
  - by eapply pcbs_ok_proj.
  - unfold phase_ok in *; simpl. rewrite E1, E2, E3, E4.
    destruct (control_state (w_sess w)); intuition auto.
  - unfold unopened in *; simpl. by rewrite E1, E4.
Qed.

(** ** Steps and reachability *)

Inductive sys_step : world -> world -> Prop :=
| step_event e w w' : event_ok e w -> deliver env e w = Done tt w' -> sys_step w w'
| step_call c w w' : run_api c w = Done tt w' -> sys_step w w'
| step_client w s' c : client_edit (w_sess w) s' ->
    sys_step w (mk_world s' (w_pcbs w) (w_next w) (w_trace w) c).

(** No session yet: no pcb, everything closed. *)
Definition initial (w : world) : Prop :=
  control_state (w_sess w) = LWFTP_CLOSED /\ control_pcb (w_sess w) = None /\
  data_pcb (w_sess w) = None /\ w_pcbs w = ∅.

Lemma initial_inv w : initial w -> sess_inv w.
Proof.
  intros (Est & Ec & Ed & Em). split; [|by rewrite Est].
  split; [split; rewrite ?Ec, ?Ed, ?Em; try done|split].
  - intros p [? Hp]. by rewrite lookup_empty in Hp.
  - by apply phase_closed.
  - intros [?|?]; congruence.
Qed.

Lemma sys_step_inv w w' : sys_step w w' -> sess_inv w -> sess_inv w'.
Proof.
  destruct 1 as [e w w' Hok E|c w w' E|w s' c He]; intros Hi.
  - pose proof (wp_deliver e (fun _ w' => sess_inv w') w Hi Hok (fun _ H => H)) as Hw.
    unfold wp in Hw. by rewrite E in Hw.
  - pose proof (wp_run_api c (fun _ w' => sess_inv w') w Hi (fun _ H => H)) as Hw.
    unfold wp in Hw. by rewrite E in Hw.
  - by apply sess_inv_edit.
Qed.

Lemma reachable_inv w0 w : initial w0 -> rtc sys_step w0 w -> sess_inv w.
Proof.
  intros H0 Hr. apply initial_inv in H0. revert H0.
  induction Hr as [|x y z Hs _ IH]; [done|]. intros Hx. by apply IH, (sys_step_inv x).
Qed.

End Events.
