(* ===== verification/ReplySpec.v ===== *)
(** * What the client does with a reply: an abstract table and its refinement

    [reply_table] gives, for a control state, the reply code and the transfer
    under way, the command that is sent, the state that awaits the next reply
    and the result reported to the application.  [lwftp_control_process]
    refines it: both switches of the C function, with their sends, the data
    connection and the packet they free, implement exactly one line of the
    table. *)

From S2P Require Import Prelude CLib Session Lwftp SessionInv LwftpSafety.

(** ** The table *)

(** The words of a command. *)
Inductive word := W_lit (b : bytes) | W_user | W_pass | W_path | W_new_path.

Definition quit_words : list word := [W_lit (str "QUIT" ++ crlf)].

(** The command that starts the transfer [tgt]. *)
Definition transfer_words (tgt : lwftp_state_t) : list word :=
  match tgt with
  | LWFTP_STOR_SENT => [W_lit (str "STOR "); W_path; W_lit crlf]
  | LWFTP_RETR_SENT => [W_lit (str "RETR "); W_path; W_lit crlf]
  | LWFTP_MLSD_SENT => [W_lit (str "MLSD "); W_path; W_lit crlf]
  | _ => []
  end.

(** Command, next state, report. *)
Definition reply_table (st tgt : lwftp_state_t) (code : Z)
    : list word * lwftp_state_t * option Z :=
  let quit := (quit_words, LWFTP_QUIT_SENT, None) in
  let finish r := ([], LWFTP_LOGGED, Some r) in
  let coded (good : Z) :=
    if code =? good then LWFTP_RESULT_OK
    else if code =? 550 then LWFTP_RESULT_ERR_FILENAME
    else LWFTP_RESULT_ERR_SRVR_RESP in
  match st with
  | LWFTP_CONNECTED =>
      if code =? 220 then ([W_lit (str "USER "); W_user; W_lit crlf], LWFTP_USER_SENT, None) else quit
  | LWFTP_USER_SENT =>
      if code =? 331 then ([W_lit (str "PASS "); W_pass; W_lit crlf], LWFTP_PASS_SENT, None) else quit
  | LWFTP_PASS_SENT =>
      if code =? 230 then finish LWFTP_RESULT_LOGGED else quit
  | LWFTP_TYPE_SENT =>
      if code =? 200 then ([W_lit (str "PASV" ++ crlf)], LWFTP_PASV_SENT, None) else quit
  | LWFTP_PASV_SENT =>
      if code =? 227 then (transfer_words tgt, tgt, None) else quit
  | LWFTP_RETR_SENT =>
      if code =? 150 then ([], LWFTP_XFERING, None)
      else finish (if code =? 550 then LWFTP_RESULT_ERR_FILENAME else LWFTP_RESULT_ERR_SRVR_RESP)
  | LWFTP_STOR_SENT | LWFTP_MLSD_SENT =>
      if code =? 150 then ([], LWFTP_XFERING, None) else finish LWFTP_RESULT_ERR_SRVR_RESP
  | LWFTP_XFERING =>
      finish (if code =? 226 then LWFTP_RESULT_OK else LWFTP_RESULT_ERR_CLOSED)
  | LWFTP_DELE_SENT | LWFTP_RMD_SENT | LWFTP_CWD_SENT => finish (coded 250)
  | LWFTP_PWD_SENT =>
      finish (if code =? 257 then LWFTP_RESULT_OK else LWFTP_RESULT_ERR_SRVR_RESP)
  | LWFTP_RNFR_SENT =>
      if code =? 350 then ([W_lit (str "RNTO "); W_new_path; W_lit crlf], LWFTP_RNTO_SENT, None)
      else finish (if code =? 550 then LWFTP_RESULT_ERR_FILENAME else LWFTP_RESULT_ERR_SRVR_RESP)
  | LWFTP_RNTO_SENT =>
      finish (if code =? 250 then LWFTP_RESULT_OK else LWFTP_RESULT_ERR_SRVR_RESP)
  | LWFTP_QUIT_SENT =>
      ([], LWFTP_CLOSED, Some (if code =? 221 then LWFTP_RESULT_OK else LWFTP_RESULT_ERR_UNKNOWN))
  | st => ([], st, None)
  end.

(** ** What the peer sees *)

Section Bytes.
Context `{ops : ClientOps}.
Implicit Types (w : world).

(** All bytes written on connection [c] so far. *)
Fixpoint ctl_bytes (c : pcb) (tr : trace) : bytes :=
  match tr with
  | [] => []
  | E_write p d _ :: tr' => ctl_bytes c tr' ++ (if decide (p = c) then d else [])
  | _ :: tr' => ctl_bytes c tr'
  end.

(** Packets returned to the stack so far. *)
Fixpoint freed (tr : trace) : nat :=
  match tr with
  | [] => O
  | E_pbuf_free _ :: tr' => S (freed tr')
  | _ :: tr' => freed tr'
  end.

Definition string_at (w : world) (o : option cl_ptr) : bytes :=
  match o with Some p => cl_str (w_cl w) p | None => [] end.

Definition word_bytes (w : world) (x : word) : bytes :=
  match x with
  | W_lit b => b
  | W_user => string_at w (user (w_sess w))
  | W_pass => string_at w (pass (w_sess w))
  | W_path => string_at w (remote_path (w_sess w))
  | W_new_path => string_at w (remote_new_path (w_sess w))
  end.

Definition words_bytes (w : world) (l : list word) : bytes :=
  concat (map (word_bytes w) l).

Lemma ctl_bytes_quiet c l tr :
  Forall (fun e => forall p d x, e = E_write p d x -> p <> c) l ->
  ctl_bytes c (l ++ tr) = ctl_bytes c tr.
Proof.
  induction 1 as [|e l He _ IH]; [done|]. destruct e; simpl; try done.
  rewrite decide_False by (by eapply He). by rewrite app_nil_r.
Qed.

Lemma freed_quiet l tr :
  Forall (fun e => forall b, e <> E_pbuf_free b) l -> freed (l ++ tr) = freed tr.
Proof.
  induction 1 as [|e l He _ IH]; [done|]. destruct e; simpl; try done.
  by destruct (He p).
Qed.

(** [w1] follows [w] with [words] sent, [n] packets freed and state [st]. *)
Record followed (w w1 : world) (words : list word) (n : nat) (st : lwftp_state_t) : Prop := {
  fo_inv : core_inv w1;
  fo_state : control_state (w_sess w1) = st;
  fo_done : done_fn (w_sess w1) = done_fn (w_sess w);
  fo_bytes : forall c, control_pcb (w_sess w) = Some c ->
    ctl_bytes c (w_trace w1) = ctl_bytes c (w_trace w) ++ words_bytes w words;
  fo_freed : freed (w_trace w1) = (n + freed (w_trace w))%nat
}.

Lemma followed_state w st :
  core_inv (upd_sess (set_control_state st) w) ->
  followed w (upd_sess (set_control_state st) w) [] 0 st.
Proof. intros Hi. split; try done. intros c _. by rewrite app_nil_r. Qed.

End Bytes.

(** The bytes of a command just written are those of its words. *)
Ltac sent_words :=
  let c := fresh in let Ec := fresh in
  intros c Ec; simpl in *; simplify_eq; rewrite !decide_True by done;
  unfold words_bytes, string_at; simpl; unfold string_at;
  repeat match goal with E : _ = Some _ |- _ => rewrite E end;
  rewrite ?app_nil_r, <- ?app_assoc; done.

Ltac follow :=
  first [ by apply followed_state; new_state
        | split; [new_state|done|done|sent_words|done] ].

(** ** The first switch *)

(** Command, state left for the second switch, result of a finished command. *)
Definition first_table (st tgt : lwftp_state_t) (code : Z) : list word * lwftp_state_t * Z :=
  let bad := LWFTP_RESULT_ERR_SRVR_RESP in
  let go words st := (words, st, bad) in
  match st with
  | LWFTP_CONNECTED =>
      if code =? 220 then go [W_lit (str "USER "); W_user; W_lit crlf] LWFTP_USER_SENT
      else go [] LWFTP_QUIT
  | LWFTP_USER_SENT =>
      if code =? 331 then go [W_lit (str "PASS "); W_pass; W_lit crlf] LWFTP_PASS_SENT
      else go [] LWFTP_QUIT
  | LWFTP_PASS_SENT => if code =? 230 then go [] LWFTP_LOGGED else go [] LWFTP_QUIT
  | LWFTP_TYPE_SENT =>
      if code =? 200 then go [W_lit (str "PASV" ++ crlf)] LWFTP_PASV_SENT else go [] LWFTP_QUIT
  | LWFTP_PASV_SENT =>
      if code =? 227 then go (transfer_words tgt) tgt else go [] LWFTP_QUIT
  | LWFTP_RETR_SENT =>
      if code =? 150 then go [] LWFTP_XFERING
      else ([], LWFTP_DATAEND, if code =? 550 then LWFTP_RESULT_ERR_FILENAME else bad)
  | LWFTP_STOR_SENT | LWFTP_MLSD_SENT =>
      if code =? 150 then go [] LWFTP_XFERING else go [] LWFTP_DATAEND
  | LWFTP_DELE_SENT | LWFTP_RMD_SENT | LWFTP_CWD_SENT =>
      ([], LWFTP_CMDEND, if code =? 250 then LWFTP_RESULT_OK
                         else if code =? 550 then LWFTP_RESULT_ERR_FILENAME else bad)
  | LWFTP_PWD_SENT => ([], LWFTP_CMDEND, if code =? 257 then LWFTP_RESULT_OK else bad)
  | LWFTP_RNFR_SENT =>
      if code =? 350 then go [W_lit (str "RNTO "); W_new_path; W_lit crlf] LWFTP_RNTO_SENT
      else ([], LWFTP_CMDEND, if code =? 550 then LWFTP_RESULT_ERR_FILENAME else bad)
  | LWFTP_RNTO_SENT => ([], LWFTP_CMDEND, if code =? 250 then LWFTP_RESULT_OK else bad)
  | LWFTP_XFERING =>
      ([], LWFTP_DATAEND, if code =? 226 then LWFTP_RESULT_OK else LWFTP_RESULT_ERR_CLOSED)
  | LWFTP_QUIT_SENT =>
      ([], LWFTP_CLOSING, if code =? 221 then LWFTP_RESULT_OK else LWFTP_RESULT_ERR_UNKNOWN)
  | st => go [] st
  end.

(** The second switch on what the first one left. *)
Definition second_table (x : list word * lwftp_state_t * Z)
    : list word * lwftp_state_t * option Z :=
  let '(words, st, r) := x in
  match st with
  | LWFTP_DATAEND | LWFTP_CMDEND => (words, LWFTP_LOGGED, Some r)
  | LWFTP_QUIT => (words ++ quit_words, LWFTP_QUIT_SENT, None)
  | LWFTP_CLOSING => (words, LWFTP_CLOSED, Some r)
  | st => (words, st, None)
  end.

(** The two switches in sequence are one line of the table; the log-in reply
    is the one that reports from inside the first switch. *)
Lemma tables_agree st tgt code :
  at_rest st -> ~ (st = LWFTP_PASS_SENT /\ code = 230) ->
  st <> LWFTP_PASV_SENT \/ tgt = LWFTP_RETR_SENT \/ tgt = LWFTP_STOR_SENT \/ tgt = LWFTP_MLSD_SENT ->
  second_table (first_table st tgt code) = reply_table st tgt code.
Proof.
  intros Hr Hn Ht. destruct st; try done; simpl;
    try (destruct (code =? _) eqn:E; zbool; simpl; try done; subst; tauto).
  - destruct (code =? 227); simpl; [|done].
    destruct Ht as [?|[->|[->| ->]]]; done.
Qed.

Section First.
Context `{laws : ClientLaws} (env : tcp_env).
Implicit Types (w : world).

Abbreviation safe m Q w := (wp m client_fault Q w).

Lemma wp_first_pasv b w (Q : Z -> world -> Prop) :
  core_inv w -> control_state (w_sess w) = LWFTP_PASV_SENT ->
  is_Some (pasv_params (payload b)) ->
  (forall w1, followed w w1 (transfer_words (target_state (w_sess w))) 0 (target_state (w_sess w)) ->
     control_pcb (w_sess w1) = control_pcb (w_sess w) -> Q LWFTP_RESULT_ERR_SRVR_RESP w1) ->
  safe (control_first env (Some b) 227) Q w.
Proof.
  intros Hi Est Hpp HQ. eapply wp_pasv; [done..|]. intros m' l c q e1 e2 e3 Hl Ec Eq w' Hi'.
  apply HQ; [|done]. split; try done.
  - intros c' Ec'. simplify_eq. simpl. rewrite !decide_True by done.
    rewrite ctl_bytes_quiet by (eapply Forall_impl; [done|]; by intros []).
    destruct Hi as (_ & Hf & _). unfold phase_ok in Hf. rewrite Est in Hf.
    destruct Hf as (_ & _ & _ & [->|[->| ->]]); unfold words_bytes; simpl;
      rewrite Eq, <- !app_assoc; done.
  - simpl. rewrite freed_quiet; [done|]. eapply Forall_impl; [done|]. by intros [].
Qed.

Lemma wp_first_spec b code (Q : Z -> world -> Prop) w :
  core_inv w -> at_rest (control_state (w_sess w)) -> code > 0 ->
  response_ok (Some b) code (w_sess w) ->
  ~ (control_state (w_sess w) = LWFTP_PASS_SENT /\ code = 230) ->
  (forall words st r w1,
     first_table (control_state (w_sess w)) (target_state (w_sess w)) code = (words, st, r) ->
     followed w w1 words 0 st -> control_pcb (w_sess w1) = control_pcb (w_sess w) -> Q r w1) ->
  safe (control_first env (Some b) code) Q w.
Proof.
  intros Hi Hr Hcode (_ & Hpv & Hst) Hnl HQ.
  destruct (decide (control_state (w_sess w) = LWFTP_PASV_SENT /\ code = 227)) as [[E1 ->]|Hnp].
  { eapply wp_first_pasv; [done..|by eapply Hpv|]. rewrite E1 in HQ. simpl in HQ.
    intros w1 Hf Ec. by eapply HQ. }
  assert (Hself : forall st, control_state (w_sess w) = st -> followed w w [] 0 st).
  { intros st E. split; try done. intros c _. by rewrite app_nil_r. }
  pose proof Hi as (Hp & Hf & _). unfold phase_ok in Hf.
  unfold control_first, control_reply. wp_go.
  destruct (control_state (w_sess w)) eqn:Est; try done;
    simpl in HQ; (try wp_step); zbool; try lia;
    try (by eapply HQ; eauto).
  all: wp_go; repeat match goal with E : (_ =? _) = _ |- _ => rewrite E in HQ; revert E end;
       intros; zbool; try (exfalso; tauto).
  all: try (by eapply HQ; [done|follow|done]).
  - destruct Hf as (Hc & Hd & Hu & Hpw). send_all. eapply HQ; [done|follow|done].
  - destruct Hf as (Hc & Hd & Hpw). send_all. eapply HQ; [done|follow|done].
  - destruct Hf as (Hc & Hd & Hpt & Ht). send_all. eapply HQ; [done|follow|done].
  - apply wp_data_sent; [new_state|done..|by simpl; auto|].
    intros w' Hi' [o Es] (l & El & Hl). wp_go. eapply HQ; [done| |by rewrite Es].
    split; [done|by rewrite Es|by rewrite Es| |]; rewrite El; simpl.
    + intros c Ec. rewrite app_nil_r. apply ctl_bytes_quiet.
      eapply Forall_impl; [done|]. intros [] He p' d x [=]; subst. simpl in He.
      intros ->. by apply (po_ne _ _ _ Hp c).
    + apply freed_quiet. eapply Forall_impl; [done|]. by intros [].
  - apply wp_mono with (Q := fun _ w' => client_only w w').
    { destruct (data_sink (w_sess w)); wp_go; [|apply client_only_refl].
      apply wp_sink. intros; by wp_go. }
    intros [] w' Hcl. wp_go.
    pose proof (core_inv_client _ _ Hcl Hi) as Hi'.
    destruct (client_only_proj _ _ Hcl) as (Es & _ & _ & Et). rewrite <- Es in Est.
    eapply HQ; [done| |by simpl; rewrite Es].
    split; [new_state|done|by simpl; rewrite Es| |]; simpl; rewrite Et; [|done].
    intros c _. by rewrite app_nil_r.
  - destruct Hf as (Hc & Hd & Hn). send_all. eapply HQ; [done|follow|done].
Qed.

(** ** The second switch *)

(** Tell the application, if there is something to tell. *)
Definition report (o : option Z) : M unit :=
  match o with Some r => done r | None => mret tt end.

Lemma wp_second_spec r (Q : unit -> world -> Prop) w :
  core_inv w -> 0 <= r ->
  (forall words st rep w2,
     second_table ([], control_state (w_sess w), r) = (words, st, rep) ->
     followed w w2 words 0 st -> sess_inv w2 -> safe (report rep) Q w2) ->
  safe (control_second env r) Q w.
Proof.
  intros Hi Hr HQ. pose proof Hi as (Hp & Hf & _). unfold phase_ok in Hf.
  assert (Hself : forall st, control_state (w_sess w) = st -> followed w w [] 0 st).
  { intros st E. split; try done. intros c _. by rewrite app_nil_r. }
  unfold control_second. wp_go.
  destruct (control_state (w_sess w)) eqn:Est; simpl in HQ;
    try (eapply (HQ _ _ None); [done|by apply Hself|by split; [|rewrite Est]]); wp_go.
  - unfold lwftp_data_close. wp_go. apply (wp_end_data env _ w); [done..|].
    intros m' tr w' Hi' (l & El & Hl). eapply (HQ _ _ (Some r)); [done| |done].
    destruct Hi' as [Hi' _]. split; try done; rewrite El.
    + intros c Ec. rewrite app_nil_r. apply ctl_bytes_quiet.
      eapply Forall_impl; [done|]. intros [] He p' d x [=]; subst. simpl in He.
      intros ->. by apply (po_ne _ _ _ Hp c).
    + apply freed_quiet. eapply Forall_impl; [done|]. by intros [].
  - apply wp_send_lit; [done..|]; intros c e Ec; cbn beta; wp_go. simpl. rewrite Ec.
    unfold tcp_output. wp_go. destruct (po_ctl _ _ _ Hp c Ec) as (t & Ht & _).
    eapply wp_live; [done|]. wp_go. eapply (HQ _ _ None); [done| |split; [new_state|done]].
    split; [new_state|done|done|sent_words|done].
  - apply wp_control_close_strong; [apply pcbs_ok_closable; [done|]; right; congruence|].
    intros w' [Hi' E1 E2 E3 E4 E5 (l & El & Hl)].
    rewrite (proj2 (Z.geb_le r 0)) by lia. simpl.
    eapply (HQ _ _ (Some r)); [done| |done]. destruct Hi' as [Hi' _]. split; try done; rewrite El.
    + intros c Ec. rewrite app_nil_r. apply ctl_bytes_quiet.
      eapply Forall_impl; [done|]. by intros [].
    + apply freed_quiet. eapply Forall_impl; [done|]. by intros [].
  - assert (core_inv (upd_sess (set_control_state LWFTP_LOGGED) w)) as Hi' by new_state.
    eapply (HQ _ _ (Some r)); [done|by apply followed_state|by split].
Qed.

(** ** Both switches *)

Lemma followed_trans w w1 w2 a b n m st1 st2 :
  followed w w1 a n st1 -> control_pcb (w_sess w1) = control_pcb (w_sess w) ->
  followed w1 w2 b m st2 -> words_bytes w1 b = words_bytes w b ->
  followed w w2 (a ++ b) (m + n) st2.
Proof.
  intros [A1 A2 A3 A4 A5] Ec [B1 B2 B3 B4 B5] Eb. split; try done; [congruence| |].
  - intros c E. rewrite (B4 c), (A4 c), Eb by congruence.
    unfold words_bytes. by rewrite map_app, concat_app, app_assoc.
  - rewrite B5, A5. lia.
Qed.

Lemma followed_free b w w1 words st :
  followed w w1 words 0 st -> followed w (log (E_pbuf_free b) w1) words 1 st.
Proof. intros [A1 A2 A3 A4 A5]. split; try done. simpl. by rewrite A5. Qed.

Lemma first_table_result st tgt code words st' r :
  first_table st tgt code = (words, st', r) -> 0 <= r.
Proof.
  unfold first_table. intros E.
  destruct st; repeat case_match; simplify_eq; unfold LWFTP_RESULT_ERR_SRVR_RESP,
    LWFTP_RESULT_OK, LWFTP_RESULT_ERR_FILENAME, LWFTP_RESULT_ERR_UNKNOWN, LWFTP_RESULT_ERR_CLOSED; lia.
Qed.

Lemma second_table_words words st r words' st' rep :
  second_table ([], st, r) = (words', st', rep) ->
  second_table (words, st, r) = (words ++ words', st', rep) /\
  forall w1 w : world, words_bytes w1 words' = words_bytes w words'.
Proof. destruct st; simpl; intros; simplify_eq; rewrite ?app_nil_r; done. Qed.

Lemma wp_conj {A} (m : M A) E (Q1 Q2 : A -> world -> Prop) w :
  wp m E Q1 w -> wp m E Q2 w -> wp m E (fun a w' => Q1 a w' /\ Q2 a w') w.
Proof. unfold wp. destruct (m w); auto. Qed.

Lemma control_second_at_rest r w :
  at_rest (control_state (w_sess w)) -> control_second env r w = Done tt w.
Proof.
  intros Hr. unfold control_second, mbind, M_bind. simpl.
  by destruct (control_state (w_sess w)).
Qed.

(** The log-in reply, which reports from inside the first switch. *)
Definition login (st : lwftp_state_t) (code : Z) : bool :=
  bool_decide (st = LWFTP_PASS_SENT) && (code =? 230).

Lemma wp_login b (Q : unit -> world -> Prop) w :
  core_inv w -> control_state (w_sess w) = LWFTP_PASS_SENT ->
  (forall w2, followed w w2 [] 0 LWFTP_LOGGED -> sess_inv w2 ->
     safe (done LWFTP_RESULT_LOGGED;; pbuf_free b) Q w2) ->
  safe (r ← control_first env (Some b) 230; pbuf_free b;; control_second env r) Q w.
Proof.
  intros Hi Est HQ. unfold control_first, control_reply. wp_go. rewrite Est.
  change (230 >? 0) with true. change (230 =? 230) with true. wp_go; try done.
  assert (core_inv (upd_sess (set_control_state LWFTP_LOGGED) w)) as Hi' by new_state.
  pose proof (HQ _ (followed_state _ _ Hi') ltac:(by split)) as Hw.
  unfold wp, mbind, M_bind in Hw. clear HQ.
  eapply wp_mono; [apply (wp_conj _ _ (fun _ w' => sess_inv w')
    (fun _ w' => Q tt (log (E_pbuf_free b) w')))|].
  - by apply wp_done.
  - unfold wp. by destruct (done _ _).
  - intros [] w' [Hi2 HQ']. cbn beta. wp_go. unfold pbuf_free. wp_go.
    unfold wp. rewrite control_second_at_rest; [done|]. by destruct Hi2.
Qed.

(** C1. A reply with a code on the control connection of a well-formed session
    does exactly what one line of [reply_table] says.  For every client and
    every answer of the stack: whatever holds after the bytes of the table's
    command have been handed to [tcp_write] (whether or not it accepts them,
    which the code ignores), the session is in the table's state, the packet
    has been freed and the table's result has been reported, holds after
    [lwftp_control_process].  Two provisos ([response_ok]): the address of a
    227 reply to PASV can be parsed inside the packet, and a 150 reply to STOR
    with a data source finds the data connection alive. *)
Theorem control_process_refines b v rest (Q : unit -> world -> Prop) w :
  sess_inv w -> strtoul10 (payload b) = Some (v, rest) -> u16 v > 0 ->
  response_ok (Some b) (u16 v) (w_sess w) ->
  let is_login := login (control_state (w_sess w)) (u16 v) in
  (forall words st rep w2,
     reply_table (control_state (w_sess w)) (target_state (w_sess w)) (u16 v) = (words, st, rep) ->
     followed w w2 words (if is_login then 0 else 1) st -> sess_inv w2 ->
     safe (report rep;; if is_login then pbuf_free b else mret tt) Q w2) ->
  safe (lwftp_control_process env (Some b)) Q w.
Proof.
  intros [Hi Hr] Ev Hv Hok is_login HQ. unfold is_login in *; clear is_login.
  unfold lwftp_control_process. apply wp_bind. rewrite Ev.
  apply wp_bind, wp_deref_Some, wp_ret.
  destruct (login (control_state (w_sess w)) (u16 v)) eqn:El; unfold login in El.
  - apply andb_prop in El as [E1%bool_decide_eq_true E2%Z.eqb_eq].
    rewrite E1, E2 in *. apply wp_login; [done..|]. intros w2 Hf Hs. by apply (HQ _ _ (Some LWFTP_RESULT_LOGGED) w2 eq_refl).
  - assert (~ (control_state (w_sess w) = LWFTP_PASS_SENT /\ u16 v = 230)) as Hnl.
    { intros [E1 E2]. rewrite E1, E2 in El. done. }
    apply wp_bind, wp_first_spec; [done..|]. intros words st r w1 Et Hf Ec.
    unfold pbuf_free. wp_go. pose proof Hf as [Hi1 Est1 _ _ _].
    apply wp_second_spec; [done|by eapply first_table_result|].
    intros words' st' rep w2 Et' Hf' Hs'. simpl in Et'. rewrite Est1 in Et'.
    destruct (second_table_words words _ _ _ _ _ Et') as [Et2 Ew].
    rewrite <- Et, tables_agree in Et2; [|done..|].
    + pose proof (followed_trans _ _ _ _ _ _ _ _ _ (followed_free b _ _ _ _ Hf) Ec Hf' (Ew _ _)) as Hf2.
      pose proof (HQ _ _ _ _ Et2 Hf2 Hs') as Hw.
      unfold wp, mbind, M_bind in Hw |- *. destruct (report rep w2) as [[] ?|]; done.
    + destruct Hi as (_ & Hph & _). unfold phase_ok in Hph.
      destruct (control_state (w_sess w)); first [by left|right; tauto].
Qed.

End First.

(** ** The passive-mode reply

    [lwftp_data_open] reads the address and port of the data connection out
    of the reply to PASV.  On a reply as RFC 959 gives it,
    [227 text (h1,h2,h3,h4,p1,p2) text], the parser gives back the address and
    port the server printed. *)

Lemma ip_addr4_value a b c d :
  is_byte a -> is_byte b -> is_byte c -> is_byte d ->
  ip_addr4 a b c d = ((a * 256 + b) * 256 + c) * 256 + d.
Proof.
  unfold is_byte, ip_addr4. intros Ha Hb Hc Hd. rewrite !land_255, !Z.mod_small by done.
  assert (Z.lor (Z.shiftl a 24) (Z.shiftl b 16) = Z.shiftl (a * 256 + b) 16) as ->.
  { rewrite (Z.shiftl_mul_pow2 b), lor_shiftl_add, Z.shiftl_mul_pow2; lia. }
  assert (Z.lor (Z.shiftl (a * 256 + b) 16) (Z.shiftl c 8) =
          Z.shiftl ((a * 256 + b) * 256 + c) 8) as ->.
  { rewrite (Z.shiftl_mul_pow2 c), lor_shiftl_add, Z.shiftl_mul_pow2; lia. }
  rewrite lor_shiftl_add; lia.
Qed.

Lemma port_value hi lo :
  is_byte hi -> is_byte lo ->
  u16 (Z.lor (u16 (Z.shiftl hi 8)) (Z.land lo 255)) = hi * 256 + lo.
Proof.
  unfold is_byte. intros Hh Hl. rewrite land_255, Z.mod_small by done.
  rewrite (u16_small (Z.shiftl hi 8)) by (rewrite Z.shiftl_mul_pow2; lia).
  rewrite lor_shiftl_add by lia. apply u16_small; lia.
Qed.

(** The reply of a server that listens on [ip]:[port]. *)
Definition comma : bytes := [44].

Definition host_port (ip port : Z) : bytes :=
  print_uint (ip / 2 ^ 24 mod 256) ++ comma ++ print_uint (ip / 2 ^ 16 mod 256) ++ comma ++
  print_uint (ip / 2 ^ 8 mod 256) ++ comma ++ print_uint (ip mod 256) ++ comma ++
  print_uint (port / 256) ++ comma ++ print_uint (port mod 256).

Definition pasv_reply (text : bytes) (ip port : Z) (tail : bytes) : bytes :=
  str "227 " ++ text ++ [ch_lpar] ++ host_port ip port ++ [ch_rpar] ++ tail.

Lemma strchr_skip l c rest :
  Forall (fun x => x <> c /\ x <> 0) l -> strchr (l ++ rest) c = strchr rest c.
Proof. induction 1 as [|x l [H1 H2] _ IH]; simpl; [done|]. by ztest. Qed.

Lemma byte_ulong n : is_byte n -> 0 <= n <= ULONG_MAX.
Proof. unfold is_byte. change ULONG_MAX with 4294967295. lia. Qed.

Lemma mod256_byte n : is_byte (n mod 256).
Proof. apply Z.mod_pos_bound. lia. Qed.

#[export] Hint Extern 1 (no_digit (_ :: _)) => eexists _, _; split; reflexivity : lwftp.
#[export] Hint Resolve byte_ulong mod256_byte : lwftp.

Lemma pasv_params_host_port pre ip port tail :
  0 <= ip < 2 ^ 32 -> 0 <= port < 2 ^ 16 ->
  Forall (fun x => x <> ch_lpar /\ x <> 0) pre ->
  pasv_params (pre ++ [ch_lpar] ++ host_port ip port ++ [ch_rpar] ++ tail) = Some (inl (ip, port)).
Proof.
  intros Hip Hport Hpre. unfold pasv_params. rewrite strchr_skip by done.
  assert (is_byte (port / 256)) as Hhi by (unfold is_byte; split; [apply Z.div_pos|apply Z.div_lt_upper_bound]; lia).
  unfold host_port. simpl.
  do 6 (repeat (rewrite <- app_assoc; simpl); rewrite strtoul10_print by eauto with lwftp; simpl).
  rewrite ip_addr4_value, port_value by eauto with lwftp. do 3 f_equal.
  - pose proof (Z.div_mod ip 256). pose proof (Z.div_mod (ip / 2 ^ 8) 256).
    pose proof (Z.div_mod (ip / 2 ^ 16) 256).
    change (2 ^ 16) with (2 ^ 8 * 256) in *. change (2 ^ 24) with (2 ^ 8 * 256 * 256) in *.
    rewrite <- !Zdiv.Zdiv_Zdiv in * by lia. change (2 ^ 8) with 256 in *.
    rewrite (Z.mod_small (ip / 256 / 256 / 256)); [lia|].
    split; [repeat apply Z.div_pos; lia|]. do 3 (apply Z.div_lt_upper_bound; [lia|]). lia.
  - pose proof (Z.div_mod port 256). lia.
Qed.

Lemma pasv_reply_code text ip port tail :
  exists rest, strtoul10 (pasv_reply text ip port tail) = Some (227, rest).
Proof.
  unfold pasv_reply. eexists. change (str "227 ") with (print_uint 227 ++ [32]).
  rewrite <- app_assoc. apply strtoul10_print; [by apply byte_ulong|]. by eexists _, _.
Qed.

Lemma pasv_reply_params text ip port tail :
  0 <= ip < 2 ^ 32 -> 0 <= port < 2 ^ 16 ->
  Forall (fun x => x <> ch_lpar /\ x <> 0) text ->
  pasv_params (pasv_reply text ip port tail) = Some (inl (ip, port)).
Proof.
  intros Hip Hp Ht. unfold pasv_reply. rewrite app_assoc.
  apply pasv_params_host_port; [done..|]. apply Forall_app. split; [|done].
  by repeat constructor.
Qed.

(** C33. Round trip of the passive-mode address: on a reply [227 text
    (h1,h2,h3,h4,p1,p2) text] that a server printed for [ip]:[port], the data
    connection is opened to exactly that address and port, for every 32-bit
    address and 16-bit port. *)
Theorem pasv_connects_to_printed_address `{ops : ClientOps} env text ip port tail d t
    (w : world) :
  0 <= ip < 2 ^ 32 -> 0 <= port < 2 ^ 16 ->
  Forall (fun x => x <> ch_lpar /\ x <> 0) text ->
  data_pcb (w_sess w) = Some d -> w_pcbs w !! d = Some t -> pstate t = PCB_CLOSED ->
  exists e w', lwftp_data_open env (mk_pbuf (pasv_reply text ip port tail) []) w = Done e w' /\
    w_trace w' = E_connect d ip port e :: w_trace w.
Proof.
  intros Hip Hp Ht Ed Hd Hs. unfold lwftp_data_open. simpl payload.
  rewrite (pasv_reply_params text ip port tail Hip Hp Ht). unfold mbind, M_bind; simpl.
  rewrite Ed. simpl. unfold live at 1. rewrite Hd. simpl.
  do 4 (unfold live at 1; simpl; rewrite lookup_insert_eq; simpl). rewrite Hs. simpl.
  case_match; eauto.
Qed.
