(* ===== verification/Samples.v ===== *)
(** * A small client, and sessions run with it

    A client that records what it is told, uploads a fixed file and keeps the
    bytes it downloads.  It satisfies [ClientLaws]; the sessions run here show
    that the hypotheses of the theorems on lwftp.c are met by actual
    dialogues. *)

From S2P Require Import Prelude CLib Session Lwftp SessionInv LwftpSafety LwftpSystem ReplySpec.

Record sample := mk_sample {
  sa_results : list Z;     (** results reported, latest first *)
  sa_sunk : bytes;         (** bytes received *)
  sa_file : bytes;         (** file to upload *)
  sa_offset : nat          (** acknowledged part of it *)
}.

#[global] Instance sample_client : Client := {|
  cl_state := sample; cl_ptr := bytes; cl_source := unit; cl_sink := unit; cl_done := unit
|}.

Definition sample_done (f : unit) (h : option unit) (r : Z) : M unit :=
  modify (fun w => upd_cl (mk_sample (r :: sa_results (w_cl w)) (sa_sunk (w_cl w))
                             (sa_file (w_cl w)) (sa_offset (w_cl w))) w).

Definition sample_sink (f : unit) (h : option unit) (d : option bytes) (n : Z) : M Z := fun w =>
  let c := w_cl w in
  Done n (upd_cl (mk_sample (sa_results c) (sa_sunk c ++ default [] d) (sa_file c) (sa_offset c)) w).

Definition sample_source (f : unit) (h : option unit) (b : bool) (n : Z)
    : M (Z * option bytes) := fun w =>
  let c := w_cl w in
  if b then
    let chunk := take (Z.to_nat n) (drop (sa_offset c) (sa_file c)) in
    Done (Z.of_nat (length chunk), Some chunk) w
  else Done (0, None) (upd_cl (mk_sample (sa_results c) (sa_sunk c) (sa_file c)
                                 (sa_offset c + Z.to_nat n)) w).

#[global] Instance sample_ops : ClientOps := {|
  cl_str := fun _ p => p;
  call_done := sample_done;
  call_sink := sample_sink;
  call_source := sample_source
|}.

#[global] Instance sample_laws : ClientLaws.
Proof.
  split; intros f h.
  - intros r w Hi. unfold call_done; simpl. unfold sample_done. wp_go.
    by eapply sess_inv_client; [apply client_only_refl|].
  - intros d n w. done.
  - intros [] n w; unfold wp; simpl; [|done]. split; [apply client_only_refl|].
    intros _ _. eexists. split; [done|]. lia.
Qed.

(** A stack that accepts everything; segments of 512 bytes. *)
Definition easy_env : tcp_env := mk_env (fun _ => true) (fun _ _ _ _ => ERR_OK)
  (fun _ _ _ => ERR_OK) (fun _ _ => ERR_OK) (fun _ _ => 512).

Definition sample_session : lwftp_session_t :=
  mk_session 167772161 21 (Some (str "/DOCS")) (Some (str "/NEW")) (Some (str "joe"))
    (Some (str "secret")) (Some tt) (Some tt) (Some tt) (Some tt) 0
    LWFTP_CLOSED LWFTP_CLOSED LWFTP_CLOSED None None.

Definition sample_world : world :=
  mk_world sample_session ∅ 0%nat [] (mk_sample [] [] (str "hello") 0).

Lemma sample_initial : initial sample_world.
Proof. done. Qed.

(** ** Scripts: events and calls in sequence *)

Inductive action := Ev (e : net_event) | Call (c : api_call).

Definition act (a : action) : M unit :=
  match a with Ev e => deliver easy_env e | Call c => run_api easy_env c end.

Fixpoint script (l : list action) : M unit :=
  match l with
  | [] => mret tt
  | a :: l' => act a;; script l'
  end.

Definition reply (s : string) : option pbuf := Some (mk_pbuf (str s ++ crlf) []).

(** A packet the parser stays inside of, decided. *)
Definition reply_okb (b : pbuf) (s : lwftp_session_t) : bool :=
  match strtoul10 (payload b) with
  | None => false
  | Some (v, _) =>
      let code := u16 v in
      (negb (bool_decide (control_state s = LWFTP_PASV_SENT) && (code =? 227)) ||
       bool_decide (is_Some (pasv_params (payload b)))) &&
      (negb (bool_decide (control_state s = LWFTP_STOR_SENT) && (code =? 150) &&
             bool_decide (is_Some (data_source s))) ||
       bool_decide (is_Some (data_pcb s)))
  end.

Definition event_okb (e : net_event) (w : world) : bool :=
  match e with
  | N_recv p (Some b) err =>
      negb (bool_decide (control_pcb (w_sess w) = Some p) && (err =? ERR_OK)) ||
      reply_okb b (w_sess w)
  | _ => true
  end.

Lemma reply_okb_ok b s : reply_okb b s = true -> reply_ok b s.
Proof.
  unfold reply_okb, reply_ok. destruct (strtoul10 (payload b)) as [[v rest]|]; [|done].
  intros Hb. apply andb_prop in Hb as [H1 H2]. exists v, rest. split; [done|].
  split; [by eexists|]. split.
  - intros E1 E2 b' [= <-]. rewrite E2, (bool_decide_true _ E1) in H1. simpl in H1.
    by apply bool_decide_eq_true in H1.
  - intros E1 E2 E3. rewrite E2, (bool_decide_true _ E1), (bool_decide_true _ E3) in H2. simpl in H2.
    by apply bool_decide_eq_true in H2.
Qed.

Lemma event_okb_ok e w : event_okb e w = true -> event_ok e w.
Proof.
  destruct e as [| p [b|] err| |]; try done. simpl. intros Hb E1 E2.
  rewrite (bool_decide_true _ E1), E2 in Hb. simpl in Hb. by apply reply_okb_ok.
Qed.

(** The world after a script whose events are all acceptable. *)
Fixpoint runs (l : list action) (w : world) : option world :=
  match l with
  | [] => Some w
  | a :: l' =>
      match a with
      | Ev e => if event_okb e w then
                  match deliver easy_env e w with Done _ w' => runs l' w' | Fault _ => None end
                else None
      | Call c => match run_api easy_env c w with Done _ w' => runs l' w' | Fault _ => None end
      end
  end.

Lemma runs_reachable l w w' : runs l w = Some w' -> rtc (sys_step easy_env) w w'.
Proof.
  revert w. induction l as [|a l IH]; intros w; simpl; [intros [= ->]; done|].
  destruct a as [e|c].
  - destruct (event_okb e w) eqn:He; [|done].
    destruct (deliver easy_env e w) as [[] w1|] eqn:Hd; [|done]. intros Hr.
    eapply rtc_l; [|by apply IH]. eapply step_event; [by apply event_okb_ok|done].
  - destruct (run_api easy_env c w) as [[] w1|] eqn:Hd; [|done]. intros Hr.
    eapply rtc_l; [|by apply IH]. by eapply step_call.
Qed.

(** Log in. *)
Definition log_in : list action :=
  [ Call C_connect; Ev (N_connected 0);
    Ev (N_recv 0 (reply "220 ready") ERR_OK);
    Ev (N_recv 0 (reply "331 password") ERR_OK);
    Ev (N_recv 0 (reply "230 welcome") ERR_OK) ].

(** Start an upload: TYPE, PASV and STOR are answered. *)
Definition start_upload : list action :=
  log_in ++
  [ Call C_store; Ev (N_recv 0 (reply "200 ok") ERR_OK);
    Ev (N_recv 0 (reply "227 Entering (10,0,0,1,4,1)") ERR_OK) ].

Example log_in_runs :
  (fun w => (control_state (w_sess w), sa_results (w_cl w), ctl_bytes 0 (w_trace w)))
    <$> runs log_in sample_world =
  Some (LWFTP_LOGGED, [LWFTP_RESULT_LOGGED; LWFTP_RESULT_INPROGRESS],
        str "USER joe" ++ crlf ++ str "PASS secret" ++ crlf).
Proof. vm_compute. reflexivity. Qed.

(** The world a script leads to. *)
Definition runs_ok (l : list action) : bool := bool_decide (is_Some (runs l sample_world)).
Definition after (l : list action) : world := default sample_world (runs l sample_world).

Lemma after_reachable l : runs_ok l = true -> rtc (sys_step easy_env) sample_world (after l).
Proof.
  unfold runs_ok, after. intros [w Hw]%bool_decide_eq_true. rewrite Hw. simpl.
  by apply (runs_reachable l).
Qed.

Lemma after_inv l : runs_ok l = true -> sess_inv (after l).
Proof. intros Hl. eapply reachable_inv; [apply sample_initial|by apply after_reachable]. Qed.
