(* ===== verification/LwftpCorrect.v ===== *)
(** * Correctness of the FTP client state machine

    The theorems on [src/src/lwftp.c], for every client that satisfies
    [ClientLaws] and every behaviour of the stack, with sessions of the sample
    client as their witnesses. *)

From S2P Require Import Prelude CLib Session Lwftp SessionInv LwftpSafety LwftpSystem ReplySpec Samples.

(** ** Safety *)

(** C2. In every world reachable from an unopened session, by any sequence of
    events, calls and edits of the client's fields, the invariant holds: the
    session owns exactly the pcbs it refers to, each carries the callbacks of
    its role, every other pcb is deregistered, and each control state has the
    connections and strings its replies will use. *)
Theorem session_invariant `{laws : ClientLaws} env w0 w :
  initial w0 -> rtc (sys_step env) w0 w -> sess_inv w.
Proof. apply reachable_inv. Qed.

(** C3. Memory safety of event handling: in a reachable world an event of the
    stack never makes the library use a null or released pcb, call a null
    function or read past a packet, provided a packet on the control connection
    can be parsed within its bounds and a 150 reply to STOR finds the data
    connection alive. *)
Theorem event_safe `{laws : ClientLaws} env w0 w e :
  initial w0 -> rtc (sys_step env) w0 w -> event_ok e w ->
  match deliver env e w with
  | Done _ w' => sess_inv w'
  | Fault f => client_fault f
  end.
Proof.
  intros H0 Hr Hok. apply (wp_deliver env e (fun _ w' => sess_inv w')); [|done|done].
  by eapply reachable_inv.
Qed.

(** C37. Memory safety of the public interface: in a reachable world no
    interface function faults, in whatever state the client calls it. *)
Theorem call_safe `{laws : ClientLaws} env w0 w c :
  initial w0 -> rtc (sys_step env) w0 w ->
  match run_api env c w with
  | Done _ w' => sess_inv w'
  | Fault f => client_fault f
  end.
Proof.
  intros H0 Hr. apply (wp_run_api env c (fun _ w' => sess_inv w')); [|done].
  by eapply reachable_inv.
Qed.

(** ** Commands *)

(** What an accepted call sends, and the state that awaits the answer. *)
Definition api_table (c : api_call) : list word * lwftp_state_t :=
  match c with
  | C_retrieve | C_store | C_mlsd => ([W_lit (str "TYPE I" ++ crlf)], LWFTP_TYPE_SENT)
  | C_delete => ([W_lit (str "DELE "); W_path; W_lit crlf], LWFTP_DELE_SENT)
  | C_remove_dir => ([W_lit (str "RMD "); W_path; W_lit crlf], LWFTP_RMD_SENT)
  | C_change_dir => ([W_lit (str "CWD "); W_path; W_lit crlf], LWFTP_CWD_SENT)
  | C_print_dir => ([W_lit (str "PWD" ++ crlf)], LWFTP_PWD_SENT)
  | C_move => ([W_lit (str "RNFR "); W_path; W_lit crlf], LWFTP_RNFR_SENT)
  | C_connect | C_close => ([], LWFTP_CLOSED)
  end.

Definition is_command (c : api_call) : bool :=
  match c with C_connect | C_close => false | _ => true end.

(** The argument checks, as the interface documents them: logged in, nothing
    under way, and the strings the command needs. *)
Definition accepted `{Client} (c : api_call) (s : lwftp_session_t) : Prop :=
  control_state s = LWFTP_LOGGED /\ data_pcb s = None /\
  (c <> C_print_dir -> is_Some (remote_path s)) /\
  (c = C_move -> is_Some (remote_new_path s)).

Section Commands.
Context `{laws : ClientLaws} (env : tcp_env).

Lemma wp_report_exit r (Q : unit -> world -> Prop) w :
  wp (done r) client_fault Q w ->
  wp (api_exit r) client_fault (fun _ => wp (mret tt) client_fault Q) w.
Proof. unfold api_exit, wp, mbind, M_bind. destruct (done r w) as [[] ?|]; done. Qed.

Lemma path_accepted (s : lwftp_session_t) :
  control_state s = LWFTP_LOGGED -> data_pcb s = None -> is_Some (remote_path s) ->
  ~ (control_state s <> LWFTP_LOGGED \/ remote_path s = None \/ is_Some (data_pcb s)).
Proof. intros E1 E2 [? E3] [?|[?|[? ?]]]; congruence. Qed.

Lemma plain_accepted (s : lwftp_session_t) :
  control_state s = LWFTP_LOGGED -> data_pcb s = None ->
  ~ (control_state s <> LWFTP_LOGGED \/ is_Some (data_pcb s)).
Proof. intros E1 E2 [?|[? ?]]; congruence. Qed.

Lemma move_accepted (s : lwftp_session_t) :
  control_state s = LWFTP_LOGGED -> data_pcb s = None -> is_Some (remote_path s) ->
  is_Some (remote_new_path s) ->
  ~ (control_state s <> LWFTP_LOGGED \/ remote_path s = None \/ remote_new_path s = None \/
     is_Some (data_pcb s)).
Proof. intros E1 E2 [? E3] [? E4] [?|[?|[?|[? ?]]]]; congruence. Qed.

(** Run an accepted command: its guard does not hold, its writes go out. *)
Ltac run_accepted guard :=
  do 3 (wp_step; cbn beta);
  rewrite decide_False by (by apply guard);
  unfold lwftp_tcpip_callback; wp_go; try done;
  send_all; apply wp_report_exit.

Lemma wp_command c (Q : unit -> world -> Prop) w :
  sess_inv w -> is_command c = true -> accepted c (w_sess w) ->
  c <> C_retrieve -> c <> C_store -> c <> C_mlsd ->
  (forall w2, followed w w2 (fst (api_table c)) 0 (snd (api_table c)) -> sess_inv w2 ->
     wp (done LWFTP_RESULT_INPROGRESS) client_fault Q w2) ->
  wp (run_api env c) client_fault Q w.
Proof.
  intros Hs Hc (Est & Ed & Hrp & Hnp) N1 N2 N3 HQ.
  pose proof Hs as [Hi _]. pose proof Hi as (Hp & Hf & _).
  unfold phase_ok in Hf. rewrite Est in Hf. destruct Hf as [Hct _].
  destruct c; try done; try specialize (Hrp ltac:(discriminate)); try specialize (Hnp eq_refl);
    simpl in HQ |- *.
  - unfold lwftp_delete, lwftp_send_DELE. run_accepted path_accepted.
    apply HQ; [follow|by split; [new_state|]].
  - unfold lwftp_remove_dir, lwftp_send_RMD. run_accepted path_accepted.
    apply HQ; [follow|by split; [new_state|]].
  - unfold lwftp_change_dir, lwftp_send_CWD. run_accepted path_accepted.
    apply HQ; [follow|by split; [new_state|]].
  - unfold lwftp_print_dir, lwftp_send_PWD. run_accepted plain_accepted.
    apply HQ; [follow|by split; [new_state|]].
  - unfold lwftp_move, lwftp_send_RNFR. run_accepted move_accepted.
    apply HQ; [follow|by split; [new_state|]].
Qed.


Lemma wp_accepted_transfer tgt (Q : unit -> world -> Prop) w :
  sess_inv w -> control_state (w_sess w) = LWFTP_LOGGED ->
  is_Some (remote_path (w_sess w)) -> data_pcb (w_sess w) = None ->
  tgt = LWFTP_RETR_SENT \/ tgt = LWFTP_STOR_SENT \/ tgt = LWFTP_MLSD_SENT ->
  env_new env (w_trace w) = true ->
  (forall w2, followed w w2 [W_lit (str "TYPE I" ++ crlf)] 0 LWFTP_TYPE_SENT -> sess_inv w2 ->
     wp (done LWFTP_RESULT_INPROGRESS) client_fault Q w2) ->
  wp (_ ← transfer env tgt; mret tt) client_fault Q w.
Proof.
  intros Hs Est Hrp Ed Ht Hnew HQ. unfold transfer. do 3 (wp_step; cbn beta).
  rewrite decide_False by (by apply path_accepted).
  apply wp_bind. unfold wp at 1, tcp_new at 1. rewrite Hnew. wp_go.
  apply (wp_start_transfer env tgt _ _ w); [done..|]. intros c e Ec; cbn beta. apply wp_report_exit.
  pose proof (sess_inv_started tgt (E_write c (str "TYPE I" ++ crlf) e ::
    E_new (Some (w_next w)) :: w_trace w) w Hs Est Hrp Ed Ht) as Hs'.
  apply HQ; [|done]. split; [by destruct Hs'|done..| |done]. sent_words.
Qed.

(** An accepted call writes exactly the bytes of its command on the
    control connection, moves to the state that awaits the answer and reports
    INPROGRESS. *)
Theorem command_accepted c (Q : unit -> world -> Prop) w :
  sess_inv w -> is_command c = true -> accepted c (w_sess w) -> env_new env (w_trace w) = true ->
  (forall w2, followed w w2 (fst (api_table c)) 0 (snd (api_table c)) -> sess_inv w2 ->
     wp (done LWFTP_RESULT_INPROGRESS) client_fault Q w2) ->
  wp (run_api env c) client_fault Q w.
Proof.
  intros Hs Hc Ha Hnew HQ. pose proof Ha as (Est & Ed & Hrp & _).
  destruct c; try done; try (by apply wp_command).
  all: specialize (Hrp ltac:(discriminate)); simpl;
    rewrite ?retrieve_shape, ?store_shape, ?mlsd_shape; apply wp_accepted_transfer; auto.
Qed.

(** C38. A call that is not acceptable (not logged in, transfer under way,
    missing string) changes nothing and reports ERR_ARGUMENT. *)
Theorem command_rejected c w :
  is_command c = true -> ~ accepted c (w_sess w) ->
  run_api env c w = done LWFTP_RESULT_ERR_ARGUMENT w.
Proof.
  intros Hc Hn. destruct c; try done; simpl;
    unfold lwftp_retrieve, lwftp_store, lwftp_mlsd, lwftp_delete, lwftp_remove_dir,
      lwftp_change_dir, lwftp_print_dir, lwftp_move, mbind, M_bind; simpl;
    (rewrite decide_True;
     [unfold api_exit, mbind, M_bind; by destruct (done _ w) as [[] ?|]|]).
  all: match goal with |- ?g => destruct (decide g) as [|Hg]; [done|]; exfalso; apply Hn end;
    unfold accepted.
  all: first [apply logged_guard in Hg as (?&?&?)|apply print_dir_guard in Hg as (?&?)
             |apply move_guard in Hg as (?&?&?&?)]; split_and!; try done.
Qed.

End Commands.

(** ** Witnesses *)

Lemma session_invariant_witness : sess_inv (after start_upload).
Proof.
  apply (session_invariant easy_env sample_world).
  - exact sample_initial.
  - apply after_reachable. vm_compute. reflexivity.
Defined.

Lemma event_safe_witness :
  match deliver easy_env (N_recv 0 (reply "150 go") ERR_OK) (after start_upload) with
  | Done _ w' => sess_inv w'
  | Fault f => client_fault f
  end.
Proof.
  apply (event_safe easy_env sample_world).
  - exact sample_initial.
  - apply after_reachable. vm_compute. reflexivity.
  - apply event_okb_ok. vm_compute. reflexivity.
Defined.

Lemma call_safe_witness :
  match run_api easy_env C_mlsd (after log_in) with
  | Done _ w' => sess_inv w'
  | Fault f => client_fault f
  end.
Proof.
  apply (call_safe easy_env sample_world).
  - exact sample_initial.
  - apply after_reachable. vm_compute. reflexivity.
Defined.

Lemma log_in_accepts c :
  is_command c = true -> accepted c (w_sess (after log_in)).
Proof.
  intros _. unfold accepted. split_and!; [vm_compute; reflexivity..| |].
  - intros _. vm_compute. by eexists.
  - intros _. vm_compute. by eexists.
Qed.

Lemma command_accepted_witness :
  wp (run_api easy_env C_delete) client_fault
    (fun _ w' => control_state (w_sess w') = LWFTP_DELE_SENT /\ hd 0 (sa_results (w_cl w')) = 1)
    (after log_in).
Proof.
  apply (command_accepted easy_env C_delete).
  - apply after_inv. vm_compute. reflexivity.
  - reflexivity.
  - apply log_in_accepts. reflexivity.
  - reflexivity.
  - intros w2 Hf _. simpl. unfold done. wp_go. rewrite (fo_done _ _ _ _ _ Hf).
    replace (done_fn (w_sess (after log_in))) with (Some tt) by (vm_compute; reflexivity).
    split; [apply (fo_state _ _ _ _ _ Hf)|reflexivity].
Defined.

Lemma command_rejected_witness :
  run_api easy_env C_retrieve sample_world = done LWFTP_RESULT_ERR_ARGUMENT sample_world.
Proof.
  apply (command_rejected easy_env).
  - reflexivity.
  - intros (E & _). discriminate E.
Defined.

Lemma control_process_refines_witness :
  wp (lwftp_control_process easy_env (Some (mk_pbuf (str "200 ok" ++ crlf) []))) client_fault
    (fun _ w' => control_state (w_sess w') = LWFTP_PASV_SENT /\
                 ctl_bytes 0 (w_trace w') =
                   ctl_bytes 0 (w_trace (after (log_in ++ [Call C_store]))) ++ str "PASV" ++ crlf /\
                 freed (w_trace w') = S (freed (w_trace (after (log_in ++ [Call C_store])))))
    (after (log_in ++ [Call C_store])).
Proof.
  eapply (control_process_refines easy_env _ 200).
  - apply after_inv. vm_compute. reflexivity.
  - vm_compute. reflexivity.
  - vm_compute. reflexivity.
  - split; [by eexists|]. split; intros E; vm_compute in E; discriminate E.
  - intros words st rep w2 Et Hf Hs.
    assert (words = [W_lit (str "PASV" ++ crlf)] /\ st = LWFTP_PASV_SENT /\ rep = None) as (-> & -> & ->).
    { vm_compute in Et. injection Et as <- <- <-. vm_compute. done. }
    split; [apply (fo_state _ _ _ _ _ Hf)|split; [|apply (fo_freed _ _ _ _ _ Hf)]].
    rewrite (fo_bytes _ _ _ _ _ Hf 0%nat) by (vm_compute; reflexivity). reflexivity.
Defined.

Lemma pasv_connects_witness :
  exists e w', lwftp_data_open easy_env
      (mk_pbuf (pasv_reply (str "Entering Passive Mode ") 3232235786 50007 (str "." ++ crlf)) [])
      (after (log_in ++ [Call C_store])) = Done e w' /\
    w_trace w' = E_connect 1 3232235786 50007 e :: w_trace (after (log_in ++ [Call C_store])).
Proof.
  eapply (pasv_connects_to_printed_address easy_env _ _ _ _ 1%nat fresh_pcb).
  - lia.
  - lia.
  - by repeat constructor.
  - vm_compute. reflexivity.
  - vm_compute. reflexivity.
  - reflexivity.
Defined.

(** ** A fault the guards of the code do not exclude *)

(** The condition on 150 in the safety theorem is needed: a session can
    be driven, by events a server and network can produce, into a state where
    the 150 reply to STOR reads [s->data_pcb->mss] through a null pointer.  The
    data connection fails after STOR was sent; [lwftp_data_err] clears
    [data_pcb] and, as the transfer has not started, does nothing else. *)
Theorem stor_after_data_error_faults :
  exists w, rtc (sys_step easy_env) sample_world w /\
    control_state (w_sess w) = LWFTP_STOR_SENT /\
    deliver easy_env (N_recv 0 (reply "150 go") ERR_OK) w = Fault F_null_mss.
Proof.
  exists (after (start_upload ++ [Ev (N_err 1 (-13))])). split; [|split].
  - apply after_reachable. vm_compute. reflexivity.
  - vm_compute. reflexivity.
  - vm_compute. reflexivity.
Qed.
