(* ===== verification/AppState.v ===== *)
(** * The application's state

    The globals of [src/src/defines.h] and [src/src/main.c]: the [app] and
    [prefs] structures, the two file tables, the file buffer, the strings of the
    session, and what the application sees of the calculator (its variables,
    its keypad).  Machine widths are those of the eZ80: [uint8_t] 8 bits,
    [unsigned int] and pointers 24 bits. *)

From S2P Require Import Prelude CLib.

(** ** defines.h *)

Definition LWIP_MAX_HEAP : Z := 1024 * 32.
Definition IP_WAIT_TICKS : Z := 3000.
Definition INPUT_BUF_SIZE : nat := 32.
Definition RX_BUF_SIZE : nat := 255.

Definition INPUT_DEFAULT : Z := 0.
Definition INPUT_UPPER : Z := 1.
Definition INPUT_LOWER : Z := 2.

Definition TYPE_UNKNOWN : Z := 0.
Definition TYPE_DIR : Z := 1.
Definition TYPE_PROG : Z := 2.
Definition TYPE_APPVAR : Z := 3.

Definition LOCAL_DIRTY : Z := 1.
Definition REMOTE_DIRTY : Z := 2.
Definition PATH_DIRTY : Z := 4.
Definition BUTTONS_DIRTY : Z := 8.
Definition ALL_DIRTY : Z :=
  Z.lor (Z.lor (Z.lor LOCAL_DIRTY REMOTE_DIRTY) PATH_DIRTY) BUTTONS_DIRTY.

(** [sizeof(struct file_t)]: a type byte and nine characters. *)
Definition sizeof_file_t : Z := 10.

Definition MAX_SHOWN_FILES : Z := 15.
Definition MAX_LOCAL_FILES : Z := 500.
Definition MAX_REMOTE_FILES : Z := 8400 / sizeof_file_t - MAX_LOCAL_FILES.

(** Addresses.  [LOCAL_FILES + n] on a [struct file_t *] advances by [n]
    elements of [sizeof_file_t] bytes. *)
Definition LOCAL_FILES : Z := 0xD031F6.
Definition REMOTE_FILES : Z := LOCAL_FILES + sizeof_file_t * (sizeof_file_t * MAX_LOCAL_FILES).
Definition FILE_BUFFER : Z := 0xD52C00.

(** The file buffer reaches to the end of the 153,600 bytes of video memory
    at 0xD40000. *)
Definition FILE_BUFFER_SIZE : Z := 76800.

(** OS variable types (fileioc.h). *)
Definition OS_TYPE_PRGM : Z := 5.
Definition OS_TYPE_PROT_PRGM : Z := 6.
Definition OS_TYPE_APPVAR : Z := 21.

(** ** Structures *)

(** An array of two, indexed by [remoteColumn]. *)
Abbreviation pair2 := (Z * Z)%type.
Definition at2 (p : pair2) (b : bool) : Z := if b then snd p else fst p.
Definition upd2 (b : bool) (v : Z) (p : pair2) : pair2 := if b then (fst p, v) else (v, snd p).

Record file_t := mk_file { ftype : Z; fname : bytes }.
Definition no_file : file_t := mk_file TYPE_UNKNOWN (replicate 9 0).

Record app_t := mk_app {
  dirty : Z;
  remoteColumn : bool;
  start : pair2;
  selected : pair2;
  total : pair2;
  dir : Z;
  app_connected : bool;
  ftpStarted : bool;
  busy : bool;
  ftpResult : Z;
  txOffset : Z;
  txSize : Z;
  rxBuf : bytes;
  path : bytes;
  rxOffset : Z
}.

Definition set_dirty (v : Z) (a : app_t) : app_t :=
  mk_app v (remoteColumn a) (start a) (selected a) (total a) (dir a) (app_connected a) (ftpStarted a) (busy a) (ftpResult a) (txOffset a) (txSize a) (rxBuf a) (path a) (rxOffset a).
Definition set_remoteColumn (v : bool) (a : app_t) : app_t :=
  mk_app (dirty a) v (start a) (selected a) (total a) (dir a) (app_connected a) (ftpStarted a) (busy a) (ftpResult a) (txOffset a) (txSize a) (rxBuf a) (path a) (rxOffset a).
Definition set_start (v : pair2) (a : app_t) : app_t :=
  mk_app (dirty a) (remoteColumn a) v (selected a) (total a) (dir a) (app_connected a) (ftpStarted a) (busy a) (ftpResult a) (txOffset a) (txSize a) (rxBuf a) (path a) (rxOffset a).
Definition set_selected (v : pair2) (a : app_t) : app_t :=
  mk_app (dirty a) (remoteColumn a) (start a) v (total a) (dir a) (app_connected a) (ftpStarted a) (busy a) (ftpResult a) (txOffset a) (txSize a) (rxBuf a) (path a) (rxOffset a).
Definition set_total (v : pair2) (a : app_t) : app_t :=
  mk_app (dirty a) (remoteColumn a) (start a) (selected a) v (dir a) (app_connected a) (ftpStarted a) (busy a) (ftpResult a) (txOffset a) (txSize a) (rxBuf a) (path a) (rxOffset a).
Definition set_dir (v : Z) (a : app_t) : app_t :=
  mk_app (dirty a) (remoteColumn a) (start a) (selected a) (total a) v (app_connected a) (ftpStarted a) (busy a) (ftpResult a) (txOffset a) (txSize a) (rxBuf a) (path a) (rxOffset a).
Definition set_app_connected (v : bool) (a : app_t) : app_t :=
  mk_app (dirty a) (remoteColumn a) (start a) (selected a) (total a) (dir a) v (ftpStarted a) (busy a) (ftpResult a) (txOffset a) (txSize a) (rxBuf a) (path a) (rxOffset a).
Definition set_ftpStarted (v : bool) (a : app_t) : app_t :=
  mk_app (dirty a) (remoteColumn a) (start a) (selected a) (total a) (dir a) (app_connected a) v (busy a) (ftpResult a) (txOffset a) (txSize a) (rxBuf a) (path a) (rxOffset a).
Definition set_busy (v : bool) (a : app_t) : app_t :=
  mk_app (dirty a) (remoteColumn a) (start a) (selected a) (total a) (dir a) (app_connected a) (ftpStarted a) v (ftpResult a) (txOffset a) (txSize a) (rxBuf a) (path a) (rxOffset a).
Definition set_ftpResult (v : Z) (a : app_t) : app_t :=
  mk_app (dirty a) (remoteColumn a) (start a) (selected a) (total a) (dir a) (app_connected a) (ftpStarted a) (busy a) v (txOffset a) (txSize a) (rxBuf a) (path a) (rxOffset a).
Definition set_txOffset (v : Z) (a : app_t) : app_t :=
  mk_app (dirty a) (remoteColumn a) (start a) (selected a) (total a) (dir a) (app_connected a) (ftpStarted a) (busy a) (ftpResult a) v (txSize a) (rxBuf a) (path a) (rxOffset a).
Definition set_txSize (v : Z) (a : app_t) : app_t :=
  mk_app (dirty a) (remoteColumn a) (start a) (selected a) (total a) (dir a) (app_connected a) (ftpStarted a) (busy a) (ftpResult a) (txOffset a) v (rxBuf a) (path a) (rxOffset a).
Definition set_rxBuf (v : bytes) (a : app_t) : app_t :=
  mk_app (dirty a) (remoteColumn a) (start a) (selected a) (total a) (dir a) (app_connected a) (ftpStarted a) (busy a) (ftpResult a) (txOffset a) (txSize a) v (path a) (rxOffset a).
Definition set_path (v : bytes) (a : app_t) : app_t :=
  mk_app (dirty a) (remoteColumn a) (start a) (selected a) (total a) (dir a) (app_connected a) (ftpStarted a) (busy a) (ftpResult a) (txOffset a) (txSize a) (rxBuf a) v (rxOffset a).
Definition set_rxOffset (v : Z) (a : app_t) : app_t :=
  mk_app (dirty a) (remoteColumn a) (start a) (selected a) (total a) (dir a) (app_connected a) (ftpStarted a) (busy a) (ftpResult a) (txOffset a) (txSize a) (rxBuf a) (path a) v.

Record preferences_t := mk_prefs {
  bgColor : Z;
  fgColor : Z;
  hlColor : Z;
  textColor : Z;
  client : bytes;
  mask : bytes;
  gw : bytes
}.

Definition set_bgColor (v : Z) (a : preferences_t) : preferences_t :=
  mk_prefs v (fgColor a) (hlColor a) (textColor a) (client a) (mask a) (gw a).
Definition set_fgColor (v : Z) (a : preferences_t) : preferences_t :=
  mk_prefs (bgColor a) v (hlColor a) (textColor a) (client a) (mask a) (gw a).
Definition set_hlColor (v : Z) (a : preferences_t) : preferences_t :=
  mk_prefs (bgColor a) (fgColor a) v (textColor a) (client a) (mask a) (gw a).
Definition set_textColor (v : Z) (a : preferences_t) : preferences_t :=
  mk_prefs (bgColor a) (fgColor a) (hlColor a) v (client a) (mask a) (gw a).
Definition set_client (v : bytes) (a : preferences_t) : preferences_t :=
  mk_prefs (bgColor a) (fgColor a) (hlColor a) (textColor a) v (mask a) (gw a).
Definition set_mask (v : bytes) (a : preferences_t) : preferences_t :=
  mk_prefs (bgColor a) (fgColor a) (hlColor a) (textColor a) (client a) v (gw a).
Definition set_gw (v : bytes) (a : preferences_t) : preferences_t :=
  mk_prefs (bgColor a) (fgColor a) (hlColor a) (textColor a) (client a) (mask a) v.

(** ** The calculator *)

(** The keys the program looks at, as one scan of the keypad sees them. *)
Record keys := mk_keys {
  k_clear : bool; k_enter : bool; k_2nd : bool; k_alpha : bool; k_del : bool;
  k_up : bool; k_down : bool; k_left : bool; k_right : bool;
  k_yequ : bool; k_window : bool; k_zoom : bool; k_trace : bool; k_graph : bool;
  k_mode : bool;
  k_char : bytes;   (** what [asm_util_GetCharFromKey] gives in each input mode *)
  k_repeat : bool   (** a held key has been down for the repeat delay *)
}.

Definition no_keys : keys :=
  mk_keys false false false false false false false false false false false false false false false
    [] false.

(** [kb_AnyKey] *)
Definition any_key (k : keys) : bool :=
  k_clear k || k_enter k || k_2nd k || k_alpha k || k_del k || k_up k || k_down k ||
  k_left k || k_right k || k_yequ k || k_window k || k_zoom k || k_trace k || k_graph k ||
  k_mode k || negb (bool_decide (k_char k = [])).

(** [kb_Data[7]]: the arrow keys; [kb_Data[1]]: the top row, 2nd, mode and del. *)
Definition kb_Data7 (k : keys) : bool := k_up k || k_down k || k_left k || k_right k.
Definition kb_Data1 (k : keys) : bool :=
  k_yequ k || k_window k || k_zoom k || k_trace k || k_graph k || k_2nd k || k_mode k || k_del k.

(** A variable as fileioc shows it: the type byte of its VAT entry, whether
    it is archived, the two bytes in front of its data, and the data. *)
Record ti_var := mk_var { v_type : Z; v_archived : bool; v_head : bytes; v_data : bytes }.

(** The variables of the calculator, through the fileioc calls the program
    makes. *)
Class TiOS := {
  os : Type;
  ti_DetectAny : os -> list (bytes * Z);                    (** name and type, in VAT order *)
  ti_OpenVar_r : os -> bytes -> Z -> option ti_var;         (** open for reading *)
  ti_WriteVar : os -> bytes -> Z -> bytes -> bool -> os;    (** create, write, set archive status *)
  ti_DeleteVar : os -> bytes -> Z -> os;
  util_SortVAT : os -> os
}.

Section Calc.
Context `{TiOS}.

Record calc := mk_calc {
  c_app : app_t;
  c_prefs : preferences_t;
  c_user : bytes;
  c_pass : bytes;
  c_input : bytes;
  c_buffer : bytes;
  c_local : list file_t;
  c_remote : list file_t;
  c_os : os;
  c_keys : list keys;
  c_screen : list bytes
}.

Definition set_c_app (v : app_t) (a : calc) : calc :=
  mk_calc v (c_prefs a) (c_user a) (c_pass a) (c_input a) (c_buffer a) (c_local a) (c_remote a) (c_os a) (c_keys a) (c_screen a).
Definition set_c_prefs (v : preferences_t) (a : calc) : calc :=
  mk_calc (c_app a) v (c_user a) (c_pass a) (c_input a) (c_buffer a) (c_local a) (c_remote a) (c_os a) (c_keys a) (c_screen a).
Definition set_c_user (v : bytes) (a : calc) : calc :=
  mk_calc (c_app a) (c_prefs a) v (c_pass a) (c_input a) (c_buffer a) (c_local a) (c_remote a) (c_os a) (c_keys a) (c_screen a).
Definition set_c_pass (v : bytes) (a : calc) : calc :=
  mk_calc (c_app a) (c_prefs a) (c_user a) v (c_input a) (c_buffer a) (c_local a) (c_remote a) (c_os a) (c_keys a) (c_screen a).
Definition set_c_input (v : bytes) (a : calc) : calc :=
  mk_calc (c_app a) (c_prefs a) (c_user a) (c_pass a) v (c_buffer a) (c_local a) (c_remote a) (c_os a) (c_keys a) (c_screen a).
Definition set_c_buffer (v : bytes) (a : calc) : calc :=
  mk_calc (c_app a) (c_prefs a) (c_user a) (c_pass a) (c_input a) v (c_local a) (c_remote a) (c_os a) (c_keys a) (c_screen a).
Definition set_c_local (v : list file_t) (a : calc) : calc :=
  mk_calc (c_app a) (c_prefs a) (c_user a) (c_pass a) (c_input a) (c_buffer a) v (c_remote a) (c_os a) (c_keys a) (c_screen a).
Definition set_c_remote (v : list file_t) (a : calc) : calc :=
  mk_calc (c_app a) (c_prefs a) (c_user a) (c_pass a) (c_input a) (c_buffer a) (c_local a) v (c_os a) (c_keys a) (c_screen a).
Definition set_c_os (v : os) (a : calc) : calc :=
  mk_calc (c_app a) (c_prefs a) (c_user a) (c_pass a) (c_input a) (c_buffer a) (c_local a) (c_remote a) v (c_keys a) (c_screen a).
Definition set_c_keys (v : list keys) (a : calc) : calc :=
  mk_calc (c_app a) (c_prefs a) (c_user a) (c_pass a) (c_input a) (c_buffer a) (c_local a) (c_remote a) (c_os a) v (c_screen a).
Definition set_c_screen (v : list bytes) (a : calc) : calc :=
  mk_calc (c_app a) (c_prefs a) (c_user a) (c_pass a) (c_input a) (c_buffer a) (c_local a) (c_remote a) (c_os a) (c_keys a) v.

End Calc.
