(* ===== verification/Callbacks.v ===== *)
(** * The application's data callbacks and file format ([src/src/ftp.c])

    The sinks and the source the session calls with data, the parser of a
    directory listing, and the reader of a received [.8x] file, as functions on
    the application's state.  [None] is undefined behaviour of the C program:
    an access outside a buffer or a null pointer. *)

From S2P Require Import Prelude CLib Session AppState.

(** ** Pointers the application stores in the session *)

Inductive app_ptr := P_path | P_input | P_user | P_pass.
Inductive app_source := ftp_StorDataSource_cb.
Inductive app_sink := ftp_ListDataSink_cb | ftp_PwdDataSink_cb | ftp_RetrDataSink_cb.
Inductive app_done :=
| ftp_ConnectCallback_cb | ftp_ListCallback_cb | ftp_PwdCallback_cb | ftp_CwdCallback_cb
| ftp_DelCallback_cb | ftp_MoveCallback_cb | ftp_StorCallback_cb | ftp_RetrCallback_cb.

#[global] Instance app_client `{TiOS} : Client := {|
  cl_state := calc; cl_ptr := app_ptr; cl_source := app_source;
  cl_sink := app_sink; cl_done := app_done
|}.

(** The string at a pointer, read when it is sent. *)
Definition app_str `{TiOS} (c : calc) (p : app_ptr) : bytes :=
  cstr (match p with
        | P_path => path (c_app c)
        | P_input => c_input c
        | P_user => c_user c
        | P_pass => c_pass c
        end).

(** ** Single bytes of a buffer *)

Definition put (buf : bytes) (i : Z) (v : Z) : option bytes :=
  if (0 <=? i) && (i <? Z.of_nat (length buf)) then Some (<[Z.to_nat i := v]> buf) else None.

Definition get (buf : bytes) (i : Z) : option Z :=
  if 0 <=? i then buf !! Z.to_nat i else None.

(** Cut a string at its last slash: [*strrchr(s, '/') = '\0']. *)
Definition cut_slash (buf : bytes) : option bytes :=
  i ← strrchr (cstr buf) ch_slash;
  put buf (Z.of_nat i) 0.

(** ** utility.c: the checksum of a file *)

Fixpoint util_ComputeChecksum (sum : Z) (data : bytes) : Z :=
  match data with
  | [] => sum
  | d :: data' => util_ComputeChecksum (u16 (sum + d)) data'
  end.

(** [util_ComputeChecksum(buf + off, n)] on a buffer. *)
Definition checksum_of (buf : bytes) (off n : nat) : option Z :=
  if decide (off + n <= length buf)%nat then Some (util_ComputeChecksum 0 (take n (drop off buf)))
  else None.

(** ** Directory listings *)

(** The name of an entry: at most eight characters, up to the dot unless the
    entry is a directory; the rest of the old name stays. *)
Fixpoint copy_name (n : nat) (is_dir : bool) (name old : bytes) : bytes :=
  match n, name, old with
  | S n', c :: name', _ :: old' =>
      if negb is_dir && (c =? ch_dot) then old else c :: copy_name n' is_dir name' old'
  | _, _, _ => old
  end.
Arguments copy_name : simpl never.

(** The type of a listed entry, from its [type=] fact and its name. *)
Definition entry_type (type name : bytes) : Z :=
  if strncmp_eq type (str "dir") 3 then TYPE_DIR
  else
    let len := length name in
    if (4 <=? len)%nat && strncmp_eq (drop (len - 4) name) (str ".8x") 3 then
      match last name with
      | Some c => if c =? 112 then TYPE_PROG else if c =? 118 then TYPE_APPVAR else TYPE_UNKNOWN
      | None => TYPE_UNKNOWN
      end
    else TYPE_UNKNOWN.

(** [strchr] on a terminated string. *)
Fixpoint find_char (l : bytes) (c : Z) : option bytes :=
  match l with
  | [] => None
  | x :: l' => if x =? c then Some l else find_char l' c
  end.

Section Callbacks.
Context `{TiOS}.

Definition with_app (f : app_t -> app_t) (c : calc) : calc := set_c_app (f (c_app c)) c.

Definition ftp_AddRemoteFile (c : calc) : calc :=
  let a := c_app c in
  let line := cstr (rxBuf a) in
  match find_char line ch_space, strstr line (str "type=") with
  | Some name, Some type =>
      let i := at2 (total a) true in
      if i >=? MAX_REMOTE_FILES then c
      else
        let name := drop 1 name in
        let type := drop 5 type in
        let t := entry_type type name in
        let old := default no_file (c_remote c !! Z.to_nat i) in
        if t =? TYPE_UNKNOWN then
          set_c_remote (<[Z.to_nat i := mk_file t (fname old)]> (c_remote c)) c
        else
          let nm := copy_name 8 (t =? TYPE_DIR) name (fname old) in
          with_app (fun a => set_total (upd2 true (u24 (i + 1)) (total a)) a)
            (set_c_remote (<[Z.to_nat i := mk_file t nm]> (c_remote c)) c)
  | _, _ => c
  end.

(** One character of the listing; [false] stops the loop of the sink. *)
Definition list_char (ch : Z) (c : calc) : option (bool * calc) :=
  let a := c_app c in
  let off := rxOffset a in
  if ch =? ch_lf then
    prev ← (if off =? 0 then Some 0 else get (rxBuf a) (off - 1));
    let off := if negb (off =? 0) && (prev =? ch_cr) then off - 1 else off in
    buf ← put (rxBuf a) off 0;
    let c := ftp_AddRemoteFile (with_app (fun a => set_rxOffset off (set_rxBuf buf a)) c) in
    Some (true, with_app (set_rxOffset 0) c)
  else if off <? Z.of_nat RX_BUF_SIZE then
    buf ← put (rxBuf a) off ch;
    Some (true, with_app (fun a => set_rxOffset (off + 1) (set_rxBuf buf a)) c)
  else Some (false, c).

(** The loop: what is left of [len] when it ends. *)
Fixpoint list_loop (data : bytes) (c : calc) : option (Z * calc) :=
  match data with
  | [] => Some (0, c)
  | ch :: data' =>
      '(go, c) ← list_char ch c;
      if go : bool then list_loop data' c else Some (Z.of_nat (length data'), c)
  end.

Definition ftp_ListDataSink (ptr : option bytes) (c : calc) : option (Z * calc) :=
  match ptr with
  | None => Some (0, c)
  | Some data =>
      '(len, c) ← list_loop data c;
      Some (len, with_app (fun a => set_dirty (Z.lor (dirty a) REMOTE_DIRTY) a) c)
  end.

(** ** The working directory *)

Definition ftp_PwdDataSink (ptr : option bytes) (len : Z) (c : calc) : option (Z * calc) :=
  match ptr with
  | None => Some (0, c)
  | Some data =>
      c ← (match memchr data ch_dquote (length data) with
           | None => Some c
           | Some i =>
               let start := drop (S i) data in
               match memchr start ch_dquote (length start) with
               | None => Some c
               | Some e =>
                   let copylen := Nat.min e RX_BUF_SIZE in
                   p ← store (path (c_app c)) 0 (take copylen start);
                   p ← put p (Z.of_nat copylen) 0;
                   Some (with_app (fun a => set_rxOffset (Z.of_nat copylen) (set_path p a)) c)
               end
           end);
      Some (len, with_app (fun a => set_dirty (Z.lor (dirty a) PATH_DIRTY) a) c)
  end.

(** ** Uploading *)

(** The source: [pptr] null acknowledges [maxlen] bytes, otherwise the next
    bytes of the file buffer are offered. *)
Definition ftp_StorDataSource (pptr : bool) (maxlen : Z) (c : calc)
    : option (Z * option bytes * calc) :=
  let a := c_app c in
  let maxlen := u16 maxlen in
  let off := if pptr then txOffset a else u24 (txOffset a + maxlen) in
  let off := if off >? txSize a then txSize a else off in
  let c := with_app (set_txOffset off) c in
  if negb pptr || (maxlen =? 0) || (off =? txSize a) then Some (0, None, c)
  else
    let len := txSize a - off in
    let len := if len >? maxlen then maxlen else len in
    if (0 <=? off) && (off + len <=? Z.of_nat (length (c_buffer c)))
    then Some (u16 len, Some (drop (Z.to_nat off) (c_buffer c)), c)
    else None.

(** ** Downloading *)

Definition ftp_RetrDataSink (ptr : option bytes) (len : Z) (c : calc) : option (Z * calc) :=
  match ptr with
  | None => Some (0, c)
  | Some data =>
      let a := c_app c in
      let len := if u24 (rxOffset a + len) >? 65535 then u16 (65535 - rxOffset a) else len in
      if (length data <? Z.to_nat len)%nat then None else
      buf ← store (c_buffer c) (Z.to_nat (rxOffset a)) (take (Z.to_nat len) data);
      Some (len, with_app (set_rxOffset (u24 (rxOffset a + len))) (set_c_buffer buf c))
  end.

(** ** The received file *)

(** What [ftp_RetrCallback] reads out of the buffer: [inr] when the checksum
    is wrong, otherwise name, type, archive flag and data of the variable. *)
Definition read_8x (buf : bytes) : option (bytes * Z * bool * bytes + unit) :=
  dataSize ← load16 buf 53;
  checksum ← checksum_of buf 55 (Z.to_nat dataSize);
  type ← buf !! 59%nat;
  arch ← buf !! 69%nat;
  size ← load16 buf 70;
  expected ← load16 buf (72 + Z.to_nat size);
  if negb (checksum =? expected) then Some (inr tt)
  else
    let n := u24 (size - 2) in
    if Z.of_nat (length buf) <? 74 + n then None
    else Some (inl (take 8 (drop 60 buf) ++ [0], type, arch =? 0x80,
                    take (Z.to_nat n) (drop 74 buf))).

End Callbacks.
