(* ===== verification/Utility.v ===== *)
(** * Addresses, configuration, file tables and file images ([src/src/utility.c])

    The parts of utility.c that do not talk to the session: the address
    parser, the configuration variable, the table of local files, the path of
    a remote file and the [.8x] image of an upload. *)

From S2P Require Import Prelude CLib Session AppState Callbacks.

(** ** Addresses *)

(** [util_ParseAddr]: the loop from component [i]; the result code and the
    array as far as it was filled. *)
Fixpoint parse_components (n : nat) (i : nat) (s : bytes) (addr : bytes) : option (Z * bytes) :=
  match n with
  | O => Some (0, addr)
  | S n' =>
      '(v, s) ← strtoul10 s;
      let addr := <[i := u8 v]> addr in
      c ← head s;
      if c =? ch_dot then parse_components n' (S i) (drop 1 s) addr
      else if negb ((c =? 0) && (i =? 3)%nat) then Some (1, addr)
      else parse_components n' (S i) s addr
  end.

Definition util_ParseAddr (s addr : bytes) : option (Z * bytes) := parse_components 4 0 s addr.

(** ** Configuration *)

(** The memory of [struct preferences_t]: sixteen bytes. *)
Definition prefs_bytes (p : preferences_t) : bytes :=
  [bgColor p; fgColor p; hlColor p; textColor p] ++ client p ++ mask p ++ gw p.

Definition prefs_of_bytes (b : bytes) : preferences_t :=
  mk_prefs (nth 0 b 0) (nth 1 b 0) (nth 2 b 0) (nth 3 b 0)
    (take 4 (drop 4 b)) (take 4 (drop 8 b)) (take 4 (drop 12 b)).

Definition SIZEOF_PREFS : nat := 16.

(** A text background colour that differs from the text colour. *)
Fixpoint transparent_color (fuel : nat) (color text : Z) : option Z :=
  match fuel with
  | O => None
  | S f => if color =? text then transparent_color f (u8 (color + 1)) text else Some color
  end.

(** ** The path of a remote file *)

(** [app.path + "/" + name + ".8x" + (v or p)], written in place. *)
Definition append_name (buf name : bytes) (is_appvar : bool) : option bytes :=
  if negb (terminated buf) then None else
  let n := length (cstr buf) in
  buf ← put buf (Z.of_nat n) ch_slash;
  buf ← store buf (n + 1) name;
  if negb (terminated buf) then None else
  let n := length (cstr buf) in
  buf ← strcpy buf n (str ".8x");
  buf ← put buf (Z.of_nat n + 3) (if is_appvar then 118 else 112);
  put buf (Z.of_nat n + 4) 0.

(** The same at the end of a string that ends in a slash. *)
Definition append_after_slash (buf name : bytes) (is_appvar : bool) : option bytes :=
  if negb (terminated buf) then None else
  let n := length (cstr buf) in
  buf ← store buf n name;
  if negb (terminated buf) then None else
  let n := length (cstr buf) in
  buf ← strcpy buf n (str ".8x");
  buf ← put buf (Z.of_nat n + 3) (if is_appvar then 118 else 112);
  put buf (Z.of_nat n + 4) 0.

(** ** The image of an upload *)

Definition header_8x : bytes := str "**TI83F*" ++ [0x1A; 0x0A; 0x00].
Definition comment_8x : bytes := str "Uploaded by lwFTP CE" ++ [0].

(** The file buffer after [util_UploadFile] has filled it for variable [v],
    and [app.txSize]. *)
Definition upload_image (buf name : bytes) (v : ti_var) : option (bytes * Z) :=
  let size := u16 (Z.of_nat (length (v_data v))) in
  buf ← store0 buf 0 (Z.to_nat 65535);
  buf ← store buf 0 header_8x;
  buf ← store buf 11 comment_8x;
  buf ← store16 buf 53 (size + 19);
  buf ← store16 buf 55 0xD;
  buf ← store16 buf 57 (size + 2);
  buf ← put buf 59 (v_type v);
  buf ← store buf 60 (take 8 name);
  '(buf, pos) ← (if v_archived v then buf ← put buf 69 0x80; Some (buf, 70%nat)
                 else Some (buf, 69%nat));
  buf ← store16 buf pos (size + 2);
  let pos := (pos + 2)%nat in
  buf ← store buf pos (v_head v ++ take (Z.to_nat size) (v_data v));
  sum ← checksum_of buf 55 (17 + Z.to_nat size);
  buf ← store16 buf (pos + 2 + Z.to_nat size) sum;
  Some (buf, 11 + 42 + 2 + 17 + size + 4).

Section Utility.
Context `{TiOS}.

(** [ti_Read(&prefs, sizeof(prefs), 1, slot)] reads one whole structure, or
    nothing when the variable is shorter. *)
Definition util_ReadConfig (c : calc) : option (Z * calc) :=
  let p := match ti_OpenVar_r (c_os c) (str "lwFTP") OS_TYPE_APPVAR with
           | Some v => if (SIZEOF_PREFS <=? length (v_data v))%nat
                       then prefs_of_bytes (take SIZEOF_PREFS (v_data v)) else c_prefs c
           | None => c_prefs c
           end in
  let p := match ti_OpenVar_r (c_os c) (str "CEaShell") OS_TYPE_APPVAR with
           | Some v =>
               let theme := take 4 (drop 2 (v_data v)) in
               prefs_of_bytes (theme ++ drop (length theme) (prefs_bytes p))
           | None => p
           end in
  color ← transparent_color 256 248 (textColor p);
  Some (color, set_c_prefs p c).

Definition util_WriteConfig (c : calc) : calc :=
  set_c_os (ti_WriteVar (c_os c) (str "lwFTP") OS_TYPE_APPVAR (prefs_bytes (c_prefs c)) true) c.

(** ** Local files *)

(** A [char] is signed: characters from 128 on are negative. *)
Definition schar (z : Z) : Z := if z <? 128 then z else z - 256.

Definition local_type (t : Z) : option Z :=
  if t =? OS_TYPE_APPVAR then Some TYPE_APPVAR
  else if (t =? OS_TYPE_PROT_PRGM) || (t =? OS_TYPE_PRGM) then Some TYPE_PROG
  else None.

(** Hidden variables have the first character of their name lowered by 64. *)
Definition unhide (name : bytes) : bytes :=
  match name with
  | c :: l => (if schar c <? 65 then u8 (c + 64) else c) :: l
  | [] => []
  end.

Fixpoint local_loop (vars : list (bytes * Z)) (i : Z) (files : list file_t)
    : option (Z * list file_t) :=
  match vars with
  | [] => Some (i, files)
  | (name, type) :: vars' =>
      c ← head name;
      if (c =? ch_bang) || (c =? ch_hash) then local_loop vars' i files
      else match local_type type with
           | None => local_loop vars' i files
           | Some t =>
               if (i <? MAX_LOCAL_FILES) && (8 <=? length name)%nat then
                 local_loop vars' (i + 1)
                   (<[Z.to_nat i := mk_file t (unhide (take 8 name) ++ [0])]> files)
               else None
           end
  end.

Definition util_GetLocalFiles (c : calc) : option calc :=
  let c := set_c_os (util_SortVAT (c_os c)) c in
  '(n, files) ← local_loop (ti_DetectAny (c_os c)) 0
                  (replicate (Z.to_nat MAX_LOCAL_FILES) no_file);
  Some (with_app (fun a => set_dirty (Z.lor (dirty a) LOCAL_DIRTY)
                             (set_total (upd2 false n (total a)) a))
          (set_c_local files c)).

End Utility.
