(* ===== verification/App.v ===== *)
(** * The application on top of the session ([ftp.c], [utility.c])

    The completion callbacks of ftp.c and the operations of utility.c that
    drive the session.  Callbacks call interface functions of lwftp.c, which
    report through callbacks again: [ftp_ops] ties this knot with fuel, and two
    levels are enough ([AppCorrect]).

    The network is serviced by [util_ServiceNetwork], which polls the USB
    driver and the timers of the stack: a parameter [service] here. *)

From S2P Require Import Prelude CLib Session Lwftp AppState Callbacks Utility.

Section App.
Context `{TiOS} (env : tcp_env) (service : M unit).

(** ** Access to the application's state *)

Definition lift {A} (f : calc -> option (A * calc)) : M A := fun w =>
  match f (w_cl w) with
  | Some (a, c) => Done a (upd_cl c w)
  | None => Fault F_client
  end.

Definition lift_ (f : calc -> option calc) : M unit := lift (fun c => (tt,.) <$> f c).
Definition get_app : M app_t := gets (fun w => c_app (w_cl w)).
Definition set_app (f : app_t -> app_t) : M unit := modify (fun w => upd_cl (with_app f (w_cl w)) w).

(** [menu_PrintMessage] *)
Definition message (s : string) : M unit :=
  modify (fun w => upd_cl (set_c_screen (str s :: c_screen (w_cl w)) (w_cl w)) w).

(** One scan of the keypad. *)
Definition kb_Scan : M keys := fun w =>
  match c_keys (w_cl w) with
  | k :: ks => Done k (upd_cl (set_c_keys ks (w_cl w)) w)
  | [] => Fault F_fuel
  end.

Definition scans_left : M nat := gets (fun w => length (c_keys (w_cl w))).

(** [while (!kb_AnyKey()) util_ServiceNetwork();] *)
Fixpoint wait_key (fuel : nat) : M unit :=
  match fuel with
  | O => fail F_fuel
  | S f =>
      k ← kb_Scan;
      if any_key k then mret tt else service;; wait_key f
  end.

Definition wait_any_key : M unit :=
  n ← scans_left; wait_key (S n).

(** [while (app.busy && !kb_IsDown(kb_KeyClear)) { kb_Scan(); service }] *)
Fixpoint wait_busy (fuel : nat) (clear : bool) : M unit :=
  match fuel with
  | O => fail F_fuel
  | S f =>
      a ← get_app;
      if busy a && negb clear then
        k ← kb_Scan;
        service;;
        wait_busy f (k_clear k)
      else mret tt
  end.

(** ** The callbacks, given the level below *)

Section Level.
Context (ops : @ClientOps app_client).

Definition util_GetRemoteFiles : M unit :=
  set_app (set_busy true);;
  set (set_data_sink (Some ftp_ListDataSink_cb));;
  set (set_done_fn (Some ftp_ListCallback_cb));;
  set_app (fun a => set_rxBuf (replicate 257 0) (set_total (upd2 true 0 (total a)) (set_rxOffset 0 a)));;
  modify (fun w => upd_cl (set_c_remote (replicate (Z.to_nat MAX_REMOTE_FILES) no_file) (w_cl w)) w);;
  _ ← lwftp_mlsd (ops := ops) env;
  mret tt.

Definition util_GetDir : M unit :=
  set_app (set_busy true);;
  set (set_data_sink (Some ftp_PwdDataSink_cb));;
  set (set_done_fn (Some ftp_PwdCallback_cb));;
  set_app (fun a => set_path (replicate 257 0) (set_rxOffset 0 a));;
  _ ← lwftp_print_dir (ops := ops) env;
  mret tt.

(** A failed command: remember the result, ready for the next one. *)
Definition failed (result : Z) : M unit :=
  set_app (fun a => set_busy false (set_ftpResult result a)).

Definition ftp_ConnectCallback (arg : option unit) (result : Z) : M unit :=
  if result =? LWFTP_RESULT_INPROGRESS then mret tt
  else if negb (result =? LWFTP_RESULT_LOGGED) then
    set_app (set_ftpResult result);;
    _ ← deref F_client arg;
    lwftp_close env;;
    set_app (set_busy false)
  else
    message "Logged in";;
    set_app (set_ftpStarted true);;
    _ ← deref F_client arg;
    util_GetRemoteFiles.

Definition ftp_ListCallback (arg : option unit) (result : Z) : M unit :=
  if result =? LWFTP_RESULT_INPROGRESS then mret tt
  else if negb (result =? LWFTP_RESULT_OK) then failed result
  else _ ← deref F_client arg; util_GetDir.

Definition ftp_PwdCallback (arg : option unit) (result : Z) : M unit :=
  if result =? LWFTP_RESULT_INPROGRESS then mret tt
  else if negb (result =? LWFTP_RESULT_OK) then failed result
  else set_app (set_busy false).

Definition ftp_CwdCallback (arg : option unit) (result : Z) : M unit :=
  if result =? LWFTP_RESULT_INPROGRESS then mret tt
  else if negb (result =? LWFTP_RESULT_OK) then failed result
  else
    set_app (fun a => set_dirty (Z.lor (dirty a) PATH_DIRTY) a);;
    _ ← deref F_client arg;
    util_GetRemoteFiles.

(** [*strrchr(app.path, '/') = '\0';] *)
Definition cut_path : M unit :=
  lift_ (fun c => p ← cut_slash (path (c_app c)); Some (with_app (set_path p) c)).

Definition ftp_DelCallback (arg : option unit) (result : Z) : M unit :=
  if result =? LWFTP_RESULT_INPROGRESS then mret tt
  else if negb (result =? LWFTP_RESULT_OK) then failed result
  else
    cut_path;;
    _ ← deref F_client arg;
    util_GetRemoteFiles.

(** One entry less in the current column; the cursor stays on an entry. *)
Definition drop_entry (a : app_t) : app_t :=
  let col := remoteColumn a in
  let n := u24 (at2 (total a) col - 1) in
  let a := set_total (upd2 col n (total a)) a in
  if negb (n =? 0) && (at2 (selected a) col =? n)
  then set_selected (upd2 col (u24 (at2 (selected a) col - 1)) (selected a)) a
  else a.

Definition ftp_MoveCallback (arg : option unit) (result : Z) : M unit :=
  if result =? LWFTP_RESULT_INPROGRESS then mret tt
  else if negb (result =? LWFTP_RESULT_OK) then failed result
  else
    cut_path;;
    set_app drop_entry;;
    _ ← deref F_client arg;
    util_GetRemoteFiles.

Definition ftp_StorCallback (arg : option unit) (result : Z) : M unit :=
  if result =? LWFTP_RESULT_INPROGRESS then mret tt
  else
    cut_path;;
    if negb (result =? LWFTP_RESULT_OK) then failed result
    else _ ← deref F_client arg; util_GetRemoteFiles.

Definition ftp_RetrCallback (arg : option unit) (result : Z) : M unit :=
  if result =? LWFTP_RESULT_INPROGRESS then mret tt
  else
    set_app (set_busy false);;
    if negb (result =? LWFTP_RESULT_OK) then set_app (set_ftpResult result)
    else
      r ← gets (fun w => read_8x (c_buffer (w_cl w)));
      r ← deref F_client r;
      match r with
      | inr _ => message "Invalid checksum";; wait_any_key
      | inl (name, type, archived, data) =>
          modify (fun w => upd_cl (set_c_os (ti_WriteVar (c_os (w_cl w)) name type data archived)
                                     (w_cl w)) w);;
          lift_ util_GetLocalFiles
      end.

Definition run_done (f : app_done) : option unit -> Z -> M unit :=
  match f with
  | ftp_ConnectCallback_cb => ftp_ConnectCallback
  | ftp_ListCallback_cb => ftp_ListCallback
  | ftp_PwdCallback_cb => ftp_PwdCallback
  | ftp_CwdCallback_cb => ftp_CwdCallback
  | ftp_DelCallback_cb => ftp_DelCallback
  | ftp_MoveCallback_cb => ftp_MoveCallback
  | ftp_StorCallback_cb => ftp_StorCallback
  | ftp_RetrCallback_cb => ftp_RetrCallback
  end.

End Level.

(** ** The knot *)

Definition run_sink (f : app_sink) (h : option unit) (d : option bytes) (n : Z) : M Z :=
  lift (match f with
        | ftp_ListDataSink_cb => ftp_ListDataSink d
        | ftp_PwdDataSink_cb => ftp_PwdDataSink d n
        | ftp_RetrDataSink_cb => ftp_RetrDataSink d n
        end).

Definition run_source (f : app_source) (h : option unit) (b : bool) (n : Z)
    : M (Z * option bytes) :=
  lift (ftp_StorDataSource b n).

Fixpoint ftp_ops (n : nat) : @ClientOps app_client :=
  {| cl_str := app_str;
     call_done := match n with
                  | O => fun _ _ _ => fail F_fuel
                  | S m => run_done (ftp_ops m)
                  end;
     call_sink := run_sink;
     call_source := run_source |}.

(** Callbacks of the library run one level deep, those of the interface
    functions they call a second one. *)
Definition the_ops : @ClientOps app_client := ftp_ops 2.

End App.
