(* ===== verification/Menu.v ===== *)
(** * Text entry and the setup screens ([src/src/menu.c])

    The interactive part of menu.c: the line editor, the two setup screens and
    the redraw decisions.  What is drawn is kept as the list of strings put on
    the screen; shapes, colours and coordinates are not modelled.  Waiting for
    a key to be released changes no state and is left out. *)

From S2P Require Import Prelude CLib Session Lwftp AppState Callbacks Utility App.

(** ** The line editor *)

(** The locals of [menu_StringInput]. *)
Record editor := mk_editor {
  ed_input : bytes; ed_offset : nat; ed_mode : Z; ed_c : Z; ed_pressed : bool
}.

Definition ed_start (input : bytes) : option editor :=
  b ← store0 input 0 INPUT_BUF_SIZE;
  Some (mk_editor b 0 INPUT_DEFAULT 0 false).

Definition ed_ends (k : keys) (e : editor) : bool :=
  k_clear k || (k_2nd k && (0 <? ed_offset e)%nat).

Definition printable (c : Z) : bool := (32 <=? schar c) && (schar c <=? 126).

(** The branches on a key that does not end the input. *)
Definition ed_key (k : keys) (e : editor) : option editor :=
  let '(mk_editor input off mode c pressed) := e in
  if k_alpha k then
    Some (mk_editor input off (if mode =? INPUT_LOWER then INPUT_DEFAULT else mode + 1) c pressed)
  else if k_del k then
    match off with
    | S off' => b ← put input (Z.of_nat off') 0; Some (mk_editor b off' mode c pressed)
    | O => Some e
    end
  else if (off <? INPUT_BUF_SIZE - 1)%nat then
    let c := if pressed then c else nth (Z.to_nat mode) (k_char k) 0 in
    if printable c then b ← put input (Z.of_nat off) c; Some (mk_editor b (S off) mode c pressed)
    else Some (mk_editor input off mode c pressed)
  else Some e.

Definition ed_set_pressed (b : bool) (e : editor) : editor :=
  mk_editor (ed_input e) (ed_offset e) (ed_mode e) (ed_c e) b.

Section Menu.
Context `{TiOS} (service : M unit).

(** [util_WaitBeforeKeypress]: the network is serviced while the first press
    of a key is held. *)
Definition util_WaitBeforeKeypress (pressed : bool) : M bool :=
  a ← get_app;
  whenM (negb pressed && app_connected a) service;;
  mret true.

(** The loop; [cur] is the last scan.  The result is the input and whether it
    was confirmed with 2nd. *)
Fixpoint input_loop (fuel : nat) (cur : keys) (e : editor) : M (keys * editor) :=
  match fuel with
  | O => fail F_fuel
  | S f =>
      if ed_ends cur e then mret (cur, e)
      else
        k ← kb_Scan;
        let e := if negb (any_key k) && ed_pressed e then ed_set_pressed false e else e in
        if any_key k && (negb (ed_pressed e) || k_repeat k) then
          if ed_ends k e then mret (k, e)
          else
            e ← deref F_client (ed_key k e);
            p ← util_WaitBeforeKeypress (ed_pressed e);
            input_loop f k (ed_set_pressed p e)
        else input_loop f k e
  end.

Definition menu_StringInput (input : bytes) : M (Z * bytes) :=
  e ← deref F_client (ed_start input);
  n ← scans_left;
  '(k, e) ← input_loop (S (S n)) no_keys e;
  mret (if k_2nd k then 0 else 1, ed_input e).

(** ** The setup screens *)

(** The cursor of a setup screen moves over three options. *)
Definition move_option (k : keys) (opt : Z) : Z :=
  if k_up k || k_left k then (if opt =? 0 then 2 else opt - 1)
  else if k_down k || k_right k then (if opt <? 2 then opt + 1 else 0)
  else opt.

(** What entering a string at an option of the client screen does. *)
Definition client_entry (opt : Z) (input : bytes) : M unit :=
  '(r, addr) ← deref F_client (util_ParseAddr input (replicate 4 0));
  let f := if r =? 0 then
             if opt =? 0 then set_client addr
             else if opt =? 1 then set_mask addr
             else if opt =? 2 then set_gw addr else id
           else id in
  modify (fun w => upd_cl (set_c_prefs (f (c_prefs (w_cl w))) (w_cl w)) w).

(** Server address, user name or password; the strings go into buffers of 32
    bytes with [strcpy]. *)
Definition server_entry (opt : Z) (input : bytes) (server : bytes) : M bytes :=
  if opt =? 0 then
    '(r, addr) ← deref F_client (util_ParseAddr input (replicate 4 0));
    mret (if r =? 0 then addr else server)
  else if opt =? 1 then
    lift_ (fun c => u ← strcpy (c_user c) 0 (cstr input); Some (set_c_user u c));;
    mret server
  else if opt =? 2 then
    lift_ (fun c => u ← strcpy (c_pass c) 0 (cstr input); Some (set_c_pass u c));;
    mret server
  else mret server.

(** The locals of a setup screen: option, redraw and key state, and the
    address the server screen edits. *)
Record screen := mk_screen { sc_option : Z; sc_redraw : bool; sc_pressed : bool; sc_server : bytes }.

(** One iteration on the scan [k], with [entry] what a confirmed string does.
    After text entry the program waits until all keys are released.  The
    result is the keypad as the loop condition sees it next. *)
Definition config_step (entry : Z -> bytes -> bytes -> M bytes) (k : keys) (sc : screen)
    : M (keys * screen) :=
  let pressed := if negb (any_key k) && sc_pressed sc then false else sc_pressed sc in
  let redrawn k opt server :=
    p ← util_WaitBeforeKeypress pressed; mret (k, mk_screen opt false p server) in
  if (kb_Data7 k || k_2nd k) && (negb pressed || k_repeat k) then
    if kb_Data7 k then redrawn k (move_option k (sc_option sc)) (sc_server sc)
    else
      '(r, input) ← menu_StringInput (replicate INPUT_BUF_SIZE 0);
      if negb (r =? 0) then mret (no_keys, mk_screen (sc_option sc) true pressed (sc_server sc))
      else
        server ← entry (sc_option sc) input (sc_server sc);
        redrawn no_keys (sc_option sc) server
  else if sc_redraw sc then redrawn k (sc_option sc) (sc_server sc)
  else mret (k, mk_screen (sc_option sc) false pressed (sc_server sc)).

Fixpoint config_loop (entry : Z -> bytes -> bytes -> M bytes) (fuel : nat) (cur : keys) (sc : screen)
    : M (keys * screen) :=
  match fuel with
  | O => fail F_fuel
  | S f =>
      if k_clear cur || k_enter cur then mret (cur, sc)
      else
        k ← kb_Scan;
        '(cur, sc) ← config_step entry k sc;
        config_loop entry f cur sc
  end.

(** [true] when the screen was left with Clear. *)
Definition menu_ClientConfig : M bool :=
  n ← scans_left;
  '(k, _) ← config_loop (fun opt input server => client_entry opt input;; mret server)
              (S (S n)) no_keys (mk_screen 0 true false []);
  mret (k_clear k).

Definition menu_ServerConfig (server : bytes) : M (bool * bytes) :=
  n ← scans_left;
  '(k, sc) ← config_loop server_entry (S (S n)) no_keys (mk_screen 0 true false server);
  mret (k_clear k, sc_server sc).

(** ** The main screen *)

(** [menu_PrintAddress] *)
Definition menu_PrintAddress (addr : bytes) : bytes :=
  print_uint (nth 0 addr 0) ++ [ch_dot] ++ print_uint (nth 1 addr 0) ++ [ch_dot] ++
  print_uint (nth 2 addr 0) ++ [ch_dot] ++ print_uint (nth 3 addr 0).

(** [menu_DrawFile]: the text of an entry. *)
Definition menu_DrawFile (f : file_t) : bytes :=
  if ftype f =? TYPE_UNKNOWN then []
  else cstr (fname f) ++
       (if ftype f =? TYPE_PROG then str ".8xp"
        else if ftype f =? TYPE_APPVAR then str ".8xv" else []).

(** [menu_DrawFiles]: the rows shown, and which one is highlighted. *)
Fixpoint draw_rows (n : nat) (i : Z) (files : list file_t) (sel : option Z) : list (bytes * bool) :=
  match n with
  | O => []
  | S n' =>
      match files !! Z.to_nat i with
      | None => []
      | Some f =>
          if ftype f =? TYPE_UNKNOWN then []
          else (menu_DrawFile f, bool_decide (sel = Some i)) :: draw_rows n' (i + 1) files sel
      end
  end.

Definition menu_DrawFiles (col : bool) (c : calc) : list (bytes * bool) :=
  let a := c_app c in
  draw_rows (Z.to_nat MAX_SHOWN_FILES) (at2 (start a) col)
    (if col then c_remote c else c_local c)
    (if Bool.eqb col (remoteColumn a) then Some (at2 (selected a) col) else None).

(** [menu_UpdateMain]: the parts that are dirty are redrawn and clean after. *)
Definition menu_UpdateMain : M unit :=
  c ← gets w_cl;
  s ← sess;
  let a := c_app c in
  let dirty_part bit := negb (Z.land (dirty a) bit =? 0) in
  let buttons := if dirty_part BUTTONS_DIRTY
                 then [str "Back"; str "Upload"; str "Delete"; str "Download"; str "Move"] else [] in
  let title := if dirty_part PATH_DIRTY then
                 match remote_path s with Some _ => [cstr (path a)] | None => [] end else [] in
  let remote := if dirty_part REMOTE_DIRTY then fst <$> menu_DrawFiles true c else [] in
  let local := if dirty_part LOCAL_DIRTY then fst <$> menu_DrawFiles false c else [] in
  if dirty a =? 0 then mret tt
  else modify (fun w => upd_cl (with_app (set_dirty 0)
         (set_c_screen (rev (buttons ++ title ++ remote ++ local) ++ c_screen c) c)) w).

End Menu.
