(* ===== verification/AppOps.v ===== *)
(** * User operations and the main program ([utility.c], [main.c])

    The operations a key starts, and [main] itself: setup, connection, the main
    loop and shutdown.  [lwip_init], [mem_init], [usb_Init] and the network
    interface are the environment of [main]: their answers are parameters. *)

From S2P Require Import Prelude CLib Session Lwftp AppState Callbacks Utility App Menu.

Section AppOps.
Context `{TiOS} (env : tcp_env) (service : M unit).

Abbreviation ops := (the_ops env service).

(** ** Operations *)

Definition util_ChangeDir : M unit :=
  set_app (set_busy true);;
  set_app (fun a => set_start (upd2 true 0 (start a)) (set_selected (upd2 true 0 (selected a)) a));;
  set (set_remote_path (Some P_path));;
  set (set_done_fn (Some ftp_CwdCallback_cb));;
  _ ← lwftp_change_dir (ops := ops) env;
  mret tt.

(** An entry of a table, read through its pointer. *)
Definition entry (files : list file_t) (i : Z) : M file_t :=
  deref F_client (if 0 <=? i then files !! Z.to_nat i else None).

(** Append the name of [f] to [app.path] and make it the remote path. *)
Definition select_path (f : file_t) : M unit :=
  lift_ (fun c => p ← append_name (path (c_app c)) (fname f) (ftype f =? TYPE_APPVAR);
                  Some (with_app (set_path p) c));;
  set (set_remote_path (Some P_path)).

Definition util_DeleteFile : M unit :=
  c ← gets w_cl;
  let a := c_app c in
  if negb (remoteColumn a) then
    f ← entry (c_local c) (at2 (selected a) false);
    let type := if ftype f =? TYPE_APPVAR then OS_TYPE_APPVAR else OS_TYPE_PRGM in
    modify (fun w => upd_cl (set_c_os (ti_DeleteVar (c_os (w_cl w)) (fname f) type) (w_cl w)) w);;
    lift_ util_GetLocalFiles;;
    set_app drop_entry
  else
    f ← entry (c_remote c) (at2 (selected a) true);
    if ftype f =? TYPE_DIR then mret tt
    else
      set_app (set_busy true);;
      select_path f;;
      set (set_done_fn (Some ftp_DelCallback_cb));;
      _ ← lwftp_delete (ops := ops) env;
      set_app drop_entry.

Definition util_MoveFile : M unit :=
  c ← gets w_cl;
  let a := c_app c in
  if negb (remoteColumn a) then mret tt
  else
    f ← entry (c_remote c) (at2 (selected a) true);
    if ftype f =? TYPE_DIR then mret tt
    else
      select_path f;;
      modify (fun w => upd_cl (set_c_input (replicate (INPUT_BUF_SIZE * 2) 0) (w_cl w)) w);;
      '(_, input) ← menu_StringInput service (replicate (INPUT_BUF_SIZE * 2) 0);
      modify (fun w => upd_cl (set_c_input input (w_cl w)) w);;
      match last (cstr input) with
      | None => mret tt
      | Some c =>
          whenM (c =? ch_slash)
            (f ← (c' ← gets w_cl; entry (c_remote c') (at2 (selected (c_app c')) true));
             lift_ (fun c => i ← append_after_slash (c_input c) (fname f) (ftype f =? TYPE_APPVAR);
                             Some (set_c_input i c)));;
          set (set_remote_new_path (Some P_input));;
          set (set_done_fn (Some ftp_MoveCallback_cb));;
          set_app (set_busy true);;
          _ ← lwftp_move (ops := ops) env;
          mret tt
      end.

(** Wait for the end of a transfer, or Clear. *)
Definition wait_transfer (clear : bool) : M unit :=
  n ← scans_left; wait_busy service (S (S n)) clear.

(** [clear]: whether Clear is down in the current scan. *)
Definition util_UploadFile (clear : bool) : M unit :=
  c ← gets w_cl;
  if remoteColumn (c_app c) then mret tt
  else
    message "Uploading file...";;
    f ← entry (c_local c) (at2 (selected (c_app c)) false);
    select_path f;;
    lift_ (fun c =>
      let type := if ftype f =? TYPE_APPVAR then OS_TYPE_APPVAR else OS_TYPE_PRGM in
      v ← ti_OpenVar_r (c_os c) (fname f) type;
      '(buf, size) ← upload_image (c_buffer c) (fname f) v;
      Some (with_app (fun a => set_busy true (set_txOffset 0 (set_txSize size a)))
              (set_c_buffer buf c)));;
    set (set_data_source (Some ftp_StorDataSource_cb));;
    set (set_done_fn (Some ftp_StorCallback_cb));;
    _ ← lwftp_store (ops := ops) env;
    wait_transfer clear;;
    set_app (set_dirty ALL_DIRTY).

Definition util_DownloadFile (clear : bool) : M unit :=
  c ← gets w_cl;
  if negb (remoteColumn (c_app c)) then mret tt
  else
    message "Downloading file...";;
    f ← entry (c_remote c) (at2 (selected (c_app c)) true);
    select_path f;;
    lift_ (fun c =>
      buf ← store0 (c_buffer c) 0 (Z.to_nat 65535);
      Some (with_app (fun a => set_busy true (set_rxOffset 0 a)) (set_c_buffer buf c)));;
    set (set_data_sink (Some ftp_RetrDataSink_cb));;
    set (set_done_fn (Some ftp_RetrCallback_cb));;
    _ ← lwftp_retrieve (ops := ops) env;
    wait_transfer clear;;
    cut_path;;
    set_app (set_dirty ALL_DIRTY);;
    set (set_done_fn None).

(** ** The main loop *)

(** Up: to the previous entry, wrapping to the last. *)
Definition cursor_up (a : app_t) : app_t :=
  let col := remoteColumn a in
  let sel := at2 (selected a) col in
  let n := at2 (total a) col in
  let a :=
    if negb (sel =? 0) then
      let sel := sel - 1 in
      let a := set_selected (upd2 col sel (selected a)) a in
      if sel <? at2 (start a) col then set_start (upd2 col (u24 (at2 (start a) col - 1)) (start a)) a
      else a
    else
      let a := set_selected (upd2 col (u24 (n - 1)) (selected a)) a in
      if n >? MAX_SHOWN_FILES then set_start (upd2 col (n - MAX_SHOWN_FILES) (start a)) a else a in
  set_dirty (Z.lor (dirty a) (if col then REMOTE_DIRTY else LOCAL_DIRTY)) a.

(** Down: to the next entry, wrapping to the first. *)
Definition cursor_down (a : app_t) : app_t :=
  let col := remoteColumn a in
  let sel := at2 (selected a) col in
  let a :=
    if negb (sel =? u24 (at2 (total a) col - 1)) then
      let sel := u24 (sel + 1) in
      let a := set_selected (upd2 col sel (selected a)) a in
      if sel >? u24 (at2 (start a) col + MAX_SHOWN_FILES - 1)
      then set_start (upd2 col (u24 (at2 (start a) col + 1)) (start a)) a
      else a
    else set_start (upd2 col 0 (start a)) (set_selected (upd2 col 0 (selected a)) a) in
  set_dirty (Z.lor (dirty a) (if col then REMOTE_DIRTY else LOCAL_DIRTY)) a.

Definition switch_column (a : app_t) : app_t :=
  set_dirty (Z.lor (dirty a) (Z.lor LOCAL_DIRTY REMOTE_DIRTY)) (set_remoteColumn (negb (remoteColumn a)) a).

Definition cursor (k : keys) (a : app_t) : app_t :=
  if k_left k || k_right k then switch_column a
  else if k_up k then cursor_up a
  else if k_down k then cursor_down a
  else a.

(** Enter a directory: the entry of the remote table at the cursor of the
    current column, if it is one and its name fits the path. *)
Definition open_dir : M unit :=
  c ← gets w_cl;
  let a := c_app c in
  f ← entry (c_remote c) (at2 (selected a) (remoteColumn a));
  lift_ (fun c =>
    let p := path (c_app c) in
    let n := length (cstr p) in
    p ← put p (Z.of_nat n) ch_slash;
    p ← store p (n + 1) (fname f);
    Some (with_app (set_path p) c));;
  util_ChangeDir;;
  set_app (fun a => set_dir (u8 (dir a + 1)) a).

Definition can_open_dir : M bool :=
  c ← gets w_cl;
  let a := c_app c in
  f ← entry (c_remote c) (at2 (selected a) (remoteColumn a));
  mret ((ftype f =? TYPE_DIR) && (u24 (Z.of_nat RX_BUF_SIZE - Z.of_nat (length (cstr (path a)))) >? 8)).

(** The action keys; the remote table is consulted only when 2nd is down. *)
Definition action_key (k : keys) : M unit :=
  opens ← (if k_2nd k then can_open_dir else mret false);
  a ← get_app;
  if (opens : bool) then open_dir
  else if k_yequ k && negb (dir a =? 0) then
    cut_path;;
    util_ChangeDir;;
    set_app (fun a => set_dir (u8 (dir a - 1)) a)
  else if k_window k then util_UploadFile (k_clear k)
  else if k_zoom k then util_DeleteFile
  else if k_trace k then util_DownloadFile (k_clear k)
  else if k_graph k then util_MoveFile
  else mret tt.

(** One iteration of the main loop on the scan [k]. *)
Definition main_step (k : keys) (pressed : bool) : M bool :=
  a ← get_app;
  whenM (negb (dirty a =? 0)) menu_UpdateMain;;
  let pressed := if negb (any_key k) && pressed then false else pressed in
  if (kb_Data7 k || kb_Data1 k) && (negb pressed || k_repeat k) then
    set_app (cursor k);;
    a ← get_app;
    whenM (ftpStarted a && negb (busy a)) (action_key k);;
    menu_UpdateMain;;
    util_WaitBeforeKeypress service pressed
  else mret pressed.

Fixpoint main_loop (fuel : nat) (cur : keys) (pressed : bool) : M unit :=
  match fuel with
  | O => fail F_fuel
  | S f =>
      if k_clear cur then mret tt
      else
        service;;
        k ← kb_Scan;
        pressed ← main_step k pressed;
        main_loop f k pressed
  end.

(** ** main *)

(** The parts of the platform [main] starts, and whether they come up. *)
Record platform := mk_platform {
  start_lwip : bool;          (** [main_StartLwIP] *)
  wait_for_ip : nat -> bool;  (** whether [netif_default] is there at a tick *)
  log_in_polls : nat;         (** polls before the log-in loop is given up *)
  shutdown_polls : nat        (** polls within one second *)
}.

(** [main_WaitForIP]: polls until there is an interface, Clear or the tick
    limit; the address set must not be 0.0.0.0. *)
Fixpoint main_WaitForIP (pl : platform) (tick : nat) (left : nat) : M bool :=
  match left with
  | O => mret false
  | S left' =>
      service;;
      k ← kb_Scan;
      c ← gets w_cl;
      let addr := client (c_prefs c) in
      if wait_for_ip pl tick then
        mret (negb (ip_addr4 (nth 0 addr 0) (nth 1 addr 0) (nth 2 addr 0) (nth 3 addr 0) =? 0))
      else if k_clear k then mret false
      else main_WaitForIP pl (S tick) left'
  end.

(** Poll until the log-in has succeeded or failed. *)
Fixpoint log_in_loop (fuel : nat) : M unit :=
  match fuel with
  | O => fail F_fuel
  | S f =>
      a ← get_app;
      if negb (ftpStarted a) && (ftpResult a =? LWFTP_RESULT_INPROGRESS)
      then service;; log_in_loop f else mret tt
  end.

(** Poll for at most a second until the session is closed. *)
Fixpoint shutdown_loop (n : nat) : M unit :=
  match n with
  | O => mret tt
  | S n' =>
      s ← sess;
      if decide (control_state s = LWFTP_CLOSED) then mret tt else service;; shutdown_loop n'
  end.

(** The session [main] opens. *)
Definition open_session (server : bytes) : lwftp_session_t :=
  mk_session (ip_addr4 (nth 0 server 0) (nth 1 server 0) (nth 2 server 0) (nth 3 server 0)) 21
    (Some P_path) None (Some P_user) (Some P_pass) (Some tt) None None
    (Some ftp_ConnectCallback_cb) 0 LWFTP_CLOSED LWFTP_CLOSED LWFTP_CLOSED None None.

Definition exit_ : M Z :=
  modify (fun w => upd_cl (util_WriteConfig (w_cl w)) w);;
  a ← get_app;
  mret (ftpResult a).

Definition main (pl : platform) : M Z :=
  _ ← lift util_ReadConfig;
  lift_ util_GetLocalFiles;;
  left1 ← menu_ClientConfig service;
  if left1 : bool then exit_ else
  '(left2, server) ← menu_ServerConfig service (replicate 4 0);
  if left2 : bool then exit_ else
  if negb (start_lwip pl) then exit_ else
  message "Waiting for network...";;
  up ← main_WaitForIP pl 0 (Z.to_nat IP_WAIT_TICKS);
  if negb up then message "Bad client IP";; exit_ else
  set_app (set_app_connected true);;
  set (fun _ => open_session server);;
  message "Connecting to FTP...";;
  r ← lwftp_connect (ops := ops) env;
  if negb (r =? LWFTP_RESULT_INPROGRESS) then message "Connection failed";; exit_ else
  log_in_loop (log_in_polls pl);;
  a ← get_app;
  if negb (ftpStarted a) then exit_ else
  n ← scans_left;
  main_loop (S (S n)) no_keys false;;
  lwftp_close env;;
  shutdown_loop (shutdown_polls pl);;
  exit_.

End AppOps.
