(* ===== verification/AppSamples.v ===== *)
(** * A calculator to run the application on

    Variables as an association list, and the application's state as the
    program starts it, for the witnesses of the theorems on the application. *)

From S2P Require Import Prelude CLib Session AppState Callbacks.

(** A variable with the name and type it is stored under. *)
Record stored := mk_stored { st_name : bytes; st_type : Z; st_var : ti_var }.

Definition is_var (name : bytes) (type : Z) (v : stored) : bool :=
  bool_decide (cstr (st_name v) = cstr name) && (st_type v =? type).

Definition find_var (vars : list stored) (name : bytes) (type : Z) : option ti_var :=
  st_var <$> head (filter (fun v => is_var name type v = true) vars).

Definition without (vars : list stored) (name : bytes) (type : Z) : list stored :=
  filter (fun v => is_var name type v = false) vars.

#[global] Instance sample_os : TiOS := {|
  os := list stored;
  ti_DetectAny := map (fun v => (st_name v, st_type v));
  ti_OpenVar_r := find_var;
  ti_WriteVar := fun vars name type data arch =>
    mk_stored name type (mk_var type arch (bytes16 (Z.of_nat (length data))) data) :: without vars name type;
  ti_DeleteVar := without;
  util_SortVAT := fun vars => vars
|}.

Definition app_start : app_t :=
  mk_app ALL_DIRTY false (0, 0) (0, 0) (0, 0) 0 false false false LWFTP_RESULT_INPROGRESS 0 0
    (replicate 257 0) (replicate 257 0) 0.

Definition prefs_start : preferences_t :=
  mk_prefs 255 148 222 0 (replicate 4 0) (replicate 4 0) (replicate 4 0).

Definition pad8 (s : string) : bytes := str s ++ replicate (8 - length (str s)) 0.

Definition sample_vars : list stored :=
  [ mk_stored (pad8 "NOTES") OS_TYPE_APPVAR (mk_var OS_TYPE_APPVAR true [3; 0] [1; 2; 3]);
    mk_stored (pad8 "GAME") OS_TYPE_PRGM (mk_var OS_TYPE_PRGM false [2; 0] [9; 9]) ].

(** The calculator with the buffer of [n] bytes. *)
Definition calc_start (n : nat) : calc :=
  mk_calc app_start prefs_start (replicate 32 0) (replicate 32 0) (replicate 64 0)
    (replicate n 0) (replicate (Z.to_nat MAX_LOCAL_FILES) no_file)
    (replicate (Z.to_nat MAX_REMOTE_FILES) no_file) sample_vars [] [].

Definition closed_session : lwftp_session_t :=
  mk_session 0 0 None None None None None None None None 0
    LWFTP_CLOSED LWFTP_CLOSED LWFTP_CLOSED None None.

Definition app_world (c : calc) : world := mk_world closed_session ∅ 0%nat [] c.
