(* ===== verification/AppSafety.v ===== *)
(** * The application satisfies the contract of the library

    [ftp_ops] is an instance of [ClientLaws]: every callback of ftp.c keeps the
    session invariant, whatever it is told, and the data callbacks touch the
    application's state only.  The theorems on lwftp.c therefore hold of the
    whole program, and of the network it polls ([poll]). *)

From S2P Require Import Prelude CLib Session Lwftp SessionInv LwftpSafety LwftpSystem.
From S2P Require Import AppState Callbacks Utility App Menu AppOps.

(** Setting the fields of the user interface. *)
Section Edits.
Context `{Client}.
Implicit Types (w : world).

Lemma sess_inv_fields f w :
  client_edit (w_sess w) (f (w_sess w)) -> sess_inv w -> sess_inv (upd_sess f w).
Proof. intros He Hi. by apply sess_inv_edit. Qed.

Lemma sess_inv_set_data_sink v w : sess_inv w -> sess_inv (upd_sess (set_data_sink v) w).
Proof. by apply sess_inv_fields. Qed.
Lemma sess_inv_set_data_source v w : sess_inv w -> sess_inv (upd_sess (set_data_source v) w).
Proof. by apply sess_inv_fields. Qed.
Lemma sess_inv_set_done_fn v w : sess_inv w -> sess_inv (upd_sess (set_done_fn v) w).
Proof. by apply sess_inv_fields. Qed.
Lemma sess_inv_set_remote_path v w : sess_inv w -> sess_inv (upd_sess (set_remote_path (Some v)) w).
Proof. by apply sess_inv_fields. Qed.
Lemma sess_inv_set_remote_new_path v w :
  sess_inv w -> sess_inv (upd_sess (set_remote_new_path (Some v)) w).
Proof. by apply sess_inv_fields. Qed.
Lemma sess_inv_upd_cl c w : sess_inv w -> sess_inv (upd_cl c w).
Proof. done. Qed.

End Edits.

#[export] Hint Resolve sess_inv_set_data_sink sess_inv_set_data_source sess_inv_set_done_fn
  sess_inv_set_remote_path sess_inv_set_remote_new_path sess_inv_upd_cl : lwftp.

(** ** Computations that keep an invariant of the application's world *)

(** An invariant that does not depend on the application's own state. *)
Class Stable `{Client} (I : world -> Prop) : Prop :=
  stable_cl : forall c w, I w -> I (upd_cl c w).

#[export] Instance sess_inv_stable `{Client} : Stable sess_inv.
Proof. by intros c w. Qed.

(** No connection is open or being opened. *)
Definition idle_session `{Client} (w : world) : Prop :=
  sess_inv w /\ control_state (w_sess w) = LWFTP_CLOSED /\
  control_pcb (w_sess w) = None /\ data_pcb (w_sess w) = None.

#[export] Instance idle_session_stable `{Client} : Stable idle_session.
Proof. by intros c w. Qed.

(** Stops only with a fault of the application, and keeps [I]. *)
Definition keeps `{Client} (I : world -> Prop) {A} (m : M A) : Prop :=
  forall w, I w -> wp m client_fault (fun _ w' => I w') w.

Section Keeps.
Context `{TiOS} (I : world -> Prop) `{!Stable I}.

Lemma keeps_ret {A} (a : A) : keeps I (mret a).
Proof. by intros w Hi. Qed.

Lemma keeps_bind {A B} (m : M A) (k : A -> M B) :
  keeps I m -> (forall a, keeps I (k a)) -> keeps I (m ≫= k).
Proof. intros Hm Hk w Hi. apply wp_bind. eapply wp_mono; [by apply Hm|]. intros a w' ?. by apply Hk. Qed.

Lemma keeps_if {A} (b : bool) (m1 m2 : M A) :
  keeps I m1 -> keeps I m2 -> keeps I (if b then m1 else m2).
Proof. by destruct b. Qed.

Lemma keeps_whenM b m : keeps I m -> keeps I (whenM b m).
Proof. intros Hm. destruct b; [done|apply keeps_ret]. Qed.

Lemma keeps_gets {A} (f : world -> A) : keeps I (gets f).
Proof. by intros w Hi. Qed.

Lemma keeps_lift {A} (f : calc -> option (A * calc)) : keeps I (lift f).
Proof.
  intros w Hi. unfold wp, lift. destruct (f (w_cl w)) as [[a c]|]; [by apply stable_cl|by left].
Qed.

Lemma keeps_lift_ f : keeps I (lift_ f).
Proof. apply keeps_lift. Qed.

Lemma keeps_upd f : keeps I (modify (fun w => upd_cl (f w) w)).
Proof. intros w Hi. by apply stable_cl. Qed.

Lemma keeps_set_app f : keeps I (set_app f).
Proof. apply keeps_upd. Qed.

Lemma keeps_deref {A} (o : option A) : keeps I (deref F_client o).
Proof. intros w Hi. destruct o; [done|by left]. Qed.

Lemma keeps_fuel {A} : keeps I (fail F_fuel : M A).
Proof. intros w Hi. by right. Qed.

Lemma keeps_sess : keeps I sess.
Proof. by intros w Hi. Qed.

Lemma keeps_kb_Scan : keeps I kb_Scan.
Proof.
  intros w Hi. unfold wp, kb_Scan. destruct (c_keys (w_cl w)); [by right|by apply stable_cl].
Qed.

End Keeps.

Lemma keeps_set `{Client} f :
  (forall w, sess_inv w -> sess_inv (upd_sess f w)) -> keeps sess_inv (set f).
Proof. intros Hf w Hi. by apply Hf. Qed.

Create HintDb keeps.
#[export] Hint Resolve keeps_ret keeps_gets keeps_lift keeps_lift_ keeps_set_app keeps_upd
  keeps_deref keeps_fuel keeps_sess keeps_kb_Scan : keeps.
#[export] Hint Extern 2 (keeps sess_inv (set _)) => (apply keeps_set; intros; auto with lwftp) : keeps.

(** Follow the structure of a computation. *)
Ltac keep :=
  repeat first
    [ progress eauto with keeps typeclass_instances nocore
    | apply keeps_bind; [|intro]
    | apply keeps_whenM
    | apply keeps_if
    | case_match ].

(** ** The interface functions, and the callbacks *)

Section Level.
Context `{TiOS} (env : tcp_env) (service : M unit) (Hservice : keeps sess_inv service).

Lemma keeps_service : keeps sess_inv service.
Proof. exact Hservice. Qed.

Hint Resolve keeps_service : keeps.

Lemma keeps_close : keeps sess_inv (lwftp_close env).
Proof. intros w Hi. by apply wp_close. Qed.

Section Ops.
Context (ops : @ClientOps app_client) (laws : @ClientLaws _ ops).

Lemma keeps_transfer tgt :
  tgt = LWFTP_RETR_SENT \/ tgt = LWFTP_STOR_SENT \/ tgt = LWFTP_MLSD_SENT ->
  keeps sess_inv (transfer (ops := ops) env tgt).
Proof. intros Ht w Hi. by apply wp_transfer. Qed.

Lemma keeps_mlsd : keeps sess_inv (lwftp_mlsd (ops := ops) env).
Proof. apply keeps_transfer. auto. Qed.
Lemma keeps_store : keeps sess_inv (lwftp_store (ops := ops) env).
Proof. apply keeps_transfer. auto. Qed.
Lemma keeps_retrieve : keeps sess_inv (lwftp_retrieve (ops := ops) env).
Proof. apply keeps_transfer. auto. Qed.
Lemma keeps_print_dir : keeps sess_inv (lwftp_print_dir (ops := ops) env).
Proof. intros w Hi. by apply wp_print_dir. Qed.
Lemma keeps_change_dir : keeps sess_inv (lwftp_change_dir (ops := ops) env).
Proof. intros w Hi. by apply wp_change_dir. Qed.
Lemma keeps_delete : keeps sess_inv (lwftp_delete (ops := ops) env).
Proof. intros w Hi. by apply wp_delete. Qed.
Lemma keeps_move : keeps sess_inv (lwftp_move (ops := ops) env).
Proof. intros w Hi. by apply wp_move. Qed.
Lemma keeps_connect : keeps sess_inv (lwftp_connect (ops := ops) env).
Proof. intros w Hi. by apply wp_connect. Qed.

Hint Resolve keeps_mlsd keeps_print_dir keeps_close : keeps.

Lemma keeps_GetRemoteFiles : keeps sess_inv (util_GetRemoteFiles env ops).
Proof. unfold util_GetRemoteFiles. keep. Qed.

Lemma keeps_GetDir : keeps sess_inv (util_GetDir env ops).
Proof. unfold util_GetDir. keep. Qed.

Lemma keeps_wait_key n : keeps sess_inv (wait_key service n).
Proof. induction n; simpl; keep. Qed.

Hint Resolve keeps_GetRemoteFiles keeps_GetDir keeps_wait_key : keeps.

Lemma keeps_run_done f h r : keeps sess_inv (run_done env service ops f h r).
Proof.
  destruct f; simpl;
    unfold ftp_ConnectCallback, ftp_ListCallback, ftp_PwdCallback, ftp_CwdCallback, ftp_DelCallback,
      ftp_MoveCallback, ftp_StorCallback, ftp_RetrCallback, failed, cut_path, message,
      wait_any_key, scans_left; keep.
Qed.

End Ops.

Lemma client_only_lift {A} (f : calc -> option (A * calc)) (Q : A -> Prop) w :
  (forall a c, f (w_cl w) = Some (a, c) -> Q a) ->
  wp (lift f) client_fault (fun a w' => client_only w w' /\ Q a) w.
Proof.
  intros HQ. unfold wp, lift. destruct (f (w_cl w)) as [[a c]|] eqn:E; [|by left].
  split; [done|by eapply HQ].
Qed.

Lemma source_offer b n c r d c' :
  ftp_StorDataSource b n c = Some (r, d, c') -> b = true -> r <> 0 ->
  exists l, d = Some l /\ (Z.to_nat r <= length l)%nat.
Proof.
  unfold ftp_StorDataSource. intros E -> Hr.
  match type of E with (if ?x then _ else _) = _ => destruct x eqn:E1 end; [by simplify_eq|].
  match type of E with (if ?x then _ else _) = _ => destruct x eqn:E2 end; [|done].
  simplify_eq. eexists. split; [done|]. rewrite length_drop. simpl in *. zbool.
  pose proof (u16_range n). unfold u16 in *.
  match goal with |- (Z.to_nat (?x mod _) <= _)%nat => pose proof (Z.mod_le x (2 ^ 16)) as Hle; set (y := x) in * end.
  assert (0 < y) by (subst y; ifs; zbool; lia).
  specialize (Hle ltac:(lia) ltac:(lia)). lia.
Qed.

#[export] Instance ftp_ops_laws n : @ClientLaws _ (ftp_ops env service n).
Proof.
  induction n as [|n IH]; split; intros f h.
  - intros r w Hi. by right.
  - intros d k w. eapply wp_mono; [apply (client_only_lift _ (fun _ => True)); done|]. by intros ? ? [? _].
  - intros b k w. apply client_only_lift. intros [r d] c' E Hb Hr. by eapply source_offer.
  - intros r w Hi. by apply keeps_run_done.
  - intros d k w. eapply wp_mono; [apply (client_only_lift _ (fun _ => True)); done|]. by intros ? ? [? _].
  - intros b k w. apply client_only_lift. intros [r d] c' E Hb Hr. by eapply source_offer.
Qed.

End Level.

(** ** Menus, operations and the main program *)

Section Menus.
Context `{TiOS} (I : world -> Prop) `{!Stable I} (service : M unit) (Hs : keeps I service).

Lemma keeps_serve : keeps I service.
Proof. exact Hs. Qed.

Hint Resolve keeps_serve : keeps.

Lemma keeps_WaitBeforeKeypress p : keeps I (util_WaitBeforeKeypress service p).
Proof. unfold util_WaitBeforeKeypress, get_app. keep. Qed.

Hint Resolve keeps_WaitBeforeKeypress : keeps.

Lemma keeps_input_loop n cur e : keeps I (input_loop service n cur e).
Proof. revert cur e. induction n; intros; simpl; keep. Qed.

Hint Resolve keeps_input_loop : keeps.

Lemma keeps_StringInput input : keeps I (menu_StringInput service input).
Proof. unfold menu_StringInput, scans_left. keep. Qed.

Hint Resolve keeps_StringInput : keeps.

Lemma keeps_config_loop entry n cur sc :
  (forall opt input server, keeps I (entry opt input server)) ->
  keeps I (config_loop service entry n cur sc).
Proof.
  intros He. revert cur sc. induction n; intros; simpl; [keep|]. unfold config_step. keep.
Qed.

Lemma keeps_ClientConfig : keeps I (menu_ClientConfig service).
Proof.
  unfold menu_ClientConfig, scans_left. keep. apply keeps_config_loop. intros.
  unfold client_entry. keep.
Qed.

Lemma keeps_ServerConfig server : keeps I (menu_ServerConfig service server).
Proof.
  unfold menu_ServerConfig, scans_left. keep. apply keeps_config_loop. intros.
  unfold server_entry. keep.
Qed.

Lemma keeps_WaitForIP pl tick n : keeps I (main_WaitForIP service pl tick n).
Proof. revert tick. induction n; intros; simpl; keep. Qed.

Lemma keeps_UpdateMain : keeps I menu_UpdateMain.
Proof.
  intros w Hi. unfold menu_UpdateMain. wp_go; [done|]. by apply stable_cl.
Qed.

End Menus.

Section Operations.
Context `{TiOS} (env : tcp_env) (service : M unit) (Hservice : keeps sess_inv service).

Lemma keeps_polling : keeps sess_inv service.
Proof. exact Hservice. Qed.

Hint Resolve keeps_polling keeps_StringInput keeps_UpdateMain keeps_WaitBeforeKeypress : keeps.
Hint Resolve keeps_mlsd keeps_store keeps_retrieve keeps_print_dir keeps_change_dir keeps_delete
  keeps_move keeps_connect keeps_close ftp_ops_laws : keeps.

Lemma keeps_wait_busy n b : keeps sess_inv (wait_busy service n b).
Proof. revert b. induction n; intros; simpl; unfold get_app; keep. Qed.

Hint Resolve keeps_wait_busy : keeps.

Lemma keeps_ChangeDir : keeps sess_inv (util_ChangeDir env service).
Proof. unfold util_ChangeDir, the_ops. keep. Qed.

Lemma keeps_DeleteFile : keeps sess_inv (util_DeleteFile env service).
Proof. unfold util_DeleteFile, select_path, entry, the_ops. keep. Qed.

Lemma keeps_MoveFile : keeps sess_inv (util_MoveFile env service).
Proof. unfold util_MoveFile, select_path, entry, the_ops. keep. Qed.

Lemma keeps_UploadFile b : keeps sess_inv (util_UploadFile env service b).
Proof. unfold util_UploadFile, select_path, entry, the_ops, wait_transfer, scans_left, message. keep. Qed.

Lemma keeps_DownloadFile b : keeps sess_inv (util_DownloadFile env service b).
Proof.
  unfold util_DownloadFile, select_path, entry, the_ops, wait_transfer, scans_left, message, cut_path.
  keep.
Qed.

Hint Resolve keeps_ChangeDir keeps_DeleteFile keeps_MoveFile keeps_UploadFile keeps_DownloadFile : keeps.

Lemma keeps_main_step k p : keeps sess_inv (main_step env service k p).
Proof.
  unfold main_step, get_app, action_key, can_open_dir, open_dir, entry, cut_path, get_app. keep.
Qed.

Hint Resolve keeps_main_step : keeps.

Lemma keeps_main_loop n cur p : keeps sess_inv (main_loop env service n cur p).
Proof. revert cur p. induction n; intros; simpl; keep. Qed.

Lemma keeps_log_in_loop n : keeps sess_inv (log_in_loop service n).
Proof. induction n; simpl; unfold get_app; keep. Qed.

Lemma keeps_shutdown_loop n : keeps sess_inv (shutdown_loop service n).
Proof. induction n; simpl; keep. Qed.

Hint Resolve keeps_main_loop keeps_log_in_loop keeps_shutdown_loop : keeps.

Lemma keeps_exit (I : world -> Prop) `{!Stable I} : keeps I exit_.
Proof. unfold exit_, get_app. keep. Qed.

Hint Resolve keeps_exit : keeps.

(** From a session [main] has just set up. *)
Lemma idle_open_session server w :
  idle_session w -> sess_inv (upd_sess (fun _ => open_session server) w).
Proof.
  intros (((Hp & Hf & Hu) & Hr) & Est & Ec & Ed). split; [|done]. split; [|split].
  - destruct Hp as [Hc Hd Hrest Hn Hx]. split; simpl; try done.
    intros p t Ht _ _. eapply Hrest; [done|congruence..].
  - split; [done|]. by intros [? [=]].
  - by intros [?|?].
Qed.

Lemma keeps_then (I : world -> Prop) {A B} (m : M A) (k : A -> M B) (Q : B -> world -> Prop) w :
  keeps I m -> I w -> (forall a w', I w' -> wp (k a) client_fault Q w') ->
  wp (m ≫= k) client_fault Q w.
Proof. intros Hm Hi Hk. apply wp_bind. eapply wp_mono; [by apply Hm|]. intros a w' ?. by apply Hk. Qed.

(** [main] after the session has been set up. *)
Definition main_connected (pl : platform) : M Z :=
  message "Connecting to FTP...";;
  r ← lwftp_connect (ops := the_ops env service) env;
  if negb (r =? LWFTP_RESULT_INPROGRESS) then message "Connection failed";; exit_ else
  log_in_loop service (log_in_polls pl);;
  a ← get_app;
  if negb (ftpStarted a) then exit_ else
  n ← scans_left;
  main_loop env service (S (S n)) no_keys false;;
  lwftp_close env;;
  shutdown_loop service (shutdown_polls pl);;
  exit_.

Lemma keeps_main_connected pl : keeps sess_inv (main_connected pl).
Proof. unfold main_connected, message, get_app, scans_left, the_ops. keep. Qed.

Lemma wp_main pl w :
  keeps idle_session service -> idle_session w ->
  wp (main env service pl) client_fault (fun _ w' => sess_inv w') w.
Proof.
  intros Hidle Hi. unfold main.
  assert (Hexit : forall w', idle_session w' -> wp exit_ client_fault (fun _ w2 => sess_inv w2) w').
  { intros w' Hi'. apply keeps_exit; [apply _|]. by destruct Hi'. }
  assert (Hmsg : forall s, keeps idle_session (message s)) by (intros; unfold message; keep).
  eapply keeps_then; [apply keeps_lift, _|done|]. intros _ w1 H1.
  eapply keeps_then; [apply keeps_lift_, _|done|]. intros _ w2 H2.
  eapply keeps_then; [by apply keeps_ClientConfig; [apply _|]|done|]. intros [] w3 H3; [by apply Hexit|].
  eapply keeps_then; [by apply keeps_ServerConfig; [apply _|]|done|]. intros [[] server] w4 H4; [by apply Hexit|].
  wp_step; [by apply Hexit|].
  eapply keeps_then; [apply Hmsg|done|]. intros _ w5 H5.
  eapply keeps_then; [by apply keeps_WaitForIP; [apply _|]|done|]. intros [] w6 H6; simpl.
  2: { eapply keeps_then; [apply Hmsg|done|]. intros _ w7 H7. by apply Hexit. }
  eapply keeps_then; [apply keeps_set_app, _|done|]. intros _ w7 H7.
  apply wp_bind, wp_set. apply keeps_main_connected. by apply idle_open_session.
Qed.

End Operations.

(** ** The network

    Polling the network ([util_ServiceNetwork]: [usb_HandleEvents] and
    [sys_check_timeouts]) hands the events that have come in to the client,
    which may poll again from its callbacks. [net] is what comes in: at most [n] events
    at a time, each depending on everything that has happened. *)

Section Network.
Context `{TiOS} (env : tcp_env) (net : nat -> world -> option net_event).
Implicit Types (w : world).

Fixpoint poll (n : nat) : M unit := fun w =>
  match n with
  | O => Done tt w
  | S k =>
      match net k w with
      | None => Done tt w
      | Some e => (deliver (ops := the_ops env (poll k)) env e;; poll k) w
      end
  end.

(** The two provisos of a control reply, on all that comes in. *)
Definition net_ok : Prop :=
  forall k w e, sess_inv w -> net k w = Some e -> event_ok e w.

(** With no session, no event reaches the library's state. *)
Lemma keeps_idle_deliver (ops : @ClientOps app_client) (laws : @ClientLaws _ ops) e :
  keeps idle_session (deliver (ops := ops) env e).
Proof.
  intros w (Hi & Est & Ec & Ed).
  assert (Hok : event_ok e w).
  { destruct e as [| p [b|] err| |]; simpl; try done. congruence. }
  assert (Hs : wp (deliver (ops := ops) env e) client_fault
                 (fun _ w' => control_state (w_sess w') = LWFTP_CLOSED /\
                    control_pcb (w_sess w') = None /\ data_pcb (w_sess w') = None) w).
  { assert (Hidle : forall p t, w_pcbs w !! p = Some t -> idle_pcb t).
    { intros p t Ht. destruct Hi as [[Hp _] _]. eapply (po_rest _ _ _ Hp); [done|congruence..]. }
    unfold wp, deliver. destruct e as [p|p b err|p len|p err]; (destruct (w_pcbs w !! p) as [t|] eqn:Ht; [|done]);
      destruct (Hidle p t Ht) as (Er & Es & Ee & Hcn); rewrite ?Er, ?Es, ?Ee; case_decide; try done.
    - destruct (Hcn ltac:(done)) as [->|[-> ->]]; done.
    - unfold tcp_recv_null, tcp_recved, tcp_close, live, pbuf_free. destruct b; simpl.
      + unfold mbind, M_bind; simpl. by rewrite Ht.
      + destruct (err =? ERR_OK); [|done]. unfold mbind, M_bind; simpl. rewrite Ht.
        by destruct (env_close env (w_trace w) p =? ERR_OK). }
  pose proof (wp_deliver (laws := laws) env e (fun _ w' => sess_inv w') w Hi Hok (fun _ Hw => Hw)) as Hd.
  unfold wp in *. destruct (deliver env e w); [|done]. split; [done|tauto].
Qed.

Lemma keeps_deliver (service : M unit) e w :
  keeps sess_inv service -> sess_inv w -> event_ok e w ->
  wp (deliver (ops := the_ops env service) env e) client_fault (fun _ w' => sess_inv w') w.
Proof.
  intros Hs Hi He. by apply (wp_deliver (laws := ftp_ops_laws env service Hs 2) env e).
Qed.

Lemma keeps_poll n : net_ok -> keeps sess_inv (poll n).
Proof.
  intros Hn. induction n as [|k IH]; intros w Hi; [done|]. unfold wp at 1; simpl.
  destruct (net k w) as [e|] eqn:E; [|done].
  change (wp (deliver (ops := the_ops env (poll k)) env e;; poll k) client_fault (fun _ w' => sess_inv w') w).
  apply wp_bind. eapply wp_mono; [by apply keeps_deliver; [|done|eapply Hn]|].
  intros [] w' Hi'. by apply IH.
Qed.

Lemma keeps_idle_poll n : net_ok -> keeps idle_session (poll n).
Proof.
  intros Hn. induction n as [|k IH]; intros w Hi; [done|]. unfold wp at 1; simpl.
  destruct (net k w) as [e|] eqn:E; [|done].
  change (wp (deliver (ops := the_ops env (poll k)) env e;; poll k) client_fault (fun _ w' => idle_session w') w).
  apply wp_bind. eapply wp_mono.
  - apply keeps_idle_deliver; [|done]. by apply ftp_ops_laws, keeps_poll.
  - intros [] w' Hi'. by apply IH.
Qed.

End Network.
