(* ===== verification/AppCorrect.v ===== *)
(** * Correctness of the application as a whole

    Memory safety of the library under the whole program, and the depth of the
    mutual recursion between the library and the application's callbacks. *)

From S2P Require Import Prelude CLib Session Lwftp SessionInv LwftpSafety LwftpSystem.
From S2P Require Import AppState Callbacks Utility App Menu AppOps AppSamples AppSafety.

(** ** Depth of callbacks *)

(** The results an interface function reports before it returns. *)
Definition api_result (r : Z) : Prop :=
  r = LWFTP_RESULT_INPROGRESS \/ r = LWFTP_RESULT_ERR_ARGUMENT \/
  r = LWFTP_RESULT_ERR_MEMORY \/ r = LWFTP_RESULT_ERR_INTERNAL.

Section Depth.
Context `{TiOS} (env : tcp_env) (service : M unit).
Implicit Types (w : world).

Lemma bind_ext {A B} (m1 m2 : M A) (k1 k2 : A -> M B) w :
  m1 w = m2 w -> (forall a w', k1 a w' = k2 a w') -> (m1 ≫= k1) w = (m2 ≫= k2) w.
Proof. unfold mbind, M_bind. intros -> Hk. by destruct (m2 w). Qed.

Definition same_reports (o1 o2 : @ClientOps app_client) : Prop :=
  forall f h r w, api_result r -> call_done (ClientOps := o1) f h r w = call_done (ClientOps := o2) f h r w.

Ltac api_ext Ho :=
  repeat first
    [ reflexivity
    | apply bind_ext; [|intros ? ?]
    | case_match
    | apply Ho; unfold api_result; tauto ].

Lemma mlsd_ext o1 o2 w :
  same_reports o1 o2 -> lwftp_mlsd (ops := o1) env w = lwftp_mlsd (ops := o2) env w.
Proof. intros Ho. unfold lwftp_mlsd, lwftp_tcpip_callback, lwftp_start_MLSD. api_ext Ho. Qed.

Lemma print_dir_ext o1 o2 w :
  same_reports o1 o2 -> lwftp_print_dir (ops := o1) env w = lwftp_print_dir (ops := o2) env w.
Proof. intros Ho. unfold lwftp_print_dir, lwftp_tcpip_callback, lwftp_send_PWD. api_ext Ho. Qed.

(** A callback that is told of a call's own result calls no interface
    function that reports. *)
Lemma run_done_api o1 o2 f h r w :
  api_result r -> run_done env service o1 f h r w = run_done env service o2 f h r w.
Proof.
  intros Hr. destruct f; simpl;
    unfold ftp_ConnectCallback, ftp_ListCallback, ftp_PwdCallback, ftp_CwdCallback, ftp_DelCallback,
      ftp_MoveCallback, ftp_StorCallback, ftp_RetrCallback;
    destruct Hr as [->|[->|[->| ->]]]; reflexivity.
Qed.

Lemma run_done_ext o1 o2 f h r w :
  same_reports o1 o2 -> run_done env service o1 f h r w = run_done env service o2 f h r w.
Proof.
  intros Ho. destruct f; simpl;
    unfold ftp_ConnectCallback, ftp_ListCallback, ftp_PwdCallback, ftp_CwdCallback, ftp_DelCallback,
      ftp_MoveCallback, ftp_StorCallback, ftp_RetrCallback, util_GetRemoteFiles, util_GetDir;
    repeat first [ reflexivity | by apply mlsd_ext | by apply print_dir_ext
                 | apply bind_ext; [|intros ? ?] | case_match ].
Qed.

Lemma same_reports_level n m :
  same_reports (ftp_ops env service (S n)) (ftp_ops env service (S m)).
Proof. intros f h r w Hr. by apply run_done_api. Qed.

(** ** No fuel is missing *)

Definition fueled {A} (m : M A) : Prop := forall w, m w <> Fault F_fuel.

Lemma fueled_bind {A B} (m : M A) (k : A -> M B) :
  fueled m -> (forall a, fueled (k a)) -> fueled (m ≫= k).
Proof. intros Hm Hk w. unfold mbind, M_bind. specialize (Hm w). destruct (m w); [apply Hk|congruence]. Qed.

Lemma fueled_ret {A} (a : A) : fueled (mret a).
Proof. by intros w. Qed.
Lemma fueled_gets {A} (f : world -> A) : fueled (gets f).
Proof. by intros w. Qed.
Lemma fueled_modify f : fueled (modify f).
Proof. by intros w. Qed.
Lemma fueled_deref {A} f (o : option A) : f <> F_fuel -> fueled (deref f o).
Proof. intros Hf w. destruct o; [done|]. intros [=]. done. Qed.
Lemma fueled_lift {A} (f : calc -> option (A * calc)) : fueled (lift f).
Proof. intros w. unfold lift. by destruct (f _) as [[] |]. Qed.
Lemma fueled_live {A} p (k : tcp_pcb -> M A) : (forall t, fueled (k t)) -> fueled (live p k).
Proof. intros Hk w. unfold live. destruct (w_pcbs w !! p); [apply Hk|done]. Qed.

Lemma fueled_tcp_new : fueled (tcp_new env).
Proof. intros w. unfold tcp_new. by destruct (env_new _ _). Qed.

Lemma fueled_send_msg l : fueled (lwftp_send_msg env l).
Proof.
  apply fueled_bind; [apply fueled_gets|]. intros s. unfold tcp_write.
  destruct (control_pcb s); [|apply fueled_ret]. by apply fueled_live.
Qed.

Lemma fueled_send_lit l : fueled (send_lit env l).
Proof. apply fueled_bind; [apply fueled_send_msg|]. intros. apply fueled_ret. Qed.

Lemma fueled_tcp_output o : fueled (tcp_output o).
Proof.
  apply fueled_bind; [by apply fueled_deref|]. intros p. by apply fueled_live.
Qed.

Create HintDb fueled.
Hint Resolve fueled_ret fueled_gets fueled_modify fueled_lift fueled_tcp_new fueled_send_lit
  fueled_tcp_output : fueled.
Hint Extern 1 (fueled (deref _ _)) => (apply fueled_deref; discriminate) : fueled.
Hint Extern 1 (fueled (set _)) => apply fueled_modify : fueled.
Hint Extern 1 (fueled (set_app _)) => apply fueled_modify : fueled.
Hint Extern 1 (fueled sess) => apply fueled_gets : fueled.
Hint Extern 1 (fueled (lift_ _)) => apply fueled_lift : fueled.

Ltac fuel := repeat first [ progress eauto with fueled nocore | apply fueled_bind; [|intro] | case_match ].

Lemma fueled_close : fueled (lwftp_close env).
Proof. unfold lwftp_close, lwftp_tcpip_callback, lwftp_send_QUIT, whenM. fuel. Qed.

Hint Resolve fueled_close : fueled.

(** Told of a call's own result, a callback needs no level below it. *)
Lemma fueled_run_done_api o f h r : api_result r -> fueled (run_done env service o f h r).
Proof.
  intros Hr. destruct f; simpl;
    unfold ftp_ConnectCallback, ftp_ListCallback, ftp_PwdCallback, ftp_CwdCallback, ftp_DelCallback,
      ftp_MoveCallback, ftp_StorCallback, ftp_RetrCallback, failed, cut_path;
    destruct Hr as [->|[->|[->| ->]]]; simpl; fuel.
Qed.

Lemma fueled_done n r : api_result r -> fueled (done (ops := ftp_ops env service (S n)) r).
Proof.
  intros Hr. unfold done. apply fueled_bind; [apply fueled_gets|]. intros s.
  destruct (done_fn s); [by apply fueled_run_done_api|apply fueled_ret].
Qed.

Hint Extern 1 (fueled (done _)) => (apply fueled_done; unfold api_result; repeat case_match; tauto) : fueled.

Lemma fueled_mlsd n : fueled (lwftp_mlsd (ops := ftp_ops env service (S n)) env).
Proof. unfold lwftp_mlsd, lwftp_tcpip_callback, lwftp_start_MLSD, api_exit. fuel. Qed.

Lemma fueled_print_dir n : fueled (lwftp_print_dir (ops := ftp_ops env service (S n)) env).
Proof. unfold lwftp_print_dir, lwftp_tcpip_callback, lwftp_send_PWD, api_exit. fuel. Qed.

Hint Resolve fueled_mlsd fueled_print_dir : fueled.

Lemma fueled_run_done n f h r :
  f <> ftp_RetrCallback_cb -> fueled (run_done env service (ftp_ops env service (S n)) f h r).
Proof.
  intros Hf. destruct f; try done; simpl;
    unfold ftp_ConnectCallback, ftp_ListCallback, ftp_PwdCallback, ftp_CwdCallback, ftp_DelCallback,
      ftp_MoveCallback, ftp_StorCallback, failed, cut_path, message, util_GetRemoteFiles, util_GetDir; fuel.
Qed.

End Depth.

(** C40. The application's callbacks and the interface functions they call
    nest at most two deep: with any more fuel every callback behaves exactly
    as with [the_ops], and no callback but the one of a finished download,
    which waits for a key, can run out of it. *)
Theorem callback_depth `{TiOS} env service n f h r w :
  call_done (ClientOps := ftp_ops env service (2 + n)) f h r w =
  call_done (ClientOps := the_ops env service) f h r w /\
  (f <> ftp_RetrCallback_cb ->
   call_done (ClientOps := the_ops env service) f h r w <> Fault F_fuel).
Proof.
  split.
  - change (run_done env service (ftp_ops env service (S n)) f h r w =
            run_done env service (ftp_ops env service 1) f h r w).
    apply run_done_ext. exact (same_reports_level env service n 0).
  - intros Hf. exact (fueled_run_done env service 0 f h r Hf w).
Qed.

(** C7. The whole program with its network, from an idle session: [main], whose
    polling hands it any number of connections, packets, acknowledgements and
    errors in any order, never makes the FTP library use a null or released
    connection, call a missing callback, use a missing string or read past a
    packet, and it leaves a well-formed session. The provisos are those of a
    single event: a packet on the control connection can be parsed within its
    bounds, and a 150 reply to STOR finds the data connection alive. A run may
    also end in a fault of the application's own functions, or unfinished when
    the keys or the polls given to it run out. *)
Theorem main_safe `{TiOS} env net n pl w :
  net_ok net -> idle_session w ->
  match main env (poll env net n) pl w with
  | Done _ w' => sess_inv w'
  | Fault f => client_fault f
  end.
Proof.
  intros Hn Hi. apply (wp_main env (poll env net n)); [by apply keeps_poll|by apply keeps_idle_poll|done].
Qed.

(** ** Witnesses *)

Definition plain_env : tcp_env := mk_env (fun _ => true) (fun _ _ _ _ => ERR_OK)
  (fun _ _ _ => ERR_OK) (fun _ _ => ERR_OK) (fun _ _ => 512).

Definition key_enter : keys :=
  mk_keys false true false false false false false false false false false false false false false
    [] false.

Definition key_clear : keys :=
  mk_keys true false false false false false false false false false false false false false false
    [] false.

(** Both setup screens confirmed, a network interface at once, the client
    address 10.0.0.2; Clear ends the program. *)
Definition first_run : world :=
  app_world (set_c_keys [key_enter; no_keys; key_enter; no_keys; no_keys; no_keys; key_clear]
    (set_c_prefs (mk_prefs 255 148 222 0 [10; 0; 0; 2] (replicate 4 0) (replicate 4 0)) (calc_start 0))).

Lemma idle_first_run : idle_session first_run.
Proof. split; [|done]. by apply initial_inv. Qed.

(** A server that greets, asks for the password, logs the user in, refuses
    transfers and says goodbye. *)
Definition server_reply (st : lwftp_state_t) : option string :=
  match st with
  | LWFTP_CONNECTED => Some "220 ready"
  | LWFTP_USER_SENT => Some "331 password"
  | LWFTP_PASS_SENT => Some "230 in"
  | LWFTP_TYPE_SENT => Some "200 ok"
  | LWFTP_PASV_SENT => Some "421 no"
  | LWFTP_QUIT_SENT => Some "221 bye"
  | _ => None
  end.

Definition sample_net (k : nat) (w : world) : option net_event :=
  p ← control_pcb (w_sess w);
  t ← w_pcbs w !! p;
  if decide (pstate t = PCB_SYN_SENT) then Some (N_connected p)
  else r ← server_reply (control_state (w_sess w));
       Some (N_recv p (Some (mk_pbuf (str r ++ crlf) [])) ERR_OK).

Lemma sample_net_ok : net_ok sample_net.
Proof.
  intros k w e _ E. unfold sample_net in E. simplify_option_eq; [done|]. intros _ _.
  destruct (control_state (w_sess w)) eqn:Est; simplify_eq/=;
    (eexists _, _; split; [vm_compute; reflexivity|]; unfold response_ok; rewrite Est;
     split_and!; [by eexists|discriminate..]).
Qed.

Definition sample_platform : platform := mk_platform true (fun _ => true) 5 5.

Lemma main_safe_witness :
  match main plain_env (poll plain_env sample_net 3) sample_platform first_run with
  | Done _ w' => sess_inv w'
  | Fault f => client_fault f
  end.
Proof. apply (main_safe plain_env sample_net 3 sample_platform first_run sample_net_ok idle_first_run). Defined.

(** The whole dialogue: log-in, a listing the server refuses, QUIT. *)
Example first_run_ends :
  match main plain_env (poll plain_env sample_net 3) sample_platform first_run with
  | Done _ w' => control_state (w_sess w') = LWFTP_CLOSED /\ In (str "Logged in") (c_screen (w_cl w')) /\
      In (E_write 0 (str "QUIT" ++ crlf) ERR_OK) (w_trace w')
  | Fault _ => False
  end.
Proof. vm_compute. tauto. Qed.

Lemma callback_depth_witness :
  call_done (ClientOps := ftp_ops plain_env (mret tt) 7) ftp_ConnectCallback_cb (Some tt)
    LWFTP_RESULT_LOGGED first_run =
  call_done (ClientOps := the_ops plain_env (mret tt)) ftp_ConnectCallback_cb (Some tt)
    LWFTP_RESULT_LOGGED first_run /\
  (ftp_ConnectCallback_cb <> ftp_RetrCallback_cb ->
   call_done (ClientOps := the_ops plain_env (mret tt)) ftp_ConnectCallback_cb (Some tt)
     LWFTP_RESULT_LOGGED first_run <> Fault F_fuel).
Proof. exact (callback_depth plain_env (mret tt) 5 ftp_ConnectCallback_cb (Some tt) LWFTP_RESULT_LOGGED first_run). Defined.
