(* ===== verification/Listing.v ===== *)
(** * Directory listings: the sink refines a line-by-line parser

    [ftp_ListDataSink] is fed the listing in whatever pieces the network
    delivers.  Its abstract counterpart keeps the entries found so far and the
    unfinished line; the sink's buffer, offset and table implement it, so the
    table that results depends on the text of the listing only. *)

From S2P Require Import Prelude CLib Session AppState Callbacks AppSamples.

(** ** The abstract parser *)

Definition blank_name : bytes := replicate 9 0.

(** The entry a line of a listing describes, if it is of a kind shown. *)
Definition parse_line (line : bytes) : option file_t :=
  match find_char line ch_space, strstr line (str "type=") with
  | Some name, Some type =>
      let t := entry_type (drop 5 type) (drop 1 name) in
      if t =? TYPE_UNKNOWN then None
      else Some (mk_file t (copy_name 8 (t =? TYPE_DIR) (drop 1 name) blank_name))
  | _, _ => None
  end.

(** A line without its final carriage return. *)
Definition chomp (line : bytes) : bytes :=
  match last line with
  | Some c => if c =? ch_cr then take (length line - 1) line else line
  | None => line
  end.

(** The table has room for [MAX_REMOTE_FILES] entries; later ones are
    dropped. *)
Definition add_entry (entries : list file_t) (line : bytes) : list file_t :=
  if Z.of_nat (length entries) >=? MAX_REMOTE_FILES then entries
  else match parse_line (chomp line) with Some f => entries ++ [f] | None => entries end.

Definition feed (st : list file_t * bytes) (ch : Z) : list file_t * bytes :=
  let '(entries, partial) := st in
  if ch =? ch_lf then (add_entry entries partial, []) else (entries, partial ++ [ch]).

Definition listing (text : bytes) : list file_t * bytes := foldl feed ([], []) text.

(** Every line fits the buffer, counting from [n] characters of the first. *)
Fixpoint fits (n : nat) (text : bytes) : Prop :=
  match text with
  | [] => True
  | ch :: text' => if ch =? ch_lf then fits 0 text' else (n < RX_BUF_SIZE)%nat /\ fits (S n) text'
  end.

(** ** Strings in buffers *)

Lemma cstr_app_nul l r : Forall (fun x => x <> 0) l -> cstr (l ++ 0 :: r) = l.
Proof. induction 1 as [|x l Hx _ IH]; simpl; [done|]. ztest. by rewrite IH. Qed.

Lemma put_ok buf i v :
  0 <= i < Z.of_nat (length buf) ->
  put buf i v = Some (take (Z.to_nat i) buf ++ v :: drop (S (Z.to_nat i)) buf).
Proof.
  intros Hi. unfold put. ztest. simpl. rewrite insert_take_drop by lia. done.
Qed.

Lemma chomp_length line : (length (chomp line) <= length line)%nat.
Proof. unfold chomp. repeat case_match; try lia. rewrite length_take. lia. Qed.

Lemma chomp_prefix line : chomp line = take (length (chomp line)) line.
Proof.
  unfold chomp. destruct (last line) as [c|]; [|by rewrite firstn_all].
  destruct (c =? ch_cr); [|by rewrite firstn_all].
  by rewrite length_take, Nat.min_l by lia.
Qed.

Lemma chomp_no_nul line : Forall (fun x => x <> 0) line -> Forall (fun x => x <> 0) (chomp line).
Proof. intros Hl. rewrite chomp_prefix. by apply Forall_take. Qed.

(** ** The concrete state *)

Section Listing.
Context `{TiOS}.

(** The line as [ftp_AddRemoteFile] finds it. *)
Definition line_in (c : calc) (line : bytes) : Prop :=
  cstr (rxBuf (c_app c)) = line.

(** The table of [c], with this many entries. *)
Record table (c : calc) (entries : list file_t) : Prop := {
  t_total : snd (total (c_app c)) = Z.of_nat (length entries);
  t_room : Z.of_nat (length entries) <= MAX_REMOTE_FILES;
  t_table : take (length entries) (c_remote c) = entries;
  t_size : length (c_remote c) = Z.to_nat MAX_REMOTE_FILES;
  t_blank : Forall (fun f => fname f = blank_name) (drop (length entries) (c_remote c))
}.

(** The sink's state holds these entries and this unfinished line. *)
Record holds (c : calc) (entries : list file_t) (partial : bytes) : Prop := {
  h_offset : rxOffset (c_app c) = Z.of_nat (length partial);
  h_partial : take (length partial) (rxBuf (c_app c)) = partial;
  h_buf : length (rxBuf (c_app c)) = 257%nat;
  h_fits : (length partial <= RX_BUF_SIZE)%nat;
  h_no_nul : Forall (fun x => x <> 0) partial;
  h_table : table c entries
}.

Lemma table_slot c entries :
  table c entries -> Z.of_nat (length entries) < MAX_REMOTE_FILES ->
  exists f rest, drop (length entries) (c_remote c) = f :: rest /\ fname f = blank_name /\
    c_remote c !! length entries = Some f /\
    Forall (fun f => fname f = blank_name) rest /\
    forall g, <[length entries := g]> (c_remote c) = entries ++ g :: rest.
Proof.
  intros [T1 T2 T3 T4 T5] Hlt.
  destruct (lookup_lt_is_Some_2 (c_remote c) (length entries)) as [f Hf]; [lia|].
  exists f, (drop (S (length entries)) (c_remote c)).
  rewrite (drop_S _ _ _ Hf) in T5 |- *. inversion T5; subst. split_and!; try done.
  intros g. rewrite insert_take_drop by lia. by rewrite T3.
Qed.

Lemma add_remote_spec c entries line :
  table c entries -> line_in c (chomp line) ->
  table (ftp_AddRemoteFile c) (add_entry entries line) /\
  rxBuf (c_app (ftp_AddRemoteFile c)) = rxBuf (c_app c) /\
  rxOffset (c_app (ftp_AddRemoteFile c)) = rxOffset (c_app c).
Proof.
  intros Ht Hl. unfold ftp_AddRemoteFile, line_in in *. rewrite Hl.
  unfold add_entry, parse_line. pose proof Ht as [T1 T2 T3 T4 T5].
  unfold at2. rewrite T1.
  destruct (find_char (chomp line) ch_space) as [name|], (strstr (chomp line) (str "type=")) as [type|];
    try (split; [|done]; by case_match).
  destruct (Z.of_nat (length entries) >=? MAX_REMOTE_FILES) eqn:Eroom; [by split|]. zbool.
  destruct (table_slot c entries Ht Eroom) as (f & rest & Hd & Hf & Hlk & Hrest & Hins).
  rewrite Nat2Z.id, Hlk. simpl. rewrite Hf, !Hins.
  assert (length (c_remote c) = length (entries ++ f :: rest)) as Hlen by (by rewrite <- Hins, length_insert).
  rewrite length_app in Hlen. simpl in Hlen.
  set (t := entry_type (drop 5 type) (drop 1 name)).
  destruct (t =? TYPE_UNKNOWN) eqn:Et; simpl; (split; [|done]).
  - split; simpl; try done.
    + apply take_app_length.
    + rewrite length_app. simpl. lia.
    + rewrite drop_app_length. by constructor.
  - split; simpl.
    + rewrite length_app. simpl. rewrite u24_small; [lia|]. change MAX_REMOTE_FILES with 340 in *. lia.
    + rewrite length_app. simpl. lia.
    + rewrite (cons_middle _ entries rest), app_assoc. apply take_app_length.
    + rewrite length_app. simpl. lia.
    + rewrite (cons_middle _ entries rest), app_assoc, drop_app_length. done.
Qed.

Lemma get_last buf partial :
  take (length partial) buf = partial -> (length partial <= length buf)%nat ->
  partial <> [] -> exists x, get buf (Z.of_nat (length partial) - 1) = Some x /\ last partial = Some x.
Proof.
  intros Hp Hl Hne. destruct (last partial) as [x|] eqn:El; [|by apply last_None in El].
  exists x. split; [|done]. unfold get.
  assert (0 < length partial)%nat by (destruct partial; [done|simpl; lia]).
  ztest. rewrite last_lookup in El. rewrite <- Hp, lookup_take_lt in El by (rewrite length_take; lia).
  rewrite length_take, Nat.min_l in El by lia. rewrite <- El. f_equal. lia.
Qed.

(** The offset at which the terminator goes. *)
Lemma chomp_offset c entries partial prev :
  holds c entries partial ->
  (if Z.of_nat (length partial) =? 0 then Some 0
   else get (rxBuf (c_app c)) (Z.of_nat (length partial) - 1)) = Some prev ->
  (if negb (Z.of_nat (length partial) =? 0) && (prev =? ch_cr)
   then Z.of_nat (length partial) - 1 else Z.of_nat (length partial)) = Z.of_nat (length (chomp partial)).
Proof.
  intros [H1 H2 H3 H4 H5 H6] Hp. unfold RX_BUF_SIZE in *.
  destruct partial as [|x l] eqn:E; [done|]. rewrite <- E in *.
  assert (Z.of_nat (length partial) <> 0) as Hn by (rewrite E; simpl; lia).
  rewrite (proj2 (Z.eqb_neq _ _) Hn) in *. simpl.
  destruct (get_last (rxBuf (c_app c)) partial) as (y & Hy & Hl); [done|lia|congruence|].
  rewrite Hy in Hp. simplify_eq. unfold chomp. rewrite Hl. destruct (prev =? ch_cr); [|done].
  rewrite length_take. lia.
Qed.

Lemma list_char_spec c entries partial ch :
  holds c entries partial -> ch <> 0 ->
  (ch <> ch_lf -> (length partial < RX_BUF_SIZE)%nat) ->
  exists c', list_char ch c = Some (true, c') /\
    holds c' (fst (feed (entries, partial) ch)) (snd (feed (entries, partial) ch)).
Proof.
  intros Hh Hch Hfit. pose proof Hh as [H1 H2 H3 H4 H5 H6]. unfold list_char, feed. rewrite H1.
  destruct (ch =? ch_lf) eqn:Elf; zbool.
  - assert (exists prev, (if Z.of_nat (length partial) =? 0 then Some 0
      else get (rxBuf (c_app c)) (Z.of_nat (length partial) - 1)) = Some prev) as [prev Hprev].
    { destruct partial as [|x l] eqn:E; [by eexists|]. rewrite <- E in *.
      destruct (get_last (rxBuf (c_app c)) partial) as (y & Hy & _); [done|unfold RX_BUF_SIZE in *; lia|congruence|].
      rewrite (proj2 (Z.eqb_neq _ _)) by (rewrite E; simpl; lia). eauto. }
    rewrite Hprev. simpl. rewrite (chomp_offset c entries partial prev Hh Hprev).
    pose proof (chomp_length partial) as Hcl. unfold RX_BUF_SIZE in *.
    rewrite put_ok by lia. simpl. rewrite Nat2Z.id.
    set (n := length (chomp partial)) in *. set (buf := take n _ ++ _).
    assert (Hbuf : length buf = 257%nat).
    { subst buf. rewrite length_app, length_take. cbn [length]. rewrite length_drop. lia. }
    set (c1 := with_app _ c).
    assert (Ht1 : table c1 entries) by (by destruct H6).
    assert (Hl1 : line_in c1 (chomp partial)).
    { unfold line_in, c1. simpl. subst buf. replace (take n (rxBuf (c_app c))) with (chomp partial).
      - apply cstr_app_nul. by apply chomp_no_nul.
      - rewrite (chomp_prefix partial). fold n. rewrite <- H2 at 1. rewrite take_take. f_equal. lia. }
    destruct (add_remote_spec c1 entries partial Ht1 Hl1) as (Ht2 & Hb2 & _).
    eexists. split; [done|]. simpl. split; simpl; try done; [by rewrite Hb2|lia|].
    by destruct Ht2.
  - specialize (Hfit Elf). unfold RX_BUF_SIZE in *.
    rewrite (proj2 (Z.ltb_lt _ _)) by lia. rewrite put_ok by lia. simpl. rewrite Nat2Z.id.
    eexists. split; [done|]. split; simpl.
    + rewrite length_app. simpl. lia.
    + rewrite H2, length_app. simpl.
      rewrite (cons_middle ch partial), app_assoc. replace (length partial + 1)%nat with (length (partial ++ [ch])).
      * apply take_app_length.
      * rewrite length_app. simpl. lia.
    + rewrite length_app, length_take. cbn [length]. rewrite length_drop. lia.
    + rewrite length_app. unfold RX_BUF_SIZE. simpl. lia.
    + apply Forall_app. by repeat constructor.
    + by destruct H6.
Qed.

Lemma list_loop_spec data c entries partial :
  holds c entries partial -> Forall (fun x => x <> 0) data -> fits (length partial) data ->
  exists c', list_loop data c = Some (0, c') /\
    let st := foldl feed (entries, partial) data in holds c' (fst st) (snd st).
Proof.
  revert c entries partial. induction data as [|ch data IH]; intros c entries partial Hh Hnz Hf; simpl.
  { by eexists. }
  inversion Hnz as [|? ? Hch Hnz']; subst. simpl in Hf.
  destruct (list_char_spec c entries partial ch Hh Hch) as (c1 & E1 & Hh1).
  { intros Hne. rewrite (proj2 (Z.eqb_neq _ _) Hne) in Hf. tauto. }
  rewrite E1. simpl. destruct (feed (entries, partial) ch) as [e1 p1] eqn:Ef. simpl in *.
  rewrite Ef. apply IH; [done..|]. destruct (ch =? ch_lf); simplify_eq; [done|].
  rewrite length_app, Nat.add_1_r. tauto.
Qed.

(** What [util_GetRemoteFiles] leaves before the listing arrives. *)
Lemma holds_fresh c :
  rxOffset (c_app c) = 0 -> rxBuf (c_app c) = replicate 257 0 -> snd (total (c_app c)) = 0 ->
  c_remote c = replicate (Z.to_nat MAX_REMOTE_FILES) no_file -> holds c [] [].
Proof.
  intros E1 E2 E3 E4. split; simpl; rewrite ?E1, ?E2; try done; try (unfold RX_BUF_SIZE; lia).
  split; simpl; rewrite ?E3, ?E4; try done.
  rewrite drop_0. by apply Forall_replicate.
Qed.

(** The sink on a sequence of packets. *)
Fixpoint sink_packets (ps : list bytes) (c : calc) : option calc :=
  match ps with
  | [] => Some c
  | p :: ps' => '(_, c) ← ftp_ListDataSink (Some p) c; sink_packets ps' c
  end.

Lemma holds_dirty c entries partial f :
  holds c entries partial ->
  holds (with_app (fun a => set_dirty (f a) a) c) entries partial.
Proof. intros [H1 H2 H3 H4 H5 [T1 T2 T3 T4 T5]]. split; try done. Qed.

Lemma fits_app n a b :
  fits n (a ++ b) -> forall e p, length p = n -> fits n a /\ fits (length (snd (foldl feed (e, p) a))) b.
Proof.
  revert n. induction a as [|ch a IH]; intros n Hf e p Hp; simpl in *; [by rewrite Hp|].
  destruct (ch =? ch_lf) eqn:E.
  - destruct (IH 0%nat Hf (add_entry e p) [] eq_refl). by split.
  - destruct Hf as [Hn Hf]. destruct (IH (S n) Hf e (p ++ [ch])); [rewrite length_app; simpl; lia|].
    by repeat split.
Qed.

(** The table does not depend on how the listing is cut into packets. *)
Lemma sink_packets_spec ps c entries partial :
  holds c entries partial -> Forall (fun x => x <> 0) (concat ps) ->
  fits (length partial) (concat ps) ->
  exists c', sink_packets ps c = Some c' /\
    let st := foldl feed (entries, partial) (concat ps) in holds c' (fst st) (snd st).
Proof.
  revert c entries partial. induction ps as [|p ps IH]; intros c entries partial Hh Hnz Hf; simpl in *.
  { by eexists. }
  apply Forall_app in Hnz as [Hp Hps].
  destruct (fits_app _ _ _ Hf entries partial eq_refl) as [Hf1 Hf2].
  destruct (list_loop_spec p c entries partial Hh Hp Hf1) as (c1 & E1 & Hh1).
  rewrite E1. simpl in *. rewrite foldl_app.
  destruct (foldl feed (entries, partial) p) as [e1 p1]. simpl in *.
  apply IH; [|done..]. by apply holds_dirty.
Qed.

End Listing.

(** ** Whole lines *)

Lemma foldl_feed_line e p line :
  Forall (fun x => x <> ch_lf) line ->
  foldl feed (e, p) (line ++ [ch_lf]) = (add_entry e (p ++ line), []).
Proof.
  revert p. induction line as [|ch line IH]; intros p Hl; simpl; [by rewrite app_nil_r|].
  inversion Hl; subst. ztest. rewrite IH by done. by rewrite <- app_assoc.
Qed.

Lemma chomp_crlf line : chomp (line ++ [ch_cr]) = line.
Proof.
  unfold chomp. rewrite last_snoc. simpl. rewrite length_app. simpl.
  replace (length line + 1 - 1)%nat with (length line) by lia. by rewrite take_app_length.
Qed.

(** A listing of up to [MAX_REMOTE_FILES] recognised lines. *)
Lemma listing_lines lines e :
  Forall (Forall (fun x => x <> ch_lf)) lines ->
  Z.of_nat (length e + length (omap parse_line lines)) <= MAX_REMOTE_FILES ->
  foldl feed (e, []) (concat (map (fun l => l ++ [ch_cr; ch_lf]) lines)) =
  (e ++ omap parse_line lines, []).
Proof.
  revert e. induction lines as [|l lines IH]; intros e Hl Hn;
    [by rewrite app_nil_r|].
  change (omap parse_line (l :: lines)) with
    (match parse_line l with Some y => y :: omap parse_line lines | None => omap parse_line lines end) in *.
  inversion Hl as [|? ? Hl1 Hl2]; subst. cbn [map concat]. rewrite foldl_app.
  replace (l ++ [ch_cr; ch_lf]) with ((l ++ [ch_cr]) ++ [ch_lf]) by (by rewrite <- app_assoc).
  rewrite foldl_feed_line by (apply Forall_app; by repeat constructor).
  unfold add_entry. cbn [app]. rewrite chomp_crlf.
  destruct (parse_line l) as [f|] eqn:Ep; cbn [length] in *.
  - destruct (_ >=? _) eqn:E; zbool; [lia|]. rewrite IH; [by rewrite <- app_assoc|done|].
    rewrite length_app. cbn [length]. lia.
  - destruct (_ >=? _) eqn:E; by apply IH.
Qed.

Lemma fits_line n l rest :
  Forall (fun x => x <> ch_lf) l -> (n + length l <= RX_BUF_SIZE)%nat ->
  fits 0 rest -> fits n (l ++ ch_lf :: rest).
Proof.
  revert n. induction l as [|ch l IH]; intros n Hl Hn Hr; simpl; [done|].
  inversion Hl; subst. ztest. simpl in Hn. split; [lia|]. apply IH; [done|lia|done].
Qed.

Lemma fits_lines lines :
  Forall (fun l => Forall (fun x => x <> ch_lf) l /\ (length l < RX_BUF_SIZE)%nat) lines ->
  fits 0 (concat (map (fun l => l ++ [ch_cr; ch_lf]) lines)).
Proof.
  induction 1 as [|l lines [Hl Hn] _ IH]; [done|]. cbn [map concat].
  replace ((l ++ [ch_cr; ch_lf]) ++ concat (map (fun l => l ++ [ch_cr; ch_lf]) lines))
    with ((l ++ [ch_cr]) ++ ch_lf :: concat (map (fun l => l ++ [ch_cr; ch_lf]) lines))
    by (by rewrite <- !app_assoc).
  apply fits_line; [apply Forall_app; by repeat constructor| |done].
  rewrite length_app. cbn [length]. lia.
Qed.

(** C12. A listing is read correctly however the network cuts it.  For lines
    ended by CRLF, each shorter than [RX_BUF_SIZE] and without NUL characters,
    with at most [MAX_REMOTE_FILES] entries among them: fed any sequence of
    packets whose bytes are those of the lines, the sink leaves in the empty
    remote table exactly the entries of the recognised lines, in order, with
    their count. *)
Theorem listing_refines_lines `{TiOS} c lines packets :
  rxOffset (c_app c) = 0 -> rxBuf (c_app c) = replicate 257 0 -> snd (total (c_app c)) = 0 ->
  c_remote c = replicate (Z.to_nat MAX_REMOTE_FILES) no_file ->
  Forall (fun l => Forall (fun x => x <> ch_lf /\ x <> 0) l /\ (length l < RX_BUF_SIZE)%nat) lines ->
  Z.of_nat (length (omap parse_line lines)) <= MAX_REMOTE_FILES ->
  concat packets = concat (map (fun l => l ++ [ch_cr; ch_lf]) lines) ->
  exists c', sink_packets packets c = Some c' /\
    snd (total (c_app c')) = Z.of_nat (length (omap parse_line lines)) /\
    take (length (omap parse_line lines)) (c_remote c') = omap parse_line lines.
Proof.
  intros E1 E2 E3 E4 Hl Hn Hcat.
  assert (Hnz : Forall (fun x => x <> 0) (concat packets)).
  { rewrite Hcat. clear Hn Hcat. induction Hl as [|l lines [Hx _] _ IH]; [constructor|].
    cbn [map concat]. apply Forall_app. split; [|done]. apply Forall_app. split.
    - eapply Forall_impl; [done|]. by intros ? [].
    - by repeat constructor. }
  assert (Hf : Forall (fun l => Forall (fun x => x <> ch_lf) l /\ (length l < RX_BUF_SIZE)%nat) lines).
  { eapply Forall_impl; [exact Hl|]. intros l [Hx ?]. split; [|done].
    eapply Forall_impl; [done|]. by intros ? []. }
  destruct (sink_packets_spec packets c [] []) as (c' & Es & Hh); [by apply holds_fresh|done| |].
  { rewrite Hcat. by apply fits_lines. }
  exists c'. split; [done|]. rewrite Hcat, listing_lines in Hh; [|by eapply Forall_impl; [exact Hf|]; intros ? []|done].
  destruct Hh as [_ _ _ _ _ [T1 _ T3 _ _]]. done.
Qed.

Lemma listing_refines_lines_witness :
  exists c', sink_packets [str "type=dir; DO"; str "CS" ++ [13; 10] ++ str "type=file; A.8xp" ++ [13];
                           [10] ++ str "type=file; b.txt" ++ [13; 10]] (calc_start 10) = Some c' /\
    snd (total (c_app c')) = 2 /\
    take 2 (c_remote c') = [mk_file TYPE_DIR (str "DOCS" ++ replicate 5 0);
                            mk_file TYPE_PROG (str "A" ++ replicate 8 0)].
Proof.
  apply (listing_refines_lines (calc_start 10)
           [str "type=dir; DOCS"; str "type=file; A.8xp"; str "type=file; b.txt"]);
    try reflexivity.
  - repeat constructor; try (vm_compute; congruence); vm_compute; lia.
  - vm_compute. congruence.
Defined.

(** A line of more than [RX_BUF_SIZE] characters: with the buffer full, a
    packet that does not start with a line feed is thrown away whole, line
    feeds included, and leaves the sink as it was. *)
Theorem long_line_drops_packet `{TiOS} c ch data :
  rxOffset (c_app c) = Z.of_nat RX_BUF_SIZE -> ch <> ch_lf ->
  list_loop (ch :: data) c = Some (Z.of_nat (length data), c).
Proof.
  intros E Hne. simpl. unfold list_char. rewrite E. by ztest.
Qed.

Lemma long_line_drops_packet_witness :
  list_loop (str "x" ++ [13; 10] ++ str "type=dir; D" ++ [13; 10])
    (with_app (set_rxOffset 255) (calc_start 10)) =
  Some (15, with_app (set_rxOffset 255) (calc_start 10)).
Proof. apply long_line_drops_packet; [reflexivity|vm_compute; congruence]. Defined.
