(* ===== verification/Transfers.v ===== *)
(** * Uploads and downloads: the bytes that cross the data connection

    The upload source with the library's send loop transmits exactly the
    prepared image, one segment per acknowledgement, and then closes the
    connection; the download sink collects exactly the bytes received, up to
    the size of the buffer. *)

From S2P Require Import Prelude CLib Session Lwftp SessionInv LwftpSafety LwftpSystem ReplySpec.
From S2P Require Import AppState Callbacks Utility App AppSamples.

#[local] Arguments ftp_RetrDataSink : simpl never.
#[local] Arguments ftp_StorDataSource : simpl never.

(** ** Downloads *)

Lemma store_after d r x :
  (length x <= length r)%nat ->
  store (d ++ r) (length d) x = Some (d ++ x ++ drop (length x) r).
Proof.
  intros Hl. unfold store. rewrite decide_True by (rewrite length_app; lia).
  rewrite take_app_length. do 3 f_equal. by rewrite <- drop_drop, drop_app_length.
Qed.

Section Download.
Context `{TiOS}.

(** [data] has been received into a buffer of at least 65535 bytes. *)
Record received (c : calc) (data rest : bytes) : Prop := {
  rc_buffer : c_buffer c = data ++ rest;
  rc_offset : rxOffset (c_app c) = Z.of_nat (length data);
  rc_limit : (length data <= Z.to_nat 65535)%nat;
  rc_size : (Z.to_nat 65535 <= length data + length rest)%nat
}.

Lemma retr_sink_spec c data rest p :
  received c data rest -> Z.of_nat (length p) < 65536 ->
  exists c' rest', ftp_RetrDataSink (Some p) (Z.of_nat (length p)) c =
      Some (Z.of_nat (length (take (Z.to_nat 65535 - length data) p)), c') /\
    received c' (take (Z.to_nat 65535) (data ++ p)) rest'.
Proof.
  intros [B1 B2 B3 B4] Hp. unfold ftp_RetrDataSink. rewrite B1, B2.
  set (n := Z.to_nat 65535) in *. assert (Hn : Z.of_nat n = 65535) by (unfold n; lia).
  set (len := if _ >? _ then _ else _).
  assert (Hlen : len = Z.of_nat (Nat.min (n - length data) (length p))).
  { unfold len. rewrite u24_small by lia. ifs; zbool; [rewrite u16_small|]; lia. }
  rewrite Hlen, Nat2Z.id. clearbody len.
  rewrite (proj2 (Nat.ltb_ge _ _)) by lia. rewrite Nat2Z.id.
  assert (Htk : take (Nat.min (n - length data) (length p)) p = take (n - length data) p).
  { destruct (decide (length p <= n - length data)%nat).
    - rewrite !take_ge by lia. done.
    - f_equal. lia. }
  rewrite Htk, store_after by (rewrite length_take; lia). simpl.
  eexists _, _. split; [by rewrite length_take|]. rewrite take_app.
  rewrite (take_ge data) by lia.
  split; simpl.
  - by rewrite app_assoc.
  - rewrite length_app, length_take, u24_small; lia.
  - rewrite length_app, length_take. lia.
  - rewrite length_app, length_drop, !length_take. lia.
Qed.


(** The sink on a sequence of packets. *)
Fixpoint retr_packets (ps : list bytes) (c : calc) : option calc :=
  match ps with
  | [] => Some c
  | p :: ps' => '(_, c) ← ftp_RetrDataSink (Some p) (Z.of_nat (length p)) c; retr_packets ps' c
  end.

Lemma retr_packets_spec ps c data rest :
  received c data rest -> Forall (fun p => Z.of_nat (length p) < 65536) ps ->
  exists c' rest', retr_packets ps c = Some c' /\
    received c' (take (Z.to_nat 65535) (data ++ concat ps)) rest'.
Proof.
  intros Hr Hp. revert c data rest Hr. induction Hp as [|p ps Hlen _ IH]; intros c data rest Hr; simpl.
  - exists c, rest. rewrite app_nil_r, take_ge; [done|]. by destruct Hr.
  - destruct (retr_sink_spec c data rest p Hr Hlen) as (c1 & rest1 & E & Hr1). rewrite E. simpl.
    destruct (IH _ _ _ Hr1) as (c2 & rest2 & E2 & Hr2). exists c2, rest2. split; [done|].
    replace (take (Z.to_nat 65535) (data ++ p ++ concat ps)) with
      (take (Z.to_nat 65535) (take (Z.to_nat 65535) (data ++ p) ++ concat ps)); [done|].
    rewrite app_assoc. set (l := data ++ p). set (k := concat ps). set (n := Z.to_nat 65535).
    destruct (decide (length l <= n)%nat).
    + by rewrite (take_ge l) by lia.
    + rewrite !take_app, take_take, Nat.min_id, length_take.
      replace (n - Nat.min n (length l))%nat with O by lia.
      replace (n - length l)%nat with O by lia. done.
Qed.

End Download.

(** Whatever packets the server's bytes arrive in, the file buffer holds
    exactly the bytes received, in order, and [app.rxOffset] counts them; bytes
    after the first 65535 are dropped. *)
Theorem download_collects `{TiOS} c packets :
  rxOffset (c_app c) = 0 -> (Z.to_nat 65535 <= length (c_buffer c))%nat ->
  Forall (fun p => Z.of_nat (length p) < 65536) packets ->
  exists c', retr_packets packets c = Some c' /\
    let data := take (Z.to_nat 65535) (concat packets) in
    take (length data) (c_buffer c') = data /\
    rxOffset (c_app c') = Z.of_nat (length data).
Proof.
  intros E Hb Hp. destruct (retr_packets_spec packets c [] (c_buffer c)) as (c' & rest & E' & Hr).
  - split; [done|by rewrite E|simpl; lia|done].
  - done.
  - exists c'. split; [done|]. destruct Hr as [B1 B2 _ _]. simpl in *. rewrite B1. split; [|done].
    apply take_app_length.
Qed.

Lemma download_collects_witness :
  exists c', retr_packets [[1; 2]; [3]] (calc_start (Z.to_nat 65535)) = Some c' /\
    take 3 (c_buffer c') = [1; 2; 3] /\ rxOffset (c_app c') = 3.
Proof.
  apply (download_collects (calc_start (Z.to_nat 65535)) [[1; 2]; [3]]).
  - reflexivity.
  - unfold calc_start. cbn [c_buffer]. rewrite length_replicate. lia.
  - repeat constructor.
Defined.

(** ** Uploads *)

Section Upload.
Context `{TiOS} (env : tcp_env) (service : M unit).
Implicit Types (w : world).

Abbreviation ops := (the_ops env service).

(** An upload in progress on connection [d]: [off] bytes of the first
    [txSize] of the buffer are acknowledged. *)
Record uploading w (d : pcb) (off : Z) : Prop := {
  up_source : data_source (w_sess w) = Some ftp_StorDataSource_cb;
  up_data : data_pcb (w_sess w) = Some d;
  up_live : is_Some (w_pcbs w !! d);
  up_offset : txOffset (c_app (w_cl w)) = off;
  up_range : 0 <= off <= txSize (c_app (w_cl w));
  up_size : txSize (c_app (w_cl w)) <= Z.of_nat (length (c_buffer (w_cl w)));
  up_width : txSize (c_app (w_cl w)) < 2 ^ 24
}.

(** The source when [n] more bytes are acknowledged. *)
Lemma source_ack c n :
  0 <= n < 65536 -> 0 <= txOffset (c_app c) -> txOffset (c_app c) + n <= txSize (c_app c) < 2 ^ 24 ->
  ftp_StorDataSource false n c = Some (0, None, with_app (set_txOffset (txOffset (c_app c) + n)) c).
Proof.
  intros Hn H0 H1. unfold ftp_StorDataSource. rewrite u16_small by lia. rewrite u24_small by lia.
  destruct (_ >? _) eqn:E; zbool; [lia|]. done.
Qed.

(** The source when there is data left. *)
Lemma source_next c n :
  0 < n < 65536 -> 0 <= txOffset (c_app c) < txSize (c_app c) ->
  txSize (c_app c) <= Z.of_nat (length (c_buffer c)) -> txSize (c_app c) < 2 ^ 24 ->
  let len := Z.min n (txSize (c_app c) - txOffset (c_app c)) in
  ftp_StorDataSource true n c =
    Some (len, Some (drop (Z.to_nat (txOffset (c_app c))) (c_buffer c)),
          with_app (set_txOffset (txOffset (c_app c))) c).
Proof.
  intros Hn H0 H1 H2 len. unfold ftp_StorDataSource. rewrite u16_small by lia.
  destruct (_ >? _) eqn:E; zbool; [lia|]. cbn [negb orb c_app c_buffer with_app set_c_app].
  rewrite (proj2 (Z.eqb_neq n 0)) by lia.
  rewrite (proj2 (Z.eqb_neq (txOffset (c_app c)) (txSize (c_app c)))) by lia. cbn [orb].
  assert ((if txSize (c_app c) - txOffset (c_app c) >? n then n
           else txSize (c_app c) - txOffset (c_app c)) = len) as ->.
  { unfold len. ifs; zbool; lia. }
  rewrite (proj2 (Z.leb_le 0 _)) by lia. rewrite (proj2 (Z.leb_le _ _)) by lia. cbn [andb].
  rewrite u16_small by lia. done.
Qed.

Lemma source_end c n :
  0 <= txOffset (c_app c) -> txOffset (c_app c) = txSize (c_app c) ->
  ftp_StorDataSource true n c = Some (0, None, with_app (set_txOffset (txOffset (c_app c))) c).
Proof.
  intros H0 H1. unfold ftp_StorDataSource. destruct (_ >? _) eqn:E; zbool; [lia|].
  cbn [negb orb c_app with_app set_c_app].
  rewrite (proj2 (Z.eqb_eq (txOffset (c_app c)) (txSize (c_app c)))) by lia.
  by rewrite orb_true_r.
Qed.

Lemma set_txOffset_id c : with_app (set_txOffset (txOffset (c_app c))) c = c.
Proof. by destruct c as [[]]. Qed.

Lemma wp_lift {A} (f : calc -> option (A * calc)) a c E (Q : A -> world -> Prop) w :
  f (w_cl w) = Some (a, c) -> Q a (upd_cl c w) -> wp (lift f) E Q w.
Proof. intros Ef HQ. unfold wp, lift. by rewrite Ef. Qed.

(** Total correctness: the computation returns, and [Q] holds. *)
Abbreviation returns m Q w := (wp m (fun _ => False) Q w).

(** One acknowledgement of [n] bytes: the next segment goes out ... *)
Lemma data_sent_next w d off n tp :
  uploading w d off -> 0 <= n < 65536 -> off + n < txSize (c_app (w_cl w)) ->
  (forall tr, 0 < env_mss env tr d < 65536) ->
  returns (lwftp_data_sent (ops := ops) env (Some tt) tp n) (fun _ w' =>
    exists e chunk,
    w_trace w' = E_write d chunk e :: w_trace w /\ data_pcb (w_sess w') = Some d /\
    chunk = take (length chunk) (drop (Z.to_nat (off + n)) (c_buffer (w_cl w))) /\
    0 < Z.of_nat (length chunk) < 65536 /\
    off + n + Z.of_nat (length chunk) <= txSize (c_app (w_cl w)) /\
    c_buffer (w_cl w') = c_buffer (w_cl w) /\ txSize (c_app (w_cl w')) = txSize (c_app (w_cl w)) /\
    uploading w' d (off + n)) w.
Proof.
  intros [U1 U2 [t Ht] U4 U5 U6 U7] Hn Hlt Hmss.
  unfold lwftp_data_sent, lwftp_send_next_data. wp_go. rewrite U1. wp_go.
  eapply wp_lift; [apply source_ack; lia|]. wp_go. cbn [w_sess upd_cl]. rewrite U1, U2.
  unfold pcb_mss. wp_go. eapply wp_live; [done|]. wp_go. cbn [w_trace upd_cl].
  set (m := env_mss env (w_trace w) d). pose proof (Hmss (w_trace w)) as Hm. fold m in Hm.
  eapply wp_lift; [apply source_next; simpl; rewrite ?U4; lia|].
  cbn beta iota. simpl. rewrite U4.
  set (len := Z.min m (txSize (c_app (w_cl w)) - (off + n))).
  wp_step. rewrite (proj2 (Z.eqb_neq len 0)) by lia. wp_step. cbn beta.
  unfold source_bytes. rewrite decide_False by (rewrite length_drop; lia). wp_go. simpl. rewrite U2.
  eapply wp_live; [done|]. apply wp_ret. wp_go; [zbool; lia|].
  set (chunk := take (Z.to_nat len) _).
  assert (Hcl : Z.of_nat (length chunk) = len).
  { unfold chunk. rewrite length_take, length_drop. lia. }
  eexists _, chunk. split; [done|]. simpl. split_and!; try done; try lia.
  - unfold chunk. by rewrite length_take, length_drop, Nat.min_l by lia.
  - split; simpl; try done; try lia; by eexists.
Qed.

(** ... or, when all is acknowledged, the connection is closed. *)
Lemma data_sent_end w d off n tp :
  uploading w d off -> 0 <= n < 65536 -> off + n = txSize (c_app (w_cl w)) ->
  returns (lwftp_data_sent (ops := ops) env (Some tt) tp n) (fun _ w' =>
    exists e, w_trace w' = E_close d e :: w_trace w /\ data_pcb (w_sess w') = None) w.
Proof.
  intros [U1 U2 [t Ht] U4 U5 U6 U7] Hn Heq.
  unfold lwftp_data_sent, lwftp_send_next_data. wp_go. rewrite U1. wp_go.
  eapply wp_lift; [apply source_ack; lia|]. wp_go. cbn [w_sess upd_cl]. rewrite U1, U2.
  unfold pcb_mss. wp_go. eapply wp_live; [done|]. wp_go.
  eapply wp_lift; [apply source_end; simpl; rewrite ?U4; lia|].
  cbn beta iota. wp_go; try done. simpl. rewrite U2.
  eapply wp_pcb_close; [done|]. intros m' e _. wp_go. by exists e.
Qed.

(** The bytes [tcp_write] has accepted on a connection, in order. *)
Fixpoint accepted (d : pcb) (tr : trace) : bytes :=
  match tr with
  | [] => []
  | E_write p b e :: tr' => accepted d tr' ++ (if decide (p = d /\ e = ERR_OK) then b else [])
  | _ :: tr' => accepted d tr'
  end.

(** TCP reports the bytes it has accepted when the peer has acknowledged them,
    here all of them at once; a segment that was not accepted is never
    acknowledged, and no further report comes. *)
Fixpoint acked_upload (fuel : nat) (n : Z) : M unit :=
  match fuel with
  | O => fail F_fuel
  | S f =>
      _ ← lwftp_data_sent (ops := ops) env (Some tt) None n;
      tr ← gets w_trace;
      match tr with
      | E_write _ chunk e :: _ => if e =? ERR_OK then acked_upload f (Z.of_nat (length chunk)) else mret tt
      | _ => mret tt
      end
  end.

(** How an upload whose image still had [k] bytes to go ends: complete and
    closed, or with a segment TCP has refused. *)
Definition upload_ends (d : pcb) (size k : nat) w' : Prop :=
  (k = size /\ data_pcb (w_sess w') = None) \/
  ((k < size)%nat /\ data_pcb (w_sess w') = Some d /\
   exists chunk e tr, w_trace w' = E_write d chunk e :: tr /\ e <> ERR_OK).

Lemma take_more (b : bytes) n k : take (n + k) b = take n b ++ take k (drop n b).
Proof. by rewrite take_take_drop. Qed.

Lemma acked_upload_spec fuel w d off n :
  uploading w d off -> 0 <= n < 65536 -> off + n <= txSize (c_app (w_cl w)) ->
  (forall tr, 0 < env_mss env tr d < 65536) ->
  (Z.to_nat (txSize (c_app (w_cl w)) - (off + n)) < fuel)%nat ->
  exists w' k, acked_upload fuel n w = Done tt w' /\
    accepted d (w_trace w') = accepted d (w_trace w) ++ take k (drop (Z.to_nat (off + n)) (c_buffer (w_cl w))) /\
    upload_ends d (Z.to_nat (txSize (c_app (w_cl w)) - (off + n))) k w'.
Proof.
  revert w off n. induction fuel as [|fuel IH]; intros w off n Hup Hn Hle Hmss Hf; [lia|].
  pose proof Hup as [U1 U2 Ht U4 U5 U6 U7].
  cbn [acked_upload]. unfold mbind, M_bind.
  assert (Hret : forall Q : Z -> world -> Prop,
    returns (lwftp_data_sent (ops := ops) env (Some tt) None n) Q w ->
    exists r w', lwftp_data_sent (ops := ops) env (Some tt) None n w = Done r w' /\ Q r w').
  { intros Q. unfold wp. destruct (lwftp_data_sent _ _ _ _ w); [eauto|done]. }
  destruct (decide (off + n = txSize (c_app (w_cl w)))) as [Heq|Hne].
  - destruct (Hret _ (data_sent_end w d off n None Hup Hn Heq)) as (r & w' & E & e & Etr & Ed).
    rewrite E. simpl. rewrite Etr. exists w', 0%nat. split; [done|]. rewrite Etr. simpl.
    split; [by rewrite app_nil_r|]. left. split; [lia|done].
  - destruct (Hret _ (data_sent_next w d off n None Hup Hn ltac:(lia) Hmss))
      as (r & w' & E & e & chunk & Etr & Ed & Hch & Hlen & Hle' & Hbuf & Hsz & Hup').
    rewrite E. simpl. rewrite Etr. destruct (e =? ERR_OK) eqn:Ee.
    + apply Z.eqb_eq in Ee as ->.
      destruct (IH w' (off + n) (Z.of_nat (length chunk)) Hup') as (w2 & k & E2 & Hb2 & He2);
        [lia|rewrite Hsz; lia|done|rewrite Hsz; lia|].
      exists w2, (length chunk + k)%nat. split; [done|]. split.
      * rewrite Hb2, Etr, Hbuf. simpl. rewrite decide_True by done. rewrite <- app_assoc. f_equal.
        rewrite take_more, drop_drop, <- Hch. do 3 f_equal. lia.
      * rewrite Hsz in He2. destruct He2 as [[-> ?]|[? [? ?]]]; [left|right]; split_and!; try done; lia.
    + apply Z.eqb_neq in Ee. exists w', 0%nat. split; [done|]. rewrite Etr. simpl. rewrite decide_False by tauto.
      split; [by rewrite !app_nil_r|]. right. split; [lia|]. split; [done|]. rewrite Etr. eauto.
Qed.

End Upload.

(** C13. An upload transmits exactly the prepared image.  With segments of any
    size from 1 to 65535 bytes, started by the 150
    reply and driven by acknowledgements, each of all the bytes accepted since
    the last, the upload ends after at most one round per byte; the bytes
    [tcp_write] has accepted on the data connection are then, in order and each
    once, the first [app.txSize] bytes of the file buffer, and the connection is
    closed; or [tcp_write] has refused a segment, the bytes accepted are those
    before it, and the connection stays open. *)
Theorem upload_sends_image `{TiOS} env service w d :
  uploading w d 0 -> (forall tr, 0 < env_mss env tr d < 65536) ->
  let image := take (Z.to_nat (txSize (c_app (w_cl w)))) (c_buffer (w_cl w)) in
  exists w' k, acked_upload env service (S (length image)) 0 w = Done tt w' /\
    accepted d (w_trace w') = accepted d (w_trace w) ++ take k image /\
    upload_ends d (length image) k w'.
Proof.
  intros Hup Hmss image. pose proof (up_range _ _ _ Hup) as Hr. pose proof (up_size _ _ _ Hup) as Hs.
  assert (length image = Z.to_nat (txSize (c_app (w_cl w)))) as Li by (unfold image; rewrite length_take; lia).
  destruct (acked_upload_spec env service (S (length image)) w d 0 0 Hup)
    as (w' & k & E & Hb & He); [lia..|done|lia|].
  exists w', k. split; [done|]. replace (txSize (c_app (w_cl w)) - (0 + 0)) with (txSize (c_app (w_cl w))) in He by lia.
  rewrite <- Li in He. split; [|done]. rewrite Hb. change (Z.to_nat (0 + 0)) with 0%nat. rewrite drop_0.
  unfold image. rewrite take_take, Nat.min_l; [done|]. destruct He as [[-> _]|[? _]]; lia.
Qed.

(** An upload of five bytes in segments of two. *)
Definition small_env : tcp_env := mk_env (fun _ => true) (fun _ _ _ _ => ERR_OK)
  (fun _ _ _ => ERR_OK) (fun _ _ => ERR_OK) (fun _ _ => 2).

Definition upload_world : world :=
  mk_world (mk_session 0 21 (Some P_path) None (Some P_user) (Some P_pass) (Some tt)
              (Some ftp_StorDataSource_cb) None None 0 LWFTP_XFERING LWFTP_STOR_SENT LWFTP_CONNECTED
              None (Some 1%nat))
    {[ 1%nat := fresh_pcb ]} 2 []
    (set_c_buffer [1; 2; 3; 4; 5; 6] (with_app (set_txSize 5) (calc_start 0))).

Lemma upload_sends_image_witness :
  exists w' k, acked_upload small_env (mret tt) 6 0 upload_world = Done tt w' /\
    accepted 1 (w_trace w') = take k [1; 2; 3; 4; 5] /\ upload_ends 1 5 k w'.
Proof.
  apply (upload_sends_image small_env (mret tt) upload_world 1%nat).
  - split; try done; try (simpl; lia).
  - intros tr. simpl. lia.
Defined.

Example upload_completes :
  match acked_upload small_env (mret tt) 6 0 upload_world with
  | Done _ w' => accepted 1 (w_trace w') = [1; 2; 3; 4; 5] /\ data_pcb (w_sess w') = None
  | Fault _ => False
  end.
Proof. vm_compute. split; reflexivity. Qed.

(** An acknowledgement of part of a segment: the bytes of the segment that are
    still on their way are written again. *)
Theorem partial_ack_repeats :
  match (_ ← lwftp_data_sent (ops := the_ops small_env (mret tt)) small_env (Some tt) None 0;
         lwftp_data_sent (ops := the_ops small_env (mret tt)) small_env (Some tt) None 1) upload_world with
  | Done _ w' => accepted 1 (w_trace w') = [1; 2; 2; 3]
  | Fault _ => False
  end.
Proof. vm_compute. reflexivity. Qed.
