(* ===== verification/FileFormat.v ===== *)
(** * The [.8x] file format: reading a download, building an upload

    A file is a header, a comment, the length of its data section, the data
    section (one variable entry) and the 16-bit sum of the data section.
    [image_8x] states that layout; [ftp_RetrCallback]'s reader accepts every
    such file, and what [util_UploadFile] builds is compared with it. *)

From S2P Require Import Prelude CLib Session AppState Callbacks Utility.

(** ** Checksums *)

Lemma checksum_sum sum data :
  0 <= sum < 65536 -> util_ComputeChecksum sum data = u16 (sum + zsum data).
Proof.
  revert sum. induction data as [|d data IH]; intros sum Hs; cbn [util_ComputeChecksum].
  - unfold zsum; simpl. rewrite Z.add_0_r, u16_small; lia.
  - rewrite IH by apply u16_range. unfold u16. rewrite Zplus_mod_idemp_l.
    f_equal. unfold zsum; simpl. lia.
Qed.

(** ** Buffers made of segments *)

Lemma store_here old b new :
  length new = length old -> store (old ++ b) 0 new = Some (new ++ b).
Proof.
  intros Hl. unfold store. rewrite decide_True by (rewrite length_app; lia).
  simpl. by rewrite Hl, drop_app_length.
Qed.

Lemma store_skip a b off x :
  (length a <= off)%nat ->
  store (a ++ b) off x = (a ++.) <$> store b (off - length a) x.
Proof.
  intros Hl. unfold store. rewrite length_app. repeat case_decide; try lia; [|done].
  simpl. f_equal. rewrite take_app, (take_ge a) by lia. rewrite <- app_assoc. do 3 f_equal.
  rewrite drop_app, (drop_ge a) by lia. simpl. f_equal. lia.
Qed.

Lemma put_skip a b off v :
  (length a <= Z.to_nat off)%nat -> 0 <= off ->
  put (a ++ b) off v = (a ++.) <$> put b (off - Z.of_nat (length a)) v.
Proof.
  intros Hl H0. unfold put. rewrite length_app.
  destruct ((0 <=? off) && (off <? Z.of_nat (length a + length b))) eqn:E.
  - zbool. rewrite (proj2 (Z.leb_le _ _)), (proj2 (Z.ltb_lt _ _)) by lia. simpl. f_equal.
    rewrite insert_app_r_alt by lia. do 2 f_equal. lia.
  - rewrite (proj2 (andb_false_iff _ _)); [done|].
    apply andb_false_iff in E as [E|E]; zbool; [lia|]. right. apply Z.ltb_ge. lia.
Qed.

Lemma put_here x b v : put ([x] ++ b) 0 v = Some ([v] ++ b).
Proof. reflexivity. Qed.

Lemma load16_skip a b off :
  (length a <= off)%nat -> load16 (a ++ b) off = load16 b (off - length a).
Proof.
  intros Hl. unfold load16. rewrite !lookup_app_r by lia.
  replace (S off - length a)%nat with (S (off - length a)) by lia. done.
Qed.

Lemma load16_here v b : 0 <= v < 65536 -> load16 (bytes16 v ++ b) 0 = Some v.
Proof.
  intros Hv. unfold load16, bytes16. simpl. f_equal. rewrite u16_small by lia.
  pose proof (Z.div_mod v 256). lia.
Qed.

Lemma length_bytes16 v : length (bytes16 v) = 2%nat.
Proof. done. Qed.

(** ** The layout *)

(** The variable entry: length of the following header, length of the data,
    type, name, version, flag, length of the data again, the data with the two
    bytes in front of it. *)
Definition entry_8x (type : Z) (name : bytes) (version flag : Z) (data : bytes) : bytes :=
  bytes16 0xD ++ bytes16 (Z.of_nat (length data)) ++ [type] ++ name ++ [version; flag] ++
  bytes16 (Z.of_nat (length data)) ++ data.

Record variable_8x := mk_8x {
  x_type : Z; x_name : bytes; x_version : Z; x_flag : Z;
  x_data : bytes  (** with the two bytes in front of it *)
}.

Definition wf_8x (x : variable_8x) : Prop :=
  length (x_name x) = 8%nat /\ (2 <= length (x_data x))%nat /\
  Z.of_nat (length (x_data x)) + 17 < 65536.

Definition section_8x (x : variable_8x) : bytes :=
  entry_8x (x_type x) (x_name x) (x_version x) (x_flag x) (x_data x).

(** A file with data section [x] and checksum [sum]. *)
Definition image_8x (comment : bytes) (x : variable_8x) (sum : Z) : bytes :=
  header_8x ++ comment ++ bytes16 (Z.of_nat (length (section_8x x))) ++ section_8x x ++ bytes16 sum.

Lemma length_section x : wf_8x x -> length (section_8x x) = (17 + length (x_data x))%nat.
Proof.
  intros (Hn & _). unfold section_8x, entry_8x. rewrite !length_app, Hn. simpl. lia.
Qed.

Lemma length_header : length header_8x = 11%nat.
Proof. done. Qed.

Lemma checksum_of_here a m b n :
  length a = 55%nat -> length m = n ->
  checksum_of (a ++ m ++ b) 55 n = Some (util_ComputeChecksum 0 m).
Proof.
  intros Ha Hm. unfold checksum_of. rewrite decide_True by (rewrite !length_app; lia).
  rewrite <- Ha, drop_app_length, <- Hm, take_app_length. done.
Qed.

(** What the reader finds in a file: it compares the stored sum with the sum
    of the data section, and gives back the variable. *)
Lemma read_image comment x sum rest :
  length comment = 42%nat -> wf_8x x -> 0 <= sum < 65536 ->
  read_8x (image_8x comment x sum ++ rest) =
  if negb (u16 (zsum (section_8x x)) =? sum) then Some (inr tt)
  else Some (inl (x_name x ++ [0], x_type x, x_flag x =? 0x80, drop 2 (x_data x))).
Proof.
  intros Hc Hwf Hs. pose proof (length_section x Hwf) as Hsec. pose proof Hwf as (Hn & Hd & Hsz).
  set (pre := header_8x ++ comment ++ bytes16 (Z.of_nat (length (section_8x x)))).
  assert (Hpre : length pre = 55%nat) by (unfold pre; rewrite !length_app, Hc; reflexivity).
  assert (Himg : image_8x comment x sum ++ rest = pre ++ section_8x x ++ bytes16 sum ++ rest).
  { unfold image_8x, pre. by rewrite <- !app_assoc. }
  assert (L1 : load16 (image_8x comment x sum ++ rest) 53 = Some (Z.of_nat (17 + length (x_data x)))).
  { unfold image_8x. rewrite <- !app_assoc, load16_skip, length_header by (rewrite length_header; lia).
    rewrite load16_skip, Hc by lia. rewrite load16_here by (rewrite Hsec; lia). by rewrite Hsec. }
  set (n := length (x_data x)) in *.
  assert (Hsplit : section_8x x = bytes16 0xD ++ bytes16 (Z.of_nat n) ++ [x_type x] ++ x_name x ++
    [x_version x; x_flag x] ++ bytes16 (Z.of_nat n) ++ x_data x) by done.
  set (tail := bytes16 sum ++ rest) in *.
  assert (L2 : (image_8x comment x sum ++ rest) !! 59%nat = Some (x_type x)).
  { rewrite Himg, lookup_app_r, Hpre by lia. done. }
  assert (L3 : (image_8x comment x sum ++ rest) !! 69%nat = Some (x_flag x)).
  { rewrite Himg, lookup_app_r, Hpre, Hsplit by lia. rewrite <- !app_assoc. simpl.
    rewrite lookup_app_r, Hn by lia. done. }
  assert (L4 : load16 (image_8x comment x sum ++ rest) 70 = Some (Z.of_nat n)).
  { rewrite Himg, load16_skip, Hpre, Hsplit by lia. rewrite <- !app_assoc.
    do 3 (rewrite load16_skip by (simpl; lia)). rewrite load16_skip by (rewrite Hn; simpl; lia).
    rewrite load16_skip by (rewrite Hn; simpl; lia). rewrite Hn. simpl Nat.sub.
    apply load16_here. lia. }
  assert (L5 : load16 (image_8x comment x sum ++ rest) (72 + n) = Some sum).
  { rewrite Himg, load16_skip, Hpre, load16_skip by lia. rewrite Hsec.
    replace (72 + n - 55 - (17 + n))%nat with O by lia. unfold tail. by apply load16_here. }
  assert (L6 : take 8 (drop 60 (image_8x comment x sum ++ rest)) = x_name x).
  { rewrite Himg, drop_app, Hpre, (drop_ge pre) by lia. rewrite Hsplit, <- !app_assoc. simpl.
    rewrite <- Hn. apply take_app_length. }
  assert (L7 : forall k, k = (n - 2)%nat ->
    take k (drop 74 (image_8x comment x sum ++ rest)) = drop 2 (x_data x)).
  { intros k ->. rewrite Himg, drop_app, Hpre, (drop_ge pre) by lia. rewrite Hsplit, <- !app_assoc.
    rewrite !drop_app. rewrite Hn. simpl.
    rewrite (drop_ge (x_name x)) by lia. simpl. rewrite take_app, length_drop.
    rewrite take_ge by (rewrite length_drop; lia). fold n. replace (n - 2 - (n - 2))%nat with O by lia.
    by rewrite app_nil_r. }
  unfold read_8x. rewrite L1. cbn [mbind option_bind]. rewrite Nat2Z.id.
  rewrite Himg at 1. rewrite (checksum_of_here pre (section_8x x) tail) by done. cbn [mbind option_bind].
  rewrite L2. cbn [mbind option_bind]. rewrite L3. cbn [mbind option_bind].
  rewrite L4. cbn [mbind option_bind]. rewrite Nat2Z.id, L5. cbn [mbind option_bind].
  rewrite checksum_sum by lia. rewrite Z.add_0_l. destruct (negb _); [done|].
  rewrite u24_small by lia.
  rewrite (proj2 (Z.ltb_ge _ _)).
  - rewrite L6, L7; [done|lia].
  - rewrite Himg, !length_app, Hpre, Hsec. unfold tail. rewrite length_app. simpl. lia.
Qed.

(** ** What an upload builds *)

(** Go to the segment at the offset of a write, and write it. *)
Ltac seek :=
  repeat first [ rewrite store_skip by lia | rewrite put_skip by lia ];
  lazymatch goal with
  | |- context [store (_ ++ _) ?e _] => replace e with O by lia; rewrite store_here by lia
  | |- context [put (_ ++ _) ?e _] => replace e with 0 by lia; rewrite put_here
  end;
  cbn [fmap option_fmap option_map mbind option_bind].

(** The writes of [util_UploadFile] for an archived variable up to its
    checksum, on a buffer cut at the fields of the format. *)
Lemma upload_fields (s1 s2 s3 s4 s5 s6 s8 s11 s12 rest name data : bytes) s7 s9 s10 type n :
  length s1 = 11%nat -> length s2 = 21%nat -> length s3 = 21%nat ->
  length s4 = 2%nat -> length s5 = 2%nat -> length s6 = 2%nat -> length s8 = 8%nat ->
  length s11 = 2%nat -> length s12 = length data -> length name = 8%nat ->
  (buf ← store (s1 ++ s2 ++ s3 ++ s4 ++ s5 ++ s6 ++ [s7] ++ s8 ++ [s9] ++ [s10] ++ s11 ++ s12 ++ rest)
           0 header_8x;
   buf ← store buf 11 comment_8x;
   buf ← store16 buf 53 (n + 19);
   buf ← store16 buf 55 0xD;
   buf ← store16 buf 57 (n + 2);
   buf ← put buf 59 type;
   buf ← store buf 60 name;
   buf ← put buf 69 0x80;
   buf ← store16 buf 70 (n + 2);
   store buf 72 data) =
  Some (header_8x ++ comment_8x ++ s3 ++ bytes16 (n + 19) ++ bytes16 0xD ++ bytes16 (n + 2) ++ [type] ++
        name ++ [s9] ++ [0x80] ++ bytes16 (n + 2) ++ data ++ rest).
Proof.
  intros L1 L2 L3 L4 L5 L6 L8 L11 L12 Ln. unfold store16.
  pose proof (length_bytes16 (n + 19)). pose proof (length_bytes16 0xD).
  pose proof (length_bytes16 (n + 2)).
  assert (length header_8x = 11%nat) by done. assert (length comment_8x = 21%nat) by done.
  assert (forall x : Z, length [x] = 1%nat) as Lx by done.
  pose proof (Lx s9). pose proof (Lx s10). pose proof (Lx type). pose proof (Lx 0x80).
  rewrite store_here by lia. cbn [mbind option_bind]. by do 9 seek.
Qed.

(** The comment field of an upload. *)
Definition upload_comment : bytes := comment_8x ++ replicate 21 0.

(** The variable as an upload presents it. *)
Definition upload_variable (name : bytes) (v : ti_var) : variable_8x :=
  mk_8x (v_type v) (take 8 name) 0 0x80 (v_head v ++ v_data v).

Definition uploadable (name : bytes) (v : ti_var) : Prop :=
  (8 <= length name)%nat /\ length (v_head v) = 2%nat /\
  Z.of_nat (length (v_data v)) + 76 <= 65535.

Lemma upload_variable_wf name v : uploadable name v -> wf_8x (upload_variable name v).
Proof.
  intros (H1 & H2 & H3). unfold wf_8x, upload_variable; simpl. rewrite length_take, length_app, H2. lia.
Qed.

Lemma replicate_add {A} (x : A) n m : replicate (n + m) x = replicate n x ++ replicate m x.
Proof. apply replicate_add. Qed.

(** The image of an archived variable has the layout of the format; its
    checksum leaves out the last two bytes of the data section. *)
Lemma upload_image_archived buf name v :
  uploadable name v -> v_archived v = true -> (Z.to_nat 65535 <= length buf)%nat ->
  let x := upload_variable name v in
  exists rest, upload_image buf name v =
    Some (image_8x upload_comment x
            (u16 (zsum (take (length (section_8x x) - 2) (section_8x x)))) ++ rest,
          Z.of_nat (length (v_data v)) + 76).
Proof.
  intros Hu Ha Hb x. pose proof (upload_variable_wf name v Hu) as Hwf.
  pose proof (length_section x Hwf) as Hsec. fold x in Hwf. pose proof Hu as (Hn & Hh & Hs).
  set (n := length (v_data v)) in *.
  assert (Hxd : length (x_data x) = (2 + n)%nat) by (unfold x; simpl; rewrite length_app, Hh; done).
  unfold upload_image. fold n. rewrite (u16_small (Z.of_nat n)) by lia. rewrite Ha.
  unfold store0. rewrite <- (firstn_skipn (Z.to_nat 65535) buf).
  rewrite store_here by (rewrite length_replicate, length_firstn; lia). cbn [mbind option_bind].
  set (post := skipn _ _).
  assert (exists m, m = length (v_head v ++ v_data v)) as [m Em] by eauto.
  assert (Em2 : m = (2 + n)%nat) by (by rewrite Em, length_app, Hh).
  assert (exists k, Z.to_nat 65535 = (11 + (21 + (21 + (2 + (2 + (2 + (1 + (8 + (1 + (1 + (2 + (m + (2 + k)))))))))))))%nat) as [k Ek].
  { exists (Z.to_nat 65535 - 76 - n)%nat. lia. }
  rewrite Ek. rewrite !replicate_add, <- !app_assoc. rewrite Nat2Z.id.
  rewrite (take_ge (v_data v)) by (fold n; lia).
  pose proof (upload_fields (replicate 11 0) (replicate 21 0) (replicate 21 0) (replicate 2 0)
    (replicate 2 0) (replicate 2 0) (replicate 8 0) (replicate 2 0) (replicate m 0)
    (replicate 2 0 ++ replicate k 0 ++ post) (take 8 name) (v_head v ++ v_data v) 0 0 0 (v_type v) (Z.of_nat n)) as Hf.
  rewrite !length_replicate in Hf. specialize (Hf eq_refl eq_refl eq_refl eq_refl eq_refl eq_refl eq_refl eq_refl).
  specialize (Hf Em ltac:(rewrite length_take; lia)).
  change (replicate 1 0) with [0]. change (0xD) with 13 in *.
  repeat match type of Hf with
  | (?m ≫= _) = Some _ =>
      let b := fresh "b" in let E := fresh "E" in
      destruct m as [b|] eqn:E; [|discriminate Hf]; cbn [mbind option_bind] in Hf |- *; clear E
  end.
  change (70 + 2)%nat with 72%nat. rewrite Hf. cbn [mbind option_bind]. clear Hf.
  set (pre := header_8x ++ upload_comment ++ bytes16 (Z.of_nat n + 19)).
  assert (Hpre : length pre = 55%nat) by reflexivity.
  set (tail := replicate k 0 ++ post).
  match goal with |- context [checksum_of ?b _ _] =>
    assert (b = pre ++ section_8x x ++ replicate 2 0 ++ tail) as -> end.
  { unfold pre, upload_comment, section_8x, entry_8x. rewrite Hxd.
    replace (Z.of_nat (2 + n)) with (Z.of_nat n + 2) by lia.
    change (x_data x) with (v_head v ++ v_data v). by rewrite <- !app_assoc. }
  assert (Hlen : length (section_8x x) = (19 + n)%nat) by (rewrite Hsec, Hxd; done).
  set (part := take (17 + n) (section_8x x)).
  assert (checksum_of (pre ++ section_8x x ++ replicate 2 0 ++ tail) 55 (17 + n) =
          Some (u16 (zsum part))) as ->.
  { rewrite <- (take_drop (17 + n) (section_8x x)) at 1. fold part. rewrite <- app_assoc.
    rewrite checksum_of_here; [|done|unfold part; rewrite length_take; lia].
    rewrite checksum_sum by lia. by rewrite Z.add_0_l. }
  cbn [mbind option_bind]. unfold store16.
  rewrite store_skip, Hpre, store_skip, Hlen by lia.
  replace (72 + 2 + n - 55 - (19 + n))%nat with O by lia.
  rewrite store_here by done. cbn [fmap option_fmap option_map mbind option_bind].
  exists tail. f_equal. f_equal; [|lia].
  unfold image_8x. rewrite Hlen. replace (19 + n - 2)%nat with (17 + n)%nat by lia. fold part.
  replace (Z.of_nat (19 + n)) with (Z.of_nat n + 19) by lia. unfold pre. by rewrite <- !app_assoc.
Qed.

(** ** Properties *)

(** C32. The reader accepts every well-formed file: whatever the comment, a
    file with the layout of the format and the sum of its data section as
    checksum is read back as exactly its variable (name, type, archive flag and
    data), wherever the buffer goes on after it. *)
Theorem reader_accepts_wellformed comment x rest :
  length comment = 42%nat -> wf_8x x ->
  read_8x (image_8x comment x (u16 (zsum (section_8x x))) ++ rest) =
  Some (inl (x_name x ++ [0], x_type x, x_flag x =? 0x80, drop 2 (x_data x))).
Proof.
  intros Hc Hwf. rewrite read_image by (done || apply u16_range).
  by rewrite Z.eqb_refl.
Qed.

(** The reader rejects every file whose stored checksum differs from the
    sum of its data section: nothing is written to the calculator. *)
Theorem reader_rejects_bad_checksum comment x sum rest :
  length comment = 42%nat -> wf_8x x -> 0 <= sum < 65536 ->
  sum <> u16 (zsum (section_8x x)) ->
  read_8x (image_8x comment x sum ++ rest) = Some (inr tt).
Proof.
  intros Hc Hwf Hs Hne. rewrite read_image by done.
  rewrite (proj2 (Z.eqb_neq _ _)) by congruence. done.
Qed.

Lemma section_last2 name v d a b :
  v_data v = d ++ [a; b] ->
  let s := section_8x (upload_variable name v) in
  zsum s = zsum (take (length s - 2) s) + (a + b).
Proof.
  intros Hd s.
  assert (Hs : exists p, s = p ++ [a; b]).
  { unfold s, section_8x, entry_8x, upload_variable; cbn [x_data x_type x_name x_version x_flag].
    rewrite Hd. eexists. rewrite !app_assoc. done. }
  destruct Hs as [p ->]. rewrite length_app. cbn [length].
  replace (length p + 2 - 2)%nat with (length p) by lia. rewrite take_app_length, zsum_app.
  unfold zsum at 2. simpl. lia.
Qed.

(** What [util_UploadFile] builds for an archived variable has the layout
    of the format, but its checksum leaves out the last two bytes of the data:
    the program's own reader rejects the file unless both are zero. *)
Theorem upload_checksum_short buf name v d a b :
  uploadable name v -> v_archived v = true -> (Z.to_nat 65535 <= length buf)%nat ->
  v_data v = d ++ [a; b] -> is_byte a -> is_byte b ->
  exists img size, upload_image buf name v = Some (img, size) /\
    read_8x img = (if a + b =? 0
                   then Some (inl (take 8 name ++ [0], v_type v, true, v_data v))
                   else Some (inr tt)).
Proof.
  intros Hu Ha Hb Hd Ba Bb. destruct (upload_image_archived buf name v Hu Ha Hb) as [rest Hi].
  eexists _, _. split; [exact Hi|].
  pose proof (upload_variable_wf name v Hu) as Hwf. pose proof Hu as (_ & Hh & _).
  rewrite read_image by (done || apply u16_range).
  rewrite (section_last2 name v d a b Hd). set (s := take _ _). unfold is_byte in *.
  assert (Hdr : drop 2 (v_head v ++ v_data v) = v_data v).
  { rewrite <- Hh. apply drop_app_length. }
  destruct (a + b =? 0) eqn:E; zbool.
  - rewrite E, Z.add_0_r, Z.eqb_refl. cbn [negb x_name x_type x_flag x_data upload_variable].
    by rewrite Hdr.
  - rewrite (proj2 (Z.eqb_neq _ _)); [done|]. unfold u16. intros Eq.
    apply (f_equal (fun z => (z - zsum s) mod 2 ^ 16)) in Eq.
    rewrite !Zminus_mod_idemp_l in Eq. replace (zsum s + (a + b) - zsum s) with (a + b) in Eq by lia.
    rewrite Z.sub_diag, Z.mod_0_l, Z.mod_small in Eq by lia. lia.
Qed.

Definition sample_8x : variable_8x := mk_8x OS_TYPE_APPVAR (str "NOTES" ++ [0; 0; 0]) 0 0x80 [3; 0; 1; 2; 3].

Lemma reader_accepts_witness :
  read_8x (image_8x (replicate 42 32) sample_8x (u16 (zsum (section_8x sample_8x))) ++ [7; 7]) =
  Some (inl (str "NOTES" ++ [0; 0; 0; 0], OS_TYPE_APPVAR, true, [1; 2; 3])).
Proof.
  apply (reader_accepts_wellformed (replicate 42 32) sample_8x [7; 7]).
  - reflexivity.
  - unfold wf_8x. simpl. lia.
Defined.

Lemma reader_rejects_witness :
  read_8x (image_8x (replicate 42 32) sample_8x 1 ++ [7; 7]) = Some (inr tt).
Proof.
  apply (reader_rejects_bad_checksum (replicate 42 32) sample_8x 1 [7; 7]).
  - reflexivity.
  - unfold wf_8x. simpl. lia.
  - lia.
  - vm_compute. congruence.
Defined.

Lemma upload_checksum_witness :
  exists img size,
    upload_image (replicate (Z.to_nat 65535) 0) (str "NOTES" ++ replicate 4 0)
      (mk_var OS_TYPE_APPVAR true [3; 0] [1; 2; 3]) = Some (img, size) /\
    read_8x img = Some (inr tt).
Proof.
  apply (upload_checksum_short (replicate (Z.to_nat 65535) 0) (str "NOTES" ++ replicate 4 0)
           (mk_var OS_TYPE_APPVAR true [3; 0] [1; 2; 3]) [1] 2 3).
  - unfold uploadable. simpl. lia.
  - reflexivity.
  - rewrite length_replicate. lia.
  - reflexivity.
  - unfold is_byte. lia.
  - unfold is_byte. lia.
Defined.
