(* ===== verification/AddrCorrect.v ===== *)
(** * Addresses, configuration and paths

    Round trips of the address parser with the printer, of the configuration
    with the variable it is kept in, and of the path with the file name an
    operation appends to it. *)

From S2P Require Import Prelude CLib Session AppState Callbacks Utility App Menu AppSamples Listing FileFormat.

#[local] Arguments strtoul10 : simpl never.

(** ** Parsing stays inside a terminated string *)

Lemma scan_digits_nul l acc n :
  0 ∈ l -> exists v k rest, scan_digits acc n l = Some (v, k, rest) /\ 0 ∈ rest.
Proof.
  revert acc n. induction l as [|c l IH]; intros acc n Hin; [by apply elem_of_nil in Hin|].
  simpl. destruct (isdigit c) eqn:Ed; [|eauto 6].
  apply elem_of_cons in Hin as [<-|Hin]; [done|]. by apply IH.
Qed.

Lemma skip_space_nul l : 0 ∈ l -> 0 ∈ skip_space l.
Proof.
  induction l as [|c l IH]; [done|]. simpl. intros Hin. destruct (isspace c) eqn:E; [|done].
  apply elem_of_cons in Hin as [<-|Hin]; [done|]. by apply IH.
Qed.

Lemma scan_sign_nul l : 0 ∈ l -> 0 ∈ snd (scan_sign l).
Proof.
  destruct l as [|c l]; [done|]. simpl. intros Hin.
  apply elem_of_cons in Hin as [<-|Hin]; [simpl; by left|].
  destruct (c =? 45); [done|]. destruct (c =? 43); [done|]. by right.
Qed.

Lemma strtoul10_nul l : 0 ∈ l -> exists v rest, strtoul10 l = Some (v, rest) /\ 0 ∈ rest.
Proof.
  intros Hin. unfold strtoul10.
  pose proof (scan_sign_nul _ (skip_space_nul _ Hin)) as Hs.
  destruct (scan_sign (skip_space l)) as [neg l1]. simpl in Hs.
  destruct (scan_digits_nul l1 0 0 Hs) as (v & k & rest & -> & Hr).
  destruct k; [eauto|]. destruct (v >? ULONG_MAX); eauto.
Qed.

Lemma parse_components_nul n i s addr :
  0 ∈ s -> exists r addr', parse_components n i s addr = Some (r, addr') /\ length addr' = length addr.
Proof.
  revert i s addr. induction n as [|n IH]; intros i s addr Hin; simpl; [eauto|].
  destruct (strtoul10_nul s Hin) as (v & rest & -> & Hr). simpl.
  destruct rest as [|c rest]; [by apply elem_of_nil in Hr|]. simpl.
  destruct (c =? ch_dot) eqn:Ec; zbool.
  - subst. apply elem_of_cons in Hr as [Hr|Hr]; [discriminate Hr|].
    destruct (IH (S i) rest (<[i := u8 v]> addr)) as (r & a & E & L); [done|].
    rewrite length_insert in L. simpl. rewrite drop_0. eauto.
  - destruct (negb _); [|].
    + eexists _, _. split; [done|]. by rewrite length_insert.
    + destruct (IH (S i) (c :: rest) (<[i := u8 v]> addr)) as (r & a & E & L); [done|].
      rewrite length_insert in L. eauto.
Qed.

(** ** Round trip with the printer *)

Lemma no_digit_dot l : no_digit (ch_dot :: l).
Proof. by eexists _, _. Qed.

Lemma no_digit_nul l : no_digit (0 :: l).
Proof. by eexists _, _. Qed.

Lemma print_parse_byte n rest : is_byte n -> no_digit rest -> strtoul10 (print_uint n ++ rest) = Some (n, rest).
Proof.
  intros Hn. apply strtoul10_print. unfold is_byte in Hn. change ULONG_MAX with 4294967295. lia.
Qed.

(** An address the setup screen prints is parsed back to the same four
    bytes, and the whole string is consumed. *)
Theorem address_round_trip a b c d rest :
  is_byte a -> is_byte b -> is_byte c -> is_byte d ->
  util_ParseAddr (menu_PrintAddress [a; b; c; d] ++ 0 :: rest) (replicate 4 0) = Some (0, [a; b; c; d]).
Proof.
  intros Ha Hb Hc Hd. unfold util_ParseAddr, menu_PrintAddress. simpl nth. rewrite <- !app_assoc.
  cbn [app]. unfold parse_components.
  rewrite print_parse_byte by (done || apply no_digit_dot). cbn [mbind option_bind head Z.eqb].
  do 3 (simpl; rewrite ?drop_0; rewrite print_parse_byte by (done || apply no_digit_dot || apply no_digit_nul); cbn [mbind option_bind]).
  simpl. rewrite !u8_small by done. done.
Qed.

Lemma address_round_trip_witness :
  util_ParseAddr (menu_PrintAddress [192; 168; 1; 20] ++ [0]) (replicate 4 0) = Some (0, [192; 168; 1; 20]).
Proof. apply (address_round_trip 192 168 1 20 []); unfold is_byte; lia. Defined.

(** On every terminated input the address parser stops inside it, with a
    result code, whatever the characters. *)
Theorem address_parser_total s addr :
  0 ∈ s -> length addr = 4%nat ->
  exists r addr', util_ParseAddr s addr = Some (r, addr') /\ length addr' = 4%nat.
Proof.
  intros Hs Hl. destruct (parse_components_nul 4 0 s addr Hs) as (r & a & E & L).
  exists r, a. split; [done|]. congruence.
Qed.

Lemma address_parser_total_witness :
  exists r addr', util_ParseAddr (str "999..x" ++ [0]) (replicate 4 0) = Some (r, addr') /\ length addr' = 4%nat.
Proof.
  apply (address_parser_total (str "999..x" ++ [0]) (replicate 4 0)).
  - apply elem_of_app. right. by left.
  - reflexivity.
Defined.

(** The parser accepts more than addresses: anything may follow a fourth
    dot, components are taken modulo 256 and may be empty. *)
Theorem address_parser_lenient :
  util_ParseAddr (str "1.2.3.4.junk" ++ [0]) (replicate 4 0) = Some (0, [1; 2; 3; 4]) /\
  util_ParseAddr (str "300.-1..7" ++ [0]) (replicate 4 0) = Some (0, [44; 255; 0; 7]).
Proof. split; vm_compute; reflexivity. Qed.

(** ** Paths *)

(** A buffer that holds the string [s]. *)
Definition holds_string (buf s : bytes) : Prop :=
  exists r, buf = s ++ 0 :: r /\ Forall (fun x => x <> 0) s.

Lemma holds_cstr buf s : holds_string buf s -> cstr buf = s.
Proof. intros (r & -> & Hs). by apply cstr_app_nul. Qed.

Lemma holds_terminated buf s : holds_string buf s -> terminated buf = true.
Proof.
  intros (r & -> & _). apply bool_decide_eq_true. apply elem_of_app. right. by left.
Qed.

Lemma put_at a x b v : put (a ++ x :: b) (Z.of_nat (length a)) v = Some (a ++ v :: b).
Proof.
  rewrite (put_skip a (x :: b)) by lia. rewrite Z.sub_diag.
  change (put (x :: b) 0 v) with (Some (v :: b)). done.
Qed.

(** Write [new] over the first part of [old]. *)
Lemma store_over a old b new :
  (length new <= length old)%nat ->
  store (a ++ old ++ b) (length a) new = Some (a ++ new ++ drop (length new) old ++ b).
Proof.
  intros Hl. rewrite store_skip by lia. rewrite Nat.sub_diag.
  rewrite <- (take_drop (length new) old) at 1. rewrite <- app_assoc.
  rewrite store_here by (rewrite length_take; lia). done.
Qed.

Lemma strrchr_last p q c :
  Forall (fun x => x <> c) q -> strrchr (p ++ c :: q) c = Some (length p).
Proof.
  intros Hq. assert (Hn : strrchr q c = None).
  { induction Hq as [|x q Hx _ IH]; [done|]. simpl. rewrite IH. by ztest. }
  induction p as [|x p IH]; simpl; [by rewrite Hn, Z.eqb_refl|]. by rewrite IH.
Qed.

Lemma cut_slash_spec p q r :
  Forall (fun x => x <> 0) (p ++ ch_slash :: q) -> Forall (fun x => x <> ch_slash) q ->
  exists buf', cut_slash ((p ++ ch_slash :: q) ++ 0 :: r) = Some buf' /\ holds_string buf' p /\
    length buf' = length ((p ++ ch_slash :: q) ++ 0 :: r).
Proof.
  intros Hz Hq. unfold cut_slash. rewrite cstr_app_nul, strrchr_last by done. cbn [mbind option_bind].
  rewrite <- app_assoc. change ((ch_slash :: q) ++ 0 :: r) with (ch_slash :: q ++ 0 :: r). rewrite put_at. eexists. split; [done|]. split.
  - eexists. split; [done|]. by apply Forall_app in Hz as [? _].
  - rewrite !length_app. done.
Qed.

(** The suffix of a program or AppVar. *)
Definition suffix (is_appvar : bool) : bytes := str ".8x" ++ [if is_appvar then 118 else 112].

Lemma suffix_write old (is_appvar : bool) :
  (5 <= length old)%nat -> forall a,
  (buf ← strcpy (a ++ old) (length a) (str ".8x");
   buf ← put buf (Z.of_nat (length a) + 3) (if is_appvar then 118 else 112);
   put buf (Z.of_nat (length a) + 4) 0) =
  Some (a ++ suffix is_appvar ++ 0 :: drop 5 old).
Proof.
  intros Hl a. destruct old as [|x1 [|x2 [|x3 [|x4 [|x5 old]]]]]; simpl in Hl; try lia.
  unfold strcpy. rewrite <- (app_nil_r (x1 :: x2 :: x3 :: x4 :: x5 :: old)).
  rewrite store_over by (simpl; lia). cbn [mbind option_bind]. rewrite !app_nil_r.
  match goal with |- context [put (a ++ ?x) _ _] => change x with (46 :: 56 :: 120 :: 0 :: x5 :: old) end.
  replace (a ++ 46 :: 56 :: 120 :: 0 :: x5 :: old) with ((a ++ [46; 56; 120]) ++ 0 :: x5 :: old)
    by (by rewrite <- app_assoc).
  replace (Z.of_nat (length a) + 3) with (Z.of_nat (length (a ++ [46; 56; 120])))
    by (rewrite length_app; simpl; lia).
  rewrite put_at. cbn [mbind option_bind].
  set (v := if is_appvar then 118 else 112).
  replace ((a ++ [46; 56; 120]) ++ v :: x5 :: old) with ((a ++ [46; 56; 120; v]) ++ x5 :: old)
    by (by rewrite <- !app_assoc).
  replace (Z.of_nat (length a) + 4) with (Z.of_nat (length (a ++ [46; 56; 120; v])))
    by (rewrite length_app; simpl; lia).
  rewrite put_at. by rewrite <- !app_assoc.
Qed.

(** Appending a file name to a path. *)
Lemma append_name_spec p r nm z is_appvar :
  Forall (fun x => x <> 0) p -> Forall (fun x => x <> 0) nm ->
  length (nm ++ 0 :: z) = 9%nat -> (13 <= length r)%nat ->
  exists r', append_name (p ++ 0 :: r) (nm ++ 0 :: z) is_appvar =
    Some ((p ++ ch_slash :: nm ++ suffix is_appvar) ++ 0 :: r') /\
    length ((p ++ ch_slash :: nm ++ suffix is_appvar) ++ 0 :: r') = length (p ++ 0 :: r).
Proof.
  intros Hp Hnm Hl Hr. unfold append_name.
  rewrite (holds_terminated _ p) by (by eexists). cbn [negb].
  rewrite cstr_app_nul by done. rewrite put_at. cbn [mbind option_bind].
  replace (p ++ ch_slash :: r) with ((p ++ [ch_slash]) ++ r ++ []) by (by rewrite <- app_assoc, app_nil_r).
  replace (length p + 1)%nat with (length (p ++ [ch_slash])) by (rewrite length_app; done).
  rewrite store_over by lia. cbn [mbind option_bind]. rewrite app_nil_r, Hl.
  set (r1 := drop 9 r). set (q := p ++ ch_slash :: nm).
  assert (Hq : Forall (fun x => x <> 0) q).
  { unfold q. apply Forall_app. split; [done|]. by constructor. }
  replace ((p ++ [ch_slash]) ++ (nm ++ 0 :: z) ++ r1) with (q ++ 0 :: z ++ r1)
    by (unfold q; rewrite <- !app_assoc; simpl; by rewrite <- ?app_assoc).
  rewrite (holds_terminated _ q) by (by eexists). cbn [negb]. rewrite cstr_app_nul by done.
  rewrite suffix_write.
  - exists (drop 5 (0 :: z ++ r1)). split; [unfold q; rewrite <- !app_assoc; simpl; by rewrite <- ?app_assoc|].
    rewrite length_app in Hl. simpl in Hl.
    unfold r1. rewrite !length_app. cbn [length]. rewrite !length_app. cbn [length].
    rewrite length_drop. cbn [length]. rewrite length_app, length_drop. simpl. lia.
  - unfold r1. cbn [length]. rewrite length_app, length_drop. rewrite length_app in Hl. simpl in Hl. lia.
Qed.

(** Appending the name of a file to the path and cutting it off again, as
    an operation does before it starts and when it has finished, leaves the
    path it found; in between the path is the file's, and nothing is written
    outside the buffer as long as thirteen bytes are free after the path. *)
Theorem path_restored p r nm z is_appvar :
  Forall (fun x => x <> 0) p -> Forall (fun x => x <> 0 /\ x <> ch_slash) nm ->
  length (nm ++ 0 :: z) = 9%nat -> (13 <= length r)%nat ->
  exists buf' buf'',
    append_name (p ++ 0 :: r) (nm ++ 0 :: z) is_appvar = Some buf' /\
    cstr buf' = p ++ [ch_slash] ++ nm ++ suffix is_appvar /\
    cut_slash buf' = Some buf'' /\ cstr buf'' = p /\ length buf'' = length (p ++ 0 :: r).
Proof.
  intros Hp Hnm Hl Hr.
  assert (Hnz : Forall (fun x => x <> 0) nm) by (eapply Forall_impl; [done|]; by intros ? []).
  assert (Hns : Forall (fun x => x <> ch_slash) (nm ++ suffix is_appvar)).
  { apply Forall_app. split; [eapply Forall_impl; [exact Hnm|]; by intros ? []|].
    destruct is_appvar; vm_compute; repeat (constructor; [discriminate|]); constructor. }
  destruct (append_name_spec p r nm z is_appvar) as (r' & E & Hlen); try done.
  assert (Hz : Forall (fun x => x <> 0) (p ++ ch_slash :: nm ++ suffix is_appvar)).
  { apply Forall_app. split; [done|]. constructor; [done|]. apply Forall_app. split; [done|].
    destruct is_appvar; vm_compute; repeat (constructor; [discriminate|]); constructor. }
  destruct (cut_slash_spec p (nm ++ suffix is_appvar) r') as (buf'' & E2 & Hh & Hl2); try done.
  eexists _, buf''. split; [exact E|]. split; [by apply cstr_app_nul|]. split; [exact E2|].
  split; [by apply holds_cstr|]. congruence.
Qed.

Lemma path_restored_witness :
  exists buf' buf'',
    append_name (str "/home" ++ 0 :: replicate 20 7) (str "GAME" ++ 0 :: replicate 4 0) false = Some buf' /\
    cstr buf' = str "/home" ++ [ch_slash] ++ str "GAME" ++ suffix false /\
    cut_slash buf' = Some buf'' /\ cstr buf'' = str "/home" /\
    length buf'' = length (str "/home" ++ 0 :: replicate 20 7).
Proof.
  apply path_restored.
  - by repeat constructor.
  - by repeat constructor.
  - reflexivity.
  - simpl. lia.
Defined.

(** ** The working directory *)

Lemma memchr_first l c rest :
  Forall (fun x => x <> c) l -> memchr (l ++ c :: rest) c (length (l ++ c :: rest)) = Some (length l).
Proof.
  induction 1 as [|x l Hx _ IH]; simpl; [by rewrite Z.eqb_refl|]. ztest. by rewrite IH.
Qed.

(** The reply to PWD: the text between its first two double quotes
    becomes the path, cut at [RX_BUF_SIZE] characters, terminated, and nothing
    is written outside the buffer. *)
Theorem pwd_sets_path `{TiOS} c pre dir post :
  Forall (fun x => x <> ch_dquote) pre -> Forall (fun x => x <> ch_dquote /\ x <> 0) dir ->
  length (path (c_app c)) = 257%nat ->
  let reply := pre ++ [ch_dquote] ++ dir ++ [ch_dquote] ++ post in
  exists c', ftp_PwdDataSink (Some reply) (Z.of_nat (length reply)) c = Some (Z.of_nat (length reply), c') /\
    cstr (path (c_app c')) = take RX_BUF_SIZE dir /\ length (path (c_app c')) = 257%nat.
Proof.
  intros Hpre Hdir Hlen reply. unfold ftp_PwdDataSink, reply. cbn [app].
  rewrite memchr_first by done.
  assert (Hd : Forall (fun x => x <> ch_dquote) dir) by (eapply Forall_impl; [exact Hdir|]; by intros ? []).
  assert (Hz : Forall (fun x => x <> 0) dir) by (eapply Forall_impl; [exact Hdir|]; by intros ? []).
  replace (drop (S (length pre)) (pre ++ ch_dquote :: dir ++ ch_dquote :: post))
    with (dir ++ ch_dquote :: post).
  2: { rewrite <- Nat.add_1_r, <- drop_drop, drop_app_length. done. }
  rewrite memchr_first by done.
  set (n := Nat.min (length dir) RX_BUF_SIZE).
  assert (Htk : take n (dir ++ ch_dquote :: post) = take RX_BUF_SIZE dir).
  { rewrite take_app_le by lia. unfold n. destruct (decide (length dir <= RX_BUF_SIZE)%nat).
    - rewrite Nat.min_l, !take_ge by lia. done.
    - by rewrite Nat.min_r by lia. }
  rewrite Htk. assert (Hn : length (take RX_BUF_SIZE dir) = n) by (rewrite length_take; unfold n; lia).
  unfold store. rewrite decide_True by (rewrite Hn, Hlen; unfold n, RX_BUF_SIZE; lia).
  cbn [mbind option_bind]. rewrite Hn. cbn [Nat.add take app].
  destruct (drop n (path (c_app c))) as [|x tl] eqn:Edrop.
  { apply (f_equal length) in Edrop. rewrite length_drop, Hlen in Edrop. simpl in Edrop.
    unfold n, RX_BUF_SIZE in Edrop. lia. }
  replace (Z.of_nat n) with (Z.of_nat (length (take RX_BUF_SIZE dir))) by (by rewrite Hn).
  rewrite take_0, app_nil_l, put_at. cbn [mbind option_bind].
  eexists. split; [done|]. simpl. split.
  - apply cstr_app_nul. by apply Forall_take.
  - rewrite length_app, Hn. cbn [length]. apply (f_equal length) in Edrop.
    rewrite length_drop, Hlen in Edrop. simpl in Edrop. unfold n, RX_BUF_SIZE in *. lia.
Qed.

Lemma pwd_sets_path_witness :
  exists c', ftp_PwdDataSink (Some (str "257 " ++ [34] ++ str "/docs" ++ [34] ++ str " ok")) 14 (calc_start 0) = Some (14, c') /\
    cstr (path (c_app c')) = str "/docs" /\ length (path (c_app c')) = 257%nat.
Proof.
  apply (pwd_sets_path (calc_start 0) (str "257 ") (str "/docs") (str " ok")).
  - by repeat constructor.
  - by repeat constructor.
  - reflexivity.
Defined.

(** ** Configuration *)

Definition wf_prefs (p : preferences_t) : Prop :=
  length (client p) = 4%nat /\ length (mask p) = 4%nat /\ length (gw p) = 4%nat.

Lemma list4 {A} (l : list A) : length l = 4%nat -> exists a b c d, l = [a; b; c; d].
Proof. intros Hl. do 5 (destruct l as [|? l]; try discriminate Hl). eauto. Qed.

Lemma prefs_bytes_round p : wf_prefs p -> prefs_of_bytes (prefs_bytes p) = p.
Proof.
  intros (H1 & H2 & H3). destruct p as [b f h t cl m g]; simpl in *.
  destruct (list4 cl H1) as (?&?&?&?&->). destruct (list4 m H2) as (?&?&?&?&->).
  destruct (list4 g H3) as (?&?&?&?&->). done.
Qed.

Lemma prefs_bytes_length p : wf_prefs p -> length (prefs_bytes p) = SIZEOF_PREFS.
Proof. intros (H1 & H2 & H3). unfold prefs_bytes. rewrite !length_app, H1, H2, H3. done. Qed.

Lemma transparent_differs text :
  exists color, transparent_color 256 248 text = Some color /\ color <> text.
Proof.
  cbn [transparent_color]. destruct (248 =? text) eqn:E1; zbool; [|eauto].
  change 256%nat with (S 255). subst. exists 249. split; [done|lia].
Qed.

(** Configuration round trip: what [util_WriteConfig] saved at the end of
    one run, [util_ReadConfig] restores at the start of the next, given that
    the variable written is the one found and no CEaShell theme overrides it;
    the transparent text colour it picks differs from the text colour. *)
Theorem config_round_trip `{TiOS} c c0
    (written : forall o name type data arch, exists v,
       ti_OpenVar_r (ti_WriteVar o name type data arch) name type = Some v /\ v_data v = data) :
  wf_prefs (c_prefs c) ->
  ti_OpenVar_r (c_os (util_WriteConfig c)) (str "CEaShell") OS_TYPE_APPVAR = None ->
  c_os c0 = c_os (util_WriteConfig c) ->
  exists color c', util_ReadConfig c0 = Some (color, c') /\ c_prefs c' = c_prefs c /\
    color <> textColor (c_prefs c).
Proof.
  intros Hwf Hshell Hos. unfold util_ReadConfig. rewrite Hos, Hshell. unfold util_WriteConfig. simpl c_os.
  destruct (written (c_os c) (str "lwFTP") OS_TYPE_APPVAR (prefs_bytes (c_prefs c)) true)
    as (v & -> & Hv). rewrite Hv, prefs_bytes_length by done.
  rewrite (take_ge (prefs_bytes _)) by (rewrite prefs_bytes_length; done).
  rewrite prefs_bytes_round by done. rewrite Nat.leb_refl. cbv zeta iota.
  destruct (transparent_differs (textColor (c_prefs c))) as (color & -> & Hc).
  cbn [mbind option_bind]. eexists _, _. done.
Qed.

Lemma sample_written (o : os) name type data arch :
  exists v, ti_OpenVar_r (ti_WriteVar o name type data arch) name type = Some v /\ v_data v = data.
Proof.
  simpl. unfold find_var. rewrite filter_cons_True.
  - eexists. done.
  - unfold is_var. simpl. by rewrite bool_decide_true, Z.eqb_refl.
Qed.

Lemma config_round_trip_witness :
  exists color c', util_ReadConfig (util_WriteConfig (calc_start 0)) = Some (color, c') /\
    c_prefs c' = prefs_start /\ color <> 0.
Proof.
  apply (config_round_trip (calc_start 0) (util_WriteConfig (calc_start 0)) sample_written).
  - repeat split.
  - vm_compute. reflexivity.
  - reflexivity.
Defined.
