(* ===== verification/UiCorrect.v ===== *)
(** * The user interface: text entry, the cursor and the file tables

    The line editor of menu.c stays inside its buffer, the cursor keys of
    main.c keep the selection on existing entries, and the table of local files
    holds what the calculator holds; then the cases in which the file tables
    and the totals go wrong. *)

From S2P Require Import Prelude CLib Session Lwftp SessionInv AppState Callbacks Utility App Menu AppOps.
From S2P Require Import AppSamples Listing FileFormat AddrCorrect.

(** ** The line editor *)

(** The buffer holds [ed_offset] printable characters and then zeros, at least
    up to its 32nd byte. *)
Record ed_ok (e : editor) : Prop := {
  eo_room : (INPUT_BUF_SIZE <= length (ed_input e))%nat;
  eo_offset : (ed_offset e < INPUT_BUF_SIZE)%nat;
  eo_text : Forall (fun c => printable c = true) (take (ed_offset e) (ed_input e));
  eo_zero : Forall (fun c => c = 0) (take (INPUT_BUF_SIZE - ed_offset e) (drop (ed_offset e) (ed_input e)))
}.

Lemma printable_nonzero c : printable c = true -> c <> 0.
Proof. intros Hp ->. discriminate Hp. Qed.

Lemma ed_ok_start input : (INPUT_BUF_SIZE <= length input)%nat -> exists e, ed_start input = Some e /\ ed_ok e.
Proof.
  intros Hl. unfold ed_start, store0, store. rewrite length_replicate, decide_True by lia.
  cbn [mbind option_bind]. eexists. split; [done|]. split; simpl.
  - rewrite length_drop. unfold INPUT_BUF_SIZE in *. lia.
  - unfold INPUT_BUF_SIZE. lia.
  - constructor.
  - by repeat constructor.
Qed.

(** Typing a character. *)
Lemma ed_ok_type e c :
  ed_ok e -> (S (ed_offset e) < INPUT_BUF_SIZE)%nat -> printable c = true ->
  exists b, put (ed_input e) (Z.of_nat (ed_offset e)) c = Some b /\
    forall mode c' p, ed_ok (mk_editor b (S (ed_offset e)) mode c' p).
Proof.
  intros [R O T Z] Hlt Hc. destruct e as [input off mode c0 p]; cbn [ed_input ed_offset] in *.
  rewrite put_ok by lia. rewrite Nat2Z.id. eexists. split; [done|]. intros mode' c' p'.
  split; cbn [ed_input ed_offset].
  - rewrite length_app, length_take. cbn [length]. rewrite length_drop. lia.
  - lia.
  - rewrite cons_middle, app_assoc.
    replace (S off) with (length (take off input ++ [c])) by (rewrite length_app, length_take; simpl; lia).
    rewrite take_app_length. apply Forall_app. by repeat constructor.
  - rewrite cons_middle, app_assoc.
    replace (S off) with (length (take off input ++ [c])) at 2 by (rewrite length_app, length_take; simpl; lia).
    rewrite drop_app_length.
    destruct (drop off input) as [|x tl] eqn:E.
    + apply (f_equal length) in E. rewrite length_drop in E. simpl in E. lia.
    + replace (drop (S off) input) with tl
        by (rewrite <- Nat.add_1_r, <- drop_drop, E; done).
      replace (INPUT_BUF_SIZE - off)%nat with (S (INPUT_BUF_SIZE - S off)) in Z by lia.
      simpl in Z. by inversion Z.
Qed.

(** Deleting the last one. *)
Lemma ed_ok_del e off' :
  ed_ok e -> ed_offset e = S off' ->
  exists b, put (ed_input e) (Z.of_nat off') 0 = Some b /\
    forall mode c p, ed_ok (mk_editor b off' mode c p).
Proof.
  intros [R O T Z] Eo. destruct e as [input off mode c0 p]; cbn [ed_input ed_offset] in *. subst off.
  rewrite put_ok by lia. rewrite Nat2Z.id. eexists. split; [done|]. intros mode' c' p'.
  assert (Hl : length (take off' input) = off') by (rewrite length_take; lia).
  split; cbn [ed_input ed_offset].
  - rewrite length_app, Hl. cbn [length]. rewrite length_drop. lia.
  - lia.
  - rewrite take_app_le by lia. rewrite take_ge by lia.
    rewrite <- (Nat.min_l off' (S off')), <- take_take by lia. by apply Forall_take.
  - rewrite <- Hl at 2. rewrite drop_app_length.
    replace (INPUT_BUF_SIZE - off')%nat with (S (INPUT_BUF_SIZE - S off')) by lia.
    cbn [take]. by constructor.
Qed.

Lemma ed_ok_same e mode c p : ed_ok e -> ed_ok (mk_editor (ed_input e) (ed_offset e) mode c p).
Proof. intros [R O T Z]. by split. Qed.

Lemma ed_key_ok k e : ed_ok e -> exists e', ed_key k e = Some e' /\ ed_ok e'.
Proof.
  intros He. pose proof (ed_ok_same e) as Hsame. destruct e as [input off mode c p] eqn:E.
  unfold ed_key. destruct (k_alpha k); [by eauto|].
  destruct (k_del k).
  - destruct off as [|off']; [by eauto|].
    destruct (ed_ok_del _ off' He eq_refl) as (b & Hb & Hok). cbn [ed_input] in Hb. rewrite Hb.
    cbn [mbind option_bind]. eauto.
  - destruct (off <? INPUT_BUF_SIZE - 1)%nat eqn:El; [|by eauto]. apply Nat.ltb_lt in El.
    destruct (printable _) eqn:Ep; [|by eauto].
    destruct (ed_ok_type _ _ He ltac:(cbn [ed_offset]; lia) Ep) as (b & Hb & Hok).
    cbn [ed_input ed_offset] in Hb. rewrite Hb. cbn [mbind option_bind]. eauto.
Qed.

(** The string an editor holds. *)
Lemma ed_ok_string e :
  ed_ok e -> holds_string (ed_input e) (take (ed_offset e) (ed_input e)).
Proof.
  intros [R O T Z]. destruct (drop (ed_offset e) (ed_input e)) as [|x tl] eqn:E.
  - apply (f_equal length) in E. rewrite length_drop in E. simpl in E. lia.
  - replace (INPUT_BUF_SIZE - ed_offset e)%nat with (S (INPUT_BUF_SIZE - S (ed_offset e))) in Z by lia.
    cbn [take] in Z. inversion Z; subst. exists tl. split.
    + by rewrite <- E, take_drop.
    + eapply Forall_impl; [exact T|]. intros y. apply printable_nonzero.
Qed.

(** A string that fits the smallest buffer it is copied to. *)
Definition typed (s : bytes) : Prop :=
  exists text, holds_string s text /\ (length text < INPUT_BUF_SIZE)%nat /\
    Forall (fun c => printable c = true) text.

Section Input.
Context `{TiOS} (service : M unit).

(** Only the end of the recorded keypad input stops the editor. *)
Definition starved (f : fault) : Prop := f = F_fuel.

Context (Hservice : forall w, wp service starved (fun _ _ => True) w).

Lemma wp_kb_Scan (Q : keys -> world -> Prop) w :
  (forall k w', Q k w') -> wp kb_Scan starved Q w.
Proof. intros HQ. unfold wp, kb_Scan. by destruct (c_keys (w_cl w)). Qed.

Lemma wp_WaitBeforeKeypress p (Q : bool -> world -> Prop) w :
  (forall b w', Q b w') -> wp (util_WaitBeforeKeypress service p) starved Q w.
Proof.
  intros HQ. unfold util_WaitBeforeKeypress, get_app. wp_go; try apply HQ.
  eapply wp_mono; [apply Hservice|]. intros [] w' _. apply HQ.
Qed.

Lemma wp_input_loop n cur e w :
  ed_ok e -> wp (input_loop service n cur e) starved (fun r _ => ed_ok (snd r)) w.
Proof.
  revert cur e w. induction n as [|n IH]; intros cur e w He; [done|]. cbn [input_loop].
  wp_step; [done|]. wp_step. apply wp_kb_Scan. intros k w1.
  cbn zeta. set (e1 := if negb (any_key k) && ed_pressed e then _ else _).
  assert (He1 : ed_ok e1) by (unfold e1; destruct (_ && _); [by apply ed_ok_same|done]).
  clearbody e1. wp_step; [|by apply IH]. wp_step; [done|].
  destruct (ed_key_ok k e1 He1) as (e2 & E2 & He2). rewrite E2. wp_go.
  apply wp_WaitBeforeKeypress. intros b w2. apply IH. by apply ed_ok_same.
Qed.

Lemma wp_StringInput input w :
  (INPUT_BUF_SIZE <= length input)%nat ->
  wp (menu_StringInput service input) starved (fun r _ => typed (snd r)) w.
Proof.
  intros Hl. unfold menu_StringInput, scans_left. destruct (ed_ok_start input Hl) as (e & -> & He). wp_go.
  eapply wp_mono; [by apply wp_input_loop|]. intros [k e'] w' He'. cbn [snd] in He'. wp_go.
  exists (take (ed_offset e') (ed_input e')). split; [by apply ed_ok_string|].
  destruct He' as [R O T Z]. split; [|done]. rewrite length_take. lia.
Qed.

End Input.

(** C21. Text entry: whatever keys are pressed and however long, the line
    editor writes inside its buffer only, and what it returns is a terminated
    string of at most 31 printable characters, so that copying it to the user
    name, the password or a path buffer is safe.  The polling of the network
    between keys is only asked not to fault by itself. *)
Theorem string_input_safe `{TiOS} service input w :
  (forall w, wp service starved (fun _ _ => True) w) ->
  (INPUT_BUF_SIZE <= length input)%nat ->
  match menu_StringInput service input w with
  | Done (_, s) _ => typed s
  | Fault f => starved f
  end.
Proof.
  intros Hs Hl. pose proof (wp_StringInput service Hs input w Hl) as Hw. unfold wp in Hw.
  by destruct (menu_StringInput service input w) as [[r s] w'|f].
Qed.

Definition key_char (c : Z) : keys :=
  mk_keys false false false false false false false false false false false false false false false
    [c; c; c] false.
Definition key_2nd : keys :=
  mk_keys false false true false false false false false false false false false false false false
    [] false.

Definition typing : world := app_world (set_c_keys [key_char 65; no_keys; key_char 66; no_keys; key_2nd] (calc_start 0)).

Lemma string_input_safe_witness :
  match menu_StringInput (mret tt) (replicate 32 0) typing with
  | Done (_, s) _ => typed s
  | Fault f => starved f
  end.
Proof.
  apply (string_input_safe (mret tt) (replicate 32 0) typing).
  - intros w. exact I.
  - simpl. unfold INPUT_BUF_SIZE. lia.
Defined.

Example typing_gives_AB :
  match menu_StringInput (mret tt) (replicate 32 0) typing with
  | Done (r, s) _ => r = 0 /\ cstr s = str "AB"
  | Fault f => False
  end.
Proof. vm_compute. split; reflexivity. Qed.

(** ** The cursor *)

(** The selected entry of a column exists and is on the screen. *)
Definition visible (a : app_t) (col : bool) : Prop :=
  0 <= at2 (start a) col <= at2 (selected a) col /\
  at2 (selected a) col < at2 (start a) col + MAX_SHOWN_FILES /\
  at2 (selected a) col < at2 (total a) col.

Definition column_ok (a : app_t) (col : bool) : Prop :=
  0 < at2 (total a) col <= MAX_LOCAL_FILES /\ visible a col.

Lemma at2_upd2_same b v p : at2 (upd2 b v p) b = v.
Proof. by destruct b. Qed.
Lemma at2_upd2_other b v p : at2 (upd2 b v p) (negb b) = at2 p (negb b).
Proof. by destruct b. Qed.

Lemma cursor_up_ok a : column_ok a (remoteColumn a) -> column_ok (cursor_up a) (remoteColumn a).
Proof.
  intros [Hn [Hs [Hw Hl]]]. change MAX_LOCAL_FILES with 500 in *. change MAX_SHOWN_FILES with 15 in *.
  unfold cursor_up, column_ok, visible. change MAX_SHOWN_FILES with 15. change MAX_LOCAL_FILES with 500.
  set (col := remoteColumn a) in *. cbv zeta.
  destruct (at2 (selected a) col =? 0) eqn:E; zbool; cbn [negb].
  - rewrite (u24_small (at2 (total a) col - 1)) by lia.
    destruct (at2 (total a) col >? 15) eqn:E2; zbool; simpl; rewrite ?at2_upd2_same; lia.
  - destruct (at2 (selected a) col - 1 <? at2 (start _) col) eqn:E2; zbool; simpl in *;
      rewrite ?at2_upd2_same in *; rewrite ?u24_small by lia; lia.
Qed.

Lemma cursor_down_ok a : column_ok a (remoteColumn a) -> column_ok (cursor_down a) (remoteColumn a).
Proof.
  intros [Hn [Hs [Hw Hl]]]. change MAX_LOCAL_FILES with 500 in *. change MAX_SHOWN_FILES with 15 in *.
  unfold cursor_down, column_ok, visible. change MAX_SHOWN_FILES with 15. change MAX_LOCAL_FILES with 500.
  set (col := remoteColumn a) in *. cbv zeta. rewrite (u24_small (at2 (total a) col - 1)) by lia.
  destruct (at2 (selected a) col =? at2 (total a) col - 1) eqn:E; zbool; cbn [negb].
  - simpl. rewrite ?at2_upd2_same. lia.
  - rewrite (u24_small (at2 (selected a) col + 1)) by lia.
    destruct (at2 (selected a) col + 1 >? u24 _) eqn:E2; zbool; simpl in *;
      rewrite ?at2_upd2_same in *; rewrite u24_small in E2 by lia; rewrite ?u24_small by lia; lia.
Qed.

(** Nothing else moves in the other column. *)
Lemma cursor_other a :
  (column_ok a (negb (remoteColumn a)) -> column_ok (cursor_up a) (negb (remoteColumn a))) /\
  (column_ok a (negb (remoteColumn a)) -> column_ok (cursor_down a) (negb (remoteColumn a))).
Proof.
  unfold column_ok, visible, cursor_up, cursor_down. cbv zeta.
  split; intros Hc; repeat case_match; simpl; rewrite ?at2_upd2_other; done.
Qed.

(** The cursor keys keep the selection valid: with both columns non-empty,
    after any cursor key the selected entry of each column exists and is among
    the fifteen shown. *)
Theorem cursor_stays_visible k a :
  (forall col, column_ok a col) -> forall col, column_ok (cursor k a) col.
Proof.
  intros Hc col. unfold cursor.
  destruct (k_left k || k_right k); [exact (Hc col)|].
  destruct (cursor_other a) as [Hu Hd].
  assert (col = remoteColumn a \/ col = negb (remoteColumn a)) as [-> | ->].
  { destruct col, (remoteColumn a); auto. }
  - destruct (k_up k); [by apply cursor_up_ok|]. destruct (k_down k); [by apply cursor_down_ok|done].
  - destruct (k_up k); [by apply Hu|]. destruct (k_down k); [by apply Hd|done].
Qed.

Definition two_columns : app_t :=
  set_total (20, 3) (set_selected (0, 2) app_start).

Lemma cursor_stays_visible_witness :
  column_ok (cursor (mk_keys false false false false false true false false false
                       false false false false false false [] false) two_columns) false.
Proof.
  apply (cursor_stays_visible _ two_columns). intros [];
    unfold column_ok, visible; simpl; change MAX_LOCAL_FILES with 500; change MAX_SHOWN_FILES with 15; lia.
Defined.

(** In an empty column the Up key selects entry 2^24 - 1, far outside
    either table. *)
Theorem up_in_empty_column a :
  at2 (total a) (remoteColumn a) = 0 -> at2 (selected a) (remoteColumn a) = 0 ->
  at2 (selected (cursor_up a)) (remoteColumn a) = 2 ^ 24 - 1.
Proof.
  intros Ht Hs. unfold cursor_up. cbv zeta. rewrite Ht, Hs. simpl. by rewrite at2_upd2_same.
Qed.

Lemma up_in_empty_column_witness :
  at2 (selected (cursor_up app_start)) false = 2 ^ 24 - 1.
Proof. apply (up_in_empty_column app_start); reflexivity. Defined.

(** ** File tables *)

Section Tables.
Context `{TiOS}.

(** The entries [util_GetLocalFiles] lists. *)
Definition listed (v : bytes * Z) : bool :=
  match head (fst v) with
  | Some c => negb ((c =? ch_bang) || (c =? ch_hash)) && bool_decide (is_Some (local_type (snd v)))
  | None => false
  end.

Definition local_entry (v : bytes * Z) : file_t :=
  mk_file (default TYPE_UNKNOWN (local_type (snd v))) (unhide (take 8 (fst v)) ++ [0]).

Lemma local_loop_spec vars i files :
  Forall (fun v => (8 <= length (fst v))%nat) vars ->
  0 <= i -> Z.of_nat (length files) = MAX_LOCAL_FILES ->
  i + Z.of_nat (length (filter (fun v => listed v = true) vars)) <= MAX_LOCAL_FILES ->
  exists files', local_loop vars i files =
      Some (i + Z.of_nat (length (filter (fun v => listed v = true) vars)), files') /\
    length files' = length files /\
    take (Z.to_nat i + length (filter (fun v => listed v = true) vars)) files' =
    take (Z.to_nat i) files ++ map local_entry (filter (fun v => listed v = true) vars).
Proof.
  intros Hv. revert i files. induction Hv as [|[name t] vars Hname Hv IH]; intros i files Hi Hl Hn.
  - exists files. simpl. rewrite Z.add_0_r, Nat.add_0_r, app_nil_r. done.
  - cbn [local_loop]. simpl in Hname. destruct name as [|c name]; [simpl in Hname; lia|].
    cbn [head mbind option_bind].
    destruct (listed (c :: name, t)) eqn:El.
    + rewrite filter_cons_True in Hn |- * by done. cbn [length] in Hn |- *.
      unfold listed in El. cbn [fst snd head] in El. apply andb_prop in El as [E1 E2].
      apply negb_true_iff in E1. rewrite E1. apply bool_decide_eq_true in E2 as [ty Ety]. rewrite Ety.
      rewrite (proj2 (Z.ltb_lt i MAX_LOCAL_FILES)) by lia.
      rewrite (proj2 (Nat.leb_le 8 _)) by (simpl in *; lia). cbn [andb].
      destruct (IH (i + 1) (<[Z.to_nat i := mk_file ty (unhide (take 8 (c :: name)) ++ [0])]> files))
        as (f' & E & L & Tk); [lia|by rewrite length_insert|lia|].
      exists f'. rewrite E. split; [f_equal; f_equal; lia|]. rewrite length_insert in L. split; [done|].
      replace (Z.to_nat (i + 1)) with (S (Z.to_nat i)) in Tk by lia.
      rewrite Nat.add_succ_r, <- Nat.add_succ_l, Tk. cbn [map].
      rewrite (take_S_r _ _ (mk_file ty (unhide (take 8 (c :: name)) ++ [0]))).
      * rewrite take_insert_ge by lia. rewrite <- app_assoc. cbn [app].
        unfold local_entry at 2. cbn [fst snd]. by rewrite Ety.
      * rewrite list_lookup_insert_eq; [done|lia].
    + rewrite filter_cons_False in Hn |- * by congruence.
      destruct (IH i files Hi Hl Hn) as (f' & E & L & Tk). exists f'. split; [|done].
      unfold listed in El. cbn [fst snd head] in El.
      destruct ((c =? ch_bang) || (c =? ch_hash)); [done|]. cbn [negb andb] in El.
      apply bool_decide_eq_false in El. destruct (local_type t); [exfalso; apply El; eauto|done].
Qed.

End Tables.

(** The table of local files holds exactly the AppVars and programs of the
    calculator, in VAT order, without the ones whose names start with [!] or
    [#], as long as there are at most 500 of them. *)
Theorem local_files_listed `{TiOS} c :
  let vars := ti_DetectAny (util_SortVAT (c_os c)) in
  let shown := filter (fun v => listed v = true) vars in
  Forall (fun v => (8 <= length (fst v))%nat) vars ->
  Z.of_nat (length shown) <= MAX_LOCAL_FILES ->
  exists c', util_GetLocalFiles c = Some c' /\
    fst (total (c_app c')) = Z.of_nat (length shown) /\
    take (length shown) (c_local c') = map local_entry shown.
Proof.
  intros vars shown Hv Hn. unfold util_GetLocalFiles.
  destruct (local_loop_spec vars 0 (replicate (Z.to_nat MAX_LOCAL_FILES) no_file)) as (f & E & L & Tk);
    [done|lia|rewrite length_replicate; change MAX_LOCAL_FILES with 500; lia|done|].
  cbv zeta. simpl c_os. fold vars. rewrite E. cbn [mbind option_bind].
  eexists. split; [done|]. split; [reflexivity|]. exact Tk.
Qed.

Lemma local_files_listed_witness :
  exists c', util_GetLocalFiles (calc_start 0) = Some c' /\
    fst (total (c_app c')) = 2 /\
    take 2 (c_local c') = [mk_file TYPE_APPVAR (str "NOTES" ++ replicate 4 0);
                           mk_file TYPE_PROG (str "GAME" ++ replicate 5 0)].
Proof.
  apply (local_files_listed (calc_start 0)).
  - repeat constructor.
  - vm_compute. congruence.
Defined.

Definition easy : tcp_env :=
  mk_env (fun _ => true) (fun _ _ _ _ => 0) (fun _ _ _ => 0) (fun _ _ => 0) (fun _ _ => 512).

(** Deleting a local file counts twice: [util_GetLocalFiles] has already
    counted the remaining files when [util_DeleteFile] takes one off the total,
    so the last remaining file is out of the cursor's reach. *)
Theorem local_delete_undercounts :
  match util_DeleteFile easy (mret tt) (app_world (default (calc_start 0) (util_GetLocalFiles (calc_start 0)))) with
  | Done _ w' => c_os (w_cl w') = drop 1 sample_vars /\ fst (total (c_app (w_cl w'))) = 0
  | Fault _ => False
  end.
Proof. vm_compute. split; reflexivity. Qed.

(** The remote table does not lie where it is meant to: the offset of
    [REMOTE_FILES] is scaled by the size of an entry twice, which puts it
    50,000 bytes after the local table instead of 5,000, past the end of the
    8,400 bytes [MAX_REMOTE_FILES] is computed for. *)
Theorem remote_table_misplaced :
  REMOTE_FILES = LOCAL_FILES + 50000 /\
  LOCAL_FILES + 8400 < REMOTE_FILES /\
  MAX_REMOTE_FILES * sizeof_file_t + MAX_LOCAL_FILES * sizeof_file_t = 8400.
Proof. vm_compute. done. Qed.
