(* ===== verification/MemState.v ===== *)
(** * The memory manager: data, heap and effect monad

    The data of [src/src/drivers/mem.h] and the static variables of
    [src/src/drivers/mem.c], with the part of C the module uses to reach
    memory.

    - Addresses are integers of the 24-bit address space, [NULL] is 0.  The
      heap maps the base address of every live allocation to its contents:
      either a [struct mem_buffer] or an array of bytes.
    - The three allocator functions handed to [mem_init] are a record
      [allocator] of answers.  Each is asked with the history of calls and the
      live blocks, so quantifying over the record quantifies over every
      allocator; what the C library documents about them is [AllocLaws].
    - Throttle hooks and low-memory callbacks belong to other modules: a call is
      recorded in the history with its arguments.
    - Every access goes through a checked read or write: an access outside a
      live allocation, or a division by zero, stops with a fault.

    [rb->cfg] is always the address of the one static configuration, so the
    field is not kept. *)

From S2P Require Import Prelude.

(** ** Enumerations (mem.h) *)

Inductive mem_pressure_level :=
| MEM_PRESSURE_NONE
| MEM_PRESSURE_MILD
| MEM_PRESSURE_HIGH
| MEM_PRESSURE_CRITICAL.

#[global] Instance mem_pressure_level_eq_dec : EqDecision mem_pressure_level.
Proof. solve_decision. Defined.

(** The value of the enumerator. *)
Definition level_rank (l : mem_pressure_level) : Z :=
  match l with
  | MEM_PRESSURE_NONE => 0
  | MEM_PRESSURE_MILD => 1
  | MEM_PRESSURE_HIGH => 2
  | MEM_PRESSURE_CRITICAL => 3
  end.

Inductive mem_buffer_owner :=
| MEM_BUF_OWNER_UNKNOWN
| MEM_BUF_OWNER_LWIP_POOL
| MEM_BUF_OWNER_ETH_RX
| MEM_BUF_OWNER_ETH_TX
| MEM_BUF_OWNER_TLS_RX
| MEM_BUF_OWNER_TLS_TX.

#[global] Instance mem_buffer_owner_eq_dec : EqDecision mem_buffer_owner.
Proof. solve_decision. Defined.

(** Bits of [flags]. *)
Definition BUFFER_SECURE_MODE : Z := 1.
Definition BUFFER_LOCK_SIZE : Z := 2.
Definition BUFFER_MALLOC_TYPE : Z := 4.

(** [(flags & bit) != 0] *)
Definition has_flag (flags bit : Z) : bool := negb (Z.land flags bit =? 0).

(** A function pointer, by identity. *)
Abbreviation callback := nat.

(** ** Structures *)

Record mem_buffer_config := mk_cfg {
  max_heap : Z;
  heap_used : Z;
  cfg_step : Z;
  cfg_grow_pct : Z;
  cfg_shrink_pct : Z;
  cfg_shrink_hold : Z;
  malloc_set : bool;
  free_set : bool;
  realloc_set : bool;
  internal_low_mem_cb : option callback
}.

Definition set_max_heap (v : Z) (a : mem_buffer_config) : mem_buffer_config :=
  mk_cfg v (heap_used a) (cfg_step a) (cfg_grow_pct a) (cfg_shrink_pct a) (cfg_shrink_hold a) (malloc_set a) (free_set a) (realloc_set a) (internal_low_mem_cb a).
Definition set_heap_used (v : Z) (a : mem_buffer_config) : mem_buffer_config :=
  mk_cfg (max_heap a) v (cfg_step a) (cfg_grow_pct a) (cfg_shrink_pct a) (cfg_shrink_hold a) (malloc_set a) (free_set a) (realloc_set a) (internal_low_mem_cb a).
Definition set_cfg_step (v : Z) (a : mem_buffer_config) : mem_buffer_config :=
  mk_cfg (max_heap a) (heap_used a) v (cfg_grow_pct a) (cfg_shrink_pct a) (cfg_shrink_hold a) (malloc_set a) (free_set a) (realloc_set a) (internal_low_mem_cb a).
Definition set_cfg_grow_pct (v : Z) (a : mem_buffer_config) : mem_buffer_config :=
  mk_cfg (max_heap a) (heap_used a) (cfg_step a) v (cfg_shrink_pct a) (cfg_shrink_hold a) (malloc_set a) (free_set a) (realloc_set a) (internal_low_mem_cb a).
Definition set_cfg_shrink_pct (v : Z) (a : mem_buffer_config) : mem_buffer_config :=
  mk_cfg (max_heap a) (heap_used a) (cfg_step a) (cfg_grow_pct a) v (cfg_shrink_hold a) (malloc_set a) (free_set a) (realloc_set a) (internal_low_mem_cb a).
Definition set_cfg_shrink_hold (v : Z) (a : mem_buffer_config) : mem_buffer_config :=
  mk_cfg (max_heap a) (heap_used a) (cfg_step a) (cfg_grow_pct a) (cfg_shrink_pct a) v (malloc_set a) (free_set a) (realloc_set a) (internal_low_mem_cb a).
Definition set_malloc_set (v : bool) (a : mem_buffer_config) : mem_buffer_config :=
  mk_cfg (max_heap a) (heap_used a) (cfg_step a) (cfg_grow_pct a) (cfg_shrink_pct a) (cfg_shrink_hold a) v (free_set a) (realloc_set a) (internal_low_mem_cb a).
Definition set_free_set (v : bool) (a : mem_buffer_config) : mem_buffer_config :=
  mk_cfg (max_heap a) (heap_used a) (cfg_step a) (cfg_grow_pct a) (cfg_shrink_pct a) (cfg_shrink_hold a) (malloc_set a) v (realloc_set a) (internal_low_mem_cb a).
Definition set_realloc_set (v : bool) (a : mem_buffer_config) : mem_buffer_config :=
  mk_cfg (max_heap a) (heap_used a) (cfg_step a) (cfg_grow_pct a) (cfg_shrink_pct a) (cfg_shrink_hold a) (malloc_set a) (free_set a) v (internal_low_mem_cb a).
Definition set_internal_low_mem_cb (v : option callback) (a : mem_buffer_config) : mem_buffer_config :=
  mk_cfg (max_heap a) (heap_used a) (cfg_step a) (cfg_grow_pct a) (cfg_shrink_pct a) (cfg_shrink_hold a) (malloc_set a) (free_set a) (realloc_set a) v.

(** The anonymous union is kept as its words: the ring's [len], [head] and
    [lock_size] occupy the storage of the pool's [pool_block_size],
    [pool_block_count] and [pool_used_blocks]. *)
Record mem_buffer := mk_mb {
  buf : Z;
  cap : Z;
  max_cap : Z;
  owner : mem_buffer_owner;
  flags : Z;
  last_pressure_level : mem_pressure_level;
  step : Z;
  grow_threshold_pct : Z;
  shrink_threshold_pct : Z;
  shrink_hold_count : Z;
  shrink_hold_base : Z;
  shrink_hold_next : Z;
  shrink_stage : Z;
  shrink_hits : Z;
  low_mem_cb : option callback;
  drain_fn : option callback;
  drain_fn_data : Z;
  u0 : Z;
  u1 : Z;
  u2 : Z;
  pool_bitmap : Z;
  pool_bitmap_bytes : Z
}.

Definition set_buf (v : Z) (a : mem_buffer) : mem_buffer :=
  mk_mb v (cap a) (max_cap a) (owner a) (flags a) (last_pressure_level a) (step a) (grow_threshold_pct a) (shrink_threshold_pct a) (shrink_hold_count a) (shrink_hold_base a) (shrink_hold_next a) (shrink_stage a) (shrink_hits a) (low_mem_cb a) (drain_fn a) (drain_fn_data a) (u0 a) (u1 a) (u2 a) (pool_bitmap a) (pool_bitmap_bytes a).
Definition set_cap (v : Z) (a : mem_buffer) : mem_buffer :=
  mk_mb (buf a) v (max_cap a) (owner a) (flags a) (last_pressure_level a) (step a) (grow_threshold_pct a) (shrink_threshold_pct a) (shrink_hold_count a) (shrink_hold_base a) (shrink_hold_next a) (shrink_stage a) (shrink_hits a) (low_mem_cb a) (drain_fn a) (drain_fn_data a) (u0 a) (u1 a) (u2 a) (pool_bitmap a) (pool_bitmap_bytes a).
Definition set_max_cap (v : Z) (a : mem_buffer) : mem_buffer :=
  mk_mb (buf a) (cap a) v (owner a) (flags a) (last_pressure_level a) (step a) (grow_threshold_pct a) (shrink_threshold_pct a) (shrink_hold_count a) (shrink_hold_base a) (shrink_hold_next a) (shrink_stage a) (shrink_hits a) (low_mem_cb a) (drain_fn a) (drain_fn_data a) (u0 a) (u1 a) (u2 a) (pool_bitmap a) (pool_bitmap_bytes a).
Definition set_owner (v : mem_buffer_owner) (a : mem_buffer) : mem_buffer :=
  mk_mb (buf a) (cap a) (max_cap a) v (flags a) (last_pressure_level a) (step a) (grow_threshold_pct a) (shrink_threshold_pct a) (shrink_hold_count a) (shrink_hold_base a) (shrink_hold_next a) (shrink_stage a) (shrink_hits a) (low_mem_cb a) (drain_fn a) (drain_fn_data a) (u0 a) (u1 a) (u2 a) (pool_bitmap a) (pool_bitmap_bytes a).
Definition set_flags (v : Z) (a : mem_buffer) : mem_buffer :=
  mk_mb (buf a) (cap a) (max_cap a) (owner a) v (last_pressure_level a) (step a) (grow_threshold_pct a) (shrink_threshold_pct a) (shrink_hold_count a) (shrink_hold_base a) (shrink_hold_next a) (shrink_stage a) (shrink_hits a) (low_mem_cb a) (drain_fn a) (drain_fn_data a) (u0 a) (u1 a) (u2 a) (pool_bitmap a) (pool_bitmap_bytes a).
Definition set_last_pressure_level (v : mem_pressure_level) (a : mem_buffer) : mem_buffer :=
  mk_mb (buf a) (cap a) (max_cap a) (owner a) (flags a) v (step a) (grow_threshold_pct a) (shrink_threshold_pct a) (shrink_hold_count a) (shrink_hold_base a) (shrink_hold_next a) (shrink_stage a) (shrink_hits a) (low_mem_cb a) (drain_fn a) (drain_fn_data a) (u0 a) (u1 a) (u2 a) (pool_bitmap a) (pool_bitmap_bytes a).
Definition set_step (v : Z) (a : mem_buffer) : mem_buffer :=
  mk_mb (buf a) (cap a) (max_cap a) (owner a) (flags a) (last_pressure_level a) v (grow_threshold_pct a) (shrink_threshold_pct a) (shrink_hold_count a) (shrink_hold_base a) (shrink_hold_next a) (shrink_stage a) (shrink_hits a) (low_mem_cb a) (drain_fn a) (drain_fn_data a) (u0 a) (u1 a) (u2 a) (pool_bitmap a) (pool_bitmap_bytes a).
Definition set_grow_threshold_pct (v : Z) (a : mem_buffer) : mem_buffer :=
  mk_mb (buf a) (cap a) (max_cap a) (owner a) (flags a) (last_pressure_level a) (step a) v (shrink_threshold_pct a) (shrink_hold_count a) (shrink_hold_base a) (shrink_hold_next a) (shrink_stage a) (shrink_hits a) (low_mem_cb a) (drain_fn a) (drain_fn_data a) (u0 a) (u1 a) (u2 a) (pool_bitmap a) (pool_bitmap_bytes a).
Definition set_shrink_threshold_pct (v : Z) (a : mem_buffer) : mem_buffer :=
  mk_mb (buf a) (cap a) (max_cap a) (owner a) (flags a) (last_pressure_level a) (step a) (grow_threshold_pct a) v (shrink_hold_count a) (shrink_hold_base a) (shrink_hold_next a) (shrink_stage a) (shrink_hits a) (low_mem_cb a) (drain_fn a) (drain_fn_data a) (u0 a) (u1 a) (u2 a) (pool_bitmap a) (pool_bitmap_bytes a).
Definition set_shrink_hold_count (v : Z) (a : mem_buffer) : mem_buffer :=
  mk_mb (buf a) (cap a) (max_cap a) (owner a) (flags a) (last_pressure_level a) (step a) (grow_threshold_pct a) (shrink_threshold_pct a) v (shrink_hold_base a) (shrink_hold_next a) (shrink_stage a) (shrink_hits a) (low_mem_cb a) (drain_fn a) (drain_fn_data a) (u0 a) (u1 a) (u2 a) (pool_bitmap a) (pool_bitmap_bytes a).
Definition set_shrink_hold_base (v : Z) (a : mem_buffer) : mem_buffer :=
  mk_mb (buf a) (cap a) (max_cap a) (owner a) (flags a) (last_pressure_level a) (step a) (grow_threshold_pct a) (shrink_threshold_pct a) (shrink_hold_count a) v (shrink_hold_next a) (shrink_stage a) (shrink_hits a) (low_mem_cb a) (drain_fn a) (drain_fn_data a) (u0 a) (u1 a) (u2 a) (pool_bitmap a) (pool_bitmap_bytes a).
Definition set_shrink_hold_next (v : Z) (a : mem_buffer) : mem_buffer :=
  mk_mb (buf a) (cap a) (max_cap a) (owner a) (flags a) (last_pressure_level a) (step a) (grow_threshold_pct a) (shrink_threshold_pct a) (shrink_hold_count a) (shrink_hold_base a) v (shrink_stage a) (shrink_hits a) (low_mem_cb a) (drain_fn a) (drain_fn_data a) (u0 a) (u1 a) (u2 a) (pool_bitmap a) (pool_bitmap_bytes a).
Definition set_shrink_stage (v : Z) (a : mem_buffer) : mem_buffer :=
  mk_mb (buf a) (cap a) (max_cap a) (owner a) (flags a) (last_pressure_level a) (step a) (grow_threshold_pct a) (shrink_threshold_pct a) (shrink_hold_count a) (shrink_hold_base a) (shrink_hold_next a) v (shrink_hits a) (low_mem_cb a) (drain_fn a) (drain_fn_data a) (u0 a) (u1 a) (u2 a) (pool_bitmap a) (pool_bitmap_bytes a).
Definition set_shrink_hits (v : Z) (a : mem_buffer) : mem_buffer :=
  mk_mb (buf a) (cap a) (max_cap a) (owner a) (flags a) (last_pressure_level a) (step a) (grow_threshold_pct a) (shrink_threshold_pct a) (shrink_hold_count a) (shrink_hold_base a) (shrink_hold_next a) (shrink_stage a) v (low_mem_cb a) (drain_fn a) (drain_fn_data a) (u0 a) (u1 a) (u2 a) (pool_bitmap a) (pool_bitmap_bytes a).
Definition set_low_mem_cb (v : option callback) (a : mem_buffer) : mem_buffer :=
  mk_mb (buf a) (cap a) (max_cap a) (owner a) (flags a) (last_pressure_level a) (step a) (grow_threshold_pct a) (shrink_threshold_pct a) (shrink_hold_count a) (shrink_hold_base a) (shrink_hold_next a) (shrink_stage a) (shrink_hits a) v (drain_fn a) (drain_fn_data a) (u0 a) (u1 a) (u2 a) (pool_bitmap a) (pool_bitmap_bytes a).
Definition set_drain_fn (v : option callback) (a : mem_buffer) : mem_buffer :=
  mk_mb (buf a) (cap a) (max_cap a) (owner a) (flags a) (last_pressure_level a) (step a) (grow_threshold_pct a) (shrink_threshold_pct a) (shrink_hold_count a) (shrink_hold_base a) (shrink_hold_next a) (shrink_stage a) (shrink_hits a) (low_mem_cb a) v (drain_fn_data a) (u0 a) (u1 a) (u2 a) (pool_bitmap a) (pool_bitmap_bytes a).
Definition set_drain_fn_data (v : Z) (a : mem_buffer) : mem_buffer :=
  mk_mb (buf a) (cap a) (max_cap a) (owner a) (flags a) (last_pressure_level a) (step a) (grow_threshold_pct a) (shrink_threshold_pct a) (shrink_hold_count a) (shrink_hold_base a) (shrink_hold_next a) (shrink_stage a) (shrink_hits a) (low_mem_cb a) (drain_fn a) v (u0 a) (u1 a) (u2 a) (pool_bitmap a) (pool_bitmap_bytes a).
Definition set_u0 (v : Z) (a : mem_buffer) : mem_buffer :=
  mk_mb (buf a) (cap a) (max_cap a) (owner a) (flags a) (last_pressure_level a) (step a) (grow_threshold_pct a) (shrink_threshold_pct a) (shrink_hold_count a) (shrink_hold_base a) (shrink_hold_next a) (shrink_stage a) (shrink_hits a) (low_mem_cb a) (drain_fn a) (drain_fn_data a) v (u1 a) (u2 a) (pool_bitmap a) (pool_bitmap_bytes a).
Definition set_u1 (v : Z) (a : mem_buffer) : mem_buffer :=
  mk_mb (buf a) (cap a) (max_cap a) (owner a) (flags a) (last_pressure_level a) (step a) (grow_threshold_pct a) (shrink_threshold_pct a) (shrink_hold_count a) (shrink_hold_base a) (shrink_hold_next a) (shrink_stage a) (shrink_hits a) (low_mem_cb a) (drain_fn a) (drain_fn_data a) (u0 a) v (u2 a) (pool_bitmap a) (pool_bitmap_bytes a).
Definition set_u2 (v : Z) (a : mem_buffer) : mem_buffer :=
  mk_mb (buf a) (cap a) (max_cap a) (owner a) (flags a) (last_pressure_level a) (step a) (grow_threshold_pct a) (shrink_threshold_pct a) (shrink_hold_count a) (shrink_hold_base a) (shrink_hold_next a) (shrink_stage a) (shrink_hits a) (low_mem_cb a) (drain_fn a) (drain_fn_data a) (u0 a) (u1 a) v (pool_bitmap a) (pool_bitmap_bytes a).
Definition set_pool_bitmap (v : Z) (a : mem_buffer) : mem_buffer :=
  mk_mb (buf a) (cap a) (max_cap a) (owner a) (flags a) (last_pressure_level a) (step a) (grow_threshold_pct a) (shrink_threshold_pct a) (shrink_hold_count a) (shrink_hold_base a) (shrink_hold_next a) (shrink_stage a) (shrink_hits a) (low_mem_cb a) (drain_fn a) (drain_fn_data a) (u0 a) (u1 a) (u2 a) v (pool_bitmap_bytes a).
Definition set_pool_bitmap_bytes (v : Z) (a : mem_buffer) : mem_buffer :=
  mk_mb (buf a) (cap a) (max_cap a) (owner a) (flags a) (last_pressure_level a) (step a) (grow_threshold_pct a) (shrink_threshold_pct a) (shrink_hold_count a) (shrink_hold_base a) (shrink_hold_next a) (shrink_stage a) (shrink_hits a) (low_mem_cb a) (drain_fn a) (drain_fn_data a) (u0 a) (u1 a) (u2 a) (pool_bitmap a) v.

(** The two views of the union. *)
Abbreviation ring_len := u0.
Abbreviation ring_head := u1.
Abbreviation lock_size := u2.
Abbreviation pool_block_size := u0.
Abbreviation pool_block_count := u1.
Abbreviation pool_used_blocks := u2.
Abbreviation set_ring_len := set_u0.
Abbreviation set_ring_head := set_u1.
Abbreviation set_lock_size := set_u2.
Abbreviation set_pool_block_size := set_u0.
Abbreviation set_pool_block_count := set_u1.
Abbreviation set_pool_used_blocks := set_u2.

(** Pool configuration for the lwIP allocator. *)
Record mem_buffer_pool_cfg := mk_pool_cfg {
  pc_block_size : Z;
  pc_block_count : Z;
  pc_max_cap : Z;
  pc_flags : Z;
  pc_low_mem_cb : option callback;
  pc_owner : mem_buffer_owner
}.

(** The [g_pressure_] variables. *)
Record pressure := mk_pressure {
  hook_eth : option callback;
  hook_tls : option callback;
  global_active : bool;
  eth_active : bool;
  tls_active : bool;
  global_level : mem_pressure_level;
  eth_level : mem_pressure_level;
  tls_level : mem_pressure_level;
  eth_effective : mem_pressure_level;
  tls_effective : mem_pressure_level;
  clear_pct : Z
}.

Definition set_hook_eth (v : option callback) (a : pressure) : pressure :=
  mk_pressure v (hook_tls a) (global_active a) (eth_active a) (tls_active a) (global_level a) (eth_level a) (tls_level a) (eth_effective a) (tls_effective a) (clear_pct a).
Definition set_hook_tls (v : option callback) (a : pressure) : pressure :=
  mk_pressure (hook_eth a) v (global_active a) (eth_active a) (tls_active a) (global_level a) (eth_level a) (tls_level a) (eth_effective a) (tls_effective a) (clear_pct a).
Definition set_global_active (v : bool) (a : pressure) : pressure :=
  mk_pressure (hook_eth a) (hook_tls a) v (eth_active a) (tls_active a) (global_level a) (eth_level a) (tls_level a) (eth_effective a) (tls_effective a) (clear_pct a).
Definition set_eth_active (v : bool) (a : pressure) : pressure :=
  mk_pressure (hook_eth a) (hook_tls a) (global_active a) v (tls_active a) (global_level a) (eth_level a) (tls_level a) (eth_effective a) (tls_effective a) (clear_pct a).
Definition set_tls_active (v : bool) (a : pressure) : pressure :=
  mk_pressure (hook_eth a) (hook_tls a) (global_active a) (eth_active a) v (global_level a) (eth_level a) (tls_level a) (eth_effective a) (tls_effective a) (clear_pct a).
Definition set_global_level (v : mem_pressure_level) (a : pressure) : pressure :=
  mk_pressure (hook_eth a) (hook_tls a) (global_active a) (eth_active a) (tls_active a) v (eth_level a) (tls_level a) (eth_effective a) (tls_effective a) (clear_pct a).
Definition set_eth_level (v : mem_pressure_level) (a : pressure) : pressure :=
  mk_pressure (hook_eth a) (hook_tls a) (global_active a) (eth_active a) (tls_active a) (global_level a) v (tls_level a) (eth_effective a) (tls_effective a) (clear_pct a).
Definition set_tls_level (v : mem_pressure_level) (a : pressure) : pressure :=
  mk_pressure (hook_eth a) (hook_tls a) (global_active a) (eth_active a) (tls_active a) (global_level a) (eth_level a) v (eth_effective a) (tls_effective a) (clear_pct a).
Definition set_eth_effective (v : mem_pressure_level) (a : pressure) : pressure :=
  mk_pressure (hook_eth a) (hook_tls a) (global_active a) (eth_active a) (tls_active a) (global_level a) (eth_level a) (tls_level a) v (tls_effective a) (clear_pct a).
Definition set_tls_effective (v : mem_pressure_level) (a : pressure) : pressure :=
  mk_pressure (hook_eth a) (hook_tls a) (global_active a) (eth_active a) (tls_active a) (global_level a) (eth_level a) (tls_level a) (eth_effective a) v (clear_pct a).
Definition set_clear_pct (v : Z) (a : pressure) : pressure :=
  mk_pressure (hook_eth a) (hook_tls a) (global_active a) (eth_active a) (tls_active a) (global_level a) (eth_level a) (tls_level a) (eth_effective a) (tls_effective a) v.

(** ** The heap and its history *)

(** The contents of a live allocation. *)
Inductive cell :=
| C_struct (rb : mem_buffer)
| C_bytes (l : bytes).

(** Calls out of the module, latest first. *)
Inductive mem_event :=
| E_malloc (n p : Z)
| E_realloc (q n p : Z)
| E_free (p : Z)
| E_hook (cb : callback) (l : mem_pressure_level)
| E_low_mem (cb : callback) (rb requested : Z) (l : mem_pressure_level).

Record mem_state := mk_mem {
  g_cfg : mem_buffer_config;
  g_cfg_ready : bool;
  g_lwip_heap : Z;
  g_lwip_pools : list Z;
  g_pressure : pressure;
  heap : gmap Z cell;
  history : list mem_event
}.

Definition set_g_cfg (v : mem_buffer_config) (a : mem_state) : mem_state :=
  mk_mem v (g_cfg_ready a) (g_lwip_heap a) (g_lwip_pools a) (g_pressure a) (heap a) (history a).
Definition set_g_cfg_ready (v : bool) (a : mem_state) : mem_state :=
  mk_mem (g_cfg a) v (g_lwip_heap a) (g_lwip_pools a) (g_pressure a) (heap a) (history a).
Definition set_g_lwip_heap (v : Z) (a : mem_state) : mem_state :=
  mk_mem (g_cfg a) (g_cfg_ready a) v (g_lwip_pools a) (g_pressure a) (heap a) (history a).
Definition set_g_lwip_pools (v : list Z) (a : mem_state) : mem_state :=
  mk_mem (g_cfg a) (g_cfg_ready a) (g_lwip_heap a) v (g_pressure a) (heap a) (history a).
Definition set_g_pressure (v : pressure) (a : mem_state) : mem_state :=
  mk_mem (g_cfg a) (g_cfg_ready a) (g_lwip_heap a) (g_lwip_pools a) v (heap a) (history a).
Definition set_heap (v : gmap Z cell) (a : mem_state) : mem_state :=
  mk_mem (g_cfg a) (g_cfg_ready a) (g_lwip_heap a) (g_lwip_pools a) (g_pressure a) v (history a).
Definition set_history (v : list mem_event) (a : mem_state) : mem_state :=
  mk_mem (g_cfg a) (g_cfg_ready a) (g_lwip_heap a) (g_lwip_pools a) (g_pressure a) (heap a) v.

(** The state before [mem_init], with static storage zeroed. *)
Definition mem_start : mem_state :=
  mk_mem (mk_cfg 0 0 0 0 0 0 false false false None) false 0 []
    (mk_pressure None None false false false MEM_PRESSURE_NONE MEM_PRESSURE_NONE
       MEM_PRESSURE_NONE MEM_PRESSURE_NONE MEM_PRESSURE_NONE 50) empty [].

(** ** The monad *)

Inductive mem_fault :=
| MF_deref    (** a pointer to no live object *)
| MF_bounds   (** an access outside its allocation *)
| MF_div.     (** a division by zero *)

Inductive mres (A : Type) :=
| Ok (a : A) (m : mem_state)
| Bad (f : mem_fault).
Arguments Ok {_} _ _.
Arguments Bad {_} _.

Definition MM (A : Type) : Type := mem_state -> mres A.

#[global] Instance MM_ret : MRet MM := fun A a m => Ok a m.
#[global] Instance MM_bind : MBind MM :=
  fun A B k c m => match c m with Ok a m' => k a m' | Bad f => Bad f end.

Definition mfail {A} (f : mem_fault) : MM A := fun _ => Bad f.
Definition mgets {A} (f : mem_state -> A) : MM A := fun m => Ok (f m) m.
Definition mmodify (f : mem_state -> mem_state) : MM unit := fun m => Ok tt (f m).
Definition mcfg : MM mem_buffer_config := mgets g_cfg.
Definition upd_cfg (f : mem_buffer_config -> mem_buffer_config) : MM unit :=
  mmodify (fun m => set_g_cfg (f (g_cfg m)) m).
Definition mpress : MM pressure := mgets g_pressure.
Definition upd_press (f : pressure -> pressure) : MM unit :=
  mmodify (fun m => set_g_pressure (f (g_pressure m)) m).
Definition whenMM (c : bool) (k : MM unit) : MM unit := if c then k else mret tt.

(** A value that C leaves undefined when it is [None]. *)
Definition orBad {A} (f : mem_fault) (o : option A) : MM A :=
  match o with Some a => mret a | None => mfail f end.

(** Unsigned division and remainder. *)
Definition cdiv (a b : Z) : MM Z := if b =? 0 then mfail MF_div else mret (a / b).
Definition cmod (a b : Z) : MM Z := if b =? 0 then mfail MF_div else mret (a mod b).

Definition mlog (e : mem_event) : MM unit :=
  mmodify (fun m => set_history (e :: history m) m).

(** ** Objects *)

(** [*rb], and a change of it. *)
Definition get_mb (p : Z) : MM mem_buffer := fun m =>
  match heap m !! p with
  | Some (C_struct rb) => Ok rb m
  | _ => Bad MF_deref
  end.
Definition upd_mb (p : Z) (f : mem_buffer -> mem_buffer) : MM unit :=
  rb ← get_mb p;
  mmodify (fun m => set_heap (<[p := C_struct (f rb)]> (heap m)) m).

(** The byte array at [base]. *)
Definition get_bytes (base : Z) : MM bytes := fun m =>
  match heap m !! base with
  | Some (C_bytes l) => Ok l m
  | _ => Bad MF_deref
  end.
Definition put_bytes (base : Z) (l : bytes) : MM unit :=
  mmodify (fun m => set_heap (<[base := C_bytes l]> (heap m)) m).

Definition slice (l : bytes) (off n : Z) : bytes :=
  take (Z.to_nat n) (drop (Z.to_nat off) l).
Definition splice (l : bytes) (off : Z) (d : bytes) : bytes :=
  take (Z.to_nat off) l ++ d ++ drop (Z.to_nat off + length d) l.
Definition in_bounds (l : bytes) (off n : Z) : bool :=
  (0 <=? off) && (0 <=? n) && (off + n <=? Z.of_nat (length l)).

(** [memcpy] out of and into the array at [base], and [memset] of it. *)
Definition read_bytes (base off n : Z) : MM bytes :=
  l ← get_bytes base;
  if in_bounds l off n then mret (slice l off n) else mfail MF_bounds.
Definition write_bytes (base off : Z) (d : bytes) : MM unit :=
  l ← get_bytes base;
  if in_bounds l off (Z.of_nat (length d)) then put_bytes base (splice l off d)
  else mfail MF_bounds.
Definition memset (base off v n : Z) : MM unit :=
  write_bytes base off (replicate (Z.to_nat n) v).

(** ** The allocator *)

Record allocator := mk_allocator {
  sizeof_mem_buffer : Z;
  al_malloc : list mem_event -> gmap Z Z -> Z -> Z;
  al_realloc : list mem_event -> gmap Z Z -> Z -> Z -> Z;
  al_junk : list mem_event -> nat -> Z   (** what fresh memory contains *)
}.

Section Alloc.
Context (al : allocator).

Definition cell_size (c : cell) : Z :=
  match c with
  | C_struct _ => sizeof_mem_buffer al
  | C_bytes l => Z.of_nat (length l)
  end.
Definition live_blocks (m : mem_state) : gmap Z Z := cell_size <$> heap m.

(** [n] bytes of uninitialised memory. *)
Definition junk (m : mem_state) (n : Z) : bytes :=
  (fun i => u8 (al_junk al (history m) i)) <$> seq 0 (Z.to_nat n).

(** [malloc_fn(n)] for an array of bytes. *)
Definition malloc_fn (n : Z) : MM Z := fun m =>
  let p := al_malloc al (history m) (live_blocks m) n in
  let m1 := set_history (E_malloc n p :: history m) m in
  if p =? 0 then Ok 0 m1
  else Ok p (set_heap (<[p := C_bytes (junk m n)]> (heap m)) m1).

(** [malloc_fn(sizeof(struct mem_buffer))], the fields to be [rb]: the caller
    assigns every one of them before it reads any. *)
Definition malloc_struct (rb : mem_buffer) : MM Z := fun m =>
  let n := sizeof_mem_buffer al in
  let p := al_malloc al (history m) (live_blocks m) n in
  let m1 := set_history (E_malloc n p :: history m) m in
  if p =? 0 then Ok 0 m1
  else Ok p (set_heap (<[p := C_struct rb]> (heap m)) m1).

(** [realloc_fn(q, n)]: on success the common prefix is kept and the old block
    is gone; on failure nothing changes. *)
Definition realloc_fn (q n : Z) : MM Z := fun m =>
  match heap m !! q with
  | Some (C_bytes l) =>
      let p := al_realloc al (history m) (live_blocks m) q n in
      let m1 := set_history (E_realloc q n p :: history m) m in
      if p =? 0 then Ok 0 m1
      else
        let l' := take (Z.to_nat n) l ++ drop (length l) (junk m n) in
        Ok p (set_heap (<[p := C_bytes l']> (delete q (heap m))) m1)
  | _ => Bad MF_deref
  end.

Definition free_fn (p : Z) : MM unit := fun m =>
  match heap m !! p with
  | Some _ => Ok tt (set_history (E_free p :: history m) (set_heap (delete p (heap m)) m))
  | None => Bad MF_deref
  end.

(** What the C library promises: a block handed out lies inside the address
    space and apart from every other live block. *)
Definition apart (live : gmap Z Z) (p n : Z) : Prop :=
  0 < p /\ p + n < 2 ^ 24 /\ live !! p = None /\
  forall q k, live !! q = Some k -> p + n <= q \/ q + k <= p.

Class AllocLaws := {
  sizeof_pos : 0 < sizeof_mem_buffer al < 256;
  malloc_apart : forall h live n, 0 < n ->
    al_malloc al h live n <> 0 -> apart live (al_malloc al h live n) n;
  realloc_apart : forall h live q n, 0 < n ->
    al_realloc al h live q n <> 0 ->
    apart (delete q live) (al_realloc al h live q n) n
}.
End Alloc.
