(* ===== verification/MemPressure.v ===== *)
(** * The memory manager: sizes, heap budget and pressure

    The static helpers at the top of [src/src/drivers/mem.c]: threshold and
    alignment arithmetic, the heap budget, and the pressure tiers that throttle
    the ethernet and TLS receive paths. *)

From S2P Require Import Prelude MemState.

(** ** Sizes *)

Definition threshold_bytes (cap pct : Z) : Z := u24 (cap * pct) / 100.

Definition align_step (value step : Z) : Z :=
  if step =? 0 then value
  else
    let rem := value mod step in
    if rem =? 0 then value else u24 (value + (step - rem)).

Definition MEM_SHRINK_HOLD_DEFAULT : Z := 1.
Definition MEM_POOL_HEADER_SIZE : Z := 2.
Definition MEM_LWIP_MAX_POOLS : nat := 6.

Definition mem_buffer_hold_for_stage (base stage : Z) : Z :=
  if base =? 0 then 0
  else if 15 <=? stage then u16 (Z.shiftl base 15)
  else u16 (Z.shiftl base stage).

(** ** The heap budget *)

Definition mem_buffer_charge (n : Z) : MM bool :=
  cfg ← mcfg;
  if max_heap cfg =? 0 then mret true
  else if max_heap cfg <? u24 (heap_used cfg + n) then mret false
  else
    upd_cfg (set_heap_used (u24 (heap_used cfg + n)));;
    mret true.

Definition mem_buffer_release (n : Z) : MM unit :=
  upd_cfg (fun cfg =>
    if n <=? heap_used cfg then set_heap_used (heap_used cfg - n) cfg
    else set_heap_used 0 cfg).

(** ** Pressure tiers *)

Definition mem_buffer_usage_pct (cfg : mem_buffer_config) (rb : mem_buffer)
    (used_bytes : Z) : Z :=
  if cap rb =? 0 then 0
  else
    let limit :=
      if negb (max_cap rb =? SIZE_MAX) && (0 <? max_cap rb) then
        if max_cap rb <? cap rb then cap rb else max_cap rb
      else cap rb in
    let used_bytes := if limit <? used_bytes then limit else used_bytes in
    let buf_pct := u8 (u24 (used_bytes * 100) / limit) in
    let heap_pct :=
      if 0 <? max_heap cfg then
        let heap_used :=
          if max_heap cfg <? heap_used cfg then max_heap cfg else heap_used cfg in
        u8 (u24 (heap_used * 100) / max_heap cfg)
      else 0 in
    if buf_pct <? heap_pct then heap_pct else buf_pct.

Definition mem_pressure_level_from_usage (usage_pct : Z) : mem_pressure_level :=
  if 85 <=? usage_pct then MEM_PRESSURE_HIGH
  else if 70 <=? usage_pct then MEM_PRESSURE_MILD
  else MEM_PRESSURE_NONE.

(** [a < b] on enumerators. *)
Definition level_lt (a b : mem_pressure_level) : bool := level_rank a <? level_rank b.

Definition mem_pressure_level_relief (current : mem_pressure_level) (usage_pct : Z)
    : mem_pressure_level :=
  let level := mem_pressure_level_from_usage usage_pct in
  if bool_decide (current = MEM_PRESSURE_CRITICAL) && level_lt level MEM_PRESSURE_HIGH
  then MEM_PRESSURE_HIGH
  else if bool_decide (current = MEM_PRESSURE_HIGH) && level_lt level MEM_PRESSURE_MILD
  then MEM_PRESSURE_MILD
  else level.

(** [if (hook) hook(level)] *)
Definition call_hook (hook : option callback) (l : mem_pressure_level) : MM unit :=
  match hook with Some cb => mlog (E_hook cb l) | None => mret tt end.

Definition mem_pressure_update_effective : MM unit :=
  g ← mpress;
  let eth0 := if global_active g then global_level g else eth_level g in
  let eth := if eth_active g && level_lt eth0 (eth_level g) then eth_level g else eth0 in
  whenMM (bool_decide (eth <> eth_effective g))
    (call_hook (hook_eth g) eth;; upd_press (set_eth_effective eth));;
  g ← mpress;
  let tls0 := if global_active g then global_level g else tls_level g in
  let tls := if tls_active g && level_lt tls0 (tls_level g) then tls_level g else tls0 in
  whenMM (bool_decide (tls <> tls_effective g))
    (call_hook (hook_tls g) tls;; upd_press (set_tls_effective tls)).

(** Usage of a pool, in percent. *)
Definition pool_usage (p : Z) : MM (mem_buffer * Z) :=
  rb ← get_mb p;
  cfg ← mcfg;
  mret (rb, mem_buffer_usage_pct cfg rb (u24 (pool_used_blocks rb * pool_block_size rb))).

Fixpoint pools_below_clear (l : list Z) : MM bool :=
  match l with
  | [] => mret true
  | p :: l' =>
      r ← pool_usage p;
      g ← mpress;
      if clear_pct g <? r.2 then mret false else pools_below_clear l'
  end.
Definition mem_pressure_pools_below_clear : MM bool :=
  l ← mgets g_lwip_pools; pools_below_clear l.

Fixpoint pools_level (l : list Z) (level : mem_pressure_level) (any : bool)
    : MM mem_pressure_level :=
  match l with
  | [] => mret (if bool_decide (level = MEM_PRESSURE_NONE) && any
                then MEM_PRESSURE_MILD else level)
  | p :: l' =>
      r ← pool_usage p;
      g ← mpress;
      let any' := if clear_pct g <? r.2 then true else any in
      let candidate := mem_pressure_level_relief (last_pressure_level r.1) r.2 in
      pools_level l' (if level_lt level candidate then candidate else level) any'
  end.
Definition mem_pressure_pools_level : MM mem_pressure_level :=
  l ← mgets g_lwip_pools; pools_level l MEM_PRESSURE_NONE false.

Definition mem_pressure_mark (p : Z) (level : mem_pressure_level) : MM unit :=
  if p =? 0 then mret tt
  else if decide (level = MEM_PRESSURE_NONE) then mret tt
  else
    rb ← get_mb p;
    match owner rb with
    | MEM_BUF_OWNER_LWIP_POOL => upd_press (fun g =>
        let g := set_global_active true g in
        if level_lt (global_level g) level then set_global_level level g else g)
    | MEM_BUF_OWNER_ETH_RX => upd_press (fun g =>
        let g := set_eth_active true g in
        if level_lt (eth_level g) level then set_eth_level level g else g)
    | MEM_BUF_OWNER_TLS_RX => upd_press (fun g =>
        let g := set_tls_active true g in
        if level_lt (tls_level g) level then set_tls_level level g else g)
    | _ => mret tt
    end;;
    mem_pressure_update_effective.

(** Deactivate a source at tier NONE, activate it at any other. *)
Definition set_global (l : mem_pressure_level) : pressure -> pressure := fun g =>
  set_global_level l (set_global_active (bool_decide (l <> MEM_PRESSURE_NONE)) g).
Definition set_eth (l : mem_pressure_level) : pressure -> pressure := fun g =>
  set_eth_level l (set_eth_active (bool_decide (l <> MEM_PRESSURE_NONE)) g).
Definition set_tls (l : mem_pressure_level) : pressure -> pressure := fun g =>
  set_tls_level l (set_tls_active (bool_decide (l <> MEM_PRESSURE_NONE)) g).

Definition mem_pressure_maybe_clear (p : Z) : MM unit :=
  g ← mpress;
  if (p =? 0) || (100 <? clear_pct g) then mret tt
  else
    rb ← get_mb p;
    cfg ← mcfg;
    let used_bytes :=
      if has_flag (flags rb) BUFFER_MALLOC_TYPE
      then u24 (pool_used_blocks rb * pool_block_size rb) else ring_len rb in
    let usage_pct := mem_buffer_usage_pct cfg rb used_bytes in
    let level := mem_pressure_level_relief (last_pressure_level rb) usage_pct in
    upd_mb p (set_last_pressure_level level);;
    match owner rb with
    | MEM_BUF_OWNER_LWIP_POOL =>
        clear ← (if global_active g then mem_pressure_pools_below_clear else mret false);
        if clear : bool then
          upd_press (set_global MEM_PRESSURE_NONE);; mem_pressure_update_effective
        else
          pool_level ← mem_pressure_pools_level;
          upd_press (set_global pool_level);; mem_pressure_update_effective
    | MEM_BUF_OWNER_ETH_RX => upd_press (set_eth level);; mem_pressure_update_effective
    | MEM_BUF_OWNER_TLS_RX => upd_press (set_tls level);; mem_pressure_update_effective
    | _ => mret tt
    end.

(** ** Registration *)

Definition mem_init (limit : Z) (has_malloc has_free has_realloc : bool) : MM bool :=
  if negb has_malloc || negb has_free then mret false
  else
    mmodify (fun m => set_g_cfg_ready true
      (set_g_cfg (mk_cfg limit 0 0 0 0 MEM_SHRINK_HOLD_DEFAULT
                    has_malloc has_free has_realloc None) m));;
    mret true.

Definition mem_set_internal_lowmem_cb (cb : option callback) : MM unit :=
  upd_cfg (set_internal_low_mem_cb cb).
Definition mem_register_pressure_hook_eth_rx (hook : option callback) : MM unit :=
  upd_press (set_hook_eth hook);; mem_pressure_update_effective.
Definition mem_register_pressure_hook_tls_rx (hook : option callback) : MM unit :=
  upd_press (set_hook_tls hook);; mem_pressure_update_effective.
Definition mem_set_pressure_clear_pct (pct : Z) : MM unit :=
  whenMM (pct <=? 100) (upd_press (set_clear_pct pct)).

(** The buffer's tier is recorded and the callbacks are told, the module's own
    first. *)
Definition mem_buffer_notify_lowmem (p requested : Z) (level : mem_pressure_level) : MM unit :=
  if p =? 0 then mret tt
  else
    mem_pressure_mark p level;;
    upd_mb p (set_last_pressure_level level);;
    cfg ← mcfg;
    match internal_low_mem_cb cfg with
    | Some cb => mlog (E_low_mem cb p requested level)
    | None => mret tt
    end;;
    rb ← get_mb p;
    match low_mem_cb rb with
    | Some cb => mlog (E_low_mem cb p requested level)
    | None => mret tt
    end.
