(* ===== verification/MemBuffer.v ===== *)
(** * The memory manager: buffers

    Creation, resizing and destruction of a buffer, the ring buffer operations
    and the pool allocator of [src/src/drivers/mem.c], then the lwIP wiring of
    the pools.  [rb->buf + off] is the pair of the base address and the offset;
    an address built from it is their sum. *)

From S2P Require Import Prelude MemState MemPressure.

Section Buffer.
Context (al : allocator).

(** ** Resizing *)

(** The in-place path of [mem_buffer_resize]. *)
Definition resize_realloc (p new_cap grow shrink : Z) : MM Z :=
  rb ← get_mb p;
  whenMM (has_flag (flags rb) BUFFER_SECURE_MODE && (0 <? shrink))
    (memset (buf rb) new_cap 0 shrink);;
  new_buf ← realloc_fn al (buf rb) new_cap;
  if new_buf =? 0 then
    mem_buffer_notify_lowmem p new_cap MEM_PRESSURE_CRITICAL;;
    whenMM (0 <? grow) (mem_buffer_release grow);;
    mret 0
  else mret new_buf.

(** The copying path, which also straightens a wrapped ring. *)
Definition resize_copy (p new_cap grow : Z) : MM Z :=
  rb ← get_mb p;
  new_buf ← malloc_fn al new_cap;
  if new_buf =? 0 then
    whenMM (0 <? grow) (mem_buffer_release grow);;
    mret 0
  else
    whenMM (0 <? ring_len rb)
      (let first0 := u24 (cap rb - ring_head rb) in
       let first := if ring_len rb <? first0 then ring_len rb else first0 in
       d1 ← read_bytes (buf rb) (ring_head rb) first;
       write_bytes new_buf 0 d1;;
       d2 ← read_bytes (buf rb) 0 (u24 (ring_len rb - first));
       write_bytes new_buf first d2);;
    whenMM (has_flag (flags rb) BUFFER_SECURE_MODE) (memset (buf rb) 0 0 (cap rb));;
    free_fn (buf rb);;
    mret new_buf.

Definition mem_buffer_resize (p new_cap : Z) : MM bool :=
  rb ← get_mb p;
  if (new_cap <? ring_len rb) || (new_cap =? cap rb) then mret (new_cap =? cap rb)
  else if has_flag (flags rb) BUFFER_LOCK_SIZE then mret false
  else if negb (max_cap rb =? SIZE_MAX) && (max_cap rb <? new_cap) then mret false
  else
    let old_cap := cap rb in
    let grow := if old_cap <? new_cap then new_cap - old_cap else 0 in
    let shrink := if new_cap <? old_cap then old_cap - new_cap else 0 in
    paid ← (if 0 <? grow then mem_buffer_charge grow else mret true);
    if negb paid then mret false
    else
      cfg ← mcfg;
      new_buf ← (if realloc_set cfg && (ring_head rb =? 0) && (ring_len rb <=? old_cap)
                 then resize_realloc p new_cap grow shrink
                 else resize_copy p new_cap grow);
      if new_buf =? 0 then mret false
      else
        upd_mb p (fun rb =>
          set_shrink_hold_next (shrink_hold_base rb)
            (set_shrink_stage 0 (set_shrink_hits 0 (set_ring_head 0
              (set_cap new_cap (set_buf new_buf rb))))));;
        whenMM (0 <? shrink) (mem_buffer_release shrink);;
        mret true.

(** ** Destruction *)

Definition mem_buffer_destroy (p : Z) : MM unit :=
  if p =? 0 then mret tt
  else
    rb ← get_mb p;
    whenMM (negb (buf rb =? 0))
      (whenMM (has_flag (flags rb) BUFFER_SECURE_MODE) (memset (buf rb) 0 0 (cap rb));;
       free_fn (buf rb);;
       mem_buffer_release (cap rb);;
       upd_mb p (set_buf 0));;
    whenMM (negb (pool_bitmap rb =? 0))
      (whenMM (has_flag (flags rb) BUFFER_SECURE_MODE)
         (memset (pool_bitmap rb) 0 0 (pool_bitmap_bytes rb));;
       free_fn (pool_bitmap rb);;
       mem_buffer_release (pool_bitmap_bytes rb);;
       upd_mb p (fun rb => set_pool_bitmap_bytes 0 (set_pool_bitmap 0 rb)));;
    free_fn p;;
    mem_buffer_release (sizeof_mem_buffer al).

(** ** Creation *)

(** A structure fresh from [malloc]; no field of it is read. *)
Definition mb_blank : mem_buffer :=
  mk_mb 0 0 0 MEM_BUF_OWNER_UNKNOWN 0 MEM_PRESSURE_NONE 0 0 0 0 0 0 0 0 None None 0 0 0 0 0 0.

(** The assignments of [mem_buffer_create]: the stores through the pool view
    of the union come last and clear [lock_size] again. *)
Definition create_fields (cfg : mem_buffer_config) (buf initial_cap limit lock fl : Z)
    (cb : option callback) : mem_buffer :=
  let c := if has_flag fl BUFFER_LOCK_SIZE && (0 <? lock) then lock else initial_cap in
  let mc := if limit =? SIZE_MAX then SIZE_MAX else limit in
  let mc := if negb (mc =? SIZE_MAX) && (mc <? c) then c else mc in
  mk_mb buf c mc MEM_BUF_OWNER_UNKNOWN fl MEM_PRESSURE_NONE
    (cfg_step cfg) (cfg_grow_pct cfg) (cfg_shrink_pct cfg)
    (cfg_shrink_hold cfg) (cfg_shrink_hold cfg) (cfg_shrink_hold cfg)
    0 0 cb None 0 0 0 0 0 0.

(** [realloc_fn] when there is one, else a new block in place of the old (no
    data is copied: the ring is empty). *)
Definition refit (old new_cap : Z) : MM Z :=
  cfg ← mcfg;
  if realloc_set cfg then realloc_fn al old new_cap
  else
    new_buf ← malloc_fn al new_cap;
    whenMM (negb (new_buf =? 0)) (free_fn old);;
    mret new_buf.

(** A locked buffer gets exactly [lock_size] bytes; false when it cannot. *)
Definition create_lock (p initial_cap : Z) : MM bool :=
  rb ← get_mb p;
  let abandon :=
    free_fn (buf rb);; free_fn p;;
    mem_buffer_release (u24 (sizeof_mem_buffer al + initial_cap));; mret false in
  if has_flag (flags rb) BUFFER_LOCK_SIZE && negb (cap rb =? initial_cap) then
    if initial_cap <? cap rb then
      let grow := cap rb - initial_cap in
      paid ← mem_buffer_charge grow;
      if negb paid then abandon
      else
        new_buf ← refit (buf rb) (cap rb);
        if new_buf =? 0 then mem_buffer_release grow;; abandon
        else upd_mb p (set_buf new_buf);; mret true
    else
      let shrink := initial_cap - cap rb in
      new_buf ← refit (buf rb) (cap rb);
      whenMM (negb (new_buf =? 0)) (upd_mb p (set_buf new_buf);; mem_buffer_release shrink);;
      mret true
  else mret true.

(** A pool gets its block geometry and an empty bitmap. *)
Definition create_pool (p lock : Z) : MM Z :=
  rb ← get_mb p;
  if has_flag (flags rb) BUFFER_MALLOC_TYPE then
    let block_size := if lock =? 0 then step rb else lock in
    if (block_size =? 0) || (cap rb <? block_size) then mem_buffer_destroy p;; mret 0
    else
      let count := cap rb / block_size in
      let nbytes := u24 (count + 7) / 8 in
      upd_mb p (fun rb => set_pool_bitmap_bytes nbytes
        (set_pool_block_count count (set_pool_block_size block_size rb)));;
      paid ← mem_buffer_charge nbytes;
      if negb paid then mem_buffer_destroy p;; mret 0
      else
        bm ← malloc_fn al nbytes;
        upd_mb p (set_pool_bitmap bm);;
        if bm =? 0 then
          mem_buffer_release nbytes;; mem_buffer_destroy p;; mret 0
        else memset bm 0 0 nbytes;; mret p
  else mret p.

Definition mem_buffer_create (initial_cap limit lock fl : Z) (cb : option callback) : MM Z :=
  ready ← mgets g_cfg_ready;
  cfg ← mcfg;
  if negb ready then mret 0
  else if (initial_cap =? 0) || negb (malloc_set cfg) || negb (free_set cfg) then mret 0
  else
    let cost := u24 (sizeof_mem_buffer al + initial_cap) in
    paid ← mem_buffer_charge cost;
    if negb paid then mret 0
    else
      p ← malloc_struct al mb_blank;
      if p =? 0 then mem_buffer_release cost;; mret 0
      else
        b ← malloc_fn al initial_cap;
        if b =? 0 then free_fn p;; mem_buffer_release cost;; mret 0
        else
          upd_mb p (fun _ => create_fields cfg b initial_cap limit lock fl cb);;
          ok ← create_lock p initial_cap;
          if negb ok then mret 0 else create_pool p lock.

(** ** Ring buffers *)

Definition mem_buffer_len (p : Z) : MM Z :=
  if p =? 0 then mret 0 else rb ← get_mb p; mret (ring_len rb).
Definition mem_buffer_capacity (p : Z) : MM Z :=
  if p =? 0 then mret 0 else rb ← get_mb p; mret (cap rb).
Definition mem_buffer_space (p : Z) : MM Z :=
  if p =? 0 then mret 0
  else
    rb ← get_mb p;
    mret (if cap rb <? ring_len rb then 0 else cap rb - ring_len rb).

(** [len] bytes from position [pos], the part past the end of the array taken
    from its start. *)
Definition read_wrapped (rb : mem_buffer) (pos len : Z) : MM bytes :=
  let first0 := u24 (cap rb - pos) in
  let first := if len <? first0 then len else first0 in
  d1 ← read_bytes (buf rb) pos first;
  d2 ← read_bytes (buf rb) 0 (u24 (len - first));
  mret (d1 ++ d2).

(** The bytes stored to [out], or [None] for false; [out] tells whether the
    destination is non-null. *)
Definition mem_buffer_peek (p offset : Z) (out : bool) (len : Z) : MM (option bytes) :=
  if (p =? 0) || negb out || (len =? 0) then mret None
  else
    rb ← get_mb p;
    if ring_len rb <? u24 (offset + len) then mret None
    else
      pos ← cmod (u24 (ring_head rb + offset)) (cap rb);
      d ← read_wrapped rb pos len;
      mret (Some d).

(** The pressure report shared by both branches of [mem_buffer_maybe_grow]. *)
Definition report_usage (p needed : Z) : MM unit :=
  rb ← get_mb p;
  cfg ← mcfg;
  let level := mem_pressure_level_from_usage (mem_buffer_usage_pct cfg rb needed) in
  whenMM (bool_decide (level <> MEM_PRESSURE_NONE) &&
          bool_decide (level <> last_pressure_level rb))
    (mem_buffer_notify_lowmem p needed level).

(** The capacity [mem_buffer_maybe_grow] asks for, before the limit. *)
Definition grow_target (rb : mem_buffer) (needed : Z) : Z :=
  let target := if cap rb <? needed then needed else cap rb in
  let target := align_step target (step rb) in
  let target := if target <=? cap rb then u24 (cap rb + step rb) else target in
  if target <? needed then needed else target.

Definition mem_buffer_maybe_grow (p incoming_len : Z) : MM bool :=
  rb ← get_mb p;
  let needed := u24 (ring_len rb + incoming_len) in
  report_usage p needed;;
  if has_flag (flags rb) BUFFER_LOCK_SIZE then
    whenMM (cap rb <? needed) (mem_buffer_notify_lowmem p needed MEM_PRESSURE_CRITICAL);;
    mret (needed <=? cap rb)
  else
    let grow_threshold := threshold_bytes (cap rb) (grow_threshold_pct rb) in
    if (needed <=? cap rb) && (needed <? grow_threshold) then mret true
    else
      let target := grow_target rb needed in
      let over := negb (max_cap rb =? SIZE_MAX) && (max_cap rb <? target) in
      let target := if over then max_cap rb else target in
      if over && (target <? needed) then
        mem_buffer_notify_lowmem p needed MEM_PRESSURE_CRITICAL;; mret false
      else
        ok ← mem_buffer_resize p target;
        if negb ok then
          mem_buffer_notify_lowmem p needed MEM_PRESSURE_CRITICAL;; mret false
        else mret true.

Definition mem_buffer_reserve (p len : Z) : MM bool :=
  if (p =? 0) || (len =? 0) then mret false
  else
    rb ← get_mb p;
    if has_flag (flags rb) BUFFER_MALLOC_TYPE then mret false
    else mem_buffer_maybe_grow p len.

Definition mem_buffer_set_owner (p : Z) (o : mem_buffer_owner) : MM unit :=
  whenMM (negb (p =? 0)) (upd_mb p (set_owner o)).
Definition mem_buffer_get_owner (p : Z) : MM mem_buffer_owner :=
  if p =? 0 then mret MEM_BUF_OWNER_UNKNOWN else rb ← get_mb p; mret (owner rb).
Definition mem_buffer_set_drain (p : Z) (f : option callback) (data : Z) : MM unit :=
  whenMM (negb (p =? 0)) (upd_mb p (fun rb => set_drain_fn_data data (set_drain_fn f rb))).

(** The hysteresis counters back to their start. *)
Definition shrink_restart (rb : mem_buffer) : mem_buffer :=
  set_shrink_hold_next (shrink_hold_base rb) (set_shrink_stage 0 (set_shrink_hits 0 rb)).

(** The bookkeeping after a shrink. *)
Definition shrink_next (rb : mem_buffer) : mem_buffer :=
  let rb := set_shrink_hits 0 rb in
  let rb := if negb (shrink_hold_base rb =? 0)
            then set_shrink_stage (u8 (shrink_stage rb + 1)) rb else rb in
  set_shrink_hold_next (mem_buffer_hold_for_stage (shrink_hold_base rb) (shrink_stage rb)) rb.

Definition mem_buffer_maybe_shrink (p : Z) (wrapped : bool) : MM unit :=
  rb ← get_mb p;
  if has_flag (flags rb) BUFFER_LOCK_SIZE then mret tt
  else if (step rb =? 0) || (cap rb <=? step rb) then mret tt
  else if negb wrapped || negb (ring_head rb =? 0) then mret tt
  else if threshold_bytes (cap rb) (shrink_threshold_pct rb) <? ring_len rb then
    upd_mb p shrink_restart
  else if shrink_hold_count rb =? 0 then mret tt
  else
    let hits := u16 (shrink_hits rb + 1) in
    upd_mb p (set_shrink_hits hits);;
    if hits <? shrink_hold_next rb then mret tt
    else
      let target0 := cap rb - step rb in
      let target := if target0 <? ring_len rb then ring_len rb else target0 in
      _ ← mem_buffer_resize p target;
      upd_mb p shrink_next.

(** [data] is the caller's block of [len] bytes, if non-null. *)
Definition mem_buffer_push (p : Z) (data : option bytes) : MM bool :=
  match data with
  | None => mret false
  | Some data =>
      let len := Z.of_nat (length data) in
      if (p =? 0) || (len =? 0) then mret false
      else
        rb ← get_mb p;
        if has_flag (flags rb) BUFFER_MALLOC_TYPE then mret false
        else
          ok ← mem_buffer_maybe_grow p len;
          if negb ok then mret false
          else
            rb ← get_mb p;
            tail ← cmod (u24 (ring_head rb + ring_len rb)) (cap rb);
            let first0 := u24 (cap rb - tail) in
            let first := if len <? first0 then len else first0 in
            write_bytes (buf rb) tail (take (Z.to_nat first) data);;
            write_bytes (buf rb) 0 (drop (Z.to_nat first) data);;
            upd_mb p (set_ring_len (u24 (ring_len rb + len)));;
            mret true
  end.

(** The bytes stored to [out]; the empty list where the C function returns 0. *)
Definition mem_buffer_pop (p : Z) (out : bool) (len : Z) : MM bytes :=
  if (p =? 0) || negb out || (len =? 0) then mret []
  else
    rb ← get_mb p;
    if ring_len rb <? len then mret []
    else if has_flag (flags rb) BUFFER_MALLOC_TYPE then mret []
    else
      let first0 := u24 (cap rb - ring_head rb) in
      let first := if len <? first0 then len else first0 in
      d1 ← read_bytes (buf rb) (ring_head rb) first;
      d2 ← read_bytes (buf rb) 0 (u24 (len - first));
      whenMM (has_flag (flags rb) BUFFER_SECURE_MODE)
        (memset (buf rb) (ring_head rb) 0 first;;
         memset (buf rb) 0 0 (u24 (len - first)));;
      new_head ← cmod (u24 (ring_head rb + len)) (cap rb);
      upd_mb p (fun rb => set_ring_len (ring_len rb - len) (set_ring_head new_head rb));;
      mem_buffer_maybe_shrink p (cap rb <=? u24 (ring_head rb + len));;
      mem_pressure_maybe_clear p;;
      mret (d1 ++ d2).

(** ** Pools *)

(** Bit [i] of the bitmap, and the bitmap with it set or cleared; [None]
    outside the bitmap. *)
Definition bit_mask (i : Z) : Z := u8 (Z.shiftl 1 (i mod 8)).
Definition bit_used (bm : bytes) (i : Z) : option bool :=
  b ← bm !! Z.to_nat (i / 8);
  Some (negb (Z.land b (bit_mask i) =? 0)).
Definition bit_set (bm : bytes) (i : Z) : option bytes :=
  b ← bm !! Z.to_nat (i / 8);
  Some (<[Z.to_nat (i / 8) := Z.lor b (bit_mask i)]> bm).
Definition bit_clear (bm : bytes) (i : Z) : option bytes :=
  b ← bm !! Z.to_nat (i / 8);
  Some (<[Z.to_nat (i / 8) := Z.land b (u8 (Z.lnot (bit_mask i)))]> bm).

(** The bits [start .. start + n - 1], in order. *)
Fixpoint bits_apply (f : bytes -> Z -> option bytes) (bm : bytes) (start : Z) (n : nat)
    : option bytes :=
  match n with
  | O => Some bm
  | S n' => bm' ← f bm start; bits_apply f bm' (start + 1) n'
  end.

(** The scan for [need] free blocks in a row: [n] blocks from [i] on are left
    to look at, the last [run] ones were free, from [start] on. *)
Fixpoint find_run (bm : bytes) (need : Z) (n : nat) (i run start : Z) : option (option Z) :=
  match n with
  | O => Some None
  | S n' =>
      used ← bit_used bm i;
      if used : bool then find_run bm need n' (i + 1) 0 start
      else
        let start := if run =? 0 then i else start in
        if run + 1 =? need then Some (Some start)
        else find_run bm need n' (i + 1) (run + 1) start
  end.

Definition mem_buffer_malloc (p size : Z) : MM Z :=
  if p =? 0 then mret 0
  else
    rb ← get_mb p;
    if negb (has_flag (flags rb) BUFFER_MALLOC_TYPE) || (size =? 0) then mret 0
    else
      let needed := u24 (size + MEM_POOL_HEADER_SIZE) in
      blocks_needed ← cdiv (u24 (needed + pool_block_size rb - 1)) (pool_block_size rb);
      if (blocks_needed =? 0) || (pool_block_count rb <? blocks_needed) then mret 0
      else
        bm ← get_bytes (pool_bitmap rb);
        found ← orBad MF_bounds
          (find_run bm blocks_needed (Z.to_nat (pool_block_count rb)) 0 0 0);
        match found with
        | None => mret 0
        | Some start =>
            bm' ← orBad MF_bounds (bits_apply bit_set bm start (Z.to_nat blocks_needed));
            put_bytes (pool_bitmap rb) bm';;
            let off := u24 (start * pool_block_size rb) in
            write_bytes (buf rb) off [u8 blocks_needed; u8 (blocks_needed / 256)];;
            upd_mb p (fun rb =>
              set_pool_used_blocks (u24 (pool_used_blocks rb + blocks_needed)) rb);;
            mret (buf rb + off + MEM_POOL_HEADER_SIZE)
        end.

(** The free blocks at the end of the pool: [n] blocks are left to look at,
    from the last one down. *)
Fixpoint trailing_free (bm : bytes) (n : nat) (free : Z) : option Z :=
  match n with
  | O => Some free
  | S n' =>
      used ← bit_used bm (Z.of_nat n');
      if used : bool then Some free else trailing_free bm n' (free + 1)
  end.

(** The part of [mem_buffer_free] after the blocks were given back: shrink the
    pool when enough of its end has been free for long enough.  Every path ends
    in [mem_pressure_maybe_clear]. *)
Definition pool_maybe_shrink (p : Z) : MM unit :=
  rb ← get_mb p;
  if (step rb =? 0) || (pool_block_size rb =? 0) then mret tt
  else
    let bs := pool_block_size rb in
    let used_bytes := u24 (pool_used_blocks rb * bs) in
    if threshold_bytes (cap rb) (shrink_threshold_pct rb) <? used_bytes then
      upd_mb p shrink_restart
    else
      bm ← get_bytes (pool_bitmap rb);
      free_blocks ← orBad MF_bounds (trailing_free bm (Z.to_nat (pool_block_count rb)) 0);
      if free_blocks =? 0 then mret tt
      else
        let st := if step rb <? bs then bs else step rb in
        let st := u24 (st / bs * bs) in
        let st := if st =? 0 then bs else st in
        let max_shrink_bytes := u24 (free_blocks * bs) in
        if shrink_hold_count rb =? 0 then mret tt
        else
          let hits := u16 (shrink_hits rb + 1) in
          upd_mb p (set_shrink_hits hits);;
          if hits <? shrink_hold_next rb then mret tt
          else if max_shrink_bytes <? st then mret tt
          else
            let new_cap := u24 (cap rb - st) in
            if new_cap <? bs then mret tt
            else
              ok ← mem_buffer_resize p new_cap;
              if negb ok then mret tt
              else
                rb ← get_mb p;
                count ← cdiv new_cap (pool_block_size rb);
                upd_mb p (fun rb => shrink_next (set_pool_block_count count rb)).

Definition mem_buffer_free (p ptr : Z) : MM unit :=
  if p =? 0 then mret tt
  else
    rb ← get_mb p;
    if negb (has_flag (flags rb) BUFFER_MALLOC_TYPE) || (ptr =? 0) then mret tt
    else
      let base := u24 (ptr - MEM_POOL_HEADER_SIZE) in
      if (base <? buf rb) || (buf rb + cap rb <=? base) then mret tt
      else
        let offset := base - buf rb in
        rem ← cmod offset (pool_block_size rb);
        if negb (rem =? 0) then mret tt
        else
          let start := offset / pool_block_size rb in
          hdr ← read_bytes (buf rb) offset 2;
          let blocks := hdr !!! 0%nat + 256 * hdr !!! 1%nat in
          if (blocks =? 0) || (pool_block_count rb <? u24 (start + blocks)) then mret tt
          else
            whenMM (has_flag (flags rb) BUFFER_SECURE_MODE)
              (memset (buf rb) offset 0 (u24 (blocks * pool_block_size rb)));;
            bm ← get_bytes (pool_bitmap rb);
            bm' ← orBad MF_bounds (bits_apply bit_clear bm start (Z.to_nat blocks));
            put_bytes (pool_bitmap rb) bm';;
            upd_mb p (fun rb =>
              set_pool_used_blocks
                (if blocks <=? pool_used_blocks rb then pool_used_blocks rb - blocks else 0) rb);;
            pool_maybe_shrink p;;
            mem_pressure_maybe_clear p.

(** ** Tuning *)

Definition mem_buffer_set_grow (p pct st : Z) : MM unit :=
  if (p =? 0) || (100 <? pct) then mret tt
  else upd_mb p (fun rb => set_step st (set_grow_threshold_pct pct rb)).

Definition mem_buffer_set_shrink (p pct st : Z) : MM unit :=
  if (p =? 0) || (100 <? pct) then mret tt
  else upd_mb p (fun rb =>
    set_shrink_hits 0 (set_shrink_stage 0
      (set_shrink_hold_next MEM_SHRINK_HOLD_DEFAULT
        (set_shrink_hold_base MEM_SHRINK_HOLD_DEFAULT
          (set_shrink_hold_count MEM_SHRINK_HOLD_DEFAULT
            (set_step st (set_shrink_threshold_pct pct rb))))))).

Definition mem_buffer_set_max_size (p limit : Z) : MM unit :=
  if p =? 0 then mret tt
  else upd_mb p (fun rb =>
    if limit =? SIZE_MAX then set_max_cap SIZE_MAX rb
    else if limit <? cap rb then set_max_cap (cap rb) rb
    else set_max_cap limit rb).

(** ** lwIP wiring *)

Definition mem_buffer_set_lwip_heap (p : Z) : MM bool :=
  if p =? 0 then mret false
  else
    rb ← get_mb p;
    if negb (has_flag (flags rb) BUFFER_MALLOC_TYPE) then mret false
    else
      mmodify (set_g_lwip_heap p);;
      mem_buffer_set_owner p MEM_BUF_OWNER_LWIP_POOL;;
      mret true.

(** [if (pools[j]->block_size < pools[i]->block_size) swap], on an array whose
    entries are null or live. *)
Definition sort_swap (size : Z -> Z) (l : list Z) (i j : nat) : list Z :=
  match l !! i, l !! j with
  | Some a, Some b =>
      if (a =? 0) || (b =? 0) then l
      else if size b <? size a then <[j := a]> (<[i := b]> l) else l
  | _, _ => l
  end.
Definition sort_inner (size : Z -> Z) (l : list Z) (i : nat) : list Z :=
  foldl (fun l j => sort_swap size l i j) l (seq (S i) (length l - S i)).
Definition sort_outer (size : Z -> Z) (l : list Z) : list Z :=
  foldl (fun l i => sort_inner size l i) l (seq 0 (length l - 1)).

(** The block size of a pool of this heap. *)
Definition block_size_of (m : mem_state) (p : Z) : Z :=
  match heap m !! p with Some (C_struct rb) => pool_block_size rb | _ => 0 end.
Definition mem_buffer_sort_pools : MM unit := fun m =>
  Ok tt (set_g_lwip_pools (sort_outer (block_size_of m) (g_lwip_pools m)) m).

(** One configuration entry: the pool is appended when it can be created. *)
Definition init_pool (c : mem_buffer_pool_cfg) : MM unit :=
  if (pc_block_size c =? 0) || (pc_block_count c =? 0) then mret tt
  else
    let initial_cap := u24 (pc_block_size c * pc_block_count c) in
    let limit := if pc_max_cap c =? 0 then initial_cap else pc_max_cap c in
    let fl := u8 (Z.lor (pc_flags c) BUFFER_MALLOC_TYPE) in
    p ← mem_buffer_create initial_cap limit (pc_block_size c) fl (pc_low_mem_cb c);
    whenMM (negb (p =? 0))
      (mem_buffer_set_owner p
         (if decide (pc_owner c = MEM_BUF_OWNER_UNKNOWN) then MEM_BUF_OWNER_LWIP_POOL
          else pc_owner c);;
       mmodify (fun m => set_g_lwip_pools (g_lwip_pools m ++ [p]) m)).

Fixpoint init_pools (l : list mem_buffer_pool_cfg) : MM unit :=
  match l with
  | [] => mret tt
  | c :: l' => init_pool c;; init_pools l'
  end.

(** [pools] is the caller's array, if non-null. *)
Definition mem_buffer_lwip_init_pools (pools : option (list mem_buffer_pool_cfg)) : MM bool :=
  ready ← mgets g_cfg_ready;
  match pools with
  | None | Some [] => mret false
  | Some l =>
      if negb ready then mret false
      else
        mmodify (set_g_lwip_pools []);;
        init_pools (take MEM_LWIP_MAX_POOLS l);;
        made ← mgets g_lwip_pools;
        if bool_decide (made = []) then mret false
        else mem_buffer_sort_pools;; mret true
  end.

Definition mem_buffer_is_lwip_pool (p : Z) : MM bool :=
  if p =? 0 then mret false
  else mgets (fun m => existsb (Z.eqb p) (g_lwip_pools m)).

(** First pass of [mem_buffer_custom_malloc]: the pools one block of which is
    large enough, smallest blocks first.  The result is the pointer (or null)
    and the first pool tried ([preferred], null when none was). *)
Fixpoint custom_single (l : list Z) (size needed preferred : Z) : MM (Z * Z) :=
  match l with
  | [] => mret (0, preferred)
  | p :: l' =>
      if p =? 0 then custom_single l' size needed preferred
      else
        rb ← get_mb p;
        if u24 (pool_block_size rb * pool_block_count rb) <? needed then
          custom_single l' size needed preferred
        else if needed <=? pool_block_size rb then
          let preferred := if preferred =? 0 then p else preferred in
          r ← pool_usage p;
          let level := mem_pressure_level_from_usage r.2 in
          whenMM (bool_decide (level <> MEM_PRESSURE_NONE) &&
                  bool_decide (level <> last_pressure_level rb))
            (mem_buffer_notify_lowmem p needed level);;
          ptr ← mem_buffer_malloc p size;
          if negb (ptr =? 0) then mret (ptr, preferred)
          else custom_single l' size needed preferred
        else custom_single l' size needed preferred
  end.

(** Second pass: the pools that need several blocks. *)
Fixpoint custom_multi (l : list Z) (size needed : Z) : MM Z :=
  match l with
  | [] => mret 0
  | p :: l' =>
      if p =? 0 then custom_multi l' size needed
      else
        rb ← get_mb p;
        if (u24 (pool_block_size rb * pool_block_count rb) <? needed) ||
           (needed <=? pool_block_size rb) then custom_multi l' size needed
        else
          ptr ← mem_buffer_malloc p size;
          if negb (ptr =? 0) then mret ptr else custom_multi l' size needed
  end.

Definition mem_buffer_custom_malloc (size : Z) : MM Z :=
  pools ← mgets g_lwip_pools;
  if negb (bool_decide (pools = [])) then
    if SIZE_MAX - MEM_POOL_HEADER_SIZE <? size then mret 0
    else
      let needed := size + MEM_POOL_HEADER_SIZE in
      r ← custom_single pools size needed 0;
      if negb (r.1 =? 0) then mret r.1
      else
        whenMM (negb (r.2 =? 0)) (mem_buffer_notify_lowmem r.2 needed MEM_PRESSURE_CRITICAL);;
        custom_multi pools size needed
  else
    h ← mgets g_lwip_heap;
    if h =? 0 then mret 0 else mem_buffer_malloc h size.

(** The pool whose array contains the address; true when one was found. *)
Fixpoint custom_free_in (l : list Z) (ptr : Z) : MM bool :=
  match l with
  | [] => mret false
  | p :: l' =>
      if p =? 0 then custom_free_in l' ptr
      else
        rb ← get_mb p;
        if buf rb =? 0 then custom_free_in l' ptr
        else if (buf rb <? ptr) && (ptr <? buf rb + cap rb) then
          mem_buffer_free p ptr;; mret true
        else custom_free_in l' ptr
  end.

Definition mem_buffer_custom_free (ptr : Z) : MM unit :=
  if ptr =? 0 then mret tt
  else
    pools ← mgets g_lwip_pools;
    found ← custom_free_in pools ptr;
    if found : bool then mret tt
    else
      h ← mgets g_lwip_heap;
      whenMM (negb (h =? 0)) (mem_buffer_free h ptr).

(** The live byte array that contains an address. *)
Definition contains (a : Z) (bc : Z * cell) : bool :=
  match bc.2 with
  | C_bytes l => (bc.1 <=? a) && (a <? bc.1 + Z.of_nat (length l))
  | C_struct _ => false
  end.
Definition array_at (m : mem_state) (a : Z) : option Z :=
  fst <$> List.find (contains a) (map_to_list (heap m)).

(** [memset(ptr, 0, n)] through a pointer into an array. *)
Definition memset_at (ptr n : Z) : MM unit :=
  o ← mgets (fun m => array_at m ptr);
  base ← orBad MF_deref o;
  memset base (ptr - base) 0 n.

Definition mem_buffer_custom_calloc (count size : Z) : MM Z :=
  if (count =? 0) || (size =? 0) then mret 0
  else if SIZE_MAX / count <? size then mret 0
  else
    let total := u24 (count * size) in
    ptr ← mem_buffer_custom_malloc total;
    whenMM (negb (ptr =? 0)) (memset_at ptr total);;
    mret ptr.

End Buffer.
