(* ===== verification/MemLogic.v ===== *)
(** * The memory manager: a program logic

    A weakest precondition for the memory manager's monad, with the frame each
    helper leaves: pressure reports change only the pressure variables, the
    history and the tier recorded in the buffer; the allocator hands out blocks
    that were not live. *)

From S2P Require Import Prelude MemState MemPressure MemBuffer.

(** ** Weakest preconditions *)

Definition mwp {A} (c : MM A) (m : mem_state) (Q : A -> mem_state -> Prop) : Prop :=
  match c m with Ok a m' => Q a m' | Bad _ => False end.

Lemma mwp_ret {A} (a : A) m (Q : A -> mem_state -> Prop) : Q a m -> mwp (mret a) m Q.
Proof. done. Qed.

Lemma mwp_bind {A B} (c : MM A) (k : A -> MM B) m (Q : B -> mem_state -> Prop) :
  mwp c m (fun a m' => mwp (k a) m' Q) -> mwp (c ≫= k) m Q.
Proof. unfold mwp, mbind, MM_bind. by destruct (c m). Qed.

Lemma mwp_mono {A} (c : MM A) m (P Q : A -> mem_state -> Prop) :
  mwp c m P -> (forall a m', P a m' -> Q a m') -> mwp c m Q.
Proof. unfold mwp. destruct (c m); auto. Qed.

Lemma mwp_modify f m (Q : unit -> mem_state -> Prop) : Q tt (f m) -> mwp (mmodify f) m Q.
Proof. done. Qed.

Lemma mwp_gets {A} (f : mem_state -> A) m (Q : A -> mem_state -> Prop) :
  Q (f m) m -> mwp (mgets f) m Q.
Proof. done. Qed.

Lemma mwp_run {A} (c : MM A) m (Q : A -> mem_state -> Prop) :
  mwp c m Q -> exists a m', c m = Ok a m' /\ Q a m'.
Proof. unfold mwp. destruct (c m); [eauto|done]. Qed.

Lemma mwp_get_mb p rb m (Q : mem_buffer -> mem_state -> Prop) :
  heap m !! p = Some (C_struct rb) -> Q rb m -> mwp (get_mb p) m Q.
Proof. unfold mwp, get_mb. by intros ->. Qed.

Lemma mwp_upd_mb p f rb m (Q : unit -> mem_state -> Prop) :
  heap m !! p = Some (C_struct rb) ->
  Q tt (set_heap (<[p := C_struct (f rb)]> (heap m)) m) -> mwp (upd_mb p f) m Q.
Proof. unfold mwp, upd_mb, mbind, MM_bind, get_mb. by intros ->. Qed.

Lemma mwp_get_bytes b l m (Q : bytes -> mem_state -> Prop) :
  heap m !! b = Some (C_bytes l) -> Q l m -> mwp (get_bytes b) m Q.
Proof. unfold mwp, get_bytes. by intros ->. Qed.

Lemma mwp_read b l off n m (Q : bytes -> mem_state -> Prop) :
  heap m !! b = Some (C_bytes l) ->
  0 <= off -> 0 <= n -> off + n <= Z.of_nat (length l) ->
  Q (slice l off n) m -> mwp (read_bytes b off n) m Q.
Proof.
  intros Hb ? ? ? HQ. apply mwp_bind. apply (mwp_get_bytes _ _ _ _ Hb).
  unfold in_bounds. by ztest.
Qed.

Lemma mwp_write b l off d m (Q : unit -> mem_state -> Prop) :
  heap m !! b = Some (C_bytes l) ->
  0 <= off -> off + Z.of_nat (length d) <= Z.of_nat (length l) ->
  Q tt (set_heap (<[b := C_bytes (splice l off d)]> (heap m)) m) ->
  mwp (write_bytes b off d) m Q.
Proof.
  intros Hb ? ? HQ. apply mwp_bind. apply (mwp_get_bytes _ _ _ _ Hb).
  unfold in_bounds. by ztest.
Qed.

Lemma mwp_when c k m (Q : unit -> mem_state -> Prop) :
  (c = true -> mwp k m Q) -> (c = false -> Q tt m) -> mwp (whenMM c k) m Q.
Proof. unfold whenMM. destruct c; intros H1 H2; [by apply H1|by apply H2]. Qed.

Lemma mwp_cmod a b m (Q : Z -> mem_state -> Prop) :
  b <> 0 -> Q (a mod b) m -> mwp (cmod a b) m Q.
Proof. intros ??. unfold cmod. by ztest. Qed.

Lemma mwp_cdiv a b m (Q : Z -> mem_state -> Prop) :
  b <> 0 -> Q (a / b) m -> mwp (cdiv a b) m Q.
Proof. intros ??. unfold cdiv. by ztest. Qed.

(** One step through the program at the head of the goal. *)
Ltac mwp_step :=
  lazymatch goal with
  | |- mwp (_ ≫= _) _ _ => apply mwp_bind
  | |- mwp (mret _) _ _ => apply mwp_ret
  | |- mwp (mgets _) _ _ => apply mwp_gets
  | |- mwp mcfg _ _ => apply mwp_gets
  | |- mwp mpress _ _ => apply mwp_gets
  | |- mwp (mmodify _) _ _ => apply mwp_modify
  | |- mwp (upd_cfg _) _ _ => apply mwp_modify
  | |- mwp (upd_press _) _ _ => apply mwp_modify
  | |- mwp (mlog _) _ _ => apply mwp_modify
  | |- mwp (put_bytes _ _) _ _ => apply mwp_modify
  | |- mwp (get_mb _) _ _ => eapply mwp_get_mb; [eassumption|]
  end.
Ltac mwp_go := repeat (mwp_step; cbn beta).

(** ** Pressure reports *)

(** What a report leaves alone. *)
Definition same_mem (m m' : mem_state) : Prop :=
  g_cfg m' = g_cfg m /\ g_cfg_ready m' = g_cfg_ready m /\
  g_lwip_heap m' = g_lwip_heap m /\ g_lwip_pools m' = g_lwip_pools m /\
  clear_pct (g_pressure m') = clear_pct (g_pressure m).

#[global] Instance same_mem_preorder : PreOrder same_mem.
Proof.
  split; [done|]. intros a b c (?&?&?&?&?) (?&?&?&?&?). unfold same_mem. by simplify_eq/=; repeat split; congruence.
Qed.

Definition with_level (p : Z) (rb : mem_buffer) (lv : mem_pressure_level)
    (h : gmap Z cell) : gmap Z cell :=
  <[p := C_struct (set_last_pressure_level lv rb)]> h.

Lemma mwp_update_effective m (Q : unit -> mem_state -> Prop) :
  (forall m', same_mem m m' -> heap m' = heap m -> Q tt m') ->
  mwp mem_pressure_update_effective m Q.
Proof.
  intros HQ. unfold mem_pressure_update_effective, call_hook. mwp_go.
  apply mwp_when; intros _; [destruct (hook_eth _)|]; mwp_go;
    (apply mwp_when; intros _; [destruct (hook_tls _)|]; mwp_go; by apply HQ).
Qed.

(** Marking a source leaves the heap alone. *)
Lemma mwp_mark p rb lv m (Q : unit -> mem_state -> Prop) :
  heap m !! p = Some (C_struct rb) ->
  (forall m', same_mem m m' -> heap m' = heap m -> Q tt m') ->
  mwp (mem_pressure_mark p lv) m Q.
Proof.
  intros Hp HQ. unfold mem_pressure_mark.
  destruct (p =? 0); [by apply HQ|]. destruct (decide _); [by apply HQ|].
  mwp_go.
  destruct (owner rb); mwp_go; apply mwp_update_effective; intros m' Hs Hh; apply HQ; try done;
    (etransitivity; [|exact Hs]); repeat split; cbn; by destruct (level_lt _ _).
Qed.

(** A report records the tier in the buffer and tells the callbacks. *)
Lemma mwp_notify p rb n lv m (Q : unit -> mem_state -> Prop) :
  p <> 0 -> heap m !! p = Some (C_struct rb) ->
  (forall m', same_mem m m' -> heap m' = with_level p rb lv (heap m) -> Q tt m') ->
  mwp (mem_buffer_notify_lowmem p n lv) m Q.
Proof.
  intros Hp0 Hp HQ. unfold mem_buffer_notify_lowmem. ztest. mwp_go.
  eapply mwp_mark; [exact Hp|]. intros m1 Hs Hh. mwp_go.
  eapply mwp_upd_mb; [by rewrite Hh|]. mwp_go.
  set (m2 := set_heap _ _).
  assert (same_mem m m2 /\ heap m2 = with_level p rb lv (heap m)) as [Hs2 Hh2].
  { split; [etransitivity; [exact Hs|done]|]. unfold m2. cbn. by rewrite Hh. }
  clearbody m2. clear Hs Hh m1.
  destruct (internal_low_mem_cb _); mwp_go.
  all: eapply mwp_get_mb; [cbn; rewrite Hh2; apply lookup_insert_eq|].
  all: cbn [low_mem_cb set_last_pressure_level]; destruct (low_mem_cb rb); mwp_go; apply HQ; cbn; try done.
Qed.

Lemma mwp_report_usage p rb n m (Q : unit -> mem_state -> Prop) :
  p <> 0 -> heap m !! p = Some (C_struct rb) ->
  (forall m' lv, same_mem m m' -> heap m' = with_level p rb lv (heap m) -> Q tt m') ->
  mwp (report_usage p n) m Q.
Proof.
  intros Hp0 Hp HQ. unfold report_usage. mwp_go.
  apply mwp_when; intros _.
  - eapply mwp_notify; [done|exact Hp|]. intros; by eapply HQ.
  - apply (HQ _ (last_pressure_level rb)); [done|]. unfold with_level.
    rewrite insert_id; [done|]. rewrite Hp. by destruct rb.
Qed.

(** ** Relief *)

(** Every registered lwIP pool is a live structure. *)
Definition pools_live (m : mem_state) : Prop :=
  Forall (fun p => exists rb, heap m !! p = Some (C_struct rb)) (g_lwip_pools m).

Lemma pools_live_mono m m' :
  pools_live m -> g_lwip_pools m' = g_lwip_pools m ->
  (forall p rb, heap m !! p = Some (C_struct rb) ->
     exists rb', heap m' !! p = Some (C_struct rb')) -> pools_live m'.
Proof.
  unfold pools_live. intros HF -> Hh. eapply Forall_impl; [exact HF|].
  intros p [rb Hp]. eauto.
Qed.

Lemma mwp_pool_usage p m (Q : mem_buffer * Z -> mem_state -> Prop) :
  (exists rb, heap m !! p = Some (C_struct rb)) -> (forall r, Q r m) -> mwp (pool_usage p) m Q.
Proof. intros [rb Hp] HQ. unfold pool_usage. mwp_go. apply HQ. Qed.

Lemma mwp_pools_below l m (Q : bool -> mem_state -> Prop) :
  Forall (fun p => exists rb, heap m !! p = Some (C_struct rb)) l ->
  (forall b, Q b m) -> mwp (pools_below_clear l) m Q.
Proof.
  intros HF HQ. induction HF; cbn; [apply HQ|]. mwp_go.
  apply mwp_pool_usage; [done|]. intros r. mwp_go. destruct (_ <? _); [apply HQ|done].
Qed.

Lemma mwp_pools_level l lv any m (Q : mem_pressure_level -> mem_state -> Prop) :
  Forall (fun p => exists rb, heap m !! p = Some (C_struct rb)) l ->
  (forall b, Q b m) -> mwp (pools_level l lv any) m Q.
Proof.
  intros HF HQ. revert lv any. induction HF; intros; cbn; [apply HQ|]. mwp_go.
  apply mwp_pool_usage; [done|]. intros r. mwp_go. done.
Qed.

(** Relief changes the heap only in the tier of the buffer. *)
Lemma mwp_maybe_clear p rb m (Q : unit -> mem_state -> Prop) :
  p <> 0 -> heap m !! p = Some (C_struct rb) -> pools_live m ->
  (forall m' lv, same_mem m m' -> heap m' = with_level p rb lv (heap m) -> Q tt m') ->
  mwp (mem_pressure_maybe_clear p) m Q.
Proof.
  intros Hp0 Hp HF HQ. unfold mem_pressure_maybe_clear. mwp_go. ztest.
  assert (with_level p rb (last_pressure_level rb) (heap m) = heap m) as Hid.
  { unfold with_level. rewrite insert_id; [done|]. rewrite Hp. by destruct rb. }
  cbn [orb]. destruct (_ <? _); [mwp_go; eapply HQ; [done|by rewrite Hid]|].
  mwp_go. eapply mwp_upd_mb; [exact Hp|].
  set (lv := mem_pressure_level_relief _ _). set (m1 := set_heap _ _).
  assert (pools_live m1) as HF1.
  { eapply pools_live_mono; [exact HF|done|]. intros q rb' Hq. unfold m1. cbn.
    destruct (decide (q = p)) as [->|]; [rewrite lookup_insert_eq|rewrite lookup_insert_ne by done]; eauto. }
  assert (forall m' : mem_state, same_mem m1 m' -> heap m' = heap m1 -> Q tt m') as HQ1.
  { intros m' Hs Hh. apply (HQ _ lv); [by etransitivity; [|exact Hs]|by rewrite Hh]. }
  clearbody m1. clear HF HQ Hid.
  destruct (owner rb); mwp_go;
    try (apply mwp_update_effective; intros m' Hs Hh; by apply HQ1);
    try (apply HQ1; done).
  assert (forall f, (forall g, clear_pct (f g) = clear_pct g) ->
    mwp mem_pressure_update_effective (set_g_pressure (f (g_pressure m1)) m1) Q) as Hupd.
  { intros f Hf. apply mwp_update_effective. intros m' Hs Hh. apply HQ1; [|done].
    etransitivity; [|exact Hs]. repeat split; cbn; by rewrite ?Hf. }
  assert (forall b : bool, mwp (if b
     then upd_press (set_global MEM_PRESSURE_NONE);; mem_pressure_update_effective
     else pool_level ← mem_pressure_pools_level;
          upd_press (set_global pool_level);; mem_pressure_update_effective) m1 Q) as Hb.
  { intros []; mwp_go; [by apply Hupd|].
    unfold mem_pressure_pools_level. mwp_go. apply mwp_pools_level; [exact HF1|].
    intros b. mwp_go. by apply Hupd. }
  destruct (global_active _); [|apply mwp_ret; exact (Hb false)].
  unfold mem_pressure_pools_below_clear. mwp_go. apply mwp_pools_below; [exact HF1|].
  intros b. exact (Hb b).
Qed.

(** ** The heap budget *)

(** A charge is refused or added; it never wraps while limit and charge stay
    under half the address space. *)
Lemma mwp_charge n m (Q : bool -> mem_state -> Prop) :
  let c := g_cfg m in
  0 <= n < 2 ^ 23 -> 0 <= heap_used c <= max_heap c \/ max_heap c = 0 -> max_heap c < 2 ^ 23 ->
  (max_heap c <> 0 -> max_heap c < heap_used c + n -> Q false m) ->
  (max_heap c = 0 -> Q true m) ->
  (max_heap c <> 0 -> heap_used c + n <= max_heap c ->
     Q true (set_g_cfg (set_heap_used (heap_used c + n) c) m)) ->
  mwp (mem_buffer_charge n) m Q.
Proof.
  intros c Hn Hu Hm Q1 Q2 Q3. unfold mem_buffer_charge. mwp_go.
  destruct (Z.eqb_spec (max_heap (g_cfg m)) 0); [by apply Q2|].
  rewrite u24_small by (unfold c in *; lia).
  destruct (Z.ltb_spec (max_heap (g_cfg m)) (heap_used (g_cfg m) + n)); [by apply Q1|].
  mwp_go. by apply Q3.
Qed.

Lemma mwp_release n m (Q : unit -> mem_state -> Prop) :
  (n <= heap_used (g_cfg m) ->
     Q tt (set_g_cfg (set_heap_used (heap_used (g_cfg m) - n) (g_cfg m)) m)) ->
  (heap_used (g_cfg m) < n -> Q tt (set_g_cfg (set_heap_used 0 (g_cfg m)) m)) ->
  mwp (mem_buffer_release n) m Q.
Proof.
  intros Q1 Q2. unfold mem_buffer_release. mwp_go.
  destruct (Z.leb_spec n (heap_used (g_cfg m))); [by apply Q1|by apply Q2].
Qed.

(** ** The allocator *)

Section Alloc.
Context (al : allocator) `{!AllocLaws al}.

Lemma length_junk m n : 0 <= n -> length (junk al m n) = Z.to_nat n.
Proof. intros. unfold junk. by rewrite length_fmap, length_seq. Qed.

Lemma live_blocks_None m p : live_blocks al m !! p = None -> heap m !! p = None.
Proof. unfold live_blocks. by rewrite lookup_fmap, fmap_None. Qed.

(** A fresh block was not live before. *)
Lemma mwp_malloc n m (Q : Z -> mem_state -> Prop) :
  0 < n ->
  (forall m', same_mem m m' -> heap m' = heap m -> g_pressure m' = g_pressure m -> Q 0 m') ->
  (forall p l m', 0 < p -> p + n < 2 ^ 24 -> heap m !! p = None ->
     length l = Z.to_nat n -> same_mem m m' ->
     heap m' = <[p := C_bytes l]> (heap m) -> Q p m') ->
  mwp (malloc_fn al n) m Q.
Proof.
  intros Hn Q0 Q1. unfold mwp, malloc_fn.
  set (p := al_malloc _ _ _ _). destruct (Z.eqb_spec p 0) as [E|E]; [by apply Q0|].
  destruct (malloc_apart al _ _ _ Hn E) as (?&?&HN&_).
  eapply (Q1 p); [done|done|by apply live_blocks_None in HN|by apply length_junk; lia|done|done].
Qed.

(** A successful reallocation keeps the common prefix. *)
Lemma mwp_realloc q l n m (Q : Z -> mem_state -> Prop) :
  0 < n -> heap m !! q = Some (C_bytes l) ->
  (forall m', same_mem m m' -> heap m' = heap m -> Q 0 m') ->
  (forall p l' m', 0 < p -> p + n < 2 ^ 24 -> delete q (heap m) !! p = None ->
     length l' = Z.to_nat n ->
     (forall k, (k <= Z.to_nat n)%nat -> (k <= length l)%nat -> take k l' = take k l) ->
     same_mem m m' -> heap m' = <[p := C_bytes l']> (delete q (heap m)) -> Q p m') ->
  mwp (realloc_fn al q n) m Q.
Proof.
  intros Hn Hq Q0 Q1. unfold mwp, realloc_fn. rewrite Hq.
  set (p := al_realloc _ _ _ _ _). destruct (Z.eqb_spec p 0) as [E|E]; [by apply Q0|].
  destruct (realloc_apart al _ _ _ _ Hn E) as (?&?&HN&_).
  apply (Q1 p (take (Z.to_nat n) l ++ drop (length l) (junk al m n))); try done.
  - unfold live_blocks in HN. rewrite <- fmap_delete, lookup_fmap, fmap_None in HN. done.
  - rewrite length_app, length_take, length_drop, length_junk by lia. lia.
  - intros k Hk1 Hk2. rewrite take_app_le by (rewrite length_take; lia).
    rewrite take_take. by replace (k `min` Z.to_nat n)%nat with k by lia.
Qed.
End Alloc.
