(* ===== verification/RingList.v ===== *)
(** * Circular arrays

    The list of bytes a ring holds, and what the reads, writes and clears of
    the ring operations do to it: pure lemmas on lists, by position. *)

From S2P Require Import Prelude MemState.

(** The [len] bytes of the array from position [h] on, around the end. *)
Definition rot (arr : bytes) (h len : nat) : bytes := take len (drop h arr ++ take h arr).

(** A position past the end, brought back. *)
Definition wrap (n k : nat) : nat := if decide (k < n)%nat then k else (k - n)%nat.

Lemma length_rot arr h len :
  (len <= length arr)%nat -> length (rot arr h len) = len.
Proof.
  intros. unfold rot. rewrite length_take, length_app, length_drop, length_take. lia.
Qed.

Lemma lookup_rot arr h len i :
  (h < length arr)%nat -> (i < len)%nat -> (len <= length arr)%nat ->
  rot arr h len !! i = arr !! wrap (length arr) (h + i).
Proof.
  intros. unfold rot, wrap. rewrite lookup_take_lt by lia.
  case_decide.
  - rewrite lookup_app_l by (rewrite length_drop; lia). by rewrite lookup_drop.
  - rewrite lookup_app_r by (rewrite length_drop; lia). rewrite length_drop.
    rewrite lookup_take_lt by lia. f_equal. lia.
Qed.

(** Two lists of the same length that agree at every position. *)
Lemma list_eq_upto (l k : bytes) n :
  length l = n -> length k = n ->
  (forall i, (i < n)%nat -> l !! i = k !! i) -> l = k.
Proof.
  intros Hl Hk HE. apply list_eq. intros i.
  destruct (decide (i < n)%nat) as [?|?]; [by apply HE|].
  by rewrite !(proj2 (lookup_ge_None _ _)) by lia.
Qed.

Lemma length_slice l off n :
  0 <= off -> 0 <= n -> off + n <= Z.of_nat (length l) -> length (slice l off n) = Z.to_nat n.
Proof. intros. unfold slice. rewrite length_take, length_drop. lia. Qed.

Lemma lookup_slice l off n i :
  (i < Z.to_nat n)%nat -> slice l off n !! i = l !! (Z.to_nat off + i)%nat.
Proof. intros. unfold slice. by rewrite lookup_take_lt, lookup_drop by lia. Qed.

Lemma length_splice l off d :
  0 <= off -> off + Z.of_nat (length d) <= Z.of_nat (length l) ->
  length (splice l off d) = length l.
Proof. intros. unfold splice. rewrite !length_app, length_take, length_drop. lia. Qed.

Lemma lookup_splice l off d j :
  0 <= off -> off + Z.of_nat (length d) <= Z.of_nat (length l) ->
  splice l off d !! j =
  if decide (Z.to_nat off <= j < Z.to_nat off + length d)%nat
  then d !! (j - Z.to_nat off)%nat else l !! j.
Proof.
  intros. unfold splice.
  destruct (decide (j < Z.to_nat off)%nat).
  { rewrite lookup_app_l by (rewrite length_take; lia).
    rewrite decide_False by lia. by rewrite lookup_take_lt. }
  rewrite lookup_app_r by (rewrite length_take; lia). rewrite length_take_le by lia.
  destruct (decide (j < Z.to_nat off + length d)%nat).
  { rewrite decide_True by lia. by rewrite lookup_app_l by lia. }
  rewrite decide_False by lia. rewrite lookup_app_r, lookup_drop by lia. f_equal. lia.
Qed.

(** How many of [n] bytes lie before the end of an array of [c], from [pos]. *)
Definition before_end (c pos n : Z) : Z := if n <? c - pos then n else c - pos.

Lemma before_end_spec c pos n :
  0 <= pos < c -> 0 <= n ->
  (before_end c pos n = n \/ (before_end c pos n = c - pos /\ c - pos <= n)) /\
  0 <= before_end c pos n <= n /\ pos + before_end c pos n <= c /\
  (0 < n -> 0 < before_end c pos n).
Proof. intros. unfold before_end. destruct (Z.ltb_spec n (c - pos)); lia. Qed.

(** A remainder that takes at most one subtraction. *)
Lemma mod_once a c : 0 <= a < 2 * c -> a mod c = if a <? c then a else a - c.
Proof.
  intros. destruct (Z.ltb_spec a c); [apply Z.mod_small; lia|].
  symmetry. apply (Z.mod_unique_pos _ _ 1); lia.
Qed.

Section Ring.
Context (arr : bytes) (h len : Z).
Let c := Z.of_nat (length arr).
Context (Hh : 0 <= h < c) (Hlen : 0 <= len <= c).

Let contents := rot arr (Z.to_nat h) (Z.to_nat len).

(** Reading in two parts gives a stretch of the contents. *)
Lemma read_ring off k (pos := (h + off) mod c) (first := before_end c pos k) :
  0 <= off -> 0 < k -> off + k <= len ->
  slice arr pos first ++ slice arr 0 (k - first) =
  take (Z.to_nat k) (drop (Z.to_nat off) contents).
Proof using Hh Hlen.
  intros Hoff Hk Hok.
  assert (pos = if h + off <? c then h + off else h + off - c) as Hpos.
  { apply mod_once. lia. }
  assert (0 <= pos < c) by (destruct (Z.ltb_spec (h + off) c); lia).
  pose proof (before_end_spec c pos k) as Hf. fold first in Hf.
  clearbody first pos.
  apply (list_eq_upto _ _ (Z.to_nat k)).
  - rewrite length_app, !length_slice by lia. lia.
  - rewrite length_take, length_drop. unfold contents. rewrite length_rot by lia. lia.
  - intros i Hi. rewrite lookup_take_lt, lookup_drop by lia. unfold contents.
    rewrite lookup_rot by lia. unfold wrap.
    destruct (decide (i < Z.to_nat first)%nat).
    + rewrite lookup_app_l by (rewrite length_slice; lia). rewrite lookup_slice by lia.
      f_equal. destruct (Z.ltb_spec (h + off) c); case_decide; lia.
    + rewrite lookup_app_r by (rewrite length_slice; lia). rewrite length_slice by lia.
      rewrite lookup_slice by lia. f_equal.
      destruct (Z.ltb_spec (h + off) c); case_decide; lia.
Qed.

(** Writing in two parts after the contents appends to them. *)
Lemma write_ring d (tail := (h + len) mod c) (first := before_end c tail (Z.of_nat (length d))) :
  len + Z.of_nat (length d) <= c ->
  rot (splice (splice arr tail (take (Z.to_nat first) d)) 0 (drop (Z.to_nat first) d))
    (Z.to_nat h) (Z.to_nat (len + Z.of_nat (length d))) = contents ++ d.
Proof using Hh Hlen.
  intros Hfit.
  assert (tail = if h + len <? c then h + len else h + len - c) as Htail.
  { apply mod_once. lia. }
  assert (0 <= tail < c) by (destruct (Z.ltb_spec (h + len) c); lia).
  pose proof (before_end_spec c tail (Z.of_nat (length d))) as Hf. fold first in Hf.
  clearbody first tail.
  assert (length (take (Z.to_nat first) d) = Z.to_nat first) as Ht by (rewrite length_take; lia).
  assert (length (drop (Z.to_nat first) d) = (length d - Z.to_nat first)%nat) as Hd
    by (rewrite length_drop; lia).
  assert (length (splice arr tail (take (Z.to_nat first) d)) = length arr) as Hs1
    by (rewrite length_splice; lia).
  assert (length (splice (splice arr tail (take (Z.to_nat first) d)) 0 (drop (Z.to_nat first) d))
          = length arr) as Hs2 by (rewrite length_splice; lia).
  apply (list_eq_upto _ _ (Z.to_nat (len + Z.of_nat (length d)))).
  - rewrite length_rot by lia. lia.
  - rewrite length_app. unfold contents. rewrite length_rot by lia. lia.
  - intros i Hi. rewrite lookup_rot by lia. rewrite Hs2. unfold wrap.
    rewrite !lookup_splice by lia. rewrite Ht, Hd.
    destruct (decide (i < Z.to_nat len)%nat).
    + rewrite lookup_app_l by (unfold contents; rewrite length_rot; lia).
      unfold contents. rewrite lookup_rot by lia. unfold wrap.
      destruct (Z.ltb_spec (h + len) c); repeat case_decide; try lia; done.
    + rewrite lookup_app_r by (unfold contents; rewrite length_rot; lia).
      unfold contents. rewrite length_rot by lia.
      destruct (Z.ltb_spec (h + len) c); repeat case_decide; try lia;
        rewrite ?lookup_drop, ?lookup_take_lt by lia; f_equal; lia.
Qed.

(** Bytes written over the first [k] leave the rest. *)
Lemma clear_ring k z1 z2 (first := before_end c h k) :
  0 < k <= len ->
  Z.of_nat (length z1) = first -> Z.of_nat (length z2) = k - first ->
  rot (splice (splice arr h z1) 0 z2) (Z.to_nat ((h + k) mod c)) (Z.to_nat (len - k)) =
  drop (Z.to_nat k) contents.
Proof using Hh Hlen.
  intros Hk Hz1 Hz2.
  assert ((h + k) mod c = if h + k <? c then h + k else h + k - c) as Hpos.
  { apply mod_once. lia. }
  pose proof (before_end_spec c h k) as Hf. fold first in Hf.
  clearbody first. rewrite Hpos.
  assert (length (splice arr h z1) = length arr) as Hs1 by (rewrite length_splice; lia).
  assert (length (splice (splice arr h z1) 0 z2) = length arr) as Hs2
    by (rewrite length_splice; lia).
  apply (list_eq_upto _ _ (Z.to_nat (len - k))).
  - rewrite length_rot by lia. lia.
  - rewrite length_drop. unfold contents. rewrite length_rot by lia. lia.
  - intros i Hi. rewrite lookup_drop. unfold contents.
    rewrite !lookup_rot by (destruct (Z.ltb_spec (h + k) c); lia). rewrite Hs2. unfold wrap.
    rewrite !lookup_splice by lia.
    destruct (Z.ltb_spec (h + k) c); repeat case_decide; try lia; f_equal; lia.
Qed.

(** Without clearing, the rest is found from the new head. *)
Lemma advance_ring k :
  0 < k <= len ->
  rot arr (Z.to_nat ((h + k) mod c)) (Z.to_nat (len - k)) = drop (Z.to_nat k) contents.
Proof using Hh Hlen.
  intros Hk.
  assert ((h + k) mod c = if h + k <? c then h + k else h + k - c) as Hpos.
  { apply mod_once. lia. }
  rewrite Hpos. apply (list_eq_upto _ _ (Z.to_nat (len - k))).
  - rewrite length_rot by lia. lia.
  - rewrite length_drop. unfold contents. rewrite length_rot by lia. lia.
  - intros i Hi. rewrite lookup_drop. unfold contents.
    rewrite !lookup_rot by (destruct (Z.ltb_spec (h + k) c); lia). unfold wrap.
    destruct (Z.ltb_spec (h + k) c); repeat case_decide; try lia; f_equal; lia.
Qed.

(** Copying both parts to the start of a larger array straightens the ring. *)
Lemma copy_ring new (first := before_end c h len) :
  0 < len -> len <= Z.of_nat (length new) ->
  take (Z.to_nat len)
    (splice (splice new 0 (slice arr h first)) first (slice arr 0 (len - first))) = contents.
Proof using Hh Hlen.
  intros Hpos Hnew.
  pose proof (read_ring 0 len ltac:(lia) ltac:(lia) ltac:(lia)) as HR.
  rewrite Z.add_0_r, (Z.mod_small h c) in HR by lia. cbn beta zeta in HR. fold first in HR.
  change (Z.to_nat 0) with 0%nat in HR. rewrite drop_0 in HR.
  rewrite (take_ge contents) in HR by (unfold contents; rewrite length_rot; lia).
  rewrite <- HR.
  pose proof (before_end_spec c h len) as Hf. fold first in Hf.
  clearbody first.
  assert (length (slice arr h first) = Z.to_nat first) as Ha by (apply length_slice; lia).
  assert (length (slice arr 0 (len - first)) = Z.to_nat (len - first)) as Hb
    by (apply length_slice; lia).
  apply (list_eq_upto _ _ (Z.to_nat len)).
  - rewrite length_take, !length_splice by (rewrite ?length_splice; lia). lia.
  - rewrite length_app. lia.
  - intros i Hi. rewrite lookup_take_lt by lia.
    rewrite !lookup_splice by (rewrite ?length_splice; lia). rewrite Ha, Hb.
    destruct (decide (i < Z.to_nat first)%nat).
    + rewrite lookup_app_l by lia. repeat case_decide; try lia. f_equal; lia.
    + rewrite lookup_app_r by lia. repeat case_decide; try lia. f_equal; lia.
Qed.
End Ring.

(** A ring that starts at the front is a prefix. *)
Lemma rot_0 arr n : (n <= length arr)%nat -> rot arr 0 n = take n arr.
Proof. intros. unfold rot. rewrite drop_0. by rewrite take_app_le by lia. Qed.
