(* ===== verification/RingQueue.v ===== *)
(** * Ring buffers are queues

    The invariant of a ring buffer and the specification of every ring
    operation of [src/src/drivers/mem.c] against the list of bytes it holds:
    growing, shrinking and straightening the array keep the list, a push
    appends, a pop takes from the front, and no other block is touched. *)

From S2P Require Import Prelude MemState MemPressure MemBuffer MemLogic RingList.

(** ** The invariant *)

(** The structure [rb] with the array [arr] holds the bytes [l].  The limit is
    below half of the 24-bit range, so that no sum of two positions wraps. *)
Record ring_ok (rb : mem_buffer) (arr l : bytes) : Prop := {
  r_arr : Z.of_nat (length arr) = cap rb;
  r_head : 0 <= ring_head rb < cap rb;
  r_len : 0 <= ring_len rb <= cap rb;
  r_max : cap rb <= max_cap rb < 2 ^ 23;
  r_step : 0 <= step rb < 2 ^ 23;
  r_kind : has_flag (flags rb) BUFFER_MALLOC_TYPE = false;
  r_buf : buf rb <> 0;
  r_bitmap : pool_bitmap rb = 0;
  r_bytes : rot arr (Z.to_nat (ring_head rb)) (Z.to_nat (ring_len rb)) = l
}.

(** The heap budget covers the array (there is no budget when the limit is 0). *)
Definition budget (cfg : mem_buffer_config) (charged : Z) : Prop :=
  0 <= max_heap cfg < 2 ^ 23 /\
  (max_heap cfg <> 0 -> 0 <= charged <= heap_used cfg /\ heap_used cfg <= max_heap cfg).

Record ring_at (m : mem_state) (p : Z) (rb : mem_buffer) (arr l : bytes) : Prop := {
  at_ptr : p <> 0;
  at_rb : heap m !! p = Some (C_struct rb);
  at_arr : heap m !! buf rb = Some (C_bytes arr);
  at_ok : ring_ok rb arr l;
  at_budget : budget (g_cfg m) (cap rb);
  at_pools : pools_live m
}.

(** [p] is a ring buffer that holds [l]. *)
Definition ring_inv (m : mem_state) (p : Z) (l : bytes) : Prop :=
  exists rb arr, ring_at m p rb arr l.

(** The heap without the structure at [p] and the array at [b]. *)
Definition rest (p b : Z) (m : mem_state) : gmap Z cell := delete b (delete p (heap m)).

(** Equality of two heaps but for a few blocks. *)
Ltac rest_eq :=
  unfold rest; cbn [heap set_heap set_history set_g_cfg]; apply map_eq; intros ?q;
  repeat match goal with
  | |- context [delete ?k _ !! ?q] => destruct (decide (q = k)) as [->|];
      [rewrite !lookup_delete_eq|rewrite !(lookup_delete_ne _ k) by congruence]
  | |- context [<[?k := _]> _ !! ?q] => destruct (decide (q = k)) as [->|];
      [rewrite !lookup_insert_eq|rewrite !(lookup_insert_ne _ k) by congruence]
  end; try congruence.

(** The same ring before and after: every block but its structure and its
    array is as it was, no block appeared or vanished, and the budget changed
    by as much as the capacity. *)
Definition ring_frame (p : Z) (m : mem_state) (rb : mem_buffer)
    (m' : mem_state) (rb' : mem_buffer) : Prop :=
  rest p (buf rb') m' = rest p (buf rb) m /\
  g_lwip_pools m' = g_lwip_pools m /\ realloc_set (g_cfg m') = realloc_set (g_cfg m) /\
  max_heap (g_cfg m') = max_heap (g_cfg m) /\
  (max_heap (g_cfg m) <> 0 ->
     heap_used (g_cfg m') - cap rb' = heap_used (g_cfg m) - cap rb) /\
  max_cap rb' = max_cap rb.

Lemma ring_frame_refl p m rb : ring_frame p m rb m rb.
Proof. repeat split; eauto. Qed.

Lemma ring_frame_trans p m1 rb1 m2 rb2 m3 rb3 :
  ring_frame p m1 rb1 m2 rb2 -> ring_frame p m2 rb2 m3 rb3 -> ring_frame p m1 rb1 m3 rb3.
Proof.
  intros (F1&P1&R1&M1&U1&X1) (F2&P2&R2&M2&U2&X2). split_and!; try congruence.
  intros HM. rewrite M1 in U2. specialize (U1 HM). specialize (U2 HM). lia.
Qed.

Lemma ring_at_ne m p rb arr l : ring_at m p rb arr l -> buf rb <> p.
Proof. intros [] E. congruence. Qed.

(** What the frame says of one other block. *)
Lemma rest_lookup p b b' m m' q c :
  rest p b' m' = rest p b m -> q <> p -> q <> b -> heap m !! q = Some c -> heap m' !! q = Some c.
Proof.
  unfold rest. intros HR Hp Hb Hq.
  assert (delete b (delete p (heap m)) !! q = Some c) as H1
    by (by rewrite !lookup_delete_ne).
  rewrite <- HR in H1. apply lookup_delete_Some in H1 as [_ H1].
  by apply lookup_delete_Some in H1 as [_ H1].
Qed.

(** Compose the frames of the context. *)
Ltac frames := by repeat (eapply ring_frame_trans; [eassumption|]).

(** A report changes nothing of the ring but the tier. *)
Lemma ring_at_level m p rb arr l m' lv :
  ring_at m p rb arr l -> same_mem m m' -> heap m' = with_level p rb lv (heap m) ->
  ring_at m' p (set_last_pressure_level lv rb) arr l /\
  ring_frame p m rb m' (set_last_pressure_level lv rb).
Proof.
  intros Hat (Hc&_&_&Hpl&_) Hh. pose proof (ring_at_ne _ _ _ _ _ Hat) as Hne.
  destruct Hat as [? Hrb Harr Hok Hb Hpo]. unfold with_level in Hh. split.
  - split; rewrite ?Hh, ?Hc; try done.
    + by rewrite lookup_insert_eq.
    + by rewrite lookup_insert_ne.
    + by destruct Hok.
    + eapply pools_live_mono; [exact Hpo|done|]. intros q rb' Hq. rewrite Hh.
      destruct (decide (q = p)) as [->|]; [rewrite lookup_insert_eq|rewrite lookup_insert_ne by done]; eauto.
  - repeat split; rewrite ?Hc; eauto. cbn. unfold rest. rewrite Hh. by rewrite delete_insert_eq.
Qed.

(** A change of the structure that keeps the array and what the ring holds. *)
Lemma ring_at_upd m p rb arr l rb' l' :
  ring_at m p rb arr l -> ring_ok rb' arr l' -> buf rb' = buf rb -> cap rb' = cap rb ->
  max_cap rb' = max_cap rb ->
  let m' := set_heap (<[p := C_struct rb']> (heap m)) m in
  ring_at m' p rb' arr l' /\ ring_frame p m rb m' rb'.
Proof.
  intros Hat Hok' Hb Hc Hmc m'. pose proof (ring_at_ne _ _ _ _ _ Hat) as Hne.
  destruct Hat as [? Hrb Harr Hok Hbu Hpo]. split.
  - split; unfold m'; cbn; rewrite ?Hb, ?Hc; try done.
    + by rewrite lookup_insert_eq.
    + by rewrite lookup_insert_ne.
    + eapply pools_live_mono; [exact Hpo|done|]. intros q rb2 Hq. cbn.
      destruct (decide (q = p)) as [->|]; [rewrite lookup_insert_eq|rewrite lookup_insert_ne by done]; eauto.
  - repeat split; cbn; rewrite ?Hb, ?Hc; eauto. unfold rest. cbn. by rewrite delete_insert_eq.
Qed.

(** A change of the array in place. *)
Lemma ring_at_arr m p rb arr l arr' l' :
  ring_at m p rb arr l -> ring_ok rb arr' l' ->
  let m' := set_heap (<[buf rb := C_bytes arr']> (heap m)) m in
  ring_at m' p rb arr' l' /\ ring_frame p m rb m' rb.
Proof.
  intros Hat Hok' m'. pose proof (ring_at_ne _ _ _ _ _ Hat) as Hne.
  destruct Hat as [? Hrb Harr Hok Hbu Hpo]. split.
  - split; unfold m'; cbn; try done.
    + by rewrite lookup_insert_ne.
    + by rewrite lookup_insert_eq.
    + eapply pools_live_mono; [exact Hpo|done|]. intros q rb2 Hq. cbn.
      destruct (decide (q = buf rb)) as [->|]; [congruence|rewrite lookup_insert_ne by done; eauto].
  - repeat split; cbn; eauto. unfold m'. rest_eq.
Qed.

(** ** Resizing *)

Lemma pools_live_rest p b b' l rb' m m' :
  pools_live m -> heap m !! b = Some (C_bytes l) -> heap m' !! p = Some (C_struct rb') ->
  g_lwip_pools m' = g_lwip_pools m -> rest p b' m' = rest p b m -> pools_live m'.
Proof.
  intros HF Hb Hp HP HR. eapply pools_live_mono; [exact HF|done|].
  intros q rb Hq. destruct (decide (q = p)) as [->|]; [eauto|].
  exists rb. eapply rest_lookup; [exact HR|done| |done]. intros ->. congruence.
Qed.

(** What [mem_buffer_release] leaves in the configuration. *)
Definition released (n : Z) (cfg : mem_buffer_config) : mem_buffer_config :=
  if n <=? heap_used cfg then set_heap_used (heap_used cfg - n) cfg else set_heap_used 0 cfg.

Lemma mwp_when_release n m (Q : unit -> mem_state -> Prop) :
  (forall m', m' = m \/ m' = set_g_cfg (g_cfg m') m ->
     g_cfg m' = (if 0 <? n then released n (g_cfg m) else g_cfg m) -> Q tt m') ->
  mwp (whenMM (0 <? n) (mem_buffer_release n)) m Q.
Proof.
  intros HQ. destruct (0 <? n) eqn:E; unfold whenMM; cbn; [|apply HQ; auto].
  apply mwp_modify, HQ; [by right|done].
Qed.

(** The ring as a failed attempt leaves it: same bytes, same array size. *)
Definition kept (p : Z) (rb : mem_buffer) (l : bytes) (m m' : mem_state) : Prop :=
  exists rb' arr', heap m' !! p = Some (C_struct rb') /\
    heap m' !! buf rb = Some (C_bytes arr') /\ ring_ok rb' arr' l /\
    buf rb' = buf rb /\ cap rb' = cap rb /\ max_cap rb' = max_cap rb /\
    g_lwip_pools m' = g_lwip_pools m /\ rest p (buf rb) m' = rest p (buf rb) m.

(** A new array that starts with the bytes of the ring. *)
Definition moved (p : Z) (rb : mem_buffer) (l : bytes) (new_cap nb : Z)
    (m m' : mem_state) : Prop :=
  exists arr', heap m' !! p = Some (C_struct rb) /\
    heap m' !! nb = Some (C_bytes arr') /\ Z.of_nat (length arr') = new_cap /\
    take (Z.to_nat (ring_len rb)) arr' = l /\ nb <> 0 /\
    g_lwip_pools m' = g_lwip_pools m /\ rest p nb m' = rest p (buf rb) m.

(** Both paths of a resize end in one of the two. *)
Definition resize_post (p : Z) (rb : mem_buffer) (l : bytes) (new_cap grow : Z)
    (m : mem_state) (nb : Z) (m' : mem_state) : Prop :=
  (nb = 0 /\ kept p rb l m m' /\
     g_cfg m' = (if 0 <? grow then released grow (g_cfg m) else g_cfg m)) \/
  (nb <> 0 /\ moved p rb l new_cap nb m m' /\ g_cfg m' = g_cfg m).

Section Resize.
Context (al : allocator) `{!AllocLaws al}.
Context (m : mem_state) (p : Z) (rb : mem_buffer) (arr l : bytes) (new_cap : Z).
Context (Hp0 : p <> 0) (Hrb : heap m !! p = Some (C_struct rb))
  (Harr : heap m !! buf rb = Some (C_bytes arr)) (Hok : ring_ok rb arr l)
  (Hnew : 0 < new_cap < 2 ^ 23) (Hfit : ring_len rb <= new_cap).

Lemma buf_ne : buf rb <> p.
Proof using Hrb Harr. congruence. Qed.

Lemma secure_clear_ok shrink :
  ring_head rb = 0 -> 0 <= shrink -> new_cap + shrink = cap rb \/ shrink = 0 ->
  mwp (whenMM (has_flag (flags rb) BUFFER_SECURE_MODE && (0 <? shrink))
         (memset (buf rb) new_cap 0 shrink)) m (fun _ m' =>
    exists arr', ring_ok rb arr' l /\ same_mem m m' /\
      heap m' = <[buf rb := C_bytes arr']> (heap m)).
Proof using Hrb Harr Hok Hnew Hfit.
  intros Hh Hs0 Hs. apply mwp_when; intros E; zbool.
  - unfold memset. pose proof (r_arr _ _ _ Hok). pose proof (r_len _ _ _ Hok).
    eapply mwp_write; [exact Harr|lia|rewrite length_replicate; lia|].
    eexists; split; [|split; [done|cbn; done]].
    destruct Hok; split; rewrite ?length_splice by (rewrite ?length_replicate; lia); try done.
    rewrite Hh in *. change (Z.to_nat 0) with 0%nat in *.
    rewrite rot_0 in * by (rewrite ?length_splice by (rewrite ?length_replicate; lia); lia).
    unfold splice. rewrite take_app_le by (rewrite length_take; lia).
    rewrite take_take. by replace (_ `min` _)%nat with (Z.to_nat (ring_len rb)) by lia.
  - exists arr. split; [done|]. split; [done|]. by rewrite insert_id.
Qed.

Lemma mwp_resize_realloc grow shrink (Q : Z -> mem_state -> Prop) :
  ring_head rb = 0 -> 0 <= shrink -> new_cap + shrink = cap rb \/ shrink = 0 ->
  (forall nb m', resize_post p rb l new_cap grow m nb m' -> Q nb m') ->
  mwp (resize_realloc al p new_cap grow shrink) m Q.
Proof using All.
  intros Hh Hs0 Hs HQ. pose proof buf_ne as Hne. unfold resize_realloc. mwp_go.
  eapply mwp_mono; [by apply secure_clear_ok|]. cbn beta. intros _ m1 (arr1&Hok1&Hs1&Hh1).
  assert (heap m1 !! buf rb = Some (C_bytes arr1)) as Harr1 by by rewrite Hh1, lookup_insert_eq.
  assert (heap m1 !! p = Some (C_struct rb)) as Hrb1 by by rewrite Hh1, lookup_insert_ne.
  mwp_go. eapply (mwp_realloc al); [lia|exact Harr1| |].
  - intros m2 Hs2 Hh2. cbn. mwp_go. eapply mwp_notify; [done|by rewrite Hh2|].
    intros m3 Hs3 Hh3. mwp_go. apply mwp_when_release. intros m4 Hm4 Hc4. mwp_go. apply HQ. left.
    pose proof (transitivity Hs1 (transitivity Hs2 Hs3)) as (Hc&_&_&Hpl&_).
    assert (heap m4 = heap m3 /\ g_lwip_pools m4 = g_lwip_pools m3) as [Hh4 Hp4]
      by (destruct Hm4 as [->| ->]; done).
    split; [done|]. split; [|by rewrite Hc4, Hc].
    exists (set_last_pressure_level MEM_PRESSURE_CRITICAL rb), arr1.
    unfold with_level in Hh3. rewrite Hh4, Hh3, Hh2, lookup_insert_eq, lookup_insert_ne by done.
    repeat split; try done; try apply Hok1; [by rewrite Hp4|].
    rest_eq; rewrite Hh4, Hh3, Hh2, Hh1; by simplify_map_eq.
  - intros nb l2 m2 Hnb _ Hfr Hlen Hpre Hs2 Hh2. mwp_go. ztest. mwp_go. apply HQ. right.
    pose proof (transitivity Hs1 Hs2) as (Hc&_&_&Hpl&_).
    split; [lia|]. split; [|done]. exists l2.
    assert (nb <> p) by (intros ->; rewrite lookup_delete_ne in Hfr by done; congruence).
    rewrite Hh2, lookup_insert_eq, lookup_insert_ne, lookup_delete_ne by done.
    split; [done|]. split; [done|]. split; [lia|]. split.
    { rewrite Hpre by (pose proof (r_arr _ _ _ Hok1); pose proof (r_len _ _ _ Hok1); lia).
      rewrite <- (r_bytes _ _ _ Hok1), Hh. change (Z.to_nat 0) with 0%nat.
      rewrite rot_0; [done|]. pose proof (r_arr _ _ _ Hok1); pose proof (r_len _ _ _ Hok1); lia. }
    split; [lia|]. split; [done|].
    assert (nb = buf rb \/ heap m !! nb = None) as Hor.
    { destruct (decide (nb = buf rb)); [by left|right].
      rewrite lookup_delete_ne in Hfr by done. rewrite Hh1, lookup_insert_ne in Hfr; done. }
    rest_eq; rewrite ?Hh2, ?Hh1; simplify_map_eq; try done; destruct Hor; congruence.
Qed.

(** The copy of both parts of the ring into the new array. *)
Lemma copy_parts m1 nb fresh :
  heap m1 = <[nb := C_bytes fresh]> (heap m) -> heap m !! nb = None ->
  length fresh = Z.to_nat new_cap ->
  mwp (whenMM (0 <? ring_len rb)
      (let first0 := u24 (cap rb - ring_head rb) in
       let first := if ring_len rb <? first0 then ring_len rb else first0 in
       d1 ← read_bytes (buf rb) (ring_head rb) first;
       write_bytes nb 0 d1;;
       d2 ← read_bytes (buf rb) 0 (u24 (ring_len rb - first));
       write_bytes nb first d2)) m1 (fun _ m' =>
    exists arr', same_mem m1 m' /\ heap m' = <[nb := C_bytes arr']> (heap m) /\
      length arr' = Z.to_nat new_cap /\ take (Z.to_nat (ring_len rb)) arr' = l).
Proof using Hrb Harr Hok Hnew Hfit.
  intros Hh1 Hfr Hlf.
  assert (nb <> buf rb) as Hnb by congruence.
  destruct Hok as [Ha Hhd Hln Hmx _ _ _ _ Hl].
  apply mwp_when; intros E; zbool.
  - cbn zeta. rewrite (u24_small (cap rb - ring_head rb)) by lia.
    fold (before_end (cap rb) (ring_head rb) (ring_len rb)).
    pose proof (before_end_spec (cap rb) (ring_head rb) (ring_len rb)) as Hf.
    pose proof (copy_ring arr (ring_head rb) (ring_len rb) ltac:(lia) ltac:(lia) fresh) as HC.
    cbn zeta in HC. rewrite Ha in HC. specialize (HC ltac:(lia) ltac:(lia)).
    set (first := before_end _ _ _) in *. clearbody first.
    rewrite (u24_small (ring_len rb - first)) by lia.
    mwp_go. eapply mwp_read; [by rewrite Hh1, lookup_insert_ne|lia|lia|lia|].
    mwp_go. eapply mwp_write; [by rewrite Hh1, lookup_insert_eq|lia|rewrite length_slice; lia|].
    mwp_go. eapply mwp_read; [cbn; by rewrite Hh1, !lookup_insert_ne|lia|lia|lia|].
    mwp_go. eapply mwp_write; [cbn; by rewrite lookup_insert_eq|lia| |].
    { rewrite length_splice, length_slice by (rewrite ?length_slice; lia). lia. }
    eexists; split; [done|]. split.
    { cbn. by rewrite Hh1, !insert_insert_eq. }
    split; [|by rewrite HC].
    by rewrite !length_splice by (rewrite ?length_splice, ?length_slice; rewrite ?length_slice; lia).
  - exists fresh. repeat split; try done. replace (ring_len rb) with 0 in * by lia.
    change (Z.to_nat 0) with 0%nat in *. by rewrite take_0.
Qed.

Lemma mwp_resize_copy grow (Q : Z -> mem_state -> Prop) :
  (forall nb m', resize_post p rb l new_cap grow m nb m' -> Q nb m') ->
  mwp (resize_copy al p new_cap grow) m Q.
Proof using All.
  intros HQ. pose proof buf_ne as Hne. unfold resize_copy. mwp_go.
  eapply (mwp_malloc al); [lia| |].
  - intros m1 (Hc&_&_&Hpl&_) Hh1 _. cbn. mwp_go. apply mwp_when_release.
    intros m2 Hm2 Hc2. mwp_go. apply HQ. left.
    assert (heap m2 = heap m1 /\ g_lwip_pools m2 = g_lwip_pools m1) as [Hh2 Hp2]
      by (destruct Hm2 as [->| ->]; done).
    split; [done|]. split; [|by rewrite Hc2, Hc]. exists rb, arr.
    unfold rest. rewrite Hh2, Hh1. repeat split; try done; try apply Hok; by rewrite Hp2.
  - intros nb fresh m1 Hnb _ Hfr Hlf Hs1 Hh1. mwp_go. ztest. mwp_go.
    eapply mwp_mono; [by eapply copy_parts|]. cbn beta.
    intros _ m2 (arr2&Hs2&Hh2&Hl2&Ht2). mwp_go.
    assert (nb <> buf rb /\ nb <> p) as [Hnb1 Hnb2] by (split; congruence).
    assert (heap m2 !! buf rb = Some (C_bytes arr)) as Harr2 by by rewrite Hh2, lookup_insert_ne.
    apply (mwp_mono _ _ (fun _ m3 => same_mem m2 m3 /\ exists arr3,
      heap m3 = <[buf rb := C_bytes arr3]> (heap m2))).
    { apply mwp_when; intros _.
      - pose proof (r_arr _ _ _ Hok). pose proof (r_len _ _ _ Hok).
        eapply mwp_write; [exact Harr2|lia|rewrite length_replicate; lia|].
        split; [done|]. by eexists.
      - split; [done|]. exists arr. by rewrite insert_id. }
    intros _ m3 [Hs3 [arr3 Hh3]]. mwp_go.
    unfold mwp, free_fn. rewrite Hh3, lookup_insert_eq. mwp_go. apply HQ. right.
    pose proof (transitivity Hs1 (transitivity Hs2 Hs3)) as (Hc&_&_&Hpl&_).
    split; [lia|]. split; [|done]. exists arr2. cbn.
    rewrite delete_insert_eq, Hh2.
    rewrite !(lookup_delete_ne _ (buf rb)), (lookup_insert_ne _ nb p), lookup_insert_eq by done.
    repeat split; try done; try lia.
    rest_eq; cbn; simplify_map_eq; congruence.
Qed.
End Resize.

(** The structure after a successful resize. *)
Definition resized_rb (new_cap nb : Z) (rb : mem_buffer) : mem_buffer :=
  set_shrink_hold_next (shrink_hold_base rb)
    (set_shrink_stage 0 (set_shrink_hits 0 (set_ring_head 0 (set_cap new_cap (set_buf nb rb))))).

(** The configuration after the capacity changed from [old] to [new]. *)
Definition recharged (old new : Z) (cfg cfg' : mem_buffer_config) : Prop :=
  budget cfg' new /\ realloc_set cfg' = realloc_set cfg /\ max_heap cfg' = max_heap cfg /\
  (max_heap cfg <> 0 -> heap_used cfg' - new = heap_used cfg - old).

(** Installing the new array completes the resize. *)
Lemma install_moved m p rb arr l new_cap nb m0 m1 m2 :
  ring_at m p rb arr l -> heap m0 = heap m -> g_lwip_pools m0 = g_lwip_pools m ->
  moved p rb l new_cap nb m0 m1 ->
  0 < new_cap <= max_cap rb -> ring_len rb <= new_cap ->
  heap m2 = <[p := C_struct (resized_rb new_cap nb rb)]> (heap m1) ->
  g_lwip_pools m2 = g_lwip_pools m1 -> recharged (cap rb) new_cap (g_cfg m) (g_cfg m2) ->
  (exists arr', ring_at m2 p (resized_rb new_cap nb rb) arr' l) /\
  ring_frame p m rb m2 (resized_rb new_cap nb rb).
Proof.
  intros Hat Hh0 Hp0 (arr'&Hrb1&Hnb1&Hlen&Ht&Hnb0&Hpo&Ho) Hnc Hfit Hh2 Hp2 (Hb&Hr&Hmh&Hu).
  assert (nb <> p) as Hnp by congruence.
  pose proof (ring_at_ne _ _ _ _ _ Hat) as Hne. destruct Hat as [? Hrb Harr Hok Hbu Hpl].
  assert (rest p nb m2 = rest p (buf rb) m) as Hrest.
  { unfold rest in *. by rewrite Hh2, delete_insert_eq, Ho, Hh0. }
  split.
  - exists arr'. split; cbn; try done.
    + by rewrite Hh2, lookup_insert_eq.
    + by rewrite Hh2, lookup_insert_ne.
    + destruct Hok. split; cbn; try done; try lia.
      change (Z.to_nat 0) with 0%nat. rewrite rot_0 by lia. done.
    + eapply (pools_live_rest p (buf rb) nb arr);
        [exact Hpl|done|by rewrite Hh2, lookup_insert_eq|congruence|done].
  - repeat split; cbn; try done. congruence.
Qed.

(** A failed attempt leaves the ring as it was. *)
Lemma resize_failed m p rb arr l m0 m' :
  ring_at m p rb arr l -> heap m0 = heap m -> g_lwip_pools m0 = g_lwip_pools m ->
  kept p rb l m0 m' -> recharged (cap rb) (cap rb) (g_cfg m) (g_cfg m') ->
  exists rb' arr', ring_at m' p rb' arr' l /\ ring_frame p m rb m' rb' /\ cap rb' = cap rb.
Proof.
  intros Hat Hh0 Hp0 (rb'&arr'&Hrb'&Harr'&Hok'&Eb&Ec&Em&Hpo&Ho) (Hb&Hr&Hmh&Hu).
  pose proof (ring_at_ne _ _ _ _ _ Hat) as Hne. destruct Hat as [? Hrb Harr Hok Hbu Hpl].
  assert (rest p (buf rb) m' = rest p (buf rb) m) as Hrest by (unfold rest in *; congruence).
  exists rb', arr'. split; [|split; [|done]].
  - split; rewrite ?Eb, ?Ec; try done.
    eapply (pools_live_rest p (buf rb) (buf rb) arr rb'); [exact Hpl|done|done|congruence|done].
  - repeat split; rewrite ?Ec, ?Eb; try done; congruence.
Qed.

(** The state once [grow] more bytes are charged. *)
Definition charged (grow : Z) (m m0 : mem_state) : Prop :=
  heap m0 = heap m /\ g_lwip_pools m0 = g_lwip_pools m /\
  realloc_set (g_cfg m0) = realloc_set (g_cfg m) /\
  max_heap (g_cfg m0) = max_heap (g_cfg m) /\
  (max_heap (g_cfg m) <> 0 -> heap_used (g_cfg m0) = heap_used (g_cfg m) + grow /\
     heap_used (g_cfg m) + grow <= max_heap (g_cfg m)).

Lemma mwp_charge_grow grow c m (Q : bool -> mem_state -> Prop) :
  budget (g_cfg m) c -> 0 <= grow < 2 ^ 23 ->
  Q false m -> (forall m0, charged grow m m0 -> Q true m0) ->
  mwp (if 0 <? grow then mem_buffer_charge grow else mret true) m Q.
Proof.
  intros [Hmh Hbu] Hg Qf Qt. destruct (Z.ltb_spec 0 grow).
  - apply mwp_charge; [lia| |lia|done| |].
    + destruct (decide (max_heap (g_cfg m) = 0)); [by right|left; lia].
    + intros. apply Qt. repeat split; try done; lia.
    + intros. apply Qt. by repeat split.
  - mwp_go. apply Qt. split_and!; try done; intros HM; specialize (Hbu HM); lia.
Qed.

(** Giving [n] bytes back once the capacity is settled at [new]. *)
Lemma recharged_release m m0 old new grow n :
  budget (g_cfg m) old -> charged grow m m0 -> 0 <= new ->
  old + grow = new + n -> 0 <= n ->
  recharged old new (g_cfg m) (if 0 <? n then released n (g_cfg m0) else g_cfg m0).
Proof.
  intros [Hmh Hbu] (_&_&Hr0&Hm0&Hu0) Hnew Heq Hn. unfold recharged, budget, released.
  destruct (Z.ltb_spec 0 n); [destruct (Z.leb_spec n (heap_used (g_cfg m0)))|]; cbn;
    rewrite ?Hm0, ?Hr0; repeat split; try lia; try done;
    intros HM; specialize (Hu0 HM); specialize (Hbu HM); lia.
Qed.

(** The end of [mem_buffer_resize], after either path. *)
Lemma resize_finish m p rb arr l new_cap m0 grow shrink nb m1 (Q : bool -> mem_state -> Prop) :
  ring_at m p rb arr l -> charged grow m m0 ->
  0 < new_cap <= max_cap rb -> ring_len rb <= new_cap -> 0 <= grow -> 0 <= shrink ->
  cap rb + grow = new_cap + shrink ->
  resize_post p rb l new_cap grow m0 nb m1 ->
  (forall ok m' rb' arr', ring_at m' p rb' arr' l -> ring_frame p m rb m' rb' ->
     cap rb' = (if ok : bool then new_cap else cap rb) -> Q ok m') ->
  mwp (if nb =? 0 then mret false
       else upd_mb p (fun rb => resized_rb new_cap nb rb);;
            whenMM (0 <? shrink) (mem_buffer_release shrink);; mret true) m1 Q.
Proof.
  intros Hat Hch Hnc Hfit Hg Hs Heq Hpost HQ.
  pose proof (at_budget _ _ _ _ _ Hat) as Hbu. pose proof Hch as (Hh0&Hp0&_).
  pose proof (r_head _ _ _ (at_ok _ _ _ _ _ Hat)).
  destruct Hpost as [(->&Hk&Hc1)|(Hnb&Hmv&Hc1)]; cbn.
  - mwp_go.
    destruct (resize_failed m p rb arr l m0 m1) as (rb'&arr'&H1&H2&H3); try done;
      [|by eapply HQ; [exact H1|exact H2|]].
    rewrite Hc1. eapply recharged_release; [done|done|lia|lia|done].
  - ztest. pose proof Hmv as (arr'&Hrb1&_).
    mwp_go. eapply mwp_upd_mb; [exact Hrb1|]. mwp_go. apply mwp_when_release.
    intros m2 Hm2 Hc2. mwp_go.
    assert (heap m2 = <[p:=C_struct (resized_rb new_cap nb rb)]> (heap m1) /\
            g_lwip_pools m2 = g_lwip_pools m1) as [Hh2 Hp2] by (destruct Hm2 as [->| ->]; done).
    destruct (install_moved m p rb arr l new_cap nb m0 m1 m2) as [[arr2 H1] H2]; try done;
      [|by eapply HQ; [exact H1|exact H2|]].
    rewrite Hc2. cbn. rewrite Hc1. eapply recharged_release; [done|done|lia|lia|done].
Qed.

Section Ops.
Context (al : allocator) `{!AllocLaws al}.

Lemma mwp_resize m p rb arr l new_cap (Q : bool -> mem_state -> Prop) :
  ring_at m p rb arr l -> 0 < new_cap < 2 ^ 24 ->
  (forall ok m' rb' arr', ring_at m' p rb' arr' l -> ring_frame p m rb m' rb' ->
     cap rb' = (if ok : bool then new_cap else cap rb) -> Q ok m') ->
  mwp (mem_buffer_resize al p new_cap) m Q.
Proof using AllocLaws0.
  intros Hat Hnc HQ. destruct (Hat) as [Hp0 Hrb Harr Hok Hbu Hpl].
  assert (Q false m) as Qf by (eapply HQ; [exact Hat|apply ring_frame_refl|done]).
  assert (new_cap = cap rb -> Q true m) as Qt
    by (intros; eapply HQ; [exact Hat|apply ring_frame_refl|done]).
  pose proof (r_max _ _ _ Hok) as Hmx. pose proof (r_head _ _ _ Hok) as Hhd.
  unfold mem_buffer_resize. mwp_go.
  destruct (Z.eqb_spec new_cap (cap rb)) as [E|Hne].
  { rewrite orb_true_r. by apply Qt. }
  rewrite orb_false_r. destruct (Z.ltb_spec new_cap (ring_len rb)) as [|Hlen]; [done|].
  cbn. destruct (has_flag _ _); [done|].
  destruct (Z.eqb_spec (max_cap rb) SIZE_MAX) as [E|_]; [unfold SIZE_MAX in E; lia|].
  destruct (Z.ltb_spec (max_cap rb) new_cap); [done|].
  cbn [negb andb]. set (grow := if cap rb <? new_cap then _ else _).
  set (shrink := if new_cap <? cap rb then _ else _).
  assert (0 <= grow < 2 ^ 23 /\ 0 <= shrink /\ cap rb + grow = new_cap + shrink /\
          (new_cap + shrink = cap rb \/ shrink = 0)) as (Hg&Hs&Heq&Hsh)
    by (unfold grow, shrink; destruct (Z.ltb_spec (cap rb) new_cap), (Z.ltb_spec new_cap (cap rb)); lia).
  clearbody grow shrink. apply mwp_bind. eapply mwp_charge_grow; [exact Hbu|done|done|].
  intros m0 Hch. cbn [negb]. mwp_go. pose proof Hch as (Hh0&_).
  pose proof (fun nb m1 Hpost => resize_finish m p rb arr l new_cap m0 grow shrink nb m1 Q
    Hat Hch (conj (proj1 Hnc) H) Hlen (proj1 Hg) Hs Heq Hpost HQ) as Hfin.
  destruct (realloc_set (g_cfg m0) && _ && _) eqn:E; zbool.
  - eapply mwp_resize_realloc; rewrite ?Hh0; try done; lia.
  - eapply mwp_resize_copy; rewrite ?Hh0; try done; lia.
Qed.

(** ** Growing and shrinking *)

Lemma ring_length rb arr l : ring_ok rb arr l -> Z.of_nat (length l) = ring_len rb.
Proof. intros []. subst l. rewrite length_rot; lia. Qed.

Lemma grow_target_spec rb needed :
  0 < needed < 2 ^ 24 -> 0 <= cap rb < 2 ^ 24 -> needed <= grow_target rb needed < 2 ^ 24.
Proof.
  intros Hn Hc. unfold grow_target, align_step.
  pose proof (u24_range (cap rb + step rb)).
  repeat match goal with
  | |- context [u24 ?a] => lazymatch goal with
      | _ : 0 <= u24 a < _ |- _ => fail | _ => pose proof (u24_range a) end
  | |- context [if ?b then _ else _] => destruct b eqn:?
  end; zbool; lia.
Qed.

(** Room for [n] more bytes, when it reports success.  It must fail when the
    limit does not allow them, and it must succeed when they fit below the
    threshold. *)
Lemma mwp_maybe_grow m p rb arr l n (Q : bool -> mem_state -> Prop) :
  ring_at m p rb arr l -> 0 < n < 2 ^ 23 ->
  (forall ok m' rb' arr', ring_at m' p rb' arr' l -> ring_frame p m rb m' rb' ->
     (ok = true -> ring_len rb + n <= cap rb') ->
     (ring_len rb + n <= cap rb ->
      ring_len rb + n < threshold_bytes (cap rb) (grow_threshold_pct rb) -> ok = true) ->
     Q ok m') ->
  mwp (mem_buffer_maybe_grow al p n) m Q.
Proof using AllocLaws0.
  intros Hat Hn HQ. destruct (Hat) as [Hp0 Hrb Harr Hok Hbu Hpl].
  pose proof (r_max _ _ _ Hok). pose proof (r_len _ _ _ Hok). pose proof (r_head _ _ _ Hok).
  unfold mem_buffer_maybe_grow. mwp_go. rewrite (u24_small (ring_len rb + n)) by lia.
  set (needed := ring_len rb + n) in *.
  assert (0 < needed < 2 ^ 24) as Hnd by (unfold needed; lia). clearbody needed.
  eapply mwp_report_usage; [done|exact Hrb|]. intros m1 lv Hs1 Hh1.
  destruct (ring_at_level _ _ _ _ _ _ _ Hat Hs1 Hh1) as [Hat1 Hf1].
  (* a critical report, then the answer [ok] *)
  assert (forall m2 rb2 arr2 (ok : bool), ring_at m2 p rb2 arr2 l -> ring_frame p m rb m2 rb2 ->
      ok = false -> (needed <= cap rb -> threshold_bytes (cap rb) (grow_threshold_pct rb) <= needed) ->
      mwp (mem_buffer_notify_lowmem p needed MEM_PRESSURE_CRITICAL;; mret ok) m2 Q) as Hcrit.
  { intros m2 rb2 arr2 ok Hat2 Hf2 -> Hno. mwp_go. eapply mwp_notify; [done|apply Hat2|].
    intros m3 Hs3 Hh3. destruct (ring_at_level _ _ _ _ _ _ _ Hat2 Hs3 Hh3) as [Hat3 Hf3].
    mwp_go. eapply HQ; [exact Hat3|frames|done|intros; lia]. }
  destruct (has_flag _ _).
  - destruct (Z.ltb_spec (cap rb) needed); unfold whenMM.
    + rewrite (proj2 (Z.leb_gt _ _)) by lia. eapply Hcrit; [exact Hat1|done|done|intros; lia].
    + mwp_go. eapply HQ; [exact Hat1|done| |]; [cbn; lia|intros; by apply Z.leb_le].
  - destruct ((needed <=? cap rb) && (needed <? _)) eqn:Efit; zbool.
    { mwp_go. by eapply HQ; [exact Hat1|done|cbn; lia|]. }
    assert (needed <= cap rb -> threshold_bytes (cap rb) (grow_threshold_pct rb) <= needed) as Hthr.
    { intros. destruct (Z.leb_spec needed (cap rb)); [|lia]. cbn in Efit. zbool. lia. }
    pose proof (grow_target_spec rb needed Hnd ltac:(lia)) as Ht.
    set (target := grow_target rb needed) in *. clearbody target.
    destruct (negb _ && (_ <? target)) eqn:Eover; cbn [andb].
    + destruct (Z.ltb_spec (max_cap rb) needed); [by eapply Hcrit|].
      mwp_go. eapply mwp_resize; [exact Hat1|lia|].
      intros [] m2 rb2 arr2 Hat2 Hf2 Hc2; cbn in Hc2.
      * mwp_go. eapply HQ; [exact Hat2|frames|lia|lia].
      * eapply Hcrit; [exact Hat2|frames|done|done].
    + mwp_go. eapply mwp_resize; [exact Hat1|lia|].
      intros [] m2 rb2 arr2 Hat2 Hf2 Hc2; cbn in Hc2.
      * mwp_go. eapply HQ; [exact Hat2|frames|lia|lia].
      * eapply Hcrit; [exact Hat2|frames|done|done].
Qed.

(** The hysteresis counters are not part of what the ring holds. *)
Lemma ring_at_counters m p rb arr l f :
  ring_at m p rb arr l ->
  (forall rb, buf (f rb) = buf rb /\ cap (f rb) = cap rb /\ max_cap (f rb) = max_cap rb /\
     ring_len (f rb) = ring_len rb /\ ring_head (f rb) = ring_head rb /\
     step (f rb) = step rb /\ flags (f rb) = flags rb /\
     pool_bitmap (f rb) = pool_bitmap rb) ->
  mwp (upd_mb p f) m (fun _ m' => exists rb', ring_at m' p rb' arr l /\
    ring_frame p m rb m' rb' /\ ring_len rb' = ring_len rb /\ cap rb' = cap rb).
Proof.
  intros Hat Hf. destruct (Hf rb) as (Eb&Ec&Em&El&Eh&Es&Ef&Ebm).
  eapply mwp_upd_mb; [apply Hat|].
  destruct (ring_at_upd m p rb arr l (f rb) l Hat) as [H1 H2]; try done; [|by exists (f rb)].
  destruct (at_ok _ _ _ _ _ Hat). by split; rewrite ?Eb, ?Ec, ?Em, ?El, ?Eh, ?Es, ?Ef, ?Ebm.
Qed.

Lemma mwp_maybe_shrink m p rb arr l wrapped (Q : unit -> mem_state -> Prop) :
  ring_at m p rb arr l ->
  (forall m' rb' arr', ring_at m' p rb' arr' l -> ring_frame p m rb m' rb' -> Q tt m') ->
  mwp (mem_buffer_maybe_shrink al p wrapped) m Q.
Proof using AllocLaws0.
  intros Hat HQ. destruct (Hat) as [Hp0 Hrb Harr Hok Hbu Hpl].
  pose proof (r_max _ _ _ Hok). pose proof (r_step _ _ _ Hok).
  assert (Q tt m) as Qid by (eapply HQ; [exact Hat|apply ring_frame_refl]).
  unfold mem_buffer_maybe_shrink. mwp_go.
  destruct (has_flag _ _); [done|].
  destruct ((_ =? 0) || (_ <=? _)) eqn:Est; [done|]. zbool.
  destruct (negb _ || _); [done|]. destruct (_ <? ring_len rb).
  { eapply mwp_mono; [by eapply ring_at_counters|]. cbn beta. intros [] m' (rb'&?&?&_). by eapply HQ. }
  destruct (_ =? 0); [done|].
  mwp_go. eapply mwp_mono; [by eapply ring_at_counters|]. cbn beta.
  intros [] m1 (rb1&Hat1&Hf1&El1&Ec1).
  destruct (_ <? shrink_hold_next rb); [mwp_go; by eapply HQ|].
  mwp_go. eapply mwp_resize; [exact Hat1| |].
  { pose proof (r_len _ _ _ Hok). destruct (Z.ltb_spec (cap rb - step rb) (ring_len rb)); lia. }
  intros ok m2 rb2 arr2 Hat2 Hf2 _.
  eapply mwp_mono; [eapply ring_at_counters; [exact Hat2|]|].
  { intros rb0. unfold shrink_next. cbn. by destruct (negb _). }
  cbn beta. intros [] m3 (rb3&Hat3&Hf3&_).
  eapply HQ; [exact Hat3|frames].
Qed.

Lemma mwp_maybe_clear_ring m p rb arr l (Q : unit -> mem_state -> Prop) :
  ring_at m p rb arr l ->
  (forall m' rb', ring_at m' p rb' arr l -> ring_frame p m rb m' rb' -> Q tt m') ->
  mwp (mem_pressure_maybe_clear p) m Q.
Proof.
  intros Hat HQ. eapply mwp_maybe_clear; [apply Hat|apply Hat|apply Hat|].
  intros m' lv Hs Hh. destruct (ring_at_level _ _ _ _ _ _ _ Hat Hs Hh). by eapply HQ.
Qed.

(** ** The operations *)

Lemma mwp_push m p rb arr l d (Q : bool -> mem_state -> Prop) :
  ring_at m p rb arr l -> 0 < Z.of_nat (length d) < 2 ^ 23 ->
  (forall ok m' rb' arr', ring_at m' p rb' arr' (if ok : bool then l ++ d else l) ->
     ring_frame p m rb m' rb' ->
     (ring_len rb + Z.of_nat (length d) <= cap rb ->
      ring_len rb + Z.of_nat (length d) < threshold_bytes (cap rb) (grow_threshold_pct rb) ->
      ok = true) -> Q ok m') ->
  mwp (mem_buffer_push al p (Some d)) m Q.
Proof using AllocLaws0.
  intros Hat Hd HQ. pose proof (at_ptr _ _ _ _ _ Hat). pose proof (at_ok _ _ _ _ _ Hat) as Hok.
  unfold mem_buffer_push. ztest. cbn [orb]. mwp_go. eapply mwp_get_mb; [apply Hat|].
  rewrite (r_kind _ _ _ Hok). mwp_go. eapply mwp_maybe_grow; [exact Hat|done|].
  intros ok m1 rb1 arr1 Hat1 Hf1 Hroom Hmust. destruct ok; cbn [negb].
  2: { mwp_go. eapply HQ; [exact Hat1|done|]. intros. by apply Hmust. }
  specialize (Hroom eq_refl). destruct (at_ok _ _ _ _ _ Hat1) as [Ha Hhd Hln Hmx Hst Hk Hb Hbm Hl].
  pose proof (ring_length _ _ _ (at_ok _ _ _ _ _ Hat1)) as Hll1.
  pose proof (ring_length _ _ _ Hok) as Hll.
  mwp_go. eapply mwp_get_mb; [apply Hat1|]. mwp_go.
  rewrite (u24_small (ring_head rb1 + ring_len rb1)) by lia.
  apply mwp_cmod; [lia|].
  pose proof (Z.mod_pos_bound (ring_head rb1 + ring_len rb1) (cap rb1) ltac:(lia)) as Htl.
  rewrite (u24_small (cap rb1 - _)) by lia. cbn zeta.
  fold (before_end (cap rb1) ((ring_head rb1 + ring_len rb1) mod cap rb1) (Z.of_nat (length d))).
  pose proof (write_ring arr1 (ring_head rb1) (ring_len rb1) ltac:(lia) ltac:(lia) d) as HW.
  cbn zeta in HW. rewrite Ha in HW. specialize (HW ltac:(lia)).
  pose proof (before_end_spec (cap rb1) ((ring_head rb1 + ring_len rb1) mod cap rb1)
    (Z.of_nat (length d)) Htl ltac:(lia)) as Hf.
  set (tail := _ mod _) in *. set (first := before_end _ _ _) in *. clearbody tail first.
  mwp_go. eapply mwp_write; [apply Hat1|lia|rewrite length_take; lia|]. mwp_go.
  eapply mwp_write; [cbn; by rewrite lookup_insert_eq|lia| |].
  { rewrite length_splice by (rewrite ?length_take; lia). rewrite length_drop. lia. }
  cbn [heap set_heap]. rewrite insert_insert_eq. set (arr2 := splice _ _ _) in *.
  assert (length arr2 = length arr1) as Hl2.
  { unfold arr2. rewrite !length_splice; rewrite ?length_splice, ?length_drop, ?length_take;
      rewrite ?length_take; lia. }
  pose proof (ring_at_ne _ _ _ _ _ Hat1) as Hne.
  set (rb2 := set_ring_len (ring_len rb1 + Z.of_nat (length d)) rb1).
  assert (ring_ok rb2 arr2 (l ++ d)) as Hok2.
  { unfold rb2. split; cbn; try done; [lia|lia|]. rewrite HW. by rewrite Hl. }
  assert (ring_ok rb1 arr2 (rot arr2 (Z.to_nat (ring_head rb1)) (Z.to_nat (ring_len rb1)))) as Hok1
    by (split; try done; lia).
  destruct (ring_at_arr _ _ _ _ _ arr2 _ Hat1 Hok1) as [HatA HfA].
  mwp_go. eapply mwp_upd_mb; [exact (at_rb _ _ _ _ _ HatA)|]. mwp_go.
  rewrite (u24_small (ring_len rb1 + _)) by lia.
  destruct (ring_at_upd _ _ _ _ _ rb2 _ HatA Hok2) as [HatB HfB]; try done.
  eapply (HQ true); [exact HatB| |done].
  frames.
Qed.

Lemma mwp_peek m p rb arr l off k (Q : option bytes -> mem_state -> Prop) :
  ring_at m p rb arr l -> 0 <= off -> 0 < k -> off + k < 2 ^ 24 ->
  Q (if off + k <=? Z.of_nat (length l)
     then Some (take (Z.to_nat k) (drop (Z.to_nat off) l)) else None) m ->
  mwp (mem_buffer_peek p off true k) m Q.
Proof.
  intros Hat Ho Hk Hok HQ. pose proof (at_ptr _ _ _ _ _ Hat).
  destruct (at_ok _ _ _ _ _ Hat) as [Ha Hhd Hln Hmx Hst Hkd Hb Hbm Hl].
  rewrite (ring_length _ _ _ (at_ok _ _ _ _ _ Hat)) in HQ.
  unfold mem_buffer_peek. ztest. cbn [orb negb]. mwp_go. eapply mwp_get_mb; [apply Hat|].
  rewrite (u24_small (off + k)) by lia.
  destruct (Z.ltb_spec (ring_len rb) (off + k)).
  { rewrite (proj2 (Z.leb_gt _ _)) in HQ by lia. done. }
  rewrite (proj2 (Z.leb_le _ _)) in HQ by lia.
  mwp_go. rewrite (u24_small (ring_head rb + off)) by lia. apply mwp_cmod; [lia|].
  pose proof (Z.mod_pos_bound (ring_head rb + off) (cap rb) ltac:(lia)) as Hps.
  unfold read_wrapped. rewrite (u24_small (cap rb - _)) by lia. cbn zeta.
  fold (before_end (cap rb) ((ring_head rb + off) mod cap rb) k).
  pose proof (before_end_spec _ _ k Hps ltac:(lia)) as Hf.
  pose proof (read_ring arr (ring_head rb) (ring_len rb) ltac:(lia) ltac:(lia) off k Ho Hk ltac:(lia)) as HR.
  cbn zeta in HR. rewrite Ha, Hl in HR. rewrite <- HR in HQ.
  set (pos := _ mod _) in *. set (first := before_end _ _ _) in *. clearbody pos first.
  rewrite (u24_small (k - first)) by lia.
  mwp_go. eapply mwp_read; [apply Hat|lia|lia|lia|].
  mwp_go. eapply mwp_read; [apply Hat|lia|lia|lia|]. by mwp_go.
Qed.

(** The bytes of a pop are overwritten in secure mode. *)
Lemma pop_clear m p rb arr l k first :
  ring_at m p rb arr l -> 0 < k <= ring_len rb ->
  first = before_end (cap rb) (ring_head rb) k ->
  mwp (whenMM (has_flag (flags rb) BUFFER_SECURE_MODE)
        (memset (buf rb) (ring_head rb) 0 first;; memset (buf rb) 0 0 (k - first))) m
    (fun _ m' => exists arr' l', ring_at m' p rb arr' l' /\ ring_frame p m rb m' rb /\
       rot arr' (Z.to_nat ((ring_head rb + k) mod cap rb)) (Z.to_nat (ring_len rb - k)) =
       drop (Z.to_nat k) l).
Proof.
  intros Hat Hk ->. destruct (at_ok _ _ _ _ _ Hat) as [Ha Hhd Hln Hmx Hst Hkd Hb Hbm Hl].
  pose proof (before_end_spec (cap rb) (ring_head rb) k ltac:(lia) ltac:(lia)) as Hf.
  apply mwp_when; intros _.
  - pose proof (clear_ring arr (ring_head rb) (ring_len rb) ltac:(lia) ltac:(lia) k) as HC.
    cbn zeta in HC. rewrite Ha, Hl in HC.
    set (first := before_end _ _ _) in *. clearbody first.
    unfold memset. mwp_go. eapply mwp_write; [apply Hat|lia|rewrite length_replicate; lia|].
    eapply mwp_write; [cbn; by rewrite lookup_insert_eq|lia| |].
    { rewrite length_splice; rewrite ?length_replicate; lia. }
    cbn [heap set_heap]. rewrite insert_insert_eq. set (arr2 := splice _ _ _).
    destruct (ring_at_arr m p rb arr l arr2
      (rot arr2 (Z.to_nat (ring_head rb)) (Z.to_nat (ring_len rb))) Hat) as [H1 H2].
    { split; try done. unfold arr2.
      rewrite !length_splice; rewrite ?length_splice; rewrite ?length_replicate; lia. }
    exists arr2. eexists; split; [exact H1|]. split; [exact H2|].
    apply HC; [lia|rewrite length_replicate; lia|rewrite length_replicate; lia].
  - exists arr, l. split; [done|]. split; [apply ring_frame_refl|].
    pose proof (advance_ring arr (ring_head rb) (ring_len rb) ltac:(lia) ltac:(lia) k Hk) as HA.
    by rewrite Ha, Hl in HA.
Qed.

Lemma mwp_pop m p rb arr l k (Q : bytes -> mem_state -> Prop) :
  ring_at m p rb arr l -> 0 < k < 2 ^ 24 ->
  (forall m' rb' arr', ring_frame p m rb m' rb' ->
     ring_at m' p rb' arr' (if k <=? Z.of_nat (length l) then drop (Z.to_nat k) l else l) ->
     Q (if k <=? Z.of_nat (length l) then take (Z.to_nat k) l else []) m') ->
  mwp (mem_buffer_pop al p true k) m Q.
Proof using AllocLaws0.
  intros Hat Hk HQ. pose proof (at_ptr _ _ _ _ _ Hat).
  destruct (at_ok _ _ _ _ _ Hat) as [Ha Hhd Hln Hmx Hst Hkd Hb Hbm Hl].
  rewrite (ring_length _ _ _ (at_ok _ _ _ _ _ Hat)) in HQ.
  unfold mem_buffer_pop. ztest. cbn [orb negb]. mwp_go. eapply mwp_get_mb; [apply Hat|].
  destruct (Z.ltb_spec (ring_len rb) k).
  { rewrite (proj2 (Z.leb_gt _ _)) in HQ by lia. mwp_go. eapply HQ; [apply ring_frame_refl|exact Hat]. }
  rewrite (proj2 (Z.leb_le _ _)) in HQ by lia.
  rewrite Hkd. rewrite (u24_small (cap rb - ring_head rb)) by lia. cbn zeta.
  fold (before_end (cap rb) (ring_head rb) k).
  pose proof (before_end_spec (cap rb) (ring_head rb) k ltac:(lia) ltac:(lia)) as Hf.
  pose proof (read_ring arr (ring_head rb) (ring_len rb) ltac:(lia) ltac:(lia) 0 k
    ltac:(lia) ltac:(lia) ltac:(lia)) as HR.
  cbn zeta in HR. rewrite Z.add_0_r, Ha, (Z.mod_small (ring_head rb)), Hl in HR by lia.
  change (Z.to_nat 0) with 0%nat in HR. rewrite drop_0 in HR. rewrite <- HR in HQ.
  destruct (before_end (cap rb) (ring_head rb) k) as [|first|] eqn:Ef; [lia| |lia].
  set (fz := Zpos first) in *. rewrite (u24_small (k - fz)) by lia.
  mwp_go. eapply mwp_read; [apply Hat|lia|lia|lia|].
  mwp_go. eapply mwp_read; [apply Hat|lia|lia|lia|]. mwp_go.
  eapply mwp_mono; [eapply (pop_clear m p rb arr l k fz Hat); [lia|by rewrite Ef]|].
  cbn beta. intros _ m1 (arr1&l1&Hat1&Hf1&Hrot1).
  rewrite (u24_small (ring_head rb + k)) by lia.
  pose proof (Z.mod_pos_bound (ring_head rb + k) (cap rb) ltac:(lia)) as Hps.
  mwp_go. apply mwp_cmod; [lia|]. mwp_go.
  eapply mwp_upd_mb; [apply Hat1|]. cbn beta.
  set (rb2 := set_ring_len _ _).
  destruct (ring_at_upd m1 p rb arr1 l1 rb2 (drop (Z.to_nat k) l) Hat1) as [Hat2 Hf2]; try done.
  { destruct (at_ok _ _ _ _ _ Hat1). unfold rb2. split; cbn; try done; lia. }
  mwp_go. eapply mwp_maybe_shrink; [exact Hat2|]. intros m3 rb3 arr3 Hat3 Hf3.
  mwp_go. eapply mwp_maybe_clear_ring; [exact Hat3|]. intros m4 rb4 Hat4 Hf4. mwp_go.
  eapply HQ; [|exact Hat4]. frames.
Qed.
End Ops.
