(* ===== verification/RingCorrect.v ===== *)
(** * Ring buffers: creation, queue refinement, destruction

    A ring from [mem_buffer_create] behaves as a queue of bytes under every
    sequence of operations, and [mem_buffer_destroy] gives back every block and
    every byte of the budget. *)

From S2P Require Import Prelude MemState MemPressure MemBuffer MemLogic RingList RingQueue.

Section Life.
Context (al : allocator) `{!AllocLaws al}.

(** ** Creation *)

(** A state in which a ring can be created. *)
Record mem_ready (m : mem_state) : Prop := {
  rd_ready : g_cfg_ready m = true;
  rd_malloc : malloc_set (g_cfg m) = true;
  rd_free : free_set (g_cfg m) = true;
  rd_budget : budget (g_cfg m) 0;
  rd_step : 0 <= cfg_step (g_cfg m) < 2 ^ 23;
  rd_pools : pools_live m
}.

(** The bytes a ring of this capacity costs. *)
Definition ring_cost (c : Z) : Z := sizeof_mem_buffer al + c.

(** The ring is the only new thing in the heap. *)
Definition ring_added (p : Z) (m m' : mem_state) (rb : mem_buffer) : Prop :=
  rest p (buf rb) m' = heap m /\ g_lwip_pools m' = g_lwip_pools m /\
  max_heap (g_cfg m') = max_heap (g_cfg m) /\
  (max_heap (g_cfg m) <> 0 ->
     heap_used (g_cfg m') - ring_cost (cap rb) = heap_used (g_cfg m)).

(** The structure could not be had, or nothing changed but it. *)
Lemma mwp_malloc_struct rb m (Q : Z -> mem_state -> Prop) :
  (forall m', same_mem m m' -> heap m' = heap m -> Q 0 m') ->
  (forall p m', 0 < p -> heap m !! p = None -> same_mem m m' ->
     heap m' = <[p := C_struct rb]> (heap m) -> Q p m') ->
  mwp (malloc_struct al rb) m Q.
Proof using AllocLaws0.
  intros Q0 Q1. unfold mwp, malloc_struct.
  set (p := al_malloc _ _ _ _). destruct (Z.eqb_spec p 0) as [E|E]; [by apply Q0|].
  destruct (malloc_apart al _ _ _ (proj1 (sizeof_pos al)) E) as (?&?&HN&_).
  eapply (Q1 p); [done|by apply live_blocks_None in HN|done|done].
Qed.

Lemma mwp_free p c m (Q : unit -> mem_state -> Prop) :
  heap m !! p = Some c ->
  (forall m', same_mem m m' -> heap m' = delete p (heap m) -> Q tt m') ->
  mwp (free_fn p) m Q.
Proof. intros Hp HQ. unfold mwp, free_fn. rewrite Hp. by apply HQ. Qed.

(** The heap and the budget are as they were. *)
Definition untouched (m m' : mem_state) : Prop :=
  heap m' = heap m /\ g_lwip_pools m' = g_lwip_pools m /\
  max_heap (g_cfg m') = max_heap (g_cfg m) /\
  (max_heap (g_cfg m) <> 0 -> heap_used (g_cfg m') = heap_used (g_cfg m)).

Lemma mwp_create m ic limit fl cb (Q : Z -> mem_state -> Prop) :
  mem_ready m -> 0 < ic < 2 ^ 22 -> 0 <= limit < 2 ^ 23 ->
  has_flag fl BUFFER_LOCK_SIZE = false -> has_flag fl BUFFER_MALLOC_TYPE = false ->
  (forall m', untouched m m' -> Q 0 m') ->
  (forall p m' rb arr, ring_at m' p rb arr [] -> ring_added p m m' rb ->
     cap rb = ic -> Q p m') ->
  mwp (mem_buffer_create al ic limit 0 fl cb) m Q.
Proof using AllocLaws0.
  intros [Hr Hma Hfr [Hmh Hbu] Hst Hpl] Hic Hlim Hlock Hpool Q0 Q1.
  pose proof (sizeof_pos al) as Hsz.
  unfold mem_buffer_create. mwp_go. rewrite Hr, Hma, Hfr. ztest. cbn [negb orb].
  rewrite (u24_small (sizeof_mem_buffer al + ic)) by lia. fold (ring_cost ic).
  set (cost := ring_cost ic). assert (0 < cost < 2 ^ 23) as Hcost by (unfold cost, ring_cost; lia).
  mwp_go. apply (mwp_mono _ _ (fun paid m0 => (paid = false /\ m0 = m) \/ (paid = true /\ charged cost m m0))).
  { pose proof (mwp_charge_grow cost 0 m (fun paid m0 => (paid = false /\ m0 = m) \/ (paid = true /\ charged cost m m0))) as HC.
    rewrite (proj2 (Z.ltb_lt 0 cost)) in HC by lia. apply HC; [done|lia|by left|by right; eauto]. }
  intros paid m0 [[-> ->]|[-> Hch]]; cbn [negb]; [mwp_go; by apply Q0|].
  destruct Hch as (Hh0&Hp0&_&Hm0&Hu0).
  (* giving the charge back *)
  assert (forall m1, g_cfg m1 = g_cfg m0 -> heap m1 = heap m -> g_lwip_pools m1 = g_lwip_pools m ->
    mwp (mem_buffer_release cost;; mret 0) m1 Q) as Hback.
  { intros m1 Hc1 Hh1 Hp1. mwp_go. apply Q0. unfold untouched. cbn. rewrite Hc1, Hh1, Hp1.
    destruct (Z.leb_spec cost (heap_used (g_cfg m0))); cbn; rewrite ?Hm0;
      (split_and!; try done; intros HM; specialize (Hu0 HM); specialize (Hbu HM); lia). }
  mwp_go. apply mwp_malloc_struct.
  { intros m1 (Hc1&_&_&Hp1&_) Hh1. cbn. apply Hback; congruence. }
  intros p m1 Hp Hpn (Hc1&_&_&Hp1&_) Hh1. ztest.
  mwp_go. eapply (mwp_malloc al); [lia| |].
  { intros m2 (Hc2&_&_&Hp2&_) Hh2 _. cbn. mwp_go.
    eapply mwp_free; [by rewrite Hh2, Hh1, lookup_insert_eq|].
    intros m3 (Hc3&_&_&Hp3&_) Hh3. apply Hback; [congruence| |congruence].
    rewrite Hh3, Hh2, Hh1, delete_insert_id; [done|done]. }
  intros b fresh m2 Hb _ Hbn Hlf (Hc2&_&_&Hp2&_) Hh2. ztest.
  assert (b <> p) as Hbp by (intros ->; rewrite Hh1, lookup_insert_eq in Hbn; done).
  mwp_go. eapply mwp_upd_mb; [by rewrite Hh2, lookup_insert_ne, Hh1, lookup_insert_eq|].
  set (rb := create_fields _ _ _ _ _ _ _). set (m3 := set_heap _ _). mwp_go.
  assert (heap m3 !! p = Some (C_struct rb)) as Hrb by (unfold m3; cbn; by rewrite lookup_insert_eq).
  assert (flags rb = fl /\ cap rb = ic /\ buf rb = b) as (Efl&Ecap&Ebuf).
  { unfold rb, create_fields. cbn. rewrite Hlock. done. }
  unfold create_lock. mwp_go. rewrite Efl, Hlock. cbn [andb]. mwp_go. cbn [negb].
  unfold create_pool. mwp_go. rewrite Efl, Hpool. mwp_go.
  rewrite Hh0 in Hh1, Hpn. rewrite Hh1 in Hh2, Hbn. rewrite lookup_insert_ne in Hbn by done.
  assert (ring_ok rb fresh []) as Hok.
  { unfold rb, create_fields. cbn. rewrite Hlock. cbn [andb]. split; cbn; try done; try lia.
    unfold SIZE_MAX. ztest. cbn. destruct (Z.ltb_spec limit ic); lia. }
  assert (g_cfg m3 = g_cfg m0 /\ g_lwip_pools m3 = g_lwip_pools m) as [Hc3 Hp3]
    by (unfold m3; cbn; split; congruence).
  assert (heap m3 = <[p := C_struct rb]> (<[b := C_bytes fresh]> (<[p := C_struct mb_blank]> (heap m))))
    as Hh3 by (unfold m3; cbn; by rewrite Hh2).
  clearbody rb m3.
  eapply (Q1 p m3 rb fresh); [split|split_and!|done]; rewrite ?Hc3, ?Ebuf, ?Ecap, ?Hm0; try done; try lia.
  - by rewrite Hh3, lookup_insert_ne, lookup_insert_eq.
  - unfold budget. rewrite Hm0. split; [done|]. intros HM.
    specialize (Hu0 HM). specialize (Hbu HM). unfold cost, ring_cost in *. lia.
  - eapply pools_live_mono; [exact Hpl|done|].
    intros q rb' Hq. exists rb'. rewrite Hh3. by rewrite !lookup_insert_ne by congruence.
  - rest_eq; rewrite ?Hh3; simplify_map_eq; congruence.
Qed.

(** ** Destruction *)

Lemma mwp_destroy m p rb arr l (Q : unit -> mem_state -> Prop) :
  ring_at m p rb arr l -> budget (g_cfg m) (ring_cost (cap rb)) ->
  (forall m', heap m' = rest p (buf rb) m -> g_lwip_pools m' = g_lwip_pools m ->
     max_heap (g_cfg m') = max_heap (g_cfg m) ->
     (max_heap (g_cfg m) <> 0 ->
        heap_used (g_cfg m') = heap_used (g_cfg m) - ring_cost (cap rb)) -> Q tt m') ->
  mwp (mem_buffer_destroy al p) m Q.
Proof using AllocLaws0.
  intros Hat [Hmh Hbu] HQ. pose proof (ring_at_ne _ _ _ _ _ Hat) as Hne.
  destruct Hat as [Hp0 Hrb Harr Hok _ _]. pose proof (sizeof_pos al) as Hsz.
  pose proof (r_arr _ _ _ Hok). pose proof (r_head _ _ _ Hok).
  unfold mem_buffer_destroy, ring_cost in *. ztest. mwp_go. rewrite (r_bitmap _ _ _ Hok).
  rewrite (proj2 (Z.eqb_neq _ _) (r_buf _ _ _ Hok)). cbn [negb whenMM]. mwp_go.
  apply (mwp_mono _ _ (fun _ m1 => same_mem m m1 /\ exists arr',
    heap m1 = <[buf rb := C_bytes arr']> (heap m))).
  { apply mwp_when; intros _.
    - eapply mwp_write; [exact Harr|lia|rewrite length_replicate; lia|]. split; [done|by eexists].
    - split; [done|]. exists arr. by rewrite insert_id. }
  intros _ m1 [(Hc1&_&_&Hp1&_) [arr' Hh1]]. mwp_go.
  eapply mwp_free; [by rewrite Hh1, lookup_insert_eq|]. intros m2 (Hc2&_&_&Hp2&_) Hh2. mwp_go.
  assert (heap m2 !! p = Some (C_struct rb)) as Hrb2
    by by rewrite Hh2, Hh1, lookup_delete_ne, lookup_insert_ne.
  eapply mwp_upd_mb; [exact Hrb2|]. cbn [negb whenMM]. repeat (mwp_go; cbn [Z.eqb negb whenMM]).
  eapply mwp_free; [cbn; by rewrite lookup_insert_eq|]. intros m3 (Hc3&_&_&Hp3&_) Hh3.
  mwp_go. cbn in *. apply HQ; cbn.
  - rewrite Hh3, delete_insert_eq, Hh2, Hh1, delete_insert_eq. apply delete_delete.
  - congruence.
  - rewrite Hc3, Hc2, Hc1. cbn. by repeat destruct (_ <=? _).
  - intros HM. specialize (Hbu HM). rewrite Hc3, Hc2, Hc1.
    destruct (Z.leb_spec (cap rb) (heap_used (g_cfg m))); cbn; [|lia].
    destruct (Z.leb_spec (sizeof_mem_buffer al) (heap_used (g_cfg m) - cap rb)); cbn; lia.
Qed.
End Life.

(** ** The queue *)

Inductive ring_op :=
| Push (d : bytes)
| Pop (k : Z)
| Peek (off k : Z)
| Reserve (k : Z).

Inductive ring_res := R_bool (b : bool) | R_bytes (l : bytes) | R_peek (o : option bytes).

(** What a queue of bytes answers; a push is all or nothing. *)
Inductive queue_step : bytes -> ring_op -> ring_res -> bytes -> Prop :=
| q_push l d : queue_step l (Push d) (R_bool true) (l ++ d)
| q_push_refused l d : queue_step l (Push d) (R_bool false) l
| q_pop l k : k <= Z.of_nat (length l) ->
    queue_step l (Pop k) (R_bytes (take (Z.to_nat k) l)) (drop (Z.to_nat k) l)
| q_pop_short l k : Z.of_nat (length l) < k -> queue_step l (Pop k) (R_bytes []) l
| q_peek l off k : off + k <= Z.of_nat (length l) ->
    queue_step l (Peek off k) (R_peek (Some (take (Z.to_nat k) (drop (Z.to_nat off) l)))) l
| q_peek_short l off k : Z.of_nat (length l) < off + k ->
    queue_step l (Peek off k) (R_peek None) l
| q_reserve l k b : queue_step l (Reserve k) (R_bool b) l.

Inductive queue_run : bytes -> list ring_op -> list ring_res -> bytes -> Prop :=
| qr_nil l : queue_run l [] [] l
| qr_cons l op r l1 ops rs l2 :
    queue_step l op r l1 -> queue_run l1 ops rs l2 -> queue_run l (op :: ops) (r :: rs) l2.

(** Arguments of a size that fits the address space. *)
Definition op_ok (op : ring_op) : Prop :=
  match op with
  | Push d => 0 < Z.of_nat (length d) < 2 ^ 23
  | Pop k => 0 < k < 2 ^ 24
  | Peek off k => 0 <= off /\ 0 < k /\ off + k < 2 ^ 24
  | Reserve k => 0 < k < 2 ^ 23
  end.

(** The calls of the memory manager. *)
Definition run_op (al : allocator) (p : Z) (op : ring_op) : MM ring_res :=
  match op with
  | Push d => b ← mem_buffer_push al p (Some d); mret (R_bool b)
  | Pop k => l ← mem_buffer_pop al p true k; mret (R_bytes l)
  | Peek off k => o ← mem_buffer_peek p off true k; mret (R_peek o)
  | Reserve k => b ← mem_buffer_reserve al p k; mret (R_bool b)
  end.

Fixpoint run_ops (al : allocator) (p : Z) (ops : list ring_op) : MM (list ring_res) :=
  match ops with
  | [] => mret []
  | op :: ops' => r ← run_op al p op; rs ← run_ops al p ops'; mret (r :: rs)
  end.

Section Refine.
Context (al : allocator) `{!AllocLaws al}.

Lemma mwp_reserve m p rb arr l k (Q : bool -> mem_state -> Prop) :
  ring_at m p rb arr l -> 0 < k < 2 ^ 23 ->
  (forall ok m' rb' arr', ring_at m' p rb' arr' l -> ring_frame p m rb m' rb' ->
     (ok = true -> ring_len rb + k <= cap rb') -> Q ok m') ->
  mwp (mem_buffer_reserve al p k) m Q.
Proof using AllocLaws0.
  intros Hat Hk HQ. pose proof (at_ptr _ _ _ _ _ Hat).
  unfold mem_buffer_reserve. ztest. cbn [orb]. mwp_go. eapply mwp_get_mb; [apply Hat|].
  rewrite (r_kind _ _ _ (at_ok _ _ _ _ _ Hat)). eapply (mwp_maybe_grow al); [exact Hat|done|].
  intros. by eapply HQ.
Qed.

Lemma mwp_run_op m p rb arr l op (Q : ring_res -> mem_state -> Prop) :
  ring_at m p rb arr l -> op_ok op ->
  (forall r m' rb' arr' l', queue_step l op r l' -> ring_at m' p rb' arr' l' ->
     ring_frame p m rb m' rb' -> Q r m') ->
  mwp (run_op al p op) m Q.
Proof using AllocLaws0.
  intros Hat Hop HQ. destruct op as [d|k|off k|k]; cbn in *; mwp_go.
  - eapply (mwp_push al); [exact Hat|done|]. intros ok m' rb' arr' Hat' Hf' _. mwp_go.
    eapply HQ; [|exact Hat'|exact Hf']. destruct ok; constructor.
  - eapply (mwp_pop al); [exact Hat|done|]. intros m' rb' arr' Hf' Hat'. mwp_go.
    eapply HQ; [|exact Hat'|exact Hf'].
    destruct (Z.leb_spec k (Z.of_nat (length l))); by constructor.
  - eapply mwp_peek; [exact Hat|lia|lia|lia|]. mwp_go.
    eapply HQ; [|exact Hat|apply ring_frame_refl].
    destruct (Z.leb_spec (off + k) (Z.of_nat (length l))); by constructor.
  - eapply mwp_reserve; [exact Hat|done|]. intros ok m' rb' arr' Hat' Hf' _. mwp_go.
    eapply HQ; [constructor|exact Hat'|exact Hf'].
Qed.

Lemma mwp_run_ops ops m p rb arr l (Q : list ring_res -> mem_state -> Prop) :
  ring_at m p rb arr l -> Forall op_ok ops ->
  (forall rs m' rb' arr' l', queue_run l ops rs l' -> ring_at m' p rb' arr' l' ->
     ring_frame p m rb m' rb' -> Q rs m') ->
  mwp (run_ops al p ops) m Q.
Proof using AllocLaws0.
  intros Hat HF. revert m rb arr l Q Hat. induction HF as [|op ops Hop HF IH]; intros m rb arr l Q Hat HQ.
  { mwp_go. eapply HQ; [constructor|exact Hat|apply ring_frame_refl]. }
  cbn. mwp_go. eapply mwp_run_op; [exact Hat|done|]. intros r m1 rb1 arr1 l1 Hs Hat1 Hf1.
  mwp_go. eapply IH; [exact Hat1|]. intros rs m2 rb2 arr2 l2 Hr Hat2 Hf2. mwp_go.
  eapply HQ; [by econstructor|exact Hat2|frames].
Qed.

(** C6. Whatever the allocator answers, a ring buffer is a queue of bytes: each
    sequence of push, pop, peek and reserve calls runs to its end without an
    access outside a live block, answers as a queue does (a push appends all of
    its bytes or none, a pop takes from the front), and leaves every other
    block of the heap as it was, none added and none lost. *)
Theorem ring_refines_queue m p rb arr l ops :
  ring_at m p rb arr l -> Forall op_ok ops ->
  exists rs m' rb' arr' l',
    run_ops al p ops m = Ok rs m' /\ queue_run l ops rs l' /\
    ring_at m' p rb' arr' l' /\ rest p (buf rb') m' = rest p (buf rb) m.
Proof using AllocLaws0.
  intros Hat HF.
  destruct (mwp_run (run_ops al p ops) m (fun rs m' => exists rb' arr' l',
    queue_run l ops rs l' /\ ring_at m' p rb' arr' l' /\ rest p (buf rb') m' = rest p (buf rb) m))
    as (rs&m'&Hrun&rb'&arr'&l'&?&?&?); [|by exists rs, m', rb', arr', l'].
  eapply mwp_run_ops; [exact Hat|exact HF|]. intros rs m' rb' arr' l' ? ? (?&_). by exists rb', arr', l'.
Qed.

(** Create a ring, use it, destroy it; [None] when it cannot be created. *)
Definition ring_session (ic limit fl : Z) (cb : option callback) (ops : list ring_op)
    : MM (option (list ring_res)) :=
  p ← mem_buffer_create al ic limit 0 fl cb;
  if p =? 0 then mret None
  else
    rs ← run_ops al p ops;
    mem_buffer_destroy al p;;
    mret (Some rs).

(** A ring leaks nothing: after creation, any operations and destruction
    the heap holds exactly the blocks it held before and the heap budget is what
    it was; when the ring cannot be created, the same holds at once. *)
Theorem ring_leaks_nothing m ic limit fl cb ops :
  mem_ready m -> 0 < ic < 2 ^ 22 -> 0 <= limit < 2 ^ 23 ->
  has_flag fl BUFFER_LOCK_SIZE = false -> has_flag fl BUFFER_MALLOC_TYPE = false ->
  Forall op_ok ops ->
  exists r m', ring_session ic limit fl cb ops m = Ok r m' /\ untouched m m' /\
    match r with Some rs => exists l', queue_run [] ops rs l' | None => True end.
Proof using AllocLaws0.
  intros Hrd Hic Hlim Hlk Hpl HF.
  apply (mwp_run _ _ (fun r m' => untouched m m' /\ match r with
    Some rs => exists l', queue_run [] ops rs l' | None => True end)).
  unfold ring_session. mwp_go.
  destruct (rd_budget _ Hrd) as [Hmh Hbu].
  eapply (mwp_create al); try done.
  intros p m1 rb1 arr1 Hat1 (Hr1&Hp1&Hm1&Hu1) Hc1. pose proof (at_ptr _ _ _ _ _ Hat1). ztest.
  mwp_go. eapply mwp_run_ops; [exact Hat1|done|].
  intros rs m2 rb2 arr2 l2 Hq Hat2 (Hr2&Hp2&_&Hm2&Hu2&_).
  pose proof (sizeof_pos al) as Hsz. pose proof (r_head _ _ _ (at_ok _ _ _ _ _ Hat2)).
  destruct (at_budget _ _ _ _ _ Hat2) as [_ Hbu2].
  mwp_go. eapply (mwp_destroy al); [exact Hat2| |].
  { unfold budget, ring_cost in *. rewrite Hm2, Hm1 in *. split; [done|]. intros HM.
    specialize (Hu1 HM). specialize (Hu2 HM). specialize (Hbu HM). specialize (Hbu2 HM). lia. }
  intros m3 Hh3 Hp3 Hm3 Hu3. mwp_go. split; [|by eexists].
  split_and!; try congruence.
  intros HM. unfold ring_cost in *. rewrite Hm2, Hm1 in Hu3. rewrite Hm1 in Hu2.
  specialize (Hu1 HM). specialize (Hu2 HM). specialize (Hu3 HM). lia.
Qed.

(** A push that fits below the growth threshold is never refused, whatever
    the allocator answers. *)
Theorem push_below_threshold_accepted m p rb arr l d :
  ring_at m p rb arr l -> 0 < Z.of_nat (length d) < 2 ^ 23 ->
  Z.of_nat (length l) + Z.of_nat (length d) <= cap rb ->
  Z.of_nat (length l) + Z.of_nat (length d) <
    threshold_bytes (cap rb) (grow_threshold_pct rb) ->
  exists m' rb' arr', mem_buffer_push al p (Some d) m = Ok true m' /\
    ring_at m' p rb' arr' (l ++ d).
Proof using AllocLaws0.
  intros Hat Hd Hfit Hthr. rewrite (ring_length _ _ _ (at_ok _ _ _ _ _ Hat)) in *.
  destruct (mwp_run (mem_buffer_push al p (Some d)) m (fun ok m' =>
    ok = true /\ exists rb' arr', ring_at m' p rb' arr' (l ++ d))) as (ok&m'&Hrun&->&rb'&arr'&?);
    [|by exists m', rb', arr'].
  eapply (mwp_push al); [exact Hat|done|]. intros ok m' rb' arr' Hat' _ Hmust.
  rewrite (Hmust Hfit Hthr) in *. split; [done|by exists rb', arr'].
Qed.
End Refine.
