(* ===== verification/MemSamples.v ===== *)
(** * Sample allocators and rings

    Concrete allocators that satisfy what the C library promises, and rings
    created with them, for the witnesses of the theorems. *)

From S2P Require Import Prelude MemState MemPressure MemBuffer MemLogic RingList RingQueue RingCorrect.

(** The first address above every live block, from 4096 on. *)
Definition top (live : gmap Z Z) : Z :=
  map_fold (fun p k a => Z.max a (p + Z.max k 1)) 4096 live.

Lemma top_above live : 4096 <= top live /\
  forall p k, live !! p = Some k -> p + Z.max k 1 <= top live.
Proof.
  unfold top. apply (map_fold_weak_ind (fun r live => 4096 <= r /\
    forall p k, live !! p = Some k -> p + Z.max k 1 <= r)).
  - split; [lia|]. intros p k. by rewrite lookup_empty.
  - intros p k live' r Hn [H1 H2]. split; [lia|]. intros p' k'.
    rewrite lookup_insert_Some. intros [[<- <-]|[_ Hl]]; [lia|]. specialize (H2 _ _ Hl). lia.
Qed.

(** Blocks are stacked up to [limit]; a resized block always moves. *)
Definition stack_allocator (limit : Z) : allocator := mk_allocator 66
  (fun _ live n => if top live + n <? limit then top live else 0)
  (fun _ live _ n => if top live + n <? limit then top live else 0)
  (fun _ i => 165 + Z.of_nat i).

Lemma stack_apart live live' limit n :
  limit <= 2 ^ 24 -> 0 < n ->
  (forall q k, live' !! q = Some k -> live !! q = Some k) ->
  (if top live + n <? limit then top live else 0) <> 0 ->
  apart live' (if top live + n <? limit then top live else 0) n.
Proof.
  intros Hl Hn Hsub. destruct (top_above live) as [H1 H2].
  destruct (Z.ltb_spec (top live + n) limit); [|done]. intros _. split_and!; try lia.
  - destruct (live' !! top live) as [k|] eqn:E; [|done]. apply Hsub, H2 in E. lia.
  - intros q k Hq. apply Hsub, H2 in Hq. lia.
Qed.

#[global] Instance stack_laws limit : TCEq (limit <=? 2 ^ 24) true -> AllocLaws (stack_allocator limit).
Proof.
  intros Hl. apply TCEq_eq, Z.leb_le in Hl. split.
  - cbn. lia.
  - intros h live n Hn. cbn. by apply stack_apart.
  - intros h live q n Hn. cbn. apply stack_apart; [done|done|].
    intros q' k. by rewrite lookup_delete_Some; intros [].
Qed.

Abbreviation roomy := (stack_allocator 65536).

(** A receive ring as the ethernet driver makes it. *)
Definition start_ring (al : allocator) (max_heap : Z) : MM Z :=
  mem_init max_heap true true true;;
  p ← mem_buffer_create al 512 2048 0 0 None;
  mem_buffer_set_owner p MEM_BUF_OWNER_ETH_RX;;
  mem_buffer_set_grow p 85 512;;
  mem_buffer_set_shrink p 30 512;;
  mret p.

(** The state and value of a run. *)
Definition end_state {A} (r : mres A) : mem_state :=
  match r with Ok _ m => m | Bad _ => mem_start end.

Definition ring_start : mem_state := end_state (start_ring roomy 32768 mem_start).
Definition ring_ptr : Z := 4096.
Definition ring_rb : mem_buffer :=
  match heap ring_start !! ring_ptr with Some (C_struct rb) => rb | _ => mb_blank end.
Definition ring_arr : bytes :=
  match heap ring_start !! buf ring_rb with Some (C_bytes l) => l | _ => [] end.

Lemma ring_start_at : ring_at ring_start ring_ptr ring_rb ring_arr [].
Proof.
  split; [done|by vm_compute|by vm_compute| | |by vm_compute; constructor].
  - split; vm_compute; repeat split; try done; try (intros; lia).
  - split; [vm_compute; split; [done|done]|]. intros _. vm_compute. repeat split; done.
Qed.

Lemma ring_refines_witness :
  exists rs m' rb' arr' l',
    run_ops roomy ring_ptr [Push [1; 2; 3]; Pop 2; Push (replicate 600 7)] ring_start = Ok rs m' /\
    queue_run [] [Push [1; 2; 3]; Pop 2; Push (replicate 600 7)] rs l' /\
    ring_at m' ring_ptr rb' arr' l' /\ rest ring_ptr (buf rb') m' = rest ring_ptr (buf ring_rb) ring_start.
Proof.
  apply (ring_refines_queue roomy _ _ _ ring_arr); [exact ring_start_at|].
  repeat constructor; vm_compute; done.
Defined.

(** Before any buffer exists. *)
Definition mem_fresh : mem_state := end_state (mem_init 32768 true true true mem_start).

Lemma mem_fresh_ready : mem_ready mem_fresh.
Proof. split; try done; vm_compute; repeat split; try done. Qed.

Lemma ring_leaks_nothing_witness :
  exists r m', ring_session roomy 512 2048 1 None [Push (replicate 600 7); Pop 5] mem_fresh = Ok r m' /\
    untouched mem_fresh m' /\
    match r with
    | Some rs => exists l', queue_run [] [Push (replicate 600 7); Pop 5] rs l'
    | None => True
    end.
Proof.
  apply (ring_leaks_nothing roomy); [exact mem_fresh_ready|lia|lia|done|done|].
  repeat constructor; vm_compute; done.
Defined.

Lemma push_below_threshold_witness :
  exists m' rb' arr', mem_buffer_push roomy ring_ptr (Some [9; 8; 7]) ring_start = Ok true m' /\
    ring_at m' ring_ptr rb' arr' ([] ++ [9; 8; 7]).
Proof.
  apply (push_below_threshold_accepted roomy _ _ ring_rb ring_arr);
    [exact ring_start_at|cbn; lia|vm_compute; done|vm_compute; done].
Defined.
