(* ===== verification/EthRing.v ===== *)
(** * The receive ring of the ethernet driver

    [eth_ring_push_frame] and [eth_rx_ring_drain] of
    [src/src/drivers/usb_ethernet.c]: frames are queued in a ring buffer with a
    two-byte length and drained into packet buffers later.  The packet
    allocator and the network interface belong to lwIP; the first is a function
    of the number of frames drained so far, the second is told each frame. *)

From S2P Require Import Prelude MemState MemPressure MemBuffer MemLogic RingList RingQueue RingCorrect MemSamples.

(** ** The code *)

Definition eth_drain_budget (level : mem_pressure_level) : nat :=
  match level with
  | MEM_PRESSURE_NONE => 8
  | MEM_PRESSURE_MILD => 4
  | MEM_PRESSURE_HIGH => 2
  | MEM_PRESSURE_CRITICAL => 1
  end.

Section Eth.
Context (al : allocator).

(** [data] is the received block of [len] bytes, if non-null. *)
Definition eth_ring_push_frame (rx_ring : Z) (data : option bytes) : MM bool :=
  match data with
  | None => mret false
  | Some d =>
      let len := Z.of_nat (length d) in
      if (rx_ring =? 0) || (len =? 0) then mret false
      else
        let needed := len + 2 in
        ok ← mem_buffer_reserve al rx_ring needed;
        if negb ok then mret false
        else
          let hdr := [u8 (Z.shiftr len 8); u8 (Z.land len 255)] in
          ok ← mem_buffer_push al rx_ring (Some hdr);
          if negb ok then mret false
          else
            ok ← mem_buffer_push al rx_ring (Some d);
            if negb ok then mret false else mret true
  end.

(** A packet buffer chain of the given segment sizes is filled from the ring;
    the segments' contents and the bytes that found no room. *)
Fixpoint fill_chain (rb : Z) (segs : list Z) (remaining : Z) : MM (list bytes * Z) :=
  match segs with
  | [] => mret ([], remaining)
  | s :: segs' =>
      if remaining <=? 0 then mret ([], remaining)
      else
        let chunk := if remaining <? s then remaining else s in
        d ← mem_buffer_pop al rb true chunk;
        r ← fill_chain rb segs' (remaining - chunk);
        mret (d :: r.1, r.2)
  end.

(** The frames handed to [netif->input]: [budget] more at most, after
    [drained]. *)
Fixpoint eth_rx_ring_drain (pbuf_alloc : nat -> Z -> option (list Z)) (rb : Z)
    (drained budget : nat) : MM (list bytes) :=
  match budget with
  | O => mret []
  | S budget' =>
      have ← mem_buffer_len rb;
      if have <? 2 then mret []
      else
        o ← mem_buffer_peek rb 0 true 2;
        match o with
        | None => mret []
        | Some hdr =>
            let len := u16 (Z.lor (Z.shiftl (hdr !!! 0%nat) 8) (hdr !!! 1%nat)) in
            have ← mem_buffer_len rb;
            if have <? len + 2 then mret []
            else
              match pbuf_alloc drained len with
              | None => mret []
              | Some segs =>
                  _ ← mem_buffer_pop al rb true 2;
                  r ← fill_chain rb segs len;
                  if negb (r.2 =? 0) then mret []
                  else
                    rest ← eth_rx_ring_drain pbuf_alloc rb (S drained) budget';
                    mret (concat r.1 :: rest)
              end
        end
  end.
End Eth.

(** ** Frames *)

Definition frame_ok (d : bytes) : Prop :=
  0 < Z.of_nat (length d) < 65536.

(** A frame as it lies in the ring. *)
Definition header (d : bytes) : bytes :=
  [Z.of_nat (length d) / 256; Z.of_nat (length d) mod 256].
Definition encode (ds : list bytes) : bytes := concat ((fun d => header d ++ d) <$> ds).

Lemma header_pushed d : frame_ok d ->
  [u8 (Z.shiftr (Z.of_nat (length d)) 8); u8 (Z.land (Z.of_nat (length d)) 255)] = header d.
Proof.
  unfold frame_ok, header. intros Hd. rewrite land_255, Z.shiftr_div_pow2 by lia.
  change (2 ^ 8) with 256.
  pose proof (Z.mod_pos_bound (Z.of_nat (length d)) 256). pose proof (Z.div_pos (Z.of_nat (length d)) 256).
  assert (Z.of_nat (length d) / 256 < 256) by (apply Z.div_lt_upper_bound; lia).
  by rewrite !u8_small by lia.
Qed.

Lemma header_read d : frame_ok d ->
  u16 (Z.lor (Z.shiftl (header d !!! 0%nat) 8) (header d !!! 1%nat)) = Z.of_nat (length d).
Proof.
  unfold frame_ok. intros Hd. cbn.
  pose proof (Z.mod_pos_bound (Z.of_nat (length d)) 256).
  rewrite lor_shiftl_add by lia. change (2 ^ 8) with 256.
  pose proof (Z.div_mod (Z.of_nat (length d)) 256). rewrite u16_small; lia.
Qed.

(** The packet allocator gives chains with room for the frame. *)
Definition alloc_ok (pbuf_alloc : nat -> Z -> option (list Z)) : Prop :=
  forall i len, 0 < len -> exists segs, pbuf_alloc i len = Some segs /\
    Forall (fun s => 0 < s < 2 ^ 16) segs /\ len <= foldr Z.add 0 segs.

Section Spec.
Context (al : allocator) `{!AllocLaws al}.

Lemma mwp_len m p rb arr l (Q : Z -> mem_state -> Prop) :
  ring_at m p rb arr l -> Q (Z.of_nat (length l)) m -> mwp (mem_buffer_len p) m Q.
Proof.
  intros Hat HQ. rewrite (ring_length _ _ _ (at_ok _ _ _ _ _ Hat)) in HQ.
  pose proof (at_ptr _ _ _ _ _ Hat). unfold mem_buffer_len. ztest. mwp_go.
  eapply mwp_get_mb; [apply Hat|]. by mwp_go.
Qed.

(** A frame is queued whole, or refused; a refusal may leave its header. *)
Lemma mwp_push_frame m p rb arr l d (Q : bool -> mem_state -> Prop) :
  ring_at m p rb arr l -> frame_ok d ->
  (forall ok m' rb' arr' l', ring_at m' p rb' arr' l' -> ring_frame p m rb m' rb' ->
     (ok = true -> l' = l ++ header d ++ d) ->
     (ok = false -> l' = l \/ l' = l ++ header d) -> Q ok m') ->
  mwp (eth_ring_push_frame al p (Some d)) m Q.
Proof using AllocLaws0.
  intros Hat Hd HQ. pose proof (at_ptr _ _ _ _ _ Hat). pose proof (header_pushed d Hd) as Hhd.
  unfold frame_ok in Hd. unfold eth_ring_push_frame. ztest. cbn [orb]. mwp_go.
  eapply (mwp_reserve al); [exact Hat|lia|]. intros ok m1 rb1 arr1 Hat1 Hf1 _.
  destruct ok; cbn [negb]; mwp_go; [|eapply HQ; [exact Hat1|exact Hf1|done|by left]].
  rewrite Hhd. eapply (mwp_push al); [exact Hat1|cbn; lia|]. intros ok m2 rb2 arr2 Hat2 Hf2 _.
  pose proof (ring_frame_trans _ _ _ _ _ _ _ Hf1 Hf2) as Hf12.
  destruct ok; cbn [negb]; mwp_go; [|eapply HQ; [exact Hat2|exact Hf12|done|by left]].
  eapply (mwp_push al); [exact Hat2|lia|]. intros ok m3 rb3 arr3 Hat3 Hf3 _.
  pose proof (ring_frame_trans _ _ _ _ _ _ _ Hf12 Hf3) as Hf13.
  destruct ok; cbn [negb]; mwp_go; (eapply HQ; [exact Hat3|exact Hf13|intros E; try done|intros E; try done]).
  - by rewrite app_assoc.
  - by right.
Qed.

(** A chain takes exactly the bytes of the frame. *)
Lemma mwp_fill_chain segs d m p rb arr l (Q : list bytes * Z -> mem_state -> Prop) :
  ring_at m p rb arr (d ++ l) -> Forall (fun s => 0 < s < 2 ^ 16) segs ->
  Z.of_nat (length d) <= foldr Z.add 0 segs ->
  (forall cs m' rb' arr', concat cs = d -> ring_at m' p rb' arr' l -> Q (cs, 0) m') ->
  mwp (fill_chain al p segs (Z.of_nat (length d))) m Q.
Proof using AllocLaws0.
  intros Hat HF. revert d m rb arr Q Hat.
  induction HF as [|s segs Hs HF IH]; intros d m rb arr Q Hat Hsum HQ; cbn in *.
  { destruct d; cbn in *; [|lia]. mwp_go. by eapply (HQ []). }
  destruct (Z.leb_spec (Z.of_nat (length d)) 0).
  { destruct d; cbn in *; [|lia]. mwp_go. by eapply (HQ []). }
  set (chunk := if _ <? s then _ else _).
  assert (0 < chunk <= s /\ chunk <= Z.of_nat (length d) /\
          (chunk = Z.of_nat (length d) \/ chunk = s)) as (Hc1&Hc2&Hc3)
    by (unfold chunk; destruct (Z.ltb_spec (Z.of_nat (length d)) s); lia).
  clearbody chunk. mwp_go. eapply (mwp_pop al); [exact Hat|lia|].
  rewrite (proj2 (Z.leb_le _ _)) by (rewrite length_app; lia).
  intros m1 rb1 arr1 _ Hat1. rewrite drop_app_le, take_app_le in * by lia. mwp_go.
  replace (Z.of_nat (length d) - chunk) with (Z.of_nat (length (drop (Z.to_nat chunk) d)))
    by (rewrite length_drop; lia).
  assert (0 <= foldr Z.add 0 segs) by (clear -HF; induction HF; cbn; lia).
  eapply IH; [exact Hat1|rewrite length_drop; lia|].
  intros cs m2 rb2 arr2 Hcs Hat2. mwp_go. cbn [fst snd].
  eapply (HQ (_ :: cs)); [|exact Hat2]. cbn. rewrite Hcs. apply take_drop.
Qed.

Lemma mwp_drain pbuf_alloc n : alloc_ok pbuf_alloc -> forall ds i m p rb arr
    (Q : list bytes -> mem_state -> Prop),
  ring_at m p rb arr (encode ds) -> Forall frame_ok ds ->
  (forall m' rb' arr', ring_at m' p rb' arr' (encode (drop n ds)) -> Q (take n ds) m') ->
  mwp (eth_rx_ring_drain al pbuf_alloc p i n) m Q.
Proof using AllocLaws0.
  intros Halloc. induction n as [|n IH]; intros ds i m p rb arr Q Hat HF HQ; cbn.
  { mwp_go. rewrite take_0 in HQ. by eapply HQ. }
  mwp_go. eapply mwp_len; [exact Hat|].
  destruct HF as [|d ds Hd HF]; [cbn; mwp_go; by eapply HQ|].
  pose proof Hd as Hd'. unfold frame_ok in Hd'.
  assert (encode (d :: ds) = header d ++ d ++ encode ds) as Henc
    by done.
  rewrite Henc in Hat |- *.
  assert (2 + Z.of_nat (length d) <= Z.of_nat (length (header d ++ d ++ encode ds))) as Hlen
    by (rewrite !length_app; cbn; lia).
  rewrite (proj2 (Z.ltb_ge _ _)) by lia. mwp_go.
  eapply mwp_peek; [exact Hat|lia|lia|lia|].
  rewrite (proj2 (Z.leb_le _ _)) by lia. cbn [Z.to_nat drop]. rewrite drop_0.
  change (Z.to_nat 2) with (length (header d)). rewrite take_app_length.
  rewrite (header_read d Hd). mwp_go. eapply mwp_len; [exact Hat|].
  rewrite (proj2 (Z.ltb_ge _ _)) by lia.
  destruct (Halloc i (Z.of_nat (length d)) ltac:(lia)) as (segs&->&Hsegs&Hroom).
  mwp_go. eapply (mwp_pop al); [exact Hat|lia|].
  rewrite (proj2 (Z.leb_le _ _)) by lia. change (Z.to_nat 2) with (length (header d)).
  rewrite drop_app_length. intros m1 rb1 arr1 _ Hat1. mwp_go.
  eapply mwp_fill_chain; [exact Hat1|done|done|]. intros cs m2 rb2 arr2 Hcs Hat2. cbn [snd fst].
  change (negb (0 =? 0)) with false. cbn iota. mwp_go.
  eapply IH; [exact Hat2|done|]. intros m3 rb3 arr3 Hat3. mwp_go. rewrite Hcs.
  by eapply HQ.
Qed.

(** Frames come out of the receive ring as they went in: whatever the heap
    allocator answers, when a frame is accepted behind the queued ones, draining
    with a large enough budget delivers the queued frames and then this one,
    each whole and unchanged, and leaves the ring empty. *)
Theorem eth_frames_round_trip pbuf_alloc m p rb arr sent d n :
  alloc_ok pbuf_alloc -> ring_at m p rb arr (encode sent) -> Forall frame_ok sent ->
  frame_ok d -> (length sent < n)%nat ->
  exists ok m1, eth_ring_push_frame al p (Some d) m = Ok ok m1 /\
    (ok = true -> exists m2 rb2 arr2,
       eth_rx_ring_drain al pbuf_alloc p 0 n m1 = Ok (sent ++ [d]) m2 /\
       ring_at m2 p rb2 arr2 []).
Proof using AllocLaws0.
  intros Ha Hat HF Hd Hn. apply (mwp_run _ _ (fun ok m1 => ok = true -> exists m2 rb2 arr2,
       eth_rx_ring_drain al pbuf_alloc p 0 n m1 = Ok (sent ++ [d]) m2 /\ ring_at m2 p rb2 arr2 [])).
  eapply mwp_push_frame; [exact Hat|done|]. intros ok m1 rb1 arr1 l1 Hat1 _ H1 _ Eok.
  rewrite (H1 Eok) in Hat1.
  assert (encode sent ++ header d ++ d = encode (sent ++ [d])) as Henc
    by (unfold encode; by rewrite fmap_app, concat_app; cbn; rewrite app_nil_r).
  rewrite Henc in Hat1.
  destruct (mwp_run (eth_rx_ring_drain al pbuf_alloc p 0 n) m1 (fun r m2 => r = sent ++ [d] /\
    exists rb2 arr2, ring_at m2 p rb2 arr2 [])) as (r&m2&Hrun&->&rb2&arr2&?); [|by exists m2, rb2, arr2].
  eapply mwp_drain; [done|exact Hat1|by apply Forall_app; auto|].
  rewrite take_ge, drop_ge by (rewrite length_app; cbn; lia).
  intros m2 rb2 arr2 Hat2. split; [done|]. by exists rb2, arr2.
Qed.
End Spec.

(** ** Samples *)

(** Chains of 256-byte segments. *)
Definition pool_chain (_ : nat) (len : Z) : option (list Z) :=
  Some (replicate (Z.to_nat (len / 256 + 1)) 256).

Lemma pool_chain_ok : alloc_ok pool_chain.
Proof.
  intros i len Hlen. eexists; split; [done|]. split.
  - apply Forall_replicate. lia.
  - assert (forall n, foldr Z.add 0 (replicate n 256) = 256 * Z.of_nat n) as ->
      by (induction n; cbn [replicate foldr]; lia).
    pose proof (Z.div_mod len 256). pose proof (Z.mod_pos_bound len 256).
    pose proof (Z.div_pos len 256). lia.
Qed.

Lemma eth_frames_witness :
  exists ok m1, eth_ring_push_frame roomy ring_ptr (Some (replicate 300 5)) ring_start = Ok ok m1 /\
    (ok = true -> exists m2 rb2 arr2,
       eth_rx_ring_drain roomy pool_chain ring_ptr 0 8 m1 = Ok ([] ++ [replicate 300 5]) m2 /\
       ring_at m2 ring_ptr rb2 arr2 []).
Proof.
  apply (eth_frames_round_trip roomy pool_chain _ _ ring_rb ring_arr);
    [exact pool_chain_ok|exact ring_start_at|constructor|vm_compute; done|cbn; lia].
Defined.

(** A heap with room for one growth of the ring, not for two. *)
Definition tight_start : mem_state := end_state (start_ring roomy 1200 mem_start).

(** A refused frame can leave its header behind.  The reservation grows the
    ring to 1024 bytes; the 898 bytes of the frame then cross the growth
    threshold, the second growth fails, and the frame is refused with its
    two-byte header already queued.  The next frame is accepted and never
    delivered: the drain takes the orphaned header for its length. *)
Theorem refused_frame_leaves_header :
  match (big ← eth_ring_push_frame roomy ring_ptr (Some (replicate 898 1));
         queued ← mem_buffer_len ring_ptr;
         small ← eth_ring_push_frame roomy ring_ptr (Some (replicate 60 2));
         got ← eth_rx_ring_drain roomy pool_chain ring_ptr 0 8;
         mret (big, queued, small, got)) tight_start with
  | Ok r _ => r = (false, 2, true, [])
  | Bad _ => False
  end.
Proof. vm_compute. done. Qed.
