(* ===== verification/EthState.v ===== *)
(** * The USB ethernet driver: data, environment and monad

    The data of [src/src/drivers/usb_ethernet.h] and the static variables of
    [src/src/drivers/usb_ethernet.c], with what the driver sees of the USB
    library and of lwIP.

    - An [eth_device_t] is a live object at an address; [devs] holds the live
      ones.  Addresses are integers, 0 is [NULL].
    - The USB library, reached through [usb_fn], is a record [usb_env] of
      answers; each is asked with the history of calls so far, so quantifying
      over the record quantifies over every device and every behaviour of the
      bus.  The pointer a program attaches to a device
      ([set_device_data]/[get_device_data]) is the map [dev_data].
    - lwIP's list of interfaces is [netif_list]; an interface is named by the
      address of the device that contains it.
    - The memory manager's state is a component; its calls of the throttle hook
      reach the driver ([mem_call] of [EthDriver]). *)

From S2P Require Import Prelude MemState.

(** ** Constants *)

Definition USB_CDC_MAX_RETRIES : Z := 3.
Definition ETHERNET_MTU : Z := 1518.
Definition INTERRUPT_RX_MAX : Z := 64.
Definition NCM_RX_NTB_MAX_SIZE : Z := 2048.
Definition USB_ECM_SUBCLASS : Z := 0x06.
Definition USB_NCM_SUBCLASS : Z := 0x0D.
Definition ETH_USB_MAX_RETRIES : Z := 5.
Definition ETH_RX_RING_INIT_SIZE : Z := 512.
Definition ETH_RX_RING_MAX_SIZE : Z := 2048.
Definition ETH_RX_RING_STEP_SIZE : Z := 512.
Definition ETH_RX_DRAIN_INTERVAL_MS : Z := 5.

(** Flags of a [struct netif]. *)
Definition NETIF_FLAG_UP : Z := 0x01.
Definition NETIF_FLAG_BROADCAST : Z := 0x02.
Definition NETIF_FLAG_LINK_UP : Z := 0x04.
Definition NETIF_FLAG_ETHARP : Z := 0x08.
Definition NETIF_FLAG_ETHERNET : Z := 0x10.
Definition NETIF_FLAG_IGMP : Z := 0x20.
Definition NETIF_FLAG_MLD6 : Z := 0x40.

(** ** Data *)

(** The functions the driver stores in [rx.callback] and [tx.emit]. *)
Inductive rx_handler := ncm_receive_cb | ecm_receive_cb.
Inductive tx_handler := ncm_transmit_fn | ecm_transmit_fn.

#[global] Instance rx_handler_eq_dec : EqDecision rx_handler.
Proof. solve_decision. Defined.
#[global] Instance tx_handler_eq_dec : EqDecision tx_handler.
Proof. solve_decision. Defined.

(** The members of [struct netif] the driver touches. *)
Record netif := mk_netif {
  nif_name : Z * Z;
  nif_num : Z;
  nif_hwaddr : bytes;
  nif_mtu : Z;
  nif_flags : Z;
  nif_linkoutput : option tx_handler
}.

Definition set_nif_name (v : Z * Z) (a : netif) : netif :=
  mk_netif v (nif_num a) (nif_hwaddr a) (nif_mtu a) (nif_flags a) (nif_linkoutput a).
Definition set_nif_num (v : Z) (a : netif) : netif :=
  mk_netif (nif_name a) v (nif_hwaddr a) (nif_mtu a) (nif_flags a) (nif_linkoutput a).
Definition set_nif_hwaddr (v : bytes) (a : netif) : netif :=
  mk_netif (nif_name a) (nif_num a) v (nif_mtu a) (nif_flags a) (nif_linkoutput a).
Definition set_nif_mtu (v : Z) (a : netif) : netif :=
  mk_netif (nif_name a) (nif_num a) (nif_hwaddr a) v (nif_flags a) (nif_linkoutput a).
Definition set_nif_flags (v : Z) (a : netif) : netif :=
  mk_netif (nif_name a) (nif_num a) (nif_hwaddr a) (nif_mtu a) v (nif_linkoutput a).
Definition set_nif_linkoutput (v : option tx_handler) (a : netif) : netif :=
  mk_netif (nif_name a) (nif_num a) (nif_hwaddr a) (nif_mtu a) (nif_flags a) v.

(** [eth_device_t]; [ntb_params] is the 28-byte structure as the device sent
    it. *)
Record eth_device := mk_dev {
  dev_usb : Z;
  dev_type : Z;
  dev_hwaddr : bytes;
  rx_transfer_active : bool;
  rx_ring : Z;
  rx_endpoint : Z;
  rx_callback : option rx_handler;
  rx_buf : bytes;
  tx_endpoint : Z;
  tx_emit : option tx_handler;
  int_endpoint : Z;
  int_buf : bytes;
  bm_capabilities : Z;
  ncm_sequence : Z;
  ntb_params : bytes;
  iface : netif
}.

Definition set_dev_usb (v : Z) (a : eth_device) : eth_device :=
  mk_dev v (dev_type a) (dev_hwaddr a) (rx_transfer_active a) (rx_ring a) (rx_endpoint a) (rx_callback a) (rx_buf a) (tx_endpoint a) (tx_emit a) (int_endpoint a) (int_buf a) (bm_capabilities a) (ncm_sequence a) (ntb_params a) (iface a).
Definition set_dev_type (v : Z) (a : eth_device) : eth_device :=
  mk_dev (dev_usb a) v (dev_hwaddr a) (rx_transfer_active a) (rx_ring a) (rx_endpoint a) (rx_callback a) (rx_buf a) (tx_endpoint a) (tx_emit a) (int_endpoint a) (int_buf a) (bm_capabilities a) (ncm_sequence a) (ntb_params a) (iface a).
Definition set_dev_hwaddr (v : bytes) (a : eth_device) : eth_device :=
  mk_dev (dev_usb a) (dev_type a) v (rx_transfer_active a) (rx_ring a) (rx_endpoint a) (rx_callback a) (rx_buf a) (tx_endpoint a) (tx_emit a) (int_endpoint a) (int_buf a) (bm_capabilities a) (ncm_sequence a) (ntb_params a) (iface a).
Definition set_rx_transfer_active (v : bool) (a : eth_device) : eth_device :=
  mk_dev (dev_usb a) (dev_type a) (dev_hwaddr a) v (rx_ring a) (rx_endpoint a) (rx_callback a) (rx_buf a) (tx_endpoint a) (tx_emit a) (int_endpoint a) (int_buf a) (bm_capabilities a) (ncm_sequence a) (ntb_params a) (iface a).
Definition set_rx_ring (v : Z) (a : eth_device) : eth_device :=
  mk_dev (dev_usb a) (dev_type a) (dev_hwaddr a) (rx_transfer_active a) v (rx_endpoint a) (rx_callback a) (rx_buf a) (tx_endpoint a) (tx_emit a) (int_endpoint a) (int_buf a) (bm_capabilities a) (ncm_sequence a) (ntb_params a) (iface a).
Definition set_rx_endpoint (v : Z) (a : eth_device) : eth_device :=
  mk_dev (dev_usb a) (dev_type a) (dev_hwaddr a) (rx_transfer_active a) (rx_ring a) v (rx_callback a) (rx_buf a) (tx_endpoint a) (tx_emit a) (int_endpoint a) (int_buf a) (bm_capabilities a) (ncm_sequence a) (ntb_params a) (iface a).
Definition set_rx_callback (v : option rx_handler) (a : eth_device) : eth_device :=
  mk_dev (dev_usb a) (dev_type a) (dev_hwaddr a) (rx_transfer_active a) (rx_ring a) (rx_endpoint a) v (rx_buf a) (tx_endpoint a) (tx_emit a) (int_endpoint a) (int_buf a) (bm_capabilities a) (ncm_sequence a) (ntb_params a) (iface a).
Definition set_rx_buf (v : bytes) (a : eth_device) : eth_device :=
  mk_dev (dev_usb a) (dev_type a) (dev_hwaddr a) (rx_transfer_active a) (rx_ring a) (rx_endpoint a) (rx_callback a) v (tx_endpoint a) (tx_emit a) (int_endpoint a) (int_buf a) (bm_capabilities a) (ncm_sequence a) (ntb_params a) (iface a).
Definition set_tx_endpoint (v : Z) (a : eth_device) : eth_device :=
  mk_dev (dev_usb a) (dev_type a) (dev_hwaddr a) (rx_transfer_active a) (rx_ring a) (rx_endpoint a) (rx_callback a) (rx_buf a) v (tx_emit a) (int_endpoint a) (int_buf a) (bm_capabilities a) (ncm_sequence a) (ntb_params a) (iface a).
Definition set_tx_emit (v : option tx_handler) (a : eth_device) : eth_device :=
  mk_dev (dev_usb a) (dev_type a) (dev_hwaddr a) (rx_transfer_active a) (rx_ring a) (rx_endpoint a) (rx_callback a) (rx_buf a) (tx_endpoint a) v (int_endpoint a) (int_buf a) (bm_capabilities a) (ncm_sequence a) (ntb_params a) (iface a).
Definition set_int_endpoint (v : Z) (a : eth_device) : eth_device :=
  mk_dev (dev_usb a) (dev_type a) (dev_hwaddr a) (rx_transfer_active a) (rx_ring a) (rx_endpoint a) (rx_callback a) (rx_buf a) (tx_endpoint a) (tx_emit a) v (int_buf a) (bm_capabilities a) (ncm_sequence a) (ntb_params a) (iface a).
Definition set_int_buf (v : bytes) (a : eth_device) : eth_device :=
  mk_dev (dev_usb a) (dev_type a) (dev_hwaddr a) (rx_transfer_active a) (rx_ring a) (rx_endpoint a) (rx_callback a) (rx_buf a) (tx_endpoint a) (tx_emit a) (int_endpoint a) v (bm_capabilities a) (ncm_sequence a) (ntb_params a) (iface a).
Definition set_bm_capabilities (v : Z) (a : eth_device) : eth_device :=
  mk_dev (dev_usb a) (dev_type a) (dev_hwaddr a) (rx_transfer_active a) (rx_ring a) (rx_endpoint a) (rx_callback a) (rx_buf a) (tx_endpoint a) (tx_emit a) (int_endpoint a) (int_buf a) v (ncm_sequence a) (ntb_params a) (iface a).
Definition set_ncm_sequence (v : Z) (a : eth_device) : eth_device :=
  mk_dev (dev_usb a) (dev_type a) (dev_hwaddr a) (rx_transfer_active a) (rx_ring a) (rx_endpoint a) (rx_callback a) (rx_buf a) (tx_endpoint a) (tx_emit a) (int_endpoint a) (int_buf a) (bm_capabilities a) v (ntb_params a) (iface a).
Definition set_ntb_params (v : bytes) (a : eth_device) : eth_device :=
  mk_dev (dev_usb a) (dev_type a) (dev_hwaddr a) (rx_transfer_active a) (rx_ring a) (rx_endpoint a) (rx_callback a) (rx_buf a) (tx_endpoint a) (tx_emit a) (int_endpoint a) (int_buf a) (bm_capabilities a) (ncm_sequence a) v (iface a).
Definition set_iface (v : netif) (a : eth_device) : eth_device :=
  mk_dev (dev_usb a) (dev_type a) (dev_hwaddr a) (rx_transfer_active a) (rx_ring a) (rx_endpoint a) (rx_callback a) (rx_buf a) (tx_endpoint a) (tx_emit a) (int_endpoint a) (int_buf a) (bm_capabilities a) (ncm_sequence a) (ntb_params a) v.

(** ** History *)

(** What a transfer is for: the interrupt buffer or the receive buffer of a
    device, or a packet buffer with its bytes. *)
Inductive xfer :=
| X_int (dev : Z)
| X_rx (dev : Z) (cb : rx_handler)
| X_tx (pbuf : Z) (data : bytes).

Inductive eth_event :=
| T_schedule (endpoint : Z) (x : xfer) (len : Z)
| T_disable_device (usb : Z)
| T_reset_device (usb : Z)
| T_control (request value len : Z)
| T_descriptor (type index : Z)
| T_string (index : Z)
| T_set_configuration (len : Z)
| T_set_interface (len : Z)
| T_random
| T_malloc (p : Z)
| T_free (p : Z)
| T_pbuf_alloc (len p : Z)
| T_pbuf_free (p : Z)
| T_dhcp_start (dev : Z)
| T_input (dev : Z) (frame : bytes)
| T_timeout (ms : Z).

(** ** The driver's state *)

Record eth_state := mk_eth {
  ifnums_used : Z;
  eth_disabled_with_error : bool;
  eth_throttle : mem_pressure_level;
  hook_registered : bool;
  drain_scheduled : bool;
  drain_interval : Z;
  int_retries : Z;
  default_netif_set : bool;
  tx_retries : Z;
  ecm_rx_retries : Z;
  ncm_rx_retries : Z;
  devs : gmap Z eth_device;
  dev_data : gmap Z Z;
  netif_list : list Z;
  netif_default : Z;
  tx_pbufs : gmap Z bytes;
  emem : mem_state;
  etrace : list eth_event
}.

Definition set_ifnums_used (v : Z) (a : eth_state) : eth_state :=
  mk_eth v (eth_disabled_with_error a) (eth_throttle a) (hook_registered a) (drain_scheduled a) (drain_interval a) (int_retries a) (default_netif_set a) (tx_retries a) (ecm_rx_retries a) (ncm_rx_retries a) (devs a) (dev_data a) (netif_list a) (netif_default a) (tx_pbufs a) (emem a) (etrace a).
Definition set_eth_disabled_with_error (v : bool) (a : eth_state) : eth_state :=
  mk_eth (ifnums_used a) v (eth_throttle a) (hook_registered a) (drain_scheduled a) (drain_interval a) (int_retries a) (default_netif_set a) (tx_retries a) (ecm_rx_retries a) (ncm_rx_retries a) (devs a) (dev_data a) (netif_list a) (netif_default a) (tx_pbufs a) (emem a) (etrace a).
Definition set_eth_throttle (v : mem_pressure_level) (a : eth_state) : eth_state :=
  mk_eth (ifnums_used a) (eth_disabled_with_error a) v (hook_registered a) (drain_scheduled a) (drain_interval a) (int_retries a) (default_netif_set a) (tx_retries a) (ecm_rx_retries a) (ncm_rx_retries a) (devs a) (dev_data a) (netif_list a) (netif_default a) (tx_pbufs a) (emem a) (etrace a).
Definition set_hook_registered (v : bool) (a : eth_state) : eth_state :=
  mk_eth (ifnums_used a) (eth_disabled_with_error a) (eth_throttle a) v (drain_scheduled a) (drain_interval a) (int_retries a) (default_netif_set a) (tx_retries a) (ecm_rx_retries a) (ncm_rx_retries a) (devs a) (dev_data a) (netif_list a) (netif_default a) (tx_pbufs a) (emem a) (etrace a).
Definition set_drain_scheduled (v : bool) (a : eth_state) : eth_state :=
  mk_eth (ifnums_used a) (eth_disabled_with_error a) (eth_throttle a) (hook_registered a) v (drain_interval a) (int_retries a) (default_netif_set a) (tx_retries a) (ecm_rx_retries a) (ncm_rx_retries a) (devs a) (dev_data a) (netif_list a) (netif_default a) (tx_pbufs a) (emem a) (etrace a).
Definition set_drain_interval (v : Z) (a : eth_state) : eth_state :=
  mk_eth (ifnums_used a) (eth_disabled_with_error a) (eth_throttle a) (hook_registered a) (drain_scheduled a) v (int_retries a) (default_netif_set a) (tx_retries a) (ecm_rx_retries a) (ncm_rx_retries a) (devs a) (dev_data a) (netif_list a) (netif_default a) (tx_pbufs a) (emem a) (etrace a).
Definition set_int_retries (v : Z) (a : eth_state) : eth_state :=
  mk_eth (ifnums_used a) (eth_disabled_with_error a) (eth_throttle a) (hook_registered a) (drain_scheduled a) (drain_interval a) v (default_netif_set a) (tx_retries a) (ecm_rx_retries a) (ncm_rx_retries a) (devs a) (dev_data a) (netif_list a) (netif_default a) (tx_pbufs a) (emem a) (etrace a).
Definition set_default_netif_set (v : bool) (a : eth_state) : eth_state :=
  mk_eth (ifnums_used a) (eth_disabled_with_error a) (eth_throttle a) (hook_registered a) (drain_scheduled a) (drain_interval a) (int_retries a) v (tx_retries a) (ecm_rx_retries a) (ncm_rx_retries a) (devs a) (dev_data a) (netif_list a) (netif_default a) (tx_pbufs a) (emem a) (etrace a).
Definition set_tx_retries (v : Z) (a : eth_state) : eth_state :=
  mk_eth (ifnums_used a) (eth_disabled_with_error a) (eth_throttle a) (hook_registered a) (drain_scheduled a) (drain_interval a) (int_retries a) (default_netif_set a) v (ecm_rx_retries a) (ncm_rx_retries a) (devs a) (dev_data a) (netif_list a) (netif_default a) (tx_pbufs a) (emem a) (etrace a).
Definition set_ecm_rx_retries (v : Z) (a : eth_state) : eth_state :=
  mk_eth (ifnums_used a) (eth_disabled_with_error a) (eth_throttle a) (hook_registered a) (drain_scheduled a) (drain_interval a) (int_retries a) (default_netif_set a) (tx_retries a) v (ncm_rx_retries a) (devs a) (dev_data a) (netif_list a) (netif_default a) (tx_pbufs a) (emem a) (etrace a).
Definition set_ncm_rx_retries (v : Z) (a : eth_state) : eth_state :=
  mk_eth (ifnums_used a) (eth_disabled_with_error a) (eth_throttle a) (hook_registered a) (drain_scheduled a) (drain_interval a) (int_retries a) (default_netif_set a) (tx_retries a) (ecm_rx_retries a) v (devs a) (dev_data a) (netif_list a) (netif_default a) (tx_pbufs a) (emem a) (etrace a).
Definition set_devs (v : gmap Z eth_device) (a : eth_state) : eth_state :=
  mk_eth (ifnums_used a) (eth_disabled_with_error a) (eth_throttle a) (hook_registered a) (drain_scheduled a) (drain_interval a) (int_retries a) (default_netif_set a) (tx_retries a) (ecm_rx_retries a) (ncm_rx_retries a) v (dev_data a) (netif_list a) (netif_default a) (tx_pbufs a) (emem a) (etrace a).
Definition set_dev_data (v : gmap Z Z) (a : eth_state) : eth_state :=
  mk_eth (ifnums_used a) (eth_disabled_with_error a) (eth_throttle a) (hook_registered a) (drain_scheduled a) (drain_interval a) (int_retries a) (default_netif_set a) (tx_retries a) (ecm_rx_retries a) (ncm_rx_retries a) (devs a) v (netif_list a) (netif_default a) (tx_pbufs a) (emem a) (etrace a).
Definition set_netif_list (v : list Z) (a : eth_state) : eth_state :=
  mk_eth (ifnums_used a) (eth_disabled_with_error a) (eth_throttle a) (hook_registered a) (drain_scheduled a) (drain_interval a) (int_retries a) (default_netif_set a) (tx_retries a) (ecm_rx_retries a) (ncm_rx_retries a) (devs a) (dev_data a) v (netif_default a) (tx_pbufs a) (emem a) (etrace a).
Definition set_netif_default (v : Z) (a : eth_state) : eth_state :=
  mk_eth (ifnums_used a) (eth_disabled_with_error a) (eth_throttle a) (hook_registered a) (drain_scheduled a) (drain_interval a) (int_retries a) (default_netif_set a) (tx_retries a) (ecm_rx_retries a) (ncm_rx_retries a) (devs a) (dev_data a) (netif_list a) v (tx_pbufs a) (emem a) (etrace a).
Definition set_tx_pbufs (v : gmap Z bytes) (a : eth_state) : eth_state :=
  mk_eth (ifnums_used a) (eth_disabled_with_error a) (eth_throttle a) (hook_registered a) (drain_scheduled a) (drain_interval a) (int_retries a) (default_netif_set a) (tx_retries a) (ecm_rx_retries a) (ncm_rx_retries a) (devs a) (dev_data a) (netif_list a) (netif_default a) v (emem a) (etrace a).
Definition set_emem (v : mem_state) (a : eth_state) : eth_state :=
  mk_eth (ifnums_used a) (eth_disabled_with_error a) (eth_throttle a) (hook_registered a) (drain_scheduled a) (drain_interval a) (int_retries a) (default_netif_set a) (tx_retries a) (ecm_rx_retries a) (ncm_rx_retries a) (devs a) (dev_data a) (netif_list a) (netif_default a) (tx_pbufs a) v (etrace a).
Definition set_etrace (v : list eth_event) (a : eth_state) : eth_state :=
  mk_eth (ifnums_used a) (eth_disabled_with_error a) (eth_throttle a) (hook_registered a) (drain_scheduled a) (drain_interval a) (int_retries a) (default_netif_set a) (tx_retries a) (ecm_rx_retries a) (ncm_rx_retries a) (devs a) (dev_data a) (netif_list a) (netif_default a) (tx_pbufs a) (emem a) v.

(** What the USB library, the C library and lwIP's packet allocator answer.
    A [usb_error_t] of 0 is success; a transfer in gives the bytes it moved. *)
Record usb_env := mk_usb {
  u_schedule : list eth_event -> Z;
  u_control : list eth_event -> Z * bytes;
  u_config_len : list eth_event -> Z -> Z;
  u_descriptor : list eth_event -> Z * bytes;
  u_string : list eth_event -> Z * bytes;
  u_set_configuration : list eth_event -> Z;
  u_set_interface : list eth_event -> Z;
  u_endpoint : Z -> Z -> Z;
  u_role_device : list eth_event -> bool;
  u_is_hub : list eth_event -> bool;
  u_random : list eth_event -> Z;
  u_malloc : list eth_event -> Z;
  u_pbuf : list eth_event -> Z -> Z;
  u_chain : list eth_event -> nat -> Z -> option (list Z);
  u_stack : list eth_event -> nat -> Z   (** what an uninitialised array holds *)
}.

(** ** The monad *)

Inductive eth_fault :=
| EF_mem (f : mem_fault)   (** undefined behaviour in the memory manager *)
| EF_null                  (** a null or dangling pointer *)
| EF_bounds                (** an access outside its object *)
| EF_div                   (** a division by zero *)
| EF_fuel.                 (** a loop that has not ended *)

Inductive eres (A : Type) :=
| EOk (a : A) (s : eth_state)
| EBad (f : eth_fault).
Arguments EOk {_} _ _.
Arguments EBad {_} _.

Definition EM (A : Type) : Type := eth_state -> eres A.

#[global] Instance EM_ret : MRet EM := fun A a s => EOk a s.
#[global] Instance EM_bind : MBind EM :=
  fun A B k c s => match c s with EOk a s' => k a s' | EBad f => EBad f end.

Definition efail {A} (f : eth_fault) : EM A := fun _ => EBad f.
Definition egets {A} (f : eth_state -> A) : EM A := fun s => EOk (f s) s.
Definition emodify (f : eth_state -> eth_state) : EM unit := fun s => EOk tt (f s).
Definition elog (e : eth_event) : EM unit := emodify (fun s => set_etrace (e :: etrace s) s).
Definition whenE (c : bool) (k : EM unit) : EM unit := if c then k else mret tt.
Definition orEBad {A} (f : eth_fault) (o : option A) : EM A :=
  match o with Some a => mret a | None => efail f end.

(** [*dev], and a change of it. *)
Definition get_dev (p : Z) : EM eth_device := fun s =>
  match devs s !! p with Some d => EOk d s | None => EBad EF_null end.
Definition upd_dev (p : Z) (f : eth_device -> eth_device) : EM unit :=
  d ← get_dev p; emodify (fun s => set_devs (<[p := f d]> (devs s)) s).
Definition upd_iface (p : Z) (f : netif -> netif) : EM unit :=
  upd_dev p (fun d => set_iface (f (iface d)) d).

(** Little-endian fields of a byte array, checked. *)
Definition le8 (b : bytes) (off : Z) : option Z :=
  if off <? 0 then None else b !! Z.to_nat off.
Definition le16 (b : bytes) (off : Z) : option Z :=
  lo ← le8 b off; hi ← le8 b (off + 1); Some (lo + 256 * hi).
Definition le32 (b : bytes) (off : Z) : option Z :=
  lo ← le16 b off; hi ← le16 b (off + 2); Some (lo + 65536 * hi).
