(* ===== verification/EthDriver.v ===== *)
(** * The USB ethernet driver: transfers

    The receive, transmit and interrupt paths of
    [src/src/drivers/usb_ethernet.c], the throttle and the drain timer, one
    definition per function.  Statistics counters and debug output are left
    out.  A block of the receive buffer that reaches outside of it is a fault,
    whether or not the ring then has room for it. *)

From S2P Require Import Prelude MemState MemPressure MemBuffer EthRing EthState.

Section Driver.
Context (env : usb_env) (al : allocator).

(** ** Calls of the environment *)

Definition schedule_transfer (endpoint : Z) (x : xfer) (len : Z) : EM Z :=
  tr ← egets etrace;
  elog (T_schedule endpoint x len);;
  mret (u_schedule env tr).

(** [pbuf_alloc(PBUF_RAW, len, PBUF_RAM)] and [pbuf_free] of its result: one
    contiguous packet buffer, with its bytes. *)
Definition tx_pbuf_alloc (len : Z) : EM Z :=
  tr ← egets etrace;
  let p := u_pbuf env tr len in
  elog (T_pbuf_alloc len p);;
  whenE (negb (p =? 0)) (emodify (fun s => set_tx_pbufs (<[p := replicate (Z.to_nat len) 0]> (tx_pbufs s)) s));;
  mret p.
Definition tx_pbuf_fill (p : Z) (data : bytes) : EM unit :=
  emodify (fun s => set_tx_pbufs (<[p := data]> (tx_pbufs s)) s).
Definition tx_pbuf_free (p : Z) : EM unit :=
  live ← egets (fun s => tx_pbufs s !! p);
  _ ← orEBad EF_null live;
  emodify (fun s => set_tx_pbufs (delete p (tx_pbufs s)) s);;
  elog (T_pbuf_free p).

(** Link state and default interface, as lwIP keeps them. *)
Definition netif_set_link_up (p : Z) : EM unit :=
  upd_iface p (fun n => set_nif_flags (Z.lor (nif_flags n) NETIF_FLAG_LINK_UP) n).
Definition netif_set_link_down (p : Z) : EM unit :=
  upd_iface p (fun n => set_nif_flags (Z.land (nif_flags n) (255 - NETIF_FLAG_LINK_UP)) n).
Definition netif_set_up (p : Z) : EM unit :=
  upd_iface p (fun n => set_nif_flags (Z.lor (nif_flags n) NETIF_FLAG_UP) n).
Definition netif_set_down (p : Z) : EM unit :=
  upd_iface p (fun n => set_nif_flags (Z.land (nif_flags n) (255 - NETIF_FLAG_UP)) n).

(** ** Throttling *)

Definition eth_should_schedule_rx : EM bool :=
  l ← egets eth_throttle;
  mret (match l with MEM_PRESSURE_NONE | MEM_PRESSURE_MILD => true | _ => false end).

(** The interfaces the driver owns are called [en]. *)
Definition is_en (d : eth_device) : bool := bool_decide (nif_name (iface d) = (101, 110)).

Definition rx_length (d : eth_device) : Z :=
  if dev_type d =? USB_NCM_SUBCLASS then NCM_RX_NTB_MAX_SIZE else ETHERNET_MTU.

(** One turn of the loop of [eth_set_rx_throttle]. *)
Definition resume_rx (p : Z) : EM unit :=
  d ← get_dev p;
  match rx_callback d with
  | Some cb =>
      if is_en d && negb (rx_transfer_active d) then
        err ← schedule_transfer (rx_endpoint d) (X_rx p cb) (rx_length d);
        whenE (err =? 0) (upd_dev p (set_rx_transfer_active true))
      else mret tt
  | None => mret tt
  end.

Fixpoint resume_all (l : list Z) : EM unit :=
  match l with [] => mret tt | p :: l' => resume_rx p;; resume_all l' end.

Definition eth_set_rx_throttle (level : mem_pressure_level) : EM unit :=
  previous ← egets eth_throttle;
  emodify (set_eth_throttle level);;
  ok ← eth_should_schedule_rx;
  if ok || bool_decide (previous = MEM_PRESSURE_CRITICAL) then
    l ← egets netif_list; resume_all l
  else mret tt.

(** The name of [eth_set_rx_throttle] as a hook of the memory manager, and of
    [eth_rx_ring_drain] as a drain function. *)
Definition eth_hook : callback := 1%nat.
Definition eth_drain_fn : callback := 2%nat.

(** A call of the memory manager.  Its calls of the throttle hook reach the
    driver; the hook does not touch the memory manager, so it is run, for each
    call in order, when the operation has finished. *)
Fixpoint run_hooks (evs : list mem_event) : EM unit :=
  match evs with
  | [] => mret tt
  | E_hook cb l :: evs' => whenE (cb =? eth_hook)%nat (eth_set_rx_throttle l);; run_hooks evs'
  | _ :: evs' => run_hooks evs'
  end.
Definition mem_call {A} (c : MM A) : EM A := fun s =>
  match c (emem s) with
  | Ok a m =>
      let new := take (length (history m) - length (history (emem s))) (history m) in
      (run_hooks (reverse new);; mret a) (set_emem m s)
  | Bad f => EBad (EF_mem f)
  end.

Definition eth_register_pressure_hook : EM unit :=
  done ← egets hook_registered;
  whenE (negb done)
    (mem_call (mem_register_pressure_hook_eth_rx (Some eth_hook));;
     emodify (set_hook_registered true)).

Definition eth_set_rx_drain_interval_ms (interval_ms : Z) : EM unit :=
  emodify (set_drain_interval
    (if interval_ms =? 0 then ETH_RX_DRAIN_INTERVAL_MS else interval_ms)).

(** ** The drain timer *)

Definition deliver_frames (p : Z) (frames : list bytes) : EM unit :=
  emodify (fun s => set_etrace (reverse (T_input p <$> frames) ++ etrace s) s).

Definition drain_dev (p : Z) (budget : nat) : EM nat :=
  d ← get_dev p;
  if negb (is_en d) then mret 0%nat
  else if rx_ring d =? 0 then mret 0%nat
  else
    rb ← mem_call (get_mb (rx_ring d));
    match drain_fn rb with
    | None => mret 0%nat
    | Some _ =>
        tr ← egets etrace;
        frames ← mem_call (eth_rx_ring_drain al (u_chain env tr) (rx_ring d) 0 budget);
        deliver_frames p frames;;
        mret (length frames)
    end.

Fixpoint drain_all (l : list Z) (budget : nat) : EM unit :=
  match l with
  | [] => mret tt
  | p :: l' =>
      if (budget =? 0)%nat then mret tt
      else
        drained ← drain_dev p budget;
        drain_all l' (budget - Nat.min drained budget)
  end.

Definition eth_rx_drain_timer : EM unit :=
  level ← egets eth_throttle;
  l ← egets netif_list;
  drain_all l (eth_drain_budget level);;
  ms ← egets drain_interval;
  elog (T_timeout ms).

(** ** Errors *)

Inductive usb_ret := USB_SUCCESS | USB_ERROR_FAILED | USB_ERROR_NO_DEVICE.

(** [usb] is [dev->device]. *)
Definition eth_xmit_fatal_error (usb retries : Z) : EM bool :=
  if retries =? ETH_USB_MAX_RETRIES then
    elog (T_disable_device usb);;
    emodify (set_eth_disabled_with_error true);;
    mret true
  else mret false.

(** ** Interrupt endpoint *)

Definition NOTIFY_NETWORK_CONNECTION : Z := 0.

(** What a notification of the connection does. *)
Definition notify_connection (p : Z) (wValue : Z) : EM unit :=
  if negb (wValue =? 0) then
    netif_set_link_up p;;
    elog (T_dhcp_start p);;
    have ← egets default_netif_set;
    whenE (negb have)
      (emodify (set_netif_default p);; emodify (set_default_netif_set true))
  else
    netif_set_link_down p;;
    dflt ← egets netif_default;
    whenE (dflt =? p)
      (emodify (set_netif_default 0);; emodify (set_default_netif_set false)).

(** The do-while loop over the notifications of one transfer.  Every turn moves
    on by at least eight bytes, so [transferred] turns are enough. *)
Fixpoint notify_loop (fuel : nat) (p : Z) (ibuf : bytes) (bytes_parsed transferred : Z) : EM unit :=
  match fuel with
  | O => efail EF_fuel
  | S fuel' =>
      bm ← orEBad EF_bounds (le8 ibuf bytes_parsed);
      (if bm =? 0xA1 then
         req ← orEBad EF_bounds (le8 ibuf (bytes_parsed + 1));
         if req =? NOTIFY_NETWORK_CONNECTION then
           v ← orEBad EF_bounds (le16 ibuf (bytes_parsed + 2));
           notify_connection p v
         else mret tt
       else mret tt);;
      wLength ← orEBad EF_bounds (le16 ibuf (bytes_parsed + 6));
      let bytes_parsed := u24 (bytes_parsed + (8 + wLength)) in
      if bytes_parsed <? transferred then notify_loop fuel' p ibuf bytes_parsed transferred
      else mret tt
  end.

Definition interrupt_receive_callback (p status transferred : Z) : EM usb_ret :=
  d ← get_dev p;
  n ← egets int_retries;
  fatal ← (if negb (status =? 0) then
             fatal ← eth_xmit_fatal_error (dev_usb d) n;
             whenE (negb fatal) (emodify (set_int_retries (u8 (n + 1))));;
             mret fatal
           else if negb (transferred =? 0) then
             notify_loop (Z.to_nat transferred) p (int_buf d) 0 transferred;;
             emodify (set_int_retries 0);;
             mret false
           else mret false);
  if fatal : bool then mret USB_ERROR_FAILED
  else
    _ ← schedule_transfer (int_endpoint d) (X_int p) INTERRUPT_RX_MAX;
    mret USB_SUCCESS.

(** ** Transmission *)

(** The callback's [data] is the packet buffer, and the code also reads it as
    an [eth_device_t]: [dev->device] is the first member of the packet buffer,
    the null [next] of a single buffer, and [dev->tx.endpoint] lies outside of
    it. *)
Definition bulk_transmit_callback (status data : Z) : EM usb_ret :=
  n ← egets tx_retries;
  if negb (status =? 0) then
    live ← egets (fun s => tx_pbufs s !! data);
    _ ← orEBad EF_null live;
    fatal ← eth_xmit_fatal_error 0 n;
    if fatal : bool then
      tx_pbuf_free data;;
      emodify (set_tx_retries 0);;
      mret USB_ERROR_FAILED
    else
      emodify (set_tx_retries (u8 (n + 1)));;
      efail EF_bounds
  else
    emodify (set_tx_retries 0);;
    whenE (negb (data =? 0)) (tx_pbuf_free data);;
    mret USB_SUCCESS.

Definition ERR_OK_ : Z := 0.
Definition ERR_MEM_ : Z := -1.

(** [payload] is what the packet buffer chain holds, [tot_len] bytes. *)
Definition ecm_bulk_transmit (p : Z) (payload : bytes) : EM Z :=
  d ← get_dev p;
  let tot_len := Z.of_nat (length payload) in
  if ETHERNET_MTU <? tot_len then mret ERR_MEM_
  else
    tbuf ← tx_pbuf_alloc tot_len;
    if tbuf =? 0 then mret ERR_MEM_
    else
      tx_pbuf_fill tbuf payload;;
      _ ← schedule_transfer (tx_endpoint d) (X_tx tbuf payload) tot_len;
      mret ERR_OK_.

(** ** NCM transfer blocks *)

Definition NCM_NTH_SIG : Z := 0x484D434E.
Definition NCM_NDP_SIG0 : Z := 0x304D434E.
Definition NCM_NTH_LEN : Z := 12.
Definition NCM_NDP_LEN : Z := 12.
Definition NCM_HBUF_SIZE : Z := 64.

Definition b16 (v : Z) : bytes := [v mod 256; v / 256 mod 256].
Definition b32 (v : Z) : bytes := b16 (v mod 65536) ++ b16 (v / 65536).

(** [get_next_offset]; [None] is a division by zero. *)
Definition get_next_offset (offset divisor remainder : Z) : option Z :=
  if divisor =? 0 then None
  else Some (offset + divisor - offset mod divisor + remainder).

(** [wNdpInAlignment] of the parameters the device sent. *)
Definition wNdpInAlignment (d : eth_device) : option Z := le16 (ntb_params d) 12.

Definition ncm_nth (sequence block_length ndp_index : Z) : bytes :=
  b32 NCM_NTH_SIG ++ b16 NCM_NTH_LEN ++ b16 sequence ++ b16 block_length ++ b16 ndp_index.
Definition ncm_ndp (len : Z) : bytes :=
  b32 NCM_NDP_SIG0 ++ b16 (NCM_NDP_LEN + 4) ++ b16 0 ++
  b16 NCM_HBUF_SIZE ++ b16 len ++ b16 0 ++ b16 0.

(** [hdr_buf] with both structures written to it; the second write must stay
    inside. *)
Definition ncm_header (sequence tot_len offset_ndp : Z) : option bytes :=
  if in_bounds (replicate (Z.to_nat NCM_HBUF_SIZE) 0) offset_ndp (Z.of_nat (length (ncm_ndp tot_len))) then
    Some (splice (splice (replicate (Z.to_nat NCM_HBUF_SIZE) 0) 0
                    (ncm_nth sequence (NCM_HBUF_SIZE + tot_len) offset_ndp))
            offset_ndp (ncm_ndp tot_len))
  else None.

Definition ncm_bulk_transmit (p : Z) (payload : bytes) : EM Z :=
  d ← get_dev p;
  align ← orEBad EF_bounds (wNdpInAlignment d);
  off ← orEBad EF_div (get_next_offset NCM_NTH_LEN align 0);
  let offset_ndp := u16 off in
  let tot_len := Z.of_nat (length payload) in
  if ETHERNET_MTU <? tot_len then mret ERR_MEM_
  else
    obuf ← tx_pbuf_alloc (NCM_HBUF_SIZE + tot_len);
    if obuf =? 0 then mret ERR_MEM_
    else
      let sequence := ncm_sequence d in
      upd_dev p (set_ncm_sequence (u16 (sequence + 1)));;
      hdr ← orEBad EF_bounds (ncm_header sequence tot_len offset_ndp);
      tx_pbuf_fill obuf (hdr ++ payload);;
      _ ← schedule_transfer (tx_endpoint d) (X_tx obuf (hdr ++ payload)) (NCM_HBUF_SIZE + tot_len);
      mret ERR_OK_.

(** ** Reception *)

(** The next receive transfer, if the throttle allows it. *)
Definition schedule_rx (p : Z) (len : Z) : EM unit :=
  ok ← eth_should_schedule_rx;
  if ok : bool then
    d ← get_dev p;
    cb ← orEBad EF_null (rx_callback d);
    _ ← schedule_transfer (rx_endpoint d) (X_rx p cb) len;
    upd_dev p (set_rx_transfer_active true)
  else mret tt.

(** [eth_ring_push_frame(dev, &buf[off], len)] *)
Definition push_from (p : Z) (buf : bytes) (off len : Z) : EM bool :=
  d ← get_dev p;
  if in_bounds buf off len then mem_call (eth_ring_push_frame al (rx_ring d) (Some (slice buf off len)))
  else efail EF_bounds.

Definition ecm_receive_callback (p status transferred : Z) : EM usb_ret :=
  d ← get_dev p;
  upd_dev p (set_rx_transfer_active false);;
  n ← egets ecm_rx_retries;
  if negb (status =? 0) then
    fatal ← eth_xmit_fatal_error (dev_usb d) n;
    if fatal : bool then mret USB_ERROR_FAILED
    else
      emodify (set_ecm_rx_retries (u8 (n + 1)));;
      schedule_rx p ETHERNET_MTU;;
      mret USB_SUCCESS
  else if negb (transferred =? 0) then
    emodify (set_ecm_rx_retries 0);;
    pushed ← push_from p (rx_buf d) 0 (u16 transferred);
    whenE pushed (schedule_rx p ETHERNET_MTU);;
    mret USB_SUCCESS
  else mret USB_SUCCESS.

(** The datagrams of one pointer table, whose entries start at [idx]: false
    when one was refused. *)
Fixpoint ncm_datagrams (fuel : nat) (p : Z) (ntb : bytes) (idx dg_num : Z) : EM bool :=
  match fuel with
  | O => efail EF_fuel
  | S fuel' =>
      i ← orEBad EF_bounds (le16 ntb (idx + 4 * dg_num));
      n ← orEBad EF_bounds (le16 ntb (idx + 4 * dg_num + 2));
      ok ← push_from p ntb i n;
      if negb ok then mret false
      else
        let dg_num := u16 (dg_num + 1) in
        i ← orEBad EF_bounds (le16 ntb (idx + 4 * dg_num));
        if i =? 0 then mret true
        else
          n ← orEBad EF_bounds (le16 ntb (idx + 4 * dg_num + 2));
          if n =? 0 then mret true
          else ncm_datagrams fuel' p ntb idx dg_num
  end.

(** The tables of one block; false when the block is malformed, and the
    callback returns at once. *)
Fixpoint ncm_tables (fuel : nat) (p : Z) (ntb : bytes) (ndp : Z) : EM bool :=
  match fuel with
  | O => efail EF_fuel
  | S fuel' =>
      sig ← orEBad EF_bounds (le32 ntb ndp);
      if negb (sig =? NCM_NDP_SIG0) then mret false
      else
        parse_ntb ← ncm_datagrams fuel' p ntb (ndp + 8) 0;
        next ← orEBad EF_bounds (le16 ntb (ndp + 6));
        if next =? 0 then mret true
        else if parse_ntb : bool then ncm_tables fuel' p ntb next
        else mret true
  end.

(** Every turn of either loop but the last queues a frame of at least three
    bytes in a ring of at most [ETH_RX_RING_MAX_SIZE]. *)
Definition ncm_fuel : nat := 700.

Definition ncm_receive_callback (p status transferred : Z) : EM usb_ret :=
  d ← get_dev p;
  upd_dev p (set_rx_transfer_active false);;
  n ← egets ncm_rx_retries;
  if negb (status =? 0) then
    fatal ← eth_xmit_fatal_error (dev_usb d) n;
    if fatal : bool then
      tx_pbuf_free p;;
      mret USB_ERROR_FAILED
    else
      emodify (set_ncm_rx_retries (u8 (n + 1)));;
      schedule_rx p NCM_RX_NTB_MAX_SIZE;;
      mret USB_SUCCESS
  else if negb (transferred =? 0) then
    emodify (set_ncm_rx_retries 0);;
    let ntb := rx_buf d in
    sig ← orEBad EF_bounds (le32 ntb 0);
    if negb (sig =? NCM_NTH_SIG) then mret USB_SUCCESS
    else
      ndp ← orEBad EF_bounds (le16 ntb 10);
      ok ← ncm_tables ncm_fuel p ntb ndp;
      if negb ok then mret USB_SUCCESS
      else
        schedule_rx p NCM_RX_NTB_MAX_SIZE;;
        mret USB_SUCCESS
  else mret USB_SUCCESS.

End Driver.
