(* ===== verification/EthInit.v ===== *)
(** * The USB ethernet driver: devices coming and going

    The descriptor parser of [init_ethernet_usb_device], the set-up of an
    interface and [eth_usb_event_callback], of
    [src/src/drivers/usb_ethernet.c].  The layout of descriptors and the
    constants are those of the USB and CDC standards.  Bytes of the descriptor
    buffer past what the device sent are indeterminate: reading one is a
    fault. *)

From S2P Require Import Prelude MemState MemPressure MemBuffer EthRing EthState EthDriver.

(** ** Constants *)

Definition DESCRIPTOR_MAX_LEN : Z := 256.
Definition USB_DEVICE_DESCRIPTOR : Z := 1.
Definition USB_CONFIGURATION_DESCRIPTOR : Z := 2.
Definition USB_INTERFACE_DESCRIPTOR : Z := 4.
Definition USB_ENDPOINT_DESCRIPTOR : Z := 5.
Definition USB_CS_INTERFACE_DESCRIPTOR : Z := 0x24.
Definition USB_UNION_FUNCTIONAL_DESCRIPTOR : Z := 0x06.
Definition USB_ETHERNET_FUNCTIONAL_DESCRIPTOR : Z := 0x0F.
Definition USB_NCM_FUNCTIONAL_DESCRIPTOR : Z := 0x1A.
Definition USB_INTERFACE_SPECIFIC_CLASS : Z := 0.
Definition USB_COMM_CLASS : Z := 2.
Definition USB_CDC_DATA_CLASS : Z := 0x0A.
Definition USB_DEVICE_TO_HOST : Z := 0x80.
Definition NETIFS_MAX_ALLOWED : Z := 8.

(** Request codes. *)
Definition REQUEST_SET_ETHERNET_PACKET_FILTER : Z := 0x43.
Definition REQUEST_GET_NTB_PARAMETERS : Z := 0x80.
Definition REQUEST_GET_NET_ADDRESS : Z := 0x81.
Definition REQUEST_SET_NET_ADDRESS : Z := 0x82.
Definition REQUEST_SET_NTB_INPUT_SIZE : Z := 0x86.

(** The parser's await states, bits of [parse_state]. *)
Definition PARSE_HAS_CONTROL_IF : Z := 1.
Definition PARSE_HAS_MAC_ADDR : Z := 2.
Definition PARSE_HAS_BULK_IF_NUM : Z := 4.
Definition PARSE_HAS_BULK_IF : Z := 8.
Definition PARSE_HAS_ENDPOINT_INT : Z := 16.
Definition PARSE_HAS_ENDPOINT_IN : Z := 32.
Definition PARSE_HAS_ENDPOINT_OUT : Z := 64.

Definition has (state bit : Z) : bool := negb (Z.land state bit =? 0).

(** ** Hardware addresses *)

(** A UTF-16 hexadecimal digit; 255 when it is none. *)
Definition nibble (c : Z) : Z :=
  let c := u16 (c - 48) in
  if c <? 10 then c
  else
    let c := u16 (c - 17) in
    if c <? 6 then c + 10
    else
      let c := u16 (c - 32) in
      if c <? 6 then c + 10 else 0xff.

(** The address in a string descriptor: six pairs of digits after its two-byte
    header. *)
Definition mac_byte (str : bytes) (i : Z) : option Z :=
  hi ← le16 str (2 + 2 * (2 * i));
  lo ← le16 str (2 + 2 * (2 * i + 1));
  Some (u8 (Z.lor (Z.shiftl (nibble hi) 4) (nibble lo))).
Definition mac_of_string (str : bytes) : option bytes :=
  mapM (mac_byte str) [0; 1; 2; 3; 4; 5].

(** Two 24-bit random numbers as a locally administered unicast address. *)
Definition b24 (v : Z) : bytes := [v mod 256; v / 256 mod 256; v / 65536 mod 256].
Definition random_mac (r0 r1 : Z) : bytes :=
  match b24 (Z.land r0 0xFFFFFF) ++ b24 (Z.land r1 0xFFFFFF) with
  | x :: l => Z.lor (Z.land x 0xFE) 0x02 :: l
  | [] => []
  end.

Section Init.
Context (env : usb_env) (al : allocator).

Definition control_transfer (request value len : Z) : EM (Z * bytes) :=
  tr ← egets etrace;
  elog (T_control request value len);;
  mret (u_control env tr).

(** ** NCM set-up *)

(** [ncm_device_supports] *)
Definition ncm_device_supports (d : eth_device) (bm : Z) : bool :=
  negb (Z.land (Z.shiftr (bm_capabilities d) bm) 1 =? 0).

(** The bytes of a transfer in land at the start of the buffer. *)
Definition overwrite (old new : bytes) : bytes := new ++ drop (length new) old.

Definition ncm_control_setup (d : eth_device) : EM (Z * eth_device) :=
  if negb (dev_type d =? USB_NCM_SUBCLASS) then mret (0, d)
  else
    r1 ← control_transfer REQUEST_GET_NTB_PARAMETERS 0 0x1c;
    let d := set_ntb_params (overwrite (ntb_params d) (take 28 r1.2)) d in
    r2 ← control_transfer REQUEST_SET_NTB_INPUT_SIZE 0 (if ncm_device_supports d 4 then 8 else 4);
    r3 ← (if ncm_device_supports d 0 then control_transfer REQUEST_SET_ETHERNET_PACKET_FILTER 1 0
          else mret (0, []));
    mret (Z.lor (Z.lor r1.1 r2.1) r3.1, d).

(** ** The interface *)

Definition eth_netif_init (p : Z) : EM unit :=
  upd_dev p (fun d =>
    set_iface
      (set_nif_hwaddr (dev_hwaddr d)
        (set_nif_flags (Z.lor (Z.lor (Z.lor (Z.lor NETIF_FLAG_BROADCAST NETIF_FLAG_ETHARP)
                                NETIF_FLAG_ETHERNET) NETIF_FLAG_IGMP) NETIF_FLAG_MLD6)
          (set_nif_mtu ETHERNET_MTU
            (set_nif_linkoutput (tx_emit d) (iface d))))) d).

(** lwIP runs the initialisation and puts the interface in front of its list;
    the initialisation always succeeds. *)
Definition netif_add_noaddr (p : Z) : EM bool :=
  eth_netif_init p;;
  emodify (fun s => set_netif_list (p :: netif_list s) s);;
  mret true.
Definition netif_remove (p : Z) : EM unit :=
  emodify (fun s =>
    let s := set_netif_list (filter (fun q => q <> p) (netif_list s)) s in
    if netif_default s =? p then set_netif_default 0 s else s).

(** ** The descriptor parser *)

Record parser := mk_parser {
  ps_state : Z;               (** [parse_state] *)
  ps_ifnum : Z;               (** [ifnum] *)
  ps_dev : eth_device;        (** [tmp] *)
  ps_in : option Z;           (** [endpoint_addr], [None] while not assigned *)
  ps_out : option Z;
  ps_int : option Z;
  ps_bulk : option Z          (** [if_bulk.len] *)
}.

Definition ps_set (bit : Z) (s : parser) : parser :=
  mk_parser (Z.lor (ps_state s) bit) (ps_ifnum s) (ps_dev s) (ps_in s) (ps_out s) (ps_int s) (ps_bulk s).
Definition ps_with_dev (f : eth_device -> eth_device) (s : parser) : parser :=
  mk_parser (ps_state s) (ps_ifnum s) (f (ps_dev s)) (ps_in s) (ps_out s) (ps_int s) (ps_bulk s).

Definition ps_complete (s : parser) : bool :=
  has (ps_state s) PARSE_HAS_ENDPOINT_IN && has (ps_state s) PARSE_HAS_ENDPOINT_OUT &&
  has (ps_state s) PARSE_HAS_ENDPOINT_INT && has (ps_state s) PARSE_HAS_MAC_ADDR.

(** How a descriptor leaves the parser: it goes on, it has what it needs, or
    the device is given up. *)
Inductive parsed := P_next (s : parser) | P_done (s : parser) | P_fail.

Definition parse_endpoint (addr : Z) (s : parser) : parsed :=
  if has (ps_state s) PARSE_HAS_BULK_IF then
    let s :=
      if has addr USB_DEVICE_TO_HOST then
        ps_set PARSE_HAS_ENDPOINT_IN
          (mk_parser (ps_state s) (ps_ifnum s) (ps_dev s) (Some addr) (ps_out s) (ps_int s) (ps_bulk s))
      else
        ps_set PARSE_HAS_ENDPOINT_OUT
          (mk_parser (ps_state s) (ps_ifnum s) (ps_dev s) (ps_in s) (Some addr) (ps_int s) (ps_bulk s)) in
    if ps_complete s then P_done s else P_next s
  else if has (ps_state s) PARSE_HAS_CONTROL_IF then
    P_next (ps_set PARSE_HAS_ENDPOINT_INT
      (mk_parser (ps_state s) (ps_ifnum s) (ps_dev s) (ps_in s) (ps_out s) (Some addr) (ps_bulk s)))
  else P_next s.

(** Is the interface descriptor at [off] the data interface that is looked
    for; and the subclass of a control interface.  The conditions are read from
    left to right. *)
Definition is_bulk (buf : bytes) (off ifnum : Z) : option bool :=
  number ← le8 buf (off + 2);
  if negb (number =? ifnum) then Some false
  else
    endpoints ← le8 buf (off + 4);
    if negb (endpoints =? 2) then Some false
    else class ← le8 buf (off + 5); Some (class =? USB_CDC_DATA_CLASS).
Definition control_subclass (buf : bytes) (off : Z) : option (option Z) :=
  class ← le8 buf (off + 5);
  if negb (class =? USB_COMM_CLASS) then Some None
  else
    subclass ← le8 buf (off + 6);
    Some (if (subclass =? USB_ECM_SUBCLASS) || (subclass =? USB_NCM_SUBCLASS)
          then Some subclass else None).

Definition parse_interface (buf : bytes) (desc_len off : Z) (s : parser) : EM parsed :=
  if has (ps_state s) PARSE_HAS_BULK_IF_NUM then
    bulk ← orEBad EF_bounds (is_bulk buf off (ps_ifnum s));
    if bulk : bool then
      mret (P_next (ps_set PARSE_HAS_BULK_IF
        (mk_parser (ps_state s) (ps_ifnum s) (ps_dev s) (ps_in s) (ps_out s) (ps_int s)
           (Some (desc_len - off)))))
    else mret (P_next s)
  else
    let s := mk_parser 0 (ps_ifnum s) (ps_dev s) (ps_in s) (ps_out s) (ps_int s) (ps_bulk s) in
    c ← orEBad EF_bounds (control_subclass buf off);
    match c with
    | Some subclass =>
        let s := ps_with_dev (set_dev_type subclass) s in
        tr ← egets etrace;
        elog (T_set_configuration desc_len);;
        if negb (u_set_configuration env tr =? 0) then mret P_fail
        else mret (P_next (ps_set PARSE_HAS_CONTROL_IF s))
    | None => mret (P_next s)
    end.

(** [string_descriptor_buf]: the bytes of the string over what the array held;
    the number of bytes transferred is not looked at. *)
Definition string_descriptor_buf (tr : list eth_event) : bytes :=
  let size := Z.to_nat DESCRIPTOR_MAX_LEN in
  overwrite (u_stack env tr <$> seq 0 size) (take size (u_string env tr).2).

(** The three ways to a hardware address. *)
Definition parse_ethernet (iMacAddress : Z) (s : parser) : EM parser :=
  r ← (if iMacAddress =? 0 then mret (1, [])
       else tr ← egets etrace; elog (T_string iMacAddress);; mret ((u_string env tr).1, string_descriptor_buf tr));
  if r.1 =? 0 then
    mac ← orEBad EF_bounds (mac_of_string r.2);
    mret (ps_set PARSE_HAS_MAC_ADDR (ps_with_dev (set_dev_hwaddr mac) s))
  else
    g ← control_transfer REQUEST_GET_NET_ADDRESS 0 6;
    if g.1 =? 0 then
      mret (ps_set PARSE_HAS_MAC_ADDR
        (ps_with_dev (fun d => set_dev_hwaddr (overwrite (dev_hwaddr d) (take 6 g.2)) d) s))
    else
      tr ← egets etrace; elog T_random;; let r0 := u_random env tr in
      tr ← egets etrace; elog T_random;; let r1 := u_random env tr in
      let s := ps_with_dev (set_dev_hwaddr (random_mac r0 r1)) s in
      g ← control_transfer REQUEST_SET_NET_ADDRESS 0 6;
      mret (if g.1 =? 0 then ps_set PARSE_HAS_MAC_ADDR s else s).

Definition parse_cs (buf : bytes) (off : Z) (s : parser) : EM parser :=
  sub ← orEBad EF_bounds (le8 buf (off + 2));
  if sub =? USB_ETHERNET_FUNCTIONAL_DESCRIPTOR then
    i ← orEBad EF_bounds (le8 buf (off + 3));
    parse_ethernet i s
  else if sub =? USB_UNION_FUNCTIONAL_DESCRIPTOR then
    n ← orEBad EF_bounds (le8 buf (off + 4));
    mret (ps_set PARSE_HAS_BULK_IF_NUM
      (mk_parser (ps_state s) n (ps_dev s) (ps_in s) (ps_out s) (ps_int s) (ps_bulk s)))
  else if sub =? USB_NCM_FUNCTIONAL_DESCRIPTOR then
    c ← orEBad EF_bounds (le8 buf (off + 5));
    mret (ps_with_dev (set_bm_capabilities c) s)
  else mret s.

(** The body of the switch, for the descriptor at [off]. *)
Definition parse_one (buf : bytes) (desc_len off : Z) (s : parser) : EM parsed :=
  type ← orEBad EF_bounds (le8 buf (off + 1));
  if type =? USB_ENDPOINT_DESCRIPTOR then
    if has (ps_state s) PARSE_HAS_BULK_IF || has (ps_state s) PARSE_HAS_CONTROL_IF then
      addr ← orEBad EF_bounds (le8 buf (off + 2));
      mret (parse_endpoint addr s)
    else mret (P_next s)
  else if type =? USB_INTERFACE_DESCRIPTOR then
    parse_interface buf desc_len off s
  else if type =? USB_CS_INTERFACE_DESCRIPTOR then
    s ← parse_cs buf off s; mret (P_next s)
  else mret (P_next s).

(** The while loop over the descriptors of a configuration.  A descriptor of
    length zero makes the loop stand still. *)
Fixpoint parse_loop (fuel : nat) (buf : bytes) (desc_len parsed_len : Z) (s : parser) : EM parsed :=
  if parsed_len <? desc_len then
    match fuel with
    | O => efail EF_fuel
    | S fuel' =>
        r ← parse_one buf desc_len parsed_len s;
        match r with
        | P_next s =>
            n ← orEBad EF_bounds (le8 buf parsed_len);
            parse_loop fuel' buf desc_len (parsed_len + n) s
        | r => mret r
        end
    end
  else mret (P_next s).

(** The loop over the configurations. *)
Fixpoint parse_configs (n : nat) (config : Z) (s : parser) : EM parsed :=
  match n with
  | O => mret P_fail
  | S n' =>
      tr ← egets etrace;
      let desc_len := u_config_len env tr config in
      let s := mk_parser 0 0 (ps_dev s) (ps_in s) (ps_out s) (ps_int s) (ps_bulk s) in
      if DESCRIPTOR_MAX_LEN <? desc_len then parse_configs n' (config + 1) s
      else
        elog (T_descriptor USB_CONFIGURATION_DESCRIPTOR config);;
        let r := u_descriptor env tr in
        if negb (r.1 =? 0) || negb (Z.of_nat (length r.2) =? desc_len) then
          parse_configs n' (config + 1) s
        else
          o ← parse_loop (Z.to_nat desc_len) r.2 desc_len 0 s;
          match o with
          | P_next s => parse_configs n' (config + 1) s
          | o => mret o
          end
  end.

(** ** Set-up of a device *)

(** The lowest interface number in use by no interface. *)
Fixpoint free_ifnum (used : Z) (i : Z) (n : nat) : Z :=
  match n with
  | O => i
  | S n' => if Z.testbit used i then free_ifnum used (i + 1) n' else i
  end.

Definition blank_netif : netif := mk_netif (0, 0) 0 [] 0 0 None.
Definition blank_dev (usb : Z) : eth_device :=
  mk_dev usb 0 (replicate 6 0) false 0 0 None (replicate 2048 0) 0 None 0 (replicate 64 0) 0 0
    (replicate 28 0) blank_netif.

(** The device that is already known, or a new one: its address, 0 when it
    cannot be had. *)
Definition attach (usb : Z) (tmp : eth_device) : EM Z :=
  used ← egets ifnums_used;
  let num := free_ifnum used 0 (Z.to_nat NETIFS_MAX_ALLOWED) in
  data ← egets (fun s => dev_data s !! usb);
  match data with
  | Some p =>
      upd_dev p (fun old => set_rx_ring (rx_ring old) (set_iface (iface old) tmp));;
      eth_netif_init p;;
      mret p
  | None =>
      tr ← egets etrace;
      let p := u_malloc env tr in
      elog (T_malloc p);;
      if p =? 0 then mret 0
      else
        emodify (fun s => set_devs (<[p := tmp]> (devs s)) s);;
        ok ← netif_add_noaddr p;
        if negb ok then
          emodify (fun s => set_devs (delete p (devs s)) s);; elog (T_free p);; mret 0
        else
          emodify (fun s => set_dev_data (<[usb := p]> (dev_data s)) s);;
          upd_iface p (fun n => set_nif_num num (set_nif_name (101, 110) n));;
          emodify (fun s => set_ifnums_used (u8 (Z.lor (ifnums_used s) (Z.shiftl 1 num))) s);;
          mret p
  end.

(** The receive ring of a device, made when it has none. *)
Definition attach_ring (p : Z) : EM bool :=
  d ← get_dev p;
  if rx_ring d =? 0 then
    rb ← mem_call env (mem_buffer_create al ETH_RX_RING_INIT_SIZE ETH_RX_RING_MAX_SIZE 0 0 None);
    upd_dev p (set_rx_ring rb);;
    if rb =? 0 then mret false
    else
      mem_call env (mem_buffer_set_owner rb MEM_BUF_OWNER_ETH_RX);;
      mem_call env (mem_buffer_set_drain rb (Some eth_drain_fn) p);;
      mem_call env (mem_buffer_set_grow rb 85 ETH_RX_RING_STEP_SIZE);;
      mem_call env (mem_buffer_set_shrink rb 30 ETH_RX_RING_STEP_SIZE);;
      mret true
  else mret true.

(** After [init_success]. *)
Definition init_success (usb : Z) (s : parser) : EM bool :=
  r ← ncm_control_setup (ps_dev s);
  if negb (r.1 =? 0) then mret false
  else
    let tmp := r.2 in
    let ncm := dev_type tmp =? USB_NCM_SUBCLASS in
    let ecm := dev_type tmp =? USB_ECM_SUBCLASS in
    let tmp := set_rx_callback (if ncm then Some ncm_receive_cb else if ecm then Some ecm_receive_cb else None) tmp in
    let tmp := set_tx_emit (if ncm then Some ncm_transmit_fn else if ecm then Some ecm_transmit_fn else None) tmp in
    if negb ncm && negb ecm then mret false
    else
      left ← orEBad EF_bounds (ps_bulk s);
      tr ← egets etrace;
      elog (T_set_interface left);;
      if negb (u_set_interface env tr =? 0) then mret false
      else
        i ← orEBad EF_bounds (ps_in s);
        o ← orEBad EF_bounds (ps_out s);
        n ← orEBad EF_bounds (ps_int s);
        let tmp := set_int_endpoint (u_endpoint env usb n)
                     (set_tx_endpoint (u_endpoint env usb o)
                       (set_rx_endpoint (u_endpoint env usb i) tmp)) in
        p ← attach usb tmp;
        if p =? 0 then mret false
        else
          ok ← attach_ring p;
          if negb ok then mret false
          else
            sched ← egets drain_scheduled;
            ms ← egets drain_interval;
            whenE (negb sched) (elog (T_timeout ms);; emodify (set_drain_scheduled true));;
            eth_register_pressure_hook env;;
            netif_set_up p;;
            d ← get_dev p;
            _ ← schedule_transfer env (int_endpoint d) (X_int p) INTERRUPT_RX_MAX;
            schedule_rx env p (rx_length tmp);;
            mret true.

Definition init_ethernet_usb_device (usb : Z) : EM bool :=
  used ← egets ifnums_used;
  if used =? 255 then mret false
  else
    tr ← egets etrace;
    elog (T_descriptor USB_DEVICE_DESCRIPTOR 0);;
    let r := u_descriptor env tr in
    if negb (r.1 =? 0) || negb (Z.of_nat (length r.2) =? 18) then mret false
    else
      class ← orEBad EF_bounds (le8 r.2 4);
      if negb (class =? USB_INTERFACE_SPECIFIC_CLASS) then mret false
      else
        num_configs ← orEBad EF_bounds (le8 r.2 17);
        o ← parse_configs (Z.to_nat num_configs) 0 (mk_parser 0 0 (blank_dev usb) None None None None);
        match o with
        | P_done s => init_success usb s
        | _ => mret false
        end.

(** ** Events of the bus *)

Inductive usb_event :=
| USB_DEVICE_CONNECTED_EVENT
| USB_DEVICE_ENABLED_EVENT
| USB_DEVICE_DISCONNECTED_EVENT
| USB_DEVICE_DISABLED_EVENT
| USB_HOST_PORT_CONNECT_STATUS_CHANGE_INTERRUPT
| USB_OTHER_EVENT.

(** A device is gone or disabled.  The interface is taken down before the
    pointer is tested. *)
Definition detach (usb : Z) : EM unit :=
  data ← egets (fun s => dev_data s !! usb);
  p ← orEBad EF_null data;
  netif_set_link_down p;;
  netif_set_down p;;
  failed ← egets eth_disabled_with_error;
  if failed : bool then
    elog (T_reset_device usb);;
    emodify (set_eth_disabled_with_error false)
  else
    d ← get_dev p;
    emodify (fun s => set_ifnums_used (Z.land (ifnums_used s) (255 - u8 (Z.shiftl 1 (nif_num (iface d))))) s);;
    netif_remove p;;
    whenE (negb (rx_ring d =? 0))
      (mem_call env (mem_buffer_destroy al (rx_ring d));; upd_dev p (set_rx_ring 0));;
    emodify (fun s => set_devs (delete p (devs s)) s);;
    elog (T_free p);;
    emodify (fun s => set_dev_data (delete usb (dev_data s)) s).

Definition eth_usb_event_callback (event : usb_event) (usb : Z) : EM usb_ret :=
  tr ← egets etrace;
  match event with
  | USB_DEVICE_CONNECTED_EVENT =>
      whenE (negb (u_role_device env tr)) (elog (T_reset_device usb));;
      mret USB_SUCCESS
  | USB_DEVICE_ENABLED_EVENT =>
      if u_is_hub env tr then
        let desc_len := u_config_len env tr 0 in
        elog (T_descriptor USB_CONFIGURATION_DESCRIPTOR 0);;
        let xferd := Z.of_nat (length (u_descriptor env tr).2) in
        if DESCRIPTOR_MAX_LEN <? xferd then efail EF_bounds
        else
          whenE (xferd =? desc_len) (elog (T_set_configuration desc_len));;
          mret USB_SUCCESS
      else
        _ ← init_ethernet_usb_device usb;
        mret USB_SUCCESS
  | USB_DEVICE_DISCONNECTED_EVENT | USB_DEVICE_DISABLED_EVENT =>
      detach usb;; mret USB_SUCCESS
  | USB_HOST_PORT_CONNECT_STATUS_CHANGE_INTERRUPT => mret USB_ERROR_NO_DEVICE
  | USB_OTHER_EVENT => mret USB_SUCCESS
  end.

Definition eth_get_interfaces : EM Z := egets ifnums_used.

End Init.
