(* ===== verification/EthLogic.v ===== *)
(** * The USB ethernet driver: a program logic

    Weakest preconditions of the driver's monad, with the faults one is ready
    to accept, and what the throttle hook leaves alone: it changes the
    throttle level, the history and the flag that marks a receive transfer,
    nothing else. *)

From S2P Require Import Prelude MemState MemPressure MemBuffer MemLogic RingQueue RingCorrect MemSamples EthRing EthState EthDriver EthInit.

(** ** Weakest preconditions *)

Definition ewp {A} (F : eth_fault -> Prop) (c : EM A) (s : eth_state)
    (Q : A -> eth_state -> Prop) : Prop :=
  match c s with EOk a s' => Q a s' | EBad f => F f end.

Section Rules.
Context (F : eth_fault -> Prop).

Lemma ewp_ret {A} (a : A) s (Q : A -> eth_state -> Prop) : Q a s -> ewp F (mret a) s Q.
Proof. done. Qed.

Lemma ewp_bind {A B} (c : EM A) (k : A -> EM B) s (Q : B -> eth_state -> Prop) :
  ewp F c s (fun a s' => ewp F (k a) s' Q) -> ewp F (c ≫= k) s Q.
Proof. unfold ewp, mbind, EM_bind. by destruct (c s). Qed.

Lemma ewp_mono {A} (c : EM A) s (P Q : A -> eth_state -> Prop) :
  ewp F c s P -> (forall a s', P a s' -> Q a s') -> ewp F c s Q.
Proof. unfold ewp. destruct (c s); eauto. Qed.

Lemma ewp_gets {A} (f : eth_state -> A) s (Q : A -> eth_state -> Prop) :
  Q (f s) s -> ewp F (egets f) s Q.
Proof. done. Qed.

Lemma ewp_modify f s (Q : unit -> eth_state -> Prop) : Q tt (f s) -> ewp F (emodify f) s Q.
Proof. done. Qed.

Lemma ewp_log e s (Q : unit -> eth_state -> Prop) :
  Q tt (set_etrace (e :: etrace s) s) -> ewp F (elog e) s Q.
Proof. done. Qed.

Lemma ewp_get_dev p d s (Q : eth_device -> eth_state -> Prop) :
  devs s !! p = Some d -> Q d s -> ewp F (get_dev p) s Q.
Proof. intros Hd HQ. unfold ewp, get_dev. by rewrite Hd. Qed.

Lemma ewp_upd_dev p d f s (Q : unit -> eth_state -> Prop) :
  devs s !! p = Some d -> Q tt (set_devs (<[p := f d]> (devs s)) s) -> ewp F (upd_dev p f) s Q.
Proof. intros Hd HQ. apply ewp_bind. eapply ewp_get_dev; [exact Hd|]. done. Qed.

Lemma ewp_some {A} f (a : A) s (Q : A -> eth_state -> Prop) :
  Q a s -> ewp F (orEBad f (Some a)) s Q.
Proof. done. Qed.

Lemma ewp_option {A} f (o : option A) s (Q : A -> eth_state -> Prop) :
  F f -> (forall a, o = Some a -> Q a s) -> ewp F (orEBad f o) s Q.
Proof. intros Hf HQ. destruct o; [by apply HQ|done]. Qed.

Lemma ewp_when c k s (Q : unit -> eth_state -> Prop) :
  (c = true -> ewp F k s Q) -> (c = false -> Q tt s) -> ewp F (whenE c k) s Q.
Proof. destruct c; intros H1 H2; [by apply H1|by apply H2]. Qed.
End Rules.

(** The result of a run whose weakest precondition accepts no fault. *)
Lemma ewp_run {A} (c : EM A) s (Q : A -> eth_state -> Prop) :
  ewp (fun _ => False) c s Q -> exists a s', c s = EOk a s' /\ Q a s'.
Proof. unfold ewp. destruct (c s) as [a s'|]; [eauto|done]. Qed.

(** One step through the program at the head of the goal. *)
Ltac ewp_step :=
  lazymatch goal with
  | |- ewp _ (_ ≫= _) _ _ => apply ewp_bind
  | |- ewp _ (mret _) _ _ => apply ewp_ret
  | |- ewp _ (egets _) _ _ => apply ewp_gets
  | |- ewp _ (emodify _) _ _ => apply ewp_modify
  | |- ewp _ (elog _) _ _ => apply ewp_log
  | |- ewp _ (orEBad _ (Some _)) _ _ => apply ewp_some
  end.
Ltac ewp_go := repeat (ewp_step; cbn beta).

(** ** The frame of the throttle hook *)

(** The same device but for the receive flag. *)
Definition dev_like (d d' : eth_device) : Prop := exists b, d' = set_rx_transfer_active b d.

#[global] Instance dev_like_preorder : PreOrder dev_like.
Proof.
  split.
  - intros d. exists (rx_transfer_active d). by destruct d.
  - intros d d' d'' [b ->] [b' ->]. by exists b'.
Qed.

(** Everything but the throttle level, the history and the receive flags. *)
Record hooked (s s' : eth_state) : Prop := {
  hk_mem : emem s' = emem s;
  hk_list : netif_list s' = netif_list s;
  hk_data : dev_data s' = dev_data s;
  hk_used : ifnums_used s' = ifnums_used s;
  hk_default : netif_default s' = netif_default s;
  hk_set : default_netif_set s' = default_netif_set s;
  hk_pbufs : tx_pbufs s' = tx_pbufs s;
  hk_reg : hook_registered s' = hook_registered s;
  hk_error : eth_disabled_with_error s' = eth_disabled_with_error s;
  hk_devs : forall p, option_relation dev_like (fun _ => False) (fun _ => False) (devs s !! p) (devs s' !! p)
}.

#[global] Instance hooked_preorder : PreOrder hooked.
Proof.
  split.
  - intros s. split; try done. intros p. destruct (devs s !! p); cbn; [reflexivity|done].
  - intros s1 s2 s3 H1 H2. split; try (etransitivity; [apply H2|apply H1]).
    intros p. pose proof (hk_devs _ _ H1 p) as D1. pose proof (hk_devs _ _ H2 p) as D2.
    destruct (devs s1 !! p), (devs s2 !! p), (devs s3 !! p); cbn in *; try done.
    by etransitivity.
Qed.

Lemma hooked_dev s s' p d : hooked s s' -> devs s !! p = Some d ->
  exists d', devs s' !! p = Some d' /\ dev_like d d'.
Proof.
  intros H Hd. pose proof (hk_devs _ _ H p) as D. rewrite Hd in D.
  destruct (devs s' !! p) as [d'|]; [by exists d'|done].
Qed.

(** Every listed interface belongs to a live device. *)
Definition listed_live (s : eth_state) : Prop :=
  Forall (fun p => is_Some (devs s !! p)) (netif_list s).

Lemma hooked_live_all s s' l : hooked s s' ->
  Forall (fun p => is_Some (devs s !! p)) l -> Forall (fun p => is_Some (devs s' !! p)) l.
Proof.
  intros H HF. eapply Forall_impl; [exact HF|]. intros p [d Hd]. cbn.
  destruct (hooked_dev _ _ _ _ H Hd) as (d'&->&_). by eexists.
Qed.

Lemma hooked_listed s s' : hooked s s' -> listed_live s -> listed_live s'.
Proof. intros H HF. unfold listed_live. rewrite (hk_list _ _ H). by eapply hooked_live_all. Qed.

Lemma hooked_log s e : hooked s (set_etrace (e :: etrace s) s).
Proof. split; try done. intros p. cbn. destruct (devs s !! p); cbn; [reflexivity|done]. Qed.

Lemma hooked_flag s p d b : devs s !! p = Some d ->
  hooked s (set_devs (<[p := set_rx_transfer_active b d]> (devs s)) s).
Proof.
  intros Hd. split; try done. intros q. cbn. destruct (decide (q = p)) as [->|].
  - rewrite Hd, lookup_insert_eq. cbn. by exists b.
  - rewrite lookup_insert_ne by done. destruct (devs s !! q); cbn; [reflexivity|done].
Qed.

Section Hook.
Context (env : usb_env) (F : eth_fault -> Prop).

Lemma ewp_schedule ep x n s (Q : Z -> eth_state -> Prop) :
  Q (u_schedule env (etrace s)) (set_etrace (T_schedule ep x n :: etrace s) s) ->
  ewp F (schedule_transfer env ep x n) s Q.
Proof. intros HQ. unfold schedule_transfer. ewp_go. done. Qed.

Lemma ewp_resume_rx p s (Q : unit -> eth_state -> Prop) :
  is_Some (devs s !! p) -> (forall s', hooked s s' -> Q tt s') ->
  ewp F (resume_rx env p) s Q.
Proof.
  intros [d Hd] HQ. unfold resume_rx. ewp_go. eapply ewp_get_dev; [exact Hd|].
  destruct (rx_callback d) as [cb|]; [|ewp_go; by apply HQ].
  destruct (_ && _); [|ewp_go; by apply HQ].
  ewp_go. apply ewp_schedule. pose proof (hooked_log s (T_schedule (rx_endpoint d) (X_rx p cb) (rx_length d))).
  apply ewp_when; intros _; [|by apply HQ].
  eapply ewp_upd_dev; [exact Hd|]. apply HQ. etransitivity; [eassumption|]. by apply hooked_flag.
Qed.

Lemma ewp_resume_all l s (Q : unit -> eth_state -> Prop) :
  Forall (fun p => is_Some (devs s !! p)) l -> (forall s', hooked s s' -> Q tt s') ->
  ewp F (resume_all env l) s Q.
Proof.
  revert s. induction l as [|p l IH]; intros s HF HQ; cbn; [ewp_go; by apply HQ|].
  apply Forall_cons in HF as [Hp HF]. ewp_go. apply ewp_resume_rx; [done|]. intros s1 H1.
  apply IH; [by eapply hooked_live_all|]. intros s2 H2. apply HQ. by etransitivity.
Qed.

Lemma ewp_throttle lv s (Q : unit -> eth_state -> Prop) :
  listed_live s -> (forall s', hooked s s' -> Q tt s') -> ewp F (eth_set_rx_throttle env lv) s Q.
Proof.
  intros HL HQ. unfold eth_set_rx_throttle, eth_should_schedule_rx. ewp_go. cbn.
  assert (hooked s (set_eth_throttle lv s)) as H0.
  { split; try done. intros p. cbn. destruct (devs s !! p); cbn; [reflexivity|done]. }
  destruct (_ || _); [|ewp_go; by apply HQ].
  ewp_go. apply ewp_resume_all; [exact HL|]. intros s' H'. apply HQ. by etransitivity.
Qed.

Lemma ewp_run_hooks evs s (Q : unit -> eth_state -> Prop) :
  listed_live s -> (forall s', hooked s s' -> Q tt s') -> ewp F (run_hooks env evs) s Q.
Proof.
  revert s. induction evs as [|e evs IH]; intros s HL HQ; cbn; [ewp_go; by apply HQ|].
  destruct e; try (by apply IH). ewp_go. apply ewp_when; intros _; [|by apply IH].
  apply ewp_throttle; [done|]. intros s1 H1. apply IH; [by eapply hooked_listed|].
  intros s2 H2. apply HQ. by etransitivity.
Qed.

(** A call of the memory manager changes its state as it says, and what the
    hook may change. *)
Lemma ewp_mem_call {A} (c : MM A) s (Q : A -> eth_state -> Prop) :
  listed_live s ->
  match c (emem s) with
  | Ok a m => forall s', hooked (set_emem m s) s' -> Q a s'
  | Bad f => F (EF_mem f)
  end -> ewp F (mem_call env c) s Q.
Proof.
  intros HL HQ. unfold ewp, mem_call. destruct (c (emem s)) as [a m|f]; [|done].
  change (ewp F (run_hooks env (reverse (take (length (history m) - length (history (emem s))) (history m)));;
    mret a) (set_emem m s) Q). ewp_go.
  apply ewp_run_hooks; [exact HL|]. intros s' H'. ewp_go. by apply HQ.
Qed.

Lemma ewp_mem_wp {A} (c : MM A) s (Q : A -> eth_state -> Prop) :
  listed_live s ->
  mwp c (emem s) (fun a m => forall s', hooked (set_emem m s) s' -> Q a s') ->
  ewp F (mem_call env c) s Q.
Proof.
  intros HL Hw. apply ewp_mem_call; [done|]. unfold mwp in Hw. by destruct (c (emem s)).
Qed.
End Hook.

(** ** A network adapter to run the driver on

    The descriptors of a CDC adapter, the state before any device is plugged
    in, and runs of the driver with them, for the witnesses of the theorems. *)

(** Descriptors of an adapter whose control interface has the given subclass:
    interface 0 with an interrupt endpoint, interface 1 with an idle and an
    active setting. *)
Definition adapter_config (subclass : Z) : bytes :=
  [9; 2; 80; 0; 2; 1; 0; 128; 50] ++
  [9; 4; 0; 0; 1; 2; subclass; 0; 0] ++
  [5; 36; 0; 16; 1] ++
  [5; 36; 6; 0; 1] ++
  [13; 36; 15; 3; 0; 0; 0; 0; 234; 5; 0; 0; 0] ++
  [7; 5; 130; 3; 16; 0; 8] ++
  [9; 4; 1; 0; 0; 10; 0; 0; 0] ++
  [9; 4; 1; 1; 2; 10; 0; 0; 0] ++
  [7; 5; 129; 2; 64; 0; 0] ++
  [7; 5; 2; 2; 64; 0; 0].
Definition adapter_device : bytes :=
  [18; 1; 0; 2; 0; 0; 0; 64; 1; 2; 3; 4; 5; 6; 0; 0; 0; 1].
(** "02004C4F4F50" *)
Definition adapter_string : bytes :=
  [26; 3] ++ concat (map (fun c => [c; 0]) (str "02004C4F4F50")).

(** The NTB parameters of an adapter, with the alignment of its tables. *)
Definition adapter_ntb (align : Z) : bytes :=
  b16 28 ++ b16 1 ++ b32 2048 ++ b16 4 ++ b16 0 ++ b16 align ++ b16 0 ++
  b32 2048 ++ b16 4 ++ b16 0 ++ b16 4 ++ b16 1.

(** Every call succeeds; memory for devices and packets is handed out at
    increasing addresses. *)
Definition adapter (config : bytes) (align : Z) : usb_env := mk_usb
  (fun _ => 0)
  (fun _ => (0, adapter_ntb align))
  (fun _ _ => Z.of_nat (length config))
  (fun tr => match tr with T_descriptor 1 _ :: _ => (0, config) | _ => (0, adapter_device) end)
  (fun _ => (0, adapter_string))
  (fun _ => 0) (fun _ => 0)
  (fun usb addr => 1000 * usb + addr)
  (fun _ => false) (fun _ => false) (fun _ => 4)
  (fun tr => 100000 + 8 * Z.of_nat (length tr))
  (fun tr _ => 200000 + 8 * Z.of_nat (length tr))
  (fun _ => pool_chain)
  (fun _ _ => 0).

Definition eth_start : eth_state :=
  mk_eth 0 false MEM_PRESSURE_NONE false false ETH_RX_DRAIN_INTERVAL_MS 0 false 0 0 0 empty empty [] 0
    empty mem_fresh [].

Definition end_eth {A} (r : eres A) : eth_state :=
  match r with EOk _ s => s | EBad _ => eth_start end.

Abbreviation ecm_adapter := (adapter (adapter_config USB_ECM_SUBCLASS) 4).
Abbreviation ncm_adapter := (adapter (adapter_config USB_NCM_SUBCLASS) 4).

(** The driver with one adapter plugged in as USB device 7, and its device. *)
Definition ecm_plugged : eth_state :=
  end_eth (eth_usb_event_callback ecm_adapter roomy USB_DEVICE_ENABLED_EVENT 7 eth_start).
Definition ncm_plugged : eth_state :=
  end_eth (eth_usb_event_callback ncm_adapter roomy USB_DEVICE_ENABLED_EVENT 7 eth_start).
Definition the_device (s : eth_state) : Z := default 0 (dev_data s !! 7).

(** A transfer of the device completes: its bytes land in the buffer. *)
Definition transfer_in (p : Z) (data : bytes) (s : eth_state) : eth_state :=
  match devs s !! p with
  | Some d => set_devs (<[p := set_rx_buf (overwrite (rx_buf d) data) d]> (devs s)) s
  | None => s
  end.

Definition is_rx (e : eth_event) : bool :=
  match e with T_schedule _ (X_rx _ _) _ => true | _ => false end.
Definition rx_count (s : eth_state) : nat := length (filter (fun e => is_rx e = true) (etrace s)).
