(* ===== verification/NcmCorrect.v ===== *)
(** * NCM transfer blocks: reception, transmission, termination

    A transfer block of the Network Control Model carries frames behind a
    header and one or more pointer tables.  [block_at] states that layout;
    [ncm_receive_callback] queues exactly the frames of such a block,
    [ncm_bulk_transmit] writes one, and the receive loops end on every
    block, well-formed or not. *)

From S2P Require Import Prelude MemState MemPressure MemBuffer MemLogic RingList RingQueue RingCorrect MemSamples.
From S2P Require Import EthRing EthState EthDriver EthInit EthLogic.

(** ** Fields *)

Lemma le8_lookup b off x : le8 b off = Some x -> 0 <= off < Z.of_nat (length b).
Proof.
  unfold le8. destruct (Z.ltb_spec off 0); [done|]. intros Hx%lookup_lt_Some. lia.
Qed.

Lemma le16_inside b off x : le16 b off = Some x -> 0 <= off /\ off + 1 < Z.of_nat (length b).
Proof.
  unfold le16. destruct (le8 b off) eqn:E1; [|done]. destruct (le8 b (off + 1)) eqn:E2; [|done].
  apply le8_lookup in E1, E2. intros _. lia.
Qed.

Lemma le8_app pre x post : le8 (pre ++ x :: post) (Z.of_nat (length pre)) = Some x.
Proof.
  unfold le8. rewrite (proj2 (Z.ltb_ge _ _)) by lia. rewrite Nat2Z.id. by apply list_lookup_middle.
Qed.

Lemma le16_app pre v post : 0 <= v < 65536 ->
  le16 (pre ++ b16 v ++ post) (Z.of_nat (length pre)) = Some v.
Proof.
  intros Hv. unfold le16, b16. cbn [app]. rewrite le8_app. cbn.
  replace (pre ++ v mod 256 :: v / 256 mod 256 :: post)
    with ((pre ++ [v mod 256]) ++ v / 256 mod 256 :: post) by (by rewrite <- app_assoc).
  replace (Z.of_nat (length pre) + 1) with (Z.of_nat (length (pre ++ [v mod 256])))
    by (rewrite length_app; cbn; lia).
  rewrite le8_app. cbn. f_equal.
  rewrite (Z.mod_small (v / 256) 256) by (split; [apply Z.div_pos; lia|apply Z.div_lt_upper_bound; lia]).
  pose proof (Z.div_mod v 256). lia.
Qed.

Lemma le32_app pre v post : 0 <= v < 2 ^ 32 ->
  le32 (pre ++ b32 v ++ post) (Z.of_nat (length pre)) = Some v.
Proof.
  intros Hv. pose proof (Z.mod_pos_bound v 65536). pose proof (Z.div_mod v 65536).
  assert (0 <= v / 65536 < 65536) by (split; [apply Z.div_pos; lia|apply Z.div_lt_upper_bound; lia]).
  unfold le32, b32. rewrite <- app_assoc, le16_app by lia. cbn [mbind option_bind].
  replace (Z.of_nat (length pre) + 2) with (Z.of_nat (length (pre ++ b16 (v mod 65536))))
    by (rewrite length_app; cbn; lia).
  rewrite (app_assoc pre), le16_app by lia. cbn. f_equal. lia.
Qed.

(** ** The layout of a block *)

(** Entries [k] and following of the pointer table at [idx]: one per frame,
    then one with a null index or length. *)
Fixpoint entries_at (ntb : bytes) (idx k : Z) (es : list (Z * Z)) : Prop :=
  match es with
  | [] => exists i, le16 ntb (idx + 4 * k) = Some i /\
            (i = 0 \/ le16 ntb (idx + 4 * k + 2) = Some 0)
  | (i, n) :: es' =>
      le16 ntb (idx + 4 * k) = Some i /\ le16 ntb (idx + 4 * k + 2) = Some n /\
      i <> 0 /\ n <> 0 /\ in_bounds ntb i n = true /\ entries_at ntb idx (k + 1) es'
  end.

(** A pointer table at [ndp]. *)
Record table_at (ntb : bytes) (ndp : Z) (es : list (Z * Z)) (next : Z) : Prop := {
  t_pos : 0 <= ndp;
  t_sig : le32 ntb ndp = Some NCM_NDP_SIG0;
  t_some : es <> [];
  t_entries : entries_at ntb (ndp + 8) 0 es;
  t_next : le16 ntb (ndp + 6) = Some next
}.

(** The chain of tables from [ndp] on. *)
Inductive tables_at (ntb : bytes) : Z -> list (list (Z * Z)) -> Prop :=
| tables_one ndp es : table_at ntb ndp es 0 -> tables_at ntb ndp [es]
| tables_cons ndp es next ess :
    table_at ntb ndp es next -> next <> 0 -> tables_at ntb next ess ->
    tables_at ntb ndp (es :: ess).

(** A block whose tables list these pieces. *)
Definition block_at (ntb : bytes) (ess : list (list (Z * Z))) : Prop :=
  Z.of_nat (length ntb) < 65536 /\ le32 ntb 0 = Some NCM_NTH_SIG /\
  exists ndp, le16 ntb 10 = Some ndp /\ tables_at ntb ndp ess.

Definition frames_of (ntb : bytes) (es : list (Z * Z)) : list bytes :=
  (fun e => slice ntb e.1 e.2) <$> es.

(** Frames are queued until one is refused. *)
Fixpoint push_frames (al : allocator) (ring : Z) (ds : list bytes) : MM bool :=
  match ds with
  | [] => mret true
  | d :: ds' =>
      ok ← eth_ring_push_frame al ring (Some d);
      if ok : bool then push_frames al ring ds' else mret false
  end.

Lemma frames_cons ntb i n es : frames_of ntb ((i, n) :: es) = slice ntb i n :: frames_of ntb es.
Proof. done. Qed.

Lemma push_frames_cons al ring d ds m :
  push_frames al ring (d :: ds) m =
  match eth_ring_push_frame al ring (Some d) m with
  | Ok true m' => push_frames al ring ds m'
  | Ok false m' => Ok false m'
  | Bad f => Bad f
  end.
Proof.
  cbn [push_frames]. unfold mbind, MM_bind.
  by destruct (eth_ring_push_frame al ring (Some d) m) as [[] m'|].
Qed.

Lemma push_frames_app al ring ds1 ds2 m :
  push_frames al ring (ds1 ++ ds2) m =
  (ok ← push_frames al ring ds1; if ok : bool then push_frames al ring ds2 else mret false) m.
Proof.
  revert m. induction ds1 as [|d ds1 IH]; intros m; [done|].
  cbn [app]. unfold mbind, MM_bind. rewrite !push_frames_cons.
  destruct (eth_ring_push_frame al ring (Some d) m) as [[] m'|]; [|done|done].
  apply IH.
Qed.

Lemma hooked_emem s s' m : hooked s s' -> hooked (set_emem m s) (set_emem m s').
Proof. intros []. by split. Qed.

Lemma hooked_step s m1 s1 m2 s2 :
  hooked (set_emem m1 s) s1 -> hooked (set_emem m2 s1) s2 -> hooked (set_emem m2 s) s2.
Proof. intros H1 H2. etransitivity; [|exact H2]. exact (hooked_emem _ _ m2 H1). Qed.

Section Receive.
Context (env : usb_env) (al : allocator) (F : eth_fault -> Prop).

(** The same devices, but for the receive flags. *)
Definition devs_like (s s' : eth_state) : Prop :=
  forall p, option_relation dev_like (fun _ => False) (fun _ => False) (devs s !! p) (devs s' !! p).

(** The device at [p], with its receive ring, among live interfaces. *)
Definition has_ring (s : eth_state) (p ring : Z) : Prop :=
  listed_live s /\ exists d, devs s !! p = Some d /\ rx_ring d = ring.

Lemma has_ring_hooked s m s' p ring :
  has_ring s p ring -> hooked (set_emem m s) s' -> has_ring s' p ring.
Proof.
  intros [HL (d&Hd&Hr)] H. split; [eapply hooked_listed; [exact H|exact HL]|].
  destruct (hooked_dev _ _ p d H Hd) as (d'&Hd'&[b ->]). by eexists.
Qed.

Lemma ewp_push_from s p ring ntb i n (Q : bool -> eth_state -> Prop) :
  has_ring s p ring -> in_bounds ntb i n = true ->
  match eth_ring_push_frame al ring (Some (slice ntb i n)) (emem s) with
  | Ok ok m => forall s', hooked (set_emem m s) s' -> Q ok s'
  | Bad f => F (EF_mem f)
  end -> ewp F (push_from env al p ntb i n) s Q.
Proof.
  intros [HL (d&Hd&<-)] Hin HQ. unfold push_from. ewp_go. eapply ewp_get_dev; [exact Hd|].
  rewrite Hin. by apply ewp_mem_call.
Qed.

Lemma ewp_datagrams ntb idx ring p : Z.of_nat (length ntb) < 65536 -> 0 <= idx ->
  forall es e fuel k s (Q : bool -> eth_state -> Prop),
  0 <= k -> entries_at ntb idx k (e :: es) -> (length es < fuel)%nat -> has_ring s p ring ->
  match push_frames al ring (frames_of ntb (e :: es)) (emem s) with
  | Ok ok m => forall s', hooked (set_emem m s) s' -> Q ok s'
  | Bad f => F (EF_mem f)
  end -> ewp F (ncm_datagrams env al fuel p ntb idx k) s Q.
Proof.
  intros Hlen Hidx. induction es as [|e' es IH]; intros [i n] fuel k s Q Hk He Hf Hs HQ;
    (destruct fuel as [|fuel]; [cbn in *; lia|]);
    destruct He as (Hi&Hn&Hi0&Hn0&Hin&Hrest); cbn [ncm_datagrams]; rewrite Hi; ewp_go; rewrite Hn; ewp_go;
    apply (ewp_push_from _ _ ring); [done|done| |done|done|];
    rewrite frames_cons, push_frames_cons in HQ;
    (destruct (eth_ring_push_frame al ring (Some (slice ntb i n)) (emem s)) as [[] m|f];
      [|intros s1 H1; ewp_go; by apply HQ|done]);
    intros s1 H1; cbn [negb]; cbv zeta;
    pose proof (le16_inside _ _ _ Hi) as Hb; rewrite (u16_small (k + 1)) by lia; ewp_go.
  - destruct Hrest as (i'&Hi'&Hend). rewrite Hi'. ewp_go.
    destruct (Z.eqb_spec i' 0); [ewp_go; by apply HQ|].
    destruct Hend as [|Hn']; [done|]. rewrite Hn'. ewp_go. rewrite Z.eqb_refl. ewp_go. by apply HQ.
  - destruct e' as [i' n']. pose proof Hrest as (Hi'&Hn'&Hi0'&Hn0'&_). rewrite Hi'. ewp_go.
    rewrite (proj2 (Z.eqb_neq _ _) Hi0'). ewp_go. rewrite Hn'. ewp_go.
    rewrite (proj2 (Z.eqb_neq _ _) Hn0').
    eapply (IH (i', n')); [lia|exact Hrest|cbn in *; lia|by eapply has_ring_hooked|].
    assert (emem s1 = m) as -> by (by rewrite (hk_mem _ _ H1)).
    destruct (push_frames _ _ _ m) as [ok m'|f]; [|done].
    intros s2 H2. apply HQ. by eapply hooked_step.
Qed.

Lemma ewp_tables ntb ring p : Z.of_nat (length ntb) < 65536 ->
  forall ess fuel ndp s (Q : bool -> eth_state -> Prop),
  tables_at ntb ndp ess -> (length ess + length (concat ess) < fuel)%nat -> has_ring s p ring ->
  match push_frames al ring (frames_of ntb (concat ess)) (emem s) with
  | Ok _ m => forall s', hooked (set_emem m s) s' -> Q true s'
  | Bad f => F (EF_mem f)
  end -> ewp F (ncm_tables env al fuel p ntb ndp) s Q.
Proof.
  intros Hlen ess fuel ndp s Q HT. revert fuel s Q.
  induction HT as [ndp es HT|ndp es next ess HT Hnext Hts IH]; intros fuel s Q Hf Hs HQ;
    destruct fuel as [|fuel]; [cbn in *; lia| |cbn in *; lia|];
    destruct HT as [Hpos Hsig Hsome Hent Hnx]; destruct es as [|e es]; [done| |done|];
    cbn [ncm_tables concat] in *; rewrite Hsig; ewp_go; rewrite Z.eqb_refl; cbn [negb]; ewp_go.
  - rewrite app_nil_r in HQ, Hf.
    eapply (ewp_datagrams ntb (ndp + 8) ring p Hlen); [lia|done|exact Hent|cbn in *; lia|exact Hs|].
    destruct (push_frames _ _ _ (emem s)) as [ok m|f]; [|done]. intros s1 H1. rewrite Hnx. ewp_go.
    rewrite Z.eqb_refl. ewp_go. by apply HQ.
  - rewrite length_app in Hf.
    eapply (ewp_datagrams ntb (ndp + 8) ring p Hlen); [lia|done|exact Hent|cbn in *; lia|exact Hs|].
    unfold frames_of in HQ. rewrite fmap_app, push_frames_app in HQ. unfold mbind, MM_bind in HQ.
    fold (frames_of ntb (e :: es)) in HQ.
    destruct (push_frames al ring (frames_of ntb (e :: es)) (emem s)) as [ok m|f]; [|done].
    intros s1 H1. rewrite Hnx. ewp_go. rewrite (proj2 (Z.eqb_neq _ _) Hnext).
    destruct ok; [|ewp_go; by apply HQ].
    apply IH; [cbn in *; lia|by eapply has_ring_hooked|].
    assert (emem s1 = m) as -> by (by rewrite (hk_mem _ _ H1)). unfold frames_of.
    destruct (push_frames _ _ _ m) as [ok m'|f]; [|done]. intros s2 H2. apply HQ. by eapply hooked_step.
Qed.

Lemma ewp_schedule_rx p n s d cb (Q : unit -> eth_state -> Prop) :
  devs s !! p = Some d -> rx_callback d = Some cb -> (forall s', hooked s s' -> Q tt s') ->
  ewp F (schedule_rx env p n) s Q.
Proof.
  intros Hd Hcb HQ. unfold schedule_rx, eth_should_schedule_rx. ewp_go.
  match goal with |- ewp _ (if ?b then _ else _) _ _ => destruct b end; [|ewp_go; by apply HQ].
  ewp_go. eapply ewp_get_dev; [exact Hd|]. rewrite Hcb. ewp_go. apply ewp_schedule.
  eapply ewp_upd_dev; [exact Hd|]. apply HQ. etransitivity; [apply hooked_log|]. by apply hooked_flag.
Qed.

(** The receive callback, on a well-formed block. *)
Lemma ewp_receive s p d cb n ess (Q : usb_ret -> eth_state -> Prop) :
  devs s !! p = Some d -> rx_callback d = Some cb -> listed_live s -> n <> 0 ->
  block_at (rx_buf d) ess -> (length ess + length (concat ess) < ncm_fuel)%nat ->
  match push_frames al (rx_ring d) (frames_of (rx_buf d) (concat ess)) (emem s) with
  | Ok _ m => forall s', emem s' = m -> devs_like s s' -> Q USB_SUCCESS s'
  | Bad f => F (EF_mem f)
  end -> ewp F (ncm_receive_callback env al p 0 n) s Q.
Proof.
  intros Hd Hcb HL Hn (Hlen&Hsig&ndp&Hndp&HT) Hfuel HQ. unfold ncm_receive_callback. ewp_go.
  eapply ewp_get_dev; [exact Hd|]. ewp_go. eapply ewp_upd_dev; [exact Hd|]. ewp_go.
  cbn [negb Z.eqb]. rewrite (proj2 (Z.eqb_neq _ _) Hn). cbn [negb]. ewp_go. rewrite Hsig. ewp_go.
  rewrite Z.eqb_refl. cbn [negb]. ewp_go. rewrite Hndp. ewp_go.
  set (s1 := set_ncm_rx_retries 0 _).
  assert (hooked s s1) as H1.
  { unfold s1. etransitivity; [by apply (hooked_flag s p d false)|]. split; try done.
    intros q. cbn. destruct (<[p := _]> (devs s) !! q); cbn; [reflexivity|done]. }
  assert (has_ring s1 p (rx_ring d)) as Hs1.
  { split; [by eapply hooked_listed|]. destruct (hooked_dev _ _ p d H1 Hd) as (d'&Hd'&[b ->]). by eexists. }
  clearbody s1. eapply (ewp_tables (rx_buf d)); [done|exact HT|exact Hfuel|exact Hs1|].
  assert (emem s1 = emem s) as -> by apply (hk_mem _ _ H1).
  destruct (push_frames _ _ _ (emem s)) as [ok m|f]; [|done]. intros s2 H2. cbn [negb]. ewp_go.
  destruct (hooked_dev _ _ p d H1 Hd) as (d1&Hd1&L1).
  destruct (hooked_dev _ _ p d1 H2 Hd1) as (d2&Hd2&L2).
  assert (rx_callback d2 = Some cb) as Hcb2 by (destruct L1 as [? ->], L2 as [? ->]; done).
  eapply ewp_schedule_rx; [exact Hd2|exact Hcb2|]. intros s3 H3. ewp_go. apply HQ.
  - by rewrite (hk_mem _ _ H3), (hk_mem _ _ H2).
  - intros q. pose proof (hk_devs _ _ H1 q) as D1. pose proof (hk_devs _ _ H2 q) as D2. pose proof (hk_devs _ _ H3 q) as D3.
    change (devs (set_emem m s1)) with (devs s1) in D2.
    destruct (devs s !! q), (devs s1 !! q), (devs s2 !! q), (devs s3 !! q); cbn in D1, D2, D3 |- *; try done.
    etransitivity; [exact D1|]. etransitivity; [exact D2|exact D3].
Qed.

End Receive.

(** ** What a transmission writes *)

(** The first 64 bytes of a block that carries one frame of [n] bytes. *)
Definition one_frame_header (seq n off : Z) : bytes :=
  ncm_nth seq (64 + n) off ++ replicate (Z.to_nat (off - 12)) 0 ++ ncm_ndp n ++
  replicate (Z.to_nat (48 - off)) 0.

Lemma ncm_header_layout seq n off : 12 <= off <= 48 ->
  ncm_header seq n off = Some (one_frame_header seq n off).
Proof.
  intros Ho. unfold ncm_header, NCM_HBUF_SIZE. change (Z.to_nat 64) with 64%nat.
  unfold in_bounds. rewrite length_replicate. change (length (ncm_ndp n)) with 16%nat.
  repeat rewrite (proj2 (Z.leb_le _ _)) by lia. cbn [andb]. f_equal. unfold one_frame_header.
  unfold splice at 2. change (Z.to_nat 0) with 0%nat. cbn [take app].
  change (length (ncm_nth seq (64 + n) off)) with 12%nat. rewrite take_0, drop_replicate. cbn [Nat.sub Nat.add app].
  unfold splice. change (length (ncm_ndp n)) with 16%nat.
  rewrite take_app_ge, drop_app_ge by (change (length (ncm_nth seq (64 + n) off)) with 12%nat; lia).
  change (length (ncm_nth seq (64 + n) off)) with 12%nat.
  rewrite take_replicate, drop_replicate, <- app_assoc.
  do 2 f_equal; [f_equal; lia|]. f_equal. f_equal. lia.
Qed.

Lemma one_frame_block seq n off payload rest :
  0 <= seq -> 12 <= off <= 48 -> 0 < n < 65000 -> Z.of_nat (length payload) = n ->
  Z.of_nat (length rest) + n < 65000 ->
  block_at (one_frame_header seq n off ++ payload ++ rest) [[(64, n)]] /\
  frames_of (one_frame_header seq n off ++ payload ++ rest) [(64, n)] = [payload].
Proof.
  intros Hseq Ho Hn Hp Hr. set (h := one_frame_header seq n off).
  assert (length h = 64%nat) as Hlh.
  { unfold h, one_frame_header. rewrite !length_app, !length_replicate.
    change (length (ncm_nth seq (64 + n) off)) with 12%nat. change (length (ncm_ndp n)) with 16%nat. lia. }
  assert (slice (h ++ payload ++ rest) 64 n = payload) as Hsl.
  { unfold slice. change (Z.to_nat 64) with 64%nat. rewrite <- Hlh, drop_app_length.
    replace (Z.to_nat n) with (length payload) by lia. apply take_app_length. }
  split; [|by rewrite frames_cons, Hsl].
  set (z1 := replicate (Z.to_nat (off - 12)) 0). set (z2 := replicate (Z.to_nat (48 - off)) 0).
  set (nth := ncm_nth seq (64 + n) off).
  (* the fields of the table, at their distance from its start *)
  assert (forall pre v post k, ncm_ndp n = pre ++ b16 v ++ post -> 0 <= v < 65536 ->
    k = Z.of_nat (length pre) -> le16 (h ++ payload ++ rest) (off + k) = Some v) as Hfield.
  { intros pre v post k Hndp Hv ->. unfold h, one_frame_header. fold z1 z2 nth. rewrite Hndp.
    replace ((nth ++ z1 ++ (pre ++ b16 v ++ post) ++ z2) ++ payload ++ rest)
      with ((nth ++ z1 ++ pre) ++ b16 v ++ (post ++ z2 ++ payload ++ rest)) by (by rewrite <- !app_assoc).
    rewrite <- (le16_app (nth ++ z1 ++ pre) v (post ++ z2 ++ payload ++ rest) Hv). f_equal.
    rewrite !length_app. unfold z1. rewrite length_replicate. change (length nth) with 12%nat. lia. }
  split; [rewrite !length_app, Hlh; lia|]. split.
  { unfold h, one_frame_header, ncm_nth. rewrite <- !app_assoc.
    by apply (le32_app [] NCM_NTH_SIG). }
  exists off. split.
  { unfold h, one_frame_header, ncm_nth.
    replace (((b32 NCM_NTH_SIG ++ b16 NCM_NTH_LEN ++ b16 seq ++ b16 (64 + n) ++ b16 off) ++
      replicate (Z.to_nat (off - 12)) 0 ++ ncm_ndp n ++ replicate (Z.to_nat (48 - off)) 0) ++ payload ++ rest)
      with ((b32 NCM_NTH_SIG ++ b16 NCM_NTH_LEN ++ b16 seq ++ b16 (64 + n)) ++ b16 off ++
        (replicate (Z.to_nat (off - 12)) 0 ++ ncm_ndp n ++ replicate (Z.to_nat (48 - off)) 0 ++ payload ++ rest))
      by (by rewrite <- !app_assoc).
    apply (le16_app (b32 NCM_NTH_SIG ++ b16 NCM_NTH_LEN ++ b16 seq ++ b16 (64 + n)) off). lia. }
  apply tables_one. split; [lia| |done| |].
  - unfold h, one_frame_header, ncm_ndp. fold z1 z2 nth.
    set (tl := b16 (NCM_NDP_LEN + 4) ++ _).
    replace ((nth ++ z1 ++ (b32 NCM_NDP_SIG0 ++ tl) ++ z2) ++ payload ++ rest)
      with ((nth ++ z1) ++ b32 NCM_NDP_SIG0 ++ (tl ++ z2 ++ payload ++ rest)) by (by rewrite <- !app_assoc).
    rewrite <- (le32_app (nth ++ z1) NCM_NDP_SIG0 (tl ++ z2 ++ payload ++ rest)) by done. f_equal.
    rewrite !length_app. unfold z1. rewrite length_replicate. change (length nth) with 12%nat. lia.
  - unfold ncm_ndp in Hfield. set (sg := b32 NCM_NDP_SIG0) in *. cbn [entries_at].
    rewrite !Z.mul_0_r, !Z.add_0_r. rewrite <- !Z.add_assoc. split_and!.
    + apply (Hfield (sg ++ b16 (NCM_NDP_LEN + 4) ++ b16 0) _ (b16 n ++ b16 0 ++ b16 0)); [done|done|done].
    + apply (Hfield (sg ++ b16 (NCM_NDP_LEN + 4) ++ b16 0 ++ b16 NCM_HBUF_SIZE) _ (b16 0 ++ b16 0)); [done|lia|done].
    + done.
    + lia.
    + unfold in_bounds. rewrite !length_app, Hlh. repeat rewrite (proj2 (Z.leb_le _ _)) by lia. done.
    + exists 0. split; [|by left].
      apply (Hfield (sg ++ b16 (NCM_NDP_LEN + 4) ++ b16 0 ++ b16 NCM_HBUF_SIZE ++ b16 n) _ (b16 0)); done.
  - apply (Hfield (b32 NCM_NDP_SIG0 ++ b16 (NCM_NDP_LEN + 4)) _
      (b16 NCM_HBUF_SIZE ++ b16 n ++ b16 0 ++ b16 0)); done.
Qed.

(** C16. Reception of a transfer block: on every block that has the layout of
    the standard, with any number of pointer tables, the callback queues
    exactly the frames the tables point at, in order, up to the first that the
    ring refuses, and does nothing else to memory. *)
Theorem ncm_block_received env al s p d cb n ess ok m :
  devs s !! p = Some d -> rx_callback d = Some cb -> listed_live s -> n <> 0 ->
  block_at (rx_buf d) ess -> (length ess + length (concat ess) < ncm_fuel)%nat ->
  push_frames al (rx_ring d) (frames_of (rx_buf d) (concat ess)) (emem s) = Ok ok m ->
  exists s', ncm_receive_callback env al p 0 n s = EOk USB_SUCCESS s' /\ emem s' = m.
Proof.
  intros Hd Hcb HL Hn HB Hf Hpush.
  destruct (ewp_run (ncm_receive_callback env al p 0 n) s (fun r s' => r = USB_SUCCESS /\ emem s' = m))
    as (r&s'&Hrun&->&Hm); [|by exists s'].
  eapply ewp_receive; [exact Hd|exact Hcb|done|done|exact HB|exact Hf|]. rewrite Hpush. done.
Qed.

Lemma next_offset align : 0 < align <= 36 ->
  exists off, get_next_offset NCM_NTH_LEN align 0 = Some off /\ 12 <= u16 off <= 48.
Proof.
  intros Ha. unfold get_next_offset. rewrite (proj2 (Z.eqb_neq _ _)) by lia. eexists; split; [done|].
  unfold NCM_NTH_LEN. pose proof (Z.mod_pos_bound 12 align). rewrite u16_small; lia.
Qed.

(** C17. Round trip of a frame between two drivers: what [ncm_bulk_transmit]
    hands to the bus, received into the buffer of another device over whatever
    was there before, queues exactly the frame, for every alignment up to 36
    the receiver may have asked for. *)
Theorem ncm_round_trip env al env' sa pa da align payload :
  devs sa !! pa = Some da -> wNdpInAlignment da = Some align -> 0 < align <= 36 ->
  0 <= ncm_sequence da -> 0 < Z.of_nat (length payload) <= ETHERNET_MTU ->
  u_pbuf env (etrace sa) (64 + Z.of_nat (length payload)) <> 0 ->
  exists block q sa', ncm_bulk_transmit env pa payload sa = EOk ERR_OK_ sa' /\
    head (etrace sa') = Some (T_schedule (tx_endpoint da) (X_tx q block) (Z.of_nat (length block))) /\
    forall s p d cb old ok m,
      devs s !! p = Some d -> rx_callback d = Some cb -> listed_live s ->
      Z.of_nat (length old) = NCM_RX_NTB_MAX_SIZE -> rx_buf d = overwrite old block ->
      eth_ring_push_frame al (rx_ring d) (Some payload) (emem s) = Ok ok m ->
      exists s', ncm_receive_callback env' al p 0 (Z.of_nat (length block)) s = EOk USB_SUCCESS s' /\
        emem s' = m.
Proof.
  intros Hda Hal Ha Hseq Hlen Hq. destruct (next_offset align Ha) as (off&Hoff&Hor).
  set (n := Z.of_nat (length payload)) in *. set (q := u_pbuf env (etrace sa) (64 + n)) in *.
  unfold ETHERNET_MTU in Hlen. set (hdr := one_frame_header (ncm_sequence da) n (u16 off)).
  assert (length hdr = 64%nat) as Hlh.
  { unfold hdr, one_frame_header. rewrite !length_app, !length_replicate.
    change (length (ncm_nth (ncm_sequence da) (64 + n) (u16 off))) with 12%nat.
    change (length (ncm_ndp n)) with 16%nat. lia. }
  exists (hdr ++ payload), q.
  destruct (ewp_run (ncm_bulk_transmit env pa payload) sa (fun r s' => r = ERR_OK_ /\
    head (etrace s') = Some (T_schedule (tx_endpoint da) (X_tx q (hdr ++ payload)) (64 + n))))
    as (r&sa'&Hrun&->&Htr).
  { unfold ncm_bulk_transmit. ewp_go. eapply ewp_get_dev; [exact Hda|]. ewp_go. rewrite Hal. ewp_go.
    rewrite Hoff. ewp_go. fold n. unfold ETHERNET_MTU. rewrite (proj2 (Z.ltb_ge _ _)) by lia.
    unfold tx_pbuf_alloc. ewp_go. change NCM_HBUF_SIZE with 64. fold q.
    rewrite (proj2 (Z.eqb_neq _ _) Hq). cbn [negb whenE]. ewp_go.
    rewrite (proj2 (Z.eqb_neq _ _) Hq). ewp_go. eapply ewp_upd_dev; [exact Hda|]. ewp_go.
    rewrite ncm_header_layout by done. ewp_go. unfold tx_pbuf_fill. ewp_go. apply ewp_schedule. ewp_go. done. }
  exists sa'. split; [done|]. split.
  { rewrite Htr. do 2 f_equal. rewrite length_app, Hlh. fold n. lia. }
  intros s p d cb old ok m Hd Hcb HL Hold Hbuf Hpush. unfold NCM_RX_NTB_MAX_SIZE in Hold.
  set (rest := drop (length (hdr ++ payload)) old).
  assert (rx_buf d = hdr ++ payload ++ rest) as Hb by (rewrite Hbuf; unfold overwrite; by rewrite <- app_assoc).
  destruct (one_frame_block (ncm_sequence da) n (u16 off) payload rest Hseq Hor ltac:(lia) eq_refl) as [HB HF].
  { unfold rest. rewrite length_drop. lia. }
  fold hdr in HB, HF. rewrite <- Hb in HB, HF.
  destruct (ewp_run (ncm_receive_callback env' al p 0 (Z.of_nat (length (hdr ++ payload)))) s
    (fun r s' => r = USB_SUCCESS /\ emem s' = m)) as (r&s'&Hrun'&->&Hm); [|by exists s'].
  eapply ewp_receive; [exact Hd|exact Hcb|done|rewrite length_app, Hlh; lia|exact HB| |].
  { apply Nat.ltb_lt. reflexivity. }
  change (concat [[(64, n)]]) with [(64, n)]. rewrite HF, push_frames_cons, Hpush. by destruct ok.
Qed.

(** ** The receive loops end *)

Section Ends.
Context (env : usb_env) (al : allocator) `{!AllocLaws al}.

(** Any fault but an endless loop. *)
Definition ends (f : eth_fault) : Prop := f <> EF_fuel.

(** The device's ring holds [l], within the limit the driver gives it. *)
Definition queue_at (s : eth_state) (p : Z) (l : bytes) : Prop :=
  exists ring rb arr, has_ring s p ring /\ ring_at (emem s) ring rb arr l /\
    max_cap rb <= ETH_RX_RING_MAX_SIZE.

Lemma queue_at_bound s p l : queue_at s p l -> Z.of_nat (length l) <= 2048.
Proof.
  intros (ring&rb&arr&_&Hat&Hm). pose proof (at_ok _ _ _ _ _ Hat) as Hok.
  rewrite (ring_length _ _ _ Hok). pose proof (r_len _ _ _ Hok). pose proof (r_max _ _ _ Hok).
  unfold ETH_RX_RING_MAX_SIZE in Hm. lia.
Qed.

(** A piece of the buffer is queued with its header, or the loop stops. *)
Lemma ends_push_from s p l ntb i n (Q : bool -> eth_state -> Prop) :
  queue_at s p l -> Z.of_nat (length ntb) < 65536 ->
  (forall s', Q false s') ->
  (forall s' l', queue_at s' p l' -> Z.of_nat (length l) + 3 <= Z.of_nat (length l') -> Q true s') ->
  ewp ends (push_from env al p ntb i n) s Q.
Proof using AllocLaws0.
  intros (ring&rb&arr&Hs&Hat&Hmax) Hlen Q0 Q1. pose proof Hs as [HL (d&Hd&Hr)].
  unfold push_from. ewp_go. eapply ewp_get_dev; [exact Hd|]. rewrite Hr.
  destruct (in_bounds ntb i n) eqn:Hin; [|done].
  unfold in_bounds in Hin. apply andb_prop in Hin as [[Hi Hn]%andb_prop Hb].
  apply Z.leb_le in Hi, Hn, Hb.
  assert (Z.of_nat (length (slice ntb i n)) = n) as Hsl by (rewrite length_slice; lia).
  apply ewp_mem_wp; [done|]. destruct (decide (n = 0)) as [->|Hn0].
  { unfold eth_ring_push_frame. cbv zeta. rewrite Hsl. rewrite orb_true_r. mwp_go. intros. apply Q0. }
  eapply (mwp_push_frame al); [exact Hat|unfold frame_ok; lia|].
  intros [] m' rb' arr' l' Hat' Hf' Htrue _ s' H'; [|by apply Q0]. specialize (Htrue eq_refl). subst l'.
  eapply Q1; [exists ring, rb', arr'; split_and!|].
  - by eapply has_ring_hooked.
  - rewrite (hk_mem _ _ H'). exact Hat'.
  - destruct Hf' as (_&_&_&_&_&->). done.
  - rewrite !length_app. cbn. lia.
Qed.

Lemma ends_datagrams ntb idx p : Z.of_nat (length ntb) < 65536 ->
  forall fuel k s l (Q : bool -> eth_state -> Prop),
  queue_at s p l -> 2048 - Z.of_nat (length l) < 3 * Z.of_nat fuel ->
  (forall s', Q false s') ->
  (forall s' l', queue_at s' p l' -> Z.of_nat (length l) + 3 <= Z.of_nat (length l') -> Q true s') ->
  ewp ends (ncm_datagrams env al fuel p ntb idx k) s Q.
Proof using AllocLaws0.
  intros Hlen. induction fuel as [|fuel IH]; intros k s l Q Hq Hf Q0 Q1.
  { pose proof (queue_at_bound _ _ _ Hq). lia. }
  cbn [ncm_datagrams]. ewp_go. apply ewp_option; [done|]. intros i _. ewp_go. apply ewp_option; [done|].
  intros n _. ewp_go. eapply ends_push_from; [exact Hq|done|intros; cbn [negb]; ewp_go; apply Q0|].
  intros s1 l1 Hq1 Hl1. cbn [negb]. cbv zeta. ewp_go. apply ewp_option; [done|]. intros i' _.
  destruct (i' =? 0); [ewp_go; by eapply Q1|]. ewp_go. apply ewp_option; [done|]. intros n' _.
  destruct (n' =? 0); [ewp_go; by eapply Q1|].
  eapply IH; [exact Hq1|lia|done|]. intros s2 l2 Hq2 Hl2. eapply Q1; [exact Hq2|lia].
Qed.

Lemma ends_tables ntb p : Z.of_nat (length ntb) < 65536 ->
  forall fuel ndp s l, queue_at s p l -> 2048 - Z.of_nat (length l) + 3 < 3 * Z.of_nat fuel ->
  ewp ends (ncm_tables env al fuel p ntb ndp) s (fun _ s' => True).
Proof using AllocLaws0.
  intros Hlen. induction fuel as [|fuel IH]; intros ndp s l Hq Hf.
  { pose proof (queue_at_bound _ _ _ Hq). lia. }
  cbn [ncm_tables]. ewp_go. apply ewp_option; [done|]. intros sig _.
  destruct (negb _); [by ewp_go|]. ewp_go.
  eapply ends_datagrams; [done|exact Hq|lia| |].
  - intros s1. ewp_go. apply ewp_option; [done|]. intros next _. destruct (next =? 0); by ewp_go.
  - intros s1 l1 Hq1 Hl1. ewp_go. apply ewp_option; [done|]. intros next _.
    destruct (next =? 0); [by ewp_go|]. eapply IH; [exact Hq1|lia].
Qed.

(** C39. Reception ends on every block: whatever the 2048 bytes of the buffer
    hold, pointer tables that run in circles included, the loops of
    [ncm_receive_callback] stop, because every turn queues at least three bytes
    in a ring of at most 2048. *)
Theorem ncm_reception_ends s p d l status n :
  devs s !! p = Some d -> Z.of_nat (length (rx_buf d)) < 65536 -> queue_at s p l ->
  ncm_receive_callback env al p status n s <> EBad EF_fuel.
Proof using AllocLaws0.
  intros Hd Hlen Hq.
  assert (ewp ends (ncm_receive_callback env al p status n) s (fun _ _ => True)) as Hw.
  2: { intros E. unfold ewp in Hw. rewrite E in Hw. by apply Hw. }
  unfold ncm_receive_callback. ewp_go. eapply ewp_get_dev; [exact Hd|]. ewp_go.
  eapply ewp_upd_dev; [exact Hd|]. ewp_go.
  assert (forall s' k, ewp ends (schedule_rx env p k) s' (fun _ _ => True)) as Hsched.
  { intros s' k. unfold schedule_rx, eth_should_schedule_rx. ewp_go.
    match goal with |- ewp _ (if ?b then _ else _) _ _ => destruct b end; [|by ewp_go].
    ewp_go. unfold ewp at 1, get_dev at 1. destruct (devs s' !! p) as [d'|] eqn:Hd'; [|done].
    apply ewp_bind, ewp_option; [done|]. intros cb _. ewp_go. apply ewp_schedule.
    by eapply ewp_upd_dev. }
  destruct (negb (status =? 0)).
  { unfold eth_xmit_fatal_error. ewp_go. destruct (_ =? ETH_USB_MAX_RETRIES); ewp_go.
    - unfold tx_pbuf_free. ewp_go. apply ewp_option; [done|]. intros. by ewp_go.
    - eapply ewp_mono; [apply Hsched|]. intros. by ewp_go. }
  destruct (negb (n =? 0)); [|by ewp_go]. ewp_go. apply ewp_option; [done|]. intros sig _.
  destruct (negb (sig =? _)); [by ewp_go|]. ewp_go. apply ewp_option; [done|]. intros ndp _. ewp_go.
  eapply ewp_mono; [eapply (ends_tables (rx_buf d) p Hlen _ _ _ l)| ].
  - destruct Hq as (ring&rb&arr&[HL (d'&Hd'&Hr)]&Hat&Hm). exists ring, rb, arr. split_and!; [|done|done].
    rewrite Hd in Hd'. injection Hd' as <-. split.
    + eapply Forall_impl; [exact HL|]. intros q [dq Hdq]. cbn.
      destruct (decide (q = p)) as [->|]; [rewrite lookup_insert_eq; by eexists|].
      rewrite lookup_insert_ne by done. by eexists.
    + eexists. cbn. rewrite lookup_insert_eq. by split.
  - pose proof (queue_at_bound _ _ _ Hq). change (Z.of_nat ncm_fuel) with 700. lia.
  - intros ok s' _. destruct ok; cbn [negb]; ewp_go; [|done]. eapply ewp_mono; [apply Hsched|].
    intros. by ewp_go.
Qed.
End Ends.

(** ** Witnesses *)

(** The arrival of bytes leaves the queue as it is. *)
Lemma received_queue s p data l : queue_at s p l -> queue_at (transfer_in p data s) p l.
Proof.
  intros (ring&rb&arr&[HL (d&Hd&Hr)]&Hat&Hm). exists ring, rb, arr. unfold transfer_in. rewrite Hd.
  split_and!; [split|exact Hat|done].
  - eapply Forall_impl; [exact HL|]. intros q [dq Hdq]. cbn.
    destruct (decide (q = p)) as [->|]; [rewrite lookup_insert_eq; by eexists|].
    rewrite lookup_insert_ne by done. by eexists.
  - eexists. cbn. rewrite lookup_insert_eq. by split.
Qed.

Definition ncm_ptr : Z := the_device ncm_plugged.
Definition ncm_dev (s : eth_state) : eth_device := default (blank_dev 0) (devs s !! ncm_ptr).

(** A block with two tables: two frames and one frame. *)
Definition sample_block : bytes :=
  ncm_nth 0 57 12 ++
  (b32 NCM_NDP_SIG0 ++ b16 20 ++ b16 32 ++ b16 48 ++ b16 4 ++ b16 52 ++ b16 2 ++ b16 0 ++ b16 0) ++
  (b32 NCM_NDP_SIG0 ++ b16 16 ++ b16 0 ++ b16 54 ++ b16 3 ++ b16 0 ++ b16 0) ++
  [1; 2; 3; 4; 5; 6; 7; 8; 9].
Definition block_arrived : eth_state := transfer_in ncm_ptr sample_block ncm_plugged.

Lemma ncm_live : listed_live block_arrived /\ listed_live ncm_plugged.
Proof. by split; vm_compute; repeat constructor; eexists. Qed.

Lemma ncm_block_received_witness :
  exists s', ncm_receive_callback ncm_adapter roomy ncm_ptr 0 57 block_arrived = EOk USB_SUCCESS s' /\
    emem s' = end_state (push_frames roomy 4096 [[1; 2; 3; 4]; [5; 6]; [7; 8; 9]] (emem block_arrived)).
Proof.
  apply (ncm_block_received ncm_adapter roomy _ _ (ncm_dev block_arrived) ncm_receive_cb _
    [[(48, 4); (52, 2)]; [(54, 3)]] true); [by vm_compute|by vm_compute|exact (proj1 ncm_live)|done| |by apply Nat.ltb_lt|].
  - split; [by vm_compute|]. split; [by vm_compute|]. exists 12. split; [by vm_compute|].
    eapply (tables_cons _ _ _ 32); [split| |apply tables_one; split]; try by vm_compute.
    + vm_compute. split_and!; try done. exists 0. split; [done|by left].
    + vm_compute. split_and!; try done. exists 0. split; [done|by left].
  - by vm_compute.
Defined.

Lemma ncm_round_trip_witness :
  exists block q sa', ncm_bulk_transmit ncm_adapter ncm_ptr (replicate 60 9) ncm_plugged = EOk ERR_OK_ sa' /\
    head (etrace sa') = Some (T_schedule 7002 (X_tx q block) (Z.of_nat (length block))) /\
    forall s p d cb old ok m,
      devs s !! p = Some d -> rx_callback d = Some cb -> listed_live s ->
      Z.of_nat (length old) = NCM_RX_NTB_MAX_SIZE -> rx_buf d = overwrite old block ->
      eth_ring_push_frame roomy (rx_ring d) (Some (replicate 60 9)) (emem s) = Ok ok m ->
      exists s', ncm_receive_callback ncm_adapter roomy p 0 (Z.of_nat (length block)) s = EOk USB_SUCCESS s' /\
        emem s' = m.
Proof.
  apply (ncm_round_trip ncm_adapter roomy ncm_adapter ncm_plugged ncm_ptr (ncm_dev ncm_plugged) 4);
    [by vm_compute|by vm_compute|lia|by vm_compute|by vm_compute|by vm_compute].
Defined.

(** The ring of the plugged-in device is empty. *)
Lemma ncm_queue : queue_at ncm_plugged ncm_ptr [].
Proof.
  set (rb := match heap (emem ncm_plugged) !! 4096 with Some (C_struct rb) => rb | _ => mb_blank end).
  set (arr := match heap (emem ncm_plugged) !! buf rb with Some (C_bytes l) => l | _ => [] end).
  exists 4096, rb, arr. split; [|split; [|by vm_compute]].
  - split; [exact (proj2 ncm_live)|]. exists (ncm_dev ncm_plugged). by split; vm_compute.
  - split; [done|by vm_compute|by vm_compute| | |by vm_compute; constructor].
    + split; vm_compute; repeat split; try done; try (intros; lia).
    + split; [vm_compute; split; [done|done]|]. intros _. vm_compute. repeat split; done.
Qed.

(** A table that names itself as the next one. *)
Definition circular_block : bytes :=
  ncm_nth 0 100 12 ++ b32 NCM_NDP_SIG0 ++ b16 16 ++ b16 12 ++ b16 2 ++ b16 5 ++ b16 0 ++ b16 0.
Definition circular : eth_state := transfer_in ncm_ptr circular_block ncm_plugged.

Lemma ncm_reception_ends_witness :
  ncm_receive_callback ncm_adapter roomy ncm_ptr 0 100 circular <> EBad EF_fuel.
Proof.
  apply (ncm_reception_ends ncm_adapter roomy circular ncm_ptr (ncm_dev circular) []);
    [by vm_compute|by vm_compute|apply received_queue, ncm_queue].
Defined.
