(* ===== verification/EthCorrect.v ===== *)
(** * The USB ethernet driver: devices, interfaces and notifications

    The descriptor parser stays inside well-formed descriptors and only
    succeeds with every endpoint found; the interface numbers and lwIP's list
    agree with the live devices at every event of the bus; the link follows
    the adapter's notifications; and the cases in which reception or a device
    is lost. *)

From S2P Require Import Prelude MemState MemPressure MemBuffer MemLogic RingList RingQueue RingCorrect MemSamples.
From S2P Require Import EthRing EthState EthDriver EthInit EthLogic NcmCorrect.

(** ** The parser *)

(** What each bit of [parse_state] stands for. *)
Record ps_inv (usb : Z) (s : parser) : Prop := {
  pi_in : has (ps_state s) PARSE_HAS_ENDPOINT_IN = true ->
    exists a, ps_in s = Some a /\ has a USB_DEVICE_TO_HOST = true;
  pi_out : has (ps_state s) PARSE_HAS_ENDPOINT_OUT = true ->
    exists a, ps_out s = Some a /\ has a USB_DEVICE_TO_HOST = false;
  pi_int : has (ps_state s) PARSE_HAS_ENDPOINT_INT = true -> is_Some (ps_int s);
  pi_bulk : has (ps_state s) PARSE_HAS_BULK_IF = true -> is_Some (ps_bulk s);
  pi_usb : dev_usb (ps_dev s) = usb;
  pi_iface : iface (ps_dev s) = blank_netif;
  pi_ring : rx_ring (ps_dev s) = 0
}.

Lemma has_testbit st i : 0 <= i -> has st (2 ^ i) = Z.testbit st i.
Proof.
  intros Hi. unfold has. destruct (Z.testbit st i) eqn:E.
  - destruct (Z.eqb_spec (Z.land st (2 ^ i)) 0) as [H|]; [|done].
    assert (Z.testbit (Z.land st (2 ^ i)) i = true) as Hb
      by (rewrite Z.land_spec, E, Z.pow2_bits_true; done).
    rewrite H, Z.bits_0 in Hb. done.
  - destruct (Z.eqb_spec (Z.land st (2 ^ i)) 0) as [|H]; [done|]. destruct H.
    apply Z.bits_inj'. intros k Hk. rewrite Z.land_spec, Z.bits_0, Z.pow2_bits_eqb by lia.
    destruct (Z.eqb_spec i k) as [->|]; [by rewrite E|apply andb_false_r].
Qed.

(** Setting one bit leaves the others. *)
Lemma has_lor st i j : 0 <= i -> 0 <= j ->
  has (Z.lor st (2 ^ j)) (2 ^ i) = has st (2 ^ i) || (j =? i).
Proof. intros. rewrite !has_testbit, Z.lor_spec, Z.pow2_bits_eqb by lia. done. Qed.

Lemma has_0 i : has 0 i = false.
Proof. unfold has. by rewrite Z.land_0_l. Qed.

(** The bits as powers of two. *)
Lemma parse_bits :
  PARSE_HAS_CONTROL_IF = 2 ^ 0 /\ PARSE_HAS_MAC_ADDR = 2 ^ 1 /\ PARSE_HAS_BULK_IF_NUM = 2 ^ 2 /\
  PARSE_HAS_BULK_IF = 2 ^ 3 /\ PARSE_HAS_ENDPOINT_INT = 2 ^ 4 /\ PARSE_HAS_ENDPOINT_IN = 2 ^ 5 /\
  PARSE_HAS_ENDPOINT_OUT = 2 ^ 6.
Proof. done. Qed.

(** The invariant of a parser from that of an earlier one: a bit is old, with
    its value kept, or has its value. *)
Lemma ps_inv_step usb s s' j : 0 <= j -> ps_inv usb s ->
  ps_state s' = Z.lor (ps_state s) (2 ^ j) ->
  (if j =? 5 then exists a, ps_in s' = Some a /\ has a USB_DEVICE_TO_HOST = true else ps_in s' = ps_in s) ->
  (if j =? 6 then exists a, ps_out s' = Some a /\ has a USB_DEVICE_TO_HOST = false else ps_out s' = ps_out s) ->
  (if j =? 4 then is_Some (ps_int s') else ps_int s' = ps_int s) ->
  (if j =? 3 then is_Some (ps_bulk s') else ps_bulk s' = ps_bulk s) ->
  dev_usb (ps_dev s') = usb -> iface (ps_dev s') = blank_netif -> rx_ring (ps_dev s') = 0 ->
  ps_inv usb s'.
Proof.
  intros Hj [Hin Hout Hint Hbulk _ _ _] Hst H5 H6 H4 H3 Hu Hi Hr.
  destruct parse_bits as (_&_&_&E3&E4&E5&E6).
  rewrite ?E3, ?E4, ?E5, ?E6 in *.
  split; try done; rewrite Hst, ?E3, ?E4, ?E5, ?E6, has_lor, orb_true_iff, Z.eqb_eq by lia.
  - destruct (Z.eqb_spec j 5); [done|]. rewrite H5. by intros [?| ->]; [auto|].
  - destruct (Z.eqb_spec j 6); [done|]. rewrite H6. by intros [?| ->]; [auto|].
  - destruct (Z.eqb_spec j 4); [done|]. rewrite H4. by intros [?| ->]; [auto|].
  - destruct (Z.eqb_spec j 3); [done|]. rewrite H3. by intros [?| ->]; [auto|].
Qed.

Lemma inv_endpoint usb addr s : ps_inv usb s ->
  match parse_endpoint addr s with
  | P_next s' => ps_inv usb s'
  | P_done s' => ps_inv usb s' /\ ps_complete s' = true /\ is_Some (ps_bulk s')
  | P_fail => True
  end.
Proof.
  intros H. unfold parse_endpoint. destruct (has (ps_state s) PARSE_HAS_BULK_IF) eqn:EB.
  - pose proof (pi_bulk _ _ H EB) as Hb.
    set (s' := if has addr _ then _ else _).
    assert (ps_inv usb s' /\ ps_bulk s' = ps_bulk s) as [H' Hb'].
    { unfold s'. destruct (has addr USB_DEVICE_TO_HOST) eqn:EA; (split; [|done]).
      - apply (ps_inv_step usb s _ 5); try apply H; try done. by eexists.
      - apply (ps_inv_step usb s _ 6); try apply H; try done. by eexists. }
    destruct (ps_complete s') eqn:EC; [|done]. split_and!; [done|done|by rewrite Hb'].
  - destruct (has (ps_state s) PARSE_HAS_CONTROL_IF); [|done].
    apply (ps_inv_step usb s _ 4); try apply H; try done. by eexists.
Qed.

(** Changes of the device that keep what the invariant says of it. *)
Lemma inv_with_dev usb s f :
  (forall d, dev_usb (f d) = dev_usb d /\ iface (f d) = iface d /\ rx_ring (f d) = rx_ring d) ->
  ps_inv usb s -> ps_inv usb (ps_with_dev f s).
Proof.
  intros Hf [Hin Hout Hint Hbulk Hu Hi Hr]. destruct (Hf (ps_dev s)) as (E1&E2&E3).
  split; cbn; try done; congruence.
Qed.

Lemma inv_bit usb s j : 0 <= j < 3 -> ps_inv usb s -> ps_inv usb (ps_set (2 ^ j) s).
Proof.
  intros Hj H. apply (ps_inv_step usb s _ j); try apply H; try done; try lia;
    repeat (rewrite (proj2 (Z.eqb_neq _ _)) by lia); done.
Qed.

(** Only the history has grown. *)
Definition traced (s s' : eth_state) : Prop := exists tr, s' = set_etrace tr s.

#[global] Instance traced_preorder : PreOrder traced.
Proof.
  split.
  - intros s. exists (etrace s). by destruct s.
  - intros s s' s'' [tr ->] [tr' ->]. by exists tr'.
Qed.

Lemma traced_log s e : traced s (set_etrace (e :: etrace s) s).
Proof. by eexists. Qed.

(** The outcome of the parser. *)
Definition parsed_ok (usb : Z) (r : parsed) : Prop :=
  match r with
  | P_next s => ps_inv usb s
  | P_done s => ps_inv usb s /\ ps_complete s = true /\ is_Some (ps_bulk s)
  | P_fail => True
  end.

(** The field the parser reads of a class-specific descriptor. *)
Definition cs_field (sub : Z) : Z :=
  if sub =? USB_ETHERNET_FUNCTIONAL_DESCRIPTOR then 3
  else if sub =? USB_UNION_FUNCTIONAL_DESCRIPTOR then 4
  else if sub =? USB_NCM_FUNCTIONAL_DESCRIPTOR then 5 else 2.

(** The bytes the parser reads of the descriptor at [off] are there. *)
Definition readable (buf : bytes) (off : Z) : Prop :=
  is_Some (le8 buf off) /\
  exists type, le8 buf (off + 1) = Some type /\
    (type = USB_ENDPOINT_DESCRIPTOR -> is_Some (le8 buf (off + 2))) /\
    (type = USB_INTERFACE_DESCRIPTOR -> forall k, 2 <= k <= 6 -> is_Some (le8 buf (off + k))) /\
    (type = USB_CS_INTERFACE_DESCRIPTOR -> exists sub, le8 buf (off + 2) = Some sub /\
     is_Some (le8 buf (off + cs_field sub))).

Lemma le8_some b off : 0 <= off < Z.of_nat (length b) -> is_Some (le8 b off).
Proof.
  intros H. unfold le8. rewrite (proj2 (Z.ltb_ge _ _)) by lia. apply lookup_lt_is_Some. lia.
Qed.

Lemma le16_some b off : 0 <= off -> off + 1 < Z.of_nat (length b) -> is_Some (le16 b off).
Proof.
  intros H1 H2. unfold le16. destruct (le8_some b off) as [x ->]; [lia|].
  destruct (le8_some b (off + 1)) as [y ->]; [lia|]. by eexists.
Qed.

Lemma mac_readable str : (26 <= length str)%nat -> is_Some (mac_of_string str).
Proof.
  intros Hl. unfold mac_of_string. apply mapM_is_Some.
  assert (forall i, 0 <= i <= 5 -> is_Some (mac_byte str i)) as H.
  { intros i Hi. unfold mac_byte. destruct (le16_some str (2 + 2 * (2 * i))) as [x ->]; [lia|lia|].
    destruct (le16_some str (2 + 2 * (2 * i + 1))) as [y ->]; [lia|lia|]. by eexists. }
  repeat constructor; apply H; lia.
Qed.

(** The array of a string is always all there. *)
Lemma string_buf_length env tr : length (string_descriptor_buf env tr) = Z.to_nat DESCRIPTOR_MAX_LEN.
Proof.
  unfold string_descriptor_buf, overwrite. set (size := Z.to_nat DESCRIPTOR_MAX_LEN).
  rewrite length_app, length_drop, length_fmap, length_seq, length_take. lia.
Qed.

Section Parse.
Context (env : usb_env) (F : eth_fault -> Prop) (usb : Z).

Lemma ewp_opt {A} f (o : option A) s (Q : A -> eth_state -> Prop) :
  (F f \/ is_Some o) -> (forall a, o = Some a -> Q a s) -> ewp F (orEBad f o) s Q.
Proof.
  intros Hf HQ. destruct o; [by apply HQ|]. destruct Hf as [|[? ?]]; done.
Qed.

Lemma ewp_ethernet i ps s (Q : parser -> eth_state -> Prop) :
  ps_inv usb ps ->
  (forall ps' s', ps_inv usb ps' -> traced s s' -> Q ps' s') ->
  ewp F (parse_ethernet env i ps) s Q.
Proof.
  intros Hp HQ. unfold parse_ethernet, control_transfer. ewp_go.
  assert (forall (r : Z * bytes) s1, traced s s1 ->
    (r.1 = 0 -> F EF_bounds \/ is_Some (mac_of_string r.2)) ->
    ewp F (if r.1 =? 0
      then mac ← orEBad EF_bounds (mac_of_string r.2);
           mret (ps_set PARSE_HAS_MAC_ADDR (ps_with_dev (set_dev_hwaddr mac) ps))
      else
       g ← tr ← egets etrace; elog (T_control REQUEST_GET_NET_ADDRESS 0 6);; mret (u_control env tr);
       if g.1 =? 0
       then mret (ps_set PARSE_HAS_MAC_ADDR
               (ps_with_dev (fun d => set_dev_hwaddr (overwrite (dev_hwaddr d) (take 6 g.2)) d) ps))
       else
        tr ← egets etrace; elog T_random;; let r0 := u_random env tr in
        tr ← egets etrace; elog T_random;; let r1 := u_random env tr in
        let s := ps_with_dev (set_dev_hwaddr (random_mac r0 r1)) ps in
        g ← tr ← egets etrace; elog (T_control REQUEST_SET_NET_ADDRESS 0 6);; mret (u_control env tr);
        mret (if g.1 =? 0 then ps_set PARSE_HAS_MAC_ADDR s else s)) s1 Q) as Hrest.
  { intros r s1 H1 Hr. destruct (Z.eqb_spec r.1 0) as [E|].
    - ewp_go. apply ewp_opt; [by apply Hr|]. intros mac _. ewp_go. apply HQ; [|done].
      apply (inv_bit _ _ 1); [lia|]. by apply inv_with_dev.
    - ewp_go. destruct (_ =? 0); ewp_go.
      + apply HQ; [|etransitivity; [exact H1|apply traced_log]].
        apply (inv_bit _ _ 1); [lia|]. by apply inv_with_dev.
      + apply HQ; [|etransitivity; [exact H1|by eexists]].
        destruct (_ =? 0); [apply (inv_bit _ _ 1); [lia|]|]; by apply inv_with_dev. }
  destruct (i =? 0); ewp_go; apply Hrest.
  - reflexivity.
  - done.
  - apply traced_log.
  - intros _. right. apply mac_readable. cbn [snd]. rewrite string_buf_length. unfold DESCRIPTOR_MAX_LEN. lia.
Qed.

Lemma ewp_interface buf n off ps s (Q : parsed -> eth_state -> Prop) :
  (forall k, 2 <= k <= 5 -> F EF_bounds \/ is_Some (le8 buf (off + k))) ->
  (F EF_bounds \/ is_Some (le8 buf (off + 6))) -> ps_inv usb ps ->
  (forall r s', parsed_ok usb r -> traced s s' -> Q r s') ->
  ewp F (parse_interface env buf n off ps) s Q.
Proof.
  intros Hrd H6 Hp HQ. unfold parse_interface. destruct (has _ _).
  - ewp_go. apply ewp_opt.
    { unfold is_bulk. destruct (Hrd 2 ltac:(lia)) as [|[x ->]]; [by left|].
      destruct (Hrd 4 ltac:(lia)) as [|[y ->]]; [by left|].
      destruct (Hrd 5 ltac:(lia)) as [|[z ->]]; [by left|right].
      cbn. destruct (negb _); [by eexists|]. cbn. destruct (negb _); by eexists. }
    intros [] _; ewp_go; (apply HQ; [cbn [parsed_ok]|done]); [|done].
    apply (ps_inv_step usb ps _ 3); try apply Hp; try done; by eexists.
  - cbv zeta. ewp_go. apply ewp_opt.
    { unfold control_subclass. destruct (Hrd 5 ltac:(lia)) as [|[x ->]]; [by left|].
      destruct H6 as [|[y ->]]; [by left|right]. cbn. destruct (negb _); by eexists. }
    assert (ps_inv usb (mk_parser 0 (ps_ifnum ps) (ps_dev ps) (ps_in ps) (ps_out ps) (ps_int ps) (ps_bulk ps)))
      as Hz by (split; cbn; try apply Hp; by rewrite has_0).
    intros [sub|] _; [|ewp_go; by apply HQ]. ewp_go.
    destruct (negb _); ewp_go; (apply HQ; [cbn [parsed_ok]|apply traced_log]); [done|].
    apply (inv_bit _ _ 0); [lia|]. by apply inv_with_dev.
Qed.

Lemma ewp_parse_one buf n off ps s (Q : parsed -> eth_state -> Prop) :
  (F EF_bounds \/ readable buf off) -> ps_inv usb ps ->
  (forall r s', parsed_ok usb r -> traced s s' -> Q r s') ->
  ewp F (parse_one env buf n off ps) s Q.
Proof.
  intros Hok Hp HQ. unfold parse_one. ewp_go. apply ewp_opt.
  { destruct Hok as [|[_ (t&->&_)]]; [by left|right; by eexists]. }
  intros type Et.
  destruct (Z.eqb_spec type USB_ENDPOINT_DESCRIPTOR) as [->|].
  { destruct (_ || _); [|ewp_go; by apply HQ]. ewp_go. apply ewp_opt.
    { destruct Hok as [|[_ (t&Et'&He&_)]]; [by left|right]. apply He. congruence. }
    intros addr _. ewp_go. apply HQ; [|done]. by apply inv_endpoint. }
  destruct (Z.eqb_spec type USB_INTERFACE_DESCRIPTOR) as [->|].
  { assert (forall k, 2 <= k <= 6 -> F EF_bounds \/ is_Some (le8 buf (off + k))) as Hrd.
    { intros k Hk. destruct Hok as [|[_ (t&Et'&_&He&_)]]; [by left|right]. apply He; [congruence|done]. }
    apply ewp_interface; [intros k Hk; apply Hrd; lia|apply Hrd; lia|done|done]. }
  destruct (Z.eqb_spec type USB_CS_INTERFACE_DESCRIPTOR) as [->|]; [|ewp_go; by apply HQ].
  assert (F EF_bounds \/ exists sub, le8 buf (off + 2) = Some sub /\ is_Some (le8 buf (off + cs_field sub))) as Hcs.
  { destruct Hok as [|[_ (t&Et'&_&_&He)]]; [by left|right]. apply He. congruence. }
  unfold parse_cs. ewp_go. apply ewp_opt; [destruct Hcs as [|(sub&->&_)]; [by left|right; by eexists]|]. intros sub Esub.
  assert (F EF_bounds \/ is_Some (le8 buf (off + cs_field sub))) as Hf.
  { destruct Hcs as [|(sub'&E&?)]; [by left|right]. by replace sub with sub' by congruence. }
  unfold cs_field in Hf. destruct (sub =? USB_ETHERNET_FUNCTIONAL_DESCRIPTOR).
  { ewp_go. apply ewp_opt; [exact Hf|]. intros i _. apply ewp_ethernet; [done|]. intros. ewp_go. by apply HQ. }
  destruct (sub =? USB_UNION_FUNCTIONAL_DESCRIPTOR).
  { ewp_go. apply ewp_opt; [exact Hf|]. intros i _. ewp_go. apply HQ; [cbn|done].
    apply (ps_inv_step usb ps _ 2); try apply Hp; done. }
  destruct (sub =? USB_NCM_FUNCTIONAL_DESCRIPTOR); [|ewp_go; by apply HQ].
  ewp_go. apply ewp_opt; [exact Hf|]. intros i _. ewp_go. apply HQ; [cbn|done]. by apply inv_with_dev.
Qed.

(** The loop, whatever the bytes, when every fault is accepted. *)
Lemma ewp_parse_loop_any fuel : (forall f, F f) -> forall buf n off ps s (Q : parsed -> eth_state -> Prop),
  ps_inv usb ps -> (forall r s', parsed_ok usb r -> traced s s' -> Q r s') ->
  ewp F (parse_loop env fuel buf n off ps) s Q.
Proof.
  intros HF. induction fuel as [|fuel IH]; intros buf n off ps s Q Hp HQ; cbn [parse_loop];
    (destruct (off <? n); [|ewp_go; by apply HQ]); [apply HF|].
  ewp_go. apply ewp_parse_one; [left; apply HF|done|]. intros r s1 Hr H1.
  destruct r as [ps'|ps'|]; [|ewp_go; by apply HQ|ewp_go; by apply HQ].
  ewp_go. apply ewp_option; [apply HF|]. intros k _. apply IH; [done|].
  intros r s2 Hr2 H2. apply HQ; [done|]. by etransitivity.
Qed.

Lemma ewp_configs_any n : (forall f, F f) -> forall config ps s (Q : parsed -> eth_state -> Prop),
  ps_inv usb ps -> (forall r s', parsed_ok usb r -> traced s s' -> Q r s') ->
  ewp F (parse_configs env n config ps) s Q.
Proof.
  intros HF. induction n as [|n IH]; intros config ps s Q Hp HQ; cbn [parse_configs]; [ewp_go; by apply HQ|].
  assert (ps_inv usb (mk_parser 0 0 (ps_dev ps) (ps_in ps) (ps_out ps) (ps_int ps) (ps_bulk ps)))
    as Hz by (split; cbn; try apply Hp; by rewrite has_0).
  ewp_go. destruct (_ <? _); [by apply IH|]. ewp_go. pose proof (traced_log s) as HT.
  destruct (_ || _); [apply IH; [done|]; intros; apply HQ; [done|]; etransitivity; [apply HT|done]|].
  ewp_go. apply ewp_parse_loop_any; [done|done|]. intros r s1 Hr H1.
  assert (traced s s1) as H01 by (etransitivity; [apply HT|exact H1]).
  destruct r as [ps'|ps'|]; [|ewp_go; by apply HQ|ewp_go; by apply HQ].
  apply IH; [done|]. intros r s2 Hr2 H2. apply HQ; [done|]. by etransitivity.
Qed.
End Parse.

(** A descriptor starts with its length and has the fields of its type. *)
Definition descriptor_ok (d : bytes) : Prop :=
  (2 <= length d)%nat /\ d !! 0%nat = Some (Z.of_nat (length d)) /\
  (d !! 1%nat = Some USB_ENDPOINT_DESCRIPTOR -> (3 <= length d)%nat) /\
  (d !! 1%nat = Some USB_INTERFACE_DESCRIPTOR -> (7 <= length d)%nat) /\
  (d !! 1%nat = Some USB_CS_INTERFACE_DESCRIPTOR ->
   exists sub, d !! 2%nat = Some sub /\ cs_field sub < Z.of_nat (length d)).

Lemma le8_within pre d post k : (k < length d)%nat ->
  le8 (pre ++ d ++ post) (Z.of_nat (length pre) + Z.of_nat k) = d !! k.
Proof.
  intros Hk. unfold le8. rewrite (proj2 (Z.ltb_ge _ _)) by lia.
  rewrite lookup_app_r by lia. rewrite lookup_app_l by lia. f_equal. lia.
Qed.

Lemma descriptor_readable pre d post : descriptor_ok d ->
  readable (pre ++ d ++ post) (Z.of_nat (length pre)).
Proof.
  intros (Hl&H0&He&Hi&Hc).
  assert (forall k, 0 <= k < Z.of_nat (length d) ->
    is_Some (le8 (pre ++ d ++ post) (Z.of_nat (length pre) + k))) as Hrd.
  { intros k Hk. replace k with (Z.of_nat (Z.to_nat k)) by lia. rewrite le8_within by lia.
    apply lookup_lt_is_Some. lia. }
  split; [rewrite <- (Z.add_0_r (Z.of_nat (length pre))); apply Hrd; lia|].
  destruct (lookup_lt_is_Some_2 d 1%nat) as [t Ht]; [lia|]. exists t. split.
  { rewrite <- Ht. exact (le8_within pre d post 1 ltac:(lia)). }
  rewrite Ht in He, Hi, Hc. split_and!.
  - intros ->. specialize (He eq_refl). apply Hrd. lia.
  - intros -> k Hk. specialize (Hi eq_refl). apply Hrd. lia.
  - intros ->. destruct (Hc eq_refl) as (sub&Hsub&Hlt). exists sub.
    pose proof (lookup_lt_Some _ _ _ Hsub). split; [rewrite <- Hsub; exact (le8_within pre d post 2 ltac:(lia))|].
    apply Hrd. split; [|done]. unfold cs_field. repeat case_match; lia.
Qed.

Lemma ewp_parse_loop env usb ds : Forall descriptor_ok ds ->
  forall pre fuel ps s (Q : parsed -> eth_state -> Prop),
  (length (concat ds) <= fuel)%nat -> ps_inv usb ps ->
  (forall r s', parsed_ok usb r -> traced s s' -> Q r s') ->
  ewp (fun _ => False) (parse_loop env fuel (pre ++ concat ds)
    (Z.of_nat (length (pre ++ concat ds))) (Z.of_nat (length pre)) ps) s Q.
Proof.
  intros HF. induction HF as [|d ds Hd HF IH]; intros pre fuel ps s Q Hfuel Hp HQ; cbn [concat] in *.
  { rewrite app_nil_r. destruct fuel; cbn [parse_loop]; rewrite Z.ltb_irrefl; ewp_go; by apply HQ. }
  rewrite length_app in Hfuel. pose proof Hd as (Hl&H0&_). destruct fuel as [|fuel]; [lia|].
  cbn [parse_loop]. rewrite (proj2 (Z.ltb_lt _ _)) by (rewrite !length_app; lia). ewp_go.
  apply (ewp_parse_one env _ usb); [right; by apply descriptor_readable|done|].
  intros r s1 Hr H1. destruct r as [ps'|ps'|]; [|ewp_go; by apply HQ|ewp_go; by apply HQ].
  pose proof (le8_within pre d (concat ds) 0 ltac:(lia)) as Hlen. rewrite Z.add_0_r, H0 in Hlen.
  rewrite Hlen. ewp_go. rewrite <- Nat2Z.inj_add, <- length_app, (app_assoc pre d).
  apply IH; [lia|done|]. intros r s2 Hr2 H2. apply HQ; [done|]. by etransitivity.
Qed.

(** C34. The descriptor parser is safe on every configuration made of
    well-formed descriptors, whatever the device answers to the requests it
    makes: of the configuration it reads only bytes the device sent, of a string
    (of any length) only its own array of [DESCRIPTOR_MAX_LEN] bytes; it ends;
    and it only succeeds when it has found a data interface, an in and an out
    endpoint with the right direction, an interrupt endpoint and a hardware
    address. *)
Theorem descriptor_parser_safe env usb ds ps s :
  Forall descriptor_ok ds -> ps_inv usb ps ->
  let buf := concat ds in
  exists r s', parse_loop env (length buf) buf (Z.of_nat (length buf)) 0 ps s = EOk r s' /\
    traced s s' /\
    (forall ps', r = P_done ps' -> is_Some (ps_bulk ps') /\ is_Some (ps_int ps') /\
       has (ps_state ps') PARSE_HAS_MAC_ADDR = true /\
       (exists a, ps_in ps' = Some a /\ has a USB_DEVICE_TO_HOST = true) /\
       exists b, ps_out ps' = Some b /\ has b USB_DEVICE_TO_HOST = false).
Proof.
  intros HF Hp buf.
  destruct (ewp_run (parse_loop env (length buf) buf (Z.of_nat (length buf)) 0 ps) s
    (fun r s' => parsed_ok usb r /\ traced s s')) as (r&s'&Hrun&Hr&Ht).
  { by apply (ewp_parse_loop env usb ds HF []). }
  exists r, s'. split_and!; [done|done|]. intros ps' ->. destruct Hr as (Hi&Hc&Hb).
  unfold ps_complete in Hc. apply andb_prop in Hc as [[[H1 H2]%andb_prop H3]%andb_prop H4].
  split_and!; [done|by apply (pi_int _ _ Hi)|done|by apply (pi_in _ _ Hi)|by apply (pi_out _ _ Hi)].
Qed.

(** A descriptor of length zero hangs the driver: for every bound on the
    number of turns the loop over the descriptors is still running. *)
Theorem zero_length_descriptor_hangs env fuel buf n off ps s type :
  le8 buf off = Some 0 -> le8 buf (off + 1) = Some type -> off < n ->
  type <> USB_ENDPOINT_DESCRIPTOR -> type <> USB_INTERFACE_DESCRIPTOR ->
  type <> USB_CS_INTERFACE_DESCRIPTOR ->
  parse_loop env fuel buf n off ps s = EBad EF_fuel.
Proof.
  intros H0 H1 Hlt N1 N2 N3. induction fuel as [|fuel IH]; cbn [parse_loop];
    rewrite (proj2 (Z.ltb_lt _ _) Hlt); [done|].
  assert (parse_one env buf n off ps s = EOk (P_next ps) s) as Hone.
  { unfold parse_one. rewrite H1. unfold mbind, EM_bind. cbn [orEBad mret EM_ret].
    by rewrite (proj2 (Z.eqb_neq _ _) N1), (proj2 (Z.eqb_neq _ _) N2), (proj2 (Z.eqb_neq _ _) N3). }
  unfold mbind, EM_bind. rewrite Hone, H0. cbn [orEBad mret EM_ret]. by rewrite Z.add_0_r.
Qed.

(** A string shorter than an address: what the array held before gets into the
    address. *)
Theorem short_string_reads_stack env tr : u_string env tr = (0, [26; 3]) ->
  mac_of_string (string_descriptor_buf env tr) =
  mac_of_string ([26; 3] ++ (u_stack env tr <$> seq 2 254)).
Proof. intros E. unfold string_descriptor_buf. by rewrite E. Qed.

(** ** Witnesses *)

(** The descriptors of the sample adapter. *)
Definition adapter_descriptors : list bytes :=
  [[9; 2; 80; 0; 2; 1; 0; 128; 50]; [9; 4; 0; 0; 1; 2; USB_ECM_SUBCLASS; 0; 0]; [5; 36; 0; 16; 1]; [5; 36; 6; 0; 1];
   [13; 36; 15; 3; 0; 0; 0; 0; 234; 5; 0; 0; 0]; [7; 5; 130; 3; 16; 0; 8]; [9; 4; 1; 0; 0; 10; 0; 0; 0];
   [9; 4; 1; 1; 2; 10; 0; 0; 0]; [7; 5; 129; 2; 64; 0; 0]; [7; 5; 2; 2; 64; 0; 0]].
Definition blank_parser : parser := mk_parser 0 0 (blank_dev 7) None None None None.

Lemma descriptor_parser_safe_witness :
  concat adapter_descriptors = adapter_config USB_ECM_SUBCLASS /\
  exists r s', parse_loop ecm_adapter (length (concat adapter_descriptors)) (concat adapter_descriptors)
    (Z.of_nat (length (concat adapter_descriptors))) 0 blank_parser eth_start = EOk r s' /\ traced eth_start s'.
Proof.
  split; [done|].
  destruct (descriptor_parser_safe ecm_adapter 7 adapter_descriptors blank_parser eth_start) as (r&s'&H&Ht&_).
  - repeat (constructor; [split_and!; cbn; try lia; try done; intros _; by eexists|]). constructor.
  - split; cbn; try (by rewrite has_0); done.
  - by exists r, s'.
Defined.

Lemma zero_length_descriptor_hangs_witness :
  parse_loop ecm_adapter 1000 [0; 11; 0; 0] 4 0 blank_parser eth_start = EBad EF_fuel.
Proof. by apply (zero_length_descriptor_hangs _ _ _ _ _ _ _ 11). Defined.
