(* ===== verification/EthIfaces.v ===== *)
(** * The USB ethernet driver as a system: interfaces and devices agree

    Everything that can happen to the driver (events of the bus, completed
    transfers, packets to send, the drain timer) as steps of a relation, and
    the invariant of its reachable states: the bitmap of interface numbers,
    lwIP's list of interfaces and the pointers attached to USB devices all
    describe the same set of live devices. *)

From S2P Require Import Prelude MemState MemPressure MemBuffer MemLogic EthRing EthState EthDriver EthInit.
From S2P Require Import MemSamples EthLogic NcmCorrect EthCorrect.

(** ** The invariant *)

Record ifaces_ok (s : eth_state) : Prop := {
  io_range : 0 <= ifnums_used s < 256;
  io_data : forall usb p, dev_data s !! usb = Some p <->
    exists d, devs s !! p = Some d /\ dev_usb d = usb;
  io_list : forall p, p ∈ netif_list s <-> is_Some (devs s !! p);
  io_nodup : NoDup (netif_list s);
  io_num : forall p d, devs s !! p = Some d ->
    p <> 0 /\ 0 <= nif_num (iface d) < 8 /\ nif_name (iface d) = (101, 110);
  io_bits : forall i, 0 <= i < 8 -> Z.testbit (ifnums_used s) i = true <->
    exists p d, devs s !! p = Some d /\ nif_num (iface d) = i;
  io_inj : forall p q d e, devs s !! p = Some d -> devs s !! q = Some e ->
    nif_num (iface d) = nif_num (iface e) -> p = q;
  io_default : netif_default s = 0 \/ is_Some (devs s !! netif_default s)
}.

(** What the invariant reads of a device. *)
Definition same_id (d d' : eth_device) : Prop :=
  dev_usb d' = dev_usb d /\ nif_num (iface d') = nif_num (iface d) /\
  nif_name (iface d') = nif_name (iface d).

#[global] Instance same_id_equiv : Equivalence same_id.
Proof.
  split.
  - done.
  - intros d d' (H1&H2&H3). by split_and!.
  - intros d d' d'' (H1&H2&H3) (H4&H5&H6). unfold same_id. by rewrite H4, H5, H6.
Qed.

(** Two states with the same interfaces. *)
Record same_ifaces (s s' : eth_state) : Prop := {
  si_used : ifnums_used s' = ifnums_used s;
  si_data : dev_data s' = dev_data s;
  si_list : netif_list s' = netif_list s;
  si_default : netif_default s' = netif_default s;
  si_devs : forall p, option_relation same_id (fun _ => False) (fun _ => False) (devs s !! p) (devs s' !! p)
}.

Lemma same_fwd s s' p d : same_ifaces s s' -> devs s !! p = Some d ->
  exists d', devs s' !! p = Some d' /\ same_id d d'.
Proof.
  intros H Hd. pose proof (si_devs _ _ H p) as D. rewrite Hd in D.
  destruct (devs s' !! p) as [d'|]; [by exists d'|done].
Qed.

Lemma same_bwd s s' p d : same_ifaces s s' -> devs s' !! p = Some d ->
  exists d', devs s !! p = Some d' /\ same_id d' d.
Proof.
  intros H Hd. pose proof (si_devs _ _ H p) as D. rewrite Hd in D.
  destruct (devs s !! p) as [d'|]; [by exists d'|done].
Qed.

Lemma same_live s s' p : same_ifaces s s' -> is_Some (devs s' !! p) <-> is_Some (devs s !! p).
Proof.
  intros H. split; intros [d Hd].
  - destruct (same_bwd _ _ _ _ H Hd) as (d'&->&_). by eexists.
  - destruct (same_fwd _ _ _ _ H Hd) as (d'&->&_). by eexists.
Qed.

Lemma ifaces_same s s' : same_ifaces s s' -> ifaces_ok s -> ifaces_ok s'.
Proof.
  intros H [Hr Hda Hl Hnd Hn Hb Hi Hdf]. pose proof H as [Eu Ed El Edf _]. split.
  - by rewrite Eu.
  - intros usb p. rewrite Ed, Hda. split.
    + intros (d&Hd&<-). destruct (same_fwd _ _ _ _ H Hd) as (d'&Hd'&(E&_)). eauto.
    + intros (d&Hd&<-). destruct (same_bwd _ _ _ _ H Hd) as (d'&Hd'&(E&_)). eauto.
  - intros p. by rewrite El, (same_live _ _ p H).
  - by rewrite El.
  - intros p d Hd. destruct (same_bwd _ _ _ _ H Hd) as (d'&Hd'&(_&En&Em)). rewrite En, Em. eauto.
  - intros i Hi8. rewrite Eu, Hb by done. split; intros (p&d&Hd&<-).
    + destruct (same_fwd _ _ _ _ H Hd) as (d'&Hd'&(_&E&_)). eauto.
    + destruct (same_bwd _ _ _ _ H Hd) as (d'&Hd'&(_&E&_)). eauto.
  - intros p q d e Hd He. destruct (same_bwd _ _ _ _ H Hd) as (d'&Hd'&(_&E1&_)).
    destruct (same_bwd _ _ _ _ H He) as (e'&He'&(_&E2&_)). rewrite E1, E2. eauto.
  - rewrite Edf, (same_live _ _ _ H). done.
Qed.

Lemma hooked_same m s s' : hooked (set_emem m s) s' -> same_ifaces s s'.
Proof.
  intros H. pose proof (hk_devs _ _ H) as HD. destruct H as [_ H1 H2 H3 H4 _ _ _ _ _].
  split; try done. intros p. specialize (HD p). cbn in HD.
  destruct (devs s !! p), (devs s' !! p); cbn in *; try done. by destruct HD as [b ->].
Qed.

Lemma ifaces_listed s : ifaces_ok s -> listed_live s.
Proof. intros H. apply Forall_forall. intros p. apply (io_list _ H). Qed.

(** ** Operations that keep the invariant *)

(** Any fault is accepted: the invariant is about the runs that return. *)
Definition anyf (_ : eth_fault) : Prop := True.
Definition keeps_ifaces {A} (c : EM A) : Prop :=
  forall s, ifaces_ok s -> ewp anyf c s (fun _ s' => ifaces_ok s').

Create HintDb keeps_ifaces.

(** A goal about one state, as a goal about the operation. *)
Ltac as_kept :=
  lazymatch goal with |- ewp anyf ?c _ _ => assert (keeps_ifaces c) as Hk; [|by apply Hk] end.

Section Kept.
Context (env : usb_env) (al : allocator).

Lemma kept_ret {A} (a : A) : keeps_ifaces (mret a).
Proof. by intros s H. Qed.

Lemma kept_bind {A B} (c : EM A) (k : A -> EM B) : keeps_ifaces c -> (forall a, keeps_ifaces (k a)) -> keeps_ifaces (c ≫= k).
Proof.
  intros Hc Hk s H. apply ewp_bind. eapply ewp_mono; [by apply Hc|]. intros a s' H'. by apply Hk.
Qed.

Lemma kept_gets {A} (f : eth_state -> A) : keeps_ifaces (egets f).
Proof. by intros s H. Qed.

Lemma kept_opt {A} f (o : option A) : keeps_ifaces (orEBad f o).
Proof. intros s H. by destruct o. Qed.

Lemma kept_fail {A} f : keeps_ifaces (efail (A := A) f).
Proof. by intros s H. Qed.

Lemma kept_get_dev p : keeps_ifaces (get_dev p).
Proof. intros s H. unfold ewp, get_dev. by destruct (devs s !! p). Qed.

Lemma kept_modify f : (forall s, same_ifaces s (f s)) -> keeps_ifaces (emodify f).
Proof. intros Hf s H. apply ewp_modify. by eapply ifaces_same. Qed.

Lemma same_devs s s' : ifnums_used s' = ifnums_used s -> dev_data s' = dev_data s ->
  netif_list s' = netif_list s -> netif_default s' = netif_default s -> devs s' = devs s -> same_ifaces s s'.
Proof.
  intros ???? E. split; try done. intros p. rewrite E. destruct (devs s !! p); cbn; [reflexivity|done].
Qed.

Lemma kept_upd_dev p f : (forall d, same_id d (f d)) -> keeps_ifaces (upd_dev p f).
Proof.
  intros Hf s H. unfold ewp, upd_dev, mbind, EM_bind, get_dev. destruct (devs s !! p) as [d|] eqn:Hd; [|done].
  cbn. eapply ifaces_same; [|exact H]. split; try done. intros q. cbn.
  destruct (decide (q = p)) as [->|]; [rewrite Hd, lookup_insert_eq; cbn; apply Hf|].
  rewrite lookup_insert_ne by done. destruct (devs s !! q); cbn; [reflexivity|done].
Qed.

Lemma kept_mem_call {A} (c : MM A) : keeps_ifaces (mem_call env c).
Proof.
  intros s H. apply ewp_mem_call; [by apply ifaces_listed|]. destruct (c (emem s)) as [a m|]; [|done].
  intros s' H'. eapply ifaces_same; [|exact H]. by eapply hooked_same.
Qed.

Lemma kept_when c k : (c = true -> keeps_ifaces k) -> keeps_ifaces (whenE c k).
Proof. intros Hk. destruct c; [by apply Hk|apply kept_ret]. Qed.

(** The default interface becomes a live one, or none. *)
Lemma kept_default p : forall s, ifaces_ok s -> p = 0 \/ is_Some (devs s !! p) ->
  ewp anyf (emodify (set_netif_default p)) s (fun _ s' => ifaces_ok s').
Proof. intros s [] Hp. apply ewp_modify. by split. Qed.

Hint Resolve kept_ret kept_gets kept_opt kept_fail kept_get_dev kept_mem_call : keeps_ifaces.
Hint Extern 1 (keeps_ifaces (emodify _)) => (apply kept_modify; intros; by apply same_devs) : keeps_ifaces.
Hint Extern 1 (keeps_ifaces (elog _)) => (apply kept_modify; intros; by apply same_devs) : keeps_ifaces.
Hint Extern 1 (keeps_ifaces (upd_dev _ _)) => (apply kept_upd_dev; done) : keeps_ifaces.
Hint Extern 1 (keeps_ifaces (upd_iface _ _)) => (apply kept_upd_dev; done) : keeps_ifaces.
Ltac keep := repeat first
  [ solve [eauto 4 with keeps_ifaces nocore] | apply kept_bind; [|intro] | apply kept_when; intro | case_match ].

Lemma kept_schedule ep x n : keeps_ifaces (schedule_transfer env ep x n).
Proof. unfold schedule_transfer. keep. Qed.
Hint Resolve kept_schedule : keeps_ifaces.

Lemma kept_schedule_rx p n : keeps_ifaces (schedule_rx env p n).
Proof. unfold schedule_rx, eth_should_schedule_rx. keep. Qed.
Hint Resolve kept_schedule_rx : keeps_ifaces.

Lemma kept_fatal usb n : keeps_ifaces (eth_xmit_fatal_error usb n).
Proof. unfold eth_xmit_fatal_error. keep. Qed.
Hint Resolve kept_fatal : keeps_ifaces.

Lemma kept_push_from p b i n : keeps_ifaces (push_from env al p b i n).
Proof. unfold push_from. keep. Qed.
Hint Resolve kept_push_from : keeps_ifaces.

Lemma kept_ecm_receive p st n : keeps_ifaces (ecm_receive_callback env al p st n).
Proof. unfold ecm_receive_callback. keep. Qed.

Lemma kept_datagrams fuel p b i k : keeps_ifaces (ncm_datagrams env al fuel p b i k).
Proof. revert k. induction fuel; intros; cbn [ncm_datagrams]; keep. Qed.
Hint Resolve kept_datagrams : keeps_ifaces.

Lemma kept_tables fuel p b i : keeps_ifaces (ncm_tables env al fuel p b i).
Proof. revert i. induction fuel; intros; cbn [ncm_tables]; keep. Qed.
Hint Resolve kept_tables : keeps_ifaces.

Lemma kept_pbuf_free p : keeps_ifaces (tx_pbuf_free p).
Proof. unfold tx_pbuf_free. keep. Qed.
Hint Resolve kept_pbuf_free : keeps_ifaces.

Lemma kept_ncm_receive p st n : keeps_ifaces (ncm_receive_callback env al p st n).
Proof. unfold ncm_receive_callback. keep. Qed.

Lemma kept_transmitted st q : keeps_ifaces (bulk_transmit_callback st q).
Proof. unfold bulk_transmit_callback. keep. Qed.

Lemma kept_ecm_transmit p d : keeps_ifaces (ecm_bulk_transmit env p d).
Proof. unfold ecm_bulk_transmit, tx_pbuf_alloc, tx_pbuf_fill. keep. Qed.

Lemma kept_ncm_transmit p d : keeps_ifaces (ncm_bulk_transmit env p d).
Proof. unfold ncm_bulk_transmit, tx_pbuf_alloc, tx_pbuf_fill. keep. Qed.
(** *** Notifications and the timer *)

Lemma ewp_upd_any p f s (Q : unit -> eth_state -> Prop) :
  (forall d, devs s !! p = Some d -> Q tt (set_devs (<[p := f d]> (devs s)) s)) ->
  ewp anyf (upd_dev p f) s Q.
Proof.
  intros HQ. unfold ewp, upd_dev, mbind, EM_bind, get_dev. destruct (devs s !! p) as [d|]; [|done].
  by apply HQ.
Qed.

Lemma kept_notify p v : keeps_ifaces (notify_connection p v).
Proof.
  intros s H. unfold notify_connection. destruct (negb (v =? 0)); ewp_go.
  - unfold netif_set_link_up, upd_iface. apply ewp_upd_any. intros d Hd.
    assert (ifaces_ok (set_devs (<[p:=set_iface (set_nif_flags (Z.lor (nif_flags (iface d)) NETIF_FLAG_LINK_UP)
      (iface d)) d]> (devs s)) s)) as H1.
    { pose proof (kept_upd_dev p (fun d => set_iface (set_nif_flags (Z.lor (nif_flags (iface d)) NETIF_FLAG_LINK_UP)
        (iface d)) d) ltac:(done) s H) as Hk. unfold ewp, upd_dev, mbind, EM_bind, get_dev in Hk.
      by rewrite Hd in Hk. }
    set (s1 := set_devs _ _) in *. assert (is_Some (devs s1 !! p)) as Hl by (unfold s1; cbn; rewrite lookup_insert_eq; by eexists).
    clearbody s1. ewp_go. assert (ifaces_ok (set_etrace (T_dhcp_start p :: etrace s1) s1)) as H2
      by (apply (ifaces_same s1); [by apply same_devs|done]).
    apply ewp_when; intros _; [|done]. ewp_go.
    destruct H2. split; try done. by right.
  - unfold netif_set_link_down, upd_iface. eapply ewp_mono; [by apply kept_upd_dev|].
    intros u s1 H1. ewp_go. apply ewp_when; intros _; [|done]. ewp_go. destruct H1. split; try done. by left.
Qed.
Hint Resolve kept_notify : keeps_ifaces.

Lemma kept_notify_loop fuel p b i n : keeps_ifaces (notify_loop fuel p b i n).
Proof. revert i. induction fuel; intros; cbn [notify_loop]; keep. Qed.
Hint Resolve kept_notify_loop : keeps_ifaces.

Lemma kept_interrupt p st n : keeps_ifaces (interrupt_receive_callback env p st n).
Proof. unfold interrupt_receive_callback. keep. Qed.

Lemma kept_drain_all l n : keeps_ifaces (drain_all env al l n).
Proof.
  revert n. induction l as [|p l IH]; intros n; cbn [drain_all]; [keep|].
  unfold drain_dev, deliver_frames. keep.
Qed.
Hint Resolve kept_drain_all : keeps_ifaces.

Lemma kept_timer : keeps_ifaces (eth_rx_drain_timer env al).
Proof. unfold eth_rx_drain_timer. keep. Qed.

(** *** A device is added *)

Lemma all_below (P : Z -> bool) n : forallb P (Z.of_nat <$> seq 0 n) = true ->
  forall i, 0 <= i < Z.of_nat n -> P i = true.
Proof.
  intros H i Hi. rewrite forallb_forall in H. apply H. apply in_map_iff.
  exists (Z.to_nat i). split; [lia|]. apply in_seq. lia.
Qed.

Lemma free_ifnum_spec used : 0 <= used < 256 -> used <> 255 ->
  let i := free_ifnum used 0 8 in 0 <= i < 8 /\ Z.testbit used i = false.
Proof.
  intros Hu Hne. pose proof (all_below (fun used => (used =? 255) ||
    ((0 <=? free_ifnum used 0 8) && (free_ifnum used 0 8 <? 8) && negb (Z.testbit used (free_ifnum used 0 8)))) 256
    ltac:(by vm_compute) used ltac:(lia)) as H. cbn beta in H.
  rewrite (proj2 (Z.eqb_neq _ _) Hne) in H. cbn [orb] in H.
  apply andb_prop in H as [[H1 H2]%andb_prop H3]. apply Z.leb_le in H1. apply Z.ltb_lt in H2.
  apply negb_true_iff in H3. done.
Qed.

Lemma used_set used i k : 0 <= used < 256 -> 0 <= i < 8 -> 0 <= k < 8 ->
  0 <= u8 (Z.lor used (Z.shiftl 1 i)) < 256 /\
  Z.testbit (u8 (Z.lor used (Z.shiftl 1 i))) k = Z.testbit used k || (k =? i).
Proof.
  intros Hu Hi Hk. split; [apply u8_range|]. unfold u8.
  rewrite Z.mod_pow2_bits_low by lia. rewrite Z.lor_spec, Z.shiftl_spec by lia. f_equal.
  destruct (Z.eqb_spec k i) as [->|]; [by rewrite Z.sub_diag|].
  destruct (decide (k < i)); [by rewrite Z.testbit_neg_r by lia|].
  replace (k - i) with (Z.succ (k - i - 1)) by lia. change 1 with (2 * 0 + 1).
  rewrite Z.testbit_odd_succ by lia. apply Z.bits_0.
Qed.

Lemma used_clear used i k : 0 <= used < 256 -> 0 <= i < 8 -> 0 <= k < 8 ->
  0 <= Z.land used (255 - u8 (Z.shiftl 1 i)) < 256 /\
  Z.testbit (Z.land used (255 - u8 (Z.shiftl 1 i))) k = Z.testbit used k && negb (k =? i).
Proof.
  intros Hu Hi Hk. split.
  - split; [apply Z.land_nonneg; lia|].
    rewrite <- (Z.mod_small used 256) by lia. change 256 with (2 ^ 8) at 1. rewrite <- Z.land_ones by lia.
    rewrite <- Z.land_assoc, (Z.land_comm (Z.ones 8)), Z.land_assoc, Z.land_ones by lia.
    by apply Z.mod_pos_bound.
  - rewrite Z.land_spec. f_equal.
    pose proof (all_below (fun ik => Bool.eqb (Z.testbit (255 - u8 (Z.shiftl 1 (ik / 8))) (ik mod 8))
      (negb (ik mod 8 =? ik / 8))) 64 ltac:(by vm_compute) (8 * i + k) ltac:(lia)) as H. cbn beta in H.
    apply eqb_prop in H.
    replace ((8 * i + k) / 8) with i in H by (rewrite Z.mul_comm, Z.div_add_l, Z.div_small; lia).
    replace ((8 * i + k) mod 8) with k in H by (rewrite Z.add_comm, Z.mul_comm, Z.mod_add, Z.mod_small; lia).
    exact H.
Qed.

(** The other devices are as they were. *)
Definition others (p : Z) (s s' : eth_state) : Prop :=
  forall q, q <> p -> option_relation same_id (fun _ => False) (fun _ => False) (devs s !! q) (devs s' !! q).

Lemma ifaces_added s s' usb p d : ifaces_ok s -> devs s !! p = None -> p <> 0 ->
  dev_data s !! usb = None -> ifnums_used s <> 255 ->
  devs s' !! p = Some d -> dev_usb d = usb -> nif_name (iface d) = (101, 110) ->
  nif_num (iface d) = free_ifnum (ifnums_used s) 0 8 ->
  ifnums_used s' = u8 (Z.lor (ifnums_used s) (Z.shiftl 1 (nif_num (iface d)))) ->
  dev_data s' = <[usb := p]> (dev_data s) -> netif_list s' = p :: netif_list s ->
  netif_default s' = netif_default s -> others p s s' -> ifaces_ok s'.
Proof.
  intros H Hp Hp0 Husb Hne Hd Hdu Hname Hnum Eu Ed El Edf HO.
  destruct (free_ifnum_spec _ (io_range _ H) Hne) as [Hi Hbit]. rewrite <- Hnum in Hi, Hbit.
  assert (forall q e, devs s' !! q = Some e -> q <> p -> exists e', devs s !! q = Some e' /\ same_id e' e) as Hb.
  { intros q e He Hq. specialize (HO q Hq). rewrite He in HO. destruct (devs s !! q) as [e'|]; [by exists e'|done]. }
  assert (forall q e, devs s !! q = Some e -> exists e', devs s' !! q = Some e' /\ same_id e e' /\ q <> p) as Hf.
  { intros q e He. assert (q <> p) as Hq by congruence. specialize (HO q Hq). rewrite He in HO.
    destruct (devs s' !! q) as [e'|]; [by exists e'|done]. }
  split.
  - rewrite Eu. apply u8_range.
  - intros u q. rewrite Ed, lookup_insert_Some. split.
    + intros [[<- <-]|[Hu Hq]]; [by exists d|]. apply (io_data _ H) in Hq as (e&He&<-).
      destruct (Hf _ _ He) as (e'&He'&(E&_)&_). eauto.
    + intros (e&He&<-). destruct (decide (q = p)) as [->|Hq]; [left; split; congruence|right].
      destruct (Hb _ _ He Hq) as (e'&He'&(E&_)). assert (dev_data s !! dev_usb e' = Some q) as Hx
        by (apply (io_data _ H); eauto). rewrite E. split; [congruence|done].
  - intros q. rewrite El, elem_of_cons, (io_list _ H). split.
    + intros [->|[e He]]; [by eexists|]. destruct (Hf _ _ He) as (e'&->&_). by eexists.
    + intros [e He]. destruct (decide (q = p)) as [->|Hq]; [by left|right].
      destruct (Hb _ _ He Hq) as (e'&->&_). by eexists.
  - rewrite El. constructor; [|apply (io_nodup _ H)]. rewrite (io_list _ H), Hp. by intros [? ?].
  - intros q e He. destruct (decide (q = p)) as [->|Hq].
    + assert (e = d) as -> by congruence. by split; [|split].
    + destruct (Hb _ _ He Hq) as (e'&He'&(_&E1&E2)). rewrite E1, E2. by apply (io_num _ H).
  - intros k Hk. rewrite Eu. destruct (used_set _ _ k (io_range _ H) Hi Hk) as [_ ->].
    rewrite orb_true_iff, (io_bits _ H k Hk), Z.eqb_eq. split.
    + intros [(q&e&He&<-)| ->]; [|by exists p, d]. destruct (Hf _ _ He) as (e'&He'&(_&E&_)&_). eauto.
    + intros (q&e&He&<-). destruct (decide (q = p)) as [->|Hq]; [right; congruence|left].
      destruct (Hb _ _ He Hq) as (e'&He'&(_&E&_)). exists q, e'. by split.
  - assert (forall q e, devs s' !! q = Some e -> q <> p -> nif_num (iface e) <> nif_num (iface d)) as Hfresh.
    { intros q e He Hq E. destruct (Hb _ _ He Hq) as (e'&He'&(_&E'&_)).
      assert (Z.testbit (ifnums_used s) (nif_num (iface d)) = true) by (apply (io_bits _ H _ Hi); exists q, e'; split; congruence).
      congruence. }
    intros q r e f He Hfr E. destruct (decide (q = p)) as [->|Hq], (decide (r = p)) as [->|Hr]; try done.
    + assert (e = d) as -> by congruence. by destruct (Hfresh _ _ Hfr Hr).
    + assert (f = d) as -> by congruence. by destruct (Hfresh _ _ He Hq).
    + destruct (Hb _ _ He Hq) as (e'&He'&(_&E1&_)). destruct (Hb _ _ Hfr Hr) as (f'&Hf'&(_&E2&_)).
      eapply (io_inj _ H); [exact He'|exact Hf'|congruence].
  - rewrite Edf. destruct (io_default _ H) as [|[e He]]; [by left|right].
    destruct (Hf _ _ He) as (e'&->&_). by eexists.
Qed.

(** *** A device is removed *)

#[local] Instance others_trans p : Transitive (others p).
Proof.
  intros s1 s2 s3 H1 H2 q Hq. specialize (H1 q Hq). specialize (H2 q Hq).
  destruct (devs s1 !! q), (devs s2 !! q), (devs s3 !! q); cbn in *; try done. by etransitivity.
Qed.

Lemma others_devs p s s' : (forall q, q <> p -> devs s' !! q = devs s !! q) -> others p s s'.
Proof.
  intros E q Hq. rewrite E by done. destruct (devs s !! q); cbn; [reflexivity|done].
Qed.

Lemma others_hooked p m s s' : hooked (set_emem m s) s' -> others p s s'.
Proof. intros H q _. apply (si_devs _ _ (hooked_same _ _ _ H)). Qed.

Lemma ifaces_removed s s' usb p d : ifaces_ok s -> devs s !! p = Some d -> dev_usb d = usb ->
  devs s' !! p = None ->
  ifnums_used s' = Z.land (ifnums_used s) (255 - u8 (Z.shiftl 1 (nif_num (iface d)))) ->
  dev_data s' = delete usb (dev_data s) -> netif_list s' = filter (fun q => q <> p) (netif_list s) ->
  netif_default s' = (if netif_default s =? p then 0 else netif_default s) -> others p s s' -> ifaces_ok s'.
Proof.
  intros H Hd Hdu Hp Eu Ed El Edf HO. destruct (io_num _ H _ _ Hd) as (_&Hi&_).
  assert (forall q e, devs s' !! q = Some e -> exists e', q <> p /\ devs s !! q = Some e' /\ same_id e' e) as Hb.
  { intros q e He. assert (q <> p) as Hq by congruence. specialize (HO q Hq). rewrite He in HO.
    destruct (devs s !! q) as [e'|]; [by exists e'|done]. }
  assert (forall q e, q <> p -> devs s !! q = Some e -> exists e', devs s' !! q = Some e' /\ same_id e e') as Hf.
  { intros q e Hq He. specialize (HO q Hq). rewrite He in HO. destruct (devs s' !! q) as [e'|]; [by exists e'|done]. }
  split.
  - rewrite Eu. apply (used_clear _ _ 0 (io_range _ H) Hi). lia.
  - intros u q. rewrite Ed, lookup_delete_Some. split.
    + intros [Hu Hq]. apply (io_data _ H) in Hq as (e&He&<-).
      destruct (Hf q e) as (e'&He'&(E&_)); [congruence|done|]. eauto.
    + intros (e&He&<-). destruct (Hb _ _ He) as (e'&Hq&He'&(E&_)).
      assert (dev_data s !! dev_usb e' = Some q) as Hx by (apply (io_data _ H); eauto).
      assert (dev_data s !! dev_usb d = Some p) as Hy by (apply (io_data _ H); eauto).
      rewrite E. split; [congruence|done].
  - intros q. rewrite El, list_elem_of_filter, (io_list _ H). split.
    + intros [Hq [e He]]. destruct (Hf _ _ Hq He) as (e'&->&_). by eexists.
    + intros [e He]. destruct (Hb _ _ He) as (e'&Hq&->&_). by split; [|eexists].
  - rewrite El. apply NoDup_filter, (io_nodup _ H).
  - intros q e He. destruct (Hb _ _ He) as (e'&Hq&He'&(_&E1&E2)). rewrite E1, E2. by apply (io_num _ H).
  - intros k Hk. rewrite Eu. destruct (used_clear _ _ k (io_range _ H) Hi Hk) as [_ ->].
    rewrite andb_true_iff, (io_bits _ H k Hk), negb_true_iff, Z.eqb_neq. split.
    + intros [(q&e&He&<-) Hne]. destruct (Hf q e) as (e'&He'&(_&E&_)); [congruence|done|]. eauto.
    + intros (q&e&He&<-). destruct (Hb _ _ He) as (e'&Hq&He'&(_&E&_)). split; [by exists q, e'|].
      intros E'. apply Hq. eapply (io_inj _ H); [exact He'|exact Hd|congruence].
  - intros q r e f He Hfr E. destruct (Hb _ _ He) as (e'&_&He'&(_&E1&_)).
    destruct (Hb _ _ Hfr) as (f'&_&Hf'&(_&E2&_)). eapply (io_inj _ H); [exact He'|exact Hf'|congruence].
  - rewrite Edf. destruct (Z.eqb_spec (netif_default s) p) as [|Hne]; [by left|].
    destruct (io_default _ H) as [|[e He]]; [by left|right].
    destruct (Hf _ _ Hne He) as (e'&->&_). by eexists.
Qed.

(** The steps of [detach] after the interface is down. *)
Lemma ewp_detached s usb p d : ifaces_ok s -> devs s !! p = Some d -> dev_usb d = usb ->
  ewp anyf
    (emodify (fun s => set_ifnums_used (Z.land (ifnums_used s) (255 - u8 (Z.shiftl 1 (nif_num (iface d))))) s);;
     netif_remove p;;
     whenE (negb (rx_ring d =? 0))
       (mem_call env (mem_buffer_destroy al (rx_ring d));; upd_dev p (set_rx_ring 0));;
     emodify (fun s => set_devs (delete p (devs s)) s);;
     elog (T_free p);;
     emodify (fun s => set_dev_data (delete usb (dev_data s)) s)) s (fun _ s' => ifaces_ok s').
Proof.
  intros H Hd Hu. unfold netif_remove. ewp_go. cbn [set_ifnums_used netif_list netif_default].
  set (s1 := if _ : bool then _ else _).
  assert (ifnums_used s1 = Z.land (ifnums_used s) (255 - u8 (Z.shiftl 1 (nif_num (iface d)))) /\
    dev_data s1 = dev_data s /\ netif_list s1 = filter (fun q => q <> p) (netif_list s) /\
    netif_default s1 = (if netif_default s =? p then 0 else netif_default s) /\ devs s1 = devs s)
    as (E1&E2&E3&E4&E5) by (unfold s1; cbn; by destruct (_ =? p)).
  clearbody s1.
  assert (listed_live s1) as HL.
  { apply Forall_forall. intros q. rewrite E3, E5, list_elem_of_filter. intros [_ Hq]. by apply (io_list _ H). }
  assert (forall s2, ifnums_used s2 = ifnums_used s1 -> dev_data s2 = dev_data s1 -> netif_list s2 = netif_list s1 ->
    netif_default s2 = netif_default s1 -> others p s1 s2 ->
    ewp anyf (emodify (fun s => set_devs (delete p (devs s)) s);; elog (T_free p);;
      emodify (fun s => set_dev_data (delete usb (dev_data s)) s)) s2 (fun _ s' => ifaces_ok s')) as Hend.
  { intros s2 F1 F2 F3 F4 HO. ewp_go.
    eapply (ifaces_removed s _ usb p d H Hd Hu); cbn; [apply lookup_delete_eq|congruence|congruence|congruence|congruence|].
    intros q Hq. specialize (HO q Hq). cbn. rewrite lookup_delete_ne by done. by rewrite <- E5. }
  apply ewp_when; intros _; [|apply Hend; try done; by apply others_devs].
  ewp_go. apply ewp_mem_call; [done|]. destruct (mem_buffer_destroy _ _ _) as [[] m|]; [|done].
  intros s2 H2. apply ewp_upd_any. intros e He. pose proof H2 as [_ H3 H4 H5 H6 _ _ _ _ _].
  apply Hend; try done. transitivity s2; [by eapply others_hooked|].
  apply others_devs. intros q Hq. cbn. by rewrite lookup_insert_ne.
Qed.

Lemma ewp_set_down p s d (Q : unit -> eth_state -> Prop) : ifaces_ok s -> devs s !! p = Some d ->
  (forall s' d', ifaces_ok s' -> devs s' !! p = Some d' -> dev_usb d' = dev_usb d -> Q tt s') ->
  ewp anyf (netif_set_link_down p) s (fun _ s1 => ewp anyf (netif_set_down p) s1 Q).
Proof.
  intros H Hd HQ. unfold netif_set_link_down, netif_set_down, upd_iface.
  eapply ewp_upd_dev; [exact Hd|]. eapply ewp_upd_dev; [cbn; apply lookup_insert_eq|].
  eapply HQ; [|cbn; apply lookup_insert_eq|done].
  eapply ifaces_same; [|exact H]. split; try done. intros q. cbn.
  destruct (decide (q = p)) as [->|]; [rewrite Hd, lookup_insert_eq; by cbn|].
  rewrite !lookup_insert_ne by done. destruct (devs s !! q); cbn; [reflexivity|done].
Qed.

Lemma kept_detach usb : keeps_ifaces (detach env al usb).
Proof.
  intros s H. unfold detach. ewp_go. apply ewp_option; [done|]. intros p Hp.
  apply (io_data _ H) in Hp as (d&Hd&Hu).
  apply ewp_bind. eapply ewp_mono; [apply (ewp_set_down p s d (fun _ s1 => ifaces_ok s1 /\
    exists d1, devs s1 !! p = Some d1 /\ dev_usb d1 = dev_usb d)); eauto|].
  intros [] s0 Hs0. ewp_go. eapply ewp_mono; [exact Hs0|]. intros [] s1 (H1&d1&Hd1&Hu1). ewp_go.
  destruct (eth_disabled_with_error s1).
  - ewp_go. eapply ifaces_same; [|exact H1]. by apply same_devs.
  - apply ewp_bind. eapply ewp_get_dev; [exact Hd1|]. apply ewp_detached; congruence.
Qed.

(** *** Attachment *)

(** The allocator hands out no address that is in use. *)
Definition mallocs_fresh (s : eth_state) : Prop := forall tr, devs s !! u_malloc env tr = None.

Lemma traced_same s s' : traced s s' -> same_ifaces s s'.
Proof. intros [tr ->]. by apply same_devs. Qed.

Lemma traced_fresh s s' : traced s s' -> mallocs_fresh s -> mallocs_fresh s'.
Proof. by intros [tr ->]. Qed.

Lemma ewp_resumed usb tmp p s : ifaces_ok s -> dev_data s !! usb = Some p -> dev_usb tmp = usb ->
  ewp anyf (upd_dev p (fun old => set_rx_ring (rx_ring old) (set_iface (iface old) tmp));; eth_netif_init p) s
    (fun _ s' => ifaces_ok s').
Proof.
  intros H Hp Ht. apply (io_data _ H) in Hp as (d&Hd&Hu). unfold eth_netif_init. ewp_go.
  eapply ewp_upd_dev; [exact Hd|]. eapply ewp_upd_dev; [cbn; apply lookup_insert_eq|].
  eapply ifaces_same; [|exact H]. split; try done. intros q. cbn.
  destruct (decide (q = p)) as [->|]; [rewrite Hd, lookup_insert_eq; cbn; unfold same_id; cbn; by rewrite Ht|].
  rewrite !lookup_insert_ne by done. destruct (devs s !! q); cbn; [reflexivity|done].
Qed.

Lemma ewp_attach usb tmp s : ifaces_ok s -> ifnums_used s <> 255 -> mallocs_fresh s -> dev_usb tmp = usb ->
  ewp anyf (attach env usb tmp) s (fun _ s' => ifaces_ok s').
Proof.
  intros H Hne Hfr Ht. unfold attach. ewp_go. destruct (dev_data s !! usb) as [p|] eqn:Hp.
  { pose proof (ewp_resumed usb tmp p s H Hp Ht) as HR. apply ewp_bind in HR || idtac.
    unfold ewp, mbind, EM_bind in *. destruct (upd_dev _ _ _) as [[] s1|]; [|done].
    destruct (eth_netif_init p s1); [|done]. exact HR. }
  ewp_go. set (p := u_malloc env (etrace s)).
  destruct (Z.eqb_spec p 0) as [|Hp0].
  { ewp_go. eapply ifaces_same; [|exact H]. by apply same_devs. }
  unfold netif_add_noaddr, eth_netif_init. ewp_go.
  eapply ewp_upd_dev; [cbn; apply lookup_insert_eq|]. ewp_go. cbn [negb]. ewp_go.
  eapply ewp_upd_dev; [cbn; apply lookup_insert_eq|]. ewp_go.
  eapply (ifaces_added s _ usb p); [done|apply Hfr|done|done|done|cbn; apply lookup_insert_eq|done| | | | | | |]; try done.
  apply others_devs. intros q Hq. cbn. by rewrite !lookup_insert_ne.
Qed.

Lemma kept_attach_ring p : keeps_ifaces (attach_ring env al p).
Proof. unfold attach_ring. keep. Qed.
Hint Resolve kept_attach_ring : keeps_ifaces.

Lemma kept_hook : keeps_ifaces (eth_register_pressure_hook env).
Proof. unfold eth_register_pressure_hook. keep. Qed.
Hint Resolve kept_hook : keeps_ifaces.

Lemma kept_throttle lv : keeps_ifaces (eth_set_rx_throttle env lv).
Proof.
  intros s H. apply ewp_throttle; [by apply ifaces_listed|]. intros s' H'.
  eapply ifaces_same; [|exact H]. apply (hooked_same (emem s)). by destruct s.
Qed.

Lemma ewp_control d s (Q : Z * eth_device -> eth_state -> Prop) :
  (forall r d' s', dev_usb d' = dev_usb d -> traced s s' -> Q (r, d') s') ->
  ewp anyf (ncm_control_setup env d) s Q.
Proof.
  intros HQ. unfold ncm_control_setup, control_transfer. destruct (negb _); [ewp_go; by apply HQ|].
  ewp_go. destruct (ncm_device_supports _ 0); ewp_go; (apply HQ; [done|by eexists]).
Qed.

Lemma ewp_init_success usb ps s : ifaces_ok s -> ifnums_used s <> 255 -> mallocs_fresh s ->
  dev_usb (ps_dev ps) = usb -> ewp anyf (init_success env al usb ps) s (fun _ s' => ifaces_ok s').
Proof.
  intros H Hne Hfr Hu. unfold init_success. apply ewp_bind, ewp_control. intros r d s1 Hd H1.
  pose proof (ifaces_same _ _ (traced_same _ _ H1) H) as Hs1. cbn [fst snd].
  destruct (negb _); [by ewp_go|]. cbv zeta. destruct (_ && _); [by ewp_go|].
  apply ewp_bind, ewp_option; [done|]. intros left _. ewp_go.
  set (s2 := set_etrace _ s1). assert (traced s s2) as H2 by (etransitivity; [exact H1|by eexists]).
  pose proof (ifaces_same _ _ (traced_same _ _ H2) H) as Hs2.
  assert (ifnums_used s2 <> 255) as Hne2 by (destruct H1 as [tr ->]; exact Hne).
  pose proof (traced_fresh _ _ H2 Hfr) as Hfr2. clearbody s2.
  destruct (negb _); [by ewp_go|].
  apply ewp_bind, ewp_option; [done|]. intros i _. apply ewp_bind, ewp_option; [done|]. intros o _.
  apply ewp_bind, ewp_option; [done|]. intros n _.
  apply ewp_bind. eapply ewp_mono; [apply ewp_attach; [done|done|done|cbn; congruence]|].
  intros p s3 H3. cbn beta.
  as_kept.   unfold netif_set_up. keep.
Qed.

Lemma ewp_init_device usb s : ifaces_ok s -> mallocs_fresh s ->
  ewp anyf (init_ethernet_usb_device env al usb) s (fun _ s' => ifaces_ok s').
Proof.
  intros H Hfr. unfold init_ethernet_usb_device. ewp_go. destruct (Z.eqb_spec (ifnums_used s) 255) as [|Hne]; [by ewp_go|].
  ewp_go. pose proof (traced_log s (T_descriptor USB_DEVICE_DESCRIPTOR 0)) as H1. set (s1 := set_etrace _ s) in *.
  assert (forall s', traced s s' -> ifaces_ok s') as Hk by (intros s' H'; by eapply ifaces_same; [apply traced_same|]).
  destruct (_ || _); [ewp_go; by apply Hk|].
  apply ewp_bind, ewp_option; [done|]. intros class _. destruct (negb _); [ewp_go; by apply Hk|].
  apply ewp_bind, ewp_option; [done|]. intros n _. apply ewp_bind.
  apply (ewp_configs_any env anyf usb); [done| |].
  { split; cbn; try (by rewrite has_0); done. }
  intros r s2 Hr H2. assert (traced s s2) as H02 by (by transitivity s1).
  destruct r as [?|ps|]; [ewp_go; by apply Hk| |ewp_go; by apply Hk].
  apply ewp_init_success; [by apply Hk| |by eapply traced_fresh|apply Hr].
  destruct H02 as [tr ->]. exact Hne.
Qed.

Lemma ewp_event ev usb s : ifaces_ok s -> mallocs_fresh s ->
  ewp anyf (eth_usb_event_callback env al ev usb) s (fun _ s' => ifaces_ok s').
Proof.
  intros H Hfr. unfold eth_usb_event_callback. ewp_go. destruct ev.
  - ewp_go. apply ewp_when; intros _; ewp_go; [|done]. eapply ifaces_same; [|exact H]. by apply same_devs.
  - destruct (u_is_hub _ _).
    + ewp_go. destruct (_ <? _); [done|]. ewp_go. apply ewp_when; intros _; ewp_go;
        (eapply ifaces_same; [|exact H]); by apply same_devs.
    + apply ewp_bind. eapply ewp_mono; [by apply ewp_init_device|]. by intros.
  - apply ewp_bind. eapply ewp_mono; [by apply kept_detach|]. by intros.
  - apply ewp_bind. eapply ewp_mono; [by apply kept_detach|]. by intros.
  - by ewp_go.
  - by ewp_go.
Qed.
End Kept.

(** ** The driver as a system *)

(** What can happen: an event of the bus, a transfer that ended (the device has
    written the buffer first), a packet to send, a call of the timer or of the
    setters.  [p] is the pointer that was registered with the call. *)
Inductive eth_op :=
| O_event (ev : usb_event) (usb : Z)
| O_interrupt (p status : Z) (data : bytes)
| O_ecm_received (p status : Z) (data : bytes)
| O_ncm_received (p status : Z) (data : bytes)
| O_sent (status pbuf : Z)
| O_send (p : Z) (payload : bytes)
| O_timer
| O_throttle (level : mem_pressure_level)
| O_interval (ms : Z).

Definition run_eth_op (env : usb_env) (al : allocator) (o : eth_op) : EM unit :=
  match o with
  | O_event ev usb => _ ← eth_usb_event_callback env al ev usb; mret tt
  | O_interrupt p st data =>
      upd_dev p (fun d => set_int_buf (overwrite (int_buf d) data) d);;
      _ ← interrupt_receive_callback env p st (Z.of_nat (length data)); mret tt
  | O_ecm_received p st data =>
      upd_dev p (fun d => set_rx_buf (overwrite (rx_buf d) data) d);;
      _ ← ecm_receive_callback env al p st (Z.of_nat (length data)); mret tt
  | O_ncm_received p st data =>
      upd_dev p (fun d => set_rx_buf (overwrite (rx_buf d) data) d);;
      _ ← ncm_receive_callback env al p st (Z.of_nat (length data)); mret tt
  | O_sent st q => _ ← bulk_transmit_callback st q; mret tt
  | O_send p payload =>
      d ← get_dev p;
      match nif_linkoutput (iface d) with
      | Some ecm_transmit_fn => _ ← ecm_bulk_transmit env p payload; mret tt
      | Some ncm_transmit_fn => _ ← ncm_bulk_transmit env p payload; mret tt
      | None => efail EF_null
      end
  | O_timer => eth_rx_drain_timer env al
  | O_throttle lv => eth_set_rx_throttle env lv
  | O_interval ms => eth_set_rx_drain_interval_ms ms
  end.

(** A step, with any answers of the USB library, of lwIP and of the
    allocators. *)
Inductive eth_step (s s' : eth_state) : Prop :=
| eth_step_op env al o : mallocs_fresh env s -> run_eth_op env al o s = EOk tt s' -> eth_step s s'.

(** Before the first event: the static initialisers, and any memory manager. *)
Definition eth_initial (m : mem_state) (pbufs : gmap Z bytes) : eth_state :=
  mk_eth 0 false MEM_PRESSURE_NONE false false ETH_RX_DRAIN_INTERVAL_MS 0 false 0 0 0 empty empty [] 0
    pbufs m [].

Lemma ifaces_initial m pbufs : ifaces_ok (eth_initial m pbufs).
Proof.
  split; cbn.
  - lia.
  - intros usb p. rewrite lookup_empty. split; [done|]. intros (d&Hd&_). by rewrite lookup_empty in Hd.
  - intros p. rewrite lookup_empty. split; [by intros ?%elem_of_nil|by intros [? ?]].
  - constructor.
  - intros p d Hd. by rewrite lookup_empty in Hd.
  - intros i Hi. rewrite Z.bits_0. split; [done|]. intros (p&d&Hd&_). by rewrite lookup_empty in Hd.
  - intros p q d e Hd. by rewrite lookup_empty in Hd.
  - by left.
Qed.

Lemma ewp_op env al o s : ifaces_ok s -> mallocs_fresh env s ->
  ewp anyf (run_eth_op env al o) s (fun _ s' => ifaces_ok s').
Proof.
  intros H Hfr. destruct o as [ev usb|p st b|p st b|p st b|st q|p b| |lv|ms]; cbn [run_eth_op].
  - apply ewp_bind. eapply ewp_mono; [by apply ewp_event|]. by intros.
  - as_kept. apply kept_bind; [by apply kept_upd_dev|intros _]. apply kept_bind; [apply kept_interrupt|intro; apply kept_ret].
  - as_kept. apply kept_bind; [by apply kept_upd_dev|intros _]. apply kept_bind; [apply kept_ecm_receive|intro; apply kept_ret].
  - as_kept. apply kept_bind; [by apply kept_upd_dev|intros _]. apply kept_bind; [apply kept_ncm_receive|intro; apply kept_ret].
  - as_kept. apply kept_bind; [apply kept_transmitted|intro; apply kept_ret].
  - as_kept. apply kept_bind; [apply kept_get_dev|intros d]. destruct (nif_linkoutput _) as [[]|].
    + apply kept_bind; [apply kept_ncm_transmit|intro; apply kept_ret].
    + apply kept_bind; [apply kept_ecm_transmit|intro; apply kept_ret].
    + apply kept_fail.
  - by apply kept_timer.
  - by apply kept_throttle.
  - as_kept. apply kept_modify. intros. by apply same_devs.
Qed.

Lemma ifaces_step s s' : eth_step s s' -> ifaces_ok s -> ifaces_ok s'.
Proof.
  intros [env al o Hfr Hrun] H. pose proof (ewp_op env al o s H Hfr) as Hw. unfold ewp in Hw. by rewrite Hrun in Hw.
Qed.

Lemma ifaces_reached s s' : rtc eth_step s s' -> ifaces_ok s -> ifaces_ok s'.
Proof. induction 1 as [|s s1 s' Hs _ IH]; [done|]. intros H. by apply IH, (ifaces_step s). Qed.

(** C14. In every state the driver reaches, whatever the bus, the devices and
    the stack do: lwIP's list of interfaces holds exactly the live devices,
    once each; the pointer attached to a USB device is that of the live device
    for it; a bit of the number bitmap is set exactly when a live interface has
    the number, which no other has; every interface is called "en"; and the
    default interface, when there is one, belongs to a live device. *)
Theorem interfaces_consistent m pbufs s :
  rtc eth_step (eth_initial m pbufs) s -> ifaces_ok s.
Proof. intros H. eapply ifaces_reached; [exact H|apply ifaces_initial]. Qed.

(** An adapter that has been plugged in and has reported its link. *)
Definition no_memory (e : usb_env) : usb_env :=
  mk_usb (u_schedule e) (u_control e) (u_config_len e) (u_descriptor e) (u_string e) (u_set_configuration e)
    (u_set_interface e) (u_endpoint e) (u_role_device e) (u_is_hub e) (u_random e) (fun _ => 0) (u_pbuf e) (u_chain e)
    (u_stack e).
Definition link_notice : bytes := [0xA1; 0; 1; 0; 0; 0; 0; 0].
Lemma interfaces_consistent_witness : exists s,
  rtc eth_step (eth_initial mem_fresh empty) s /\ netif_list s <> [] /\ ifnums_used s = 1 /\ ifaces_ok s.
Proof.
  set (s1 := end_eth (run_eth_op ecm_adapter roomy (O_event USB_DEVICE_ENABLED_EVENT 7) eth_start)).
  set (s2 := end_eth (run_eth_op (no_memory ecm_adapter) roomy (O_interrupt (the_device s1) 0 link_notice) s1)).
  assert (rtc eth_step (eth_initial mem_fresh empty) s2) as Hr.
  { eapply rtc_l; [|eapply rtc_l; [|reflexivity]].
    - apply (eth_step_op _ _ ecm_adapter roomy (O_event USB_DEVICE_ENABLED_EVENT 7)); [done|].
      by vm_compute.
    - apply (eth_step_op _ _ (no_memory ecm_adapter) roomy (O_interrupt (the_device s1) 0 link_notice)); [|by vm_compute].
      intros tr. by vm_compute. }
  exists s2. split_and!; [exact Hr|by vm_compute|by vm_compute|].
  exact (interfaces_consistent _ _ _ Hr).
Defined.
