(* ===== verification/EthEdge.v ===== *)
(** * The USB ethernet driver: addresses, notifications and edge cases

    Hardware addresses survive their string descriptor; the link of an
    interface follows the adapter's notifications; and runs of the driver
    where a device is lost, a buffer is left or reception stops. *)

From S2P Require Import Prelude MemState MemPressure MemBuffer MemLogic MemSamples EthRing EthState EthDriver EthInit.
From S2P Require Import EthLogic NcmCorrect EthCorrect EthIfaces.

(** ** Hardware addresses *)

(** A hexadecimal digit, in either case. *)
Definition hex_digit (upper : bool) (v : Z) : Z :=
  if v <? 10 then 48 + v else (if upper then 55 else 87) + v.
(** The string descriptor of an address: UTF-16, two digits for each byte. *)
Definition mac_digits (upper : bool) (b : Z) : bytes :=
  [hex_digit upper (b / 16); 0; hex_digit upper (b mod 16); 0].
Definition mac_string (upper : bool) (mac : bytes) : bytes :=
  [26; 3] ++ concat (mac_digits upper <$> mac).

Lemma nibble_hex upper v : 0 <= v < 16 -> nibble (hex_digit upper v) = v.
Proof.
  intros Hv. pose proof (all_below (fun v => (nibble (hex_digit upper v) =? v)) 16 ltac:(by destruct upper) v ltac:(lia)) as H.
  by apply Z.eqb_eq in H.
Qed.

Lemma digits_length upper l : length (concat (mac_digits upper <$> l)) = (4 * length l)%nat.
Proof. induction l as [|x l IH]; [done|]. cbn [fmap list_fmap concat]. rewrite length_app, IH. cbn. lia. Qed.

Lemma le16_digits upper x pre post k off : 0 <= x < 256 -> (k <= 1)%nat ->
  off = Z.of_nat (length pre + 2 * k) ->
  nibble <$> le16 (pre ++ mac_digits upper x ++ post) off = Some (if (k =? 0)%nat then x / 16 else x mod 16).
Proof.
  intros Hx Hk ->. unfold le16. rewrite Nat2Z.inj_add, <- Z.add_assoc.
  replace (Z.of_nat (2 * k) + 1) with (Z.of_nat (2 * k + 1)) by lia.
  rewrite !le8_within by (cbn; lia).
  assert (forall v, 0 <= v < 16 -> nibble (hex_digit upper v + 256 * 0) = v) as Hn
    by (intros; rewrite Z.add_0_r; by apply nibble_hex).
  pose proof (Z.mod_pos_bound x 16 ltac:(done)). pose proof (Z.div_pos x 16 ltac:(lia) ltac:(lia)).
  pose proof (Z.div_lt_upper_bound x 16 16 ltac:(lia) ltac:(lia)).
  destruct k as [|[|]]; [| |lia]; cbn -[Z.mul Z.add nibble hex_digit Z.div Z.modulo]; f_equal; apply Hn; lia.
Qed.

Lemma mac_byte_at upper mac i x : mac !! i = Some x -> 0 <= x < 256 ->
  mac_byte (mac_string upper mac) (Z.of_nat i) = Some x.
Proof.
  intros Hi Hx. pose proof (lookup_lt_Some _ _ _ Hi) as Hlt.
  assert (mac_string upper mac = ([26; 3] ++ concat (mac_digits upper <$> take i mac)) ++ mac_digits upper x ++
    concat (mac_digits upper <$> drop (S i) mac)) as ->.
  { unfold mac_string. rewrite <- (take_drop_middle _ _ _ Hi) at 1. rewrite fmap_app, concat_app. by rewrite app_assoc. }
  set (pre := [26; 3] ++ _). assert (length pre = (2 + 4 * i)%nat) as Hp
    by (unfold pre; rewrite length_app, digits_length, length_take, Nat.min_l by lia; done).
  clearbody pre. unfold mac_byte. set (buf := pre ++ _).
  pose proof (le16_digits upper x pre (concat (mac_digits upper <$> drop (S i) mac)) 0 (2 + 2 * (2 * Z.of_nat i))
    Hx ltac:(lia) ltac:(lia)) as H0.
  pose proof (le16_digits upper x pre (concat (mac_digits upper <$> drop (S i) mac)) 1 (2 + 2 * (2 * Z.of_nat i + 1))
    Hx ltac:(lia) ltac:(lia)) as H1.
  fold buf in H0, H1. destruct (le16 buf _) as [hi|]; [|done]. destruct (le16 buf _) as [lo|]; [|done].
  cbn in H0, H1. injection H0 as H0. injection H1 as H1. cbn -[u8 nibble Z.lor Z.shiftl]. rewrite H0, H1. f_equal.
  pose proof (all_below (fun x => u8 (Z.lor (Z.shiftl (x / 16) 4) (x mod 16)) =? x) 256 ltac:(by vm_compute) x Hx) as E.
  by apply Z.eqb_eq in E.
Qed.

(** The address a device announces as text is the address the interface
    gets: for every six bytes, written with digits of either case,
    [mac_of_string] gives them back. *)
Theorem mac_round_trip upper mac : length mac = 6%nat -> Forall (fun b => 0 <= b < 256) mac ->
  mac_of_string (mac_string upper mac) = Some mac.
Proof.
  intros Hl HF. unfold mac_of_string. apply mapM_Some_2.
  change [0; 1; 2; 3; 4; 5] with (Z.of_nat <$> seq 0 6). rewrite Forall2_fmap_l.
  apply Forall2_same_length_lookup_2; [by rewrite length_seq|].
  intros i k x Hk Hx. apply lookup_seq in Hk as [-> _]. apply mac_byte_at; [done|].
  rewrite Forall_lookup in HF. by eapply HF.
Qed.

Lemma mac_round_trip_witness :
  mac_of_string (mac_string true [2; 0; 76; 79; 79; 80]) = Some [2; 0; 76; 79; 79; 80].
Proof. apply mac_round_trip; [done|]. repeat constructor; done. Defined.

(** ** The link *)

(** A notification of the interrupt endpoint: a request type and code, a value
    and the data after the eight-byte header. *)
Record note := mk_note { n_type : Z; n_code : Z; n_value : Z; n_index : Z; n_data : bytes }.
Definition note_bytes (n : note) : bytes :=
  [n_type n; n_code n] ++ b16 (n_value n) ++ b16 (n_index n) ++ b16 (Z.of_nat (length (n_data n))) ++ n_data n.
Definition note_ok (n : note) : Prop := 0 <= n_value n < 65536 /\ Z.of_nat (length (n_data n)) < 65536.

(** The link after a notification, and after some. *)
Definition link_note (up : bool) (n : note) : bool :=
  if (n_type n =? 0xA1) && (n_code n =? NOTIFY_NETWORK_CONNECTION) then negb (n_value n =? 0) else up.
Definition link_notes (up : bool) (l : list note) : bool := fold_left link_note l up.

Definition link_up (d : eth_device) : bool := Z.testbit (nif_flags (iface d)) 2.
Definition linked (p : Z) (up : bool) (s : eth_state) : Prop :=
  exists d, devs s !! p = Some d /\ link_up d = up.

Lemma link_set d : link_up (set_iface (set_nif_flags (Z.lor (nif_flags (iface d)) NETIF_FLAG_LINK_UP) (iface d)) d) = true.
Proof. unfold link_up. cbn -[Z.lor Z.testbit]. rewrite Z.lor_spec. apply orb_true_r. Qed.
Lemma link_cleared d :
  link_up (set_iface (set_nif_flags (Z.land (nif_flags (iface d)) (255 - NETIF_FLAG_LINK_UP)) (iface d)) d) = false.
Proof. unfold link_up. cbn -[Z.land Z.testbit Z.sub]. rewrite Z.land_spec. apply andb_false_r. Qed.

Lemma ewp_notify p up v s (Q : unit -> eth_state -> Prop) : linked p up s ->
  (forall s', linked p (negb (v =? 0)) s' -> Q tt s') -> ewp (fun _ => False) (notify_connection p v) s Q.
Proof.
  intros (d&Hd&_) HQ. unfold notify_connection. destruct (negb (v =? 0)); ewp_go;
    [unfold netif_set_link_up|unfold netif_set_link_down]; unfold upd_iface;
    (eapply ewp_upd_dev; [exact Hd|]); ewp_go; apply ewp_when; intros _; ewp_go; apply HQ;
    (eexists; cbn; rewrite lookup_insert_eq; split; [done|]); solve [apply link_set|apply link_cleared].
Qed.

Lemma le16_b16 pre v post off : 0 <= v < 65536 -> off = Z.of_nat (length pre) ->
  le16 (pre ++ b16 v ++ post) off = Some v.
Proof.
  intros Hv ->. unfold le16. pose proof (le8_within pre (b16 v) post 0 ltac:(cbn; lia)) as H0.
  pose proof (le8_within pre (b16 v) post 1 ltac:(cbn; lia)) as H1.
  change (Z.of_nat 0) with 0 in H0. change (Z.of_nat 1) with 1 in H1. rewrite Z.add_0_r in H0. rewrite H0, H1. cbn -[Z.mul Z.div Z.modulo]. f_equal.
  rewrite (Z.mod_small (v / 256)); [|split; [apply Z.div_pos|apply Z.div_lt_upper_bound]; lia].
  pose proof (Z.div_mod v 256). lia.
Qed.

(** The fields of the notification at an offset. *)
Lemma note_fields pre n post : note_ok n -> let b := pre ++ note_bytes n ++ post in let o := Z.of_nat (length pre) in
  le8 b o = Some (n_type n) /\ le8 b (o + 1) = Some (n_code n) /\ le16 b (o + 2) = Some (n_value n) /\
  le16 b (o + 6) = Some (Z.of_nat (length (n_data n))).
Proof.
  intros [Hv Hl] b o. unfold b, o. split_and!.
  - pose proof (le8_within pre (note_bytes n) post 0 ltac:(cbn; lia)) as H. by rewrite Z.add_0_r in H.
  - exact (le8_within pre (note_bytes n) post 1 ltac:(cbn; lia)).
  - unfold note_bytes. rewrite <- !app_assoc, (app_assoc pre). apply le16_b16; [done|]. rewrite length_app. cbn. lia.
  - unfold note_bytes. rewrite <- !app_assoc, (app_assoc pre [_; _]), (app_assoc _ (b16 (n_value n))), (app_assoc _ (b16 (n_index n))).
    apply le16_b16; [lia|]. rewrite !length_app. cbn. lia.
Qed.

Lemma ewp_notes p notes : Forall note_ok notes -> forall fuel pre post up s (Q : unit -> eth_state -> Prop),
  notes <> [] -> (length (concat (note_bytes <$> notes)) <= fuel)%nat ->
  Z.of_nat (length (pre ++ concat (note_bytes <$> notes))) < 16777216 -> linked p up s ->
  (forall s', linked p (link_notes up notes) s' -> Q tt s') ->
  ewp (fun _ => False) (notify_loop fuel p (pre ++ concat (note_bytes <$> notes) ++ post)
    (Z.of_nat (length pre)) (Z.of_nat (length (pre ++ concat (note_bytes <$> notes))))) s Q.
Proof.
  induction 1 as [|n notes Hn HF IH]; intros fuel pre post up s Q Hne Hfuel Hlt HL HQ; [done|].
  cbn [fmap list_fmap concat] in *. rewrite length_app in Hfuel.
  assert (length (note_bytes n) = (8 + length (n_data n))%nat) as Hlen by (unfold note_bytes; rewrite !length_app; cbn; lia).
  destruct fuel as [|fuel]; [lia|]. cbn [notify_loop].
  destruct (note_fields pre n (concat (note_bytes <$> notes) ++ post) Hn) as (F0&F1&F2&F3).
  rewrite <- app_assoc, F0. ewp_go.
  apply ewp_mono with (P := fun _ s' => linked p (link_note up n) s').
  { unfold link_note. destruct (n_type n =? 161); ewp_go; [|done]. rewrite F1. ewp_go.
    destruct (n_code n =? NOTIFY_NETWORK_CONNECTION); cbn [andb]; ewp_go; [|done]. rewrite F2. ewp_go.
    by eapply ewp_notify. }
  intros [] s1 H1. ewp_go. rewrite F3. ewp_go.
  rewrite !length_app in Hlt.
  replace (u24 _) with (Z.of_nat (length (pre ++ note_bytes n)));
    [|rewrite length_app, Hlen; unfold u24; rewrite Z.mod_small; lia].
  rewrite !(app_assoc pre).
  destruct notes as [|n' notes'].
  - cbn [fmap list_fmap concat]. rewrite app_nil_r, Z.ltb_irrefl. ewp_go. by apply HQ.
  - assert (0 < length (concat (note_bytes <$> n' :: notes')))%nat by (cbn; lia).
    rewrite (proj2 (Z.ltb_lt _ _)) by (rewrite (length_app (pre ++ _)); lia).
    eapply IH; [done|lia|rewrite !length_app in *; lia|exact H1|exact HQ].
Qed.

(** The link of an interface follows its adapter: whatever notifications a
    transfer of the interrupt endpoint carries, of whatever kinds and sizes,
    the callback handles all of them in order and leaves the link as the last
    connection notification says, or as it was when there is none; and it asks
    for the next transfer. *)
Theorem link_follows_notifications env p d notes rest s :
  devs s !! p = Some d -> notes <> [] -> Forall note_ok notes ->
  int_buf d = concat (note_bytes <$> notes) ++ rest ->
  Z.of_nat (length (concat (note_bytes <$> notes))) < 16777216 ->
  exists s', interrupt_receive_callback env p 0 (Z.of_nat (length (concat (note_bytes <$> notes)))) s = EOk USB_SUCCESS s' /\
    linked p (link_notes (link_up d) notes) s' /\
    head (etrace s') = Some (T_schedule (int_endpoint d) (X_int p) INTERRUPT_RX_MAX).
Proof.
  intros Hd Hne HF Hb Hlt. set (data := concat (note_bytes <$> notes)) in *.
  assert (0 < length data)%nat as Hpos.
  { destruct notes as [|n l]; [done|]. unfold data. cbn. lia. }
  destruct (ewp_run (interrupt_receive_callback env p 0 (Z.of_nat (length data))) s (fun r s' => r = USB_SUCCESS /\
    linked p (link_notes (link_up d) notes) s' /\
    head (etrace s') = Some (T_schedule (int_endpoint d) (X_int p) INTERRUPT_RX_MAX))) as (r&s'&Hrun&->&HL&Hh).
  { unfold interrupt_receive_callback. apply ewp_bind. eapply ewp_get_dev; [exact Hd|]. ewp_go.
    rewrite Z.eqb_refl, (proj2 (Z.eqb_neq (Z.of_nat (length data)) 0)) by lia. cbn [negb]. ewp_go. rewrite Hb, Nat2Z.id.
    apply (ewp_notes p notes HF (length data) [] rest (link_up d)); [done|done|exact Hlt|by exists d|].
    intros s1 H1. ewp_go. apply ewp_schedule. by ewp_go. }
  by exists s'.
Qed.

(** A link that comes up, an unknown notification with data, and nothing more. *)
Definition sample_notes : list note := [mk_note 0xA1 0 1 0 []; mk_note 0xA1 0x2A 0 0 [1; 2; 3; 4; 5; 6; 7; 8]].
Definition noticed : eth_state :=
  set_devs ((fun d => set_int_buf (overwrite (int_buf d) (concat (note_bytes <$> sample_notes))) d) <$> devs ecm_plugged)
    ecm_plugged.
Lemma link_follows_notifications_witness : exists d s', devs noticed !! the_device noticed = Some d /\
  link_up d = false /\
  interrupt_receive_callback ecm_adapter (the_device noticed) 0 24 noticed = EOk USB_SUCCESS s' /\
  linked (the_device noticed) true s'.
Proof.
  destruct (devs noticed !! the_device noticed) as [d|] eqn:Hd; [|by vm_compute in Hd].
  assert (int_buf d = concat (note_bytes <$> sample_notes) ++ drop 24 (int_buf d) /\ link_up d = false) as [Hb Hup].
  { assert (forall o, o = devs noticed !! the_device noticed -> match o with Some d =>
      bool_decide (int_buf d = concat (note_bytes <$> sample_notes) ++ drop 24 (int_buf d)) && negb (link_up d) = true
      | None => True end) as Hc by (intros o ->; by vm_compute).
    specialize (Hc (Some d) (eq_sym Hd)). apply andb_prop in Hc as [H1%bool_decide_eq_true H2%negb_true_iff].
    exact (conj H1 H2). }
  destruct (link_follows_notifications ecm_adapter (the_device noticed) d sample_notes (drop 24 (int_buf d)) noticed
    Hd ltac:(discriminate) ltac:(repeat constructor; cbn; lia) Hb ltac:(cbn; lia)) as (s'&Hrun&HL&_).
  exists d, s'. split; [exact eq_refl|split; [exact Hup|split; [exact Hrun|]]]. rewrite Hup in HL. exact HL.
Defined.

(** ** Runs that go wrong *)

(** An event about a device that was never attached: the interface behind a
    null pointer is taken down before the pointer is tested. *)
Theorem unknown_device_dereferences_null env al usb s : dev_data s !! usb = None ->
  eth_usb_event_callback env al USB_DEVICE_DISCONNECTED_EVENT usb s = EBad EF_null.
Proof. intros H. unfold eth_usb_event_callback, detach, mbind, EM_bind, egets. by rewrite H. Qed.

(** One frame of full size into an empty ring: the pressure of the larger ring
    calls the throttle hook, which finds no transfer active and asks for one;
    then the callback asks for another.  Two transfers fill the one buffer. *)
Theorem receive_transfers_overlap :
  rx_count ecm_plugged = 1%nat /\
  rx_count (end_eth (ecm_receive_callback ecm_adapter roomy (the_device ecm_plugged) 0 1514 ecm_plugged)) = 3%nat.
Proof. by vm_compute. Qed.

(** A transfer without the signature of an NCM block, or one that announces a
    table past its end, is dropped, and no further transfer is asked for. *)
Theorem bad_block_stops_reception :
  let p := the_device ncm_plugged in
  let s := end_eth (ncm_receive_callback ncm_adapter roomy p 0 64 (transfer_in p [0; 0; 0; 0] ncm_plugged)) in
  rx_count s = rx_count ncm_plugged /\ (rx_transfer_active <$> devs s !! p) = Some false.
Proof. by vm_compute. Qed.

(** The alignment of the table is the device's choice: 64 puts the table behind
    the header buffer, 0 divides by zero. *)
Definition ncm_aligned (align : Z) : eth_state :=
  end_eth (eth_usb_event_callback (adapter (adapter_config USB_NCM_SUBCLASS) align) roomy
    USB_DEVICE_ENABLED_EVENT 7 eth_start).
Theorem alignment_is_trusted :
  ncm_bulk_transmit ncm_adapter (the_device (ncm_aligned 64)) [1; 2; 3] (ncm_aligned 64) = EBad EF_bounds /\
  ncm_bulk_transmit ncm_adapter (the_device (ncm_aligned 0)) [1; 2; 3] (ncm_aligned 0) = EBad EF_div.
Proof. by vm_compute. Qed.

(** A transmission that fails is repeated through the packet buffer read as a
    device. *)
Theorem failed_transmission_misreads status q b s : status <> 0 -> tx_pbufs s !! q = Some b -> tx_retries s <> 5 ->
  bulk_transmit_callback status q s = EBad EF_bounds.
Proof.
  intros Hst Hq Hr. unfold bulk_transmit_callback, eth_xmit_fatal_error, mbind, EM_bind, egets.
  rewrite (proj2 (Z.eqb_neq _ _) Hst). cbn [negb]. rewrite Hq. cbn [orEBad mret EM_ret].
  by rewrite (proj2 (Z.eqb_neq _ _) Hr : (tx_retries s =? ETH_USB_MAX_RETRIES) = false).
Qed.

(** An adapter that is the default interface is unplugged and plugged in again:
    its link comes up, and no interface is the default any more. *)
Definition replugged : eth_state :=
  let s1 := end_eth (run_eth_op ecm_adapter roomy (O_interrupt (the_device ecm_plugged) 0 link_notice) ecm_plugged) in
  let s2 := end_eth (run_eth_op ecm_adapter roomy (O_event USB_DEVICE_DISCONNECTED_EVENT 7) s1) in
  let s3 := end_eth (run_eth_op ecm_adapter roomy (O_event USB_DEVICE_ENABLED_EVENT 7) s2) in
  end_eth (run_eth_op ecm_adapter roomy (O_interrupt (the_device s3) 0 link_notice) s3).
Theorem replugged_adapter_not_default :
  length (netif_list replugged) = 1%nat /\
  (link_up <$> devs replugged !! the_device replugged) = Some true /\ netif_default replugged = 0.
Proof. by vm_compute. Qed.
