(* ===== verification/PoolCorrect.v ===== *)
(** * The bitmap of a pool

    Reading, setting and clearing the bits of [pool_bitmap], and the first-fit
    scan of [mem_buffer_malloc]: pure lemmas about the bitmap functions. *)

From S2P Require Import Prelude MemState MemPressure MemBuffer MemLogic RingList RingQueue RingCorrect MemSamples.

(** ** Bits of a byte *)

Lemma bit_mask_pow i : bit_mask i = 2 ^ (i mod 8).
Proof.
  unfold bit_mask. pose proof (Z.mod_pos_bound i 8 ltac:(lia)).
  rewrite Z.shiftl_1_l. apply u8_small. split; [apply Z.pow_nonneg; lia|].
  change 256 with (2 ^ 8). apply Z.pow_lt_mono_r; lia.
Qed.

Lemma land_pow2_test b k : 0 <= k -> negb (Z.land b (2 ^ k) =? 0) = Z.testbit b k.
Proof.
  intros Hk. destruct (Z.testbit b k) eqn:E.
  - apply negb_true_iff, Z.eqb_neq. intros H.
    assert (Z.testbit (Z.land b (2 ^ k)) k = false) as H1 by by rewrite H, Z.bits_0.
    by rewrite Z.land_spec, E, Z.pow2_bits_true in H1.
  - apply negb_false_iff, Z.eqb_eq. apply Z.bits_inj'. intros j Hj.
    rewrite Z.land_spec, Z.bits_0, Z.pow2_bits_eqb by done.
    destruct (Z.eqb_spec k j) as [->|]; [by rewrite E|apply andb_false_r].
Qed.

Lemma bit_used_test bm i b :
  bm !! Z.to_nat (i / 8) = Some b -> bit_used bm i = Some (Z.testbit b (i mod 8)).
Proof.
  intros Hb. unfold bit_used. rewrite Hb. cbn [mbind option_bind]. rewrite bit_mask_pow.
  pose proof (Z.mod_pos_bound i 8). by rewrite land_pow2_test by lia.
Qed.

Lemma testbit_set b i j :
  0 <= j < 8 ->
  Z.testbit (Z.lor b (bit_mask i)) j = (i mod 8 =? j) || Z.testbit b j.
Proof.
  intros Hj. pose proof (Z.mod_pos_bound i 8).
  rewrite Z.lor_spec, bit_mask_pow, Z.pow2_bits_eqb by lia. apply orb_comm.
Qed.

Lemma testbit_clear b i j :
  0 <= j < 8 ->
  Z.testbit (Z.land b (u8 (Z.lnot (bit_mask i)))) j = negb (i mod 8 =? j) && Z.testbit b j.
Proof.
  intros Hj. pose proof (Z.mod_pos_bound i 8). unfold u8.
  rewrite Z.land_spec, Z.mod_pow2_bits_low, Z.lnot_spec, bit_mask_pow, Z.pow2_bits_eqb by lia.
  apply andb_comm.
Qed.

(** ** Bits of the map *)

(** The bitmap has a bit for every block below [count]. *)
Definition spans (bm : bytes) (count : Z) : Prop := count <= 8 * Z.of_nat (length bm).

Lemma spans_lookup bm count i :
  spans bm count -> 0 <= i < count -> exists b, bm !! Z.to_nat (i / 8) = Some b.
Proof.
  unfold spans. intros Hs Hi. apply lookup_lt_is_Some.
  pose proof (Z.div_pos i 8). pose proof (Z.div_lt_upper_bound i 8 (Z.of_nat (length bm))). lia.
Qed.

(** A bit changed to [v], every other bit as it was. *)
Definition bit_updated (v : bool) (bm bm' : bytes) (i : Z) : Prop :=
  length bm' = length bm /\
  forall j, 0 <= j -> bit_used bm' j = if j =? i then Some v else bit_used bm j.

Lemma insert_updated v bm i b b' :
  0 <= i -> bm !! Z.to_nat (i / 8) = Some b ->
  (forall j, 0 <= j < 8 -> Z.testbit b' j = if i mod 8 =? j then v else Z.testbit b j) ->
  bit_updated v bm (<[Z.to_nat (i / 8) := b']> bm) i.
Proof.
  intros Hi Hb Hbit. split; [by rewrite length_insert|]. intros j Hj.
  pose proof (Z.mod_pos_bound j 8). pose proof (Z.div_pos i 8). pose proof (Z.div_pos j 8).
  pose proof (Z.div_mod i 8). pose proof (Z.div_mod j 8).
  destruct (decide (i / 8 = j / 8)) as [E|E].
  - rewrite (bit_used_test _ j b').
    2: { rewrite <- E. apply list_lookup_insert_eq. by apply lookup_lt_Some in Hb. }
    rewrite Hbit by lia. rewrite (bit_used_test bm j b) by (by rewrite <- E).
    destruct (Z.eqb_spec (i mod 8) (j mod 8)), (Z.eqb_spec j i); try lia; try done.
  - destruct (Z.eqb_spec j i); [congruence|]. unfold bit_used.
    rewrite list_lookup_insert_ne by lia. done.
Qed.

Lemma bit_set_spec bm count i :
  spans bm count -> 0 <= i < count -> exists bm', bit_set bm i = Some bm' /\ bit_updated true bm bm' i.
Proof.
  intros Hs Hi. destruct (spans_lookup _ _ _ Hs Hi) as [b Hb]. unfold bit_set.
  rewrite Hb. cbn [mbind option_bind]. eexists; split; [done|]. eapply insert_updated; [lia|done|].
  intros j Hj. rewrite testbit_set by done. by destruct (_ =? _).
Qed.

Lemma bit_clear_spec bm count i :
  spans bm count -> 0 <= i < count -> exists bm', bit_clear bm i = Some bm' /\ bit_updated false bm bm' i.
Proof.
  intros Hs Hi. destruct (spans_lookup _ _ _ Hs Hi) as [b Hb]. unfold bit_clear.
  rewrite Hb. cbn [mbind option_bind]. eexists; split; [done|]. eapply insert_updated; [lia|done|].
  intros j Hj. rewrite testbit_clear by done. by destruct (_ =? _).
Qed.

(** A run of bits changed to [v]. *)
Definition run_updated (v : bool) (bm bm' : bytes) (s n : Z) : Prop :=
  length bm' = length bm /\
  forall j, 0 <= j -> bit_used bm' j = if (s <=? j) && (j <? s + n) then Some v else bit_used bm j.

Lemma bits_apply_spec f v count :
  (forall bm i, spans bm count -> 0 <= i < count -> exists bm', f bm i = Some bm' /\ bit_updated v bm bm' i) ->
  forall n bm s, spans bm count -> 0 <= s -> s + Z.of_nat n <= count ->
  exists bm', bits_apply f bm s n = Some bm' /\ run_updated v bm bm' s (Z.of_nat n).
Proof.
  intros Hf. induction n as [|n IH]; intros bm s Hs Hs0 Hn.
  { exists bm. split; [done|]. split; [done|]. intros j Hj.
    destruct (Z.leb_spec s j), (Z.ltb_spec j (s + Z.of_nat 0)); cbn; try done; lia. }
  destruct (Hf bm s) as (bm1&H1&HL1&HB1); [done|lia|].
  destruct (IH bm1 (s + 1)) as (bm2&H2&HL2&HB2); [by unfold spans in *; rewrite HL1|lia|lia|].
  exists bm2. split; [cbn; by rewrite H1|]. split; [congruence|]. intros j Hj.
  rewrite HB2, HB1 by done.
  destruct (Z.eqb_spec j s), (Z.leb_spec (s + 1) j), (Z.ltb_spec j (s + 1 + Z.of_nat n)),
    (Z.leb_spec s j), (Z.ltb_spec j (s + Z.of_nat (S n))); cbn; try lia; done.
Qed.

(** ** First fit *)

(** [k] free blocks from [s] on. *)
Definition free_run (bm : bytes) (s k : Z) : Prop :=
  forall j, s <= j < s + k -> bit_used bm j = Some false.

Lemma find_run_spec bm need n : forall i run start,
  spans bm (i + Z.of_nat n) -> 0 <= run < need -> 0 <= i - run ->
  (0 < run -> start = i - run) -> free_run bm (i - run) run ->
  (forall s, 0 <= s < i - run -> ~ free_run bm s need) ->
  match find_run bm need n i run start with
  | None => False
  | Some None => forall s, 0 <= s -> s + need <= i + Z.of_nat n -> ~ free_run bm s need
  | Some (Some s) => 0 <= s /\ s + need <= i + Z.of_nat n /\ free_run bm s need /\
      forall s', 0 <= s' < s -> ~ free_run bm s' need
  end.
Proof.
  induction n as [|n IH]; intros i run start Hsp Hrun Hi Hst Hfree Hno.
  { cbn. intros s Hs Hsn. destruct (decide (s < i - run)); [by apply Hno|lia]. }
  destruct (spans_lookup bm (i + Z.of_nat (S n)) i Hsp ltac:(lia)) as [b Hb].
  cbn [find_run]. rewrite (bit_used_test _ _ _ Hb). cbn [mbind option_bind].
  pose proof (bit_used_test _ _ _ Hb) as Hbit.
  replace (i + Z.of_nat (S n)) with (i + 1 + Z.of_nat n) in * by lia.
  destruct (Z.testbit b (i mod 8)).
  - apply IH; try done; try lia.
    + intros j Hj. lia.
    + intros s Hs HF. destruct (decide (s < i - run)); [by apply (Hno s); [lia|]|].
      rewrite (HF i) in Hbit by lia. done.
  - assert (free_run bm (i - run) (run + 1)) as Hfree'.
    { intros j Hj. destruct (decide (j = i)) as [->|]; [done|apply Hfree; lia]. }
    assert ((if run =? 0 then i else start) = i - run) as ->
      by (destruct (Z.eqb_spec run 0); lia).
    destruct (Z.eqb_spec (run + 1) need) as [E|E].
    + rewrite <- E. split_and!; try lia; [done|]. rewrite E. apply Hno.
    + apply IH; try lia; try done.
      * by replace (i + 1 - (run + 1)) with (i - run) by lia.
      * intros s Hs. apply Hno. lia.
Qed.

(** ** The pool allocator never hands out a block twice

    The invariant of a pool (its bitmap is the union of the live allocations,
    which do not overlap and carry their block count in front) and the
    specification of [mem_buffer_malloc] and [mem_buffer_free] of
    [src/src/drivers/mem.c] against the map of live allocations. *)

(** ** The invariant *)

(** Block [i] belongs to a live allocation; an allocation is its first block
    and its number of blocks. *)
Definition covered (A : gmap Z Z) (i : Z) : Prop :=
  exists s n, A !! s = Some n /\ s <= i < s + n.

(** Blocks of all allocations together. *)
Definition blocks (A : gmap Z Z) : Z := map_fold (fun _ n a => n + a) 0 A.

(** The two header bytes of an allocation. *)
Definition count_bytes (n : Z) : bytes := [u8 n; u8 (n / 256)].

Record pool_ok (rb : mem_buffer) (arr bm : bytes) (A : gmap Z Z) : Prop := {
  po_kind : has_flag (flags rb) BUFFER_MALLOC_TYPE = true;
  po_step : step rb = 0;
  po_size : 2 <= pool_block_size rb < 2 ^ 16;
  po_count : 0 < pool_block_count rb < 2 ^ 16;
  po_fit : pool_block_size rb * pool_block_count rb <= cap rb < 2 ^ 23;
  po_arr : Z.of_nat (length arr) = cap rb;
  po_buf : 0 < buf rb /\ buf rb + cap rb < 2 ^ 24;
  po_bm : spans bm (pool_block_count rb);
  po_bits : forall i, 0 <= i < pool_block_count rb ->
    bit_used bm i = Some true /\ covered A i \/ bit_used bm i = Some false /\ ~ covered A i;
  po_range : forall s n, A !! s = Some n -> 0 <= s /\ 0 < n /\ s + n <= pool_block_count rb;
  po_disj : forall s n s' n', A !! s = Some n -> A !! s' = Some n' -> s <> s' ->
    s + n <= s' \/ s' + n' <= s;
  po_hdr : forall s n, A !! s = Some n ->
    slice arr (s * pool_block_size rb) 2 = count_bytes n;
  po_used : pool_used_blocks rb = blocks A
}.

Record pool_at (m : mem_state) (p : Z) (rb : mem_buffer) (arr bm : bytes) (A : gmap Z Z) : Prop := {
  pa_ptr : p <> 0;
  pa_rb : heap m !! p = Some (C_struct rb);
  pa_arr : heap m !! buf rb = Some (C_bytes arr);
  pa_bm : heap m !! pool_bitmap rb = Some (C_bytes bm);
  pa_ne : buf rb <> pool_bitmap rb;
  pa_ok : pool_ok rb arr bm A;
  pa_pools : pools_live m
}.

(** The pointer of the allocation that starts at block [s], and the bytes its
    owner may use. *)
Definition block_ptr (rb : mem_buffer) (s : Z) : Z :=
  buf rb + s * pool_block_size rb + MEM_POOL_HEADER_SIZE.
Definition payload (rb : mem_buffer) (arr : bytes) (s n : Z) : bytes :=
  slice arr (s * pool_block_size rb + 2) (n * pool_block_size rb - 2).

(** The heap without the pool's three blocks. *)
Definition pool_rest (p : Z) (rb : mem_buffer) (m : mem_state) : gmap Z cell :=
  delete (pool_bitmap rb) (delete (buf rb) (delete p (heap m))).

(** The same pool before and after: the other blocks of the heap and the bytes
    of the allocations in [A] are as they were. *)
Definition pool_frame (p : Z) (m : mem_state) (rb : mem_buffer) (arr : bytes)
    (m' : mem_state) (rb' : mem_buffer) (arr' : bytes) (A : gmap Z Z) : Prop :=
  buf rb' = buf rb /\ pool_bitmap rb' = pool_bitmap rb /\
  pool_block_size rb' = pool_block_size rb /\ pool_block_count rb' = pool_block_count rb /\
  pool_rest p rb m' = pool_rest p rb m /\ g_lwip_pools m' = g_lwip_pools m /\
  forall s n, A !! s = Some n -> payload rb arr' s n = payload rb arr s n.

(** ** Arithmetic of blocks *)

Lemma blocks_insert A s n : A !! s = None -> blocks (<[s := n]> A) = n + blocks A.
Proof. intros. unfold blocks. rewrite map_fold_insert_L; [done| |done]. intros; lia. Qed.

Lemma blocks_delete A s n : A !! s = Some n -> blocks A = n + blocks (delete s A).
Proof. intros. unfold blocks. rewrite (map_fold_delete_L _ _ s n); [done| |done]. intros; lia. Qed.

Lemma blocks_nonneg A : (forall s n, A !! s = Some n -> 0 < n) -> 0 <= blocks A.
Proof.
  intros HA. unfold blocks. revert HA. apply (map_fold_weak_ind (fun r A =>
    (forall s n, A !! s = Some n -> 0 < n) -> 0 <= r)).
  - lia.
  - intros s n A' r Hn IH HA. assert (0 < n) by (by apply (HA s); rewrite lookup_insert_eq).
    assert (0 <= r); [|lia]. apply IH. intros s' n' Hs'. apply (HA s').
    rewrite lookup_insert_ne; [done|congruence].
Qed.

Lemma covered_insert A s n i : A !! s = None ->
  covered (<[s := n]> A) i <-> s <= i < s + n \/ covered A i.
Proof.
  intros HN. split.
  - intros (s'&n'&Hl&Hi). apply lookup_insert_Some in Hl as [[<- <-]|[_ Hl]]; [by left|right].
    by exists s', n'.
  - intros [Hi|(s'&n'&Hl&Hi)]; [exists s, n; by rewrite lookup_insert_eq|].
    exists s', n'. rewrite lookup_insert_ne; [done|congruence].
Qed.

(** Allocations that do not overlap have no more blocks than the range they
    lie in. *)
Lemma blocks_bound A count :
  (forall s n, A !! s = Some n -> 0 <= s /\ 0 < n /\ s + n <= count) ->
  (forall s n s' n', A !! s = Some n -> A !! s' = Some n' -> s <> s' ->
     s + n <= s' \/ s' + n' <= s) ->
  0 <= count -> blocks A <= count.
Proof.
  intros Hr Hd Hc.
  assert (exists U : gset Z, Z.of_nat (size U) = blocks A /\ forall i, i ∈ U <-> covered A i) as (U&HU&HI).
  { clear Hc. revert Hr Hd. induction A as [|s n A HN IH] using map_ind; intros Hr Hd.
    { exists ∅. split; [done|]. intros i. split; [set_solver|]. intros (s&n&Hl&_). by rewrite lookup_empty in Hl. }
    assert (forall s' n', A !! s' = Some n' -> <[s := n]> A !! s' = Some n') as Hsub
      by (intros s' n' Hl; rewrite lookup_insert_ne; congruence).
    destruct IH as (U&HU&HI); [by eauto|by eauto|].
    pose proof (Hr s n ltac:(by rewrite lookup_insert_eq)).
    exists (list_to_set (seqZ s n) ∪ U). split.
    - rewrite size_union.
      + rewrite size_list_to_set by apply NoDup_seqZ. rewrite length_seqZ, blocks_insert by done. lia.
      + intros i Hi Hi'. apply elem_of_list_to_set, elem_of_seqZ in Hi. apply HI in Hi' as (s'&n'&Hl&Hi').
        destruct (Hd s n s' n'); [by rewrite lookup_insert_eq|by apply Hsub|congruence|lia|lia].
    - intros i. rewrite elem_of_union, elem_of_list_to_set, elem_of_seqZ, HI, covered_insert by done. done. }
  rewrite <- HU. assert (U ⊆ list_to_set (seqZ 0 count)) as Hsub.
  { intros i Hi. apply HI in Hi as (s&n&Hl&Hi). apply elem_of_list_to_set, elem_of_seqZ.
    specialize (Hr _ _ Hl). lia. }
  apply subseteq_size in Hsub. rewrite size_list_to_set in Hsub by apply NoDup_seqZ.
  rewrite length_seqZ in Hsub. lia.
Qed.

Lemma slice_splice_ne l off d o k :
  0 <= off -> off + Z.of_nat (length d) <= Z.of_nat (length l) ->
  0 <= o -> 0 <= k -> o + k <= Z.of_nat (length l) ->
  o + k <= off \/ off + Z.of_nat (length d) <= o ->
  slice (splice l off d) o k = slice l o k.
Proof.
  intros. apply (list_eq_upto _ _ (Z.to_nat k)); rewrite ?length_slice; rewrite ?length_splice; try lia.
  intros i Hi. rewrite !lookup_slice, lookup_splice by lia. case_decide; [lia|done].
Qed.

Lemma slice_splice_eq l off d :
  0 <= off -> off + Z.of_nat (length d) <= Z.of_nat (length l) ->
  slice (splice l off d) off (Z.of_nat (length d)) = d.
Proof.
  intros. apply (list_eq_upto _ _ (length d)); rewrite ?length_slice; rewrite ?length_splice; try lia.
  intros i Hi. rewrite lookup_slice, lookup_splice by lia. case_decide; [|lia]. f_equal. lia.
Qed.

Lemma count_bytes_read n : 0 <= n < 65536 ->
  count_bytes n !!! 0%nat + 256 * count_bytes n !!! 1%nat = n.
Proof.
  intros Hn. cbn. unfold u8. change (2 ^ 8) with 256.
  pose proof (Z.div_pos n 256). pose proof (Z.div_lt_upper_bound n 256 256).
  rewrite (Z.mod_small (n / 256)) by lia. pose proof (Z.div_mod n 256). lia.
Qed.

(** Where an allocation lies in the array. *)
Lemma block_span rb arr bm A s n :
  pool_ok rb arr bm A -> 0 <= s -> 0 < n -> s + n <= pool_block_count rb ->
  0 <= s * pool_block_size rb /\ 2 <= n * pool_block_size rb /\
  s * pool_block_size rb + n * pool_block_size rb <= Z.of_nat (length arr).
Proof.
  intros Hok Hs Hn Hc. destruct Hok.
  assert ((s + n) * pool_block_size rb <= pool_block_count rb * pool_block_size rb)
    by (apply Z.mul_le_mono_nonneg_r; lia). nia.
Qed.

(** A write inside the blocks of one allocation leaves the others alone. *)
Lemma write_apart rb arr bm A s n s' n' off d :
  pool_ok rb arr bm A -> A !! s' = Some n' -> 0 <= s -> 0 < n -> s + n <= pool_block_count rb ->
  s + n <= s' \/ s' + n' <= s ->
  s * pool_block_size rb <= off -> off + Z.of_nat (length d) <= (s + n) * pool_block_size rb ->
  payload rb (splice arr off d) s' n' = payload rb arr s' n' /\
  slice (splice arr off d) (s' * pool_block_size rb) 2 = slice arr (s' * pool_block_size rb) 2.
Proof.
  intros Hok Hs' Hs Hn Hc Hap Ho1 Ho2. destruct (po_range _ _ _ _ Hok _ _ Hs') as (?&?&?).
  destruct (block_span _ _ _ _ s n Hok) as (?&?&?); [lia..|].
  destruct (block_span _ _ _ _ s' n' Hok) as (?&?&?); [lia..|].
  pose proof (po_size _ _ _ _ Hok).
  assert ((s + n) * pool_block_size rb <= s' * pool_block_size rb \/
          s' * pool_block_size rb + n' * pool_block_size rb <= s * pool_block_size rb) as Hap2.
  { destruct Hap; [left; apply Z.mul_le_mono_nonneg_r; lia|right].
    rewrite <- Z.mul_add_distr_r. apply Z.mul_le_mono_nonneg_r; lia. }
  split; [unfold payload|]; apply slice_splice_ne; lia.
Qed.

(** ** Allocation *)

(** Blocks for [size] bytes and the header. *)
Definition blocks_for (rb : mem_buffer) (size : Z) : Z :=
  (size + 2 + pool_block_size rb - 1) / pool_block_size rb.

(** [n] blocks from [s] on exist and belong to no allocation. *)
Definition vacant (rb : mem_buffer) (A : gmap Z Z) (s n : Z) : Prop :=
  0 <= s /\ s + n <= pool_block_count rb /\ forall j, s <= j < s + n -> ~ covered A j.

Lemma vacant_free_run rb arr bm A s n :
  pool_ok rb arr bm A -> 0 <= s -> s + n <= pool_block_count rb ->
  vacant rb A s n <-> free_run bm s n.
Proof.
  intros Hok Hs Hn. split.
  - intros (_&_&Hv) j Hj. destruct (po_bits _ _ _ _ Hok j) as [[_ Hc]|[Hb _]]; [lia| |done].
    by destruct (Hv j Hj).
  - intros Hf. split_and!; [done|done|]. intros j Hj Hc.
    destruct (po_bits _ _ _ _ Hok j) as [[Hb _]|[_ Hnc]]; [lia| |done].
    rewrite Hf in Hb by done. done.
Qed.

(** The pool once blocks [s .. s + n - 1] are taken. *)
Lemma pool_ok_take rb arr bm A s n bm' :
  pool_ok rb arr bm A -> 0 < n -> vacant rb A s n ->
  run_updated true bm bm' s n ->
  let arr' := splice arr (s * pool_block_size rb) (count_bytes n) in
  pool_ok (set_pool_used_blocks (pool_used_blocks rb + n) rb) arr' bm' (<[s := n]> A) /\
  A !! s = None /\
  (forall s' n', A !! s' = Some n' -> payload rb arr' s' n' = payload rb arr s' n').
Proof.
  intros Hok Hn (Hs&Hc&Hvac) [Hlen Hbits] arr'.
  destruct (block_span _ _ _ _ s n Hok Hs Hn Hc) as (?&?&?).
  assert (forall s' n', A !! s' = Some n' -> s + n <= s' \/ s' + n' <= s) as Hap.
  { intros s' n' Hl. destruct (po_range _ _ _ _ Hok _ _ Hl) as (?&?&?).
    destruct (decide (s + n <= s')); [by left|]. destruct (decide (s' + n' <= s)); [by right|].
    destruct (Hvac (Z.max s s')); [lia|]. exists s', n'. split; [done|lia]. }
  assert (A !! s = None) as HN.
  { destruct (A !! s) as [n'|] eqn:E; [|done]. pose proof (po_range _ _ _ _ Hok _ _ E).
    pose proof (Hap _ _ E). lia. }
  assert (forall s' n', A !! s' = Some n' -> payload rb arr' s' n' = payload rb arr s' n' /\
    slice arr' (s' * pool_block_size rb) 2 = slice arr (s' * pool_block_size rb) 2) as Hsame.
  { intros s' n' Hl. eapply (write_apart rb arr bm A s n); try done; [by apply Hap|cbn; lia]. }
  split; [|split; [done|intros; by apply Hsame]].
  destruct Hok. split; cbn; try done.
  - unfold arr'. rewrite length_splice; cbn; lia.
  - unfold spans in *. lia.
  - intros i Hi. rewrite Hbits, covered_insert by (done || lia).
    destruct (Z.leb_spec s i), (Z.ltb_spec i (s + n)); cbn; try (left; split; [done|left; lia]);
      (destruct (po_bits0 i Hi) as [[-> ?]|[-> ?]]; [left; split; [done|by right]|right; split; [done|]];
       intros [?|?]; [lia|done]).
  - intros s' n' Hl. apply lookup_insert_Some in Hl as [[<- <-]|[_ Hl]]; [lia|by eapply po_range0].
  - intros s1 n1 s2 n2 Hl1 Hl2 Hne.
    apply lookup_insert_Some in Hl1 as [[<- <-]|[_ Hl1]], Hl2 as [[<- <-]|[_ Hl2]];
      [done|by apply Hap| |by eapply po_disj0].
    destruct (Hap _ _ Hl1); [by right|by left].
  - intros s' n' Hl. apply lookup_insert_Some in Hl as [[<- <-]|[_ Hl]].
    + apply (slice_splice_eq arr (s * pool_block_size rb) (count_bytes n)); cbn; lia.
    + rewrite (proj2 (Hsame _ _ Hl)). by apply po_hdr0.
  - rewrite blocks_insert by done. lia.
Qed.

(** The heap with new contents for the three blocks of the pool. *)
Lemma pool_at_install m p rb arr bm A rb' arr' bm' A' m' :
  pool_at m p rb arr bm A -> pool_ok rb' arr' bm' A' ->
  buf rb' = buf rb -> pool_bitmap rb' = pool_bitmap rb ->
  pool_block_size rb' = pool_block_size rb -> pool_block_count rb' = pool_block_count rb ->
  g_lwip_pools m' = g_lwip_pools m ->
  (forall q, heap m' !! q = if decide (q = p) then Some (C_struct rb')
     else if decide (q = buf rb) then Some (C_bytes arr')
     else if decide (q = pool_bitmap rb) then Some (C_bytes bm') else heap m !! q) ->
  pool_at m' p rb' arr' bm' A' /\
  (forall B, (forall s n, B !! s = Some n -> payload rb arr' s n = payload rb arr s n) ->
     pool_frame p m rb arr m' rb' arr' B).
Proof.
  intros [? Hrb Harr Hbm Hne Hok Hpl] Hok' Eb Em Es Ec Hp Hh.
  assert (buf rb <> p /\ pool_bitmap rb <> p) as [Hn1 Hn2] by (split; congruence).
  split.
  - split; rewrite ?Hh, ?Eb, ?Em; try done; repeat case_decide; try done.
    eapply pools_live_mono; [exact Hpl|done|]. intros q rb1 Hq. rewrite Hh.
    repeat case_decide; subst; eauto; congruence.
  - intros B HB. split_and!; try done. unfold pool_rest. apply map_eq. intros q.
    destruct (decide (q = pool_bitmap rb)) as [->|]; [by rewrite !lookup_delete_eq|].
    rewrite !(lookup_delete_ne _ (pool_bitmap rb)) by done.
    destruct (decide (q = buf rb)) as [->|]; [by rewrite !lookup_delete_eq|].
    rewrite !(lookup_delete_ne _ (buf rb)) by done.
    destruct (decide (q = p)) as [->|]; [by rewrite !lookup_delete_eq|].
    rewrite !(lookup_delete_ne _ p) by done. rewrite Hh. by repeat case_decide.
Qed.

(** Allocation takes the first vacant run, or nothing when there is none. *)
Lemma mwp_pool_malloc m p rb arr bm A size (Q : Z -> mem_state -> Prop) :
  pool_at m p rb arr bm A -> 0 < size < 2 ^ 23 ->
  ((forall s, ~ vacant rb A s (blocks_for rb size)) -> Q 0 m) ->
  (forall s m' rb' arr' bm', vacant rb A s (blocks_for rb size) ->
     (forall s', 0 <= s' < s -> ~ vacant rb A s' (blocks_for rb size)) ->
     A !! s = None ->
     pool_at m' p rb' arr' bm' (<[s := blocks_for rb size]> A) ->
     pool_frame p m rb arr m' rb' arr' A -> Q (block_ptr rb s) m') ->
  mwp (mem_buffer_malloc p size) m Q.
Proof.
  intros Hat Hsize Q0 Q1. destruct (Hat) as [Hp0 Hrb Harr Hbm Hne Hok Hpl].
  pose proof (po_size _ _ _ _ Hok) as Hbs. pose proof (po_count _ _ _ _ Hok) as Hct.
  unfold mem_buffer_malloc. ztest. mwp_go. rewrite (po_kind _ _ _ _ Hok). ztest. cbn [negb orb].
  unfold MEM_POOL_HEADER_SIZE. rewrite (u24_small (size + 2)) by lia.
  rewrite (u24_small (size + 2 + pool_block_size rb - 1)) by lia.
  mwp_go. apply mwp_cdiv; [lia|]. fold (blocks_for rb size).
  assert (1 <= blocks_for rb size) as Hn1 by (apply Z.div_le_lower_bound; lia).
  set (n := blocks_for rb size) in *. clearbody n. ztest. cbn [orb].
  destruct (Z.ltb_spec (pool_block_count rb) n).
  { mwp_go. apply Q0. intros s (?&?&_). lia. }
  mwp_go. eapply mwp_get_bytes; [exact Hbm|]. mwp_go.
  pose proof (find_run_spec bm n (Z.to_nat (pool_block_count rb)) 0 0 0) as HR.
  rewrite Z.add_0_l, Z2Nat.id in HR by lia.
  specialize (HR (po_bm _ _ _ _ Hok) ltac:(lia) ltac:(lia) ltac:(lia)).
  specialize (HR ltac:(intros j Hj; lia) ltac:(intros; lia)).
  destruct (find_run _ _ _ _ _ _) as [[s|]|]; [| |done]; cbn; mwp_go.
  2: { apply Q0. intros s Hv. pose proof Hv as (?&?&_). apply (HR s); [done|done|].
       by apply (vacant_free_run rb arr bm A). }
  destruct HR as (Hs&Hsn&Hfr&Hfirst).
  assert (vacant rb A s n) as Hvac by by apply (vacant_free_run rb arr bm A).
  destruct (bits_apply_spec bit_set true (pool_block_count rb) (fun bm i => bit_set_spec bm _ i)
    (Z.to_nat n) bm s (po_bm _ _ _ _ Hok) Hs ltac:(lia)) as (bm'&->&Hupd).
  rewrite Z2Nat.id in Hupd by lia. cbn. mwp_go.
  destruct (block_span _ _ _ _ s n Hok Hs ltac:(lia) Hsn) as (?&?&?).
  pose proof (po_arr _ _ _ _ Hok). pose proof (po_fit _ _ _ _ Hok).
  rewrite (u24_small (s * pool_block_size rb)) by lia.
  cbn zeta. mwp_go. eapply mwp_write; [cbn; by rewrite lookup_insert_ne|lia|cbn; lia|].
  fold (count_bytes n). mwp_go.
  eapply mwp_upd_mb; [cbn; rewrite !lookup_insert_ne by congruence; exact Hrb|]. mwp_go.
  destruct (pool_ok_take rb arr bm A s n bm' Hok ltac:(lia) Hvac Hupd) as (Hok'&HN&Hpay).
  assert (pool_used_blocks rb + n <= pool_block_count rb /\ 0 <= pool_used_blocks rb) as [Hub1 Hub2].
  { pose proof (po_used _ _ _ _ Hok') as HU. cbn in HU. split.
    - rewrite HU. apply blocks_bound; [exact (po_range _ _ _ _ Hok')|exact (po_disj _ _ _ _ Hok')|lia].
    - rewrite (po_used _ _ _ _ Hok). apply blocks_nonneg. intros s' n' Hl. apply (po_range _ _ _ _ Hok _ _ Hl). }
  rewrite (u24_small (_ + n)) by lia.
  match goal with |- Q _ ?m2 =>
    destruct (pool_at_install m p rb arr bm A _ _ _ _ m2 Hat Hok') as [Hat' Hfr'] end; try done.
  { intros q. cbn. rewrite !lookup_insert. repeat case_decide; congruence. }
  eapply (Q1 s); [done| |done|exact Hat'|exact (Hfr' A Hpay)].
  intros s' Hs' Hv. pose proof Hv as (?&?&_). apply (Hfirst s' Hs').
  by apply (vacant_free_run rb arr bm A).
Qed.

(** ** Release *)

Lemma covered_delete A s n i :
  A !! s = Some n ->
  (forall s' n', A !! s' = Some n' -> s <> s' -> s + n <= s' \/ s' + n' <= s) ->
  covered (delete s A) i <-> covered A i /\ ~ (s <= i < s + n).
Proof.
  intros Hl Hd. split.
  - intros (s'&n'&Hl'&Hi). apply lookup_delete_Some in Hl' as [Hne Hl'].
    split; [by exists s', n'|]. destruct (Hd _ _ Hl' Hne); lia.
  - intros [(s'&n'&Hl'&Hi) Hno]. exists s', n'. split; [|done].
    rewrite lookup_delete_ne; [done|]. intros ->. rewrite Hl in Hl'. by simplify_eq.
Qed.

(** The pool once the allocation at [s] is given back; in secure mode its
    blocks were overwritten with [d]. *)
Lemma pool_ok_give rb arr bm A s n bm' d :
  pool_ok rb arr bm A -> A !! s = Some n -> run_updated false bm bm' s n ->
  d = [] \/ Z.of_nat (length d) = n * pool_block_size rb ->
  let arr' := splice arr (s * pool_block_size rb) d in
  pool_ok (set_pool_used_blocks (pool_used_blocks rb - n) rb) arr' bm' (delete s A) /\
  n <= pool_used_blocks rb /\
  (forall s' n', delete s A !! s' = Some n' -> payload rb arr' s' n' = payload rb arr s' n').
Proof.
  intros Hok Hl [Hlen Hbits] Hd arr'. destruct (po_range _ _ _ _ Hok _ _ Hl) as (Hs&Hn&Hc).
  destruct (block_span _ _ _ _ s n Hok Hs Hn Hc) as (?&?&?).
  assert (Z.of_nat (length d) <= n * pool_block_size rb) as Hdl by (destruct Hd as [->|]; cbn; lia).
  assert (forall s' n', A !! s' = Some n' -> s <> s' -> s + n <= s' \/ s' + n' <= s) as Hap
    by (intros; by eapply po_disj).
  assert (forall s' n', delete s A !! s' = Some n' -> payload rb arr' s' n' = payload rb arr s' n' /\
    slice arr' (s' * pool_block_size rb) 2 = slice arr (s' * pool_block_size rb) 2) as Hsame.
  { intros s' n' Hl'. apply lookup_delete_Some in Hl' as [Hne Hl'].
    eapply (write_apart rb arr bm A s n); try done; [by apply Hap|lia]. }
  pose proof (blocks_delete A s n Hl) as Hbl.
  assert (0 <= blocks (delete s A)).
  { apply blocks_nonneg. intros s' n' Hl'. apply lookup_delete_Some in Hl' as [_ Hl'].
    by eapply po_range. }
  split; [|split; [rewrite (po_used _ _ _ _ Hok); lia|intros; by apply Hsame]].
  destruct Hok. split; cbn; try done.
  - unfold arr'. rewrite length_splice; lia.
  - unfold spans in *. lia.
  - intros i Hi. rewrite Hbits, (covered_delete A s n) by (done || lia).
    destruct (Z.leb_spec s i), (Z.ltb_spec i (s + n)); cbn; try (right; split; [done|lia]);
      (destruct (po_bits0 i Hi) as [[-> ?]|[-> ?]]; [left; split; [done|split; [done|lia]]|right; split; [done|]];
       intros [??]; done).
  - intros s' n' Hl'. apply lookup_delete_Some in Hl' as [_ Hl']. by eapply po_range0.
  - intros s1 n1 s2 n2 H1' H2' Hne. apply lookup_delete_Some in H1' as [_ H1'], H2' as [_ H2'].
    by eapply po_disj0.
  - intros s' n' Hl'. rewrite (proj2 (Hsame _ _ Hl')).
    apply lookup_delete_Some in Hl' as [_ Hl']. by apply po_hdr0.
  - rewrite po_used0. lia.
Qed.

(** A report leaves a pool alone. *)
Lemma pool_at_level m p rb arr bm A m' lv :
  pool_at m p rb arr bm A -> same_mem m m' -> heap m' = with_level p rb lv (heap m) ->
  pool_at m' p (set_last_pressure_level lv rb) arr bm A /\
  pool_frame p m rb arr m' (set_last_pressure_level lv rb) arr A.
Proof.
  intros Hat (_&_&_&Hpl&_) Hh.
  destruct (pool_at_install m p rb arr bm A (set_last_pressure_level lv rb) arr bm A m') as [H1 H2];
    try done; [by destruct (pa_ok _ _ _ _ _ _ Hat)| |by eauto].
  intros q. rewrite Hh. unfold with_level. rewrite lookup_insert. destruct Hat.
  repeat case_decide; congruence.
Qed.

(** Releasing a live allocation removes exactly it. *)
Lemma mwp_pool_free al m p rb arr bm A s n (Q : unit -> mem_state -> Prop) :
  pool_at m p rb arr bm A -> A !! s = Some n ->
  (forall m' rb' arr' bm', pool_at m' p rb' arr' bm' (delete s A) ->
     pool_frame p m rb arr m' rb' arr' (delete s A) -> Q tt m') ->
  mwp (mem_buffer_free al p (block_ptr rb s)) m Q.
Proof.
  intros Hat Hl HQ. destruct (Hat) as [Hp0 Hrb Harr Hbm Hne Hok Hpl].
  destruct (po_range _ _ _ _ Hok _ _ Hl) as (Hs&Hn&Hc).
  destruct (block_span _ _ _ _ s n Hok Hs Hn Hc) as (Hb1&Hb2&Hb3).
  pose proof (po_size _ _ _ _ Hok) as Hbs. pose proof (po_count _ _ _ _ Hok) as Hct.
  pose proof (po_buf _ _ _ _ Hok) as Hbuf. pose proof (po_arr _ _ _ _ Hok) as Hal.
  pose proof (po_fit _ _ _ _ Hok) as Hfit.
  unfold mem_buffer_free. ztest. mwp_go. rewrite (po_kind _ _ _ _ Hok). unfold block_ptr, MEM_POOL_HEADER_SIZE.
  ztest. cbn [negb orb].
  replace (buf rb + s * pool_block_size rb + 2 - 2) with (buf rb + s * pool_block_size rb) by lia.
  rewrite (u24_small (buf rb + s * pool_block_size rb)) by lia. ztest. cbn [orb].
  replace (buf rb + s * pool_block_size rb - buf rb) with (s * pool_block_size rb) by lia.
  mwp_go. apply mwp_cmod; [lia|]. rewrite Z.mod_mul by lia. rewrite Z.div_mul by lia.
  change (negb (0 =? 0)) with false. cbn iota. mwp_go.
  eapply mwp_read; [exact Harr|lia|lia|lia|]. rewrite (po_hdr _ _ _ _ Hok _ _ Hl).
  rewrite count_bytes_read by lia. rewrite (u24_small (s + n)) by lia. ztest. cbn [orb].
  destruct (bits_apply_spec bit_clear false (pool_block_count rb) (fun bm i => bit_clear_spec bm _ i)
    (Z.to_nat n) bm s (po_bm _ _ _ _ Hok) Hs ltac:(lia)) as (bm'&Hba&Hupd).
  rewrite Z2Nat.id in Hupd by lia.
  mwp_go. apply (mwp_mono _ _ (fun _ m1 => same_mem m m1 /\ exists d,
    heap m1 = <[buf rb := C_bytes (splice arr (s * pool_block_size rb) d)]> (heap m) /\
    (d = [] \/ Z.of_nat (length d) = n * pool_block_size rb))).
  { apply mwp_when; intros _.
    - unfold memset. rewrite (u24_small (n * _)) by lia.
      eapply mwp_write; [exact Harr|lia|rewrite length_replicate; lia|].
      split; [done|]. eexists; split; [done|]. right. rewrite length_replicate. lia.
    - split; [done|]. exists []. split; [|by left]. rewrite insert_id; [done|].
      rewrite Harr. f_equal. f_equal. unfold splice. cbn. by rewrite Nat.add_0_r, take_drop. }
  intros _ m1 [Hs1 (d&Hh1&Hd)].
  destruct (pool_ok_give rb arr bm A s n bm' d Hok Hl Hupd Hd) as (Hok'&Hle&Hpay).
  mwp_go. eapply mwp_get_bytes; [by rewrite Hh1, lookup_insert_ne|]. mwp_go. rewrite Hba. cbn. mwp_go.
  eapply mwp_upd_mb; [cbn; rewrite Hh1, !lookup_insert_ne by congruence; exact Hrb|].
  cbn beta. rewrite (proj2 (Z.leb_le _ _)) by lia.
  set (rb2 := set_pool_used_blocks _ _) in *. set (m2 := set_heap _ _).
  destruct (pool_at_install m p rb arr bm A rb2 (splice arr (s * pool_block_size rb) d) bm' (delete s A) m2)
    as [Hat2 Hfr2]; try done.
  { unfold m2. cbn. apply Hs1. }
  { intros q. unfold m2. cbn. rewrite Hh1, !lookup_insert. repeat case_decide; congruence. }
  clearbody m2. mwp_go. unfold pool_maybe_shrink. mwp_go. eapply mwp_get_mb; [apply Hat2|].
  rewrite (po_step _ _ _ _ (pa_ok _ _ _ _ _ _ Hat2)). cbn [Z.eqb orb]. mwp_go.
  eapply mwp_maybe_clear; [done|apply Hat2|apply Hat2|]. intros m3 lv Hs3 Hh3.
  destruct (pool_at_level _ _ _ _ _ _ _ _ Hat2 Hs3 Hh3) as [Hat3 Hfr3].
  eapply HQ; [exact Hat3|]. specialize (Hfr2 _ Hpay).
  destruct Hfr2 as (?&?&?&?&R2&?&P2), Hfr3 as (?&?&?&?&R3&?&P3).
  split_and!; try congruence.
  - unfold pool_rest in *. cbn in *. congruence.
  - intros s' n' Hl'. rewrite <- (P2 _ _ Hl'). done.
Qed.

(** ** The allocator's contract *)

(** C18. Allocation from a pool is first fit and never overlaps: it takes the
    lowest run of blocks that belongs to no live allocation and is long enough
    for the bytes and the header, and gives null exactly when there is no such
    run, in which case nothing changes.  The bytes of every other allocation and
    every other block of the heap are as they were. *)
Theorem pool_malloc_first_fit m p rb arr bm A size :
  pool_at m p rb arr bm A -> 0 < size < 2 ^ 23 ->
  exists r m', mem_buffer_malloc p size m = Ok r m' /\
    ((r = 0 /\ m' = m /\ forall s, ~ vacant rb A s (blocks_for rb size)) \/
     (exists s rb' arr' bm', r = block_ptr rb s /\
        vacant rb A s (blocks_for rb size) /\
        (forall s', 0 <= s' < s -> ~ vacant rb A s' (blocks_for rb size)) /\
        pool_at m' p rb' arr' bm' (<[s := blocks_for rb size]> A) /\
        pool_frame p m rb arr m' rb' arr' A)).
Proof.
  intros Hat Hs.
  match goal with |- exists r m', _ /\ @?Q r m' => apply (mwp_run _ _ Q) end.
  eapply mwp_pool_malloc; [exact Hat|done| |].
  - intros Hno. by left.
  - intros s m' rb' arr' bm' Hv Hf _ Hat' Hfr. right. by exists s, rb', arr', bm'.
Qed.

(** Releasing the pointer of a live allocation makes exactly its blocks
    vacant again: the other allocations, their bytes and the rest of the heap
    are as they were, and the pool is again well-formed. *)
Theorem pool_free_releases al m p rb arr bm A s n :
  pool_at m p rb arr bm A -> A !! s = Some n ->
  exists m' rb' arr' bm', mem_buffer_free al p (block_ptr rb s) m = Ok tt m' /\
    pool_at m' p rb' arr' bm' (delete s A) /\
    pool_frame p m rb arr m' rb' arr' (delete s A) /\ vacant rb' (delete s A) s n.
Proof.
  intros Hat Hl.
  destruct (mwp_run (mem_buffer_free al p (block_ptr rb s)) m (fun _ m' => exists rb' arr' bm',
    pool_at m' p rb' arr' bm' (delete s A) /\ pool_frame p m rb arr m' rb' arr' (delete s A) /\
    vacant rb' (delete s A) s n)) as ([]&m'&Hrun&rb'&arr'&bm'&?); [|by exists m', rb', arr', bm'].
  eapply mwp_pool_free; [exact Hat|exact Hl|]. intros m' rb' arr' bm' Hat' Hfr.
  exists rb', arr', bm'. split; [done|]. split; [done|].
  pose proof (pa_ok _ _ _ _ _ _ Hat) as Hok. destruct (po_range _ _ _ _ Hok _ _ Hl) as (?&?&?).
  destruct Hfr as (_&_&_&Ec&_). split_and!; [done|lia|].
  intros j Hj Hcv. apply (covered_delete A s n) in Hcv as [_ []]; [lia|done|].
  intros. by eapply po_disj.
Qed.

(** ** A sample pool

    Two pools created the way lwIP creates its own, for the witnesses of the
    pool theorems, and what happens to a pool that is allowed to shrink. *)

(** Eight blocks of 16 bytes. *)
Definition start_pool : MM bool :=
  mem_init 32768 true true true;;
  mem_buffer_lwip_init_pools roomy (Some [mk_pool_cfg 16 8 0 0 None MEM_BUF_OWNER_UNKNOWN]).
Definition pool_start : mem_state := end_state (start_pool mem_start).
Definition pool_ptr : Z := 4096.
Definition pool_rb : mem_buffer :=
  match heap pool_start !! pool_ptr with Some (C_struct rb) => rb | _ => mb_blank end.
Definition pool_arr : bytes :=
  match heap pool_start !! buf pool_rb with Some (C_bytes l) => l | _ => [] end.

(** A pool that was just created has no allocations. *)
Lemma pool_start_at : pool_at pool_start pool_ptr pool_rb pool_arr [0] empty.
Proof.
  split; [done|by vm_compute|by vm_compute|by vm_compute|by vm_compute| |].
  - split; try (by vm_compute); try (by intros s n; rewrite lookup_empty);
      try (by intros s n s' n'; rewrite lookup_empty).
    intros i Hi. right. split; [|intros (s&n&Hl&_); by rewrite lookup_empty in Hl].
    change (pool_block_count pool_rb) with 8 in Hi.
    assert (i = 0 \/ i = 1 \/ i = 2 \/ i = 3 \/ i = 4 \/ i = 5 \/ i = 6 \/ i = 7) as HI by lia.
    by repeat destruct HI as [->|HI]; subst.
  - repeat constructor. exists pool_rb. by vm_compute.
Qed.

Lemma pool_malloc_witness :
  exists r m', mem_buffer_malloc pool_ptr 20 pool_start = Ok r m' /\
    ((r = 0 /\ m' = pool_start /\ forall s, ~ vacant pool_rb empty s (blocks_for pool_rb 20)) \/
     (exists s rb' arr' bm', r = block_ptr pool_rb s /\
        vacant pool_rb empty s (blocks_for pool_rb 20) /\
        (forall s', 0 <= s' < s -> ~ vacant pool_rb empty s' (blocks_for pool_rb 20)) /\
        pool_at m' pool_ptr rb' arr' bm' (<[s := blocks_for pool_rb 20]> empty) /\
        pool_frame pool_ptr pool_start pool_rb pool_arr m' rb' arr' empty)).
Proof. apply (pool_malloc_first_fit _ _ _ _ [0]); [exact pool_start_at|lia]. Defined.

(** The same pool with one allocation of two blocks. *)
Definition pool_one : mem_state := end_state (mem_buffer_malloc pool_ptr 20 pool_start).
Definition pool_one_rb : mem_buffer :=
  match heap pool_one !! pool_ptr with Some (C_struct rb) => rb | _ => mb_blank end.
Definition pool_one_arr : bytes :=
  match heap pool_one !! buf pool_one_rb with Some (C_bytes l) => l | _ => [] end.

Lemma pool_one_at : pool_at pool_one pool_ptr pool_one_rb pool_one_arr [3] {[0 := 2]}.
Proof.
  split; [done|by vm_compute|by vm_compute|by vm_compute|by vm_compute| |].
  - split; try (by vm_compute).
    + intros i Hi. change (pool_block_count pool_one_rb) with 8 in Hi.
      assert (covered {[0 := 2]} i <-> 0 <= i < 2) as ->.
      { split; [intros (s&n&Hl&Hi2)|intros; exists 0, 2; split; [done|lia]].
        apply lookup_singleton_Some in Hl as [<- <-]. lia. }
      assert (i = 0 \/ i = 1 \/ i = 2 \/ i = 3 \/ i = 4 \/ i = 5 \/ i = 6 \/ i = 7) as HI by lia.
      repeat destruct HI as [->|HI]; subst; vm_compute; first [left; done|right; split; [done|intros [??]; done]].
    + intros s n Hl. apply lookup_singleton_Some in Hl as [<- <-]. by vm_compute.
    + intros s n s' n' Hl Hl'. apply lookup_singleton_Some in Hl as [<- <-], Hl' as [<- <-]. done.
    + intros s n Hl. apply lookup_singleton_Some in Hl as [<- <-]. by vm_compute.
  - repeat constructor. exists pool_one_rb. by vm_compute.
Qed.

Lemma pool_free_witness :
  exists m' rb' arr' bm', mem_buffer_free roomy pool_ptr (block_ptr pool_one_rb 0) pool_one = Ok tt m' /\
    pool_at m' pool_ptr rb' arr' bm' (delete 0 {[0 := 2]}) /\
    pool_frame pool_ptr pool_one pool_one_rb pool_one_arr m' rb' arr' (delete 0 {[0 := 2]}) /\
    vacant rb' (delete 0 {[0 := 2]}) 0 2.
Proof. apply (pool_free_releases roomy _ _ _ _ [3]); [exact pool_one_at|done]. Defined.

(** A pool that is allowed to shrink moves under its users: with a shrink
    step set, giving back the second of two allocations reallocates the array,
    and the first allocation's pointer, still in use, lies in no live block. *)
Theorem shrinking_pool_dangles :
  match (mem_buffer_set_shrink pool_ptr 50 16;;
         a ← mem_buffer_malloc pool_ptr 10;
         b ← mem_buffer_malloc pool_ptr 10;
         before ← mgets (fun m => array_at m a);
         mem_buffer_free roomy pool_ptr b;;
         after ← mgets (fun m => array_at m a);
         mret (negb (a =? 0), before, after)) pool_start with
  | Ok r _ => r = (true, Some (buf pool_rb), None)
  | Bad _ => False
  end.
Proof. vm_compute. done. Qed.
