(* ===== verification/PressureCorrect.v ===== *)
(** * Pressure tiers

    How the tiers of [src/src/drivers/mem.c] rise and fall, and when the
    throttle hooks are called. *)

From S2P Require Import Prelude MemState MemPressure MemLogic.

(** Relief is tiered: one report of lower usage brings a buffer down by at
    most one tier from critical or high, never to a tier below the one its usage
    has, and usage alone never makes a buffer critical.  Three reports of usage
    below 70 % bring any tier down to none. *)
Theorem relief_one_tier current pct :
  let next := mem_pressure_level_relief current pct in
  let usage := mem_pressure_level_from_usage pct in
  (level_rank MEM_PRESSURE_MILD < level_rank current -> level_rank current - 1 <= level_rank next) /\
  level_rank usage <= level_rank next /\ next <> MEM_PRESSURE_CRITICAL /\
  (pct < 70 -> mem_pressure_level_relief
     (mem_pressure_level_relief next pct) pct = MEM_PRESSURE_NONE).
Proof.
  unfold mem_pressure_level_relief, mem_pressure_level_from_usage, level_lt.
  destruct (Z.leb_spec 85 pct), (Z.leb_spec 70 pct), current; cbn; repeat split; try done; lia.
Qed.

(** The tier a source asks for. *)
Definition asked (active : bool) (l : mem_pressure_level) : mem_pressure_level :=
  if active then l else MEM_PRESSURE_NONE.
Definition level_max (a b : mem_pressure_level) : mem_pressure_level :=
  if level_lt a b then b else a.

(** An inactive source has tier none. *)
Definition sources_ok (g : pressure) : Prop :=
  (global_active g = false -> global_level g = MEM_PRESSURE_NONE) /\
  (eth_active g = false -> eth_level g = MEM_PRESSURE_NONE) /\
  (tls_active g = false -> tls_level g = MEM_PRESSURE_NONE).

(** The hook calls that bring one path from its tier to a new one. *)
Definition hook_calls (hook : option callback) (old new : mem_pressure_level) : list mem_event :=
  match hook with
  | Some cb => if decide (new = old) then [] else [E_hook cb new]
  | None => []
  end.

Lemma effective_max g a l :
  (global_active g = false -> global_level g = MEM_PRESSURE_NONE) ->
  (a = false -> l = MEM_PRESSURE_NONE) ->
  (if a && level_lt (if global_active g then global_level g else l) l then l
   else if global_active g then global_level g else l) = level_max (global_level g) l.
Proof.
  intros Hg Ha. unfold level_max, level_lt.
  destruct (global_active g) eqn:E1, a; cbn; try rewrite (Hg eq_refl); try rewrite (Ha eq_refl);
    destruct (global_level g), l; done.
Qed.

(** One receive path: the hook is called and the tier stored when it changes. *)
Lemma mwp_throttle hook old l upd m (Q : unit -> mem_state -> Prop) :
  (l = old -> upd l (g_pressure m) = g_pressure m) ->
  (forall m', history m' = hook_calls hook old l ++ history m -> heap m' = heap m ->
     g_pressure m' = upd l (g_pressure m) -> Q tt m') ->
  mwp (whenMM (bool_decide (l <> old)) (call_hook hook l;; upd_press (upd l))) m Q.
Proof.
  intros Hid HQ. unfold hook_calls, call_hook in *. apply mwp_when; intros E.
  - apply bool_decide_eq_true in E. destruct hook; [rewrite decide_False in HQ by done|];
      mwp_go; by apply HQ.
  - apply bool_decide_eq_false, dec_stable in E.
    destruct hook; [rewrite decide_True in HQ by done|]; (apply HQ; [done|done|by rewrite Hid]).
Qed.

(** The ethernet and TLS receive paths are each throttled at the higher of
    the lwIP pool tier and their own, and a hook is called exactly when the tier
    of its path changes, the ethernet one first. *)
Theorem throttle_is_maximum m :
  sources_ok (g_pressure m) ->
  exists m', mem_pressure_update_effective m = Ok tt m' /\
    let g := g_pressure m in
    let eth := level_max (global_level g) (eth_level g) in
    let tls := level_max (global_level g) (tls_level g) in
    eth_effective (g_pressure m') = eth /\ tls_effective (g_pressure m') = tls /\
    history m' = hook_calls (hook_tls g) (tls_effective g) tls ++
                 hook_calls (hook_eth g) (eth_effective g) eth ++ history m /\
    heap m' = heap m.
Proof.
  intros (Hg&He&Ht).
  match goal with |- exists m', _ /\ @?Q m' =>
    destruct (mwp_run mem_pressure_update_effective m (fun _ m' => Q m')) as ([]&m'&?&?);
    [|by exists m'] end.
  cbv zeta. unfold mem_pressure_update_effective. mwp_go. cbn zeta.
  rewrite (effective_max _ _ _ Hg He). set (eth := level_max _ _).
  apply mwp_throttle; [intros ->; by destruct (g_pressure m)|].
  intros m1 H1 Hh1 Hg1. mwp_go. rewrite Hg1. cbn [global_active global_level tls_active tls_level hook_tls
    tls_effective set_eth_effective].
  rewrite (effective_max _ _ _ Hg Ht). set (tls := level_max _ _).
  apply mwp_throttle; [rewrite Hg1; intros ->; by destruct (g_pressure m)|].
  intros m2 H2 Hh2 Hg2. rewrite Hg2, Hg1, H2, H1, Hh2, Hh1. done.
Qed.

(** Two hooks, a pool at high and the ethernet ring at mild pressure. *)
Definition pressed : mem_state :=
  set_g_pressure (mk_pressure (Some 1%nat) (Some 2%nat) true true false
    MEM_PRESSURE_HIGH MEM_PRESSURE_MILD MEM_PRESSURE_NONE MEM_PRESSURE_MILD MEM_PRESSURE_HIGH 50)
    mem_start.

Lemma throttle_is_maximum_witness :
  sources_ok (g_pressure pressed) /\
  exists m', mem_pressure_update_effective pressed = Ok tt m' /\
    eth_effective (g_pressure m') = MEM_PRESSURE_HIGH /\
    tls_effective (g_pressure m') = MEM_PRESSURE_HIGH /\
    history m' = [E_hook 1 MEM_PRESSURE_HIGH] /\ heap m' = heap pressed.
Proof.
  assert (sources_ok (g_pressure pressed)) as H by (by repeat split).
  split; [exact H|]. exact (throttle_is_maximum pressed H).
Defined.
