(* ===== verification/Base64.v ===== *)
(** * Base64 ([src/src/tls/core/base64.c])

    The encoder and decoder of the TLS layer, which reads certificates and keys
    with them, and their round trip.  The output array is the list of bytes
    written to it; [None] is a read outside the input or a pointer difference
    with the null result of [strchr]. *)

From S2P Require Import Prelude.

(** ** The code *)

Definition b64_charset : bytes :=
  str "ABCDEFGHIJKLMNOPQRSTUVWXYZabcdefghijklmnopqrstuvwxyz0123456789+/".
Definition ch_eq : Z := 61.

Definition mod_table (i : Z) : Z := if i =? 0 then 0 else if i =? 1 then 2 else 1.

(** [b64_charset[(triple >> k * 6) & 0x3F]] *)
Definition sextet (triple k : Z) : Z :=
  b64_charset !!! Z.to_nat (Z.land (Z.shiftr triple (k * 6)) 63).

(** The four characters of a triple of octets. *)
Definition quad (a b c : Z) : bytes :=
  let triple := u32 (Z.shiftl a 16 + Z.shiftl b 8 + c) in
  [sextet triple 3; sextet triple 2; sextet triple 1; sextet triple 0].

(** Octets past the end of the input are 0. *)
Fixpoint encode_loop (l : bytes) : bytes :=
  match l with
  | a :: b :: c :: l' => quad a b c ++ encode_loop l'
  | [a; b] => quad a b 0
  | [a] => quad a 0 0
  | [] => []
  end.

(** [for (i = 0; i < n; i++) outbuf[olen - 1 - i] = '='] *)
Definition pad (out : bytes) (olen n : Z) : bytes :=
  foldl (fun out i => <[Z.to_nat (olen - 1 - Z.of_nat i) := ch_eq]> out) out (seq 0 (Z.to_nat n)).

Definition tls_base64_encode (inbuf : bytes) : bytes :=
  let len := Z.of_nat (length inbuf) in
  let olen := 4 * ((len + 2) / 3) in
  pad (encode_loop inbuf) olen (mod_table (len mod 3)).

(** [strchr(b64_charset, c) - b64_charset]; the terminator is part of the
    string. *)
Fixpoint index_of (l : bytes) (c i : Z) : option Z :=
  match l with
  | [] => None
  | x :: l' => if x =? c then Some i else index_of l' c (i + 1)
  end.
Definition value_of (c : Z) : option Z :=
  if c =? ch_eq then Some 0 else index_of (b64_charset ++ [0]) c 0.

(** Four characters at a time; [room] is [olen - j]. *)
Fixpoint decode_loop (l : bytes) (room : nat) : option bytes :=
  match l with
  | [] => Some []
  | a :: b :: c :: d :: l' =>
      va ← value_of a;
      vb ← value_of b;
      vc ← value_of c;
      vd ← value_of d;
      let triple := u32 (Z.shiftl va 18 + Z.shiftl vb 12 + Z.shiftl vc 6 + vd) in
      let out := take room [Z.land (Z.shiftr triple 16) 255; Z.land (Z.shiftr triple 8) 255;
                            Z.land triple 255] in
      rest ← decode_loop l' (room - 3);
      Some (out ++ rest)
  | _ => None
  end.

Definition tls_base64_decode (inbuf : bytes) : option bytes :=
  let len := length inbuf in
  last1 ← (if (len =? 0)%nat then None else inbuf !! (len - 1)%nat);
  last2 ← (if (len <=? 1)%nat then None else inbuf !! (len - 2)%nat);
  let olen := (len / 4 * 3)%nat in
  let olen := if last1 =? ch_eq then (olen - 1)%nat else olen in
  let olen := if last2 =? ch_eq then (olen - 1)%nat else olen in
  decode_loop inbuf olen.

(** ** The round trip *)

Lemma value_of_char x : 0 <= x < 64 ->
  value_of (b64_charset !!! Z.to_nat x) = Some x /\ b64_charset !!! Z.to_nat x <> ch_eq.
Proof.
  intros Hx.
  assert (Forall (fun i => value_of (b64_charset !!! i) = Some (Z.of_nat i) /\
    b64_charset !!! i <> ch_eq) (seq 0 64)) as HF
    by (apply (Forall_impl (fun i => bool_decide (value_of (b64_charset !!! i) = Some (Z.of_nat i) /\
          b64_charset !!! i <> ch_eq) = true)); [by vm_compute; repeat constructor|];
        intros i Hi; by apply bool_decide_eq_true in Hi).
  rewrite Forall_forall in HF. specialize (HF (Z.to_nat x)).
  rewrite Z2Nat.id in HF by lia. apply HF. apply elem_of_seq. lia.
Qed.

(** The sextets of a triple of bytes put together again. *)
Lemma sextets_join t : 0 <= t < 2 ^ 24 ->
  Z.shiftl (Z.land (Z.shiftr t 18) 63) 18 + Z.shiftl (Z.land (Z.shiftr t 12) 63) 12 +
  Z.shiftl (Z.land (Z.shiftr t 6) 63) 6 + Z.land t 63 = t.
Proof.
  intros Ht. change 63 with (Z.ones 6).
  rewrite !Z.land_ones, !Z.shiftr_div_pow2, !Z.shiftl_mul_pow2 by lia.
  Z.to_euclidean_division_equations. lia.
Qed.

Lemma land_63_range x : 0 <= Z.land x 63 < 64.
Proof. change 63 with (Z.ones 6). rewrite Z.land_ones by lia. apply Z.mod_pos_bound. lia. Qed.

(** Induction in steps of three. *)
Lemma list_ind_3 (P : bytes -> Prop) :
  P [] -> (forall a, P [a]) -> (forall a b, P [a; b]) ->
  (forall a b c l, P l -> P (a :: b :: c :: l)) -> forall l, P l.
Proof.
  intros H0 H1 H2 H3. fix IH 1. intros [|a [|b [|c l]]]; [done|by apply H1|by apply H2|].
  apply H3, IH.
Qed.

(** The padded text, written directly. *)
Fixpoint encoded (l : bytes) : bytes :=
  match l with
  | a :: b :: c :: l' => quad a b c ++ encoded l'
  | [a; b] => take 3 (quad a b 0) ++ [ch_eq]
  | [a] => take 2 (quad a 0 0) ++ [ch_eq; ch_eq]
  | [] => []
  end.

Definition text_length (n : Z) : Z := 4 * ((n + 2) / 3).

Lemma text_length_step n : text_length (3 + n) = 4 + text_length n.
Proof. unfold text_length. Z.to_euclidean_division_equations. lia. Qed.

Lemma mod_table_step n : mod_table ((3 + n) mod 3) = mod_table (n mod 3).
Proof. replace (3 + n) with (n + 1 * 3) by lia. by rewrite Z.mod_add. Qed.

Lemma text_length_pos n : 0 < n -> 4 <= text_length n.
Proof. unfold text_length. intros. Z.to_euclidean_division_equations. lia. Qed.

Lemma mod_table_range n : 0 <= n -> (0 <= mod_table (n mod 3) <= 2) /\ (n = 0 -> mod_table (n mod 3) = 0).
Proof.
  intros Hn. unfold mod_table. split; [|intros ->; done].
  destruct (n mod 3 =? 0), (n mod 3 =? 1); lia.
Qed.

(** The padding stays behind a full quad in front. *)
Lemma pad_app q out olen n :
  length q = 4%nat -> 0 <= n <= 2 -> 4 <= olen \/ n = 0 -> 
  pad (q ++ out) (4 + olen) n = q ++ pad out olen n.
Proof.
  intros Hq Hn Ho. unfold pad.
  assert (n = 0 \/ n = 1 \/ n = 2) as [-> | [-> | ->]] by lia; [done| |].
  - change (Z.to_nat 1) with 1%nat. cbn [seq foldl].
    rewrite insert_app_r_alt by lia. do 2 f_equal. lia.
  - change (Z.to_nat 2) with 2%nat. cbn [seq foldl].
    rewrite !insert_app_r_alt by lia. do 2 f_equal; [lia|]. f_equal. lia.
Qed.

Lemma encode_spec l : tls_base64_encode l = encoded l.
Proof.
  unfold tls_base64_encode. fold (text_length (Z.of_nat (length l))).
  induction l as [|a|a b|a b c l IH] using list_ind_3; try done.
  cbn [encode_loop encoded].
  replace (Z.of_nat (length (a :: b :: c :: l))) with (3 + Z.of_nat (length l)) by (cbn; lia).
  rewrite text_length_step, mod_table_step.
  destruct (mod_table_range (Z.of_nat (length l)) ltac:(lia)) as [Hr H0].
  rewrite pad_app; [by rewrite IH|done|done|].
  destruct (decide (length l = 0%nat)); [right; apply H0; lia|left; apply text_length_pos; lia].
Qed.

Lemma triple_small a b c : is_byte a -> is_byte b -> is_byte c ->
  0 <= Z.shiftl a 16 + Z.shiftl b 8 + c < 2 ^ 24.
Proof. unfold is_byte. intros. rewrite !Z.shiftl_mul_pow2 by lia. lia. Qed.

Lemma triple_bytes a b c (t := Z.shiftl a 16 + Z.shiftl b 8 + c) :
  is_byte a -> is_byte b -> is_byte c ->
  [Z.land (Z.shiftr t 16) 255; Z.land (Z.shiftr t 8) 255; Z.land t 255] = [a; b; c].
Proof.
  unfold is_byte, t. intros. rewrite !Z.shiftr_div_pow2, !Z.shiftl_mul_pow2, !land_255 by lia.
  repeat f_equal; Z.to_euclidean_division_equations; lia.
Qed.

(** Four characters with the values of a triple's sextets give it back. *)
Lemma decode_step a b c x y z w l room :
  is_byte a -> is_byte b -> is_byte c ->
  let t := Z.shiftl a 16 + Z.shiftl b 8 + c in
  value_of x = Some (Z.land (Z.shiftr t 18) 63) -> value_of y = Some (Z.land (Z.shiftr t 12) 63) ->
  value_of z = Some (Z.land (Z.shiftr t 6) 63) -> value_of w = Some (Z.land t 63) ->
  decode_loop (x :: y :: z :: w :: l) room =
  (rest ← decode_loop l (room - 3); Some (take room [a; b; c] ++ rest)).
Proof.
  intros Ha Hb Hc t Hx Hy Hz Hw. pose proof (triple_small a b c Ha Hb Hc) as Ht. fold t in Ht.
  cbn [decode_loop]. rewrite Hx, Hy, Hz, Hw. cbn [mbind option_bind].
  rewrite sextets_join by done. rewrite u32_small by lia.
  unfold t. by rewrite triple_bytes.
Qed.

Lemma sextet_value t k :
  value_of (sextet t k) = Some (Z.land (Z.shiftr t (k * 6)) 63) /\ sextet t k <> ch_eq.
Proof. apply value_of_char, land_63_range. Qed.

(** The decoder undoes the encoder, given room for every byte. *)
Lemma decode_encoded l : Forall is_byte l -> decode_loop (encoded l) (length l) = Some l.
Proof.
  induction l as [|a|a b|a b c l IH] using list_ind_3; intros HF;
    rewrite ?Forall_cons in HF; [done| | |].
  - destruct HF as [Ha _]. unfold encoded, quad. rewrite u32_small by (pose proof (triple_small a 0 0); unfold is_byte in *; lia).
    cbn [take app]. rewrite (decode_step a 0 0); try done; try apply sextet_value; try (unfold is_byte; lia).
    all: unfold is_byte in Ha; rewrite !Z.shiftl_mul_pow2 by lia; cbn; f_equal; change 63 with (Z.ones 6);
      rewrite ?Z.shiftr_div_pow2, Z.land_ones by lia; Z.to_euclidean_division_equations; lia.
  - destruct HF as (Ha&Hb&_). unfold encoded, quad. rewrite u32_small by (pose proof (triple_small a b 0); unfold is_byte in *; lia).
    cbn [take app]. rewrite (decode_step a b 0); try done; try apply sextet_value; try (unfold is_byte; lia).
    unfold is_byte in *; rewrite !Z.shiftl_mul_pow2 by lia; cbn; f_equal; change 63 with (Z.ones 6);
      rewrite Z.land_ones by lia; Z.to_euclidean_division_equations; lia.
  - destruct HF as (Ha&Hb&Hc&HF). cbn [encoded]. unfold quad. rewrite u32_small by (pose proof (triple_small a b c Ha Hb Hc); lia).
    cbn [app]. rewrite (decode_step a b c); try done; try apply sextet_value.
    cbn [length]. replace (S (S (S (length l))) - 3)%nat with (length l) by lia.
    rewrite (IH HF). cbn [mbind option_bind]. by rewrite take_ge by (cbn; lia).
Qed.

Lemma length_encoded l : length (encoded l) = Z.to_nat (text_length (Z.of_nat (length l))).
Proof.
  induction l as [|a|a b|a b c l IH] using list_ind_3; try done.
  cbn [encoded]. rewrite length_app, IH.
  replace (Z.of_nat (length (a :: b :: c :: l))) with (3 + Z.of_nat (length l)) by (cbn; lia).
  rewrite text_length_step. assert (0 <= text_length (Z.of_nat (length l))).
  { unfold text_length. Z.to_euclidean_division_equations. lia. }
  change (length (quad a b c)) with 4%nat. lia.
Qed.

(** The size of the output is read off the last two characters. *)
Lemma decoded_size l : l <> [] ->
  exists x y, encoded l !! (length (encoded l) - 1)%nat = Some x /\
    encoded l !! (length (encoded l) - 2)%nat = Some y /\ (4 <= length (encoded l))%nat /\
    (let olen := (length (encoded l) / 4 * 3)%nat in
     let olen := if x =? ch_eq then (olen - 1)%nat else olen in
     if y =? ch_eq then (olen - 1)%nat else olen) = length l.
Proof.
  induction l as [|a|a b|a b c l IH] using list_ind_3; intros Hne; [done| | |].
  - cbn. by repeat eexists.
  - unfold encoded. exists ch_eq, (sextet (u32 (Z.shiftl a 16 + Z.shiftl b 8 + 0)) 1).
    split; [done|]. split; [done|]. split; [cbn; lia|]. cbn [length Nat.div take app].
    rewrite (proj2 (Z.eqb_neq _ _) (proj2 (sextet_value _ _))). done.
  - cbn [encoded]. destruct (decide (l = [])) as [->|Hl].
    + unfold quad. cbn [app encoded]. eexists _, _. split; [done|]. split; [done|]. split; [cbn; lia|].
      cbn [length]. rewrite !(proj2 (Z.eqb_neq _ _) (proj2 (sextet_value _ _))). done.
    + destruct (IH Hl) as (x&y&Hx&Hy&H4&Hsz). exists x, y. rewrite length_app.
      change (length (quad a b c)) with 4%nat.
      rewrite !lookup_app_r by (change (length (quad a b c)) with 4%nat; lia).
      change (length (quad a b c)) with 4%nat.
      replace (4 + length (encoded l) - 1 - 4)%nat with (length (encoded l) - 1)%nat by lia.
      replace (4 + length (encoded l) - 2 - 4)%nat with (length (encoded l) - 2)%nat by lia.
      split; [done|]. split; [done|]. split; [lia|]. cbn zeta in *. cbn [length].
      replace (4 + length (encoded l))%nat with (length (encoded l) + 1 * 4)%nat by lia.
      rewrite Nat.div_add by lia.
      assert (1 <= length (encoded l) / 4)%nat by (apply Nat.div_le_lower_bound; lia).
      destruct (x =? ch_eq), (y =? ch_eq); lia.
Qed.

(** Base64 round trip: decoding the encoding of any non-empty sequence of
    bytes gives it back, whatever its length modulo three. *)
Theorem base64_round_trip l :
  Forall is_byte l -> l <> [] -> tls_base64_decode (tls_base64_encode l) = Some l.
Proof.
  intros HF Hne. rewrite encode_spec. unfold tls_base64_decode.
  destruct (decoded_size l Hne) as (x&y&Hx&Hy&H4&Hsz).
  rewrite (proj2 (Nat.eqb_neq _ _)), (proj2 (Nat.leb_gt _ _)), Hx, Hy by lia.
  cbn [mbind option_bind]. cbn zeta in Hsz. rewrite Hsz. by apply decode_encoded.
Qed.

Lemma base64_round_trip_witness :
  tls_base64_decode (tls_base64_encode (str "lwFTP CE")) = Some (str "lwFTP CE").
Proof.
  apply base64_round_trip; [|done].
  repeat constructor; vm_compute; done.
Defined.
