(* ===== verification/TlsHash.v ===== *)
(** * Hashes, HMAC and key derivation of the TLS layer

    [src/src/tls/core/hash.c], [hmac.c], [passwords.c] and [hkdf.c].  SHA-256
    itself is written in assembly (sha256.asm) and is an interface here: a
    [Sha256] is what hash.h declares of it, and [Sha256Laws] what its callers
    rely on, that feeding data in pieces and asking for the digest gives a
    32-byte function of the concatenated data.

    A pointer argument is the object it points to, [None] when it is null; it
    comes with a length argument as in the code, and a read or write outside
    the object is a fault, the outer [None] of a result.  [size_t] has 24
    bits. *)

From S2P Require Import Prelude MemState.

(** ** The interface of SHA-256 *)

Class Sha256 (St : Type) := {
  tls_sha256_init : bool * St;
  tls_sha256_update : St -> bytes -> St;
  tls_sha256_digest : St -> bytes
}.

Class Sha256Laws (St : Type) `{Sha256 St} := {
  sha256 : bytes -> bytes;
  sha256_ready : tls_sha256_init.1 = true;
  sha256_streams : forall l, tls_sha256_digest (foldl tls_sha256_update tls_sha256_init.2 l) = sha256 (concat l);
  sha256_length : forall m, length (sha256 m) = 32%nat;
  sha256_bytes : forall m, Forall is_byte (sha256 m)
}.

(** ** Buffers *)

(** [n] bytes from the start of the object. *)
Definition rd (p : option bytes) (n : Z) : option bytes :=
  b ← p; if in_bounds b 0 n then Some (slice b 0 n) else None.
(** [memcpy(&b[off], d, length d)] *)
Definition store_at (b : bytes) (off : Z) (d : bytes) : option bytes :=
  if in_bounds b off (Z.of_nat (length d)) then Some (splice b off d) else None.

Definition is_null (p : option bytes) : bool := match p with None => true | Some _ => false end.
Definition zeros (n : Z) : bytes := replicate (Z.to_nat n) 0.
Definition xor_bytes (a b : bytes) : bytes := zip_with Z.lxor a b.

(** A 32-bit counter, most significant byte first. *)
Definition be32 (c : Z) : bytes :=
  [Z.land (Z.shiftr c 24) 255; Z.land (Z.shiftr c 16) 255; Z.land (Z.shiftr c 8) 255; Z.land c 255].

Definition TLS_HASH_SHA256 : Z := 0.
Definition TLS_SHA256_DIGEST_LEN : Z := 32.

Section Hash.
Context {St : Type} `{Sha256 St}.

(** ** hash.c *)

(** [struct tls_hash_context]: the function pointers are those of SHA-256 in
    every context that is filled. *)
Record tls_hash_context := mk_hash { digestlen : Z; hash_private : St }.

(** The context, [None] when it is left as it was, and the result. *)
Definition tls_hash_context_init (algorithm : Z) : option tls_hash_context * bool :=
  if algorithm =? TLS_HASH_SHA256 then
    (Some (mk_hash TLS_SHA256_DIGEST_LEN tls_sha256_init.2), tls_sha256_init.1)
  else (None, false).

Definition tls_hash_update (ctx : tls_hash_context) (data : option bytes) (len : Z) : option tls_hash_context :=
  d ← rd data len; Some (mk_hash (digestlen ctx) (tls_sha256_update (hash_private ctx) d)).
Definition tls_hash_digest (ctx : tls_hash_context) : bytes := tls_sha256_digest (hash_private ctx).

(** The loop of [tls_mgf1]. *)
Fixpoint mgf1_loop (fuel : nat) (hash_data : tls_hash_context) (outbuf : bytes)
    (outlen printlen ctr : Z) : option bytes :=
  if printlen <? outlen then
    match fuel with
    | O => None
    | S fuel' =>
        let hashlen := digestlen hash_data in
        let copylen := if outlen - printlen >? hashlen then hashlen else outlen - printlen in
        hash_ctr ← tls_hash_update hash_data (Some (be32 ctr)) 4;
        chunk ← rd (Some (tls_hash_digest hash_ctr)) copylen;
        outbuf ← store_at outbuf printlen chunk;
        mgf1_loop fuel' hash_data outbuf outlen (u24 (printlen + hashlen)) (u32 (ctr + 1))
    end
  else Some outbuf.

Definition tls_mgf1 (data : option bytes) (datalen : Z) (outbuf : bytes) (outlen : Z)
    (hash_alg : Z) : option (bool * bytes) :=
  match tls_hash_context_init hash_alg with
  | (Some hash_data, true) =>
      hash_data ← tls_hash_update hash_data data datalen;
      out ← mgf1_loop (Z.to_nat outlen) hash_data outbuf outlen 0 0;
      Some (true, out)
  | _ => Some (false, outbuf)
  end.

(** ** hmac.c *)

Record tls_hmac_context := mk_hmac {
  hmac_digestlen : Z;
  ipad : bytes;
  opad : bytes;
  hmac_private : St
}.

(** The inner [None] is a result of false. *)
Definition tls_hmac_context_init (algorithm : Z) (key : option bytes) (keylen : Z) :
    option (option tls_hmac_context) :=
  if is_null key || (keylen =? 0) then Some None
  else
    sum ← (if 64 <? keylen then
             match tls_hash_context_init algorithm with
             | (Some htmp, _) =>
                 htmp ← tls_hash_update htmp key keylen;
                 store_at (zeros 64) 0 (tls_hash_digest htmp)
             | (None, _) => None   (* the call goes through an indeterminate pointer *)
             end
           else k ← rd key keylen; store_at (zeros 64) 0 k);
    let ipad := xor_bytes (replicate 64 0x36) sum in
    let opad := xor_bytes (replicate 64 0x5C) sum in
    if algorithm =? TLS_HASH_SHA256 then
      Some (Some (mk_hmac TLS_SHA256_DIGEST_LEN ipad opad
        (tls_sha256_update tls_sha256_init.2 ipad)))
    else Some None.

Definition tls_hmac_update (ctx : tls_hmac_context) (data : option bytes) (len : Z) : option tls_hmac_context :=
  d ← rd data len;
  Some (mk_hmac (hmac_digestlen ctx) (ipad ctx) (opad ctx) (tls_sha256_update (hmac_private ctx) d)).

(** Works on a copy of the context. *)
Definition tls_hmac_digest (ctx : tls_hmac_context) : option bytes :=
  let tbuf := tls_sha256_digest (hmac_private ctx) in
  inner ← rd (Some tbuf) (hmac_digestlen ctx);
  Some (tls_sha256_digest
    (tls_sha256_update (tls_sha256_update tls_sha256_init.2 (opad ctx)) inner)).

(** ** passwords.c *)

(** The rounds after the first: [hash_buffer] and [hash_composite]. *)
Fixpoint pbkdf2_rounds (n : nat) (initial : tls_hmac_context) (hash_buffer hash_composite : bytes) :
    option bytes :=
  match n with
  | O => Some hash_composite
  | S n' =>
      state ← tls_hmac_update initial (Some hash_buffer) (hmac_digestlen initial);
      hash_buffer ← tls_hmac_digest state;
      pbkdf2_rounds n' initial hash_buffer (xor_bytes hash_composite hash_buffer)
  end.

Fixpoint pbkdf2_loop (fuel : nat) (initial counter : tls_hmac_context) (rounds : Z)
    (key : bytes) (keylen outlen ctr : Z) : option bytes :=
  if outlen <? keylen then
    match fuel with
    | O => None
    | S fuel' =>
        let hash_len := hmac_digestlen initial in
        let copylen := if keylen - outlen <? hash_len then keylen - outlen else hash_len in
        state ← tls_hmac_update counter (Some (be32 ctr)) 4;
        hash_buffer ← tls_hmac_digest state;
        hash_composite ← pbkdf2_rounds (Z.to_nat (rounds - 1)) initial hash_buffer hash_buffer;
        chunk ← rd (Some hash_composite) copylen;
        key ← store_at key outlen chunk;
        pbkdf2_loop fuel' initial counter rounds key keylen (u24 (outlen + hash_len)) (u32 (ctr + 1))
    end
  else Some key.

Definition tls_pbkdf2 (password : option bytes) (passlen : Z) (salt : option bytes) (saltlen : Z)
    (key : option bytes) (keylen rounds algorithm : Z) : option (bool * option bytes) :=
  if is_null password || is_null key || is_null salt ||
     (passlen =? 0) || (saltlen =? 0) || (keylen =? 0) || (rounds =? 0) then Some (false, key)
  else
    initial ← tls_hmac_context_init algorithm password passlen;
    match initial with
    | None => Some (false, key)
    | Some initial =>
        counter ← tls_hmac_update initial salt saltlen;
        buf ← key;
        out ← pbkdf2_loop (Z.to_nat keylen) initial counter rounds buf keylen 0 1;
        Some (true, Some out)
    end.

(** ** hkdf.c *)

Definition get_hash_length (hash_algorithm : Z) : Z :=
  if hash_algorithm =? TLS_HASH_SHA256 then 32 else 0.

Definition tls_hkdf_extract (hash_algorithm : Z) (salt : option bytes) (salt_len : Z)
    (ikm : option bytes) (ikm_len : Z) (prk : option bytes) : option (bool * option bytes) :=
  let hash_len := get_hash_length hash_algorithm in
  if (hash_len =? 0) || is_null ikm || is_null prk then Some (false, prk)
  else
    let '(salt, salt_len) :=
      if is_null salt || (salt_len =? 0) then (Some (zeros 32), hash_len) else (salt, salt_len) in
    ctx ← tls_hmac_context_init hash_algorithm salt salt_len;
    match ctx with
    | None => Some (false, prk)
    | Some ctx =>
        ctx ← tls_hmac_update ctx ikm ikm_len;
        d ← tls_hmac_digest ctx;
        buf ← prk;
        out ← store_at buf 0 d;
        Some (true, Some out)
    end.

(** Iterations [i] to [n], [k] of them. *)
Fixpoint expand_loop (k : nat) (hash_algorithm : Z) (prk : option bytes) (prk_len : Z)
    (info : option bytes) (info_len : Z) (okm_len i : Z) (t_prev okm : bytes) (offset : Z) :
    option (bool * bytes) :=
  match k with
  | O => Some (true, okm)
  | S k' =>
      let hash_len := get_hash_length hash_algorithm in
      ctx ← tls_hmac_context_init hash_algorithm prk prk_len;
      match ctx with
      | None => Some (false, okm)
      | Some ctx =>
          ctx ← (if 1 <? i then tls_hmac_update ctx (Some t_prev) hash_len else Some ctx);
          ctx ← (if negb (is_null info) && (0 <? info_len) then tls_hmac_update ctx info info_len
                 else Some ctx);
          ctx ← tls_hmac_update ctx (Some [u8 i]) 1;
          t_prev ← tls_hmac_digest ctx;
          let to_copy := if okm_len <? offset + hash_len then okm_len - offset else hash_len in
          chunk ← rd (Some t_prev) to_copy;
          okm ← store_at okm offset chunk;
          expand_loop k' hash_algorithm prk prk_len info info_len okm_len (i + 1) t_prev okm (offset + to_copy)
      end
  end.

Definition tls_hkdf_expand (hash_algorithm : Z) (prk : option bytes) (prk_len : Z)
    (info : option bytes) (info_len : Z) (okm : option bytes) (okm_len : Z) : option (bool * option bytes) :=
  let hash_len := get_hash_length hash_algorithm in
  if (hash_len =? 0) || is_null prk || is_null okm then Some (false, okm)
  else if 255 * hash_len <? okm_len then Some (false, okm)
  else
    let n := (okm_len + hash_len - 1) / hash_len in
    buf ← okm;
    r ← expand_loop (Z.to_nat n) hash_algorithm prk prk_len info info_len okm_len 1 [] buf 0;
    Some (r.1, Some r.2).

(** [hkdf_label] is an array of 512 bytes, filled from the front. *)
Definition label_put (b : bytes * Z) (d : bytes) : option (bytes * Z) :=
  l ← store_at b.1 b.2 d; Some (l, b.2 + Z.of_nat (length d)).

Definition tls13_prefix : bytes := str "tls13 ".

Definition tls_hkdf_expand_label (hash_algorithm : Z) (secret : option bytes) (secret_len : Z)
    (label : option bytes) (label_len : Z) (context : option bytes) (context_len : Z)
    (out : option bytes) (out_len : Z) : option (bool * option bytes) :=
  let full_label_len := u24 (6 + label_len) in
  if is_null secret || is_null label || is_null out then Some (false, out)
  else if (full_label_len <? 7) || (255 <? full_label_len) then Some (false, out)
  else if 255 <? context_len then Some (false, out)
  else
    b ← label_put (zeros 512, 0) [u8 (Z.shiftr out_len 8)];
    b ← label_put b [u8 (Z.land out_len 255)];
    b ← label_put b [u8 full_label_len];
    b ← label_put b tls13_prefix;
    l ← rd label label_len;
    b ← label_put b l;
    b ← label_put b [u8 context_len];
    b ← (if negb (is_null context) && (0 <? context_len) then
           c ← rd context context_len; label_put b c
         else Some b);
    tls_hkdf_expand hash_algorithm secret secret_len (Some b.1) b.2 out out_len.

Definition tls_derive_secret (hash_algorithm : Z) (secret : option bytes) (secret_len : Z)
    (label : option bytes) (label_len : Z) (transcript_hash : option bytes) (transcript_hash_len : Z)
    (out : option bytes) : option (bool * option bytes) :=
  let hash_len := get_hash_length hash_algorithm in
  if (hash_len =? 0) || negb (transcript_hash_len =? hash_len) then Some (false, out)
  else
    tls_hkdf_expand_label hash_algorithm secret secret_len label label_len
      transcript_hash transcript_hash_len out hash_len.

End Hash.
