(* ===== verification/Sha256Ref.v ===== *)
(** * SHA-256 as the standard defines it

    FIPS 180-4, in executable form: the instance of the hash interface with
    which the witnesses of the TLS layer run.  The program's own SHA-256 is
    assembly; the theorems are proved against the interface and hold for every
    implementation of its laws. *)

From S2P Require Import Prelude MemState TlsHash.

(** ** The standard *)

(** The constants of the standard (sections 4.2.2 and 5.3.3), by their
    definition: the first 32 bits of the fractional parts of the cube roots of
    the first 64 primes, and of the square roots of the first 8. *)
Definition is_prime (n : Z) : bool :=
  forallb (fun d => negb (n mod Z.of_nat d =? 0)) (seq 2 (Z.to_nat (Z.sqrt n) - 1)).
Definition first_primes : list Z := List.filter is_prime (Z.of_nat <$> seq 2 310).
Definition cube_root (v : Z) : Z :=
  foldl (fun r i => let r' := r + 2 ^ Z.of_nat i in if r' ^ 3 <=? v then r' else r) 0 (rev (seq 0 36)).
Definition sha_K : list Z :=
  Eval vm_compute in (fun p => u32 (cube_root (p * 2 ^ 96))) <$> first_primes.
Definition sha_H0 : list Z :=
  Eval vm_compute in (fun p => u32 (Z.sqrt (p * 2 ^ 64))) <$> take 8 first_primes.

Definition rotr (x n : Z) : Z := Z.lor (Z.shiftr x n) (u32 (Z.shiftl x (32 - n))).
Definition xor3 (a b c : Z) : Z := Z.lxor (Z.lxor a b) c.
Definition Sigma0 (x : Z) : Z := xor3 (rotr x 2) (rotr x 13) (rotr x 22).
Definition Sigma1 (x : Z) : Z := xor3 (rotr x 6) (rotr x 11) (rotr x 25).
Definition sigma0 (x : Z) : Z := xor3 (rotr x 7) (rotr x 18) (Z.shiftr x 3).
Definition sigma1 (x : Z) : Z := xor3 (rotr x 17) (rotr x 19) (Z.shiftr x 10).
Definition Ch (x y z : Z) : Z := Z.lxor (Z.land x y) (Z.land (Z.lxor x 0xFFFFFFFF) z).
Definition Maj (x y z : Z) : Z := xor3 (Z.land x y) (Z.land x z) (Z.land y z).

(** Padding: a one bit, zeros, the length in bits. *)
Definition be64 (v : Z) : bytes := (fun i => Z.land (Z.shiftr v (8 * i)) 255) <$> [7; 6; 5; 4; 3; 2; 1; 0].
Definition sha_pad (m : bytes) : bytes :=
  let len := Z.of_nat (length m) in
  m ++ [0x80] ++ zeros ((55 - len) mod 64) ++ be64 (8 * len).

Definition be_word (b : bytes) : Z := foldl (fun a x => 256 * a + x) 0 b.

(** The message schedule, last word first. *)
Fixpoint sha_extend (n : nat) (w : list Z) : list Z :=
  match n with
  | O => w
  | S n' => sha_extend n'
      (u32 (sigma1 (w !!! 1%nat) + w !!! 6%nat + sigma0 (w !!! 14%nat) + w !!! 15%nat) :: w)
  end.
Fixpoint words (n : nat) (b : bytes) : list Z :=
  match n with O => [] | S n' => be_word (take 4 b) :: words n' (drop 4 b) end.

Definition sha_round (s : list Z) (kw : Z * Z) : list Z :=
  match s with
  | [a; b; c; d; e; f; g; h] =>
      let t1 := h + Sigma1 e + Ch e f g + kw.1 + kw.2 in
      let t2 := Sigma0 a + Maj a b c in
      [u32 (t1 + t2); a; b; c; u32 (d + t1); e; f; g]
  | _ => s
  end.
Definition sha_block (s : list Z) (block : bytes) : list Z :=
  let w := reverse (sha_extend 48 (reverse (words 16 block))) in
  zip_with (fun x y => u32 (x + y)) s (foldl sha_round s (zip sha_K w)).
Fixpoint sha_blocks (n : nat) (s : list Z) (b : bytes) : list Z :=
  match n with O => s | S n' => sha_blocks n' (sha_block s (take 64 b)) (drop 64 b) end.

Definition sha_word_bytes (w : Z) : bytes := be32 w.
Definition sha256_fips (m : bytes) : bytes :=
  let p := sha_pad m in
  concat (sha_word_bytes <$> sha_blocks (length p / 64) sha_H0 p).

(** ** The instance *)

(** A context is the data fed to it so far. *)
#[global] Instance fips_sha256 : Sha256 bytes := {
  tls_sha256_init := (true, []);
  tls_sha256_update := fun st d => st ++ d;
  tls_sha256_digest := sha256_fips
}.

Lemma sha_round_length s kw : length s = 8%nat -> length (sha_round s kw) = 8%nat.
Proof. intros Hs. by do 9 (destruct s as [|? s]; try done). Qed.

Lemma sha_block_length s b : length s = 8%nat -> length (sha_block s b) = 8%nat.
Proof.
  intros Hs. unfold sha_block. rewrite length_zip_with, Hs.
  assert (forall l t, length t = 8%nat -> length (foldl sha_round t l) = 8%nat) as ->; [|done|done].
  induction l as [|x l IH]; intros t Ht; [done|]. by apply IH, sha_round_length.
Qed.

Lemma sha_blocks_length n s b : length s = 8%nat -> length (sha_blocks n s b) = 8%nat.
Proof. revert s b. induction n; intros; cbn [sha_blocks]; [done|]. by apply IHn, sha_block_length. Qed.

Lemma be32_bytes w : Forall is_byte (be32 w).
Proof. unfold be32. rewrite !land_255. repeat constructor; by apply Z.mod_pos_bound. Qed.

#[global] Instance fips_sha256_laws : Sha256Laws bytes.
Proof.
  refine {| sha256 := sha256_fips |}.
  - done.
  - intros l. assert (forall m, foldl (fun st d : bytes => st ++ d) m l = m ++ concat l) as Hf.
    { induction l as [|x l IH]; intros m; cbn; [by rewrite app_nil_r|]. by rewrite IH, app_assoc. }
    change (sha256_fips (foldl (fun st d : bytes => st ++ d) [] l) = sha256_fips (concat l)). by rewrite Hf.
  - intros m. unfold sha256_fips. pose proof (sha_blocks_length (length (sha_pad m) / 64) sha_H0 (sha_pad m) eq_refl) as Hl.
    destruct (sha_blocks _ _ _) as [|? l]; [done|]. by do 8 (destruct l as [|? l]; try done).
  - intros m. unfold sha256_fips. apply Forall_concat, Forall_fmap, Forall_forall. intros w _. apply be32_bytes.
Defined.

(** "abc" *)
Example sha256_abc : be_word (sha256_fips (str "abc")) =
  0xba7816bf8f01cfea414140de5dae2223b00361a396177a9cb410ff61f20015ad.
Proof. by vm_compute. Qed.
