(* ===== verification/TlsKdf.v ===== *)
(** * HMAC, MGF1, PBKDF2 and HKDF are what their standards say

    Reference definitions from RFC 2104, RFC 8017, RFC 8018, RFC 5869 and RFC
    8446, and the equivalence of the code of [TlsHash] with them, for every
    hash that obeys the interface's laws.  The code writes its output block by
    block into a buffer; [filled] says how far it has come. *)

From S2P Require Import Prelude MemState RingList TlsHash.

(** ** The standards *)

Section Standards.
Context {St : Type} `{Sha256Laws St}.

(** RFC 2104: a key of one block, hashed first when it is longer. *)
Definition hmac_key (K : bytes) : bytes :=
  let k := if 64 <? Z.of_nat (length K) then sha256 K else K in
  k ++ replicate (64 - length k) 0.
Definition HMAC (K m : bytes) : bytes :=
  sha256 (xor_bytes (replicate 64 0x5C) (hmac_key K) ++
    sha256 (xor_bytes (replicate 64 0x36) (hmac_key K) ++ m)).

(** RFC 8017: an integer as four bytes. *)
Definition I2OSP4 (c : Z) : bytes :=
  [c / 16777216 mod 256; c / 65536 mod 256; c / 256 mod 256; c mod 256].
(** The blocks of an output of [n] bytes. *)
Definition out_blocks (f : nat -> bytes) (n : nat) : bytes := concat (f <$> seq 0 n).
Definition block_count (n : nat) : nat := (n + 31) / 32.

(** RFC 8017, B.2.1 *)
Definition MGF1 (seed : bytes) (n : nat) : bytes :=
  take n (out_blocks (fun i => sha256 (seed ++ I2OSP4 (Z.of_nat i))) (block_count n)).

(** RFC 8018, 5.2: the iterates of a block and their sum. *)
Definition pbkdf2_U (P S : bytes) (i j : nat) : bytes :=
  Nat.iter j (HMAC P) (HMAC P (S ++ I2OSP4 (Z.of_nat i + 1))).
Definition pbkdf2_F (P S : bytes) (c : Z) (i : nat) : bytes :=
  foldl (fun acc j => xor_bytes acc (pbkdf2_U P S i j)) (pbkdf2_U P S i 0) (seq 1 (Z.to_nat (c - 1))).
Definition PBKDF2 (P S : bytes) (c : Z) (n : nat) : bytes :=
  take n (out_blocks (pbkdf2_F P S c) (block_count n)).

(** RFC 5869 *)
Definition HKDF_Extract (salt ikm : bytes) : bytes := HMAC (if salt is [] then replicate 32 0 else salt) ikm.
Fixpoint hkdf_T (prk info : bytes) (i : nat) : bytes :=
  HMAC prk (match i with O => [] | S i' => hkdf_T prk info i' end ++ info ++ [Z.of_nat i + 1]).
Definition HKDF_Expand (prk info : bytes) (n : nat) : bytes :=
  take n (out_blocks (hkdf_T prk info) (block_count n)).

(** RFC 8446, 7.1 *)
Definition HkdfLabel (n : Z) (label context : bytes) : bytes :=
  [n / 256 mod 256; n mod 256] ++
  [Z.of_nat (length (str "tls13 " ++ label))] ++ (str "tls13 " ++ label) ++
  [Z.of_nat (length context)] ++ context.
Definition HKDF_Expand_Label (secret label context : bytes) (n : nat) : bytes :=
  HKDF_Expand secret (HkdfLabel (Z.of_nat n) label context) n.
End Standards.

(** ** Buffers *)

Lemma rd_app d r : rd (Some (d ++ r)) (Z.of_nat (length d)) = Some d.
Proof.
  unfold rd, in_bounds. cbn. rewrite length_app. ztest. cbn. unfold slice.
  by rewrite Nat2Z.id, drop_0, take_app_length.
Qed.

Lemma rd_all d n : n = Z.of_nat (length d) -> rd (Some d) n = Some d.
Proof. intros ->. rewrite <- (app_nil_r d) at 1. apply rd_app. Qed.

Lemma rd_take d (n : nat) : (n <= length d)%nat -> rd (Some d) (Z.of_nat n) = Some (take n d).
Proof.
  intros Hn. pose proof (rd_app (take n d) (drop n d)) as H. by rewrite take_drop, length_take_le in H by done.
Qed.

Lemma be32_I2OSP4 c : be32 c = I2OSP4 c.
Proof.
  unfold be32, I2OSP4. rewrite !land_255, !Z.shiftr_div_pow2 by done. done.
Qed.

(** The first [n] bytes of a buffer have been written from a stream. *)
Definition filled (s : bytes) (n : nat) (out : bytes) : bytes := take n s ++ drop n out.

Lemma filled_0 s out : filled s 0 out = out.
Proof. unfold filled. by rewrite take_0, drop_0. Qed.

Lemma length_filled s n out : (n <= length s)%nat -> (n <= length out)%nat -> length (filled s n out) = length out.
Proof. intros. unfold filled. rewrite length_app, length_take, length_drop. lia. Qed.

Lemma store_filled s n c out : (n + c <= length s)%nat -> (n + c <= length out)%nat ->
  store_at (filled s n out) (Z.of_nat n) (take c (drop n s)) = Some (filled s (n + c) out).
Proof.
  intros Hs Ho. unfold store_at, in_bounds. rewrite length_filled, length_take_le by (rewrite ?length_drop; lia).
  ztest. cbn [andb]. f_equal. unfold splice. rewrite Nat2Z.id, length_take_le by (rewrite ?length_drop; lia).
  unfold filled. rewrite take_app_le, take_take, Nat.min_id by (rewrite length_take; lia).
  rewrite drop_app_ge by (rewrite length_take; lia). rewrite length_take_le, drop_drop by lia.
  rewrite app_assoc, take_take_drop. f_equal. f_equal. lia.
Qed.

Lemma length_blocks f n : (forall i, length (f i) = 32%nat) -> length (out_blocks f n) = (32 * n)%nat.
Proof.
  intros Hf. unfold out_blocks. induction n as [|n IH]; [done|].
  rewrite seq_S, fmap_app, concat_app, length_app, IH. cbn. rewrite length_app, Hf. cbn. lia.
Qed.

Lemma blocks_at f n k : (forall i, length (f i) = 32%nat) -> (k < n)%nat ->
  take 32 (drop (32 * k) (out_blocks f n)) = f k.
Proof.
  intros Hf Hk. unfold out_blocks. replace n with (k + S (n - S k))%nat by lia.
  rewrite seq_app, fmap_app, concat_app. cbn [seq fmap list_fmap concat Nat.add].
  rewrite drop_app_length' by (symmetry; exact (length_blocks f k Hf)).
  by rewrite take_app_length' by (symmetry; apply Hf).
Qed.

Lemma block_part f n k c : (forall i, length (f i) = 32%nat) -> (k < n)%nat -> (c <= 32)%nat ->
  take c (f k) = take c (drop (32 * k) (out_blocks f n)).
Proof. intros Hf Hk Hc. rewrite <- (blocks_at f n k) by done. by rewrite take_take, Nat.min_l. Qed.

Lemma block_count_spec n : (n <= 32 * block_count n < n + 32)%nat.
Proof. unfold block_count. pose proof (Nat.div_mod (n + 31) 32). pose proof (Nat.mod_upper_bound (n + 31) 32). lia. Qed.

Section Laws.
Context {St : Type} {ops : Sha256 St} {laws : Sha256Laws St}.

(** ** Contexts *)

(** A state of the hash that has taken in [m]. *)
Definition absorbed (st : St) (m : bytes) : Prop :=
  exists l, st = foldl tls_sha256_update tls_sha256_init.2 l /\ concat l = m.

Lemma absorbed_init : absorbed tls_sha256_init.2 [].
Proof. by exists []. Qed.

Lemma absorbed_update st m d : absorbed st m -> absorbed (tls_sha256_update st d) (m ++ d).
Proof.
  intros (l&->&<-). exists (l ++ [d]). rewrite foldl_app, concat_app. cbn. by rewrite app_nil_r.
Qed.

Lemma absorbed_digest st m : absorbed st m -> tls_sha256_digest st = sha256 m.
Proof. intros (l&->&<-). apply sha256_streams. Qed.

Lemma absorbed_one d : absorbed (tls_sha256_update tls_sha256_init.2 d) d.
Proof. exact (absorbed_update _ _ d absorbed_init). Qed.

(** An HMAC context under the key [K] that has taken in [m]. *)
Record hmac_ok (K m : bytes) (c : tls_hmac_context) : Prop := {
  ho_len : hmac_digestlen c = 32;
  ho_opad : opad c = xor_bytes (replicate 64 0x5C) (hmac_key K);
  ho_state : absorbed (hmac_private c) (xor_bytes (replicate 64 0x36) (hmac_key K) ++ m)
}.

Lemma store_zeros d : (length d <= 64)%nat -> store_at (zeros 64) 0 d = Some (d ++ replicate (64 - length d) 0).
Proof.
  intros Hd. unfold store_at, in_bounds. change (zeros 64) with (replicate 64 0). rewrite length_replicate. ztest.
  cbn [andb]. f_equal. unfold splice. rewrite take_0, app_nil_l. f_equal. by rewrite drop_replicate.
Qed.

Lemma length_hmac_key K : length (hmac_key K) = 64%nat.
Proof.
  unfold hmac_key. destruct (Z.ltb_spec 64 (Z.of_nat (length K))); rewrite length_app, length_replicate;
    [rewrite sha256_length|]; lia.
Qed.

Lemma hmac_init K r : K <> [] -> exists c,
  tls_hmac_context_init TLS_HASH_SHA256 (Some (K ++ r)) (Z.of_nat (length K)) = Some (Some c) /\ hmac_ok K [] c.
Proof.
  intros HK. unfold tls_hmac_context_init. cbn [is_null orb].
  rewrite (proj2 (Z.eqb_neq _ 0)) by (destruct K; [done|cbn; lia]).
  unfold tls_hash_update. rewrite rd_app.
  match goal with |- context [if 64 <? Z.of_nat (length K) then ?a else ?b] =>
    assert ((if 64 <? Z.of_nat (length K) then a else b) = Some (hmac_key K)) as -> end.
  { unfold hmac_key. destruct (Z.ltb_spec 64 (Z.of_nat (length K))); cbn.
    - unfold tls_hash_digest. cbn [hash_private]. rewrite (absorbed_digest _ K) by apply absorbed_one.
      rewrite store_zeros; [done|]. rewrite sha256_length. lia.
    - rewrite store_zeros by lia. done. }
  eexists. split; [done|]. split; cbn; [done|done|].
  rewrite app_nil_r. apply absorbed_one.
Qed.

Lemma hmac_update K m c d r : hmac_ok K m c -> exists c',
  tls_hmac_update c (Some (d ++ r)) (Z.of_nat (length d)) = Some c' /\ hmac_ok K (m ++ d) c'.
Proof.
  intros [H1 H2 H3]. unfold tls_hmac_update. rewrite rd_app. eexists. split; [done|].
  split; cbn; [done|done|]. rewrite app_assoc. by apply absorbed_update.
Qed.

Lemma hmac_update_all K m c d n : hmac_ok K m c -> n = Z.of_nat (length d) -> exists c',
  tls_hmac_update c (Some d) n = Some c' /\ hmac_ok K (m ++ d) c'.
Proof. intros H ->. pose proof (hmac_update K m c d [] H) as Hu. by rewrite app_nil_r in Hu. Qed.

Lemma hmac_digest K m c : hmac_ok K m c -> tls_hmac_digest c = Some (HMAC K m).
Proof.
  intros [H1 H2 H3]. unfold tls_hmac_digest. rewrite H1, H2, (absorbed_digest _ _ H3).
  rewrite rd_all by (by rewrite sha256_length). cbn. f_equal. apply absorbed_digest, absorbed_update, absorbed_one.
Qed.

Lemma length_HMAC K m : length (HMAC K m) = 32%nat.
Proof. apply sha256_length. Qed.

(** ** HMAC *)

(** A use of the context: data in any number of pieces, then the digest. *)
Definition hmac_run (K : bytes) (pieces : list bytes) : option bytes :=
  c ← tls_hmac_context_init TLS_HASH_SHA256 (Some K) (Z.of_nat (length K));
  c ← c;
  c ← foldl (fun c d => c ← c; tls_hmac_update c (Some d) (Z.of_nat (length d))) (Some c) pieces;
  tls_hmac_digest c.

(** The HMAC contexts compute the HMAC of RFC 2104, for keys of every
    length (a long one is hashed first) and data fed in any pieces. *)
Theorem hmac_is_rfc2104 K pieces : K <> [] -> hmac_run K pieces = Some (HMAC K (concat pieces)).
Proof.
  intros HK. unfold hmac_run. destruct (hmac_init K [] HK) as (c&Hc&Hok). rewrite app_nil_r in Hc. rewrite Hc.
  cbn [mbind option_bind]. change (concat pieces) with ([] ++ concat pieces). revert c Hc Hok. generalize (@nil Z).
  intros m c _. revert m c. induction pieces as [|d l IH]; intros m c Hok; cbn [foldl concat].
  - rewrite app_nil_r. by apply hmac_digest.
  - destruct (hmac_update_all K m c d _ Hok eq_refl) as (c'&Hc'&Hok'). cbn [mbind option_bind]. rewrite Hc'.
    rewrite app_assoc. by apply IH.
Qed.

(** ** MGF1 *)

Lemma mgf1_loop_ok seed out n (h : tls_hash_context) : digestlen h = 32 -> absorbed (hash_private h) seed ->
  (n <= length out)%nat -> Z.of_nat n <= 16777216 - 32 ->
  forall k fuel, (32 * k <= n + 31)%nat -> (n <= fuel + 32 * k)%nat ->
  let s := out_blocks (fun i => sha256 (seed ++ I2OSP4 (Z.of_nat i))) (block_count n) in
  mgf1_loop fuel h (filled s (Nat.min (32 * k) n) out) (Z.of_nat n) (Z.of_nat (32 * k)) (Z.of_nat k) =
  Some (filled s n out).
Proof.
  intros Hd Ha Ho Hn k fuel. revert k. induction fuel as [|fuel IH]; intros k Hk Hfuel s; cbn [mgf1_loop].
  { rewrite (proj2 (Z.ltb_ge _ _)) by lia. by rewrite Nat.min_r by lia. }
  destruct (Z.ltb_spec (Z.of_nat (32 * k)) (Z.of_nat n)) as [Hlt|]; [|by rewrite Nat.min_r by lia].
  assert (forall i, length (sha256 (seed ++ I2OSP4 (Z.of_nat i))) = 32%nat) as Hf by (intros; apply sha256_length).
  pose proof (block_count_spec n). pose proof (length_blocks _ (block_count n) Hf : length s = _) as Hs.
  set (c := Nat.min 32 (n - 32 * k)).
  rewrite Hd. unfold tls_hash_update. rewrite rd_all by done. cbn [mbind option_bind].
  unfold tls_hash_digest. cbn [hash_private].
  rewrite (absorbed_digest _ (seed ++ I2OSP4 (Z.of_nat k))) by (rewrite <- be32_I2OSP4; by apply absorbed_update).
  assert ((if Z.of_nat n - Z.of_nat (32 * k) >? 32 then 32 else Z.of_nat n - Z.of_nat (32 * k)) = Z.of_nat c) as ->
    by (rewrite Z.gtb_ltb; destruct (Z.ltb_spec 32 (Z.of_nat n - Z.of_nat (32 * k))); lia).
  rewrite rd_take by (rewrite Hf; lia). cbn [mbind option_bind].
  rewrite (block_part (fun i => sha256 (seed ++ I2OSP4 (Z.of_nat i))) (block_count n) k c) by (try done; lia).
  fold s. rewrite Nat.min_l by lia. rewrite store_filled by lia. cbn [mbind option_bind].
  replace (u24 _) with (Z.of_nat (32 * S k)) by (rewrite u24_small; lia).
  replace (u32 _) with (Z.of_nat (S k)) by (rewrite u32_small; lia).
  replace (32 * k + c)%nat with (Nat.min (32 * S k) n) by lia. apply IH; lia.
Qed.

(** [tls_mgf1] writes exactly the mask of RFC 8017 and touches nothing else of
    the buffer. *)
Lemma mgf1_ok seed r out n : (n <= length out)%nat -> Z.of_nat n <= 16777216 - 32 ->
  tls_mgf1 (Some (seed ++ r)) (Z.of_nat (length seed)) out (Z.of_nat n) TLS_HASH_SHA256 =
  Some (true, MGF1 seed n ++ drop n out).
Proof.
  intros Ho Hn. unfold tls_mgf1. cbn [tls_hash_context_init Z.eqb TLS_HASH_SHA256]. rewrite sha256_ready.
  unfold tls_hash_update. rewrite rd_app. cbn [mbind option_bind]. rewrite Nat2Z.id.
  pose proof (mgf1_loop_ok seed out n (mk_hash 32 (tls_sha256_update tls_sha256_init.2 seed)) eq_refl (absorbed_one seed)
    Ho Hn 0 n ltac:(lia) ltac:(lia)) as Hl. cbv zeta in Hl. rewrite Nat.mul_0_r, Nat.min_0_l, filled_0 in Hl.
  change (Z.of_nat 0) with 0 in Hl. unfold TLS_SHA256_DIGEST_LEN. cbn [hash_private digestlen]. by rewrite Hl.
Qed.

(** ** PBKDF2 *)

Lemma rounds_ok P init n u acc : hmac_ok P [] init -> length u = 32%nat ->
  pbkdf2_rounds n init u acc =
  Some (foldl (fun a j => xor_bytes a (Nat.iter j (HMAC P) u)) acc (seq 1 n)).
Proof.
  intros Hok. revert u acc. induction n as [|n IH]; intros u acc Hu; cbn [pbkdf2_rounds]; [done|].
  destruct (hmac_update_all P [] init u (hmac_digestlen init) Hok) as (c&->&Hc); [rewrite (ho_len _ _ _ Hok); lia|].
  cbn [mbind option_bind]. rewrite (hmac_digest _ _ _ Hc). cbn [mbind option_bind app].
  rewrite IH by apply length_HMAC. f_equal. change (seq 1 (S n)) with (1%nat :: seq 2 n). cbn [foldl Nat.iter nat_rect].
  rewrite <- (fmap_S_seq 1 n), foldl_fmap.
  assert (forall l a, foldl (fun a j => xor_bytes a (Nat.iter j (HMAC P) (HMAC P u))) a l =
    foldl (fun b j => xor_bytes b (Nat.iter (S j) (HMAC P) u)) a l) as Hl; [|apply Hl].
  induction l as [|j l IHl]; intros a; cbn [foldl]; [done|]. rewrite IHl. do 2 f_equal. by rewrite Nat.iter_succ_r.
Qed.

Lemma length_xor a b : length a = length b -> length (xor_bytes a b) = length a.
Proof. intros E. unfold xor_bytes. rewrite length_zip_with. lia. Qed.

Lemma length_U P S i j : length (pbkdf2_U P S i j) = 32%nat.
Proof. unfold pbkdf2_U. destruct j; [|rewrite Nat.iter_succ]; apply length_HMAC. Qed.

Lemma length_F P S c i : length (pbkdf2_F P S c i) = 32%nat.
Proof.
  unfold pbkdf2_F. assert (forall l a, length a = 32%nat ->
    length (foldl (fun acc j => xor_bytes acc (pbkdf2_U P S i j)) a l) = 32%nat) as Hl.
  { induction l as [|j l IH]; intros a Ha; [done|]. cbn [foldl]. apply IH. rewrite length_xor; [done|].
    by rewrite length_U. }
  apply Hl, length_U.
Qed.

Lemma pbkdf2_loop_ok P S init counter rounds out n : hmac_ok P [] init -> hmac_ok P S counter ->
  (n <= length out)%nat -> Z.of_nat n <= 16777216 - 32 ->
  forall k fuel, (32 * k <= n + 31)%nat -> (n <= fuel + 32 * k)%nat ->
  let s := out_blocks (pbkdf2_F P S rounds) (block_count n) in
  pbkdf2_loop fuel init counter rounds (filled s (Nat.min (32 * k) n) out) (Z.of_nat n)
    (Z.of_nat (32 * k)) (Z.of_nat k + 1) = Some (filled s n out).
Proof.
  intros Hi Hc Ho Hn k fuel. revert k. induction fuel as [|fuel IH]; intros k Hk Hfuel s; cbn [pbkdf2_loop].
  { rewrite (proj2 (Z.ltb_ge _ _)) by lia. by rewrite Nat.min_r by lia. }
  destruct (Z.ltb_spec (Z.of_nat (32 * k)) (Z.of_nat n)) as [Hlt|]; [|by rewrite Nat.min_r by lia].
  pose proof (block_count_spec n). pose proof (length_blocks _ (block_count n) (length_F P S rounds) : length s = _) as Hs.
  set (c := Nat.min 32 (n - 32 * k)). rewrite (ho_len _ _ _ Hi).
  destruct (hmac_update_all _ _ counter (be32 (Z.of_nat k + 1)) 4 Hc eq_refl) as (st&->&Hst).
  cbn [mbind option_bind]. rewrite be32_I2OSP4 in Hst. rewrite (hmac_digest _ _ _ Hst). cbn [mbind option_bind].
  rewrite (rounds_ok P) by (done || apply length_HMAC). cbn [mbind option_bind].
  change (foldl _ _ _) with (pbkdf2_F P S rounds k).
  assert ((if Z.of_nat n - Z.of_nat (32 * k) <? 32 then Z.of_nat n - Z.of_nat (32 * k) else 32) = Z.of_nat c) as ->
    by (destruct (Z.ltb_spec (Z.of_nat n - Z.of_nat (32 * k)) 32); lia).
  rewrite rd_take by (rewrite length_F; lia). cbn [mbind option_bind].
  rewrite (block_part (pbkdf2_F P S rounds) (block_count n) k c) by (try apply length_F; lia).
  fold s. rewrite Nat.min_l by lia. rewrite store_filled by lia. cbn [mbind option_bind].
  replace (u24 _) with (Z.of_nat (32 * Datatypes.S k)) by (rewrite u24_small; lia).
  replace (u32 _) with (Z.of_nat (Datatypes.S k) + 1) by (rewrite u32_small; lia).
  replace (32 * k + c)%nat with (Nat.min (32 * Datatypes.S k) n) by lia. apply IH; lia.
Qed.

(** Password and salt may lie in longer arrays. *)
Lemma pbkdf2_ok P r S s out n rounds : P <> [] -> S <> [] -> (0 < n <= length out)%nat ->
  Z.of_nat n <= 16777216 - 32 -> 0 < rounds ->
  tls_pbkdf2 (Some (P ++ r)) (Z.of_nat (length P)) (Some (S ++ s)) (Z.of_nat (length S)) (Some out) (Z.of_nat n)
    rounds TLS_HASH_SHA256 = Some (true, Some (PBKDF2 P S rounds n ++ drop n out)).
Proof.
  intros HP HS Hn Hmax Hr. unfold tls_pbkdf2. cbn [is_null orb].
  assert (forall l : bytes, l <> [] -> (Z.of_nat (length l) =? 0) = false) as Hl
    by (intros [|]; [done|intros _; apply Z.eqb_neq; cbn; lia]).
  rewrite !Hl by done. ztest. cbn [orb].
  destruct (hmac_init P r HP) as (i&Hi&Hiok). rewrite Hi. cbn [mbind option_bind].
  destruct (hmac_update P [] i S s Hiok) as (c&->&Hc). cbn [mbind option_bind app] in *.
  pose proof (pbkdf2_loop_ok P S i c rounds out n Hiok Hc ltac:(lia) Hmax 0 n ltac:(lia) ltac:(lia)) as Hloop.
  cbv zeta in Hloop. rewrite Nat.mul_0_r, Nat.min_0_l, filled_0 in Hloop. rewrite Nat2Z.id.
  change (Z.of_nat 0) with 0 in Hloop. change (0 + 1) with 1 in Hloop. rewrite Hloop. done.
Qed.

(** [tls_pbkdf2] derives the key of RFC 8018 (PBKDF2 with HMAC), for
    every password, salt, number of rounds and key length the address space
    allows, and leaves the rest of the buffer alone. *)
Theorem pbkdf2_is_rfc8018 P S out n rounds : P <> [] -> S <> [] -> (0 < n <= length out)%nat ->
  Z.of_nat n <= 16777216 - 32 -> 0 < rounds ->
  tls_pbkdf2 (Some P) (Z.of_nat (length P)) (Some S) (Z.of_nat (length S)) (Some out) (Z.of_nat n)
    rounds TLS_HASH_SHA256 = Some (true, Some (PBKDF2 P S rounds n ++ drop n out)).
Proof. pose proof (pbkdf2_ok P [] S [] out n rounds) as H. by rewrite !app_nil_r in H. Qed.

(** ** HKDF *)

(** [tls_hkdf_extract] is the extract step of RFC 5869: a missing or empty
    salt counts as 32 zero bytes. *)
Theorem hkdf_extract_is_rfc5869 salt salt_len salt' ikm prk : (32 <= length prk)%nat ->
  (salt' = [] /\ (salt = None \/ salt_len = 0)) \/
    (salt' <> [] /\ salt = Some salt' /\ salt_len = Z.of_nat (length salt')) ->
  tls_hkdf_extract TLS_HASH_SHA256 salt salt_len (Some ikm) (Z.of_nat (length ikm)) (Some prk) =
  Some (true, Some (HKDF_Extract salt' ikm ++ drop 32 prk)).
Proof.
  intros Hprk Hsalt. unfold tls_hkdf_extract. cbn [get_hash_length Z.eqb is_null orb TLS_HASH_SHA256].
  set (K := if salt' is [] then replicate 32 0 else salt').
  assert ((if is_null salt || (salt_len =? 0) then (Some (zeros 32), 32) else (salt, salt_len)) =
    (Some K, Z.of_nat (length K))) as ->.
  { destruct Hsalt as [[-> Hs]|(Hne&->&->)].
    - assert (is_null salt || (salt_len =? 0) = true) as -> by (destruct Hs as [->| ->]; [done|by rewrite orb_true_r]). done.
    - destruct salt' as [|x l]; [done|]. done. }
  assert (K <> []) as HK by (unfold K; by destruct salt').
  destruct (hmac_init K [] HK) as (c&Hc&Hok). rewrite app_nil_r in Hc. cbv beta iota.
  rewrite Hc.
  cbn [mbind option_bind]. destruct (hmac_update_all K [] c ikm _ Hok eq_refl) as (c'&->&Hok').
  cbn [mbind option_bind]. rewrite (hmac_digest _ _ _ Hok'). cbn [mbind option_bind app].
  pose proof (store_filled (HMAC K ikm) 0 32 prk) as Hst. rewrite filled_0, drop_0, take_ge in Hst by (rewrite length_HMAC; lia).
  change (Z.of_nat 0) with 0 in Hst. rewrite Hst by (rewrite ?length_HMAC; lia). cbn [mbind option_bind]. unfold filled.
  by rewrite take_ge by (rewrite length_HMAC; lia).
Qed.

(** The [info] argument: a buffer that starts with the bytes, or none. *)
Definition info_arg (p : option bytes) (len : Z) (info : bytes) : Prop :=
  (info = [] /\ (p = None \/ len = 0)) \/
  (info <> [] /\ len = Z.of_nat (length info) /\ exists r, p = Some (info ++ r)).

Lemma hmac_info K m c p len info : hmac_ok K m c -> info_arg p len info -> exists c',
  (if negb (is_null p) && (0 <? len) then tls_hmac_update c p len else Some c) = Some c' /\
  hmac_ok K (m ++ info) c'.
Proof.
  intros Hok [[-> Hp]|(Hne&->&r&->)].
  - assert (negb (is_null p) && (0 <? len) = false) as -> by (destruct Hp as [->| ->]; [done|by rewrite andb_false_r]).
    exists c. by rewrite app_nil_r.
  - cbn [is_null negb andb]. rewrite (proj2 (Z.ltb_lt _ _)) by (destruct info; [done|cbn; lia]). by apply hmac_update.
Qed.

Lemma length_T prk info i : length (hkdf_T prk info i) = 32%nat.
Proof. destruct i; apply length_HMAC. Qed.

(** One turn of the loop computes the next block. *)
Lemma expand_block prk info p len j t : prk <> [] -> info_arg p len info -> (j < 255)%nat ->
  t = match j with O => [] | S j' => hkdf_T prk info j' end ->
  exists c,
  (ctx ← tls_hmac_context_init TLS_HASH_SHA256 (Some prk) (Z.of_nat (length prk));
   ctx ← ctx;
   ctx ← (if 1 <? Z.of_nat j + 1 then tls_hmac_update ctx (Some t) 32 else Some ctx);
   ctx ← (if negb (is_null p) && (0 <? len) then tls_hmac_update ctx p len else Some ctx);
   tls_hmac_update ctx (Some [u8 (Z.of_nat j + 1)]) 1) = Some c /\
  tls_hmac_digest c = Some (hkdf_T prk info j).
Proof.
  intros Hprk Hinfo Hj ->. destruct (hmac_init prk [] Hprk) as (c0&H0&Hc0). rewrite app_nil_r in H0. rewrite H0.
  cbn [mbind option_bind].
  assert (exists c1, (if 1 <? Z.of_nat j + 1 then tls_hmac_update c0
      (Some match j with O => [] | S j' => hkdf_T prk info j' end) 32 else Some c0) = Some c1 /\
    hmac_ok prk (match j with O => [] | S j' => hkdf_T prk info j' end) c1) as (c1&->&Hc1).
  { destruct j as [|j']; [by exists c0|]. rewrite (proj2 (Z.ltb_lt _ _)) by lia.
    by apply (hmac_update_all _ [] c0); [|rewrite length_T]. }
  cbn [mbind option_bind]. destruct (hmac_info _ _ _ p len info Hc1 Hinfo) as (c2&->&Hc2). cbn [mbind option_bind].
  destruct (hmac_update_all _ _ c2 [u8 (Z.of_nat j + 1)] 1 Hc2 eq_refl) as (c3&->&Hc3). exists c3. split; [done|].
  rewrite (hmac_digest _ _ _ Hc3), u8_small by lia. rewrite <- app_assoc. by destruct j.
Qed.

Lemma expand_loop_ok prk info p len out n : prk <> [] -> info_arg p len info -> (n <= length out)%nat ->
  (n <= 255 * 32)%nat -> forall k j t, (j + k = block_count n)%nat ->
  t = match j with O => [] | S j' => hkdf_T prk info j' end ->
  let s := out_blocks (hkdf_T prk info) (block_count n) in
  expand_loop k TLS_HASH_SHA256 (Some prk) (Z.of_nat (length prk)) p len (Z.of_nat n) (Z.of_nat j + 1) t
    (filled s (Nat.min (32 * j) n) out) (Z.of_nat (Nat.min (32 * j) n)) = Some (true, filled s n out).
Proof.
  intros Hprk Hinfo Ho Hn. pose proof (block_count_spec n) as Hbc.
  induction k as [|k IH]; intros j t Hj Ht s; cbn [expand_loop]; [by rewrite Nat.min_r by lia|].
  destruct (expand_block prk info p len j t Hprk Hinfo ltac:(lia) Ht) as (c&Hc&Hd).
  destruct (hmac_init prk [] Hprk) as (c0&H0&_). rewrite app_nil_r in H0. rewrite H0 in Hc |- *.
  cbn [mbind option_bind get_hash_length Z.eqb TLS_HASH_SHA256] in *.
  destruct (if 1 <? Z.of_nat j + 1 then _ else _) as [c1|]; [|done]. cbn [mbind option_bind] in *.
  destruct (if negb (is_null p) && _ then _ else _) as [c2|]; [|done]. cbn [mbind option_bind] in *.
  rewrite Hc. cbn [mbind option_bind]. rewrite Hd. cbn [mbind option_bind]. clear Hc Hd.
  pose proof (length_blocks _ (block_count n) (length_T prk info) : length s = _) as Hs.
  rewrite (Nat.min_l (32 * j)) by lia. set (m := Nat.min 32 (n - 32 * j)).
  assert ((if Z.of_nat n <? Z.of_nat (32 * j) + 32 then Z.of_nat n - Z.of_nat (32 * j) else 32) = Z.of_nat m) as ->
    by (destruct (Z.ltb_spec (Z.of_nat n) (Z.of_nat (32 * j) + 32)); lia).
  rewrite rd_take by (rewrite length_T; lia). cbn [mbind option_bind].
  rewrite (block_part (hkdf_T prk info) (block_count n) j m) by (try apply length_T; lia).
  fold s. rewrite store_filled by lia. cbn [mbind option_bind].
  replace (Z.of_nat (32 * j) + Z.of_nat m) with (Z.of_nat (Nat.min (32 * S j) n)) by lia.
  replace (32 * j + m)%nat with (Nat.min (32 * S j) n) by lia.
  replace (Z.of_nat j + 1 + 1) with (Z.of_nat (S j) + 1) by lia. by apply IH; [lia|].
Qed.

Lemma count_blocks n : Z.to_nat ((Z.of_nat n + 32 - 1) / 32) = block_count n.
Proof.
  replace (Z.of_nat n + 32 - 1) with (Z.of_nat (n + 31)) by lia.
  change 32 with (Z.of_nat 32). by rewrite <- Nat2Z.inj_div, Nat2Z.id.
Qed.

Lemma hkdf_expand_ok prk p len info out n : prk <> [] -> info_arg p len info -> (n <= length out)%nat ->
  (n <= 255 * 32)%nat ->
  tls_hkdf_expand TLS_HASH_SHA256 (Some prk) (Z.of_nat (length prk)) p len (Some out) (Z.of_nat n) =
  Some (true, Some (HKDF_Expand prk info n ++ drop n out)).
Proof.
  intros Hprk Hinfo Ho Hn. unfold tls_hkdf_expand.
  change (get_hash_length TLS_HASH_SHA256) with 32. cbn [Z.eqb is_null orb].
  rewrite (proj2 (Z.ltb_ge _ _)) by lia. cbn [mbind option_bind]. rewrite count_blocks.
  pose proof (expand_loop_ok prk info p len out n Hprk Hinfo Ho Hn (block_count n) 0 [] eq_refl eq_refl) as Hl.
  cbv zeta in Hl. rewrite Nat.mul_0_r, Nat.min_0_l, filled_0 in Hl. change (Z.of_nat 0) with 0 in Hl.
  change (0 + 1) with 1 in Hl. rewrite Hl. done.
Qed.

(** [tls_hkdf_expand] is the expand step of RFC 5869 for every output
    length up to 255 blocks, and refuses a longer output. *)
Theorem hkdf_expand_is_rfc5869 prk p len info out n : prk <> [] -> info_arg p len info -> (n <= length out)%nat ->
  tls_hkdf_expand TLS_HASH_SHA256 (Some prk) (Z.of_nat (length prk)) p len (Some out) (Z.of_nat n) =
  Some (if (n <=? 255 * 32)%nat then (true, Some (HKDF_Expand prk info n ++ drop n out)) else (false, Some out)).
Proof.
  intros Hprk Hinfo Ho. destruct (Nat.leb_spec n (255 * 32)); [by apply hkdf_expand_ok|].
  unfold tls_hkdf_expand. change (get_hash_length TLS_HASH_SHA256) with 32. cbn [Z.eqb is_null orb].
  by rewrite (proj2 (Z.ltb_lt _ _)) by lia.
Qed.

(** ** The label of TLS 1.3 *)

(** The label buffer: [l] has been label_put into an array of 512 bytes. *)
Definition label_buf (b : bytes * Z) (l : bytes) : Prop :=
  b = (l ++ replicate (512 - length l) 0, Z.of_nat (length l)) /\ (length l <= 512)%nat.

Lemma put_label b l d : label_buf b l -> (length l + length d <= 512)%nat ->
  exists b', label_put b d = Some b' /\ label_buf b' (l ++ d).
Proof.
  intros [-> Hl] Hd. unfold label_put, store_at, in_bounds. cbn [fst snd]. rewrite length_app, length_replicate.
  ztest. cbn [andb mbind option_bind]. eexists. split; [done|]. split; [|rewrite length_app; lia].
  rewrite length_app. f_equal; [|lia]. unfold splice.
  rewrite Nat2Z.id, take_app_length, drop_app_ge, drop_replicate by lia. rewrite <- app_assoc. do 3 f_equal. lia.
Qed.

Lemma put_overflow b l d : label_buf b l -> (512 < length l + length d)%nat -> label_put b d = None.
Proof.
  intros [-> Hl] Hd. unfold label_put, store_at, in_bounds. cbn [fst snd]. rewrite length_app, length_replicate.
  ztest. by rewrite andb_false_r.
Qed.

Ltac put_next H0 d b H := destruct (put_label _ _ d H0) as (b&E&H);
  [rewrite ?length_app; change (length tls13_prefix) with 6%nat; cbn [length]; lia|rewrite E; clear E; cbn [mbind option_bind]].

(** The buffer as far as the context, which may not fit. *)
Lemma label_head n label m (k : bytes * Z -> option (bool * option bytes)) :
  0 <= n < 65536 -> (length label <= 249)%nat -> 0 <= m < 256 -> exists b,
  label_buf b ([n / 256 mod 256; n mod 256] ++ [Z.of_nat (length (str "tls13 " ++ label))] ++
    (str "tls13 " ++ label) ++ [m]) /\
  (b ← label_put (zeros 512, 0) [u8 (Z.shiftr n 8)];
   b ← label_put b [u8 (Z.land n 255)];
   b ← label_put b [u8 (u24 (6 + Z.of_nat (length label)))];
   b ← label_put b tls13_prefix;
   l ← rd (Some label) (Z.of_nat (length label));
   b ← label_put b l;
   b ← label_put b [u8 m];
   k b) = k b.
Proof.
  intros Hn Hl Hm. assert (label_buf (zeros 512, 0) []) as H0 by (split; [done|cbn; lia]).
  rewrite rd_all by done. put_next H0 [u8 (Z.shiftr n 8)] b1 H1. put_next H1 [u8 (Z.land n 255)] b2 H2.
  put_next H2 [u8 (u24 (6 + Z.of_nat (length label)))] b3 H3. put_next H3 tls13_prefix b4 H4.
  put_next H4 label b5 H5. put_next H5 [u8 m] b6 H6. exists b6. split; [|done].
  rewrite Z.shiftr_div_pow2, land_255 in H6 by done. unfold u8 in H6. change (2 ^ 8) with 256 in H6.
  rewrite Z.mod_mod in H6 by done. rewrite (Z.mod_small m) in H6 by lia. rewrite u24_small, (Z.mod_small (6 + _)) in H6 by lia.
  rewrite length_app. replace (Z.of_nat (length (str "tls13 ") + length label)) with (6 + Z.of_nat (length label))
    by (change (length (str "tls13 ")) with 6%nat; lia). rewrite <- !app_assoc in H6. exact H6.
Qed.

Lemma expand_label_ok secret label context out n : secret <> [] -> label <> [] -> (length label <= 249)%nat ->
  (length context <= 255)%nat -> (10 + length label + length context <= 512)%nat ->
  (n <= length out)%nat -> (n <= 255 * 32)%nat ->
  tls_hkdf_expand_label TLS_HASH_SHA256 (Some secret) (Z.of_nat (length secret)) (Some label)
    (Z.of_nat (length label)) (Some context) (Z.of_nat (length context)) (Some out) (Z.of_nat n) =
  Some (true, Some (HKDF_Expand_Label secret label context n ++ drop n out)).
Proof.
  intros Hs Hne Hl Hc Hroom Ho Hn. assert (0 < length label)%nat by (destruct label; [done|cbn; lia]).
  unfold tls_hkdf_expand_label. cbv zeta. cbn [is_null orb negb andb]. rewrite !u24_small by lia. ztest. cbn [orb].
  rewrite <- (u24_small (6 + Z.of_nat (length label))) by lia.
  destruct (label_head (Z.of_nat n) label (Z.of_nat (length context)) (fun b =>
    b ← (if 0 <? Z.of_nat (length context) then c ← rd (Some context) (Z.of_nat (length context)); label_put b c else Some b);
    tls_hkdf_expand TLS_HASH_SHA256 (Some secret) (Z.of_nat (length secret)) (Some b.1) b.2 (Some out) (Z.of_nat n)))
    as (b&Hb&->); [lia|lia|lia|].
  assert (exists b', (if 0 <? Z.of_nat (length context) then c ← rd (Some context) (Z.of_nat (length context)); label_put b c
      else Some b) = Some b' /\ label_buf b' (HkdfLabel (Z.of_nat n) label context)) as (b'&->&Hb').
  { unfold HkdfLabel. rewrite !app_assoc. rewrite !app_assoc in Hb. destruct context as [|x context].
    - exists b. by rewrite app_nil_r.
    - rewrite (proj2 (Z.ltb_lt _ _)) by (cbn; lia). rewrite rd_all by done. cbn [mbind option_bind].
      apply put_label; [done|]. rewrite !length_app. change (length (str "tls13 ")) with 6%nat. cbn [length] in *. lia. }
  cbn [mbind option_bind]. destruct Hb' as [-> Hlen]. cbn [fst snd].
  apply hkdf_expand_ok; [done| |done|done]. right. split; [done|]. split; [done|]. by eexists.
Qed.

(** [tls_hkdf_expand_label] derives with the label structure of RFC 8446,
    for every label and context that the structure of 512 bytes can hold. *)
Theorem expand_label_is_rfc8446 secret label context out n : secret <> [] -> label <> [] -> (length label <= 249)%nat ->
  (length context <= 255)%nat -> (10 + length label + length context <= 512)%nat ->
  (n <= length out)%nat -> (n <= 255 * 32)%nat ->
  tls_hkdf_expand_label TLS_HASH_SHA256 (Some secret) (Z.of_nat (length secret)) (Some label)
    (Z.of_nat (length label)) (Some context) (Z.of_nat (length context)) (Some out) (Z.of_nat n) =
  Some (true, Some (HKDF_Expand_Label secret label context n ++ drop n out)).
Proof. apply expand_label_ok. Qed.

(** [tls_derive_secret] takes a transcript hash of one digest and derives one
    digest; any other length is refused. *)
Theorem derive_secret_is_rfc8446 secret label hash out : secret <> [] -> label <> [] -> (length label <= 249)%nat ->
  (32 <= length out)%nat ->
  tls_derive_secret TLS_HASH_SHA256 (Some secret) (Z.of_nat (length secret)) (Some label) (Z.of_nat (length label))
    (Some hash) (Z.of_nat (length hash)) (Some out) =
  Some (if (length hash =? 32)%nat then (true, Some (HKDF_Expand_Label secret label hash 32 ++ drop 32 out))
        else (false, Some out)).
Proof.
  intros Hs Hne Hl Ho. unfold tls_derive_secret. change (get_hash_length TLS_HASH_SHA256) with 32. cbn [Z.eqb orb].
  destruct (Nat.eqb_spec (length hash) 32) as [E|].
  - rewrite E. cbn [negb Z.eqb Z.of_nat]. pose proof (expand_label_ok secret label hash out 32 Hs Hne Hl) as H.
    rewrite E in H. apply H; lia.
  - by rewrite (proj2 (Z.eqb_neq _ _)) by lia.
Qed.

(** The checks on the lengths let through a label and a context that need up to
    514 bytes: the context is then written past the end of the array. *)
Theorem label_buffer_overflows secret label context out n : label <> [] -> (length label <= 249)%nat ->
  (length context <= 255)%nat -> (512 < 10 + length label + length context)%nat -> (n <= 255 * 32)%nat ->
  tls_hkdf_expand_label TLS_HASH_SHA256 (Some secret) (Z.of_nat (length secret)) (Some label)
    (Z.of_nat (length label)) (Some context) (Z.of_nat (length context)) (Some out) (Z.of_nat n) = None.
Proof.
  intros Hne Hl Hc Hroom Hn. assert (0 < length label)%nat by (destruct label; [done|cbn; lia]).
  unfold tls_hkdf_expand_label. cbv zeta. cbn [is_null orb negb andb]. rewrite !u24_small by lia. ztest. cbn [orb].
  rewrite <- (u24_small (6 + Z.of_nat (length label))) by lia.
  destruct (label_head (Z.of_nat n) label (Z.of_nat (length context)) (fun b =>
    b ← (c ← rd (Some context) (Z.of_nat (length context)); label_put b c);
    tls_hkdf_expand TLS_HASH_SHA256 (Some secret) (Z.of_nat (length secret)) (Some b.1) b.2 (Some out) (Z.of_nat n)))
    as (b&Hb&->); [lia|lia|lia|].
  rewrite rd_all by done. cbn [mbind option_bind]. rewrite (put_overflow _ _ _ Hb); [done|].
  rewrite !length_app. change (length (str "tls13 ")) with 6%nat. cbn [length]. lia.
Qed.

End Laws.
