(* ===== verification/Rsa.v ===== *)
(** * RSA encodings of the TLS layer

    [src/src/tls/core/rsa.c] with the context it keeps its scratch buffer in
    ([tls.c]).  The modular exponentiation is assembly (bigint.asm), a
    parameter; so are the bytes of the random generator and the blocks of
    lwIP's allocator.  Buffers and faults are as in [TlsHash]. *)

From S2P Require Import Prelude MemState TlsHash.

Definition RSA_MODULUS_MAX_SUPPORTED : Z := Z.shiftr 4096 3.
Definition RSA_MODULUS_MIN_SUPPORTED : Z := Z.shiftr 1024 3.
Definition RSA_PUBLIC_EXP : Z := 65537.
Definition ENCODE_START : Z := 0.
Definition ENCODE_SALT : Z := 1 + ENCODE_START.

(** ** tls.c *)

Definition RSA_SCRATCH_SIZE : Z := RSA_MODULUS_MAX_SUPPORTED * 2.
Definition ECC_SCRATCH_SIZE : Z := 1024.
Definition TLS_STORE_UNINITIALIZED : Z := 0.

Record truststore_state := mk_store {
  ts_status : Z;
  ts_size : Z;
  ts_entry_count : Z;
  ts_version : Z;
  ts_created : Z
}.
Definition blank_store : truststore_state := mk_store TLS_STORE_UNINITIALIZED 0 0 0 0.

Record tls_context := mk_tls {
  rsa_scratch : option bytes;
  ecc_scratch : option bytes;
  initialized : bool;
  truststore : truststore_state
}.
Definition tls_ctx0 : tls_context := mk_tls None None false blank_store.

(** Frees what is allocated. *)
Definition tls_cleanup (ctx : tls_context) : tls_context := mk_tls None None false blank_store.

(** [mem_malloc] gives the block, or none. *)
Definition tls_init (mem_malloc : Z -> option bytes) (ctx : tls_context) : tls_context * bool :=
  if initialized ctx then (ctx, true)
  else
    let ctx := mk_tls (mem_malloc RSA_SCRATCH_SIZE) (ecc_scratch ctx) false (truststore ctx) in
    match rsa_scratch ctx with
    | None => (tls_cleanup ctx, false)
    | Some _ =>
        let ctx := mk_tls (rsa_scratch ctx) (mem_malloc ECC_SCRATCH_SIZE) false (truststore ctx) in
        match ecc_scratch ctx with
        | None => (tls_cleanup ctx, false)
        | Some _ => (mk_tls (rsa_scratch ctx) (ecc_scratch ctx) true (truststore ctx), true)
        end
    end.

Definition with_scratch (b : bytes) (ctx : tls_context) : tls_context :=
  mk_tls (Some b) (ecc_scratch ctx) (initialized ctx) (truststore ctx).

(** ** Buffers *)

(** [&b[off]], and [n] bytes there. *)
Definition at_off (b : bytes) (off : Z) : option bytes :=
  if in_bounds b off 0 then Some (drop (Z.to_nat off) b) else None.
Definition rd_at (b : bytes) (off n : Z) : option bytes := rd (at_off b off) n.
(** [b[off + i] ^= m[i]] for [i] below [n] *)
Definition xor_into (b : bytes) (off n : Z) (m : bytes) : option bytes :=
  s ← rd_at b off n; k ← rd (Some m) n; store_at b off (xor_bytes s k).
Definition get8 (b : bytes) (off : Z) : option Z :=
  if off <? 0 then None else b !! Z.to_nat off.

(** All the bytes are compared, whatever their values. *)
Definition tls_bytes_compare (a b : bytes) : bool := bool_decide (a = b).

Section Rsa.
Context {St : Type} `{Sha256 St}.

(** [tls_mgf1(&b[doff], dlen, &b[ooff], outlen, alg)] within one array; the
    data is hashed before anything is written. *)
Definition mgf1_at (b : bytes) (doff dlen ooff outlen alg : Z) : option (bool * bytes) :=
  data ← at_off b doff;
  out ← at_off b ooff;
  r ← tls_mgf1 (St := St) (Some data) dlen out outlen alg;
  Some (r.1, take (Z.to_nat ooff) b ++ r.2).

(** ** OAEP *)

(** The label hash; [hash] has just been set up. *)
Definition oaep_auth (hash : tls_hash_context) (auth : option bytes) : option tls_hash_context :=
  match auth with
  | Some a => tls_hash_update hash (Some a) (Z.of_nat (length a))
  | None => Some hash
  end.

(** The clear encoding.  [seed] is what [tls_random_bytes] writes. *)
Definition oaep_fill (out seed : bytes) (hash : tls_hash_context) (auth inbuf : option bytes) (in_len ps_len : Z) :
    option bytes :=
  let dlen := digestlen hash in
  let encode_lhash := ENCODE_SALT + dlen in
  let encode_ps := encode_lhash + dlen in
  out ← store_at out ENCODE_START [0];
  out ← store_at out ENCODE_SALT seed;
  hash ← oaep_auth hash auth;
  out ← store_at out encode_lhash (tls_hash_digest hash);
  out ← store_at out encode_ps (zeros ps_len);
  out ← store_at out (encode_ps + ps_len) [1];
  m ← rd inbuf in_len;
  store_at out (encode_ps + ps_len + 1) m.

(** The masks: the output and the scratch buffer. *)
Definition oaep_mask (out scratch : bytes) (dlen db_len hash_alg : Z) : option (bytes * bytes) :=
  let encode_lhash := ENCODE_SALT + dlen in
  data ← at_off out ENCODE_SALT;
  r ← tls_mgf1 (St := St) (Some data) dlen scratch db_len hash_alg;
  out ← xor_into out encode_lhash db_len r.2;
  data ← at_off out encode_lhash;
  r ← tls_mgf1 (St := St) (Some data) db_len r.2 dlen hash_alg;
  out ← xor_into out ENCODE_SALT dlen r.2;
  Some (out, r.2).

Definition tls_rsa_encode_oaep (ctx : tls_context) (seed : bytes) (inbuf : option bytes) (in_len : Z)
    (outbuf : option bytes) (modulus_len : Z) (auth : option bytes) (hash_alg : Z) :
    option (bool * option bytes * tls_context) :=
  if (RSA_MODULUS_MAX_SUPPORTED <? modulus_len) || (modulus_len <? RSA_MODULUS_MIN_SUPPORTED) ||
     is_null inbuf || is_null outbuf || (in_len =? 0) then Some (false, outbuf, ctx)
  else if negb (initialized ctx) || is_null (rsa_scratch ctx) then Some (false, outbuf, ctx)
  else
    match tls_hash_context_init (St := St) hash_alg with
    | (Some hash, true) =>
        let dlen := digestlen hash in
        let min_padding_len := Z.shiftl dlen 1 + 2 in
        let ps_len := u24 (modulus_len - in_len - min_padding_len) in
        let db_len := u24 (modulus_len - dlen - 1) in
        if modulus_len <? u24 (in_len + min_padding_len) then Some (false, outbuf, ctx)
        else
          out ← outbuf;
          scratch ← rsa_scratch ctx;
          out ← oaep_fill out seed hash auth inbuf in_len ps_len;
          r ← oaep_mask out scratch dlen db_len hash_alg;
          Some (true, Some r.1, with_scratch r.2 ctx)
    | _ => Some (false, outbuf, ctx)
    end.

(** The first 0x01 at or after [i], [k] bytes before the end. *)
Fixpoint find_one (k : nat) (b : bytes) (i : Z) : option Z :=
  match k with
  | O => Some i
  | S k' => x ← get8 b i; if x =? 1 then Some i else find_one k' b (i + 1)
  end.

(** Both masks come off, in the scratch buffer: the encoding in its lower half,
    masks in the upper. *)
Definition oaep_unmask (tmp : bytes) (dlen db_len hash_alg : Z) : option bytes :=
  let encode_lhash := ENCODE_SALT + dlen in
  r ← mgf1_at tmp encode_lhash db_len RSA_MODULUS_MAX_SUPPORTED dlen hash_alg;
  tmp ← (m ← at_off r.2 RSA_MODULUS_MAX_SUPPORTED; xor_into r.2 ENCODE_SALT TLS_SHA256_DIGEST_LEN m);
  r ← mgf1_at tmp ENCODE_SALT dlen RSA_MODULUS_MAX_SUPPORTED db_len hash_alg;
  (m ← at_off r.2 RSA_MODULUS_MAX_SUPPORTED; xor_into r.2 encode_lhash db_len m).

(** The label is compared and the message copied out. *)
Definition oaep_open (tmp : bytes) (hash : tls_hash_context) (auth : option bytes) (in_len : Z)
    (outbuf : option bytes) : option (Z * option bytes) :=
  let encode_lhash := ENCODE_SALT + digestlen hash in
  let encode_ps := encode_lhash + digestlen hash in
  hash ← oaep_auth hash auth;
  d ← rd (Some (tls_hash_digest hash)) TLS_SHA256_DIGEST_LEN;
  e ← rd_at tmp encode_lhash TLS_SHA256_DIGEST_LEN;
  if negb (tls_bytes_compare d e) then Some (0, outbuf)
  else
    i ← find_one (Z.to_nat (in_len - encode_ps)) tmp encode_ps;
    if i =? in_len then Some (0, outbuf)
    else
      let i := i + 1 in
      m ← rd_at tmp i (in_len - i);
      out ← outbuf;
      out ← store_at out 0 m;
      Some (in_len - i, Some out).

Definition tls_rsa_decode_oaep (ctx : tls_context) (inbuf : option bytes) (in_len : Z)
    (outbuf : option bytes) (auth : option bytes) (hash_alg : Z) : option (Z * option bytes * tls_context) :=
  if (RSA_MODULUS_MAX_SUPPORTED <? in_len) || (in_len <? RSA_MODULUS_MIN_SUPPORTED) ||
     is_null inbuf || is_null outbuf then Some (0, outbuf, ctx)
  else if negb (initialized ctx) || is_null (rsa_scratch ctx) then Some (0, outbuf, ctx)
  else
    match tls_hash_context_init (St := St) hash_alg with
    | (Some hash, true) =>
        let dlen := digestlen hash in
        let db_len := in_len - dlen - 1 in
        tmp ← rsa_scratch ctx;
        i ← rd inbuf in_len;
        tmp ← store_at tmp 0 i;
        tmp ← oaep_unmask tmp dlen db_len hash_alg;
        r ← oaep_open tmp hash auth in_len outbuf;
        Some (r.1, r.2, with_scratch tmp ctx)
    | _ => Some (0, outbuf, ctx)
    end.

(** ** Encryption and signatures *)

(** The assembly routine: its [size] is a [uint8_t]. *)
Context (powmod_exp_u24 : Z -> bytes -> Z -> bytes -> bytes).

(** [while (pubkey[spos] == 0) outbuf[spos++] = 0] *)
Fixpoint copy_zeros (fuel : nat) (pubkey outbuf : bytes) (spos : Z) : option (Z * bytes) :=
  x ← get8 pubkey spos;
  if x =? 0 then
    match fuel with
    | O => None
    | S fuel' => outbuf ← store_at outbuf spos [0]; copy_zeros fuel' pubkey outbuf (spos + 1)
    end
  else Some (spos, outbuf).

Definition tls_rsa_encrypt (ctx : tls_context) (seed : bytes) (inbuf : option bytes) (in_len : Z)
    (outbuf pubkey : option bytes) (keylen hash_alg : Z) : option (bool * option bytes * tls_context) :=
  if is_null inbuf || is_null pubkey || is_null outbuf || (in_len =? 0) ||
     (RSA_MODULUS_MAX_SUPPORTED <? keylen) || (keylen <? RSA_MODULUS_MIN_SUPPORTED) then Some (false, outbuf, ctx)
  else
    key ← pubkey;
    out ← outbuf;
    last ← get8 key (keylen - 1);
    if Z.land last 1 =? 0 then Some (false, outbuf, ctx)
    else
      z ← copy_zeros (length key) key out 0;
      rest ← at_off z.2 z.1;
      r ← tls_rsa_encode_oaep ctx seed inbuf in_len (Some rest) (keylen - z.1) None hash_alg;
      rest ← r.1.2;
      let out := take (Z.to_nat z.1) z.2 ++ rest in
      if negb r.1.1 then Some (false, Some out, r.2)
      else Some (true, Some (powmod_exp_u24 (u8 keylen) out RSA_PUBLIC_EXP key), r.2).

Definition tls_rsa_decrypt_signature (signature : option bytes) (signature_len : Z)
    (outbuf pubkey : option bytes) (keylen : Z) : option (bool * option bytes) :=
  if is_null signature || is_null pubkey || is_null outbuf || (signature_len =? 0) ||
     (RSA_MODULUS_MAX_SUPPORTED <? keylen) || (keylen <? RSA_MODULUS_MIN_SUPPORTED) then Some (false, outbuf)
  else
    key ← pubkey;
    out ← outbuf;
    last ← get8 key (keylen - 1);
    if Z.land last 1 =? 0 then Some (false, outbuf)
    else
      sig ← rd signature keylen;
      out ← store_at out 0 sig;
      Some (true, Some (powmod_exp_u24 (u8 keylen) out RSA_PUBLIC_EXP key)).

(** ** PSS *)

(** The first byte that is not zero, or [k] bytes on. *)
Fixpoint skip_zeros (k : nat) (b : bytes) (i : Z) : option Z :=
  match k with
  | O => Some i
  | S k' => x ← get8 b i; if x =? 0 then skip_zeros k' b (i + 1) else Some i
  end.

(** The mask comes off [DB]; [tmp] is at [em_len]. *)
Definition pss_unmask (em : bytes) (em_len dlen db_len top_mask hash_alg : Z) : option (bool * bytes) :=
  r ← mgf1_at em (em_len - 1 - dlen) dlen em_len db_len hash_alg;
  if negb r.1 then Some r
  else
    em ← (m ← at_off r.2 em_len; xor_into r.2 0 db_len m);
    x ← get8 em 0;
    em ← store_at em 0 [Z.land x top_mask];
    Some (true, em).

(** Where the salt starts; the inner [None] is a bad structure. *)
Definition pss_salt (em : bytes) (db_len dlen : Z) : option (option Z) :=
  ps_end ← skip_zeros (Z.to_nat db_len) em 0;
  one ← (if ps_end <? db_len then x ← get8 em ps_end; Some (x =? 1) else Some false);
  if negb one then Some None
  else
    let ps_end := ps_end + 1 in
    if negb (db_len - ps_end =? dlen) then Some None else Some (Some ps_end).

(** H' is built and hashed in [tmp], and compared with H. *)
Definition pss_compare (em : bytes) (hash : tls_hash_context) (mhash : option bytes) (em_len ps_end : Z) :
    option (bool * bytes) :=
  let dlen := digestlen hash in
  em ← store_at em em_len (zeros 8);
  mh ← rd mhash dlen;
  em ← store_at em (em_len + 8) mh;
  salt ← rd_at em ps_end dlen;
  em ← store_at em (em_len + 8 + dlen) salt;
  t ← rd_at em em_len (8 + Z.shiftl dlen 1);
  hash ← tls_hash_update hash (Some t) (8 + Z.shiftl dlen 1);
  em ← store_at em em_len (tls_hash_digest hash);
  a ← rd_at em em_len dlen;
  b ← rd_at em (em_len - 1 - dlen) dlen;
  Some (tls_bytes_compare a b, em).

Definition tls_rsa_pss_verify (ctx : tls_context) (encoded_msg : option bytes) (em_len : Z)
    (mhash : option bytes) (mhash_len hash_alg : Z) : option (bool * tls_context) :=
  if is_null encoded_msg || is_null mhash then Some (false, ctx)
  else if em_len =? 0 then Some (false, ctx)
  else
    let em_bits := u16 (u24 (em_len * 8) - 1) in
    if negb (initialized ctx) || is_null (rsa_scratch ctx) then Some (false, ctx)
    else
      match tls_hash_context_init (St := St) hash_alg with
      | (Some hash, true) =>
          let dlen := digestlen hash in
          if negb (mhash_len =? dlen) then Some (false, ctx)
          else
            let db_len := u24 (em_len - dlen - 1) in
            em ← rsa_scratch ctx;
            i ← rd encoded_msg em_len;
            em ← store_at em 0 i;
            let unused := u8 (u24 (em_len * 8) - em_bits) in
            if (8 <? unused) || (unused =? 0) then Some (false, with_scratch em ctx)
            else
              let top_mask := u8 (Z.shiftr 255 unused) in
              x ← get8 em 0;
              if negb (Z.land x (255 - top_mask) =? 0) then Some (false, with_scratch em ctx)
              else
                em ← store_at em 0 [Z.land x top_mask];
                trailer ← get8 em (em_len - 1);
                if negb (trailer =? 0xBC) then Some (false, with_scratch em ctx)
                else
                  r ← pss_unmask em em_len dlen db_len top_mask hash_alg;
                  if negb r.1 then Some (false, with_scratch r.2 ctx)
                  else
                    ps ← pss_salt r.2 db_len dlen;
                    match ps with
                    | None => Some (false, with_scratch r.2 ctx)
                    | Some ps_end =>
                        r ← pss_compare r.2 hash mhash em_len ps_end;
                        Some (r.1, with_scratch r.2 ctx)
                    end
      | _ => Some (false, ctx)
      end.

End Rsa.
