(* ===== verification/RsaCorrect.v ===== *)
(** * The RSA encodings are those of RFC 8017

    OAEP: the encoder writes the encoding of the standard, and decoding gives
    the message back.  PSS: verification accepts exactly the encodings of the
    hash it is given, with a salt of one digest.  Both hold for every hash that
    obeys the interface's laws. *)

From S2P Require Import Prelude MemState RingList TlsHash TlsKdf Rsa.

(** ** Buffers made of parts *)

Lemma at_off_app a b : at_off (a ++ b) (Z.of_nat (length a)) = Some b.
Proof. unfold at_off, in_bounds. rewrite length_app. ztest. cbn [andb]. by rewrite Nat2Z.id, drop_app_length. Qed.

Lemma rd_at_app a s r : rd_at (a ++ s ++ r) (Z.of_nat (length a)) (Z.of_nat (length s)) = Some s.
Proof. unfold rd_at. rewrite at_off_app. apply rd_app. Qed.

Lemma store_app a s r d : length s = length d ->
  store_at (a ++ s ++ r) (Z.of_nat (length a)) d = Some (a ++ d ++ r).
Proof.
  intros E. unfold store_at, in_bounds. rewrite !length_app. ztest. cbn [andb]. f_equal. unfold splice.
  rewrite Nat2Z.id, take_app_length, <- E. f_equal. f_equal. rewrite <- drop_drop, drop_app_length. by rewrite drop_app_length.
Qed.

Lemma xor_into_app a s r m k : length m = length s ->
  xor_into (a ++ s ++ r) (Z.of_nat (length a)) (Z.of_nat (length s)) (m ++ k) = Some (a ++ xor_bytes s m ++ r).
Proof.
  intros E. unfold xor_into. rewrite rd_at_app, <- E, rd_app. cbn [mbind option_bind].
  apply store_app. by rewrite length_xor.
Qed.

(** A buffer that has been written from the front. *)
Definition written (w out : bytes) : bytes := w ++ drop (length w) out.

Lemma store_next w d out off : off = Z.of_nat (length w) -> (length w + length d <= length out)%nat ->
  store_at (written w out) off d = Some (written (w ++ d) out).
Proof.
  intros -> Hl. unfold written. rewrite <- (take_drop (length d) (drop (length w) out)).
  rewrite store_app by (rewrite length_take_le; [done|rewrite length_drop; lia]).
  by rewrite drop_drop, length_app, app_assoc.
Qed.

Lemma store_front d b : (length d <= length b)%nat -> store_at b 0 d = Some (d ++ drop (length d) b).
Proof.
  intros Hl. pose proof (store_next [] d b 0 eq_refl ltac:(cbn [length]; lia)) as H.
  unfold written in H. cbn [length app] in H. by rewrite drop_0 in H.
Qed.

(** ** Masks *)

Lemma xor_cancel a b : length a = length b -> xor_bytes (xor_bytes a b) b = a.
Proof.
  revert b. induction a as [|x a IH]; intros [|y b] E; try done. cbn in *. injection E as E.
  unfold xor_bytes in IH. rewrite IH by done. f_equal. by rewrite Z.lxor_assoc, Z.lxor_nilpotent, Z.lxor_0_r.
Qed.

Section Correct.
Context {St : Type} {ops : Sha256 St} {laws : Sha256Laws St}.

Lemma length_MGF1 seed n : length (MGF1 seed n) = n.
Proof.
  unfold MGF1. apply length_take_le. rewrite length_blocks by (intros; apply sha256_length).
  apply block_count_spec.
Qed.

(** ** The standard *)

(** RFC 8017, 7.1.1 *)
Definition OAEP_DB (label m : bytes) (k : nat) : bytes :=
  sha256 label ++ replicate (k - length m - 66) 0 ++ [1] ++ m.
Definition OAEP_encode (seed label m : bytes) (k : nat) : bytes :=
  let DB := OAEP_DB label m k in
  let maskedDB := xor_bytes DB (MGF1 seed (length DB)) in
  let maskedSeed := xor_bytes seed (MGF1 maskedDB 32) in
  [0] ++ maskedSeed ++ maskedDB.

Lemma length_DB label m k : (length m + 66 <= k)%nat -> length (OAEP_DB label m k) = (k - 33)%nat.
Proof. intros. unfold OAEP_DB. rewrite !length_app, length_replicate, sha256_length. cbn. lia. Qed.

(** A context whose scratch buffer has the size [tls_init] asks for. *)
Definition ready (ctx : tls_context) : Prop :=
  initialized ctx = true /\ exists b, rsa_scratch ctx = Some b /\ Z.of_nat (length b) = RSA_SCRATCH_SIZE.

(** The label, absent or not. *)
Lemma auth_hash auth : exists h, oaep_auth (mk_hash 32 tls_sha256_init.2) auth = Some h /\
  tls_hash_digest (St := St) h = sha256 (default [] auth).
Proof.
  destruct auth as [a|]; cbn [oaep_auth].
  - unfold tls_hash_update. rewrite rd_all by done. eexists. split; [done|]. apply absorbed_digest, absorbed_one.
  - eexists. split; [done|]. apply absorbed_digest, absorbed_init.
Qed.

Lemma hash_init : tls_hash_context_init (St := St) TLS_HASH_SHA256 = (Some (mk_hash 32 tls_sha256_init.2), true).
Proof. unfold tls_hash_context_init. cbn. by rewrite sha256_ready. Qed.

(** The clear encoding, written part by part. *)
Lemma oaep_fill_ok seed auth m out k : length seed = 32%nat -> (length m + 66 <= k <= length out)%nat ->
  oaep_fill (St := St) out seed (mk_hash 32 tls_sha256_init.2) auth (Some m) (Z.of_nat (length m))
    (Z.of_nat (k - length m - 66)) =
  Some ([0] ++ seed ++ OAEP_DB (default [] auth) m k ++ drop k out).
Proof.
  intros Hs Hk. destruct (auth_hash auth) as (h&Hh&Hdig). pose proof (sha256_length (default [] auth)) as H32.
  unfold oaep_fill. cbn [digestlen]. change ENCODE_SALT with 1. change ENCODE_START with 0.
  change (1 + 32) with 33. change (33 + 32) with 65. rewrite Hh, rd_all by done.
  assert (store_at out 0 [0] = store_at (written [] out) 0 [0]) as -> by (unfold written; by rewrite drop_0).
  unfold zeros. rewrite Nat2Z.id.
  do 6 (rewrite ?Hdig; rewrite store_next by (rewrite ?length_app, ?length_replicate, ?Hs, ?H32; cbn [length]; lia);
    cbn [mbind option_bind]).
  f_equal. unfold written. set (w := _ ++ m). assert (length w = k) as ->.
  { unfold w. rewrite !length_app, length_replicate, Hs, H32. cbn [length]. lia. }
  unfold w, OAEP_DB. by rewrite <- !app_assoc.
Qed.

(** The masks are applied in place. *)
Lemma oaep_mask_ok seed DB rest scratch : length seed = 32%nat -> (length DB <= length scratch)%nat ->
  (32 <= length scratch)%nat -> Z.of_nat (length DB) <= 1024 ->
  exists scratch' : bytes,
  oaep_mask (St := St) ([0] ++ seed ++ DB ++ rest) scratch 32 (Z.of_nat (length DB)) TLS_HASH_SHA256 =
  (let maskedDB := xor_bytes DB (MGF1 seed (length DB)) in
   Some ([0] ++ xor_bytes seed (MGF1 maskedDB 32) ++ maskedDB ++ rest, scratch')) /\
  length scratch' = length scratch.
Proof.
  intros Hs Hd H32 Hmax. pose proof (length_MGF1 seed (length DB)) as HM.
  unfold oaep_mask. change ENCODE_SALT with 1. change (1 + 32) with 33.
  rewrite (at_off_app [0] (seed ++ DB ++ rest) : at_off _ 1 = _). cbn [mbind option_bind].
  pose proof (mgf1_ok seed (DB ++ rest) scratch (length DB) Hd ltac:(lia)) as H1. rewrite Hs in H1. change (Z.of_nat 32) with 32 in H1.
  rewrite H1. cbn [mbind option_bind snd].
  pose proof (xor_into_app ([0] ++ seed) DB rest (MGF1 seed (length DB)) (drop (length DB) scratch) HM) as H2.
  rewrite length_app, Hs, <- app_assoc in H2. change (Z.of_nat (length [0] + 32)) with 33 in H2. rewrite H2. cbn [mbind option_bind].
  set (mDB := xor_bytes DB _). assert (length mDB = length DB) as HmDB by (by apply length_xor).
  pose proof (at_off_app ([0] ++ seed) (mDB ++ rest)) as H3.
  rewrite length_app, Hs in H3. change (Z.of_nat (length [0] + 32)) with 33 in H3. rewrite <- app_assoc in H3 |- *. rewrite H3.
  cbn [mbind option_bind].
  pose proof (mgf1_ok mDB rest (MGF1 seed (length DB) ++ drop (length DB) scratch) 32) as H4.
  rewrite length_app, HM, length_drop in H4. specialize (H4 ltac:(lia) ltac:(lia)). rewrite HmDB in H4.
  change (Z.of_nat 32) with 32 in H4. rewrite H4. cbn [mbind option_bind snd].
  pose proof (xor_into_app [0] seed (mDB ++ rest) (MGF1 mDB 32)
    (drop 32 (MGF1 seed (length DB) ++ drop (length DB) scratch))) as H5.
  rewrite Hs, length_MGF1 in H5. specialize (H5 eq_refl). change (Z.of_nat 32) with 32 in H5.
  change (Z.of_nat (length [0])) with 1 in H5. rewrite H5. cbn [mbind option_bind].
  eexists. split; [done|]. rewrite length_app, length_drop, length_app, length_drop, HM, length_MGF1. lia.
Qed.


Lemma oaep_encode_ok ctx seed m auth out k : ready ctx -> length seed = 32%nat -> m <> [] ->
  (128 <= k <= 512)%nat -> (length m + 66 <= k <= length out)%nat ->
  exists ctx', tls_rsa_encode_oaep ctx seed (Some m) (Z.of_nat (length m)) (Some out) (Z.of_nat k) auth TLS_HASH_SHA256 =
    Some (true, Some (OAEP_encode seed (default [] auth) m k ++ drop k out), ctx') /\ ready ctx'.
Proof.
  intros (Hi&b&Hb&Hlen) Hs Hm Hk Ho. change RSA_SCRATCH_SIZE with 1024 in Hlen.
  assert (0 < length m)%nat by (destruct m; [done|cbn; lia]).
  unfold tls_rsa_encode_oaep. change RSA_MODULUS_MAX_SUPPORTED with 512. change RSA_MODULUS_MIN_SUPPORTED with 128.
  cbn [is_null]. rewrite Hi, Hb. ztest. cbn [orb negb is_null]. rewrite hash_init. cbv zeta. cbn [digestlen].
  change (Z.shiftl 32 1 + 2) with 66. rewrite !u24_small by lia. ztest. cbn [mbind option_bind].
  set (DB := OAEP_DB (default [] auth) m k).
  pose proof (length_DB (default [] auth) m k ltac:(lia)) as HDB. fold DB in HDB.
  replace (Z.of_nat k - Z.of_nat (length m) - 66) with (Z.of_nat (k - length m - 66)) by lia.
  replace (Z.of_nat k - 32 - 1) with (Z.of_nat (length DB)) by (rewrite HDB; lia).
  rewrite oaep_fill_ok by done. cbn [mbind option_bind]. fold DB.
  destruct (oaep_mask_ok seed DB (drop k out) b Hs ltac:(lia) ltac:(lia) ltac:(lia)) as (b'&->&Hb').
  cbn [mbind option_bind fst snd]. eexists. split.
  - unfold OAEP_encode. fold DB. by rewrite <- !app_assoc.
  - split; [done|]. exists b'. split; [done|]. change RSA_SCRATCH_SIZE with 1024. lia.
Qed.

(** ** Decoding *)

Lemma mgf1_at_app a d r hi n doff dlen ooff : doff = Z.of_nat (length a) -> dlen = Z.of_nat (length d) ->
  ooff = Z.of_nat (length (a ++ d ++ r)) -> (n <= length hi)%nat -> Z.of_nat n <= 1024 ->
  mgf1_at (St := St) ((a ++ d ++ r) ++ hi) doff dlen ooff (Z.of_nat n) TLS_HASH_SHA256 =
  Some (true, (a ++ d ++ r) ++ MGF1 d n ++ drop n hi).
Proof.
  intros -> -> -> Hn Hmax. unfold mgf1_at. rewrite at_off_app.
  replace ((a ++ d ++ r) ++ hi) with (a ++ d ++ r ++ hi) at 1 by (by rewrite <- !app_assoc).
  rewrite at_off_app. cbn [mbind option_bind]. rewrite mgf1_ok by lia. cbn [mbind option_bind fst snd].
  by rewrite Nat2Z.id, take_app_length.
Qed.

Lemma get8_app a x r : get8 (a ++ x :: r) (Z.of_nat (length a)) = Some x.
Proof.
  unfold get8. rewrite (proj2 (Z.ltb_ge _ _)) by lia. rewrite Nat2Z.id, lookup_app_r, Nat.sub_diag by lia. done.
Qed.

Lemma find_one_app a p q r : find_one (p + S q) (a ++ replicate p 0 ++ [1] ++ r) (Z.of_nat (length a)) =
  Some (Z.of_nat (length a + p)).
Proof.
  revert a. induction p as [|p IH]; intros a; cbn [replicate app Nat.add find_one]; rewrite get8_app; cbn; [f_equal; lia|].
  specialize (IH (a ++ [0])). rewrite length_app, <- app_assoc in IH. cbn [app length] in IH.
  replace (Z.of_nat (length a) + 1) with (Z.of_nat (length a + 1)) by lia. rewrite IH. f_equal. lia.
Qed.

(** The masks come off. *)
Lemma oaep_unmask_ok mS mDB pad hi : length mS = 32%nat -> length hi = 512%nat ->
  (33 + length mDB + length pad = 512)%nat ->
  let seed := xor_bytes mS (MGF1 mDB 32) in
  exists hi', length hi' = 512%nat /\
  oaep_unmask (St := St) ([0] ++ mS ++ mDB ++ pad ++ hi) 32 (Z.of_nat (length mDB)) TLS_HASH_SHA256 =
  Some ([0] ++ seed ++ xor_bytes mDB (MGF1 seed (length mDB)) ++ pad ++ hi').
Proof.
  intros HS Hhi Hsum seed. unfold oaep_unmask. change ENCODE_SALT with 1. change (1 + 32) with 33.
  change RSA_MODULUS_MAX_SUPPORTED with 512. change TLS_SHA256_DIGEST_LEN with 32.
  assert (length (([0] ++ mS) ++ mDB ++ pad) = 512%nat) as Hf by (rewrite !length_app, HS; cbn [length]; lia).
  pose proof (mgf1_at_app ([0] ++ mS) mDB pad hi 32 33 (Z.of_nat (length mDB)) 512
    ltac:(rewrite length_app, HS; done) eq_refl ltac:(rewrite Hf; done) ltac:(lia) ltac:(lia)) as H1.
  change (Z.of_nat 32) with 32 in H1. rewrite <- !app_assoc in *. rewrite H1. cbn [mbind option_bind snd]. clear H1.
  pose proof (at_off_app ([0] ++ mS ++ mDB ++ pad) (MGF1 mDB 32 ++ drop 32 hi)) as H2. rewrite Hf in H2.
  change (Z.of_nat 512) with 512 in H2. rewrite <- !app_assoc in H2. rewrite H2. cbn [mbind option_bind]. clear H2.
  set (hi1 := MGF1 mDB 32 ++ drop 32 hi). assert (length hi1 = 512%nat) as Hh1
    by (unfold hi1; rewrite length_app, length_MGF1, length_drop; lia).
  pose proof (xor_into_app [0] mS ((mDB ++ pad) ++ hi1) (MGF1 mDB 32) (drop 32 hi)) as H3.
  rewrite length_MGF1, HS in H3. specialize (H3 eq_refl). change (Z.of_nat 32) with 32 in H3.
  change (Z.of_nat (length [0])) with 1 in H3. fold hi1 in H3. fold seed in H3.
  rewrite <- !app_assoc in H3. rewrite H3. cbn [mbind option_bind]. clear H3.
  assert (length seed = 32%nat) as Hseed by (unfold seed; rewrite length_xor; rewrite ?length_MGF1; lia).
  pose proof (mgf1_at_app [0] seed (mDB ++ pad) hi1 (length mDB) 1 32 512 eq_refl ltac:(by rewrite Hseed)
    ltac:(rewrite !length_app, Hseed; cbn [length]; lia) ltac:(lia) ltac:(lia)) as H4.
  rewrite <- !app_assoc in H4. rewrite H4. cbn [mbind option_bind snd]. clear H4.
  set (hi2 := MGF1 seed (length mDB) ++ drop (length mDB) hi1). assert (length hi2 = 512%nat) as Hh2
    by (unfold hi2; rewrite length_app, length_MGF1, length_drop; lia).
  pose proof (at_off_app ([0] ++ seed ++ mDB ++ pad) hi2) as H5. 
  replace (Z.of_nat (length ([0] ++ seed ++ mDB ++ pad))) with 512 in H5
    by (rewrite !length_app, Hseed; cbn [length]; lia).
  rewrite <- !app_assoc in H5. rewrite H5. cbn [mbind option_bind]. clear H5.
  pose proof (xor_into_app ([0] ++ seed) mDB (pad ++ hi2) (MGF1 seed (length mDB)) (drop (length mDB) hi1)
    (length_MGF1 _ _)) as H6. rewrite length_app, Hseed, <- !app_assoc in H6.
  exists hi2. split; [done|]. exact H6.
Qed.

(** The label matches and the message is found behind the padding. *)
Lemma oaep_open_ok seed auth m k r out : length seed = 32%nat -> (length m + 66 <= k)%nat -> (length m <= length out)%nat ->
  oaep_open (St := St) ([0] ++ seed ++ OAEP_DB (default [] auth) m k ++ r) (mk_hash 32 tls_sha256_init.2) auth
    (Z.of_nat k) (Some out) = Some (Z.of_nat (length m), Some (m ++ drop (length m) out)).
Proof.
  intros Hs Hk Ho. unfold oaep_open. cbn [digestlen]. change ENCODE_SALT with 1. change (1 + 32) with 33.
  change (33 + 32) with 65. change TLS_SHA256_DIGEST_LEN with 32. destruct (auth_hash auth) as (h&->&Hdig).
  cbn [mbind option_bind]. rewrite Hdig. rewrite rd_all by (by rewrite sha256_length). cbn [mbind option_bind].
  unfold OAEP_DB. rewrite <- !app_assoc. pose proof (sha256_length (default [] auth)) as H32.
  set (p := (k - length m - 66)%nat). set (A := [0] ++ seed ++ sha256 (default [] auth)).
  assert (length A = 65%nat) as HA by (unfold A; rewrite !length_app, Hs, H32; done).
  pose proof (rd_at_app ([0] ++ seed) (sha256 (default [] auth)) (replicate p 0 ++ [1] ++ m ++ r)) as Hrd.
  rewrite length_app, Hs, H32, <- !app_assoc in Hrd. change (Z.of_nat (length [0] + 32)) with 33 in Hrd.
  change (Z.of_nat 32) with 32 in Hrd. rewrite Hrd. cbn [mbind option_bind]. clear Hrd.
  unfold tls_bytes_compare. rewrite bool_decide_eq_true_2 by done. cbn [negb].
  assert (forall r, [0] ++ seed ++ sha256 (default [] auth) ++ r = A ++ r) as EA
    by (intros; unfold A; by rewrite <- !app_assoc). rewrite !EA.
  pose proof (find_one_app A p (length m) (m ++ r)) as Hfind. rewrite HA in Hfind.
  replace (p + S (length m))%nat with (Z.to_nat (Z.of_nat k - 65)) in Hfind by lia. change (Z.of_nat 65) with 65 in Hfind.
  rewrite Hfind. cbn [mbind option_bind]. rewrite (proj2 (Z.eqb_neq _ _)) by lia.
  pose proof (rd_at_app (A ++ replicate p 0 ++ [1]) m r) as Hrd.
  rewrite !length_app, HA, length_replicate in Hrd. rewrite <- !app_assoc in Hrd.
  replace (Z.of_nat (65 + p) + 1) with (Z.of_nat (65 + (p + length [1]))) by (cbn [length]; lia).
  replace (Z.of_nat k - Z.of_nat (65 + (p + length [1]))) with (Z.of_nat (length m)) by (cbn [length]; lia).
  rewrite Hrd. cbn [mbind option_bind]. by rewrite store_front.
Qed.

Lemma oaep_decode_ok ctx seed m auth out k : ready ctx -> length seed = 32%nat -> m <> [] ->
  (128 <= k <= 512)%nat -> (length m + 66 <= k)%nat -> (length m <= length out)%nat -> exists ctx',
  tls_rsa_decode_oaep ctx (Some (OAEP_encode seed (default [] auth) m k)) (Z.of_nat k) (Some out) auth TLS_HASH_SHA256 =
    Some (Z.of_nat (length m), Some (m ++ drop (length m) out), ctx').
Proof.
  intros (Hi&b&Hb&Hlen) Hs Hm Hk Hmk Ho. change RSA_SCRATCH_SIZE with 1024 in Hlen. unfold OAEP_encode.
  set (DB := OAEP_DB (default [] auth) m k). pose proof (length_DB (default [] auth) m k ltac:(lia)) as HDB. fold DB in HDB.
  set (mDB := xor_bytes DB (MGF1 seed (length DB))). assert (length mDB = length DB) as HmDB
    by (unfold mDB; rewrite length_xor; rewrite ?length_MGF1; lia).
  set (mS := xor_bytes seed (MGF1 mDB 32)). assert (length mS = 32%nat) as HmS
    by (unfold mS; rewrite length_xor; rewrite ?length_MGF1; lia).
  assert (length ([0] ++ mS ++ mDB) = k) as Hlem by (rewrite !length_app, HmS, HmDB; cbn [length]; lia).
  unfold tls_rsa_decode_oaep. change RSA_MODULUS_MAX_SUPPORTED with 512. change RSA_MODULUS_MIN_SUPPORTED with 128.
  cbn [is_null]. rewrite Hi, Hb. ztest. cbn [orb negb is_null]. rewrite hash_init. cbv zeta. cbn [digestlen].
  rewrite rd_all by (by rewrite Hlem). cbn [mbind option_bind]. rewrite store_front by lia. cbn [mbind option_bind].
  rewrite Hlem. set (pad := take (512 - k) (drop k b)). set (hi := drop 512 b).
  assert (drop k b = pad ++ hi) as ->.
  { unfold pad, hi. rewrite <- (take_drop (512 - k) (drop k b)) at 1. rewrite drop_drop. do 2 f_equal. lia. }
  assert (length pad = (512 - k)%nat) as Hpad by (unfold pad; rewrite length_take, length_drop; lia).
  assert (length hi = 512%nat) as Hhi by (unfold hi; rewrite length_drop; lia).
  destruct (oaep_unmask_ok mS mDB pad hi HmS Hhi ltac:(lia)) as (hi'&_&Hu).
  replace (Z.of_nat k - 32 - 1) with (Z.of_nat (length mDB)) by lia. rewrite <- !app_assoc. rewrite Hu. clear Hu.
  cbn [mbind option_bind].
  assert (xor_bytes mS (MGF1 mDB 32) = seed) as -> by (apply xor_cancel; rewrite length_MGF1; lia).
  rewrite HmDB. assert (xor_bytes mDB (MGF1 seed (length DB)) = DB) as -> by (apply xor_cancel; rewrite length_MGF1; lia).
  unfold DB. rewrite oaep_open_ok by lia. by eexists.
Qed.

(** C26. What [tls_rsa_encode_oaep] writes is the OAEP encoding of RFC 8017,
    and [tls_rsa_decode_oaep] gives the message back: for every message that
    fits, every seed and label, and modulus lengths from 128 to 512 bytes. *)
Theorem oaep_round_trip ctx ctx2 seed m auth out out2 k : ready ctx -> ready ctx2 -> length seed = 32%nat -> m <> [] ->
  (128 <= k <= 512)%nat -> (length m + 66 <= k <= length out)%nat -> (length m <= length out2)%nat ->
  let em := OAEP_encode seed (default [] auth) m k in
  exists ctx' ctx2',
  tls_rsa_encode_oaep ctx seed (Some m) (Z.of_nat (length m)) (Some out) (Z.of_nat k) auth TLS_HASH_SHA256 =
    Some (true, Some (em ++ drop k out), ctx') /\
  tls_rsa_decode_oaep ctx2 (Some em) (Z.of_nat k) (Some out2) auth TLS_HASH_SHA256 =
    Some (Z.of_nat (length m), Some (m ++ drop (length m) out2), ctx2').
Proof.
  intros Hc Hc2 Hs Hm Hk Ho Ho2 em.
  destruct (oaep_encode_ok ctx seed m auth out k Hc Hs Hm Hk Ho) as (ctx'&He&_).
  destruct (oaep_decode_ok ctx2 seed m auth out2 k Hc2 Hs Hm Hk ltac:(lia) Ho2) as (ctx2'&Hd). eauto.
Qed.

(** ** PSS *)

(** The top bit of the first byte is not used. *)
Definition clear_top (l : bytes) : bytes := match l with x :: l => Z.land x 127 :: l | [] => [] end.

(** RFC 8017, 9.1.1, for a modulus of whole bytes and a salt of one digest. *)
Definition PSS_encode (mhash salt : bytes) (n : nat) : bytes :=
  let H := sha256 (replicate 8 0 ++ mhash ++ salt) in
  let DB := replicate (n - 66) 0 ++ [1] ++ salt in
  clear_top (xor_bytes DB (MGF1 H (n - 33))) ++ H ++ [0xBC].

Lemma length_clear_top l : length (clear_top l) = length l.
Proof. by destruct l. Qed.

Lemma land_127 x : Z.land x 127 = x mod 128.
Proof. change 127 with (Z.ones 7). by rewrite Z.land_ones. Qed.

Lemma clear_top_head l x k : x :: k = clear_top l -> x < 128.
Proof. destruct l as [|y l]; [done|]. injection 1 as -> _. rewrite land_127. by apply Z.mod_pos_bound. Qed.

Lemma land_128 x : 0 <= x < 256 -> (Z.land x 128 =? 0) = (x <? 128).
Proof.
  intros Hx. change 128 with (2 ^ 7) at 1. destruct (Z.ltb_spec x 128).
  - apply Z.eqb_eq. apply Z.bits_inj'. intros i Hi. rewrite Z.land_spec, Z.bits_0, Z.pow2_bits_eqb by lia.
    destruct (Z.eqb_spec 7 i) as [<-|]; [|apply andb_false_r]. rewrite andb_true_r.
    rewrite <- (Z.mod_small x (2 ^ 7)) by lia. apply Z.mod_pow2_bits_high. lia.
  - apply Z.eqb_neq. intros E. assert (Z.testbit (Z.land x (2 ^ 7)) 7 = true) as Hb; [|by rewrite E in Hb].
    rewrite Z.land_spec, Z.pow2_bits_true, andb_true_r by lia. apply Z.testbit_true; [lia|].
    replace (x / 2 ^ 7) with 1; [done|]. apply Z.div_unique with (x - 128); lia.
Qed.

(** Masking twice, with the top bit cleared each time. *)
Lemma clear_xor_twice a m : length a = length m ->
  clear_top (xor_bytes (clear_top (xor_bytes a m)) m) = clear_top a.
Proof.
  destruct a as [|x a], m as [|y m]; intros E; try done. cbn in *. injection E as E.
  f_equal; [|by apply xor_cancel]. apply Z.bits_inj'. intros i Hi.
  rewrite !Z.land_spec, Z.lxor_spec, Z.land_spec, Z.lxor_spec.
  by destruct (Z.testbit x i), (Z.testbit y i), (Z.testbit 127 i).
Qed.

(** The length of the zeros in front. *)
Fixpoint zero_run (l : bytes) : nat :=
  match l with x :: l => if x =? 0 then S (zero_run l) else O | [] => O end.

Lemma zero_run_le l : (zero_run l <= length l)%nat.
Proof. induction l as [|x l IH]; cbn; [lia|]. destruct (x =? 0); lia. Qed.

Lemma skip_zeros_app a l r : skip_zeros (length l) (a ++ l ++ r) (Z.of_nat (length a)) =
  Some (Z.of_nat (length a + zero_run l)).
Proof.
  revert a. induction l as [|x l IH]; intros a; cbn [length skip_zeros zero_run app]; [f_equal; lia|].
  rewrite get8_app. cbn [mbind option_bind]. destruct (x =? 0); [|f_equal; lia].
  specialize (IH (a ++ [x])). rewrite length_app, <- app_assoc in IH. cbn [app length] in IH.
  replace (Z.of_nat (length a) + 1) with (Z.of_nat (length a + 1)) by lia. rewrite IH. f_equal. lia.
Qed.

Lemma zero_run_split l x : l !! zero_run l = Some x -> l = replicate (zero_run l) 0 ++ x :: drop (S (zero_run l)) l.
Proof.
  induction l as [|y l IH]; cbn; [done|]. destruct (Z.eqb_spec y 0) as [->|]; cbn; [|by injection 1 as ->].
  intros H. f_equal. by apply IH.
Qed.

Lemma zero_run_padded p x s : x <> 0 -> zero_run (replicate p 0 ++ x :: s) = p.
Proof. intros Hx. induction p; cbn; [by rewrite (proj2 (Z.eqb_neq _ _) Hx)|]. by rewrite IHp. Qed.

(** The salt of a well-formed block. *)
Lemma pss_salt_ok DB r : (33 <= length DB)%nat ->
  pss_salt (DB ++ r) (Z.of_nat (length DB)) 32 =
  Some (if bool_decide (zero_run DB = (length DB - 33)%nat /\ DB !! zero_run DB = Some 1)
        then Some (Z.of_nat (length DB - 32)) else None).
Proof.
  intros Hl. unfold pss_salt. rewrite Nat2Z.id. pose proof (skip_zeros_app [] DB r) as Hs.
  cbn [app length] in Hs. change (Z.of_nat 0) with 0 in Hs. rewrite Hs. cbn [mbind option_bind Nat.add].
  pose proof (zero_run_le DB). destruct (Z.ltb_spec (Z.of_nat (zero_run DB)) (Z.of_nat (length DB))) as [Hlt|Hge].
  - unfold get8. rewrite (proj2 (Z.ltb_ge _ _)), Nat2Z.id, lookup_app_l by lia.
    destruct (lookup_lt_is_Some_2 DB (zero_run DB)) as [x Hx]; [lia|]. rewrite Hx. cbn [mbind option_bind].
    destruct (Z.eqb_spec x 1) as [->|Hne]; cbn [negb].
    + destruct (Z.eqb_spec (Z.of_nat (length DB) - (Z.of_nat (zero_run DB) + 1)) 32); cbn [negb].
      * rewrite bool_decide_eq_true_2 by (split; [lia|done]). do 2 f_equal. lia.
      * rewrite bool_decide_eq_false_2; [done|]. intros [E _]. lia.
    + rewrite bool_decide_eq_false_2; [done|]. intros [_ E]. congruence.
  - rewrite bool_decide_eq_false_2; [done|]. intros [E _]. lia.
Qed.

Lemma pss_unmask_ok db H hi : (0 < length db)%nat -> length H = 32%nat -> (length db <= length hi)%nat ->
  Z.of_nat (length db) <= 1024 -> let n := Z.of_nat (length db + 33) in
  exists hi', length hi' = length hi /\
  pss_unmask (St := St) (db ++ H ++ [0xBC] ++ hi) n 32 (Z.of_nat (length db)) 127 TLS_HASH_SHA256 =
  Some (true, clear_top (xor_bytes db (MGF1 H (length db))) ++ H ++ [0xBC] ++ hi').
Proof.
  intros Hpos HH Hd Hmax n. unfold pss_unmask. replace (n - 1 - 32) with (Z.of_nat (length db)) by lia.
  assert (Z.of_nat (length (db ++ H ++ [0xBC])) = n) as Hn by (rewrite !length_app, HH; cbn [length]; lia).
  pose proof (mgf1_at_app db H [0xBC] hi (length db) _ 32 n eq_refl ltac:(by rewrite HH) (eq_sym Hn) Hd ltac:(lia)) as H1.
  rewrite <- !app_assoc in H1. rewrite H1. cbn [mbind option_bind fst snd negb]. clear H1.
  set (hi1 := MGF1 H (length db) ++ drop (length db) hi).
  pose proof (at_off_app (db ++ H ++ [0xBC]) hi1) as H2. rewrite Hn, <- !app_assoc in H2. rewrite H2. cbn [mbind option_bind]. clear H2.
  pose proof (xor_into_app [] db (H ++ [0xBC] ++ hi1) (MGF1 H (length db)) (drop (length db) hi) (length_MGF1 _ _)) as H3.
  cbn [app length] in H3. change (Z.of_nat 0) with 0 in H3. fold hi1 in H3. cbn [app]. rewrite H3. cbn [mbind option_bind]. clear H3.
  assert (length (xor_bytes db (MGF1 H (length db))) = length db) as Hx by (rewrite length_xor; rewrite ?length_MGF1; lia).
  destruct (xor_bytes db (MGF1 H (length db))) as [|y l]; [cbn in Hx; lia|].
  cbn [app]. set (tl := l ++ H ++ 0xBC :: hi1). assert (get8 (y :: tl) 0 = Some y) as -> by done. cbn [mbind option_bind].
  pose proof (store_app [] [y] tl [Z.land y 127] eq_refl) as H4. cbn [app length] in H4.
  change (Z.of_nat 0) with 0 in H4. rewrite H4. cbn [mbind option_bind]. exists hi1. split; [|done].
  unfold hi1. rewrite length_app, length_MGF1, length_drop. lia.
Qed.

(** The hash is built behind the message and compared. *)
Lemma pss_compare_ok DB H mhash hi : length H = 32%nat -> length mhash = 32%nat -> (32 <= length DB)%nat ->
  (72 <= length hi)%nat -> exists em',
  pss_compare (St := St) (DB ++ H ++ [0xBC] ++ hi) (mk_hash 32 tls_sha256_init.2) (Some mhash)
    (Z.of_nat (length DB + 33)) (Z.of_nat (length DB - 32)) =
  Some (bool_decide (sha256 (replicate 8 0 ++ mhash ++ drop (length DB - 32) DB) = H), em').
Proof.
  intros HH Hmh HDB Hhi. set (f := DB ++ H ++ [0xBC]). assert (length f = (length DB + 33)%nat) as Hf
    by (unfold f; rewrite !length_app, HH; cbn [length]; lia).
  assert (forall r, DB ++ H ++ [0xBC] ++ r = f ++ r) as EA by (intros; unfold f; by rewrite <- !app_assoc).
  set (salt := drop (length DB - 32) DB). assert (length salt = 32%nat) as Hsalt by (unfold salt; rewrite length_drop; lia).
  unfold pss_compare. cbn [digestlen]. rewrite EA. change (Z.shiftl 32 1) with 64. change (8 + 64) with 72.
  rewrite <- Hf. change (zeros 8) with (replicate 8 0).
  assert (forall w d, (length w + length d <= 72)%nat ->
    store_at (f ++ written w hi) (Z.of_nat (length f) + Z.of_nat (length w)) d = Some (f ++ written (w ++ d) hi)) as Hst.
  { intros w d Hl. pose proof (store_next (f ++ w) d (f ++ hi) _ eq_refl) as Hx. unfold written in Hx |- *.
    rewrite !length_app, !drop_app_ge in Hx by lia. rewrite <- !app_assoc in Hx.
    replace (length f + length w - length f)%nat with (length w) in Hx by lia.
    rewrite <- Nat2Z.inj_add, Hx by lia. rewrite <- app_assoc, length_app. do 5 f_equal. lia. }
  pose proof (Hst [] (replicate 8 0) ltac:(cbn; lia)) as H1. unfold written at 1 in H1. cbn [length app] in H1.
  change (Z.of_nat 0) with 0 in H1. rewrite drop_0, Z.add_0_r in H1. rewrite H1. cbn [mbind option_bind]. clear H1.
  rewrite rd_all by (by rewrite Hmh). cbn [mbind option_bind].
  pose proof (Hst (replicate 8 0) mhash ltac:(cbn [length replicate]; lia)) as H2.
  change (Z.of_nat (length (replicate 8 0))) with 8 in H2. rewrite H2. cbn [mbind option_bind]. clear H2.
  assert (forall w, rd_at (f ++ written w hi) (Z.of_nat (length DB - 32)) 32 = Some salt) as Hrs.
  { intros w. pose proof (rd_at_app (take (length DB - 32) DB) salt ((H ++ [0xBC]) ++ written w hi)) as Hx.
    rewrite length_take_le, Hsalt in Hx by lia. unfold salt in Hx at 1. rewrite (app_assoc (take _ _)), take_drop in Hx.
    rewrite app_assoc in Hx. exact Hx. }
  rewrite Hrs. cbn [mbind option_bind].
  pose proof (Hst (replicate 8 0 ++ mhash) salt) as H3. rewrite length_app, Hmh, Hsalt in H3.
  specialize (H3 ltac:(cbn; lia)). replace (Z.of_nat (length f) + 8 + 32) with
    (Z.of_nat (length f) + Z.of_nat (length (replicate 8 0) + 32)) by (cbn; lia). rewrite H3. cbn [mbind option_bind]. clear H3.
  set (t := (replicate 8 0 ++ mhash) ++ salt). assert (length t = 72%nat) as Ht
    by (unfold t; rewrite !length_app, Hmh, Hsalt; done).
  pose proof (rd_at_app f t (drop (length t) hi)) as H4. rewrite Ht in H4. change (Z.of_nat 72) with 72 in H4.
  unfold written. rewrite Ht, H4. cbn [mbind option_bind]. clear H4.
  unfold tls_hash_update. rewrite rd_all by (by rewrite Ht). cbn [mbind option_bind].
  unfold tls_hash_digest. cbn [hash_private]. rewrite (absorbed_digest _ t) by apply absorbed_one.
  pose proof (sha256_length t) as H32.
  assert (t ++ drop 72 hi = take 32 t ++ drop 32 t ++ drop 72 hi) as -> by (by rewrite app_assoc, take_drop).
  rewrite store_app by (rewrite length_take_le; lia). cbn [mbind option_bind].
  pose proof (rd_at_app f (sha256 t) (drop 32 t ++ drop 72 hi)) as H5. rewrite H32 in H5. change (Z.of_nat 32) with 32 in H5.
  rewrite H5. cbn [mbind option_bind]. clear H5. rewrite Hf.
  replace (Z.of_nat (length DB + 33) - 1 - 32) with (Z.of_nat (length DB)) by lia. rewrite <- EA.
  pose proof (rd_at_app DB H ([0xBC] ++ sha256 t ++ drop 32 t ++ drop 72 hi)) as H6. rewrite HH in H6.
  change (Z.of_nat 32) with 32 in H6. rewrite H6. cbn [mbind option_bind]. eexists. unfold tls_bytes_compare, t.
  by rewrite <- app_assoc.
Qed.

(** What the structure of a block must be, and the whole decision. *)
Definition pss_good (DB : bytes) : Prop := zero_run DB = (length DB - 33)%nat /\ DB !! zero_run DB = Some 1.
#[local] Instance pss_good_dec DB : Decision (pss_good DB) := and_dec _ _.

Definition pss_decides (x : Z) (db H : bytes) (t : Z) (mhash : bytes) : bool :=
  let DB := clear_top (xor_bytes (x :: db) (MGF1 H (length (x :: db)))) in
  (x <? 128) && (t =? 0xBC) && bool_decide (pss_good DB) &&
  bool_decide (sha256 (replicate 8 0 ++ mhash ++ drop (length DB - 32) DB) = H).

Lemma pss_verify_value ctx x db H t mhash n : ready ctx -> is_byte x -> length H = 32%nat -> length mhash = 32%nat ->
  length (x :: db) = (n - 33)%nat -> (66 <= n <= 512)%nat -> exists ctx',
  tls_rsa_pss_verify ctx (Some ((x :: db) ++ H ++ [t])) (Z.of_nat n) (Some mhash) 32 TLS_HASH_SHA256 =
  Some (pss_decides x db H t mhash, ctx').
Proof.
  intros (Hi&b&Hb&Hlen) Hx HH Hmh Hdb Hn. change RSA_SCRATCH_SIZE with 1024 in Hlen.
  set (em := (x :: db) ++ H ++ [t]). assert (length em = n) as Hem by (unfold em; rewrite !length_app, HH, Hdb; cbn [length]; lia).
  unfold tls_rsa_pss_verify. cbn [is_null orb]. rewrite (proj2 (Z.eqb_neq _ _)), Hi, Hb by lia. cbn [negb is_null orb].
  rewrite hash_init. cbv zeta. cbn [digestlen mbind option_bind Z.eqb Pos.eqb negb].
  rewrite rd_all by (by rewrite Hem). cbn [mbind option_bind]. rewrite store_front by lia. cbn [mbind option_bind].
  rewrite (u24_small (Z.of_nat n * 8)), (u16_small (Z.of_nat n * 8 - 1)) by lia.
  replace (Z.of_nat n * 8 - (Z.of_nat n * 8 - 1)) with 1 by lia. change (u8 1) with 1. cbn [Z.ltb Z.compare Pos.compare Pos.compare_cont Z.eqb orb].
  change (u8 (255 ≫ 1)) with 127. change (255 - 127) with 128. rewrite Hem. set (hi := drop n b).
  assert (length hi = (1024 - n)%nat) as Hhi by (unfold hi; rewrite length_drop; lia).
  assert (em ++ hi = x :: (db ++ H ++ [t] ++ hi)) as Eem by (unfold em; by rewrite <- !app_assoc).
  assert (get8 (em ++ hi) 0 = Some x) as -> by (by rewrite Eem). cbn [mbind option_bind]. rewrite land_128 by apply Hx.
  unfold pss_decides. destruct (Z.ltb_spec x 128) as [Hx7|]; cbn [negb andb]; [|by eexists].
  rewrite land_127, Z.mod_small by (unfold is_byte in Hx; lia).
  pose proof (store_app [] [x] (db ++ H ++ [t] ++ hi) [x] eq_refl) as Hst. change (Z.of_nat (length (A := Z) [])) with 0 in Hst.
  rewrite Eem. cbn [app] in Hst |- *. rewrite Hst. cbn [mbind option_bind]. clear Hst Eem.
  pose proof (get8_app ((x :: db) ++ H) t hi) as Ht. rewrite length_app, HH, Hdb, <- app_assoc in Ht.
  replace (Z.of_nat n - 1) with (Z.of_nat (n - 33 + 32)) by lia. cbn [app] in Ht. rewrite Ht. cbn [mbind option_bind]. clear Ht.
  destruct (Z.eqb_spec t 0xBC) as [->|]; cbn [negb andb]; [|by eexists].
  destruct (pss_unmask_ok (x :: db) H hi) as (hi'&Hhi'&Hu); [lia|done|lia|lia|].
  rewrite Hdb in Hu |- *. replace (n - 33 + 33)%nat with n in Hu by lia.
  replace (u24 _) with (Z.of_nat (n - 33)) by (rewrite u24_small; lia). cbn [app] in Hu. rewrite Hu. cbn [mbind option_bind fst snd negb]. clear Hu.
  set (DB := clear_top _). assert (length DB = (n - 33)%nat) as HDB.
  { unfold DB. rewrite length_clear_top, length_xor; rewrite ?length_MGF1; done. }
  change (DB ++ H ++ 188 :: hi') with (DB ++ (H ++ [0xBC] ++ hi')). rewrite <- HDB, pss_salt_ok by lia. cbn [mbind option_bind].
  unfold pss_good. destruct (bool_decide _); cbn [andb]; [|by eexists].
  destruct (pss_compare_ok DB H mhash hi' HH Hmh ltac:(lia) ltac:(lia)) as (em'&Hc).
  replace (length DB + 33)%nat with n in Hc by lia. rewrite Hc. by eexists.
Qed.

Lemma pss_decides_iff x db H t mhash n : is_byte x -> length H = 32%nat -> length (x :: db) = (n - 33)%nat ->
  (66 <= n)%nat -> pss_decides x db H t mhash = true <->
  exists salt, length salt = 32%nat /\ (x :: db) ++ H ++ [t] = PSS_encode mhash salt n.
Proof.
  intros Hx HH Hdb Hn. unfold pss_decides, PSS_encode. rewrite Hdb. set (M := MGF1 H (n - 33)).
  assert (length (x :: db) = length M) as HM by (unfold M; by rewrite length_MGF1).
  set (DB := clear_top (xor_bytes (x :: db) M)).
  assert (length DB = (n - 33)%nat) as HDB by (unfold DB; by rewrite length_clear_top, length_xor).
  rewrite !andb_true_iff, !bool_decide_eq_true, Z.ltb_lt, Z.eqb_eq. split.
  - intros [[[Hx7 ->] [Hz H1]] HHash]. exists (drop (length DB - 32) DB). split; [rewrite length_drop; lia|].
    rewrite HHash. f_equal. pose proof (zero_run_split DB 1 H1) as Hsplit. rewrite Hz in Hsplit.
    replace (length DB - 33)%nat with (n - 66)%nat in Hsplit by lia.
    replace (S (n - 66)) with (length DB - 32)%nat in Hsplit by lia. cbn [app]. rewrite <- Hsplit. fold M.
    unfold DB. rewrite clear_xor_twice by done. cbn. f_equal. rewrite land_127, Z.mod_small; [done|]. unfold is_byte in Hx. lia.
  - intros (salt&Hsalt&E). set (H0 := sha256 (replicate 8 0 ++ mhash ++ salt)) in E. set (DB0 := replicate (n - 66) 0 ++ [1] ++ salt) in E.
    assert (length DB0 = (n - 33)%nat) as HDB0 by (unfold DB0; rewrite !length_app, length_replicate, Hsalt; cbn [length]; lia).
    destruct (app_inj_1 (x :: db) (clear_top (xor_bytes DB0 (MGF1 H0 (n - 33)))) (H ++ [t]) (H0 ++ [0xBC])) as [E1 E2];
      [rewrite length_clear_top, length_xor; rewrite ?length_MGF1; lia|exact E|].
    destruct (app_inj_1 H H0 [t] [0xBC]) as [-> E3]; [rewrite HH; symmetry; apply sha256_length|exact E2|].
    assert (t = 0xBC) as -> by congruence. clear E E2 E3.
    assert (DB = DB0) as ED.
    { unfold DB. rewrite E1. unfold M. rewrite clear_xor_twice by (by rewrite length_MGF1).
      unfold DB0. destruct (n - 66)%nat; done. }
    rewrite ED, HDB0. unfold pss_good.
    assert (zero_run DB0 = (n - 66)%nat) as Hz by (unfold DB0; by apply zero_run_padded).
    rewrite Hz, HDB0. split_and!; [|done|lia| |].
    + by apply (clear_top_head (xor_bytes DB0 (MGF1 H0 (n - 33))) x db).
    + unfold DB0. rewrite lookup_app_r by (rewrite length_replicate; lia). by rewrite length_replicate, Nat.sub_diag.
    + unfold H0. do 3 f_equal. unfold DB0. rewrite app_assoc, drop_app_ge by (rewrite length_app, length_replicate; cbn [length]; lia).
      rewrite length_app, length_replicate. cbn [length]. by replace (n - 33 - 32 - (n - 66 + 1))%nat with 0%nat by lia.
Qed.

(** The two together: the verifier decides the encodings. *)
Lemma pss_verify_iff ctx em mhash n : ready ctx -> length em = n -> Forall is_byte em -> length mhash = 32%nat ->
  (66 <= n <= 512)%nat -> exists b ctx',
  tls_rsa_pss_verify ctx (Some em) (Z.of_nat n) (Some mhash) 32 TLS_HASH_SHA256 = Some (b, ctx') /\
  (b = true <-> exists salt, length salt = 32%nat /\ em = PSS_encode mhash salt n).
Proof.
  intros Hc Hem HF Hmh Hn.
  assert (exists x db H t, em = (x :: db) ++ H ++ [t] /\ length (x :: db) = (n - 33)%nat /\ length H = 32%nat)
    as (x&db&H&t&->&Hdb&HH).
  { destruct em as [|x l]; [cbn in Hem; lia|]. cbn in Hem. destruct (drop (n - 2) l) as [|t [|]] eqn:Ed;
      apply (f_equal length) in Ed as El; rewrite length_drop in El; cbn in El; try lia.
    exists x, (take (n - 34) l), (take 32 (drop (n - 34) l)), t. split_and!.
    - cbn. f_equal. rewrite <- (take_drop (n - 34) l) at 1. f_equal. rewrite <- (take_drop 32 (drop (n - 34) l)) at 1.
      f_equal. rewrite drop_drop. replace (n - 34 + 32)%nat with (n - 2)%nat by lia. done.
    - cbn. rewrite length_take. lia.
    - rewrite length_take, length_drop. lia. }
  cbn [app] in HF. apply Forall_cons in HF as [Hx _].
  destruct (pss_verify_value ctx x db H t mhash n Hc Hx HH Hmh Hdb Hn) as (ctx'&Hv).
  exists (pss_decides x db H t mhash), ctx'. split; [done|]. apply pss_decides_iff; [done|done|done|lia].
Qed.

(** C25. PSS verification is exact: for every encoded message of 66 to 512
    bytes, [tls_rsa_pss_verify] returns true if and only if the message is the
    EMSA-PSS encoding of RFC 8017 of the given hash under some salt of one
    digest; and it never leaves the scratch buffer. *)
Theorem pss_verify_exact ctx em mhash n : ready ctx -> length em = n -> Forall is_byte em -> length mhash = 32%nat ->
  (66 <= n <= 512)%nat -> exists b ctx',
  tls_rsa_pss_verify ctx (Some em) (Z.of_nat n) (Some mhash) 32 TLS_HASH_SHA256 = Some (b, ctx') /\
  (b = true <-> exists salt, length salt = 32%nat /\ em = PSS_encode mhash salt n).
Proof. exact (pss_verify_iff ctx em mhash n). Qed.

End Correct.
