(* ===== verification/TlsSamples.v ===== *)
(** * Test vectors of the TLS layer

    The theorems of [TlsKdf] at the inputs of published test vectors, with the
    standard's SHA-256: the reference definitions give the published values,
    and so does the code.  Those of [RsaCorrect] at a modulus of 128 bytes. *)

From S2P Require Import Prelude MemState TlsHash TlsKdf Sha256Ref Rsa RsaCorrect.

Lemma nonempty_HMAC K m : HMAC (St := bytes) K m <> [].
Proof. intros E. apply (f_equal length) in E. by rewrite length_HMAC in E. Qed.

(** RFC 4231, test case 2, in two pieces. *)
Lemma hmac_is_rfc2104_witness :
  hmac_run (St := bytes) (str "Jefe") [str "what do ya want "; str "for nothing?"] =
    Some (HMAC (str "Jefe") (str "what do ya want for nothing?")) /\
  be_word (HMAC (str "Jefe") (str "what do ya want for nothing?")) =
    0x5bdcc146bf60754e6a042426089575c75a003f089d2739839dec58b964ec3843.
Proof.
  split; [|by vm_compute].
  exact (hmac_is_rfc2104 (str "Jefe") [str "what do ya want "; str "for nothing?"] ltac:(discriminate)).
Defined.

(** RFC 7914, section 11: the first block of PBKDF2-HMAC-SHA-256. *)
Lemma pbkdf2_is_rfc8018_witness :
  tls_pbkdf2 (St := bytes) (Some (str "passwd")) 6 (Some (str "salt")) 4 (Some (zeros 64)) 40 1 TLS_HASH_SHA256 =
    Some (true, Some (PBKDF2 (str "passwd") (str "salt") 1 40 ++ drop 40 (zeros 64))) /\
  be_word (take 32 (PBKDF2 (str "passwd") (str "salt") 1 40)) =
    0x55ac046e56e3089fec1691c22544b605f94185216dde0465e68b9d57c20dacbc.
Proof.
  split; [|by vm_compute].
  exact (pbkdf2_is_rfc8018 (str "passwd") (str "salt") (zeros 64) 40 1 ltac:(discriminate) ltac:(discriminate)
    ltac:(vm_compute; lia) ltac:(lia) ltac:(lia)).
Defined.

(** RFC 5869, test case 1. *)
Definition rfc5869_ikm : bytes := replicate 22 11.
Definition rfc5869_salt : bytes := Z.of_nat <$> seq 0 13.
Definition rfc5869_info : bytes := Z.of_nat <$> seq 240 10.

Lemma hkdf_extract_is_rfc5869_witness :
  tls_hkdf_extract (St := bytes) TLS_HASH_SHA256 (Some rfc5869_salt) 13 (Some rfc5869_ikm) 22 (Some (zeros 32)) =
    Some (true, Some (HKDF_Extract rfc5869_salt rfc5869_ikm ++ drop 32 (zeros 32))) /\
  be_word (HKDF_Extract rfc5869_salt rfc5869_ikm) =
    0x077709362c2e32df0ddc3f0dc47bba6390b6c73bb50f9c3122ec844ad7c2b3e5.
Proof.
  split; [|by vm_compute].
  refine (hkdf_extract_is_rfc5869 (Some rfc5869_salt) 13 rfc5869_salt rfc5869_ikm (zeros 32) ltac:(vm_compute; lia) _).
  right. split; [discriminate|]. split; reflexivity.
Defined.

Definition rfc5869_key : bytes := HKDF_Extract rfc5869_salt rfc5869_ikm.
Lemma hkdf_expand_is_rfc5869_witness :
  tls_hkdf_expand (St := bytes) TLS_HASH_SHA256 (Some rfc5869_key) (Z.of_nat (length rfc5869_key))
    (Some rfc5869_info) (Z.of_nat (length rfc5869_info)) (Some (zeros 42)) (Z.of_nat 42) =
    Some (if (42 <=? 255 * 32)%nat then (true, Some (HKDF_Expand rfc5869_key rfc5869_info 42 ++ drop 42 (zeros 42)))
          else (false, Some (zeros 42))) /\
  be_word (HKDF_Expand rfc5869_key rfc5869_info 42) =
    0x3cb25f25faacd57a90434f64d0362f2a2d2d0a90cf1a5a4c5db02d56ecc4c5bf34007208d5b887185865.
Proof.
  split; [|by vm_compute].
  refine (hkdf_expand_is_rfc5869 rfc5869_key (Some rfc5869_info) (Z.of_nat (length rfc5869_info)) rfc5869_info (zeros 42) 42
    _ _ ltac:(vm_compute; lia)).
  - apply nonempty_HMAC.
  - right. split; [discriminate|]. split; [reflexivity|]. exists []. by rewrite app_nil_r.
Defined.

(** RFC 8448, section 3: the traffic secret "derived" from the early secret. *)
Definition early_secret : bytes := HKDF_Extract [] (zeros 32).
Lemma expand_label_is_rfc8446_witness :
  tls_hkdf_expand_label (St := bytes) TLS_HASH_SHA256 (Some early_secret) (Z.of_nat (length early_secret))
    (Some (str "derived")) 7 (Some (sha256_fips [])) (Z.of_nat (length (sha256_fips []))) (Some (zeros 32)) 32 =
    Some (true, Some (HKDF_Expand_Label early_secret (str "derived") (sha256_fips []) 32 ++ drop 32 (zeros 32))) /\
  be_word (HKDF_Expand_Label early_secret (str "derived") (sha256_fips []) 32) =
    0x6f2615a108c702c5678f54fc9dbab69716c076189c48250cebeac3576c3611ba.
Proof.
  assert (length (sha256_fips []) = 32%nat) as Hl by (by vm_compute).
  split; [|by vm_compute].
  refine (expand_label_is_rfc8446 early_secret (str "derived") (sha256_fips []) (zeros 32) 32 _ ltac:(discriminate) _ _ _ _ _);
    rewrite ?Hl; try (vm_compute; lia).
  apply nonempty_HMAC.
Defined.

(** ** RSA *)

Definition sample_tls : tls_context := (tls_init (fun n => Some (zeros n)) tls_ctx0).1.
Lemma sample_ready : ready sample_tls.
Proof. split; [done|]. exists (zeros 1024). split; [done|]. by vm_compute. Qed.

Lemma oaep_round_trip_witness : exists em ctx' ctx2',
  tls_rsa_encode_oaep (St := bytes) sample_tls (zeros 32) (Some (str "hello")) 5 (Some (zeros 128)) 128 None TLS_HASH_SHA256 =
    Some (true, Some em, ctx') /\
  tls_rsa_decode_oaep (St := bytes) sample_tls (Some em) 128 (Some (zeros 5)) None TLS_HASH_SHA256 =
    Some (5, Some (str "hello"), ctx2').
Proof.
  destruct (oaep_round_trip (St := bytes) sample_tls sample_tls (zeros 32) (str "hello") None (zeros 128) (zeros 5) 128
    sample_ready sample_ready eq_refl ltac:(discriminate) ltac:(lia) ltac:(vm_compute; lia) ltac:(vm_compute; lia))
    as (ctx'&ctx2'&He&Hd).
  exists (OAEP_encode (zeros 32) [] (str "hello") 128), ctx', ctx2'. split; [|exact Hd].
  rewrite app_nil_r in He. exact He.
Defined.

Definition sample_hash : bytes := Z.of_nat <$> seq 0 32.
Definition sample_signature : bytes := PSS_encode sample_hash (zeros 32) 128.
Lemma pss_verify_exact_witness : exists ctx',
  tls_rsa_pss_verify (St := bytes) sample_tls (Some sample_signature) 128 (Some sample_hash) 32 TLS_HASH_SHA256 =
    Some (true, ctx').
Proof.
  assert (length sample_signature = 128%nat) as Hl by (by vm_compute).
  assert (Forall is_byte sample_signature) as HF.
  { assert (forallb (fun b => (0 <=? b) && (b <? 256)) sample_signature = true) as Hb by (by vm_compute).
    apply Forall_forall. intros x Hx. apply list_elem_of_In in Hx. rewrite forallb_forall in Hb.
    apply Hb, andb_prop in Hx as [H1%Z.leb_le H2%Z.ltb_lt]. by split. }
  destruct (pss_verify_exact (St := bytes) sample_tls sample_signature sample_hash 128 sample_ready Hl HF eq_refl ltac:(lia))
    as (b&ctx'&Hv&Hb).
  exists ctx'. rewrite (proj2 Hb) in Hv; [exact Hv|].
  exists (zeros 32). split; [reflexivity|]. unfold sample_signature. reflexivity.
Defined.

(** A modulus of 4096 bits is announced as supported, but its length does not
    fit the routine's argument: it is handed over as 0, which is what a modulus
    of 2048 bits is handed over as. *)
Theorem large_modulus_truncated powmod sig key out : length sig = 512%nat -> length key = 512%nat -> length out = 512%nat ->
  (forall x, key !! 511%nat = Some x -> Z.land x 1 = 1) ->
  tls_rsa_decrypt_signature powmod (Some sig) 512 (Some out) (Some key) 512 =
    Some (true, Some (powmod (u8 256) sig RSA_PUBLIC_EXP key)).
Proof.
  intros Hs Hk Ho Hodd. unfold tls_rsa_decrypt_signature. cbn [is_null orb Z.eqb].
  change (RSA_MODULUS_MAX_SUPPORTED <? 512) with false. change (512 <? RSA_MODULUS_MIN_SUPPORTED) with false. cbn [orb mbind option_bind].
  destruct (lookup_lt_is_Some_2 key 511) as [x Hx]; [lia|]. unfold get8. change (512 - 1 <? 0) with false.
  change (Z.to_nat (512 - 1)) with 511%nat. cbv iota. rewrite Hx. cbn [mbind option_bind]. rewrite (Hodd x Hx). cbn [Z.eqb].
  rewrite rd_all by (by rewrite Hs). cbn [mbind option_bind]. rewrite store_front by lia. cbn [mbind option_bind].
  rewrite drop_ge, app_nil_r by lia. done.
Qed.
