(* ===== verification/Asn1.v ===== *)
(** * The ASN.1 codec of the TLS layer

    [src/src/tls/core/asn1.c] and asn1.h.  Pointers are offsets into one array,
    [mem], that holds the data to decode and what lies around it; a read outside
    of it is a fault, the outer [None] of a result, and so is an access outside
    the sixteen nodes of a context.  [size_t] has 24 bits and is stored least
    significant byte first; [rmemcpy] reverses, so a length is written and read
    most significant byte first. *)

From S2P Require Import Prelude MemState TlsHash Rsa.

(** ** Tags *)

Definition ASN1_NULL : Z := 5.
Definition ASN1_SEQUENCE : Z := 16.
Definition ASN1_SET : Z := 17.
Definition ASN1_CONSTRUCTED : Z := 32.
Definition ASN1_MAX_DEPTH : Z := 16.

Definition tls_asn1_getform (tag : Z) : Z := Z.land (Z.shiftr tag 5) 1.

(** [enum tls_asn1_parse_mode] *)
Inductive parse_mode := ASN1_MATCH | ASN1_SEEK.
#[global] Instance parse_mode_eq_dec : EqDecision parse_mode.
Proof. solve_decision. Defined.

(** [struct tls_asn1_schema] *)
Record tls_asn1_schema := mk_schema {
  sc_name : string;
  sc_tag : Z;
  sc_depth : Z;
  sc_optional : bool;
  sc_allow_null : bool;
  sc_output : bool;
  sc_mode : parse_mode;
  sc_raw_output : bool
}.

(** [struct _asn1_node] and the decoder's context. *)
Record asn1_node := mk_node { nd_start : Z; nd_next : Z }.
Record decoder := mk_decoder { ctx_depth : Z; ctx_nodes : list asn1_node }.

(** What is written through the output pointers. *)
Record item := mk_item { it_tag : Z; it_data : option Z; it_len : Z; it_depth : Z }.

Definition tls_asn1_decoder_init (data len : Z) : option decoder :=
  if len =? 0 then None
  else Some (mk_decoder 0 (mk_node data (data + len) :: replicate 15 (mk_node 0 0))).

(** ** The decoder *)

Definition node_at (ctx : decoder) (d : Z) : option asn1_node :=
  if d <? 0 then None else ctx_nodes ctx !! Z.to_nat d.
Definition set_node (d : Z) (n : asn1_node) (ctx : decoder) : option decoder :=
  _ ← node_at ctx d; Some (mk_decoder (ctx_depth ctx) (<[Z.to_nat d := n]> (ctx_nodes ctx))).
Definition set_depth (d : Z) (ctx : decoder) : decoder := mk_decoder d (ctx_nodes ctx).

Section Decode.
Context (mem : bytes).

(** [while ( *asn1_current == 0) asn1_current++] *)
Fixpoint skip_leading (fuel : nat) (cur : Z) : option Z :=
  x ← get8 mem cur;
  if x =? 0 then match fuel with O => None | S fuel' => skip_leading fuel' (cur + 1) end
  else Some cur.

(** Bytes most significant first. *)
Fixpoint be_value (n : nat) (cur acc : Z) : option Z :=
  match n with
  | O => Some acc
  | S n' => x ← get8 mem cur; be_value n' (cur + 1) (256 * acc + x)
  end.

(** The length field at [cur]: the length and where the content starts; the
    inner [None] is a length of more than three bytes. *)
Definition decode_length (cur : Z) : option (option (Z * Z)) :=
  byte_2nd ← get8 mem cur;
  let cur := cur + 1 in
  if negb (Z.land (Z.shiftr byte_2nd 7) 1 =? 0) then
    let size_len := Z.land byte_2nd 0x7f in
    if 3 <? size_len then Some None
    else
      this_len ← be_value (Z.to_nat size_len) cur 0;
      Some (Some (this_len, cur + size_len))
  else Some (Some (byte_2nd, cur)).

(** How a turn ends: with a result of the call, or at [restart]. *)
Inductive turn :=
| T_return (ok : bool) (out : option item) (ctx : decoder)
| T_restart (ctx : decoder).

(** From [seek_next] on. *)
Definition seek_next (schema : option tls_asn1_schema) (has_result : bool) (out : option item)
    (this_tag cur this_len : Z) (ctx : decoder) : option turn :=
  n ← node_at ctx (ctx_depth ctx);
  ctx ← set_node (ctx_depth ctx) (mk_node (cur + this_len) (nd_next n)) ctx;
  ctx ← (if negb (tls_asn1_getform this_tag =? 0) then
           let ctx := set_depth (u8 (ctx_depth ctx + 1)) ctx in
           set_node (ctx_depth ctx) (mk_node cur (cur + this_len)) ctx
         else Some ctx);
  match schema with
  | Some sc => if negb has_result && bool_decide (sc_mode sc = ASN1_SEEK) then Some (T_restart ctx)
               else Some (T_return true out ctx)
  | None => Some (T_return true out ctx)
  end.

(** From [skip_checks] to [seek_next]. *)
Definition found (schema : option tls_asn1_schema) (tag_start this_tag cur this_len : Z) (ctx : decoder) :
    option turn :=
  let out :=
    match schema with
    | None => Some (mk_item this_tag (Some cur) this_len (ctx_depth ctx))
    | Some sc =>
        if sc_output sc then
          Some (if sc_raw_output sc
                then mk_item this_tag (Some tag_start) (u24 (cur - tag_start + this_len)) (ctx_depth ctx)
                else mk_item this_tag (Some cur) this_len (ctx_depth ctx))
        else None
    end in
  seek_next schema true out this_tag cur this_len ctx.

(** One turn from [restart]. *)
Definition decode_turn (schema : option tls_asn1_schema) (ctx : decoder) : option turn :=
  let depth := ctx_depth ctx in
  n ← node_at ctx depth;
  cur ← skip_leading (length mem) (nd_start n);
  if ASN1_MAX_DEPTH <=? depth then Some (T_return false None ctx)
  else
    let tag_start := cur in
    this_tag ← get8 mem cur;
    let cur := cur + 1 in
    if nd_next n <? cur then
      let ctx := set_depth (u8 (depth - 1)) ctx in
      if ctx_depth ctx =? 0 then Some (T_return false None ctx) else Some (T_restart ctx)
    else
      l ← decode_length cur;
      match l with
      | None => Some (T_return false None ctx)
      | Some (this_len, cur) =>
          match schema with
          | None => found schema tag_start this_tag cur this_len ctx
          | Some sc =>
              if negb (sc_tag sc =? this_tag) || negb (sc_depth sc =? depth) then
                if sc_allow_null sc && (this_tag =? ASN1_NULL) && (sc_depth sc =? depth) then
                  found schema tag_start this_tag cur this_len ctx
                else if bool_decide (sc_mode sc = ASN1_SEEK) then
                  seek_next schema false None this_tag cur this_len ctx
                else if negb (sc_optional sc) then Some (T_return false None ctx)
                else Some (T_return true (Some (mk_item 0 None 0 (u8 (-1)))) ctx)
              else found schema tag_start this_tag cur this_len ctx
          end
      end.

(** The whole call. *)
Fixpoint next_loop (fuel : nat) (schema : option tls_asn1_schema) (ctx : decoder) :
    option (bool * option item * decoder) :=
  match fuel with
  | O => None
  | S fuel' =>
      t ← decode_turn schema ctx;
      match t with
      | T_return ok out ctx => Some (ok, out, ctx)
      | T_restart ctx => next_loop fuel' schema ctx
      end
  end.
Definition tls_asn1_decode_next (schema : option tls_asn1_schema) (ctx : decoder) :
    option (bool * option item * decoder) :=
  next_loop (16 + length mem) schema ctx.

End Decode.

(** ** The encoder *)

(** The last [n] bytes of a 24-bit value, most significant first. *)
Definition be_bytes (n : nat) (v : Z) : bytes :=
  match n with
  | 1%nat => [v mod 256]
  | 2%nat => [v / 256 mod 256; v mod 256]
  | _ => [v / 65536 mod 256; v / 256 mod 256; v mod 256]
  end.

(** The size written, and the output buffer. *)
Definition tls_asn1_encode (tag : Z) (data : option bytes) (len : Z) (output : option bytes) :
    option (Z * option bytes) :=
  if is_null data || (len =? 0) || is_null output then Some (0, output)
  else
    let tag := if (Z.land tag 31 =? ASN1_SEQUENCE) || (Z.land tag 31 =? ASN1_SET)
               then Z.lor tag ASN1_CONSTRUCTED else tag in
    out ← output;
    out ← store_at out 0 [tag];
    r ← (if 127 <? len then
           let size_len := (if 0xffff <? len then 1 else 0) + (if 0xFF <? len then 1 else 0) + 1 in
           out ← store_at out 1 [Z.lor size_len 128];
           out ← store_at out 2 (be_bytes (Z.to_nat size_len) len);
           Some (out, 2 + size_len)
         else out ← store_at out 1 [len]; Some (out, 2));
    d ← rd data len;
    out ← store_at r.1 r.2 d;
    Some (r.2 + len, Some out).
