(* ===== verification/Asn1Correct.v ===== *)
(** * ASN.1: trees are encoded and decoded back

    The encoder writes the definite-length DER form; a walk of the decoder over
    a tree of elements lists them in order, with their contents and depths, and
    ends.  The decoder leaves finished levels lazily: [pops] describes the
    context in between. *)

From S2P Require Import Prelude MemState RingList TlsHash TlsKdf Rsa RsaCorrect Asn1.

(** ** DER *)

Definition len_bytes (n : Z) : bytes :=
  if n <=? 127 then [n]
  else if n <=? 255 then 0x81 :: be_bytes 1 n
  else if n <=? 65535 then 0x82 :: be_bytes 2 n
  else 0x83 :: be_bytes 3 n.
Definition tlv (tag : Z) (d : bytes) : bytes := tag :: len_bytes (Z.of_nat (length d)) ++ d.
Definition tlv_header (n : Z) : Z := 1 + Z.of_nat (length (len_bytes n)).

Lemma len_bytes_bound n : (1 <= length (len_bytes n) <= 4)%nat.
Proof. unfold len_bytes. repeat case_match; cbn; lia. Qed.

Lemma length_tlv tag d : Z.of_nat (length (tlv tag d)) = tlv_header (Z.of_nat (length d)) + Z.of_nat (length d).
Proof. unfold tlv, tlv_header. cbn [length]. rewrite length_app. lia. Qed.

(** ** The encoder *)

Definition der_tag (tag : Z) : Z :=
  if (Z.land tag 31 =? ASN1_SEQUENCE) || (Z.land tag 31 =? ASN1_SET) then Z.lor tag ASN1_CONSTRUCTED else tag.

(** [tls_asn1_encode] writes the element, and returns its size; the rest of the
    buffer is untouched. *)
Lemma encode_ok tag d r out : d <> [] -> Z.of_nat (length d) < 16777216 ->
  (length (tlv (der_tag tag) d) <= length out)%nat ->
  tls_asn1_encode tag (Some (d ++ r)) (Z.of_nat (length d)) (Some out) =
  Some (Z.of_nat (length (tlv (der_tag tag) d)),
        Some (tlv (der_tag tag) d ++ drop (length (tlv (der_tag tag) d)) out)).
Proof.
  intros Hd Hmax Hroom. assert (0 < length d)%nat by (destruct d; [done|cbn; lia]).
  unfold tls_asn1_encode. cbn [is_null orb]. rewrite (proj2 (Z.eqb_neq _ _)) by lia. cbn [orb]. cbv zeta.
  change (if (_ =? ASN1_SEQUENCE) || _ then _ else _) with (der_tag tag). cbn [mbind option_bind].
  set (T := der_tag tag) in *. rewrite rd_app. set (n := Z.of_nat (length d)) in *.
  assert (length (tlv T d) = (1 + length (len_bytes n) + length d)%nat) as Hl by (unfold tlv; cbn [length]; rewrite length_app; done).
  assert (store_at out 0 [T] = Some (written [T] out)) as ->
    by (rewrite store_front by (cbn [length]; lia); done).
  cbn [mbind option_bind].
  enough (exists w, (if 127 <? n then
      out ← store_at (written [T] out) 1 [Z.lor ((if 65535 <? n then 1 else 0) + (if 255 <? n then 1 else 0) + 1) 128];
      out ← store_at out 2 (be_bytes (Z.to_nat ((if 65535 <? n then 1 else 0) + (if 255 <? n then 1 else 0) + 1)) n);
      Some (out, 2 + ((if 65535 <? n then 1 else 0) + (if 255 <? n then 1 else 0) + 1))
    else out ← store_at (written [T] out) 1 [n]; Some (out, 2)) =
    Some (written w out, Z.of_nat (length w)) /\ w ++ d = tlv T d) as (w&->&Hw).
  { cbn [mbind option_bind fst snd]. assert (length w = (1 + length (len_bytes n))%nat) as Hlw
      by (apply (f_equal length) in Hw; rewrite length_app in Hw; lia).
    rewrite store_next by lia. cbn [mbind option_bind]. unfold written. rewrite Hw. do 2 f_equal. rewrite <- Hw, length_app. unfold n. lia. }
  exists (T :: len_bytes n). split; [|done]. revert Hl Hroom. unfold len_bytes.
  destruct (Z.ltb_spec 127 n), (Z.leb_spec n 127); try lia; intros Hl Hroom.
  2: { cbn [length] in *. rewrite store_next by (cbn [length]; lia). done. }
  destruct (Z.ltb_spec 65535 n), (Z.ltb_spec 255 n), (Z.leb_spec n 255), (Z.leb_spec n 65535); try lia;
    cbn [length be_bytes] in *; (rewrite store_next by (cbn [length]; lia)); cbn [mbind option_bind];
    change (Z.to_nat _) with 3%nat || change (Z.to_nat _) with 2%nat || change (Z.to_nat _) with 1%nat;
    (rewrite store_next by (cbn [length app be_bytes]; lia)); done.
Qed.

(** ** Reading an element *)

Section Walk.
Context (mem : bytes).

Lemma get8_mem pre x post : mem = pre ++ x :: post -> get8 mem (Z.of_nat (length pre)) = Some x.
Proof. intros ->. apply get8_app. Qed.

Lemma be_value_app l : forall pre post acc, mem = pre ++ l ++ post ->
  be_value mem (length l) (Z.of_nat (length pre)) acc = Some (foldl (fun a x => 256 * a + x) acc l).
Proof.
  induction l as [|x l IH]; intros pre post acc E; cbn [be_value length foldl]; [done|].
  rewrite (get8_mem pre x (l ++ post)) by done. cbn [mbind option_bind].
  specialize (IH (pre ++ [x]) post (256 * acc + x)). rewrite <- app_assoc, length_app in IH. cbn [length app] in IH.
  replace (Z.of_nat (length pre) + 1) with (Z.of_nat (length pre + 1)) by lia. by apply IH.
Qed.

Lemma be_bytes_value n v : (1 <= n <= 3)%nat -> 0 <= v < 256 ^ Z.of_nat n ->
  length (be_bytes n v) = n /\ foldl (fun a x => 256 * a + x) 0 (be_bytes n v) = v.
Proof.
  intros Hn Hv. destruct n as [|[|[|[|]]]]; try lia; cbn [be_bytes length foldl]; (split; [done|]).
  - change (256 ^ Z.of_nat 1) with 256 in Hv. rewrite Z.mod_small by lia. lia.
  - change (256 ^ Z.of_nat 2) with 65536 in Hv.
    pose proof (Z.div_mod v 256 ltac:(lia)). rewrite (Z.mod_small (v / 256)); [lia|].
    split; [apply Z.div_pos|apply Z.div_lt_upper_bound]; lia.
  - change (256 ^ Z.of_nat 3) with 16777216 in Hv.
    pose proof (Z.div_mod v 256 ltac:(lia)). pose proof (Z.div_mod (v / 256) 256 ltac:(lia)) as H2.
    rewrite Z.div_div in H2 by lia. change (256 * 256) with 65536 in H2.
    rewrite (Z.mod_small (v / 65536)); [lia|]. split; [apply Z.div_pos|apply Z.div_lt_upper_bound]; lia.
Qed.

Lemma decode_length_ok n pre post : 0 <= n < 16777216 -> mem = pre ++ len_bytes n ++ post ->
  decode_length mem (Z.of_nat (length pre)) = Some (Some (n, Z.of_nat (length (pre ++ len_bytes n)))).
Proof.
  intros Hn E.
  assert (forall k, (1 <= k <= 3)%nat -> n < 256 ^ Z.of_nat k -> len_bytes n = (128 + Z.of_nat k) :: be_bytes k n ->
    decode_length mem (Z.of_nat (length pre)) = Some (Some (n, Z.of_nat (length (pre ++ len_bytes n))))) as Hlong.
  { intros k Hk Hlt El. destruct (be_bytes_value k n Hk ltac:(lia)) as [Hl Hval]. unfold decode_length.
    rewrite El in E |- *. rewrite (get8_mem pre (128 + Z.of_nat k) (be_bytes k n ++ post)) by done. cbn [mbind option_bind].
    assert ((Z.land (Z.shiftr (128 + Z.of_nat k) 7) 1 =? 0) = false /\ Z.land (128 + Z.of_nat k) 127 = Z.of_nat k) as [-> ->]
      by (destruct k as [|[|[|[|]]]]; try lia; done).
    cbn [negb]. rewrite (proj2 (Z.ltb_ge _ _)), Nat2Z.id by lia.
    pose proof (be_value_app (be_bytes k n) (pre ++ [128 + Z.of_nat k]) post 0) as Hb.
    rewrite <- app_assoc, length_app, Hl in Hb. cbn [app length] in Hb. specialize (Hb E).
    replace (Z.of_nat (length pre) + 1) with (Z.of_nat (length pre + 1)) by lia. rewrite Hb, Hval. cbn [mbind option_bind].
    do 3 f_equal. rewrite length_app. cbn [length]. lia. }
  revert Hlong. unfold len_bytes in *. destruct (Z.leb_spec n 127); [|intros Hlong; destruct (Z.leb_spec n 255); [|destruct (Z.leb_spec n 65535)]].
  - intros _. cbn [app] in E. unfold decode_length. rewrite (get8_mem pre n post) by done. cbn [mbind option_bind].
    rewrite Z.shiftr_div_pow2 by lia. change (2 ^ 7) with 128. rewrite Z.div_small by lia. cbn [Z.land Z.eqb negb].
    do 3 f_equal. rewrite length_app. cbn. lia.
  - by apply (Hlong 1%nat); [lia|cbn; lia|].
  - by apply (Hlong 2%nat); [lia|cbn; lia|].
  - by apply (Hlong 3%nat); [lia|cbn; lia|].
Qed.

Lemma skip_leading_here fuel cur x : get8 mem cur = Some x -> x <> 0 -> skip_leading mem fuel cur = Some cur.
Proof.
  intros Hx Hne. destruct fuel; cbn [skip_leading]; rewrite Hx; cbn [mbind option_bind]; by rewrite (proj2 (Z.eqb_neq _ _) Hne).
Qed.

(** ** Finished levels *)

Lemma node_at_lt ctx d n : node_at ctx d = Some n -> 0 <= d < Z.of_nat (length (ctx_nodes ctx)).
Proof. unfold node_at. destruct (Z.ltb_spec d 0); [done|]. intros Hl. apply lookup_lt_Some in Hl. lia. Qed.

Lemma node_at_some ctx d : length (ctx_nodes ctx) = 16%nat -> 0 <= d < 16 -> is_Some (node_at ctx d).
Proof.
  intros Hl Hd. unfold node_at. rewrite (proj2 (Z.ltb_ge _ _)) by lia. apply lookup_lt_is_Some. lia.
Qed.

Lemma set_node_ok d n ctx : length (ctx_nodes ctx) = 16%nat -> 0 <= d < 16 ->
  set_node d n ctx = Some (mk_decoder (ctx_depth ctx) (<[Z.to_nat d := n]> (ctx_nodes ctx))).
Proof. intros Hl Hd. unfold set_node. destruct (node_at_some ctx d Hl Hd) as [m ->]. done. Qed.

Lemma node_at_insert d n k j l : 0 <= d < Z.of_nat (length l) -> 0 <= j ->
  node_at (mk_decoder k (<[Z.to_nat d := n]> l)) j = if j =? d then Some n else node_at (mk_decoder k l) j.
Proof.
  intros Hd Hj. unfold node_at. cbn [ctx_nodes]. destruct (Z.eqb_spec j d) as [->|].
  - rewrite (proj2 (Z.ltb_ge _ _)) by lia. apply list_lookup_insert_eq. lia.
  - rewrite (proj2 (Z.ltb_ge _ _)) by lia. apply list_lookup_insert_ne. lia.
Qed.

(** Every level above [d] is finished at [off]; level [d] goes on there, up to
    [nx]. *)
Record pops (ctx : decoder) (d off nx : Z) : Prop := {
  po_depth : 0 <= d <= ctx_depth ctx;
  po_max : ctx_depth ctx < 16;
  po_nodes : length (ctx_nodes ctx) = 16%nat;
  po_here : node_at ctx d = Some (mk_node off nx);
  po_above : forall j, d < j <= ctx_depth ctx -> node_at ctx j = Some (mk_node off off)
}.

Lemma turn_pop sc ctx d off nx x : pops ctx d off nx -> d < ctx_depth ctx -> get8 mem off = Some x -> x <> 0 ->
  decode_turn mem sc ctx =
  Some (if ctx_depth ctx - 1 =? 0 then T_return false None (set_depth 0 ctx)
        else T_restart (set_depth (ctx_depth ctx - 1) ctx)).
Proof.
  intros [H1 H2 H3 H4 H5] Hlt Hx Hne. unfold decode_turn. rewrite H5 by lia. cbn [mbind option_bind nd_start nd_next].
  rewrite (skip_leading_here _ _ _ Hx Hne). cbn [mbind option_bind]. unfold ASN1_MAX_DEPTH.
  rewrite (proj2 (Z.leb_gt _ _)) by lia. rewrite Hx. cbn [mbind option_bind]. rewrite (proj2 (Z.ltb_lt _ _)) by lia.
  rewrite u8_small by lia. cbn [set_depth ctx_depth]. destruct (Z.eqb_spec (ctx_depth ctx - 1) 0) as [->|]; done.
Qed.

Lemma loop_pops sc d off nx x k : 0 < d -> get8 mem off = Some x -> x <> 0 -> forall ctx fuel,
  pops ctx d off nx -> ctx_depth ctx = d + Z.of_nat k ->
  next_loop mem (k + fuel) sc ctx = next_loop mem fuel sc (set_depth d ctx).
Proof.
  intros Hd Hx Hne. induction k as [|k IH]; intros ctx fuel Hp Hk.
  { replace d with (ctx_depth ctx) by lia. by destruct ctx. }
  cbn [Nat.add next_loop]. rewrite (turn_pop _ _ _ _ _ _ Hp ltac:(lia) Hx Hne). cbn [mbind option_bind].
  rewrite (proj2 (Z.eqb_neq _ _)) by lia.
  rewrite IH; [done| |cbn; lia]. destruct Hp as [H1 H2 H3 H4 H5]. split; cbn; try done; try lia.
  intros j Hj. apply H5. lia.
Qed.

(** The end: every level is left and the call returns false. *)
Lemma loop_end sc off nx x k : get8 mem off = Some x -> x <> 0 -> forall ctx fuel,
  pops ctx 0 off nx -> ctx_depth ctx = Z.of_nat (S k) -> (k < fuel)%nat ->
  next_loop mem fuel sc ctx = Some (false, None, set_depth 0 ctx).
Proof.
  intros Hx Hne. induction k as [|k IH]; intros ctx fuel Hp Hk Hf; (destruct fuel as [|fuel]; [lia|]); cbn [next_loop];
    rewrite (turn_pop _ _ _ _ _ _ Hp ltac:(lia) Hx Hne); cbn [mbind option_bind]; rewrite Hk.
  - done.
  - rewrite (proj2 (Z.eqb_neq _ _)) by lia. rewrite IH; [done| |cbn; lia|lia].
    destruct Hp as [H1 H2 H3 H4 H5]. split; cbn; try done; try lia. intros j Hj. apply H5. lia.
Qed.

(** ** One element *)

Definition tag_ok (tag : Z) : Prop := 0 < tag < 256.

(** The context after an element at depth [d]. *)
Definition after_tlv (ctx : decoder) (d off nx tag : Z) (c : bytes) : decoder :=
  let n := Z.of_nat (length c) in
  let nodes := <[Z.to_nat d := mk_node (off + Z.of_nat (length (tlv tag c))) nx]> (ctx_nodes ctx) in
  if tls_asn1_getform tag =? 0 then mk_decoder d nodes
  else mk_decoder (d + 1) (<[Z.to_nat (d + 1) := mk_node (off + tlv_header n) (off + tlv_header n + n)]> nodes).

(** What a turn does with the element it finds. *)
Definition judged (schema : option tls_asn1_schema) (off tag cur n : Z) (ctx : decoder) : option turn :=
  match schema with
  | None => found schema off tag cur n ctx
  | Some sc =>
      if negb (sc_tag sc =? tag) || negb (sc_depth sc =? ctx_depth ctx) then
        if sc_allow_null sc && (tag =? ASN1_NULL) && (sc_depth sc =? ctx_depth ctx) then found schema off tag cur n ctx
        else if bool_decide (sc_mode sc = ASN1_SEEK) then seek_next schema false None tag cur n ctx
        else if negb (sc_optional sc) then Some (T_return false None ctx)
        else Some (T_return true (Some (mk_item 0 None 0 (u8 (-1)))) ctx)
      else found schema off tag cur n ctx
  end.

Lemma turn_judged schema ctx d off nx tag c pre post : ctx_depth ctx = d -> d < 16 ->
  node_at ctx d = Some (mk_node off nx) -> mem = pre ++ tlv tag c ++ post -> off = Z.of_nat (length pre) ->
  off + Z.of_nat (length (tlv tag c)) <= nx -> tag_ok tag -> Z.of_nat (length c) < 16777216 ->
  decode_turn mem schema ctx = judged schema off tag (off + tlv_header (Z.of_nat (length c))) (Z.of_nat (length c)) ctx.
Proof.
  intros Hcd Hd Hn E Eoff Hnx Ht Hc. set (n := Z.of_nat (length c)) in *.
  pose proof (get8_mem pre tag (len_bytes n ++ c ++ post)) as Htag. unfold tlv in E. fold n in E.
  cbn [app] in E. rewrite <- app_assoc in E. specialize (Htag E). rewrite <- Eoff in Htag.
  pose proof (length_tlv tag c) as Hlen. fold n in Hlen. pose proof (len_bytes_bound n). unfold tlv_header in Hlen |- *.
  unfold decode_turn. rewrite Hcd, Hn. cbn [mbind option_bind nd_start nd_next].
  rewrite (skip_leading_here _ _ _ Htag) by (unfold tag_ok in Ht; lia). cbn [mbind option_bind]. unfold ASN1_MAX_DEPTH.
  rewrite (proj2 (Z.leb_gt _ _)) by lia. rewrite Htag. cbn [mbind option_bind]. rewrite (proj2 (Z.ltb_ge _ _)) by lia.
  pose proof (decode_length_ok n (pre ++ [tag]) (c ++ post) ltac:(lia)) as Hdl. rewrite <- app_assoc in Hdl. specialize (Hdl E).
  rewrite !length_app in Hdl. cbn [length] in Hdl. replace (off + 1) with (Z.of_nat (length pre + 1)) by lia.
  rewrite Hdl. cbn [mbind option_bind]. unfold judged. rewrite Hcd.
  by replace (Z.of_nat (length pre + 1 + length (len_bytes n))) with (off + (1 + Z.of_nat (length (len_bytes n)))) by lia.
Qed.

Lemma seek_next_ok schema has out ctx d off nx tag c : length (ctx_nodes ctx) = 16%nat -> ctx_depth ctx = d -> 0 <= d < 16 ->
  node_at ctx d = Some (mk_node off nx) -> (tls_asn1_getform tag <> 0 -> d + 1 < 16) ->
  seek_next schema has out tag (off + tlv_header (Z.of_nat (length c))) (Z.of_nat (length c)) ctx =
  Some (if negb has && (match schema with Some sc => bool_decide (sc_mode sc = ASN1_SEEK) | None => false end)
        then T_restart (after_tlv ctx d off nx tag c) else T_return true out (after_tlv ctx d off nx tag c)).
Proof.
  intros Hl Hcd Hd Hn Hform. pose proof (length_tlv tag c) as Hlen. set (n := Z.of_nat (length c)) in *.
  unfold seek_next. rewrite Hcd, Hn. cbn [mbind option_bind nd_next]. rewrite set_node_ok by done. cbn [mbind option_bind ctx_depth].
  unfold after_tlv. fold n.
  replace (off + tlv_header n + n) with (off + Z.of_nat (length (tlv tag c))) by lia.
  destruct (Z.eqb_spec (tls_asn1_getform tag) 0) as [Hf|Hf]; cbn [negb].
  - cbn [mbind option_bind]. rewrite Hcd. destruct schema, has; cbn; try done. by destruct (bool_decide _).
  - specialize (Hform Hf). unfold set_depth. cbn [ctx_depth ctx_nodes]. rewrite Hcd, u8_small by lia.
    rewrite set_node_ok by (cbn; rewrite ?length_insert; lia). destruct schema, has; cbn; try done. by destruct (bool_decide _).
Qed.

Lemma turn_tlv ctx d off nx tag c pre post : length (ctx_nodes ctx) = 16%nat -> ctx_depth ctx = d -> 0 <= d < 16 ->
  node_at ctx d = Some (mk_node off nx) -> mem = pre ++ tlv tag c ++ post -> off = Z.of_nat (length pre) ->
  off + Z.of_nat (length (tlv tag c)) <= nx -> tag_ok tag -> Z.of_nat (length c) < 16777216 ->
  (tls_asn1_getform tag <> 0 -> d + 1 < 16) ->
  decode_turn mem None ctx =
  Some (T_return true (Some (mk_item tag (Some (off + tlv_header (Z.of_nat (length c)))) (Z.of_nat (length c)) d))
    (after_tlv ctx d off nx tag c)).
Proof.
  intros Hl Hcd Hd Hn E Eoff Hnx Ht Hc Hform. rewrite (turn_judged None ctx d off nx tag c pre post) by (done || lia).
  cbn [judged]. unfold found. rewrite (seek_next_ok None true _ ctx d off nx tag c) by done. by rewrite Hcd.
Qed.

(** The next element, wherever the context has to go back to. *)
Lemma next_tlv ctx d off nx tag c pre post : pops ctx d off nx -> (d = 0 -> ctx_depth ctx = 0) ->
  mem = pre ++ tlv tag c ++ post -> off = Z.of_nat (length pre) ->
  off + Z.of_nat (length (tlv tag c)) <= nx -> tag_ok tag -> Z.of_nat (length c) < 16777216 ->
  (tls_asn1_getform tag <> 0 -> d + 1 < 16) ->
  tls_asn1_decode_next mem None ctx =
  Some (true, Some (mk_item tag (Some (off + tlv_header (Z.of_nat (length c)))) (Z.of_nat (length c)) d),
    after_tlv ctx d off nx tag c).
Proof.
  intros Hp H0 E Eoff Hnx Ht Hc Hform. pose proof Hp as [H1 H2 H3 H4 H5].
  assert (get8 mem off = Some tag) as Htag by (rewrite Eoff; eapply get8_mem; exact E).
  unfold tls_asn1_decode_next. set (k := Z.to_nat (ctx_depth ctx - d)).
  assert (exists f, (16 + length mem = k + S f)%nat) as [f ->] by (exists (16 + length mem - k - 1)%nat; lia).
  assert (next_loop mem (k + S f) None ctx = next_loop mem (S f) None (set_depth d ctx)) as ->.
  { destruct (decide (d = 0)) as [->|]; [|apply (loop_pops None d off nx tag); (done || lia || (unfold tag_ok in Ht; lia))].
    replace k with 0%nat by lia. replace 0 with (ctx_depth ctx) by lia. by destruct ctx. }
  cbn [next_loop]. rewrite (turn_tlv (set_depth d ctx) d off nx tag c pre post); try done; lia.
Qed.

(** [n] calls that all succeed. *)
Fixpoint decode_n (n : nat) (ctx : decoder) : option (list item * decoder) :=
  match n with
  | O => Some ([], ctx)
  | S n' =>
      match tls_asn1_decode_next mem None ctx with
      | Some (true, Some it, ctx) => q ← decode_n n' ctx; Some (it :: q.1, q.2)
      | _ => None
      end
  end.

Lemma decode_n_app n m ctx l1 ctx1 l2 ctx2 : decode_n n ctx = Some (l1, ctx1) -> decode_n m ctx1 = Some (l2, ctx2) ->
  decode_n (n + m) ctx = Some (l1 ++ l2, ctx2).
Proof.
  revert ctx l1. induction n as [|n IH]; intros ctx l1 H1 H2; cbn [decode_n Nat.add] in *; [by injection H1 as <- <-|].
  destruct (tls_asn1_decode_next mem None ctx) as [[[[] [it|]] c]|]; try done. cbn [mbind option_bind fst snd] in *.
  destruct (decode_n n c) as [[l c']|] eqn:E; [|done]. cbn [mbind option_bind fst snd] in H1. injection H1 as <- <-.
  by rewrite (IH _ _ E H2).
Qed.
End Walk.

(** ** Trees *)

#[local] Set Warnings "-register-all".
Inductive asn1 :=
| Prim (tag : Z) (c : bytes)
| Cons (tag : Z) (l : list asn1).

Lemma asn1_induction (P : asn1 -> Prop) : (forall tag c, P (Prim tag c)) ->
  (forall tag l, Forall P l -> P (Cons tag l)) -> forall t, P t.
Proof.
  intros HP HC. fix IH 1. intros [tag c|tag l]; [apply HP|]. apply HC. induction l; constructor; [apply IH|done].
Qed.

Fixpoint der (t : asn1) : bytes :=
  match t with
  | Prim tag c => tlv tag c
  | Cons tag l => tlv tag (concat (map der l))
  end.
Definition content (t : asn1) : bytes := match t with Prim _ c => c | Cons _ l => concat (map der l) end.
Definition tag_of (t : asn1) : Z := match t with Prim tag _ | Cons tag _ => tag end.

Lemma der_tlv t : der t = tlv (tag_of t) (content t).
Proof. by destruct t. Qed.

(** The elements of a tree at an offset and a depth, in order. *)
Fixpoint items (t : asn1) (off d : Z) : list item :=
  let n := Z.of_nat (length (content t)) in
  mk_item (tag_of t) (Some (off + tlv_header n)) n d ::
  match t with
  | Prim _ _ => []
  | Cons _ l =>
      (fix go (l : list asn1) (o : Z) : list item :=
         match l with
         | [] => []
         | u :: l' => items u o (d + 1) ++ go l' (o + Z.of_nat (length (der u)))
         end) l (off + tlv_header n)
  end.
Fixpoint forest (l : list asn1) (o d : Z) : list item :=
  match l with [] => [] | u :: l' => items u o d ++ forest l' (o + Z.of_nat (length (der u))) d end.

Lemma items_cons tag l off d : items (Cons tag l) off d =
  mk_item tag (Some (off + tlv_header (Z.of_nat (length (content (Cons tag l)))))) (Z.of_nat (length (content (Cons tag l)))) d ::
  forest l (off + tlv_header (Z.of_nat (length (content (Cons tag l))))) (d + 1).
Proof.
  cbn [items tag_of]. f_equal. generalize (off + tlv_header (Z.of_nat (length (content (Cons tag l))))).
  induction l as [|u l IH]; intros o; cbn [forest]; [done|]. f_equal. apply IH.
Qed.

(** What the decoder can walk: tags are not zero and say whether there are
    elements inside, contents are shorter than 2^24 bytes, and there are at most
    sixteen levels. *)
Inductive wf : Z -> asn1 -> Prop :=
| wf_prim d tag c : tag_ok tag -> tls_asn1_getform tag = 0 -> Z.of_nat (length c) < 16777216 -> wf d (Prim tag c)
| wf_cons d tag l : tag_ok tag -> tls_asn1_getform tag <> 0 -> Z.of_nat (length (concat (map der l))) < 16777216 ->
    d + 1 < 16 -> Forall (wf (d + 1)) l -> wf d (Cons tag l).

Section Trees.
Context (mem : bytes).

Definition walks (t : asn1) : Prop := forall ctx d off nx pre post, wf d t -> pops ctx d off nx ->
  (d = 0 -> ctx_depth ctx = 0) -> mem = pre ++ der t ++ post -> off = Z.of_nat (length pre) ->
  off + Z.of_nat (length (der t)) <= nx -> exists ctx',
  decode_n mem (length (items t off d)) ctx = Some (items t off d, ctx') /\
  pops ctx' d (off + Z.of_nat (length (der t))) nx /\ (forall j, 0 <= j < d -> node_at ctx' j = node_at ctx j) /\
  (tls_asn1_getform (tag_of t) <> 0 -> d < ctx_depth ctx').

Lemma after_prim ctx d off nx tag c : pops ctx d off nx -> tls_asn1_getform tag = 0 ->
  pops (after_tlv ctx d off nx tag c) d (off + Z.of_nat (length (tlv tag c))) nx /\
  (forall j, 0 <= j < d -> node_at (after_tlv ctx d off nx tag c) j = node_at ctx j).
Proof.
  intros [H1 H2 H3 H4 H5] Hf. unfold after_tlv. rewrite Hf, Z.eqb_refl. split.
  - split; cbn [ctx_depth ctx_nodes]; [lia|lia|by rewrite length_insert| |intros j Hj; lia].
    rewrite node_at_insert by lia. by rewrite Z.eqb_refl.
  - intros j Hj. rewrite node_at_insert by lia. rewrite (proj2 (Z.eqb_neq _ _)) by lia. done.
Qed.

Lemma after_cons ctx d off nx tag c : pops ctx d off nx -> tls_asn1_getform tag <> 0 -> d + 1 < 16 ->
  let o := off + tlv_header (Z.of_nat (length c)) in
  let ctx' := after_tlv ctx d off nx tag c in
  pops ctx' (d + 1) o (off + Z.of_nat (length (tlv tag c))) /\
  node_at ctx' d = Some (mk_node (off + Z.of_nat (length (tlv tag c))) nx) /\
  (forall j, 0 <= j < d -> node_at ctx' j = node_at ctx j).
Proof.
  intros [H1 H2 H3 H4 H5] Hf Hd o ctx'. unfold ctx', after_tlv. rewrite (proj2 (Z.eqb_neq _ _) Hf).
  rewrite length_tlv, Z.add_assoc. fold o. split_and!.
  - split; cbn [ctx_depth ctx_nodes]; [lia|lia|by rewrite !length_insert| |intros j Hj; lia].
    rewrite node_at_insert by (rewrite ?length_insert; lia). by rewrite Z.eqb_refl.
  - rewrite !node_at_insert by (rewrite ?length_insert; lia). rewrite (proj2 (Z.eqb_neq _ _)) by lia. by rewrite Z.eqb_refl.
  - intros j Hj. rewrite !node_at_insert by (rewrite ?length_insert; lia).
    by rewrite !(proj2 (Z.eqb_neq _ _)) by lia.
Qed.

(** The elements inside an element. *)
Lemma walks_forest l d nx : Forall walks l -> Forall (wf d) l -> 0 < d -> forall ctx off pre post,
  pops ctx d off nx -> mem = pre ++ concat (map der l) ++ post -> off = Z.of_nat (length pre) ->
  off + Z.of_nat (length (concat (map der l))) <= nx -> exists ctx',
  decode_n mem (length (forest l off d)) ctx = Some (forest l off d, ctx') /\
  pops ctx' d (off + Z.of_nat (length (concat (map der l)))) nx /\
  (forall j, 0 <= j < d -> node_at ctx' j = node_at ctx j).
Proof.
  intros HW HF Hd. induction HW as [|t l Ht HW IH]; intros ctx off pre post Hp E Eoff Hnx; cbn [forest map concat] in *.
  { exists ctx. cbn [length decode_n]. split_and!; [done|by rewrite Z.add_0_r|done]. }
  apply Forall_cons in HF as [Hwt HF]. rewrite length_app in Hnx. rewrite <- app_assoc in E.
  destruct (Ht ctx d off nx pre (concat (map der l) ++ post) Hwt Hp) as (c1&Hn1&Hp1&Hj1&_); [lia|done|done|lia|].
  destruct (IH HF c1 (off + Z.of_nat (length (der t))) (pre ++ der t) post) as (c2&Hn2&Hp2&Hj2);
    [done|by rewrite <- app_assoc|rewrite length_app; lia|lia|].
  exists c2. rewrite !length_app. split_and!.
  - by apply decode_n_app with c1.
  - by rewrite Nat2Z.inj_add, Z.add_assoc.
  - intros j Hj. rewrite Hj2, Hj1 by done. done.
Qed.

Lemma walks_tree t : walks t.
Proof.
  induction t as [tag c|tag l IHl] using asn1_induction; intros ctx d off nx pre post Hwf Hp H0 E Eoff Hnx.
  - inversion_clear Hwf as [? ? ? Ht Hf Hc|]. cbn [items length der content tag_of] in *.
    destruct (after_prim ctx d off nx tag c Hp Hf) as [Hp' Hj]. exists (after_tlv ctx d off nx tag c). cbn [decode_n].
    rewrite (next_tlv mem ctx d off nx tag c pre post) by done. by split_and!.
  - inversion_clear Hwf as [|? ? ? Ht Hf Hc Hd HF]. rewrite items_cons. rewrite der_tlv in *. cbn [tag_of content] in *.
    set (c := concat (map der l)) in *.
    destruct (after_cons ctx d off nx tag c Hp Hf Hd) as (Hp1&Hn1&Hj1).
    pose proof (length_tlv tag c) as Hlen.
    destruct (walks_forest l (d + 1) (off + Z.of_nat (length (tlv tag c))) IHl HF ltac:(pose proof (po_depth _ _ _ _ Hp); lia)
      (after_tlv ctx d off nx tag c) (off + tlv_header (Z.of_nat (length c))) (pre ++ tag :: len_bytes (Z.of_nat (length c))) post)
      as (c2&Hn2&Hp2&Hj2).
    + exact Hp1.
    + rewrite E. unfold tlv. fold c. rewrite <- app_assoc. cbn [app]. by rewrite <- app_assoc.
    + rewrite length_app. unfold tlv_header. cbn [length]. lia.
    + fold c. lia.
    + exists c2. split_and!.
      * cbn [length decode_n]. rewrite (next_tlv mem ctx d off nx tag c pre post); try done; try lia.
        by rewrite Hn2.
      * fold c in Hp2. replace (off + tlv_header (Z.of_nat (length c)) + Z.of_nat (length c)) with
          (off + Z.of_nat (length (tlv tag c))) in Hp2 by lia.
        pose proof (po_depth _ _ _ _ Hp). destruct Hp2 as [G1 G2 G3 G4 G5]. split; [lia|done|done| |].
        -- rewrite Hj2 by lia. exact Hn1.
        -- intros j Hj. destruct (decide (j = d + 1)) as [->|]; [exact G4|]. apply G5. lia.
      * intros j Hj. rewrite Hj2, Hj1 by lia. done.
      * intros _. pose proof (po_depth _ _ _ _ Hp2). lia.
Qed.
End Trees.

(** ** Building a tree with the encoder *)

Definition encode_element (tag : Z) (d : bytes) : option bytes :=
  r ← tls_asn1_encode tag (Some d) (Z.of_nat (length d)) (Some (replicate (length d + 5) 0));
  out ← r.2;
  Some (take (Z.to_nat r.1) out).

Fixpoint build (t : asn1) : option bytes :=
  match t with
  | Prim tag c => encode_element tag c
  | Cons tag l =>
      d ← foldr (fun o acc => b ← o; r ← acc; Some (b ++ r)) (Some []) (map build l);
      encode_element tag d
  end.

(** The encoder refuses empty contents. *)
Inductive encodable : asn1 -> Prop :=
| enc_prim tag c : c <> [] -> der_tag tag = tag -> encodable (Prim tag c)
| enc_cons tag l : l <> [] -> Forall encodable l -> encodable (Cons tag l).

Lemma form_bit tag : tls_asn1_getform tag <> 0 -> der_tag tag = tag.
Proof.
  unfold tls_asn1_getform, der_tag. intros Hf. destruct (_ || _); [|done]. unfold ASN1_CONSTRUCTED.
  apply Z.bits_inj'. intros i Hi. change 32 with (2 ^ 5). rewrite Z.lor_spec, Z.pow2_bits_eqb by lia.
  destruct (Z.eqb_spec 5 i) as [<-|]; [|by rewrite orb_false_r]. rewrite orb_true_r. symmetry.
  destruct (Z.testbit tag 5) eqn:E; [done|]. destruct Hf. change 1 with (Z.ones 1). rewrite Z.land_ones by lia.
  rewrite Z.shiftr_div_pow2 by lia. change (2 ^ 1) with 2. by apply Z.testbit_false.
Qed.

Lemma encode_element_ok tag d : d <> [] -> der_tag tag = tag -> Z.of_nat (length d) < 16777216 ->
  encode_element tag d = Some (tlv tag d).
Proof.
  intros Hd Ht Hl. unfold encode_element. pose proof (encode_ok tag d [] (replicate (length d + 5) 0) Hd Hl) as He.
  rewrite Ht, app_nil_r, length_replicate in He. rewrite He.
  - cbn [mbind option_bind fst snd]. by rewrite Nat2Z.id, take_app_length.
  - unfold tlv. cbn [length]. rewrite length_app. pose proof (len_bytes_bound (Z.of_nat (length d))). lia.
Qed.

Lemma build_der t : forall d, wf d t -> encodable t -> build t = Some (der t).
Proof.
  induction t as [tag c|tag l IHl] using asn1_induction; intros d Hwf He.
  - inversion_clear Hwf. inversion_clear He. cbn [build der]. by apply encode_element_ok.
  - inversion_clear Hwf as [|? ? ? Ht Hf Hc Hd HF]. inversion_clear He as [|? ? Hne HE]. cbn [build der].
    assert (foldr (fun o acc => b ← o; r ← acc; Some (b ++ r)) (Some []) (map build l) = Some (concat (map der l))) as ->.
    { clear Hne Hc. induction l as [|u l IH]; [done|]. apply Forall_cons in IHl as [Hu IHl]. apply Forall_cons in HF as [Wu HF].
      apply Forall_cons in HE as [Eu HE]. cbn [map foldr concat]. rewrite (Hu _ Wu Eu), IH by done. done. }
    cbn [mbind option_bind]. apply encode_element_ok; [|by apply form_bit|done].
    destruct l as [|u l]; [done|]. cbn [map concat]. by rewrite der_tlv.
Qed.

(** C24. Decoding gives back what was encoded: for every tree of elements, none
    of them empty, of at most sixteen levels that starts with a constructed
    element, [tls_asn1_encode] builds its encoding from the leaves up; and with
    the encoding anywhere in memory, followed by some byte that is not zero, the
    calls of [tls_asn1_decode_next] list the elements in order, each with its
    tag, the place and length of its contents and its depth, and the call after
    the last one returns false. *)
Theorem asn1_round_trip pre t x post : wf 0 t -> encodable t -> tls_asn1_getform (tag_of t) <> 0 -> x <> 0 ->
  exists enc, build t = Some enc /\
  let mem := pre ++ enc ++ x :: post in
  let off := Z.of_nat (length pre) in
  exists ctx0 ctx' ctx'',
  tls_asn1_decoder_init off (Z.of_nat (length enc)) = Some ctx0 /\
  decode_n mem (length (items t off 0)) ctx0 = Some (items t off 0, ctx') /\
  tls_asn1_decode_next mem None ctx' = Some (false, None, ctx'').
Proof.
  intros Hwf He Hf Hx. exists (der t). split; [by eapply build_der|]. intros mem off. unfold tls_asn1_decoder_init.
  assert (0 < length (der t))%nat by (rewrite der_tlv; cbn; lia).
  rewrite (proj2 (Z.eqb_neq _ _)) by lia.
  set (ctx0 := mk_decoder 0 _). set (nx := off + Z.of_nat (length (der t))).
  assert (pops ctx0 0 off nx) as Hp by (split; cbn; try done; intros; lia).
  destruct (walks_tree mem t ctx0 0 off nx pre (x :: post) Hwf Hp) as (ctx'&Hn&Hp'&_&Hd); try done.
  specialize (Hd Hf). exists ctx0, ctx'. eexists. split_and!; [done|exact Hn|].
  assert (get8 mem nx = Some x) as Hend.
  { unfold nx, off. rewrite <- Nat2Z.inj_add, <- length_app. unfold mem. rewrite app_assoc. apply get8_app. }
  unfold tls_asn1_decode_next. apply (loop_end mem None nx nx x (Z.to_nat (ctx_depth ctx' - 1))); try done.
  - lia.
  - pose proof (po_max _ _ _ _ Hp'). lia.
Qed.

(** The shape of an RSA public key: a sequence of two integers. *)
Definition sample_tree : asn1 := Cons 0x30 [Prim 2 [193; 17; 5]; Prim 2 [1; 0; 1]].
Lemma asn1_round_trip_witness : exists enc ctx0 ctx' ctx'',
  build sample_tree = Some enc /\
  tls_asn1_decoder_init 1 (Z.of_nat (length enc)) = Some ctx0 /\
  decode_n ([7] ++ enc ++ [255]) 3 ctx0 =
    Some ([mk_item 0x30 (Some 3) 10 0; mk_item 2 (Some 5) 3 1; mk_item 2 (Some 10) 3 1], ctx') /\
  tls_asn1_decode_next ([7] ++ enc ++ [255]) None ctx' = Some (false, None, ctx'').
Proof.
  destruct (asn1_round_trip [7] sample_tree 255 []) as (enc&Hb&ctx0&ctx'&ctx''&H1&H2&H3).
  - unfold sample_tree. repeat (constructor || (unfold tag_ok; lia) || done).
  - unfold sample_tree. repeat (constructor || done).
  - done.
  - done.
  - exists enc, ctx0, ctx', ctx''. split; [exact Hb|]. split; [exact H1|]. split; [exact H2|exact H3].
Defined.

(** ** The limits of the decoder *)

(** Sixteen levels inside each other: the seventeenth node does not exist. *)
Definition nested (n : nat) : asn1 := Nat.iter n (fun t => Cons 0x30 [t]) (Prim 4 [1]).
Definition walked (t : asn1) (n : nat) : option nat :=
  ctx ← tls_asn1_decoder_init 0 (Z.of_nat (length (der t)));
  r ← decode_n (der t ++ [255]) n ctx;
  Some (length r.1).
Theorem deep_nesting_overflows :
  walked (nested 15) 16 = Some 16%nat /\ walked (nested 16) 15 = Some 15%nat /\ walked (nested 16) 16 = None.
Proof. by vm_compute. Qed.

(** A lone element that holds no others: the call after it takes the depth below
    zero and reads a node that does not exist. *)
Theorem lone_element_underflows :
  let mem := der (Prim 4 [1; 2]) ++ [255] in
  exists ctx ctx', tls_asn1_decoder_init 0 4 = Some ctx /\
    decode_n mem 1 ctx = Some (items (Prim 4 [1; 2]) 0 0, ctx') /\ tls_asn1_decode_next mem None ctx' = None.
Proof. do 2 eexists. split_and!; [reflexivity|vm_compute; reflexivity|vm_compute; reflexivity]. Qed.

(** The end of the data is only noticed after the byte behind it has been read,
    and zeros there are skipped however far they go. *)
Theorem reads_behind_the_end :
  let enc := der sample_tree in
  exists ctx ctx', tls_asn1_decoder_init 0 (Z.of_nat (length enc)) = Some ctx /\
    decode_n enc 3 ctx = Some (items sample_tree 0 0, ctx') /\
    tls_asn1_decode_next enc None ctx' = None /\ tls_asn1_decode_next (enc ++ [0; 0; 0]) None ctx' = None.
Proof. do 2 eexists. split_and!; [reflexivity|vm_compute; reflexivity|vm_compute; reflexivity|vm_compute; reflexivity]. Qed.
