(* ===== verification/Aes.v ===== *)
(** * AES: the block cipher and its GCM and CBC modes

    [src/src/tls/core/aes.c].  The product in the field of 2^128 elements and
    the conversion of a length to bits are assembly
    ([share/bigint.asm], [bytes.asm]) and are translated from there.

    A pointer argument is the object it points to, [None] when it is null; a
    read or write outside an object is a fault, the outer [None] of a result.
    Input and output buffers are different objects.  The erasing of temporary
    arrays at the end of a function is left out. *)

From S2P Require Import Prelude MemState TlsHash Rsa.

(** ** Tables *)

Definition aes_sbox : list bytes :=
  [[0x63; 0x7c; 0x77; 0x7b; 0xf2; 0x6b; 0x6f; 0xc5; 0x30; 0x01; 0x67; 0x2b; 0xfe; 0xd7; 0xab; 0x76];
   [0xca; 0x82; 0xc9; 0x7d; 0xfa; 0x59; 0x47; 0xf0; 0xad; 0xd4; 0xa2; 0xaf; 0x9c; 0xa4; 0x72; 0xc0];
   [0xb7; 0xfd; 0x93; 0x26; 0x36; 0x3f; 0xf7; 0xcc; 0x34; 0xa5; 0xe5; 0xf1; 0x71; 0xd8; 0x31; 0x15];
   [0x04; 0xc7; 0x23; 0xc3; 0x18; 0x96; 0x05; 0x9a; 0x07; 0x12; 0x80; 0xe2; 0xeb; 0x27; 0xb2; 0x75];
   [0x09; 0x83; 0x2c; 0x1a; 0x1b; 0x6e; 0x5a; 0xa0; 0x52; 0x3b; 0xd6; 0xb3; 0x29; 0xe3; 0x2f; 0x84];
   [0x53; 0xd1; 0x00; 0xed; 0x20; 0xfc; 0xb1; 0x5b; 0x6a; 0xcb; 0xbe; 0x39; 0x4a; 0x4c; 0x58; 0xcf];
   [0xd0; 0xef; 0xaa; 0xfb; 0x43; 0x4d; 0x33; 0x85; 0x45; 0xf9; 0x02; 0x7f; 0x50; 0x3c; 0x9f; 0xa8];
   [0x51; 0xa3; 0x40; 0x8f; 0x92; 0x9d; 0x38; 0xf5; 0xbc; 0xb6; 0xda; 0x21; 0x10; 0xff; 0xf3; 0xd2];
   [0xcd; 0x0c; 0x13; 0xec; 0x5f; 0x97; 0x44; 0x17; 0xc4; 0xa7; 0x7e; 0x3d; 0x64; 0x5d; 0x19; 0x73];
   [0x60; 0x81; 0x4f; 0xdc; 0x22; 0x2a; 0x90; 0x88; 0x46; 0xee; 0xb8; 0x14; 0xde; 0x5e; 0x0b; 0xdb];
   [0xe0; 0x32; 0x3a; 0x0a; 0x49; 0x06; 0x24; 0x5c; 0xc2; 0xd3; 0xac; 0x62; 0x91; 0x95; 0xe4; 0x79];
   [0xe7; 0xc8; 0x37; 0x6d; 0x8d; 0xd5; 0x4e; 0xa9; 0x6c; 0x56; 0xf4; 0xea; 0x65; 0x7a; 0xae; 0x08];
   [0xba; 0x78; 0x25; 0x2e; 0x1c; 0xa6; 0xb4; 0xc6; 0xe8; 0xdd; 0x74; 0x1f; 0x4b; 0xbd; 0x8b; 0x8a];
   [0x70; 0x3e; 0xb5; 0x66; 0x48; 0x03; 0xf6; 0x0e; 0x61; 0x35; 0x57; 0xb9; 0x86; 0xc1; 0x1d; 0x9e];
   [0xe1; 0xf8; 0x98; 0x11; 0x69; 0xd9; 0x8e; 0x94; 0x9b; 0x1e; 0x87; 0xe9; 0xce; 0x55; 0x28; 0xdf];
   [0x8c; 0xa1; 0x89; 0x0d; 0xbf; 0xe6; 0x42; 0x68; 0x41; 0x99; 0x2d; 0x0f; 0xb0; 0x54; 0xbb; 0x16]].

Definition aes_invsbox : list bytes :=
  [[0x52; 0x09; 0x6a; 0xd5; 0x30; 0x36; 0xa5; 0x38; 0xbf; 0x40; 0xa3; 0x9e; 0x81; 0xf3; 0xd7; 0xfb];
   [0x7c; 0xe3; 0x39; 0x82; 0x9b; 0x2f; 0xff; 0x87; 0x34; 0x8e; 0x43; 0x44; 0xc4; 0xde; 0xe9; 0xcb];
   [0x54; 0x7b; 0x94; 0x32; 0xa6; 0xc2; 0x23; 0x3d; 0xee; 0x4c; 0x95; 0x0b; 0x42; 0xfa; 0xc3; 0x4e];
   [0x08; 0x2e; 0xa1; 0x66; 0x28; 0xd9; 0x24; 0xb2; 0x76; 0x5b; 0xa2; 0x49; 0x6d; 0x8b; 0xd1; 0x25];
   [0x72; 0xf8; 0xf6; 0x64; 0x86; 0x68; 0x98; 0x16; 0xd4; 0xa4; 0x5c; 0xcc; 0x5d; 0x65; 0xb6; 0x92];
   [0x6c; 0x70; 0x48; 0x50; 0xfd; 0xed; 0xb9; 0xda; 0x5e; 0x15; 0x46; 0x57; 0xa7; 0x8d; 0x9d; 0x84];
   [0x90; 0xd8; 0xab; 0x00; 0x8c; 0xbc; 0xd3; 0x0a; 0xf7; 0xe4; 0x58; 0x05; 0xb8; 0xb3; 0x45; 0x06];
   [0xd0; 0x2c; 0x1e; 0x8f; 0xca; 0x3f; 0x0f; 0x02; 0xc1; 0xaf; 0xbd; 0x03; 0x01; 0x13; 0x8a; 0x6b];
   [0x3a; 0x91; 0x11; 0x41; 0x4f; 0x67; 0xdc; 0xea; 0x97; 0xf2; 0xcf; 0xce; 0xf0; 0xb4; 0xe6; 0x73];
   [0x96; 0xac; 0x74; 0x22; 0xe7; 0xad; 0x35; 0x85; 0xe2; 0xf9; 0x37; 0xe8; 0x1c; 0x75; 0xdf; 0x6e];
   [0x47; 0xf1; 0x1a; 0x71; 0x1d; 0x29; 0xc5; 0x89; 0x6f; 0xb7; 0x62; 0x0e; 0xaa; 0x18; 0xbe; 0x1b];
   [0xfc; 0x56; 0x3e; 0x4b; 0xc6; 0xd2; 0x79; 0x20; 0x9a; 0xdb; 0xc0; 0xfe; 0x78; 0xcd; 0x5a; 0xf4];
   [0x1f; 0xdd; 0xa8; 0x33; 0x88; 0x07; 0xc7; 0x31; 0xb1; 0x12; 0x10; 0x59; 0x27; 0x80; 0xec; 0x5f];
   [0x60; 0x51; 0x7f; 0xa9; 0x19; 0xb5; 0x4a; 0x0d; 0x2d; 0xe5; 0x7a; 0x9f; 0x93; 0xc9; 0x9c; 0xef];
   [0xa0; 0xe0; 0x3b; 0x4d; 0xae; 0x2a; 0xf5; 0xb0; 0xc8; 0xeb; 0xbb; 0x3c; 0x83; 0x53; 0x99; 0x61];
   [0x17; 0x2b; 0x04; 0x7e; 0xba; 0x77; 0xd6; 0x26; 0xe1; 0x69; 0x14; 0x63; 0x55; 0x21; 0x0c; 0x7d]].

(** The columns are the factors 2, 3, 9, 11, 13 and 14. *)
Definition gf_mul : list bytes :=
  [[0x00; 0x00; 0x00; 0x00; 0x00; 0x00]; [0x02; 0x03; 0x09; 0x0b; 0x0d; 0x0e]; [0x04; 0x06; 0x12; 0x16; 0x1a; 0x1c]; [0x06; 0x05; 0x1b; 0x1d; 0x17; 0x12];
   [0x08; 0x0c; 0x24; 0x2c; 0x34; 0x38]; [0x0a; 0x0f; 0x2d; 0x27; 0x39; 0x36]; [0x0c; 0x0a; 0x36; 0x3a; 0x2e; 0x24]; [0x0e; 0x09; 0x3f; 0x31; 0x23; 0x2a];
   [0x10; 0x18; 0x48; 0x58; 0x68; 0x70]; [0x12; 0x1b; 0x41; 0x53; 0x65; 0x7e]; [0x14; 0x1e; 0x5a; 0x4e; 0x72; 0x6c]; [0x16; 0x1d; 0x53; 0x45; 0x7f; 0x62];
   [0x18; 0x14; 0x6c; 0x74; 0x5c; 0x48]; [0x1a; 0x17; 0x65; 0x7f; 0x51; 0x46]; [0x1c; 0x12; 0x7e; 0x62; 0x46; 0x54]; [0x1e; 0x11; 0x77; 0x69; 0x4b; 0x5a];
   [0x20; 0x30; 0x90; 0xb0; 0xd0; 0xe0]; [0x22; 0x33; 0x99; 0xbb; 0xdd; 0xee]; [0x24; 0x36; 0x82; 0xa6; 0xca; 0xfc]; [0x26; 0x35; 0x8b; 0xad; 0xc7; 0xf2];
   [0x28; 0x3c; 0xb4; 0x9c; 0xe4; 0xd8]; [0x2a; 0x3f; 0xbd; 0x97; 0xe9; 0xd6]; [0x2c; 0x3a; 0xa6; 0x8a; 0xfe; 0xc4]; [0x2e; 0x39; 0xaf; 0x81; 0xf3; 0xca];
   [0x30; 0x28; 0xd8; 0xe8; 0xb8; 0x90]; [0x32; 0x2b; 0xd1; 0xe3; 0xb5; 0x9e]; [0x34; 0x2e; 0xca; 0xfe; 0xa2; 0x8c]; [0x36; 0x2d; 0xc3; 0xf5; 0xaf; 0x82];
   [0x38; 0x24; 0xfc; 0xc4; 0x8c; 0xa8]; [0x3a; 0x27; 0xf5; 0xcf; 0x81; 0xa6]; [0x3c; 0x22; 0xee; 0xd2; 0x96; 0xb4]; [0x3e; 0x21; 0xe7; 0xd9; 0x9b; 0xba];
   [0x40; 0x60; 0x3b; 0x7b; 0xbb; 0xdb]; [0x42; 0x63; 0x32; 0x70; 0xb6; 0xd5]; [0x44; 0x66; 0x29; 0x6d; 0xa1; 0xc7]; [0x46; 0x65; 0x20; 0x66; 0xac; 0xc9];
   [0x48; 0x6c; 0x1f; 0x57; 0x8f; 0xe3]; [0x4a; 0x6f; 0x16; 0x5c; 0x82; 0xed]; [0x4c; 0x6a; 0x0d; 0x41; 0x95; 0xff]; [0x4e; 0x69; 0x04; 0x4a; 0x98; 0xf1];
   [0x50; 0x78; 0x73; 0x23; 0xd3; 0xab]; [0x52; 0x7b; 0x7a; 0x28; 0xde; 0xa5]; [0x54; 0x7e; 0x61; 0x35; 0xc9; 0xb7]; [0x56; 0x7d; 0x68; 0x3e; 0xc4; 0xb9];
   [0x58; 0x74; 0x57; 0x0f; 0xe7; 0x93]; [0x5a; 0x77; 0x5e; 0x04; 0xea; 0x9d]; [0x5c; 0x72; 0x45; 0x19; 0xfd; 0x8f]; [0x5e; 0x71; 0x4c; 0x12; 0xf0; 0x81];
   [0x60; 0x50; 0xab; 0xcb; 0x6b; 0x3b]; [0x62; 0x53; 0xa2; 0xc0; 0x66; 0x35]; [0x64; 0x56; 0xb9; 0xdd; 0x71; 0x27]; [0x66; 0x55; 0xb0; 0xd6; 0x7c; 0x29];
   [0x68; 0x5c; 0x8f; 0xe7; 0x5f; 0x03]; [0x6a; 0x5f; 0x86; 0xec; 0x52; 0x0d]; [0x6c; 0x5a; 0x9d; 0xf1; 0x45; 0x1f]; [0x6e; 0x59; 0x94; 0xfa; 0x48; 0x11];
   [0x70; 0x48; 0xe3; 0x93; 0x03; 0x4b]; [0x72; 0x4b; 0xea; 0x98; 0x0e; 0x45]; [0x74; 0x4e; 0xf1; 0x85; 0x19; 0x57]; [0x76; 0x4d; 0xf8; 0x8e; 0x14; 0x59];
   [0x78; 0x44; 0xc7; 0xbf; 0x37; 0x73]; [0x7a; 0x47; 0xce; 0xb4; 0x3a; 0x7d]; [0x7c; 0x42; 0xd5; 0xa9; 0x2d; 0x6f]; [0x7e; 0x41; 0xdc; 0xa2; 0x20; 0x61];
   [0x80; 0xc0; 0x76; 0xf6; 0x6d; 0xad]; [0x82; 0xc3; 0x7f; 0xfd; 0x60; 0xa3]; [0x84; 0xc6; 0x64; 0xe0; 0x77; 0xb1]; [0x86; 0xc5; 0x6d; 0xeb; 0x7a; 0xbf];
   [0x88; 0xcc; 0x52; 0xda; 0x59; 0x95]; [0x8a; 0xcf; 0x5b; 0xd1; 0x54; 0x9b]; [0x8c; 0xca; 0x40; 0xcc; 0x43; 0x89]; [0x8e; 0xc9; 0x49; 0xc7; 0x4e; 0x87];
   [0x90; 0xd8; 0x3e; 0xae; 0x05; 0xdd]; [0x92; 0xdb; 0x37; 0xa5; 0x08; 0xd3]; [0x94; 0xde; 0x2c; 0xb8; 0x1f; 0xc1]; [0x96; 0xdd; 0x25; 0xb3; 0x12; 0xcf];
   [0x98; 0xd4; 0x1a; 0x82; 0x31; 0xe5]; [0x9a; 0xd7; 0x13; 0x89; 0x3c; 0xeb]; [0x9c; 0xd2; 0x08; 0x94; 0x2b; 0xf9]; [0x9e; 0xd1; 0x01; 0x9f; 0x26; 0xf7];
   [0xa0; 0xf0; 0xe6; 0x46; 0xbd; 0x4d]; [0xa2; 0xf3; 0xef; 0x4d; 0xb0; 0x43]; [0xa4; 0xf6; 0xf4; 0x50; 0xa7; 0x51]; [0xa6; 0xf5; 0xfd; 0x5b; 0xaa; 0x5f];
   [0xa8; 0xfc; 0xc2; 0x6a; 0x89; 0x75]; [0xaa; 0xff; 0xcb; 0x61; 0x84; 0x7b]; [0xac; 0xfa; 0xd0; 0x7c; 0x93; 0x69]; [0xae; 0xf9; 0xd9; 0x77; 0x9e; 0x67];
   [0xb0; 0xe8; 0xae; 0x1e; 0xd5; 0x3d]; [0xb2; 0xeb; 0xa7; 0x15; 0xd8; 0x33]; [0xb4; 0xee; 0xbc; 0x08; 0xcf; 0x21]; [0xb6; 0xed; 0xb5; 0x03; 0xc2; 0x2f];
   [0xb8; 0xe4; 0x8a; 0x32; 0xe1; 0x05]; [0xba; 0xe7; 0x83; 0x39; 0xec; 0x0b]; [0xbc; 0xe2; 0x98; 0x24; 0xfb; 0x19]; [0xbe; 0xe1; 0x91; 0x2f; 0xf6; 0x17];
   [0xc0; 0xa0; 0x4d; 0x8d; 0xd6; 0x76]; [0xc2; 0xa3; 0x44; 0x86; 0xdb; 0x78]; [0xc4; 0xa6; 0x5f; 0x9b; 0xcc; 0x6a]; [0xc6; 0xa5; 0x56; 0x90; 0xc1; 0x64];
   [0xc8; 0xac; 0x69; 0xa1; 0xe2; 0x4e]; [0xca; 0xaf; 0x60; 0xaa; 0xef; 0x40]; [0xcc; 0xaa; 0x7b; 0xb7; 0xf8; 0x52]; [0xce; 0xa9; 0x72; 0xbc; 0xf5; 0x5c];
   [0xd0; 0xb8; 0x05; 0xd5; 0xbe; 0x06]; [0xd2; 0xbb; 0x0c; 0xde; 0xb3; 0x08]; [0xd4; 0xbe; 0x17; 0xc3; 0xa4; 0x1a]; [0xd6; 0xbd; 0x1e; 0xc8; 0xa9; 0x14];
   [0xd8; 0xb4; 0x21; 0xf9; 0x8a; 0x3e]; [0xda; 0xb7; 0x28; 0xf2; 0x87; 0x30]; [0xdc; 0xb2; 0x33; 0xef; 0x90; 0x22]; [0xde; 0xb1; 0x3a; 0xe4; 0x9d; 0x2c];
   [0xe0; 0x90; 0xdd; 0x3d; 0x06; 0x96]; [0xe2; 0x93; 0xd4; 0x36; 0x0b; 0x98]; [0xe4; 0x96; 0xcf; 0x2b; 0x1c; 0x8a]; [0xe6; 0x95; 0xc6; 0x20; 0x11; 0x84];
   [0xe8; 0x9c; 0xf9; 0x11; 0x32; 0xae]; [0xea; 0x9f; 0xf0; 0x1a; 0x3f; 0xa0]; [0xec; 0x9a; 0xeb; 0x07; 0x28; 0xb2]; [0xee; 0x99; 0xe2; 0x0c; 0x25; 0xbc];
   [0xf0; 0x88; 0x95; 0x65; 0x6e; 0xe6]; [0xf2; 0x8b; 0x9c; 0x6e; 0x63; 0xe8]; [0xf4; 0x8e; 0x87; 0x73; 0x74; 0xfa]; [0xf6; 0x8d; 0x8e; 0x78; 0x79; 0xf4];
   [0xf8; 0x84; 0xb1; 0x49; 0x5a; 0xde]; [0xfa; 0x87; 0xb8; 0x42; 0x57; 0xd0]; [0xfc; 0x82; 0xa3; 0x5f; 0x40; 0xc2]; [0xfe; 0x81; 0xaa; 0x54; 0x4d; 0xcc];
   [0x1b; 0x9b; 0xec; 0xf7; 0xda; 0x41]; [0x19; 0x98; 0xe5; 0xfc; 0xd7; 0x4f]; [0x1f; 0x9d; 0xfe; 0xe1; 0xc0; 0x5d]; [0x1d; 0x9e; 0xf7; 0xea; 0xcd; 0x53];
   [0x13; 0x97; 0xc8; 0xdb; 0xee; 0x79]; [0x11; 0x94; 0xc1; 0xd0; 0xe3; 0x77]; [0x17; 0x91; 0xda; 0xcd; 0xf4; 0x65]; [0x15; 0x92; 0xd3; 0xc6; 0xf9; 0x6b];
   [0x0b; 0x83; 0xa4; 0xaf; 0xb2; 0x31]; [0x09; 0x80; 0xad; 0xa4; 0xbf; 0x3f]; [0x0f; 0x85; 0xb6; 0xb9; 0xa8; 0x2d]; [0x0d; 0x86; 0xbf; 0xb2; 0xa5; 0x23];
   [0x03; 0x8f; 0x80; 0x83; 0x86; 0x09]; [0x01; 0x8c; 0x89; 0x88; 0x8b; 0x07]; [0x07; 0x89; 0x92; 0x95; 0x9c; 0x15]; [0x05; 0x8a; 0x9b; 0x9e; 0x91; 0x1b];
   [0x3b; 0xab; 0x7c; 0x47; 0x0a; 0xa1]; [0x39; 0xa8; 0x75; 0x4c; 0x07; 0xaf]; [0x3f; 0xad; 0x6e; 0x51; 0x10; 0xbd]; [0x3d; 0xae; 0x67; 0x5a; 0x1d; 0xb3];
   [0x33; 0xa7; 0x58; 0x6b; 0x3e; 0x99]; [0x31; 0xa4; 0x51; 0x60; 0x33; 0x97]; [0x37; 0xa1; 0x4a; 0x7d; 0x24; 0x85]; [0x35; 0xa2; 0x43; 0x76; 0x29; 0x8b];
   [0x2b; 0xb3; 0x34; 0x1f; 0x62; 0xd1]; [0x29; 0xb0; 0x3d; 0x14; 0x6f; 0xdf]; [0x2f; 0xb5; 0x26; 0x09; 0x78; 0xcd]; [0x2d; 0xb6; 0x2f; 0x02; 0x75; 0xc3];
   [0x23; 0xbf; 0x10; 0x33; 0x56; 0xe9]; [0x21; 0xbc; 0x19; 0x38; 0x5b; 0xe7]; [0x27; 0xb9; 0x02; 0x25; 0x4c; 0xf5]; [0x25; 0xba; 0x0b; 0x2e; 0x41; 0xfb];
   [0x5b; 0xfb; 0xd7; 0x8c; 0x61; 0x9a]; [0x59; 0xf8; 0xde; 0x87; 0x6c; 0x94]; [0x5f; 0xfd; 0xc5; 0x9a; 0x7b; 0x86]; [0x5d; 0xfe; 0xcc; 0x91; 0x76; 0x88];
   [0x53; 0xf7; 0xf3; 0xa0; 0x55; 0xa2]; [0x51; 0xf4; 0xfa; 0xab; 0x58; 0xac]; [0x57; 0xf1; 0xe1; 0xb6; 0x4f; 0xbe]; [0x55; 0xf2; 0xe8; 0xbd; 0x42; 0xb0];
   [0x4b; 0xe3; 0x9f; 0xd4; 0x09; 0xea]; [0x49; 0xe0; 0x96; 0xdf; 0x04; 0xe4]; [0x4f; 0xe5; 0x8d; 0xc2; 0x13; 0xf6]; [0x4d; 0xe6; 0x84; 0xc9; 0x1e; 0xf8];
   [0x43; 0xef; 0xbb; 0xf8; 0x3d; 0xd2]; [0x41; 0xec; 0xb2; 0xf3; 0x30; 0xdc]; [0x47; 0xe9; 0xa9; 0xee; 0x27; 0xce]; [0x45; 0xea; 0xa0; 0xe5; 0x2a; 0xc0];
   [0x7b; 0xcb; 0x47; 0x3c; 0xb1; 0x7a]; [0x79; 0xc8; 0x4e; 0x37; 0xbc; 0x74]; [0x7f; 0xcd; 0x55; 0x2a; 0xab; 0x66]; [0x7d; 0xce; 0x5c; 0x21; 0xa6; 0x68];
   [0x73; 0xc7; 0x63; 0x10; 0x85; 0x42]; [0x71; 0xc4; 0x6a; 0x1b; 0x88; 0x4c]; [0x77; 0xc1; 0x71; 0x06; 0x9f; 0x5e]; [0x75; 0xc2; 0x78; 0x0d; 0x92; 0x50];
   [0x6b; 0xd3; 0x0f; 0x64; 0xd9; 0x0a]; [0x69; 0xd0; 0x06; 0x6f; 0xd4; 0x04]; [0x6f; 0xd5; 0x1d; 0x72; 0xc3; 0x16]; [0x6d; 0xd6; 0x14; 0x79; 0xce; 0x18];
   [0x63; 0xdf; 0x2b; 0x48; 0xed; 0x32]; [0x61; 0xdc; 0x22; 0x43; 0xe0; 0x3c]; [0x67; 0xd9; 0x39; 0x5e; 0xf7; 0x2e]; [0x65; 0xda; 0x30; 0x55; 0xfa; 0x20];
   [0x9b; 0x5b; 0x9a; 0x01; 0xb7; 0xec]; [0x99; 0x58; 0x93; 0x0a; 0xba; 0xe2]; [0x9f; 0x5d; 0x88; 0x17; 0xad; 0xf0]; [0x9d; 0x5e; 0x81; 0x1c; 0xa0; 0xfe];
   [0x93; 0x57; 0xbe; 0x2d; 0x83; 0xd4]; [0x91; 0x54; 0xb7; 0x26; 0x8e; 0xda]; [0x97; 0x51; 0xac; 0x3b; 0x99; 0xc8]; [0x95; 0x52; 0xa5; 0x30; 0x94; 0xc6];
   [0x8b; 0x43; 0xd2; 0x59; 0xdf; 0x9c]; [0x89; 0x40; 0xdb; 0x52; 0xd2; 0x92]; [0x8f; 0x45; 0xc0; 0x4f; 0xc5; 0x80]; [0x8d; 0x46; 0xc9; 0x44; 0xc8; 0x8e];
   [0x83; 0x4f; 0xf6; 0x75; 0xeb; 0xa4]; [0x81; 0x4c; 0xff; 0x7e; 0xe6; 0xaa]; [0x87; 0x49; 0xe4; 0x63; 0xf1; 0xb8]; [0x85; 0x4a; 0xed; 0x68; 0xfc; 0xb6];
   [0xbb; 0x6b; 0x0a; 0xb1; 0x67; 0x0c]; [0xb9; 0x68; 0x03; 0xba; 0x6a; 0x02]; [0xbf; 0x6d; 0x18; 0xa7; 0x7d; 0x10]; [0xbd; 0x6e; 0x11; 0xac; 0x70; 0x1e];
   [0xb3; 0x67; 0x2e; 0x9d; 0x53; 0x34]; [0xb1; 0x64; 0x27; 0x96; 0x5e; 0x3a]; [0xb7; 0x61; 0x3c; 0x8b; 0x49; 0x28]; [0xb5; 0x62; 0x35; 0x80; 0x44; 0x26];
   [0xab; 0x73; 0x42; 0xe9; 0x0f; 0x7c]; [0xa9; 0x70; 0x4b; 0xe2; 0x02; 0x72]; [0xaf; 0x75; 0x50; 0xff; 0x15; 0x60]; [0xad; 0x76; 0x59; 0xf4; 0x18; 0x6e];
   [0xa3; 0x7f; 0x66; 0xc5; 0x3b; 0x44]; [0xa1; 0x7c; 0x6f; 0xce; 0x36; 0x4a]; [0xa7; 0x79; 0x74; 0xd3; 0x21; 0x58]; [0xa5; 0x7a; 0x7d; 0xd8; 0x2c; 0x56];
   [0xdb; 0x3b; 0xa1; 0x7a; 0x0c; 0x37]; [0xd9; 0x38; 0xa8; 0x71; 0x01; 0x39]; [0xdf; 0x3d; 0xb3; 0x6c; 0x16; 0x2b]; [0xdd; 0x3e; 0xba; 0x67; 0x1b; 0x25];
   [0xd3; 0x37; 0x85; 0x56; 0x38; 0x0f]; [0xd1; 0x34; 0x8c; 0x5d; 0x35; 0x01]; [0xd7; 0x31; 0x97; 0x40; 0x22; 0x13]; [0xd5; 0x32; 0x9e; 0x4b; 0x2f; 0x1d];
   [0xcb; 0x23; 0xe9; 0x22; 0x64; 0x47]; [0xc9; 0x20; 0xe0; 0x29; 0x69; 0x49]; [0xcf; 0x25; 0xfb; 0x34; 0x7e; 0x5b]; [0xcd; 0x26; 0xf2; 0x3f; 0x73; 0x55];
   [0xc3; 0x2f; 0xcd; 0x0e; 0x50; 0x7f]; [0xc1; 0x2c; 0xc4; 0x05; 0x5d; 0x71]; [0xc7; 0x29; 0xdf; 0x18; 0x4a; 0x63]; [0xc5; 0x2a; 0xd6; 0x13; 0x47; 0x6d];
   [0xfb; 0x0b; 0x31; 0xca; 0xdc; 0xd7]; [0xf9; 0x08; 0x38; 0xc1; 0xd1; 0xd9]; [0xff; 0x0d; 0x23; 0xdc; 0xc6; 0xcb]; [0xfd; 0x0e; 0x2a; 0xd7; 0xcb; 0xc5];
   [0xf3; 0x07; 0x15; 0xe6; 0xe8; 0xef]; [0xf1; 0x04; 0x1c; 0xed; 0xe5; 0xe1]; [0xf7; 0x01; 0x07; 0xf0; 0xf2; 0xf3]; [0xf5; 0x02; 0x0e; 0xfb; 0xff; 0xfd];
   [0xeb; 0x13; 0x79; 0x92; 0xb4; 0xa7]; [0xe9; 0x10; 0x70; 0x99; 0xb9; 0xa9]; [0xef; 0x15; 0x6b; 0x84; 0xae; 0xbb]; [0xed; 0x16; 0x62; 0x8f; 0xa3; 0xb5];
   [0xe3; 0x1f; 0x5d; 0xbe; 0x80; 0x9f]; [0xe1; 0x1c; 0x54; 0xb5; 0x8d; 0x91]; [0xe7; 0x19; 0x4f; 0xa8; 0x9a; 0x83]; [0xe5; 0x1a; 0x46; 0xa3; 0x97; 0x8d]].

(** [t[i][j]]; the indices are always parts of a byte, so in range. *)
Definition tab (t : list bytes) (i j : Z) : Z :=
  default 0 (t !! Z.to_nat i ≫= (fun r => r !! Z.to_nat j)).
Definition gf (c : Z) (k : Z) : Z := tab gf_mul c k.

(** ** The block cipher *)

(** The state [state[r][c]], row after row. *)
Definition aes_sub (t : list bytes) (b : Z) : Z := tab t (Z.shiftr b 4) (Z.land b 15).
Definition aes_SubBytes (state : bytes) : bytes := aes_sub aes_sbox <$> state.
Definition aes_InvSubBytes (state : bytes) : bytes := aes_sub aes_invsbox <$> state.

Definition aes_SubWord (word : Z) : Z :=
  let s i := tab aes_sbox (Z.land (Z.shiftr word (i + 4)) 15) (Z.land (Z.shiftr word i) 15) in
  u32 (s 0 + Z.shiftl (s 8) 8 + Z.shiftl (s 16) 16 + Z.shiftl (s 24) 24).
Definition KE_ROTWORD (x : Z) : Z := Z.lor (u32 (Z.shiftl x 8)) (Z.shiftr x 24).

(** The byte [subkey[r]] of a word. *)
Definition subkey (w : Z) (r : Z) : Z := u8 (Z.shiftr w (24 - 8 * r)).
Definition aes_AddRoundKey (state : bytes) (w : list Z) : bytes :=
  match w with
  | w0 :: w1 :: w2 :: w3 :: _ =>
      zip_with Z.lxor state
        [subkey w0 0; subkey w1 0; subkey w2 0; subkey w3 0;
         subkey w0 1; subkey w1 1; subkey w2 1; subkey w3 1;
         subkey w0 2; subkey w1 2; subkey w2 2; subkey w3 2;
         subkey w0 3; subkey w1 3; subkey w2 3; subkey w3 3]
  | _ => state
  end.

Definition aes_ShiftRows (state : bytes) : bytes :=
  match state with
  | [a0; a1; a2; a3; b0; b1; b2; b3; c0; c1; c2; c3; d0; d1; d2; d3] =>
      [a0; a1; a2; a3; b1; b2; b3; b0; c2; c3; c0; c1; d3; d0; d1; d2]
  | _ => state
  end.
Definition aes_InvShiftRows (state : bytes) : bytes :=
  match state with
  | [a0; a1; a2; a3; b0; b1; b2; b3; c0; c1; c2; c3; d0; d1; d2; d3] =>
      [a0; a1; a2; a3; b3; b0; b1; b2; c2; c3; c0; c1; d1; d2; d3; d0]
  | _ => state
  end.

(** One column, with the exclusive ors in the order of the code. *)
Definition mix_column (a b c d : Z) : Z * Z * Z * Z :=
  let x := Z.lxor in
  (x (x (x (gf a 0) (gf b 1)) c) d, x (x (x a (gf b 0)) (gf c 1)) d,
   x (x (x a b) (gf c 0)) (gf d 1), x (x (x (gf a 1) b) c) (gf d 0)).
Definition inv_mix_column (a b c d : Z) : Z * Z * Z * Z :=
  let x := Z.lxor in
  (x (x (x (gf a 5) (gf b 3)) (gf c 4)) (gf d 2), x (x (x (gf a 2) (gf b 5)) (gf c 3)) (gf d 4),
   x (x (x (gf a 4) (gf b 2)) (gf c 5)) (gf d 3), x (x (x (gf a 3) (gf b 4)) (gf c 2)) (gf d 5)).
Definition on_columns (f : Z -> Z -> Z -> Z -> Z * Z * Z * Z) (state : bytes) : bytes :=
  match state with
  | [a0; a1; a2; a3; b0; b1; b2; b3; c0; c1; c2; c3; d0; d1; d2; d3] =>
      let '(a0, b0, c0, d0) := f a0 b0 c0 d0 in
      let '(a1, b1, c1, d1) := f a1 b1 c1 d1 in
      let '(a2, b2, c2, d2) := f a2 b2 c2 d2 in
      let '(a3, b3, c3, d3) := f a3 b3 c3 d3 in
      [a0; a1; a2; a3; b0; b1; b2; b3; c0; c1; c2; c3; d0; d1; d2; d3]
  | _ => state
  end.
Definition aes_MixColumns : bytes -> bytes := on_columns mix_column.
Definition aes_InvMixColumns : bytes -> bytes := on_columns inv_mix_column.

(** The bytes of a block fill the state column after column. *)
Definition transpose (b : bytes) : bytes :=
  match b with
  | [a0; a1; a2; a3; b0; b1; b2; b3; c0; c1; c2; c3; d0; d1; d2; d3] =>
      [a0; b0; c0; d0; a1; b1; c1; d1; a2; b2; c2; d2; a3; b3; c3; d3]
  | _ => b
  end.

(** [&key[i]] *)
Definition key_at (key : list Z) (i : nat) : list Z := drop i key.
Definition enc_round (key : list Z) (state : bytes) (i : nat) : bytes :=
  aes_AddRoundKey (aes_MixColumns (aes_ShiftRows (aes_SubBytes state))) (key_at key i).
Definition enc_last (key : list Z) (state : bytes) (i : nat) : bytes :=
  aes_AddRoundKey (aes_ShiftRows (aes_SubBytes state)) (key_at key i).
Definition dec_round (key : list Z) (state : bytes) (i : nat) : bytes :=
  aes_InvMixColumns (aes_AddRoundKey (aes_InvSubBytes (aes_InvShiftRows state)) (key_at key i)).
Definition dec_last (key : list Z) (state : bytes) (i : nat) : bytes :=
  aes_AddRoundKey (aes_InvSubBytes (aes_InvShiftRows state)) (key_at key i).

Definition encrypt_state (keysize : Z) (key : list Z) (state : bytes) : bytes :=
  let state := aes_AddRoundKey state (key_at key 0) in
  let state := foldl (enc_round key) state [4; 8; 12; 16; 20; 24; 28; 32; 36]%nat in
  if negb (keysize =? 128) then
    let state := foldl (enc_round key) state [40; 44]%nat in
    if negb (keysize =? 192) then
      let state := foldl (enc_round key) state [48; 52]%nat in
      enc_last key state 56
    else enc_last key state 48
  else enc_last key state 40.

Definition decrypt_state (keysize : Z) (key : list Z) (state : bytes) : bytes :=
  let state :=
    if 128 <? keysize then
      let state :=
        if 192 <? keysize then
          foldl (dec_round key) (aes_AddRoundKey state (key_at key 56)) [52; 48]%nat
        else aes_AddRoundKey state (key_at key 48) in
      foldl (dec_round key) state [44; 40]%nat
    else aes_AddRoundKey state (key_at key 40) in
  let state := foldl (dec_round key) state [36; 32; 28; 24; 20; 16; 12; 8; 4]%nat in
  dec_last key state 0.

(** ** The context *)

(** [struct tls_aes_context], with the members of [_private] in line. *)
Record tls_aes_context := mk_aes {
  aes_mode : Z;
  aes_keysize : Z;
  round_keys : list Z;
  aes_iv : bytes;
  op_assoc : Z;
  ghash_key : bytes;
  auth_tag : bytes;
  last_block : bytes;
  last_block_len : Z;
  aad_cache : bytes;
  aad_cache_len : Z;
  auth_j0 : bytes;
  aad_len : Z;
  ct_len : Z;
  aes_lock : Z
}.
Definition set_aes_mode (v : Z) (a : tls_aes_context) : tls_aes_context :=
  mk_aes v (aes_keysize a) (round_keys a) (aes_iv a) (op_assoc a) (ghash_key a) (auth_tag a) (last_block a) (last_block_len a) (aad_cache a) (aad_cache_len a) (auth_j0 a) (aad_len a) (ct_len a) (aes_lock a).
Definition set_aes_keysize (v : Z) (a : tls_aes_context) : tls_aes_context :=
  mk_aes (aes_mode a) v (round_keys a) (aes_iv a) (op_assoc a) (ghash_key a) (auth_tag a) (last_block a) (last_block_len a) (aad_cache a) (aad_cache_len a) (auth_j0 a) (aad_len a) (ct_len a) (aes_lock a).
Definition set_round_keys (v : list Z) (a : tls_aes_context) : tls_aes_context :=
  mk_aes (aes_mode a) (aes_keysize a) v (aes_iv a) (op_assoc a) (ghash_key a) (auth_tag a) (last_block a) (last_block_len a) (aad_cache a) (aad_cache_len a) (auth_j0 a) (aad_len a) (ct_len a) (aes_lock a).
Definition set_aes_iv (v : bytes) (a : tls_aes_context) : tls_aes_context :=
  mk_aes (aes_mode a) (aes_keysize a) (round_keys a) v (op_assoc a) (ghash_key a) (auth_tag a) (last_block a) (last_block_len a) (aad_cache a) (aad_cache_len a) (auth_j0 a) (aad_len a) (ct_len a) (aes_lock a).
Definition set_op_assoc (v : Z) (a : tls_aes_context) : tls_aes_context :=
  mk_aes (aes_mode a) (aes_keysize a) (round_keys a) (aes_iv a) v (ghash_key a) (auth_tag a) (last_block a) (last_block_len a) (aad_cache a) (aad_cache_len a) (auth_j0 a) (aad_len a) (ct_len a) (aes_lock a).
Definition set_ghash_key (v : bytes) (a : tls_aes_context) : tls_aes_context :=
  mk_aes (aes_mode a) (aes_keysize a) (round_keys a) (aes_iv a) (op_assoc a) v (auth_tag a) (last_block a) (last_block_len a) (aad_cache a) (aad_cache_len a) (auth_j0 a) (aad_len a) (ct_len a) (aes_lock a).
Definition set_auth_tag (v : bytes) (a : tls_aes_context) : tls_aes_context :=
  mk_aes (aes_mode a) (aes_keysize a) (round_keys a) (aes_iv a) (op_assoc a) (ghash_key a) v (last_block a) (last_block_len a) (aad_cache a) (aad_cache_len a) (auth_j0 a) (aad_len a) (ct_len a) (aes_lock a).
Definition set_last_block (v : bytes) (a : tls_aes_context) : tls_aes_context :=
  mk_aes (aes_mode a) (aes_keysize a) (round_keys a) (aes_iv a) (op_assoc a) (ghash_key a) (auth_tag a) v (last_block_len a) (aad_cache a) (aad_cache_len a) (auth_j0 a) (aad_len a) (ct_len a) (aes_lock a).
Definition set_last_block_len (v : Z) (a : tls_aes_context) : tls_aes_context :=
  mk_aes (aes_mode a) (aes_keysize a) (round_keys a) (aes_iv a) (op_assoc a) (ghash_key a) (auth_tag a) (last_block a) v (aad_cache a) (aad_cache_len a) (auth_j0 a) (aad_len a) (ct_len a) (aes_lock a).
Definition set_aad_cache (v : bytes) (a : tls_aes_context) : tls_aes_context :=
  mk_aes (aes_mode a) (aes_keysize a) (round_keys a) (aes_iv a) (op_assoc a) (ghash_key a) (auth_tag a) (last_block a) (last_block_len a) v (aad_cache_len a) (auth_j0 a) (aad_len a) (ct_len a) (aes_lock a).
Definition set_aad_cache_len (v : Z) (a : tls_aes_context) : tls_aes_context :=
  mk_aes (aes_mode a) (aes_keysize a) (round_keys a) (aes_iv a) (op_assoc a) (ghash_key a) (auth_tag a) (last_block a) (last_block_len a) (aad_cache a) v (auth_j0 a) (aad_len a) (ct_len a) (aes_lock a).
Definition set_auth_j0 (v : bytes) (a : tls_aes_context) : tls_aes_context :=
  mk_aes (aes_mode a) (aes_keysize a) (round_keys a) (aes_iv a) (op_assoc a) (ghash_key a) (auth_tag a) (last_block a) (last_block_len a) (aad_cache a) (aad_cache_len a) v (aad_len a) (ct_len a) (aes_lock a).
Definition set_aad_len (v : Z) (a : tls_aes_context) : tls_aes_context :=
  mk_aes (aes_mode a) (aes_keysize a) (round_keys a) (aes_iv a) (op_assoc a) (ghash_key a) (auth_tag a) (last_block a) (last_block_len a) (aad_cache a) (aad_cache_len a) (auth_j0 a) v (ct_len a) (aes_lock a).
Definition set_ct_len (v : Z) (a : tls_aes_context) : tls_aes_context :=
  mk_aes (aes_mode a) (aes_keysize a) (round_keys a) (aes_iv a) (op_assoc a) (ghash_key a) (auth_tag a) (last_block a) (last_block_len a) (aad_cache a) (aad_cache_len a) (auth_j0 a) (aad_len a) v (aes_lock a).
Definition set_aes_lock (v : Z) (a : tls_aes_context) : tls_aes_context :=
  mk_aes (aes_mode a) (aes_keysize a) (round_keys a) (aes_iv a) (op_assoc a) (ghash_key a) (auth_tag a) (last_block a) (last_block_len a) (aad_cache a) (aad_cache_len a) (auth_j0 a) (aad_len a) (ct_len a) v.

Definition AES_BLOCK_SIZE : Z := 16.
Definition TLS_AES_GCM : Z := 0.
Definition TLS_AES_CBC : Z := 1.
Definition AES_OP_NONE : Z := 0.
Definition AES_OP_ENCRYPT : Z := 1.
Definition AES_OP_DECRYPT : Z := 2.
Definition LOCK_ALLOW_ALL : Z := 0.
Definition LOCK_ALLOW_ENCRYPT : Z := 1.
Definition LOCK_ALLOW_NONE : Z := 2.
Definition AES_GCM_NONCE_LEN : Z := 12.
Definition AES_GCM_CTR_LEN : Z := 4.

Definition blank_aes : tls_aes_context :=
  mk_aes 0 0 (replicate 60 0) (zeros 16) 0 (zeros 16) (zeros 16) (zeros 16) 0 (zeros 16) 0 (zeros 16) 0 0 0.

Definition aes_encrypt_block (inb : bytes) (ks : tls_aes_context) : bytes :=
  transpose (encrypt_state (aes_keysize ks) (round_keys ks) (transpose inb)).
Definition aes_decrypt_block (inb : bytes) (ks : tls_aes_context) : bytes :=
  transpose (decrypt_state (aes_keysize ks) (round_keys ks) (transpose inb)).

(** ** GCM *)

(** [iv[idx]++] from the last byte of the counter down, as long as there is a
    carry. *)
Fixpoint increment_loop (n : nat) (iv : bytes) (idx counter_start : Z) : bytes :=
  match n with
  | O => iv
  | S n' =>
      if idx <? counter_start then iv
      else
        let v := u8 (default 0 (iv !! Z.to_nat idx) + 1) in
        let iv := <[Z.to_nat idx := v]> iv in
        if negb (v =? 0) then iv else increment_loop n' iv (idx - 1) counter_start
  end.
Definition increment_iv (iv : bytes) (counter_start counter_size : Z) : bytes :=
  increment_loop (Z.to_nat counter_size) iv (counter_start + counter_size - 1) counter_start.

(** [rr] over the bytes: the bits move towards the end, and the last one is
    the carry. *)
Fixpoint rr_bytes (carry : Z) (l : bytes) : bytes * Z :=
  match l with
  | [] => ([], carry)
  | b :: l' => let '(r, c) := rr_bytes (b mod 2) l' in (b / 2 + 128 * carry :: r, c)
  end.
Definition gf128_double (tmp : bytes) : bytes :=
  let '(r, c) := rr_bytes 0 tmp in
  match r with
  | b :: r' => (if c =? 1 then Z.lxor b 0xE1 else b) :: r'
  | [] => []
  end.
Fixpoint gf128_loop (bits : list bool) (tmp out : bytes) : bytes :=
  match bits with
  | [] => out
  | b :: bits' => gf128_loop bits' (gf128_double tmp) (if b then xor_bytes out tmp else out)
  end.
(** The bits of a byte, the highest first. *)
Definition byte_bits (b : Z) : list bool := (fun i => Z.testbit b i) <$> [7; 6; 5; 4; 3; 2; 1; 0].
Definition gf128_mul (a b : bytes) : bytes :=
  gf128_loop (concat (byte_bits <$> b)) a (zeros 16).

(** The byte for bits 16 to 23 gets bits 24 to 26 of the shifted length. *)
Definition bytelen_to_bitlen (val : Z) : bytes :=
  let v := 8 * val in [0; 0; 0; 0; 0; v / 2 ^ 24; v / 256 mod 256; v mod 256].

Definition rd_off (p : option bytes) (off n : Z) : option bytes := b ← p; rd_at b off n.

Definition hash_block (ctx : tls_aes_context) (tbuf out_buf : bytes) : bytes :=
  gf128_mul (xor_bytes out_buf tbuf) (ghash_key ctx).

Fixpoint ghash_loop (fuel : nat) (ctx : tls_aes_context) (out_buf : bytes) (data : option bytes) (idx len : Z) :
    option (tls_aes_context * bytes) :=
  match fuel with
  | O => None
  | S f =>
      if len <=? idx then Some (ctx, out_buf)
      else
        let bytes_copy := Z.min AES_BLOCK_SIZE (len - idx) in
        if bytes_copy <? AES_BLOCK_SIZE then
          part ← rd_off data idx bytes_copy;
          cache ← store_at (aad_cache ctx) 0 part;
          ghash_loop f (set_aad_cache_len bytes_copy (set_aad_cache cache ctx)) out_buf data
            (u24 (idx + AES_BLOCK_SIZE)) len
        else
          tbuf ← rd_off data idx AES_BLOCK_SIZE;
          ghash_loop f ctx (hash_block ctx tbuf out_buf) data (u24 (idx + AES_BLOCK_SIZE)) len
  end.
Definition ghash_fuel (len : Z) : nat := S (S (Z.to_nat (len / AES_BLOCK_SIZE))).

(** [out_buf] is the array of the context that the caller passes; the result
    is the context with the new cache, and the new contents of the array. *)
Definition ghash (ctx : tls_aes_context) (out_buf : bytes) (data : option bytes) (len : Z) :
    option (tls_aes_context * bytes) :=
  let cache_len := aad_cache_len ctx in
  if negb (cache_len =? 0) then
    let data_offset := Z.min len (u24 (AES_BLOCK_SIZE - cache_len)) in
    head ← rd data data_offset;
    if data_offset + cache_len <? AES_BLOCK_SIZE then
      cache ← store_at (aad_cache ctx) cache_len head;
      Some (set_aad_cache_len (u8 (cache_len + data_offset)) (set_aad_cache cache ctx), out_buf)
    else
      queued ← rd (Some (aad_cache ctx)) cache_len;
      tbuf ← store_at (zeros 16) 0 queued;
      tbuf ← store_at tbuf cache_len head;
      ghash_loop (ghash_fuel len) (set_aad_cache_len 0 ctx) (hash_block ctx tbuf out_buf) data data_offset len
  else ghash_loop (ghash_fuel len) ctx out_buf data 0 len.

(** [ghash(ctx, ctx->_private.auth_tag, ...)] *)
Definition ghash_tag (ctx : tls_aes_context) (data : option bytes) (len : Z) : option tls_aes_context :=
  r ← ghash ctx (auth_tag ctx) data len; Some (set_auth_tag r.2 r.1).

Definition aes_gcm_prepare_iv (ctx : tls_aes_context) (iv : option bytes) (iv_len : Z) : option tls_aes_context :=
  if iv_len =? 12 then Some (set_aes_iv (<[15%nat := 1]> (aes_iv ctx)) ctx)
  else
    bytes ← rd iv iv_len;
    tbuf ← store_at (zeros 16) 0 bytes;
    r ← ghash ctx (zeros 16) (Some tbuf) 16;
    tbuf ← store_at (zeros 16) 8 (bytelen_to_bitlen iv_len);
    r ← ghash r.1 r.2 (Some tbuf) 16;
    Some (set_aes_iv r.2 r.1).

(** ** Setting up a context *)

Definition Rcon : list Z :=
  [0x01000000; 0x02000000; 0x04000000; 0x08000000; 0x10000000; 0x20000000;
   0x40000000; 0x80000000; 0x1b000000; 0x36000000; 0x6c000000; 0xd8000000;
   0xab000000; 0x4d000000; 0x9a000000].

(** [Nr] and [Nk] for a key length in bits. *)
Definition key_rounds (key_len : Z) : option (nat * nat) :=
  if key_len =? 128 then Some (10, 4)%nat
  else if key_len =? 192 then Some (12, 6)%nat
  else if key_len =? 256 then Some (14, 8)%nat
  else None.

Definition word_at (key : bytes) (i : nat) : option Z :=
  a ← key !! (4 * i)%nat; b ← key !! (4 * i + 1)%nat; c ← key !! (4 * i + 2)%nat; d ← key !! (4 * i + 3)%nat;
  Some (Z.lor (Z.lor (Z.lor (Z.shiftl a 24) (Z.shiftl b 16)) (Z.shiftl c 8)) d).
Fixpoint load_words (n : nat) (idx : nat) (key : bytes) (w : list Z) : option (list Z) :=
  match n with
  | O => Some w
  | S n' => v ← word_at key idx; load_words n' (S idx) key (<[idx := v]> w)
  end.

(** The words of the schedule from index [idx] on; [n] of them. *)
Fixpoint expand_words (n : nat) (idx Nk : nat) (w : list Z) : option (list Z) :=
  match n with
  | O => Some w
  | S n' =>
      temp ← w !! (idx - 1)%nat;
      temp ← (if (idx mod Nk =? 0)%nat then
                r ← Rcon !! ((idx - 1) / Nk)%nat;
                Some (Z.lxor (aes_SubWord (KE_ROTWORD temp)) r)
              else if (6 <? Nk)%nat && (idx mod Nk =? 4)%nat then Some (aes_SubWord temp)
              else Some temp);
      back ← w !! (idx - Nk)%nat;
      expand_words n' (S idx) Nk (<[idx := Z.lxor back temp]> w)
  end.

(** The result is null for a null context. *)
Definition tls_aes_init (ctx : option tls_aes_context) (mode : Z) (key : option bytes) (key_len : Z)
    (iv : option bytes) (iv_len : Z) : option (bool * option tls_aes_context) :=
  match ctx, key, iv with
  | Some _, Some k, Some _ =>
      if AES_BLOCK_SIZE <? iv_len then Some (false, ctx)
      else
        let ctx := blank_aes in
        let key_len := u24 (Z.shiftl key_len 3) in
        match key_rounds key_len with
        | None => Some (false, Some ctx)
        | Some (Nr, Nk) =>
            ivb ← rd iv iv_len;
            ivb ← store_at (aes_iv ctx) 0 ivb;
            let ctx := set_aes_keysize key_len (set_aes_iv ivb ctx) in
            w ← load_words Nk 0 k (round_keys ctx);
            w ← expand_words (4 * (Nr + 1) - Nk) Nk Nk w;
            let ctx := set_round_keys w ctx in
            if mode =? TLS_AES_GCM then
              let ctx := set_ghash_key (aes_encrypt_block (zeros 16) ctx) ctx in
              ctx ← aes_gcm_prepare_iv ctx iv iv_len;
              let ctx := set_auth_j0 (aes_iv ctx) (set_auth_tag (zeros 16) ctx) in
              let ctx := set_aes_iv (increment_iv (aes_iv ctx) AES_GCM_NONCE_LEN AES_GCM_CTR_LEN) ctx in
              Some (true, Some (set_aes_mode mode ctx))
            else if mode =? TLS_AES_CBC then Some (true, Some (set_aes_mode mode ctx))
            else Some (false, Some ctx)
        end
  | _, _, _ => Some (false, ctx)
  end.

(** ** Associated data and the tag *)

Definition tls_aes_update_aad (ctx : tls_aes_context) (aad : option bytes) (len : Z) :
    option (bool * tls_aes_context) :=
  if negb (aes_mode ctx =? TLS_AES_GCM) then Some (false, ctx)
  else if LOCK_ALLOW_ALL <? aes_lock ctx then Some (false, ctx)
  else
    ctx ← ghash_tag ctx aad len;
    Some (true, set_aad_len (u24 (aad_len ctx + len)) ctx).

(** [ctx] is read before it is compared with null. *)
Definition tls_aes_digest (ctx : option tls_aes_context) (digest : option bytes) :
    option (bool * option tls_aes_context * option bytes) :=
  c ← ctx;
  if negb (aes_mode c =? TLS_AES_GCM) then Some (false, ctx, digest)
  else
    match digest with
    | None => Some (false, ctx, digest)
    | Some out =>
        let c := set_aes_lock LOCK_ALLOW_NONE c in
        c ← ghash_tag c (Some (zeros 16)) (u24 (AES_BLOCK_SIZE - aad_cache_len c));
        let tbuf := bytelen_to_bitlen (aad_len c) ++ bytelen_to_bitlen (ct_len c) in
        c ← ghash_tag c (Some tbuf) AES_BLOCK_SIZE;
        let tbuf := xor_bytes (aes_encrypt_block (auth_j0 c) c) (auth_tag c) in
        out ← store_at out 0 tbuf;
        Some (true, Some c, Some out)
    end.

(** ** Encryption and decryption *)

(** The blocks of GCM, in both directions: block [idx] up to block [blocks]. *)
Fixpoint ctr_loop (n : nat) (idx : Z) (ctx : tls_aes_context) (inb outb : bytes) (off in_len blocks : Z) :
    option (tls_aes_context * bytes) :=
  match n with
  | O => Some (ctx, outb)
  | S n' =>
      let bytes_to_copy := Z.min AES_BLOCK_SIZE (u24 (in_len - off - idx * AES_BLOCK_SIZE)) in
      let pos := idx * AES_BLOCK_SIZE + off in
      part ← rd_at inb pos bytes_to_copy;
      outb ← store_at outb pos part;
      let buf := aes_encrypt_block (aes_iv ctx) ctx in
      outb ← xor_into outb pos bytes_to_copy buf;
      let ctx := set_aes_iv (increment_iv (aes_iv ctx) AES_GCM_NONCE_LEN AES_GCM_CTR_LEN) ctx in
      let ctx := if idx =? blocks then set_last_block_len bytes_to_copy (set_last_block buf ctx) else ctx in
      ctr_loop n' (idx + 1) ctx inb outb off in_len blocks
  end.

(** First what is left of the last key stream block, then the blocks. *)
Definition gcm_crypt (ctx : tls_aes_context) (inb outb : bytes) (in_len : Z) : option (tls_aes_context * bytes) :=
  let used := last_block_len ctx in
  if negb (used mod AES_BLOCK_SIZE =? 0) then
    let off := AES_BLOCK_SIZE - used in
    part ← rd (Some inb) off;
    outb ← store_at outb 0 part;
    stream ← rd_at (last_block ctx) used off;
    outb ← xor_into outb 0 off stream;
    let blocks := u24 (in_len - off) / AES_BLOCK_SIZE in
    ctr_loop (S (Z.to_nat blocks)) 0 ctx inb outb off in_len blocks
  else
    let blocks := in_len / AES_BLOCK_SIZE in
    ctr_loop (S (Z.to_nat blocks)) 0 ctx inb outb 0 in_len blocks.

(** A block of associated data that is not full is padded before the first
    ciphertext. *)
Definition pad_aad (ctx : tls_aes_context) : option tls_aes_context :=
  if (aes_lock ctx =? LOCK_ALLOW_ALL) && negb (aad_cache_len ctx =? 0) then
    ghash_tag ctx (Some (zeros 16)) (u24 (AES_BLOCK_SIZE - aad_cache_len ctx))
  else Some ctx.

Fixpoint cbc_encrypt_loop (n : nat) (idx : Z) (ctx : tls_aes_context) (inb outb : bytes) (in_len : Z) :
    option (tls_aes_context * bytes) :=
  match n with
  | O => Some (ctx, outb)
  | S n' =>
      let bytes_to_copy := Z.min AES_BLOCK_SIZE (u24 (in_len - idx * AES_BLOCK_SIZE)) in
      let bytes_to_pad := AES_BLOCK_SIZE - bytes_to_copy in
      part ← rd_at inb (idx * AES_BLOCK_SIZE) bytes_to_copy;
      let buf := part ++ replicate (Z.to_nat bytes_to_pad) bytes_to_pad in
      let c := aes_encrypt_block (xor_bytes buf (aes_iv ctx)) ctx in
      outb ← store_at outb (idx * AES_BLOCK_SIZE) c;
      cbc_encrypt_loop n' (idx + 1) (set_aes_iv c ctx) inb outb in_len
  end.

Definition tls_aes_encrypt (ctx : option tls_aes_context) (inbuf : option bytes) (in_len : Z) (outbuf : option bytes) :
    option (bool * option tls_aes_context * option bytes) :=
  match inbuf, outbuf, ctx with
  | Some inb, Some outb, Some c =>
      if in_len =? 0 then Some (false, ctx, outbuf)
      else if op_assoc c =? AES_OP_DECRYPT then Some (false, ctx, outbuf)
      else if LOCK_ALLOW_ENCRYPT <? aes_lock c then Some (false, ctx, outbuf)
      else
        let c := set_op_assoc AES_OP_ENCRYPT c in
        if aes_mode c =? TLS_AES_GCM then
          c ← pad_aad c;
          r ← gcm_crypt (set_aes_lock LOCK_ALLOW_ENCRYPT c) inb outb in_len;
          c ← ghash_tag r.1 (Some r.2) in_len;
          Some (true, Some (set_ct_len (u24 (ct_len c + in_len)) c), Some r.2)
        else if aes_mode c =? TLS_AES_CBC then
          let blocks := in_len / AES_BLOCK_SIZE + (if in_len mod AES_BLOCK_SIZE =? 0 then 1 else 0) in
          r ← cbc_encrypt_loop (S (Z.to_nat blocks)) 0 c inb outb in_len;
          Some (true, Some r.1, Some r.2)
        else Some (true, Some c, outbuf)
  | _, _, _ => Some (false, ctx, outbuf)
  end.

Fixpoint cbc_decrypt_loop (n : nat) (idx : Z) (ctx : tls_aes_context) (inb : bytes) (outbuf : option bytes) :
    option (tls_aes_context * option bytes) :=
  match n with
  | O => Some (ctx, outbuf)
  | S n' =>
      buf_in ← rd_at inb (idx * AES_BLOCK_SIZE) AES_BLOCK_SIZE;
      let buf_out := xor_bytes (aes_decrypt_block buf_in ctx) (aes_iv ctx) in
      outb ← outbuf;
      outb ← store_at outb (idx * AES_BLOCK_SIZE) buf_out;
      cbc_decrypt_loop n' (idx + 1) (set_aes_iv buf_in ctx) inb (Some outb)
  end.

(** [from_verify] is the global [decrypt_call_from_verify]. *)
Definition aes_decrypt (from_verify : bool) (ctx : option tls_aes_context) (inbuf : option bytes) (in_len : Z)
    (outbuf : option bytes) : option (bool * option tls_aes_context * option bytes) :=
  match ctx, inbuf with
  | Some c, Some inb =>
      if in_len =? 0 then Some (false, ctx, outbuf)
      else if negb from_verify && is_null outbuf then Some (false, ctx, outbuf)
      else if op_assoc c =? AES_OP_ENCRYPT then Some (false, ctx, outbuf)
      else if LOCK_ALLOW_ENCRYPT <? aes_lock c then Some (false, ctx, outbuf)
      else
        let c := set_op_assoc AES_OP_DECRYPT c in
        if aes_mode c =? TLS_AES_GCM then
          c ← pad_aad c;
          c ← ghash_tag c inbuf in_len;
          let c := set_ct_len (u24 (ct_len c + in_len)) c in
          match outbuf with
          | Some outb =>
              r ← gcm_crypt (set_aes_lock LOCK_ALLOW_ENCRYPT c) inb outb in_len;
              Some (true, Some r.1, Some r.2)
          | None => Some (true, Some c, None)
          end
        else if aes_mode c =? TLS_AES_CBC then
          if negb (in_len mod AES_BLOCK_SIZE =? 0) then Some (false, Some c, outbuf)
          else
            r ← cbc_decrypt_loop (Z.to_nat (in_len / AES_BLOCK_SIZE)) 0 c inb outbuf;
            Some (true, Some r.1, r.2)
        else Some (true, Some c, outbuf)
  | _, _ => Some (false, ctx, outbuf)
  end.
Definition tls_aes_decrypt := aes_decrypt false.

(** The results of the calls on the copy are not looked at. *)
Definition tls_aes_verify (ctx : option tls_aes_context) (aad : option bytes) (len : Z)
    (ciphertext : option bytes) (ciphertext_len : Z) (tag : option bytes) : option bool :=
  c ← ctx;
  if negb (aes_mode c =? TLS_AES_GCM) then Some false
  else if is_null ciphertext || (ciphertext_len =? 0) || is_null tag then Some false
  else if negb (is_null aad) && (len =? 0) then Some false
  else
    tmp ← (if is_null aad then Some c else r ← tls_aes_update_aad c aad len; Some r.2);
    r ← aes_decrypt true (Some tmp) ciphertext ciphertext_len None;
    d ← tls_aes_digest r.1.2 (Some (zeros 16));
    digest ← d.2;
    expected ← rd tag AES_BLOCK_SIZE;
    Some (tls_bytes_compare expected digest).
