(* ===== verification/AesBlock.v ===== *)
(** * The block cipher: equivalence with FIPS 197, and decryption

    The tables of the code are the functions of the field of 256 elements;
    each step of the code on its state, kept row after row, is the step of the
    standard on the block; and each step of decryption undoes one of
    encryption. *)

From S2P Require Import Prelude MemState TlsHash Rsa Aes AesRef.
Import Fips197.

(** ** Checking a property of all bytes by computation *)

Definition all_bytes (f : Z -> bool) : bool := forallb f (seqZ 0 256).
Lemma all_bytes_spec f b : all_bytes f = true -> is_byte b -> f b = true.
Proof.
  unfold all_bytes. rewrite forallb_forall. intros H Hb. apply H, list_elem_of_In, elem_of_seqZ. exact Hb.
Qed.

(** Lemmas that keep blocks blocks. *)
Create HintDb aes.

Definition is_block (b : bytes) : Prop := length b = 16%nat /\ Forall is_byte b.

(** A goal about every block as one about sixteen bytes. *)
Ltac sixteen H :=
  let L := fresh "L" in let F := fresh "F" in
  destruct H as [L F];
  repeat match type of L with
  | length ?b = S _ =>
      let x := fresh "x" in let b' := fresh "b" in
      destruct b as [|x b']; [discriminate L|]; apply (f_equal pred) in L; cbn [length pred] in L;
      apply Forall_cons in F; let F' := fresh "B" in destruct F as [F' F]
  | length ?b = O => apply nil_length_inv in L; subst b; clear F
  end.

Lemma lxor_bound k a b : 0 <= k -> 0 <= a < 2 ^ k -> 0 <= b < 2 ^ k -> 0 <= Z.lxor a b < 2 ^ k.
Proof.
  intros Hk Ha Hb. split; [apply Z.lxor_nonneg; lia|]. destruct (decide (Z.lxor a b = 0)) as [->|]; [lia|].
  apply Z.log2_lt_pow2; [pose proof (proj2 (Z.lxor_nonneg a b)); lia|].
  eapply Z.le_lt_trans; [apply Z.log2_lxor; lia|].
  assert (forall z, 0 <= z < 2 ^ k -> z = 0 \/ Z.log2 z < k) as Hlog.
  { intros z Hz. destruct (decide (z = 0)); [by left|right]. apply Z.log2_lt_pow2; lia. }
  pose proof (Z.log2_nonneg a). pose proof (Z.log2_nonneg b). change (Z.log2 0) with 0 in *.
  destruct (Hlog a Ha) as [->|], (Hlog b Hb) as [->|]; try done; change (Z.log2 0) with 0 in *; lia.
Qed.
Lemma lxor_byte a b : is_byte a -> is_byte b -> is_byte (Z.lxor a b).
Proof. apply (lxor_bound 8). lia. Qed.

(** ** The tables *)

Lemma sbox_ok b : is_byte b -> aes_sub aes_sbox b = SBOX b.
Proof.
  intros H. apply Z.eqb_eq. revert b H. refine (fun b => all_bytes_spec (fun b => aes_sub aes_sbox b =? SBOX b) b _).
  vm_compute. reflexivity.
Qed.
Lemma sbox_byte b : is_byte b -> is_byte (aes_sub aes_sbox b).
Proof.
  intros H. pose proof (all_bytes_spec (fun b => (0 <=? aes_sub aes_sbox b) && (aes_sub aes_sbox b <? 256)) b) as E.
  cbv beta in E. specialize (E ltac:(vm_compute; reflexivity) H). unfold is_byte. lia.
Qed.
Lemma invsbox_sbox b : is_byte b -> aes_sub aes_invsbox (aes_sub aes_sbox b) = b.
Proof.
  intros H. apply Z.eqb_eq. revert b H.
  refine (fun b => all_bytes_spec (fun b => aes_sub aes_invsbox (aes_sub aes_sbox b) =? b) b _).
  vm_compute. reflexivity.
Qed.

Definition factors : list Z := [2; 3; 9; 11; 13; 14].
Lemma gf_ok b k : is_byte b -> (k < 6)%nat -> gf b (Z.of_nat k) = gmul (nth k factors 0) b.
Proof.
  intros H Hk. apply Z.eqb_eq.
  pose proof (all_bytes_spec (fun b => forallb (fun k => gf b (Z.of_nat k) =? gmul (nth k factors 0) b) (seq 0 6)) b
    ltac:(vm_compute; reflexivity) H) as E.
  cbv beta in E. rewrite forallb_forall in E. apply E, list_elem_of_In, elem_of_seq. lia.
Qed.

(** ** The steps *)

Lemma transpose_twice b : length b = 16%nat -> transpose (transpose b) = b.
Proof. intros L. do 16 (destruct b as [|? b]; [discriminate L|]). destruct b; [done|discriminate L]. Qed.

Ltac step_eq := cbn -[SBOX aes_sub gf gmul subkey Z.lxor].

Lemma SubBytes_ok b : is_block b -> aes_SubBytes (transpose b) = transpose (SubBytes b).
Proof. intros H. sixteen H. step_eq. rewrite !sbox_ok by done. reflexivity. Qed.
Lemma ShiftRows_ok b : is_block b -> aes_ShiftRows (transpose b) = transpose (ShiftRows b).
Proof. intros H. sixteen H. reflexivity. Qed.

Lemma gmul_1 b : is_byte b -> gmul 1 b = b.
Proof.
  intros H. apply Z.eqb_eq. revert b H. refine (fun b => all_bytes_spec (fun b => gmul 1 b =? b) b _).
  vm_compute. reflexivity.
Qed.
Lemma MixColumns_ok b : is_block b -> aes_MixColumns (transpose b) = transpose (MixColumns b).
Proof.
  intros H. sixteen H. step_eq. unfold mix_column.
  rewrite !(gf_ok _ 0), !(gf_ok _ 1) by (done || lia). unfold factors. cbn [nth].
  rewrite !gmul_1 by done. rewrite ?Z.lxor_assoc, ?Z.lxor_0_r. reflexivity.
Qed.

(** A word of the key schedule: four bytes, or a 32-bit integer. *)
Definition is_word (w : bytes) : Prop := length w = 4%nat /\ Forall is_byte w.
Definition word32 (w : bytes) : Z := Gcm.of_bytes w.

Lemma subkey_ok w r : is_word w -> (r < 4)%nat -> subkey (word32 w) (Z.of_nat r) = nth r w 0.
Proof.
  intros [L F] Hr. destruct w as [|a [|b [|c [|d [|]]]]]; try discriminate L.
  rewrite !Forall_cons in F. destruct F as (Ha&Hb&Hc&Hd&_). unfold is_byte in *.
  unfold subkey, u8, word32, Gcm.of_bytes. cbn [foldl].
  rewrite Z.shiftr_div_pow2 by lia.
  destruct r as [|[|[|[|]]]]; cbn [nth Z.of_nat Pos.of_succ_nat Pos.succ]; try lia;
    change (2 ^ 8) with 256; [change (2 ^ (24 - 8 * 0)) with 16777216|change (2 ^ (24 - 8 * 1)) with 65536|
      change (2 ^ (24 - 8 * 2)) with 256|change (2 ^ (24 - 8 * 3)) with 1]; Z.to_euclidean_division_equations; lia.
Qed.

(** The words of the code, from [4 * round] on, are those of the standard. *)
Definition schedule_ok (key : list Z) (w : list bytes) : Prop :=
  Forall is_word w /\ prefix (word32 <$> w) key.

Lemma schedule_words key w round : schedule_ok key w -> (4 * round + 4 <= length w)%nat ->
  exists w0 w1 w2 w3 rest, Forall is_word [w0; w1; w2; w3] /\
    key_at key (4 * round) = word32 w0 :: word32 w1 :: word32 w2 :: word32 w3 :: rest /\
    forall c, (c < 4)%nat -> nth (4 * round + c) w [] = nth c [w0; w1; w2; w3] [].
Proof.
  intros [F [rest ->]] Hl. set (i := (4 * round)%nat) in *.
  rewrite <- (take_drop i w) in F |- *. set (pre := take i w) in *.
  assert (length pre = i) as Hp by (subst pre; rewrite length_take; lia).
  assert (length (drop i w) = (length w - i)%nat) as Hd by apply length_drop.
  destruct (drop i w) as [|w0 [|w1 [|w2 [|w3 t]]]] eqn:Ed; cbn [length] in Hd; try lia.
  exists w0, w1, w2, w3, ((word32 <$> t) ++ rest).
  apply Forall_app in F as [_ F]. rewrite !Forall_cons in F. destruct F as (?&?&?&?&_).
  split; [rewrite !Forall_cons; split_and!; try done; constructor|]. split.
  - unfold key_at. rewrite fmap_app, <- app_assoc, drop_app_length'; [reflexivity|by rewrite length_fmap].
  - intros c Hc. rewrite app_nth2 by lia. rewrite Hp. replace (i + c - i)%nat with c by lia.
    destruct c as [|[|[|[|]]]]; try lia; reflexivity.
Qed.

Lemma AddRoundKey_ok b key w round : is_block b -> schedule_ok key w -> (4 * round + 4 <= length w)%nat ->
  aes_AddRoundKey (transpose b) (key_at key (4 * round)) = transpose (AddRoundKey w round b).
Proof.
  intros H Hs Hl. destruct (schedule_words _ _ _ Hs Hl) as (w0&w1&w2&w3&rest&F&->&Hn).
  unfold AddRoundKey, by_state. cbn [fmap list_fmap seq].
  cbv [Nat.modulo Nat.divmod Nat.div fst snd Nat.sub]. rewrite !Hn by lia. cbn [nth].
  rewrite !Forall_cons in F. destruct F as (F0&F1&F2&F3&_).
  sixteen H. step_eq.
  rewrite <- !(subkey_ok w0), <- !(subkey_ok w1), <- !(subkey_ok w2), <- !(subkey_ok w3) by (done || lia).
  reflexivity.
Qed.

(** ** Blocks stay blocks *)

Lemma by_state_block f : (forall r c, (r < 4)%nat -> (c < 4)%nat -> is_byte (f r c)) -> is_block (by_state f).
Proof.
  intros H. split; [reflexivity|]. unfold by_state. apply Forall_fmap, Forall_seq. intros i Hi. cbv beta.
  apply (H (i mod 4)%nat (i / 4)%nat); [apply Nat.mod_upper_bound; lia|]. apply Nat.Div0.div_lt_upper_bound; lia.
Qed.
Lemma st_byte b r c : is_block b -> (r < 4)%nat -> (c < 4)%nat -> is_byte (st b r c).
Proof.
  intros [L F] Hr Hc. unfold st. rewrite Forall_forall in F. apply F, list_elem_of_In, nth_In. lia.
Qed.
Lemma small_gmul_byte a b : In a [1; 2; 3] -> is_byte b -> is_byte (gmul a b).
Proof.
  intros Ha Hb.
  pose proof (all_bytes_spec (fun b => forallb (fun a => (0 <=? gmul a b) && (gmul a b <? 256)) [1; 2; 3]) b
    ltac:(vm_compute; reflexivity) Hb) as E.
  cbv beta in E. rewrite forallb_forall in E. specialize (E a Ha). unfold is_byte. lia.
Qed.
Lemma xor_all_byte l : Forall is_byte l -> is_byte (xor_all l).
Proof. induction 1; cbn; [unfold is_byte; lia|by apply lxor_byte]. Qed.

Lemma SubBytes_block b : is_block b -> is_block (SubBytes b).
Proof.
  intros H. apply by_state_block. intros. rewrite <- sbox_ok by by apply st_byte. by apply sbox_byte, st_byte.
Qed.
Lemma ShiftRows_block b : is_block b -> is_block (ShiftRows b).
Proof. intros H. apply by_state_block. intros. apply st_byte; [done|done|]. apply Nat.mod_upper_bound. lia. Qed.
Lemma MixColumns_block b : is_block b -> is_block (MixColumns b).
Proof.
  intros H. apply by_state_block. intros. apply xor_all_byte, Forall_fmap, Forall_seq. intros k Hk.
  apply small_gmul_byte; [|apply st_byte; [done|lia|done]]. unfold mix_coefficient.
  pose proof (Nat.mod_upper_bound (k + 4 - r) 4 ltac:(lia)).
  destruct ((k + 4 - r) mod 4)%nat as [|[|[|[|]]]]; cbn; try lia; tauto.
Qed.
Lemma nth_word_byte w r : is_word w -> (r < 4)%nat -> is_byte (nth r w 0).
Proof. intros [L F] Hr. rewrite Forall_forall in F. apply F, list_elem_of_In, nth_In. lia. Qed.
Lemma AddRoundKey_block w round b : is_block b -> Forall is_word w -> (4 * round + 4 <= length w)%nat ->
  is_block (AddRoundKey w round b).
Proof.
  intros H F Hl. apply by_state_block. intros. apply lxor_byte; [by apply st_byte|]. apply nth_word_byte; [|done].
  rewrite Forall_forall in F. apply F, list_elem_of_In, nth_In. lia.
Qed.
#[export] Hint Resolve SubBytes_block ShiftRows_block MixColumns_block AddRoundKey_block : aes.

(** ** A whole run of rounds *)

Section Rounds.
Context (key : list Z) (w : list bytes) (Hs : schedule_ok key w).

Lemma Round_ok b round : is_block b -> (4 * round + 4 <= length w)%nat ->
  enc_round key (transpose b) (4 * round) = transpose (Round w b round) /\ is_block (Round w b round).
Proof using Hs.
  intros H Hl. unfold enc_round, Round. rewrite SubBytes_ok, ShiftRows_ok, MixColumns_ok by auto with aes.
  split; [apply AddRoundKey_ok; auto with aes|]. apply AddRoundKey_block; auto with aes. apply Hs.
Qed.
Lemma Rounds_ok n : forall first b, is_block b -> (4 * (first + n) <= length w)%nat ->
  foldl (enc_round key) (transpose b) ((fun i => 4 * i)%nat <$> seq first n) =
    transpose (foldl (Round w) b (seq first n)) /\ is_block (foldl (Round w) b (seq first n)).
Proof using Hs.
  induction n as [|n IH]; intros first b H Hl; [done|]. cbn [seq fmap list_fmap foldl].
  destruct (Round_ok b first H ltac:(lia)) as [-> Hb]. apply IH; [done|lia].
Qed.
Lemma last_ok b round : is_block b -> (4 * round + 4 <= length w)%nat ->
  enc_last key (transpose b) (4 * round) = transpose (AddRoundKey w round (ShiftRows (SubBytes b))).
Proof using Hs.
  intros H Hl. unfold enc_last. rewrite SubBytes_ok, ShiftRows_ok by auto with aes.
  apply AddRoundKey_ok; auto with aes.
Qed.
End Rounds.

(** ** The key schedule *)

Lemma word_cases w : is_word w -> exists a b c d, w = [a; b; c; d] /\ is_byte a /\ is_byte b /\ is_byte c /\ is_byte d.
Proof.
  intros [L F]. destruct w as [|a [|b [|c [|d [|]]]]]; try discriminate L.
  rewrite !Forall_cons in F. destruct F as (?&?&?&?&_). by exists a, b, c, d.
Qed.

Lemma testbit_shift z c k n : 0 <= k -> 0 <= n -> 0 <= c < 2 ^ k ->
  Z.testbit (2 ^ k * z + c) n = if n <? k then Z.testbit c n else Z.testbit z (n - k).
Proof.
  intros Hk Hn Hc. destruct (n <? k) eqn:E; zbool.
  - rewrite <- (Z.mod_pow2_bits_low (2 ^ k * z + c) k n) by lia.
    rewrite Z.add_comm, Z.mul_comm, Z_mod_plus_full, Z.mod_small by lia. reflexivity.
  - replace (Z.testbit (2 ^ k * z + c) n) with (Z.testbit ((2 ^ k * z + c) / 2 ^ k) (n - k)).
    + f_equal. rewrite Z.mul_comm, Z.div_add_l, Z.div_small by lia. lia.
    + rewrite Z.div_pow2_bits by lia. f_equal. lia.
Qed.
Lemma lxor_shift x y a b k : 0 <= k -> 0 <= a < 2 ^ k -> 0 <= b < 2 ^ k ->
  Z.lxor (2 ^ k * x + a) (2 ^ k * y + b) = 2 ^ k * Z.lxor x y + Z.lxor a b.
Proof.
  intros Hk Ha Hb. pose proof (lxor_bound k a b Hk Ha Hb) as Hab. apply Z.bits_inj'. intros n Hn.
  rewrite Z.lxor_spec, !testbit_shift by done. destruct (n <? k); by rewrite Z.lxor_spec.
Qed.

Lemma word32_4 a b c d : word32 [a; b; c; d] = 2 ^ 8 * (2 ^ 8 * (2 ^ 8 * a + b) + c) + d.
Proof. unfold word32, Gcm.of_bytes. cbn [foldl]. lia. Qed.
Lemma word32_range w : is_word w -> 0 <= word32 w < 2 ^ 32.
Proof. intros H. destruct (word_cases w H) as (a&b&c&d&->&?&?&?&?). rewrite word32_4. unfold is_byte in *. lia. Qed.

Lemma xor_word_ok u v : is_word u -> is_word v ->
  word32 (xor_bytes u v) = Z.lxor (word32 u) (word32 v) /\ is_word (xor_bytes u v).
Proof.
  intros Hu Hv. destruct (word_cases u Hu) as (a&b&c&d&->&?&?&?&?), (word_cases v Hv) as (a'&b'&c'&d'&->&?&?&?&?).
  split.
  - cbn [xor_bytes zip_with]. unfold xor_bytes. cbn [zip_with]. rewrite !word32_4. unfold is_byte in *.
    rewrite !lxor_shift by lia. reflexivity.
  - split; [done|]. unfold xor_bytes. cbn [zip_with]. repeat (apply Forall_cons; split); [..|constructor];
      by apply lxor_byte.
Qed.

Lemma nibbles w i b : 0 <= i -> Z.shiftr w i mod 256 = b ->
  Z.land (Z.shiftr w (i + 4)) 15 = Z.shiftr b 4 /\ Z.land (Z.shiftr w i) 15 = Z.land b 15.
Proof.
  intros Hi <-. change 15 with (Z.ones 4). rewrite !Z.land_ones by lia. rewrite <- Z.shiftr_shiftr by lia.
  set (x := Z.shiftr w i). rewrite !Z.shiftr_div_pow2 by lia. change (2 ^ 4) with 16.
  split; Z.to_euclidean_division_equations; lia.
Qed.
Lemma SubWord_ok w : is_word w -> aes_SubWord (word32 w) = word32 (SubWord w) /\ is_word (SubWord w).
Proof.
  intros H. destruct (word_cases w H) as (a&b&c&d&->&Ha&Hb&Hc&Hd).
  pose proof (sbox_byte a Ha). pose proof (sbox_byte b Hb). pose proof (sbox_byte c Hc). pose proof (sbox_byte d Hd).
  unfold SubWord. cbn [fmap list_fmap]. rewrite <- !sbox_ok by done.
  split; [|by split; [done|repeat (apply Forall_cons; split); [..|constructor]]].
  rewrite word32_4. unfold aes_SubWord. rewrite word32_4. set (W := 2 ^ 8 * _ + d).
  unfold is_byte in *.
  destruct (nibbles W 0 d) as [-> ->]; [lia|subst W; rewrite Z.shiftr_div_pow2 by lia; Z.to_euclidean_division_equations; lia|].
  destruct (nibbles W 8 c) as [-> ->]; [lia|subst W; rewrite Z.shiftr_div_pow2 by lia; Z.to_euclidean_division_equations; lia|].
  destruct (nibbles W 16 b) as [-> ->]; [lia|subst W; rewrite Z.shiftr_div_pow2 by lia; Z.to_euclidean_division_equations; lia|].
  destruct (nibbles W 24 a) as [-> ->]; [lia|subst W; rewrite Z.shiftr_div_pow2 by lia; Z.to_euclidean_division_equations; lia|].
  unfold aes_sub in *. rewrite !Z.shiftl_mul_pow2 by lia. rewrite u32_small; lia.
Qed.
Lemma RotWord_ok w : is_word w -> KE_ROTWORD (word32 w) = word32 (RotWord w) /\ is_word (RotWord w).
Proof.
  intros H. destruct (word_cases w H) as (a&b&c&d&->&Ha&Hb&Hc&Hd). unfold RotWord. cbn [drop take app].
  split; [|by split; [done|repeat (apply Forall_cons; split); [..|constructor]]].
  unfold KE_ROTWORD. rewrite !word32_4. unfold is_byte in *.
  rewrite Z.shiftl_mul_pow2, Z.shiftr_div_pow2 by lia.
  replace (u32 _) with (Z.shiftl (2 ^ 16 * b + 2 ^ 8 * c + d) 8)
    by (rewrite Z.shiftl_mul_pow2 by lia; unfold u32; Z.to_euclidean_division_equations; lia).
  replace (_ / 2 ^ 24) with a by (Z.to_euclidean_division_equations; lia).
  rewrite lor_shiftl_add by lia. lia.
Qed.
Lemma Rcon_ok i : (i < 15)%nat -> Rcon !! i = Some (word32 (RCON (i + 1))) /\ is_word (RCON (i + 1)).
Proof.
  intros Hi. do 15 (destruct i as [|i];
    [split; [reflexivity|split; [reflexivity|]; vm_compute; repeat (apply Forall_cons; split); [..|constructor]; by split]|]).
  lia.
Qed.

(** The array of the code while the schedule [w] is being written. *)
Definition sched_array (w : list bytes) : list Z := (word32 <$> w) ++ replicate (60 - length w) 0.

Lemma sched_lookup w i : Forall is_word w -> (i < length w)%nat ->
  sched_array w !! i = Some (word32 (nth i w [])) /\ is_word (nth i w []).
Proof.
  intros F Hi. unfold sched_array. rewrite lookup_app_l by by rewrite length_fmap.
  destruct (lookup_lt_is_Some_2 w i Hi) as [x Hx].
  rewrite list_lookup_fmap, Hx, (nth_lookup_Some _ _ _ _ Hx). split; [done|]. eapply Forall_lookup_1; eauto.
Qed.
Lemma sched_push w v : (length w < 60)%nat -> <[length w := word32 v]> (sched_array w) = sched_array (w ++ [v]).
Proof.
  intros Hl. unfold sched_array. rewrite fmap_app, length_app, <- app_assoc. cbn [length].
  rewrite insert_app_r_alt by (rewrite length_fmap; lia). rewrite length_fmap, Nat.sub_diag.
  destruct (60 - length w)%nat as [|k] eqn:E; [lia|]. cbn [replicate app fmap list_fmap].
  replace (60 - (length w + 1))%nat with k by lia. reflexivity.
Qed.

Lemma next_word_ok Nk w : Forall is_word w -> (0 < Nk <= length w)%nat -> ((length w - 1) / Nk < 15)%nat ->
  (temp ← sched_array w !! (length w - 1)%nat;
   temp ← (if (length w mod Nk =? 0)%nat then
             r ← Rcon !! ((length w - 1) / Nk)%nat;
             Some (Z.lxor (aes_SubWord (KE_ROTWORD temp)) r)
           else if (6 <? Nk)%nat && (length w mod Nk =? 4)%nat then Some (aes_SubWord temp)
           else Some temp);
   back ← sched_array w !! (length w - Nk)%nat;
   Some (Z.lxor back temp)) = Some (word32 (next_word Nk w)) /\ is_word (next_word Nk w).
Proof.
  intros F HN Hr. unfold next_word.
  destruct (sched_lookup w (length w - 1) F ltac:(lia)) as [-> Ht].
  destruct (sched_lookup w (length w - Nk) F ltac:(lia)) as [-> Hb].
  set (temp := nth (length w - 1) w []) in *. set (back := nth (length w - Nk) w []) in *. cbn [mbind option_bind].
  destruct (length w mod Nk =? 0)%nat eqn:E0.
  - apply Nat.eqb_eq in E0. destruct (Rcon_ok _ Hr) as [-> Hc]. cbn [mbind option_bind].
    assert ((length w - 1) / Nk + 1 = length w / Nk)%nat as Hq.
    { pose proof (Nat.div_mod (length w) Nk ltac:(lia)) as D. rewrite E0, Nat.add_0_r in D.
      assert (0 < length w / Nk)%nat by (apply Nat.div_str_pos; lia).
      rewrite <- (Nat.div_unique (length w - 1) Nk (length w / Nk - 1) (Nk - 1)); nia. }
    rewrite Hq in *. destruct (RotWord_ok _ Ht) as [-> Hrot]. destruct (SubWord_ok _ Hrot) as [-> Hsub].
    destruct (xor_word_ok _ _ Hsub Hc) as [Ex Hx]. rewrite <- Ex.
    destruct (xor_word_ok _ _ Hb Hx) as [Ey Hy]. rewrite <- Ey. done.
  - destruct (_ && _); cbn [mbind option_bind].
    + destruct (SubWord_ok _ Ht) as [-> Hsub]. destruct (xor_word_ok _ _ Hb Hsub) as [Ey Hy]. rewrite <- Ey. done.
    + destruct (xor_word_ok _ _ Hb Ht) as [Ey Hy]. rewrite <- Ey. done.
Qed.

Lemma expand_words_ok Nk n : forall w, Forall is_word w -> (0 < Nk <= length w)%nat -> (length w + n <= 60)%nat ->
  (length w + n <= 15 * Nk)%nat ->
  expand_words n (length w) Nk (sched_array w) = Some (sched_array (extend n Nk w)) /\
  Forall is_word (extend n Nk w) /\ length (extend n Nk w) = (length w + n)%nat.
Proof.
  induction n as [|n IH]; intros w F HN Hl Hk; [by rewrite Nat.add_0_r|].
  assert ((length w - 1) / Nk < 15)%nat as Hr by (apply Nat.Div0.div_lt_upper_bound; lia).
  destruct (next_word_ok Nk w F HN Hr) as [E Hw]. cbn [expand_words extend].
  destruct (sched_array w !! (length w - 1)%nat) as [t|]; [|discriminate E]. cbn [mbind option_bind] in E |- *.
  match type of E with context [if ?c then _ else _] =>
    match type of E with (?t' ≫= _) = _ => destruct t' as [v|] eqn:Ev; [|discriminate E] end end.
  cbn [mbind option_bind] in E |- *.
  destruct (sched_array w !! (length w - Nk)%nat) as [bk|]; [|discriminate E]. cbn [mbind option_bind] in E |- *.
  injection E as ->. rewrite sched_push by lia.
  destruct (IH (w ++ [next_word Nk w])) as (IH1&IH2&IH3).
  - apply Forall_app; split; [done|]. by apply Forall_singleton.
  - rewrite length_app. cbn. lia.
  - rewrite length_app. cbn. lia.
  - rewrite length_app. cbn. lia.
  - rewrite length_app in IH1, IH3. cbn [length] in *. replace (length w + 1)%nat with (S (length w)) in * by lia.
    rewrite IH1, IH3. split_and!; [done|done|lia].
Qed.

(** The words of the key itself. *)
Lemma word_at_ok key i : Forall is_byte key -> (4 * i + 4 <= length key)%nat ->
  word_at key i = Some (word32 (take 4 (drop (4 * i) key))) /\ is_word (take 4 (drop (4 * i) key)).
Proof.
  intros F Hl. rewrite <- (take_drop (4 * i) key) in F. apply Forall_app in F as [_ F].
  assert (forall j, key !! (4 * i + j)%nat = drop (4 * i) key !! j) as Hd by (intros; by rewrite lookup_drop).
  pose proof (length_drop key (4 * i)) as Hlen. unfold word_at.
  rewrite <- (Nat.add_0_r (4 * i)) at 1. rewrite !Hd.
  destruct (drop (4 * i) key) as [|a [|b [|c [|d t]]]]; cbn [length] in Hlen; try lia.
  rewrite !Forall_cons in F. destruct F as (Ha&Hb&Hc&Hd'&_). cbn [lookup list_lookup mbind option_bind take].
  split; [|by split; [done|repeat (apply Forall_cons; split); [..|constructor]]].
  f_equal. rewrite word32_4. unfold is_byte in *. rewrite <- !Z.lor_assoc.
  rewrite (lor_shiftl_add c d 8) by lia. rewrite (lor_shiftl_add b (c * 2 ^ 8 + d) 16) by lia.
  rewrite lor_shiftl_add by lia. lia.
Qed.
Lemma load_words_ok key n : forall idx w, length w = idx -> Forall is_word w -> Forall is_byte key ->
  (4 * (idx + n) <= length key)%nat -> (idx + n <= 60)%nat ->
  load_words n idx key (sched_array w) =
    Some (sched_array (w ++ ((fun i => take 4 (drop (4 * i) key)) <$> seq idx n))) /\
  Forall is_word (w ++ ((fun i => take 4 (drop (4 * i) key)) <$> seq idx n)).
Proof.
  induction n as [|n IH]; intros idx w Hw F Fk Hl H60; cbn [load_words seq fmap list_fmap]; [by rewrite app_nil_r|].
  destruct (word_at_ok key idx Fk ltac:(lia)) as [-> Hx]. cbn [mbind option_bind].
  rewrite <- Hw at 2. rewrite sched_push by lia.
  destruct (IH (S idx) (w ++ [take 4 (drop (4 * idx) key)])) as [-> IH2].
  - rewrite length_app. cbn. lia.
  - apply Forall_app. split; [done|by apply Forall_singleton].
  - done.
  - lia.
  - lia.
  - rewrite <- app_assoc in IH2 |- *. done.
Qed.

(** ** The cipher *)

Definition valid_key (key : bytes) : Prop :=
  (length key = 16 \/ length key = 24 \/ length key = 32)%nat /\ Forall is_byte key.
(** A context that holds the schedule of [key]. *)
Record keyed (key : bytes) (ctx : tls_aes_context) : Prop := {
  keyed_size : aes_keysize ctx = 8 * Z.of_nat (length key);
  keyed_words : round_keys ctx = sched_array (KeyExpansion key)
}.

Lemma schedule_built key : valid_key key -> exists Nr Nk,
  key_rounds (8 * Z.of_nat (length key)) = Some (Nr, Nk) /\
  (w ← load_words Nk 0 key (replicate 60 0); expand_words (4 * (Nr + 1) - Nk) Nk Nk w) =
    Some (sched_array (KeyExpansion key)) /\
  Forall is_word (KeyExpansion key) /\ length (KeyExpansion key) = (4 * (rounds key + 1))%nat.
Proof.
  intros [Hl F]. exists (rounds key), (length key / 4)%nat.
  assert (4 * (length key / 4) = length key)%nat as H4 by (destruct Hl as [->|[->| ->]]; reflexivity).
  assert (4 <= length key / 4 <= 8)%nat as Hb by (destruct Hl as [->|[->| ->]]; cbn; lia).
  split; [unfold rounds; destruct Hl as [->|[->| ->]]; reflexivity|].
  destruct (load_words_ok key (length key / 4) 0 [] eq_refl ltac:(constructor) F ltac:(lia) ltac:(lia)) as [E Fw].
  change (sched_array []) with (replicate 60 0) in E. rewrite E. cbn [mbind option_bind app] in E, Fw |- *.
  assert (length (key_words key) = (length key / 4)%nat) as Hk by (unfold key_words; by rewrite length_fmap, length_seq).
  destruct (expand_words_ok (length key / 4) (4 * (rounds key + 1) - length key / 4) (key_words key) Fw
    ltac:(lia) ltac:(unfold rounds; lia) ltac:(unfold rounds; lia)) as (E1&E2&E3).
  rewrite Hk in E1, E3. split; [exact E1|]. split; [exact E2|]. unfold KeyExpansion. rewrite E3. unfold rounds. lia.
Qed.

Lemma keyed_schedule key ctx : valid_key key -> keyed key ctx ->
  schedule_ok (round_keys ctx) (KeyExpansion key) /\ length (KeyExpansion key) = (4 * (rounds key + 1))%nat.
Proof.
  intros Hv Hk. destruct (schedule_built key Hv) as (?&?&_&_&F&L). split; [|done]. split; [done|].
  rewrite (keyed_words _ _ Hk). unfold sched_array. by eexists.
Qed.

(** The rounds of the code, for each size of key. *)
Lemma encrypt_state_rounds key ks state : (length key = 16 \/ length key = 24 \/ length key = 32)%nat ->
  encrypt_state (8 * Z.of_nat (length key)) ks state =
  enc_last ks (foldl (enc_round ks) (aes_AddRoundKey state (key_at ks (4 * 0)))
    ((fun i => 4 * i)%nat <$> seq 1 (rounds key - 1))) (4 * rounds key).
Proof. intros Hl. unfold rounds. destruct Hl as [->|[->| ->]]; reflexivity. Qed.

Lemma encrypt_block_ok key ctx b : valid_key key -> keyed key ctx -> is_block b ->
  aes_encrypt_block b ctx = Cipher key b /\ is_block (Cipher key b).
Proof.
  intros Hv Hk Hb. destruct (keyed_schedule key ctx Hv Hk) as [Hs HL]. destruct Hv as [Hl F].
  assert (0 < rounds key)%nat by (unfold rounds; lia).
  unfold aes_encrypt_block. rewrite (keyed_size _ _ Hk), encrypt_state_rounds by done.
  rewrite (AddRoundKey_ok b _ _ 0 Hb Hs) by lia.
  assert (is_block (AddRoundKey (KeyExpansion key) 0 b)) as H0 by (apply AddRoundKey_block; [done|apply Hs|lia]).
  destruct (Rounds_ok _ _ Hs (rounds key - 1) 1 _ H0 ltac:(lia)) as [-> Hr].
  rewrite (last_ok _ _ Hs _ _ Hr) by lia.
  assert (is_block (Cipher key b)) as Hc by (apply AddRoundKey_block; [auto with aes|apply Hs|lia]).
  split; [|done]. apply transpose_twice, Hc.
Qed.

(** ** Decryption undoes encryption *)

Lemma xtime_linear a b : is_byte a -> is_byte b -> xtime (Z.lxor a b) = Z.lxor (xtime a) (xtime b).
Proof.
  intros Ha Hb. apply Z.eqb_eq.
  refine (all_bytes_spec (fun b => xtime (Z.lxor a b) =? Z.lxor (xtime a) (xtime b)) b _ Hb).
  refine (all_bytes_spec (fun a => all_bytes (fun b => xtime (Z.lxor a b) =? Z.lxor (xtime a) (xtime b))) a _ Ha).
  vm_compute. reflexivity.
Qed.
Lemma xtime_byte b : is_byte b -> is_byte (xtime b).
Proof.
  intros H. pose proof (all_bytes_spec (fun b => (0 <=? xtime b) && (xtime b <? 256)) b ltac:(vm_compute; reflexivity) H) as E.
  cbv beta in E. unfold is_byte. lia.
Qed.
Lemma iter_xtime i a b : is_byte a -> is_byte b ->
  Nat.iter i xtime (Z.lxor a b) = Z.lxor (Nat.iter i xtime a) (Nat.iter i xtime b) /\
  is_byte (Nat.iter i xtime a) /\ is_byte (Nat.iter i xtime b).
Proof.
  intros Ha Hb. induction i as [|i (IH&IHa&IHb)]; [done|]. rewrite !Nat.iter_succ, IH.
  split_and!; [by apply xtime_linear|by apply xtime_byte..].
Qed.
Lemma lxor_swap x y z t : Z.lxor (Z.lxor x y) (Z.lxor z t) = Z.lxor (Z.lxor x z) (Z.lxor y t).
Proof. apply Z.bits_inj'. intros. rewrite !Z.lxor_spec. ring. Qed.
Lemma gmul_linear c a b : is_byte a -> is_byte b -> gmul c (Z.lxor a b) = Z.lxor (gmul c a) (gmul c b).
Proof.
  intros Ha Hb. unfold gmul. induction (seq 0 8) as [|i l IH]; [done|]. cbn [fmap list_fmap xor_all foldr] in *.
  unfold xor_all in *. rewrite IH, lxor_swap. f_equal. destruct (Z.testbit c (Z.of_nat i)); [|done].
  by apply iter_xtime.
Qed.
Lemma gf_linear a b k : is_byte a -> is_byte b -> (k < 6)%nat ->
  gf (Z.lxor a b) (Z.of_nat k) = Z.lxor (gf a (Z.of_nat k)) (gf b (Z.of_nat k)).
Proof. intros Ha Hb Hk. rewrite !gf_ok by (done || by apply lxor_byte). by apply gmul_linear. Qed.
Lemma gf_byte b k : is_byte b -> (k < 6)%nat -> is_byte (gf b (Z.of_nat k)).
Proof.
  intros H Hk.
  pose proof (all_bytes_spec (fun b => forallb (fun k => (0 <=? gf b (Z.of_nat k)) && (gf b (Z.of_nat k) <? 256)) (seq 0 6)) b
    ltac:(vm_compute; reflexivity) H) as E.
  cbv beta in E. rewrite forallb_forall in E. specialize (E k). rewrite <- list_elem_of_In, elem_of_seq in E.
  specialize (E ltac:(lia)). unfold is_byte. lia.
Qed.

(** The product of the two matrices: factor [inv_mix r k] is a column of the
    table, [mix k v] too, or 1. *)
Definition mix (k v : nat) : option Z := nth ((v + 4 - k) mod 4) [Some 0; Some 1; None; None] None.
Definition inv_mix (r k : nat) : Z := nth ((k + 4 - r) mod 4) [5; 3; 4; 2] 0.
Definition mixed (k v : nat) (b : Z) : Z := if mix k v is Some j then gf b j else b.
Definition row_sum (r v : nat) (b : Z) : Z :=
  let t k := gf (mixed k v b) (inv_mix r k) in Z.lxor (Z.lxor (Z.lxor (t 0%nat) (t 1%nat)) (t 2%nat)) (t 3%nat).
Lemma mix_rows b r v : is_byte b -> (r < 4)%nat -> (v < 4)%nat -> row_sum r v b = if (r =? v)%nat then b else 0.
Proof.
  intros H Hr Hv. apply Z.eqb_eq.
  pose proof (all_bytes_spec (fun b => forallb (fun r => forallb (fun v => row_sum r v b =? if (r =? v)%nat then b else 0)
    (seq 0 4)) (seq 0 4)) b ltac:(vm_compute; reflexivity) H) as E. cbv beta in E.
  rewrite forallb_forall in E. specialize (E r). rewrite <- list_elem_of_In, elem_of_seq in E.
  specialize (E ltac:(lia)). rewrite forallb_forall in E. apply E. rewrite <- list_elem_of_In, elem_of_seq. lia.
Qed.

Lemma sum_rows a1 a2 a3 a4 b1 b2 b3 b4 c1 c2 c3 c4 d1 d2 d3 d4 :
  let x := Z.lxor in
  x (x (x (x (x (x a1 b1) c1) d1) (x (x (x a2 b2) c2) d2)) (x (x (x a3 b3) c3) d3)) (x (x (x a4 b4) c4) d4) =
  x (x (x (x (x (x a1 a2) a3) a4) (x (x (x b1 b2) b3) b4)) (x (x (x c1 c2) c3) c4)) (x (x (x d1 d2) d3) d4).
Proof. cbv zeta. apply Z.bits_inj'. intros. rewrite !Z.lxor_spec. ring. Qed.

Ltac byte := solve [repeat first [assumption | apply lxor_byte | apply (gf_byte _ 0); [|lia] | apply (gf_byte _ 1); [|lia]]].
Lemma inv_mix_mix a b c d : is_byte a -> is_byte b -> is_byte c -> is_byte d ->
  (let '(a', b', c', d') := mix_column a b c d in inv_mix_column a' b' c' d') = (a, b, c, d).
Proof.
  intros Ha Hb Hc Hd. unfold mix_column, inv_mix_column.
  rewrite !(gf_linear _ _ 5), !(gf_linear _ _ 3), !(gf_linear _ _ 4), !(gf_linear _ _ 2) by (byte || lia).
  assert (forall r x, (r < 4)%nat -> x = nth r [a; b; c; d] 0 ->
    Z.lxor (Z.lxor (Z.lxor (row_sum r 0 a) (row_sum r 1 b)) (row_sum r 2 c)) (row_sum r 3 d) = x) as Hrow.
  { intros r x Hr ->. rewrite !mix_rows by (done || lia).
    destruct r as [|[|[|[|]]]]; cbn [Nat.eqb nth]; try lia; by rewrite ?Z.lxor_0_r, ?Z.lxor_0_l. }
  f_equal; [f_equal; [f_equal|]|]; rewrite sum_rows;
    [apply (Hrow 0%nat)|apply (Hrow 1%nat)|apply (Hrow 2%nat)|apply (Hrow 3%nat)]; (lia || reflexivity).
Qed.

Lemma InvSub_Sub s : Forall is_byte s -> aes_InvSubBytes (aes_SubBytes s) = s.
Proof.
  intros F. unfold aes_InvSubBytes, aes_SubBytes. rewrite <- list_fmap_compose. rewrite <- (list_fmap_id s) at 2.
  apply list_fmap_ext. intros i x Hx. cbn. apply invsbox_sbox. by eapply Forall_lookup_1 in F.
Qed.
Lemma InvShift_Shift s : length s = 16%nat -> aes_InvShiftRows (aes_ShiftRows s) = s.
Proof. intros L. do 16 (destruct s as [|? s]; [discriminate L|]). destruct s; [done|discriminate L]. Qed.
Lemma InvMix_Mix s : is_block s -> aes_InvMixColumns (aes_MixColumns s) = s.
Proof.
  intros H. sixteen H.
  pose proof (inv_mix_mix x x3 x7 x11 ltac:(done) ltac:(done) ltac:(done) ltac:(done)) as E0.
  pose proof (inv_mix_mix x0 x4 x8 x12 ltac:(done) ltac:(done) ltac:(done) ltac:(done)) as E1.
  pose proof (inv_mix_mix x1 x5 x9 x13 ltac:(done) ltac:(done) ltac:(done) ltac:(done)) as E2.
  pose proof (inv_mix_mix x2 x6 x10 x14 ltac:(done) ltac:(done) ltac:(done) ltac:(done)) as E3.
  unfold aes_InvMixColumns, aes_MixColumns, on_columns.
  destruct (mix_column x x3 x7 x11) as [[[? ?] ?] ?], (mix_column x0 x4 x8 x12) as [[[? ?] ?] ?],
    (mix_column x1 x5 x9 x13) as [[[? ?] ?] ?], (mix_column x2 x6 x10 x14) as [[[? ?] ?] ?].
  by rewrite E0, E1, E2, E3.
Qed.
Lemma Add_Add s w : length s = 16%nat -> aes_AddRoundKey (aes_AddRoundKey s w) w = s.
Proof.
  intros L. unfold aes_AddRoundKey. destruct w as [|w0 [|w1 [|w2 [|w3 w]]]]; [done..|].
  do 16 (destruct s as [|? s]; [discriminate L|]). destruct s; [|discriminate L]. cbn [zip_with].
  by rewrite !Z.lxor_assoc, !Z.lxor_nilpotent, !Z.lxor_0_r.
Qed.

(** The state of the code stays one. *)
Lemma sub_block s : is_block s -> is_block (aes_SubBytes s).
Proof.
  intros [L F]. unfold aes_SubBytes. split; [by rewrite length_fmap|]. apply Forall_fmap. eapply Forall_impl; [exact F|]. apply sbox_byte.
Qed.
Lemma shift_block s : is_block s -> is_block (aes_ShiftRows s).
Proof. intros H. sixteen H. split; [done|]. cbn. repeat (apply Forall_cons; split); done. Qed.
Lemma mix_block s : is_block s -> is_block (aes_MixColumns s).
Proof.
  intros H. sixteen H. split; [done|]. cbn -[gf Z.lxor]. repeat (apply Forall_cons; split); [byte..|constructor].
Qed.
Lemma subkey_byte w r : is_byte (subkey w r).
Proof. apply u8_range. Qed.
Lemma add_block s w : is_block s -> is_block (aes_AddRoundKey s w).
Proof.
  intros H. unfold aes_AddRoundKey. destruct w as [|w0 [|w1 [|w2 [|w3 w]]]]; [done..|].
  sixteen H. split; [done|]. cbn [zip_with]. repeat (apply Forall_cons; split); [apply lxor_byte; [done|apply subkey_byte]..|constructor].
Qed.
Lemma transpose_block b : is_block b -> is_block (transpose b).
Proof. intros H. sixteen H. split; [done|]. cbn. repeat (apply Forall_cons; split); done. Qed.
#[export] Hint Resolve sub_block shift_block mix_block add_block transpose_block : aes.

(** What encryption has done to the state when decryption takes over. *)
Definition half (s : bytes) : bytes := aes_ShiftRows (aes_SubBytes s).
Lemma half_undone s : is_block s -> aes_InvSubBytes (aes_InvShiftRows (half s)) = s.
Proof.
  intros H. unfold half. rewrite InvShift_Shift by apply (sub_block _ H). apply InvSub_Sub, H.
Qed.
Lemma enc_round_block ks s i : is_block s -> is_block (enc_round ks s i).
Proof. unfold enc_round. auto with aes. Qed.
Lemma enc_rounds_block ks l : forall s, is_block s -> is_block (foldl (enc_round ks) s l).
Proof. induction l as [|i l IH]; intros s H; [done|]. cbn. by apply IH, enc_round_block. Qed.
Lemma dec_enc_round ks s i : is_block s -> dec_round ks (half (enc_round ks s i)) i = half s.
Proof.
  intros H. unfold dec_round. rewrite half_undone by by apply enc_round_block. unfold enc_round.
  assert (is_block (half s)) as Hh by (unfold half; auto with aes).
  rewrite Add_Add by apply (mix_block _ Hh). exact (InvMix_Mix _ Hh).
Qed.
Lemma dec_enc_rounds ks l : forall s, is_block s ->
  foldl (dec_round ks) (half (foldl (enc_round ks) s l)) (reverse l) = half s.
Proof.
  induction l as [|i l IH] using rev_ind; intros s H; [done|].
  rewrite foldl_app, reverse_app. cbn [reverse rev_append app foldl].
  change (reverse [i]) with [i]. cbn [app foldl]. rewrite dec_enc_round by by apply enc_rounds_block. by apply IH.
Qed.

Lemma decrypt_state_rounds key ks state : (length key = 16 \/ length key = 24 \/ length key = 32)%nat ->
  decrypt_state (8 * Z.of_nat (length key)) ks state =
  dec_last ks (foldl (dec_round ks) (aes_AddRoundKey state (key_at ks (4 * rounds key)))
    (reverse ((fun i => 4 * i)%nat <$> seq 1 (rounds key - 1)))) 0.
Proof. intros Hl. unfold rounds. destruct Hl as [->|[->| ->]]; reflexivity. Qed.

Lemma decrypt_block_ok key ctx b : valid_key key -> keyed key ctx -> is_block b ->
  aes_decrypt_block (aes_encrypt_block b ctx) ctx = b.
Proof.
  intros Hv Hk Hb. unfold aes_decrypt_block, aes_encrypt_block.
  rewrite (keyed_size _ _ Hk), encrypt_state_rounds, decrypt_state_rounds by apply Hv.
  set (ks := round_keys ctx). set (s0 := aes_AddRoundKey (transpose b) (key_at ks (4 * 0))).
  assert (is_block s0) as H0 by (apply add_block; auto with aes).
  set (l := (fun i => 4 * i)%nat <$> seq 1 (rounds key - 1)).
  set (s := foldl (enc_round ks) s0 l). assert (is_block s) as Hs by by apply enc_rounds_block.
  unfold enc_last. change (aes_ShiftRows (aes_SubBytes s)) with (half s).
  assert (is_block (half s)) as Hh by (unfold half; auto with aes).
  rewrite transpose_twice by apply (add_block _ _ Hh). rewrite Add_Add by apply Hh.
  unfold s. rewrite dec_enc_rounds by done. unfold dec_last. rewrite half_undone by done.
  unfold s0. change (4 * 0)%nat with 0%nat. rewrite Add_Add by apply (transpose_block _ Hb).
  apply transpose_twice, Hb.
Qed.
