(* ===== verification/GcmField.v ===== *)
(** * The product in the field of 2^128 elements

    The assembly routine [gf128_mul], which works on bytes and takes the bits
    of its second argument, computes the product of SP 800-38D; the product is
    commutative. *)

From S2P Require Import Prelude MemState RingList TlsHash TlsKdf Rsa RsaCorrect Aes AesRef AesBlock.
Import Fips197 Gcm.

(** ** Bytes and integers *)

Lemma of_bytes_foldl v b : foldl (fun v x => 256 * v + x) v b = v * 256 ^ Z.of_nat (length b) + of_bytes b.
Proof.
  unfold of_bytes. revert v. induction b as [|x b IH]; intros v; [cbn; lia|]. cbn [foldl length].
  rewrite IH, (IH (256 * 0 + x)). rewrite Nat2Z.inj_succ, Z.pow_succ_r by lia. lia.
Qed.
Lemma of_bytes_cons x b : of_bytes (x :: b) = x * 256 ^ Z.of_nat (length b) + of_bytes b.
Proof. unfold of_bytes at 1. cbn [foldl]. rewrite of_bytes_foldl. lia. Qed.
Lemma of_bytes_range b : Forall is_byte b -> 0 <= of_bytes b < 256 ^ Z.of_nat (length b).
Proof.
  induction 1 as [|x b Hx F IH]; [cbn; lia|]. rewrite of_bytes_cons. cbn [length].
  rewrite Nat2Z.inj_succ, Z.pow_succ_r by lia. unfold is_byte in Hx. nia.
Qed.
Lemma pow_256 n : 256 ^ Z.of_nat n = 2 ^ (8 * Z.of_nat n).
Proof. rewrite Z.pow_mul_r by lia. reflexivity. Qed.

Lemma of_bytes_xor a : forall b, length a = length b -> Forall is_byte a -> Forall is_byte b ->
  of_bytes (xor_bytes a b) = Z.lxor (of_bytes a) (of_bytes b).
Proof.
  induction a as [|x a IH]; intros [|y b] L Fa Fb; try discriminate L; [done|].
  apply Forall_cons in Fa as [Hx Fa]. apply Forall_cons in Fb as [Hy Fb]. injection L as L.
  unfold xor_bytes in *. cbn [zip_with]. rewrite !of_bytes_cons, IH by done.
  pose proof (of_bytes_range a Fa) as Ra. pose proof (of_bytes_range b Fb) as Rb.
  rewrite length_zip_with, <- L in *. rewrite Nat.min_id. rewrite pow_256 in *.
  rewrite !(Z.mul_comm _ (2 ^ _)), lxor_shift by lia. lia.
Qed.
Lemma xor_bytes_ok a b : Forall is_byte a -> Forall is_byte b -> Forall is_byte (xor_bytes a b).
Proof.
  intros Fa. revert b. induction Fa as [|x a Hx Fa IH]; intros [|y b] Fb; try constructor; apply Forall_cons in Fb as [Hy Fb].
  - by apply lxor_byte.
  - by apply IH.
Qed.

Lemma to_bytes_of b : Forall is_byte b -> to_bytes (length b) (of_bytes b) = b.
Proof.
  intros F. unfold to_bytes. apply list_eq. intros i. rewrite list_lookup_fmap.
  destruct (decide (i < length b)%nat) as [Hi|Hi].
  2: { rewrite (proj2 (lookup_ge_None b i)) by lia. rewrite lookup_seq_ge by lia. done. }
  rewrite lookup_seq_lt by done. cbn. destruct (lookup_lt_is_Some_2 b i Hi) as [x Hx]. rewrite Hx. f_equal.
  rewrite <- (take_drop_middle b i x Hx) at 1. unfold of_bytes. rewrite foldl_app. cbn [foldl]. rewrite of_bytes_foldl.
  rewrite length_drop. replace (length b - S i)%nat with (length b - 1 - i)%nat by lia.
  assert (Forall is_byte (drop (S i) b)) as Fd by by apply Forall_drop.
  pose proof (of_bytes_range _ Fd) as R. rewrite length_drop in R. replace (length b - S i)%nat with (length b - 1 - i)%nat in R by lia.
  rewrite Z.div_add_l by lia. rewrite Z.div_small by lia.
  pose proof (Forall_lookup_1 _ _ _ _ F Hx) as Bx. unfold is_byte in Bx.
  rewrite Z.add_0_r. rewrite Z.mul_comm, Z.add_comm, Z_mod_plus_full, Z.mod_small by lia. done.
Qed.
Lemma of_to_bytes n v : 0 <= v < 256 ^ Z.of_nat n -> of_bytes (to_bytes n v) = v /\ Forall is_byte (to_bytes n v).
Proof.
  intros Hv. assert (forall n v, Forall is_byte (to_bytes n v)) as Hb.
  { intros. unfold to_bytes. apply Forall_fmap, Forall_true. intros. cbn. unfold is_byte. apply Z.mod_pos_bound. lia. }
  split; [|done]. revert v Hv. induction n as [|n IH]; intros v Hv; [cbn in *; lia|].
  assert (to_bytes (S n) v = v / 256 ^ Z.of_nat n mod 256 :: to_bytes n v) as E.
  { unfold to_bytes. cbn [seq fmap list_fmap]. rewrite Nat.sub_0_r. cbn [Nat.sub]. rewrite Nat.sub_0_r. f_equal.
    rewrite <- seq_shift, <- list_fmap_compose. apply list_fmap_ext. intros i x Hx. cbn. f_equal. f_equal. f_equal.
    apply lookup_seq in Hx. lia. }
  assert (to_bytes n v = to_bytes n (v mod 256 ^ Z.of_nat n)) as E2.
  { unfold to_bytes. apply list_fmap_ext. intros i x Hx. apply lookup_seq in Hx. cbn.
    set (k := (n - 1 - x)%nat). set (p := 256 ^ Z.of_nat k). set (q := 256 ^ Z.of_nat (n - k - 1)).
    assert (256 ^ Z.of_nat n = p * 256 * q) as ->.
    { subst p q. change 256 with (256 ^ Z.of_nat 1) at 3. rewrite <- !Z.pow_add_r by lia. f_equal. subst k. lia. }
    assert (0 < p) by (subst p; lia). assert (0 < q) by (subst q; lia).
    rewrite <- Z.mul_assoc, Z.rem_mul_r by lia. rewrite Z.add_comm, Z.mul_comm, Z.div_add_l by lia.
    rewrite (Z.div_small (v mod p)) by (apply Z.mod_pos_bound; lia). rewrite Z.add_0_r.
    rewrite Z.rem_mul_r by lia. rewrite (Z.mul_comm 256), Z_mod_plus_full, Z.mod_mod by lia. done. }
  rewrite E, of_bytes_cons, E2, IH by (apply Z.mod_pos_bound; lia).
  replace (length (to_bytes n _)) with n by (unfold to_bytes; by rewrite length_fmap, length_seq).
  rewrite Nat2Z.inj_succ, Z.pow_succ_r in Hv by lia. rewrite (Z.mod_small (v / _)).
  - rewrite Z.mul_comm. symmetry. apply Z.div_mod. lia.
  - split; [apply Z.div_pos; lia|]. apply Z.div_lt_upper_bound; lia.
Qed.

(** ** The routine *)

Lemma rr_ok l : Forall is_byte l -> forall c, c = 0 \/ c = 1 ->
  let V := c * 256 ^ Z.of_nat (length l) + of_bytes l in
  of_bytes (rr_bytes c l).1 = V / 2 /\ (rr_bytes c l).2 = V mod 2 /\
  Forall is_byte (rr_bytes c l).1 /\ length (rr_bytes c l).1 = length l.
Proof.
  induction 1 as [|b l Hb F IH]; intros c Hc; cbv zeta.
  { destruct Hc as [-> | ->]; cbn; split_and!; (reflexivity || constructor). }
  specialize (IH (b mod 2) ltac:(pose proof (Z.mod_pos_bound b 2); lia)). cbn [rr_bytes].
  destruct (rr_bytes (b mod 2) l) as [r c']. destruct IH as (E1&E2&E3&E4). cbn [fst snd] in *.
  rewrite !of_bytes_cons, E4. cbn [length]. rewrite Nat2Z.inj_succ, Z.pow_succ_r by lia.
  set (P := 256 ^ Z.of_nat (length l)) in *. unfold is_byte in *.
  replace (c * (256 * P) + (b * P + of_bytes l)) with
    (((b / 2 + 128 * c) * P) * 2 + (b mod 2 * P + of_bytes l)) by (pose proof (Z.div_mod b 2); nia).
  rewrite Z.div_add_l by lia. rewrite (Z.add_comm _ (b mod 2 * P + _)), Z_mod_plus_full.
  split_and!; [lia|done| |by rewrite E4]. apply Forall_cons. split; [|done].
  pose proof (Z.div_mod b 2). pose proof (Z.mod_pos_bound b 2). destruct Hc as [-> | ->]; lia.
Qed.

Lemma double_ok t : is_block t -> of_bytes (gf128_double t) = double (of_bytes t) /\ is_block (gf128_double t).
Proof.
  intros [L F]. pose proof (rr_ok t F 0 (or_introl eq_refl)) as H. cbv zeta in H. unfold gf128_double.
  destruct (rr_bytes 0 t) as [r c]. cbn [fst snd] in H. rewrite Z.mul_0_l, Z.add_0_l in H.
  destruct H as (E1&E2&F'&L'). rewrite L in L'. destruct r as [|x r]; [discriminate L'|]. injection L' as L'.
  apply Forall_cons in F' as [Hx F']. unfold double. rewrite <- E1. clear E1.
  replace (Z.even (of_bytes t)) with (c =? 0) by (rewrite E2, Zmod_even; by destruct (Z.even _)).
  assert (c = 0 \/ c = 1) as [-> | ->] by (pose proof (Z.mod_pos_bound (of_bytes t) 2); lia); cbn [Z.eqb Pos.eqb].
  - split; [done|]. split; [cbn; by rewrite L'|by apply Forall_cons].
  - split; [|split; [cbn; by rewrite L'|apply Forall_cons; split; [apply lxor_byte; [done|unfold is_byte; lia]|done]]].
    rewrite !of_bytes_cons, L'. pose proof (of_bytes_range r F') as R'. rewrite L' in R'.
    change (256 ^ Z.of_nat 15) with (2 ^ 120) in *. unfold R. rewrite Z.shiftl_mul_pow2 by lia.
    rewrite <- (Z.add_0_r (0xE1 * 2 ^ 120)), !(Z.mul_comm _ (2 ^ 120)), lxor_shift, Z.lxor_0_r by lia. done.
Qed.

(** The sum of the doublings the bits select. *)
Fixpoint selected (bits : list bool) (V : Z) : Z :=
  match bits with [] => 0 | b :: bits' => Z.lxor (if b then V else 0) (selected bits' (double V)) end.

Lemma xor_block a b : is_block a -> is_block b -> is_block (xor_bytes a b).
Proof. intros [La Fa] [Lb Fb]. split; [unfold xor_bytes; rewrite length_zip_with; lia|by apply xor_bytes_ok]. Qed.
Lemma gf128_loop_ok bits : forall t out, is_block t -> is_block out ->
  of_bytes (gf128_loop bits t out) = Z.lxor (of_bytes out) (selected bits (of_bytes t)) /\
  is_block (gf128_loop bits t out).
Proof.
  induction bits as [|b bits IH]; intros t out Ht Ho; cbn [gf128_loop selected]; [by rewrite Z.lxor_0_r|].
  destruct (double_ok t Ht) as [Ed Hd].
  assert (is_block (if b then xor_bytes out t else out)) as Hb by (destruct b; [by apply xor_block|done]).
  destruct (IH _ _ Hd Hb) as [-> Hr]. split; [|done]. rewrite Ed. destruct b.
  - rewrite of_bytes_xor by (apply Ht || apply Ho || (destruct Ht, Ho; congruence)). by rewrite Z.lxor_assoc.
  - by rewrite Z.lxor_0_l.
Qed.

Definition bits_of (n : nat) (X : Z) : list bool :=
  (fun i => Z.testbit X (Z.of_nat n - 1 - Z.of_nat i)) <$> seq 0 n.
Lemma byte_bits_ok l : Forall is_byte l -> concat (byte_bits <$> l) = bits_of (8 * length l) (of_bytes l).
Proof.
  induction 1 as [|x l Hx F IH]; [done|]. rewrite fmap_cons. cbn [concat]. rewrite IH.
  unfold bits_of. cbn [length]. replace (8 * S (length l))%nat with (8 + 8 * length l)%nat by lia.
  rewrite seq_app, fmap_app. pose proof (of_bytes_range l F) as R. rewrite pow_256 in R. rewrite of_bytes_cons, pow_256, Z.mul_comm.
  f_equal.
  - unfold byte_bits. cbn [seq fmap list_fmap].
    rewrite !testbit_shift by lia. repeat (rewrite (proj2 (Z.ltb_ge _ _)) by lia).
    repeat (apply f_equal2; [f_equal; lia|]). reflexivity.
  - change (seq (0 + 8) ?m) with (seq (8 + 0) m). rewrite <- (fmap_add_seq 8 0), <- list_fmap_compose.
    apply list_fmap_ext. intros i k Hk. apply lookup_seq in Hk as [-> Hk]. cbn [compose Nat.add].
    rewrite testbit_shift by lia. rewrite (proj2 (Z.ltb_lt _ _)) by lia. f_equal. lia.
Qed.

Lemma selected_seq (f : nat -> bool) n : forall s Y, selected (f <$> seq s n) (Nat.iter s double Y) =
  xor_all ((fun i => if f i then Nat.iter i double Y else 0) <$> seq s n).
Proof.
  induction n as [|n IH]; intros s Y; [done|]. cbn [seq fmap list_fmap selected xor_all foldr].
  unfold xor_all in IH. rewrite <- IH. rewrite Nat.iter_succ. done.
Qed.
Lemma product_selected X Y : product X Y = selected (bits_of 128 X) Y.
Proof. unfold product, bits_of. rewrite (selected_seq _ 128 0 Y). reflexivity. Qed.

Lemma zero_block : is_block (zeros 16) /\ of_bytes (zeros 16) = 0.
Proof. repeat split; try reflexivity. apply Forall_replicate. unfold is_byte. lia. Qed.
Lemma gf128_mul_product a b : is_block a -> is_block b ->
  of_bytes (gf128_mul a b) = product (of_bytes b) (of_bytes a) /\ is_block (gf128_mul a b).
Proof.
  intros Ha Hb. unfold gf128_mul. rewrite byte_bits_ok by apply Hb. rewrite (proj1 Hb).
  destruct zero_block as [Hz Ez]. destruct (gf128_loop_ok (bits_of (8 * 16) (of_bytes b)) a _ Ha Hz) as [-> Hr].
  split; [|done]. by rewrite Ez, Z.lxor_0_l, product_selected.
Qed.

(** ** The product is commutative *)

Lemma double_linear a b : double (Z.lxor a b) = Z.lxor (double a) (double b).
Proof.
  unfold double. change 2 with (2 ^ 1) at 1 2 3 4 5 6. rewrite <- !Z.shiftr_div_pow2 by lia. rewrite Z.shiftr_lxor.
  rewrite <- !Z.negb_odd, <- !Z.bit0_odd, Z.lxor_spec.
  destruct (Z.testbit a 0), (Z.testbit b 0); cbn [xorb negb];
    apply Z.bits_inj'; intros; rewrite !Z.lxor_spec; ring.
Qed.
Lemma iter_linear i a b : Nat.iter i double (Z.lxor a b) = Z.lxor (Nat.iter i double a) (Nat.iter i double b).
Proof. induction i as [|i IH]; [done|]. by rewrite !Nat.iter_succ, IH, double_linear. Qed.
Lemma iter_zero i : Nat.iter i double 0 = 0.
Proof. induction i as [|i IH]; [done|]. by rewrite Nat.iter_succ, IH. Qed.
Lemma iter_xor_all i l : Nat.iter i double (xor_all l) = xor_all (Nat.iter i double <$> l).
Proof.
  induction l as [|x l IH]; [apply iter_zero|]. cbn [xor_all foldr fmap list_fmap] in *. unfold xor_all in *.
  by rewrite iter_linear, IH.
Qed.
Lemma xor_all_lxor {A} (f g : A -> Z) l :
  xor_all ((fun x => Z.lxor (f x) (g x)) <$> l) = Z.lxor (xor_all (f <$> l)) (xor_all (g <$> l)).
Proof.
  induction l as [|x l IH]; [done|]. cbn [xor_all foldr fmap list_fmap] in *. unfold xor_all in *.
  by rewrite IH, lxor_swap.
Qed.
Lemma xor_all_zero {A} (l : list A) : xor_all ((fun _ => 0) <$> l) = 0.
Proof. induction l as [|x l IH]; [done|]. exact IH. Qed.
Lemma xor_all_swap {A B} (f : A -> B -> Z) l k :
  xor_all ((fun x => xor_all (f x <$> k)) <$> l) = xor_all ((fun y => xor_all ((fun x => f x y) <$> l)) <$> k).
Proof.
  induction l as [|x l IH]; [symmetry; apply xor_all_zero|]. rewrite fmap_cons. cbn [xor_all foldr].
  change (foldr Z.lxor 0 ?m) with (xor_all m). rewrite IH, <- xor_all_lxor. reflexivity.
Qed.

(** The unit: its doublings are the single bits. *)
Definition one : Z := 2 ^ 127.
Lemma double_one j : (j <= 127)%nat -> Nat.iter j double one = 2 ^ (127 - Z.of_nat j).
Proof.
  induction j as [|j IH]; intros Hj; [done|]. rewrite Nat.iter_succ, IH by lia.
  replace (127 - Z.of_nat j) with (Z.succ (127 - Z.of_nat (S j))) by lia. rewrite Z.pow_succ_r by lia.
  unfold double. rewrite Z.even_mul. cbn [orb Z.even]. rewrite Z.mul_comm, Z.div_mul by lia. done.
Qed.
Lemma mod_bit Y n : 0 <= n -> Y mod 2 ^ (n + 1) =
  Z.lxor (if Z.testbit Y n then 2 ^ n else 0) (Y mod 2 ^ n).
Proof.
  intros Hn. rewrite Z.pow_add_r, Z.rem_mul_r by lia. change (2 ^ 1) with 2.
  pose proof (Z.mod_pos_bound Y (2 ^ n) ltac:(lia)) as Hr. rewrite <- Z.testbit_spec' by done.
  pose proof (lxor_shift (Z.b2z (Z.testbit Y n)) 0 0 (Y mod 2 ^ n) n Hn ltac:(lia) Hr) as E.
  rewrite !Z.lxor_0_l, Z.lxor_0_r, Z.mul_0_r, Z.add_0_r, Z.add_0_l in E.
  rewrite (Z.add_comm (Y mod 2 ^ n)), <- E. f_equal. destruct (Z.testbit Y n); cbn; lia.
Qed.
Lemma product_one Y : 0 <= Y < 2 ^ 128 -> product Y one = Y.
Proof.
  intros HY. assert (forall n, (n <= 128)%nat ->
    xor_all ((fun i => if Z.testbit Y (127 - Z.of_nat i) then Nat.iter i double one else 0) <$> seq (128 - n) n) =
    Y mod 2 ^ Z.of_nat n) as H.
  { induction n as [|n IH]; intros Hn; [cbn; by rewrite Z.mod_1_r|]. cbn [seq]. rewrite fmap_cons. cbn [xor_all foldr].
    change (foldr Z.lxor 0 ?m) with (xor_all m). replace (S (128 - S n)) with (128 - n)%nat by lia.
    rewrite IH by lia. rewrite Nat2Z.inj_succ, <- Z.add_1_r, mod_bit by lia. f_equal.
    rewrite double_one by lia. replace (127 - Z.of_nat (128 - S n)) with (Z.of_nat n) by lia. done. }
  specialize (H 128%nat ltac:(lia)). rewrite Nat.sub_diag, Z.mod_small in H by exact HY. exact H.
Qed.

Lemma product_comm X Y : 0 <= X < 2 ^ 128 -> 0 <= Y < 2 ^ 128 -> product X Y = product Y X.
Proof.
  intros HX HY.
  assert (forall X Y, 0 <= Y < 2 ^ 128 -> product X Y = xor_all ((fun i => xor_all ((fun j =>
    if Z.testbit X (127 - Z.of_nat i) && Z.testbit Y (127 - Z.of_nat j) then Nat.iter (i + j) double one else 0)
    <$> seq 0 128)) <$> seq 0 128)) as H.
  { clear. intros X Y HY. unfold product at 1. f_equal. apply list_fmap_ext. intros _ i _.
    destruct (Z.testbit X (127 - Z.of_nat i)); cbn [andb]; [|symmetry; apply xor_all_zero].
    rewrite <- (product_one Y HY) at 1. unfold product. rewrite iter_xor_all, <- list_fmap_compose.
    f_equal. apply list_fmap_ext. intros _ j _. cbn [compose]. destruct (Z.testbit Y _); [|apply iter_zero].
    symmetry. apply Nat.iter_add. }
  rewrite (H X Y HY), (H Y X HX), xor_all_swap. f_equal. apply list_fmap_ext. intros _ j _. f_equal.
  apply list_fmap_ext. intros _ i _. rewrite andb_comm, Nat.add_comm. done.
Qed.

Lemma block_range b : is_block b -> 0 <= of_bytes b < 2 ^ 128.
Proof. intros [L F]. pose proof (of_bytes_range b F) as H. rewrite L in H. exact H. Qed.
Lemma gf128_mul_ok a b : is_block a -> is_block b -> gf128_mul a b = mul_blocks a b /\ is_block (mul_blocks a b).
Proof.
  intros Ha Hb. destruct (gf128_mul_product a b Ha Hb) as [E Hr].
  assert (gf128_mul a b = mul_blocks a b) as Heq; [|by rewrite <- Heq].
  unfold mul_blocks. rewrite (product_comm (of_bytes a)) by by apply block_range. rewrite <- E.
  rewrite <- (proj1 Hr). symmetry. apply to_bytes_of, Hr.
Qed.

(** ** GHASH in pieces

    The queue of [ghash] makes the tag a function of the concatenation of what
    was fed to it: a context that has absorbed [m] holds the hash of the full
    blocks of [m] and queues the rest. *)

Definition fold_step (H Y X : bytes) : bytes := gf128_mul (xor_bytes Y X) H.
Definition block_list (bs : list bytes) : Prop := Forall (fun b => length b = 16%nat) bs.

Lemma length_concat_blocks bs : block_list bs -> length (concat bs) = (16 * length bs)%nat.
Proof. induction 1 as [|b bs Hb F IH]; [done|]. cbn [concat length]. rewrite length_app. lia. Qed.
Lemma split_blocks d : exists bs r, block_list bs /\ d = concat bs ++ r /\ (length r < 16)%nat.
Proof.
  remember (length d) as n eqn:En. revert d En. induction n as [n IH] using lt_wf_ind. intros d ->.
  destruct (decide (length d < 16)%nat) as [Hs|Hs]; [exists [], d; split_and!; [constructor|done|done]|].
  destruct (IH (length (drop 16 d)) ltac:(rewrite length_drop; lia) (drop 16 d) eq_refl) as (bs&r&F&E&Hr).
  exists (take 16 d :: bs), r. split_and!; [|by cbn; rewrite <- app_assoc, <- E, take_drop|done].
  apply Forall_cons. split; [rewrite length_take; lia|done].
Qed.
Lemma blocks_concat bs : block_list bs -> blocks (concat bs) = bs.
Proof.
  intros F. unfold blocks. rewrite length_concat_blocks by done.
  rewrite Nat.mul_comm, Nat.div_mul by lia. induction F as [|b bs Hb F IH]; [done|].
  cbn [length seq fmap list_fmap concat]. f_equal.
  - rewrite Nat.mul_0_r, drop_0, take_app_length'; done.
  - rewrite <- IH at 2. rewrite <- seq_shift, <- list_fmap_compose. apply list_fmap_ext. intros i x _. cbn [compose].
    rewrite Nat.mul_succ_r, Nat.add_comm, <- drop_drop, drop_app_length'; done.
Qed.

(** ** The loop *)

Definition with_cache (r : bytes) (ctx : tls_aes_context) : tls_aes_context :=
  match r with
  | [] => ctx
  | _ => set_aad_cache_len (Z.of_nat (length r)) (set_aad_cache (r ++ drop (length r) (aad_cache ctx)) ctx)
  end.

Lemma ghash_loop_ok bs : forall pre r post ctx Y fuel, block_list bs -> (length r < 16)%nat ->
  let len := Z.of_nat (length (pre ++ concat bs ++ r)) in
  len < 16777200 -> length (aad_cache ctx) = 16%nat -> (length bs + 1 < fuel)%nat ->
  ghash_loop fuel ctx Y (Some (pre ++ concat bs ++ r ++ post)) (Z.of_nat (length pre)) len =
  Some (with_cache r ctx, foldl (fold_step (ghash_key ctx)) Y bs).
Proof.
  induction bs as [|b bs IH]; intros pre r post ctx Y fuel F Hr len Hlen Hc Hf; subst len.
  - destruct fuel as [|fuel]; [lia|]. cbn [concat app foldl ghash_loop]. rewrite length_app in *. cbn [concat app] in Hlen.
    destruct r as [|x r]; [rewrite (proj2 (Z.leb_le _ _)) by (cbn [length]; lia); reflexivity|]. set (r' := x :: r) in *.
    assert (0 < length r')%nat by (subst r'; cbn; lia). ztest.
    rewrite Z.min_r by (unfold AES_BLOCK_SIZE; lia). replace (Z.of_nat (length pre + length r') - Z.of_nat (length pre))
      with (Z.of_nat (length r')) by lia. unfold AES_BLOCK_SIZE. ztest. unfold rd_off. cbn [mbind option_bind].
    rewrite rd_at_app. cbn [mbind option_bind]. rewrite store_front by lia. cbn [mbind option_bind].
    destruct fuel as [|fuel]; [cbn in Hf; lia|]. cbn [ghash_loop]. rewrite u24_small by lia. ztest. reflexivity.
  - apply Forall_cons in F as [Hb F]. destruct fuel as [|fuel]; [lia|]. cbn [concat foldl ghash_loop length] in *.
    rewrite <- !app_assoc in *. rewrite !length_app in *. pose proof (length_concat_blocks bs F).
    ztest. rewrite Z.min_l by (unfold AES_BLOCK_SIZE; lia). unfold AES_BLOCK_SIZE. cbn [Z.ltb Z.compare Pos.compare Pos.compare_cont].
    unfold rd_off. cbn [mbind option_bind]. pose proof (rd_at_app pre b (concat bs ++ r ++ post)) as E. rewrite Hb in E. change (Z.of_nat 16) with 16 in E. rewrite E. cbn [mbind option_bind].
    rewrite u24_small by lia. replace (Z.of_nat (length pre) + 16) with (Z.of_nat (length (pre ++ b))) by (rewrite length_app; lia).
    rewrite (app_assoc pre b). specialize (IH (pre ++ b) r post ctx (hash_block ctx b Y) fuel F Hr).
    cbv zeta in IH. rewrite !length_app in *. rewrite Nat.add_assoc in *. etransitivity; [|apply IH; (done || lia)].
    f_equal. lia.
Qed.

Lemma ghash_fuel_ok n k : (16 * n <= k)%nat -> (n + 1 < ghash_fuel (Z.of_nat k))%nat.
Proof.
  intros H. unfold ghash_fuel, AES_BLOCK_SIZE. assert (Z.of_nat n <= Z.of_nat k / 16) by (apply Z.div_le_lower_bound; lia). lia.
Qed.

(** ** A context that has absorbed a string *)

(** The fields that [ghash] changes when it works on the tag. *)
Definition with_hash (tag cache : bytes) (n : Z) (ctx : tls_aes_context) : tls_aes_context :=
  set_auth_tag tag (set_aad_cache_len n (set_aad_cache cache ctx)).
Lemma with_hash_id ctx : with_hash (auth_tag ctx) (aad_cache ctx) (aad_cache_len ctx) ctx = ctx.
Proof. by destruct ctx. Qed.
Lemma with_hash_twice t c n t' c' n' ctx : with_hash t' c' n' (with_hash t c n ctx) = with_hash t' c' n' ctx.
Proof. done. Qed.

(** The blocks [bs] are in the tag and [r] is queued. *)
Record queued (bs : list bytes) (r : bytes) (ctx : tls_aes_context) : Prop := {
  q_blocks : block_list bs;
  q_short : (length r < 16)%nat;
  q_array : length (aad_cache ctx) = 16%nat;
  q_tag : auth_tag ctx = foldl (fold_step (ghash_key ctx)) (zeros 16) bs;
  q_len : aad_cache_len ctx = Z.of_nat (length r);
  q_rest : take (length r) (aad_cache ctx) = r
}.
Definition hashed (m : bytes) (ctx : tls_aes_context) : Prop := exists bs r, m = concat bs ++ r /\ queued bs r ctx.

Lemma hashed_queue m ctx : hashed m ctx -> aad_cache_len ctx = Z.of_nat (length m mod 16)%nat.
Proof.
  intros (bs&r&->&[F Hr _ _ -> _]). rewrite length_app, length_concat_blocks by done. f_equal.
  rewrite Nat.add_comm, Nat.mul_comm, Nat.Div0.mod_add, Nat.mod_small; lia.
Qed.

(** More data, from an empty queue. *)
Lemma ghash_empty ctx Y d post : aad_cache_len ctx = 0 -> length (aad_cache ctx) = 16%nat ->
  Z.of_nat (length d) < 16777200 -> exists bs r, block_list bs /\ (length r < 16)%nat /\ d = concat bs ++ r /\
  ghash ctx Y (Some (d ++ post)) (Z.of_nat (length d)) =
    Some (with_cache r ctx, foldl (fold_step (ghash_key ctx)) Y bs).
Proof.
  intros H0 Hc Hl. destruct (split_blocks d) as (bs&r&F&->&Hr). exists bs, r. split_and!; [done..|].
  unfold ghash. rewrite H0. cbn [Z.eqb negb]. rewrite <- app_assoc.
  apply (ghash_loop_ok bs [] r post ctx Y); try done.
  apply ghash_fuel_ok. rewrite length_app, length_concat_blocks by done. lia.
Qed.

Lemma with_cache_take r ctx : (length r < 16)%nat -> length (aad_cache ctx) = 16%nat -> aad_cache_len ctx = 0 ->
  length (aad_cache (with_cache r ctx)) = 16%nat /\ aad_cache_len (with_cache r ctx) = Z.of_nat (length r) /\
  take (length r) (aad_cache (with_cache r ctx)) = r.
Proof.
  intros Hr Hc H0. destruct r as [|x r]; [done|]. set (r' := x :: r) in *.
  change (with_cache r' ctx) with (set_aad_cache_len (Z.of_nat (length r')) (set_aad_cache (r' ++ drop (length r') (aad_cache ctx)) ctx)).
  cbn [aad_cache aad_cache_len set_aad_cache_len set_aad_cache]. rewrite length_app, length_drop, take_app_length. split_and!; lia || done.
Qed.
Lemma with_cache_hash r tag ctx :
  set_auth_tag tag (with_cache r ctx) = with_hash tag (aad_cache (with_cache r ctx)) (aad_cache_len (with_cache r ctx)) ctx.
Proof. by destruct r, ctx. Qed.

(** Data that meets an empty queue, data that does not fill the queue, and data
    that does. *)
Lemma absorb_empty bs ctx d post : queued bs [] ctx -> Z.of_nat (length d) < 16777200 ->
  exists bs' r' tag cache n, d = concat bs' ++ r' /\
    ghash_tag ctx (Some (d ++ post)) (Z.of_nat (length d)) = Some (with_hash tag cache n ctx) /\
    queued (bs ++ bs') r' (with_hash tag cache n ctx).
Proof.
  intros [F Hr Hc Ht Hn _] Hl. destruct (ghash_empty ctx (auth_tag ctx) d post Hn Hc Hl) as (bs'&r'&F'&Hr'&->&E).
  destruct (with_cache_take r' ctx Hr' Hc Hn) as (W1&W2&W3). exists bs', r'.
  unfold ghash_tag. rewrite E. cbn [mbind option_bind fst snd]. rewrite with_cache_hash.
  eexists _, _, _. split_and!; [reflexivity..|]. split; try done; [by apply Forall_app|].
  cbn [with_hash auth_tag set_auth_tag ghash_key set_aad_cache_len set_aad_cache]. by rewrite foldl_app, Ht.
Qed.

Lemma absorb_short bs r ctx d post : queued bs r ctx -> r <> [] -> (length d + length r < 16)%nat ->
  exists tag cache n, ghash_tag ctx (Some (d ++ post)) (Z.of_nat (length d)) = Some (with_hash tag cache n ctx) /\
    queued bs (r ++ d) (with_hash tag cache n ctx).
Proof.
  intros [F Hr Hc Ht Hn Hq] Hne Hs. assert (0 < length r)%nat by (destruct r; [done|cbn; lia]).
  unfold ghash_tag, ghash. rewrite Hn. ztest. cbn [negb]. rewrite u24_small by (unfold AES_BLOCK_SIZE; lia).
  unfold AES_BLOCK_SIZE. rewrite Z.min_l by lia. rewrite rd_app. cbn [mbind option_bind]. ztest.
  rewrite <- (take_drop (length r) (aad_cache ctx)), Hq.
  change (r ++ drop (length r) (aad_cache ctx)) with (written r (aad_cache ctx)).
  rewrite store_next by (done || lia). cbn [mbind option_bind fst snd]. rewrite u8_small by lia.
  eexists _, _, _. split; [reflexivity|]. unfold written.
  split; cbn; rewrite ?length_app, ?length_drop; try (done || lia).
  rewrite <- length_app, take_app_length. done.
Qed.

Lemma absorb_full bs r ctx d post : queued bs r ctx -> r <> [] -> (16 <= length d + length r)%nat ->
  Z.of_nat (length d) < 16777200 ->
  exists bs' r' tag cache n, r ++ d = concat bs' ++ r' /\
    ghash_tag ctx (Some (d ++ post)) (Z.of_nat (length d)) = Some (with_hash tag cache n ctx) /\
    queued (bs ++ bs') r' (with_hash tag cache n ctx).
Proof.
  intros [F Hr Hc Ht Hn Hq] Hne Hs Hl. assert (0 < length r)%nat by (destruct r; [done|cbn; lia]).
  unfold ghash_tag, ghash. rewrite Hn. ztest. cbn [negb]. rewrite u24_small by (unfold AES_BLOCK_SIZE; lia).
  unfold AES_BLOCK_SIZE. rewrite Z.min_r by lia. set (k := (16 - length r)%nat).
  replace (16 - Z.of_nat (length r)) with (Z.of_nat k) by lia.
  assert (length (take k d) = k) as Hk by (rewrite length_take; lia).
  pose proof (rd_app (take k d) (drop k d ++ post)) as Erd. rewrite app_assoc, take_drop, Hk in Erd. rewrite Erd.
  pose proof (rd_take (aad_cache ctx) (length r) ltac:(lia)) as Eq. rewrite Hq in Eq.
  cbn [mbind option_bind]. ztest. rewrite Eq. cbn [mbind option_bind].
  assert (length (zeros 16) = 16%nat) as Hz by reflexivity.
  rewrite store_front by lia. cbn [mbind option_bind].
  change (r ++ drop (length r) (zeros 16)) with (written r (zeros 16)). rewrite store_next by (done || lia).
  cbn [mbind option_bind]. unfold written. rewrite (drop_ge (zeros 16)), app_nil_r by (rewrite length_app; lia).
  destruct (split_blocks (drop k d)) as (bs'&r'&F'&Ed&Hr'). set (ctx0 := set_aad_cache_len 0 ctx).
  pose proof (ghash_loop_ok bs' (take k d) r' post ctx0 (hash_block ctx (r ++ take k d) (auth_tag ctx))
    (ghash_fuel (Z.of_nat (length d))) F' Hr') as EL. cbv zeta in EL.
  rewrite Hk, (app_assoc (concat bs') r' post), <- Ed, (app_assoc (take k d) (drop k d) post), take_drop in EL.
  rewrite EL; [|done|done|].
  2: { apply ghash_fuel_ok. rewrite <- (take_drop k d), Ed, !length_app, length_concat_blocks by done. lia. }
  destruct (with_cache_take r' ctx0 Hr' Hc eq_refl) as (W1&W2&W3).
  exists ((r ++ take k d) :: bs'), r'. cbn [mbind option_bind fst snd concat]. rewrite with_cache_hash.
  eexists _, _, _. split; [by rewrite <- !app_assoc, <- Ed, take_drop|]. split; [reflexivity|]. split; try done.
  - apply Forall_app. split; [done|]. apply Forall_cons. split; [rewrite length_app; lia|done].
  - transitivity (foldl (fold_step (ghash_key ctx)) (fold_step (ghash_key ctx) (auth_tag ctx) (r ++ take k d)) bs');
      [reflexivity|]. rewrite foldl_app. cbn [foldl]. rewrite Ht. reflexivity.
Qed.

(** The step of the queue: [d] is absorbed behind [m]. *)
Lemma ghash_tag_ok m ctx d post : hashed m ctx -> Z.of_nat (length d) < 16777200 ->
  exists tag cache n, ghash_tag ctx (Some (d ++ post)) (Z.of_nat (length d)) = Some (with_hash tag cache n ctx) /\
    hashed (m ++ d) (with_hash tag cache n ctx).
Proof.
  intros (bs&r&->&Q) Hl. destruct (decide (r = [])) as [->|Hne].
  - destruct (absorb_empty bs ctx d post Q Hl) as (bs'&r'&tag&c&n&->&E&Q'). exists tag, c, n. split; [done|].
    exists (bs ++ bs'), r'. split; [by rewrite concat_app, app_nil_r, app_assoc|done].
  - destruct (decide (length d + length r < 16)%nat) as [Hs|Hs].
    + destruct (absorb_short bs r ctx d post Q Hne Hs) as (tag&c&n&E&Q'). exists tag, c, n. split; [done|].
      exists bs, (r ++ d). by rewrite app_assoc.
    + destruct (absorb_full bs r ctx d post Q Hne ltac:(lia) Hl) as (bs'&r'&tag&c&n&Er&E&Q'). exists tag, c, n.
      split; [done|]. exists (bs ++ bs'), r'. by rewrite concat_app, <- !app_assoc, <- Er.
Qed.

(** ** The tag of whole blocks is GHASH *)

Lemma fold_step_ok H bs : is_block H -> Forall is_block bs -> forall Y, is_block Y ->
  foldl (fold_step H) Y bs = foldl (ghash_step H) Y bs /\ is_block (foldl (ghash_step H) Y bs).
Proof.
  intros HH. induction 1 as [|b bs Hb F IH]; intros Y HY; [done|]. cbn [foldl]. unfold fold_step at 2, ghash_step at 2 4.
  destruct (gf128_mul_ok (xor_bytes Y b) H ltac:(by apply xor_block) HH) as [-> Hm]. by apply IH.
Qed.
Lemma blocks_of_bytes bs : block_list bs -> Forall is_byte (concat bs) -> Forall is_block bs.
Proof.
  induction 1 as [|b bs Hb F IH]; intros Fb; [constructor|]. cbn [concat] in Fb. apply Forall_app in Fb as [F1 F2].
  apply Forall_cons. split; [done|by apply IH].
Qed.
Lemma hashed_tag m ctx : hashed m ctx -> (length m mod 16 = 0)%nat -> is_block (ghash_key ctx) -> Forall is_byte m ->
  auth_tag ctx = GHASH (ghash_key ctx) m /\ is_block (auth_tag ctx).
Proof.
  intros Hh Hm HH Fm. pose proof (hashed_queue m ctx Hh) as Hq. destruct Hh as (bs&r&->&Q).
  rewrite Hm, (q_len _ _ _ Q) in Hq. destruct r; [|discriminate Hq]. rewrite app_nil_r in *.
  rewrite (q_tag _ _ _ Q). unfold GHASH. rewrite blocks_concat by apply (q_blocks _ _ _ Q).
  change (replicate 16 0) with (zeros 16).
  destruct (fold_step_ok _ bs HH (blocks_of_bytes bs (q_blocks _ _ _ Q) Fm) (zeros 16) (proj1 zero_block)) as [-> Hb].
  done.
Qed.
