(* ===== verification/GcmCorrect.v ===== *)
(** * GCM and CBC

    The calls of [aes.c] in the order the TLS layer makes them, against
    SP 800-38D: set-up with a key and an initialisation vector, associated data
    in pieces, one message, and the tag. *)

From S2P Require Import Prelude MemState RingList TlsHash TlsKdf Rsa RsaCorrect Aes AesRef AesBlock GcmField.
Import Fips197 Gcm.

(** ** The counter *)

Lemma of_bytes_4 a b c d : of_bytes [a; b; c; d] = a * 2 ^ 24 + b * 2 ^ 16 + c * 2 ^ 8 + d.
Proof. unfold of_bytes. cbn [foldl]. lia. Qed.

(** The four counter bytes, with the carry written out. *)
Definition count_up (a b c d : Z) : bytes :=
  let d' := u8 (d + 1) in
  if negb (d' =? 0) then [a; b; c; d'] else
  let c' := u8 (c + 1) in
  if negb (c' =? 0) then [a; b; c'; d'] else
  let b' := u8 (b + 1) in
  if negb (b' =? 0) then [a; b'; c'; d'] else [u8 (a + 1); b'; c'; d'].
Lemma count_up_ok a b c d : is_byte a -> is_byte b -> is_byte c -> is_byte d ->
  count_up a b c d = to_bytes 4 ((of_bytes [a; b; c; d] + 1) mod 2 ^ 32) /\ Forall is_byte (count_up a b c d).
Proof.
  intros Ha Hb Hc Hd.
  assert (Forall is_byte (count_up a b c d) /\ length (count_up a b c d) = 4%nat /\
    of_bytes (count_up a b c d) = (of_bytes [a; b; c; d] + 1) mod 2 ^ 32) as (F&L&E).
  { unfold is_byte in *. unfold count_up, u8. change (2 ^ 8) with 256.
    ifs; zbool; (split; [repeat (apply Forall_cons; split); [..|constructor]; (lia || (apply Z.mod_pos_bound; lia))|]);
      (split; [reflexivity|]); rewrite !of_bytes_4; Z.to_euclidean_division_equations; lia. }
  split; [|done]. rewrite <- E, <- L. symmetry. by apply to_bytes_of.
Qed.

Lemma increment_iv_ok iv : is_block iv -> increment_iv iv AES_GCM_NONCE_LEN AES_GCM_CTR_LEN = inc32 iv /\ is_block (inc32 iv).
Proof.
  intros H. sixteen H.
  assert (increment_iv [x; x0; x1; x2; x3; x4; x5; x6; x7; x8; x9; x10; x11; x12; x13; x14] 12 4 =
    [x; x0; x1; x2; x3; x4; x5; x6; x7; x8; x9; x10] ++ count_up x11 x12 x13 x14) as E.
  { unfold count_up. set (d := u8 (x14 + 1)). set (c := u8 (x13 + 1)). set (b := u8 (x12 + 1)).
    change (increment_iv _ 12 4) with
      (if negb (d =? 0) then [x; x0; x1; x2; x3; x4; x5; x6; x7; x8; x9; x10; x11; x12; x13; d] else
       if negb (c =? 0) then [x; x0; x1; x2; x3; x4; x5; x6; x7; x8; x9; x10; x11; x12; c; d] else
       if negb (b =? 0) then [x; x0; x1; x2; x3; x4; x5; x6; x7; x8; x9; x10; x11; b; c; d] else
       if negb (u8 (x11 + 1) =? 0) then [x; x0; x1; x2; x3; x4; x5; x6; x7; x8; x9; x10; u8 (x11 + 1); b; c; d]
       else [x; x0; x1; x2; x3; x4; x5; x6; x7; x8; x9; x10; u8 (x11 + 1); b; c; d]).
    ifs; reflexivity. }
  destruct (count_up_ok x11 x12 x13 x14) as [E2 F2]; [done..|]. unfold AES_GCM_NONCE_LEN, AES_GCM_CTR_LEN. rewrite E.
  unfold inc32. cbn [take drop]. rewrite <- E2. split; [done|]. split.
  - rewrite length_app. unfold count_up. ifs; reflexivity.
  - apply Forall_app. split; [|done]. repeat (apply Forall_cons; split); done.
Qed.

Lemma iter_inc32 icb k : is_block icb -> is_block (Nat.iter k inc32 icb).
Proof. intros H. induction k as [|k IH]; [done|]. rewrite Nat.iter_succ. by apply increment_iv_ok. Qed.

(** ** The key stream *)

Lemma rd_at_part b off n : (off + n <= length b)%nat -> rd_at b (Z.of_nat off) (Z.of_nat n) = Some (take n (drop off b)).
Proof.
  intros H. pose proof (rd_at_app (take off b) (take n (drop off b)) (drop n (drop off b))) as E.
  rewrite take_drop, take_drop, !length_take, length_drop in E.
  rewrite !Nat.min_l in E by lia. exact E.
Qed.

Section Stream.
Context (E : bytes -> bytes) (icb : bytes) (HE : forall b, is_block b -> is_block (E b)) (Hicb : is_block icb).

Lemma key_stream_S k : key_stream E icb (S k) = key_stream E icb k ++ E (Nat.iter k inc32 icb).
Proof. unfold key_stream. rewrite seq_S, fmap_app, concat_app. cbn. by rewrite app_nil_r. Qed.
Lemma length_stream k : length (key_stream E icb k) = (16 * k)%nat.
Proof using HE Hicb.
  induction k as [|k IH]; [done|]. rewrite key_stream_S, length_app, IH.
  rewrite (proj1 (HE _ (iter_inc32 icb k Hicb))). lia.
Qed.
Lemma stream_cut p k m : (length p <= 16 * k)%nat -> (k <= m)%nat ->
  xor_bytes p (key_stream E icb k) = xor_bytes p (key_stream E icb m).
Proof using HE Hicb.
  intros Hp. induction 1 as [|m Hm IH]; [done|]. rewrite IH, key_stream_S. unfold xor_bytes.
  rewrite <- (app_nil_r p) at 2.
  assert (forall (l1 l2 l3 : bytes), (length l1 <= length l2)%nat -> zip_with Z.lxor (l1 ++ []) (l2 ++ l3) = zip_with Z.lxor l1 l2) as Hz.
  { clear. induction l1 as [|x l1 IH]; intros [|y l2] l3 H; cbn in *; [by destruct l3|done|lia|]. f_equal. apply IH. lia. }
  symmetry. apply Hz. rewrite length_stream. lia.
Qed.
Lemma xor_stream_S p k : (16 * k <= length p)%nat ->
  xor_bytes (take (16 * S k) p) (key_stream E icb (S k)) =
  xor_bytes (take (16 * k) p) (key_stream E icb k) ++ xor_bytes (take 16 (drop (16 * k) p)) (E (Nat.iter k inc32 icb)).
Proof using HE Hicb.
  intros Hk. rewrite key_stream_S. replace (16 * S k)%nat with (16 * k + 16)%nat by lia.
  rewrite <- take_take_drop. unfold xor_bytes. apply zip_with_app. rewrite length_take, length_stream. lia.
Qed.
End Stream.

(** ** One message *)

Definition with_ctr (iv lb : bytes) (n : Z) (ctx : tls_aes_context) : tls_aes_context :=
  set_last_block_len n (set_last_block lb (set_aes_iv iv ctx)).
Lemma xor_bytes_cut a b n : length a = n -> (n <= length b)%nat -> xor_bytes a (take n b) = xor_bytes a b.
Proof.
  intros <-. revert b. induction a as [|x a IH]; intros [|y b] H; cbn in *; [done..|lia|]. unfold xor_bytes in *. cbn.
  f_equal. apply IH. lia.
Qed.

Lemma cipher_block key b : valid_key key -> is_block b -> is_block (Cipher key b).
Proof.
  intros Hv Hb. set (ctx := set_round_keys (sched_array (KeyExpansion key))
    (set_aes_keysize (8 * Z.of_nat (length key)) blank_aes)).
  apply (encrypt_block_ok key ctx b Hv); [by split|done].
Qed.

(** One turn of the loop: block [k]. *)
Lemma ctr_step key icb p out k : valid_key key -> is_block icb ->
  (16 * k <= length p <= length out)%nat -> Z.of_nat (length p) < 16777216 ->
  let E := Cipher key in
  let iv := Nat.iter k inc32 icb in
  let w := xor_bytes (take (16 * k) p) (key_stream E icb k) in
  let n := Nat.min 16 (length p - 16 * k) in
  Z.min AES_BLOCK_SIZE (u24 (Z.of_nat (length p) - 0 - Z.of_nat k * AES_BLOCK_SIZE)) = Z.of_nat n /\
  rd_at p (Z.of_nat k * AES_BLOCK_SIZE + 0) (Z.of_nat n) = Some (take n (drop (16 * k) p)) /\
  store_at (written w out) (Z.of_nat k * AES_BLOCK_SIZE + 0) (take n (drop (16 * k) p)) =
    Some (written (w ++ take n (drop (16 * k) p)) out) /\
  xor_into (written (w ++ take n (drop (16 * k) p)) out) (Z.of_nat k * AES_BLOCK_SIZE + 0) (Z.of_nat n) (E iv) =
    Some (written (xor_bytes (take (16 * S k) p) (key_stream E icb (S k))) out).
Proof.
  intros Hv Hicb Hl H24 E iv w n. unfold AES_BLOCK_SIZE.
  assert (forall b, is_block b -> is_block (E b)) as HE by (intros; by apply cipher_block).
  assert (length w = (16 * k)%nat) as Hw.
  { subst w. rewrite length_xor; rewrite length_take; [lia|]. rewrite (length_stream E icb HE Hicb). lia. }
  set (part := take n (drop (16 * k) p)).
  assert (length part = n) as Hpart by (subst part n; rewrite length_take, length_drop; lia).
  replace (Z.of_nat k * 16 + 0) with (Z.of_nat (16 * k)) by lia.
  split; [rewrite u24_small by lia; lia|]. split; [apply rd_at_part; lia|]. split; [apply store_next; lia|].
  assert (length (E iv) = 16%nat) as HEl by (apply HE, iter_inc32, Hicb).
  assert (written (xor_bytes (take (16 * S k) p) (key_stream E icb (S k))) out =
    w ++ xor_bytes part (take n (E iv)) ++ drop (16 * k + n) out) as ->.
  { rewrite (xor_stream_S E icb HE Hicb) by lia. fold w iv. unfold written.
    replace (take 16 (drop (16 * k) p)) with part
      by (subst part n; destruct (decide (16 <= length p - 16 * k)%nat);
          [by rewrite Nat.min_l by lia|rewrite Nat.min_r by lia; rewrite !take_ge by (rewrite length_drop; lia); done]).
    assert (length (xor_bytes part (E iv)) = n) as Hx by (unfold xor_bytes; rewrite length_zip_with; lia).
    rewrite length_app, Hx, Hw, (xor_bytes_cut part (E iv) n) by lia. by rewrite app_assoc. }
  unfold written. rewrite length_app, Hw, Hpart, <- app_assoc.
  pose proof (xor_into_app w part (drop (16 * k + n) out) (take n (E iv)) (drop n (E iv))) as X.
  rewrite take_drop, Hw, Hpart in X. apply X. rewrite length_take. lia.
Qed.

Lemma keyed_iv key iv ctx : keyed key ctx -> keyed key (set_aes_iv iv ctx).
Proof. intros [H1 H2]. by split. Qed.

(** The last turns of the loop, from block [k] on. *)
Lemma ctr_loop_ok key ctx icb p out : valid_key key -> keyed key ctx -> is_block icb ->
  (length p <= length out)%nat -> Z.of_nat (length p) < 16777216 ->
  forall j k, (k + j = length p / 16)%nat -> exists iv lb n,
  ctr_loop (S j) (Z.of_nat k) (set_aes_iv (Nat.iter k inc32 icb) ctx) p
    (written (xor_bytes (take (16 * k) p) (key_stream (Cipher key) icb k)) out) 0 (Z.of_nat (length p))
    (Z.of_nat (length p / 16)) =
  Some (with_ctr iv lb n ctx, written (GCTR (Cipher key) icb p) out).
Proof.
  intros Hv Hk Hicb Hl H24. pose proof (Nat.div_mod_eq (length p) 16) as D.
  pose proof (Nat.mod_upper_bound (length p) 16 ltac:(lia)) as D'.
  pose proof (Nat.div_mod_eq (length p + 15) 16) as D2.
  pose proof (Nat.mod_upper_bound (length p + 15) 16 ltac:(lia)) as D2'.
  induction j as [|j IH]; intros k Hkj.
  all: assert (16 * k <= length p <= length out)%nat as Hkp by lia.
  all: pose proof (iter_inc32 icb k Hicb) as Hiv.
  all: destruct (ctr_step key icb p out k Hv Hicb Hkp H24) as (E1&E2&E3&E4).
  all: rewrite Nat.add_0_r in Hkj || idtac.
  all: remember (S j) as j' eqn:Ej || idtac; cbn [ctr_loop]; cbv zeta; rewrite E1, E2; cbn [mbind option_bind];
    rewrite E3; cbn [mbind option_bind].
  all: change (aes_iv (set_aes_iv ?v ctx)) with v.
  all: rewrite (proj1 (encrypt_block_ok key _ _ Hv (keyed_iv key _ _ Hk) Hiv)), E4; cbn [mbind option_bind].
  - rewrite (proj2 (Z.eqb_eq _ _)) by lia. eexists _, _, _. unfold GCTR. cbn [fst snd]. f_equal. f_equal. f_equal.
    rewrite take_ge by lia. symmetry. apply stream_cut; [by intros; apply cipher_block|done|lia|lia].
  - rewrite (proj2 (Z.eqb_neq _ _)) by lia. subst j'.
    change (set_aes_iv ?v (set_aes_iv _ ctx)) with (set_aes_iv v ctx).
    rewrite (proj1 (increment_iv_ok _ Hiv)), <- Nat.iter_succ.
    replace (Z.of_nat k + 1) with (Z.of_nat (S k)) by lia. apply IH. lia.
Qed.

Lemma gcm_crypt_ok key ctx p out : valid_key key -> keyed key ctx -> is_block (aes_iv ctx) ->
  last_block_len ctx = 0 -> (length p <= length out)%nat -> Z.of_nat (length p) < 16777216 -> exists iv lb n,
  gcm_crypt ctx p out (Z.of_nat (length p)) =
  Some (with_ctr iv lb n ctx, written (GCTR (Cipher key) (aes_iv ctx) p) out).
Proof.
  intros Hv Hk Hiv H0 Hl H24. unfold gcm_crypt. rewrite H0. cbn [Z.modulo Z.div_eucl negb Z.eqb snd AES_BLOCK_SIZE].
  unfold AES_BLOCK_SIZE. rewrite <- (Nat2Z.inj_div _ 16), Nat2Z.id.
  destruct (ctr_loop_ok key ctx (aes_iv ctx) p out Hv Hk Hiv Hl H24 (length p / 16) 0 eq_refl) as (iv&lb&n&E).
  exists iv, lb, n. rewrite <- E. destruct ctx. reflexivity.
Qed.

(** ** Setting up *)

Lemma ghash_block ctx Y b : aad_cache_len ctx = 0 -> length (aad_cache ctx) = 16%nat -> length b = 16%nat ->
  ghash ctx Y (Some b) 16 = Some (ctx, fold_step (ghash_key ctx) Y b).
Proof.
  intros H0 Hc Hb. unfold ghash. rewrite H0. cbn [Z.eqb negb].
  pose proof (ghash_loop_ok [b] [] [] [] ctx Y (ghash_fuel 16)) as E. cbn [concat app length] in E. rewrite !app_nil_r, Hb in E.
  apply E; [by apply Forall_singleton|lia|lia|done|vm_compute; lia].
Qed.
Lemma bitlen_ok n : 0 <= n < 8192 -> bytelen_to_bitlen n = to_bytes 8 (8 * n).
Proof.
  intros Hn. unfold bytelen_to_bitlen, to_bytes. cbn [seq fmap list_fmap Nat.sub].
  repeat match goal with |- context [256 ^ Z.of_nat ?k] =>
    let t := eval vm_compute in (256 ^ Z.of_nat k) in change (256 ^ Z.of_nat k) with t end.
  repeat (apply f_equal2; [Z.to_euclidean_division_equations; lia|]). reflexivity.
Qed.

Lemma pad0_short iv : (0 < length iv <= 16)%nat -> pad0 iv = iv ++ replicate (16 - length iv) 0.
Proof.
  intros H. unfold pad0, padding. f_equal. f_equal. destruct (decide (length iv = 16%nat)) as [->|]; [done|].
  rewrite (Nat.mod_small (length iv)) by lia. apply Nat.mod_small. lia.
Qed.
Lemma length_to_bytes n v : length (to_bytes n v) = n.
Proof. unfold to_bytes. by rewrite length_fmap, length_seq. Qed.
Lemma to_bytes_ok n v : Forall is_byte (to_bytes n v).
Proof. unfold to_bytes. apply Forall_fmap, Forall_true. intros. cbn. unfold is_byte. apply Z.mod_pos_bound. lia. Qed.
Lemma zeros_ok n : Forall is_byte (replicate n 0).
Proof. apply Forall_replicate. unfold is_byte. lia. Qed.

(** The first counter block. *)
Lemma prepare_iv_ok ctx iv : (0 < length iv <= 16)%nat -> Forall is_byte iv -> is_block (ghash_key ctx) ->
  aad_cache_len ctx = 0 -> length (aad_cache ctx) = 16%nat -> aes_iv ctx = iv ++ replicate (16 - length iv) 0 ->
  aes_gcm_prepare_iv ctx (Some iv) (Z.of_nat (length iv)) = Some (set_aes_iv (J0 (ghash_key ctx) iv) ctx) /\
  is_block (J0 (ghash_key ctx) iv).
Proof.
  intros Hl F HH H0 Hc Hiv. unfold aes_gcm_prepare_iv, J0. destruct (length iv =? 12)%nat eqn:E12.
  - apply Nat.eqb_eq in E12. rewrite E12 in *. cbn [Z.of_nat Pos.of_succ_nat Pos.succ Z.eqb Pos.eqb].
    rewrite Hiv, insert_app_r_alt by lia. rewrite E12. split; [reflexivity|].
    split; [rewrite length_app, E12; reflexivity|]. apply Forall_app. split; [done|].
    repeat (apply Forall_cons; split); [unfold is_byte; lia..|constructor].
  - apply Nat.eqb_neq in E12. ztest. rewrite rd_all by done. cbn [mbind option_bind].
    assert (length (zeros 16) = 16%nat) as Hz by reflexivity.
    rewrite store_front by lia. cbn [mbind option_bind]. rewrite bitlen_ok by lia.
    set (b1 := iv ++ drop (length iv) (zeros 16)). assert (b1 = pad0 iv) as E1.
    { rewrite pad0_short by done. subst b1. unfold zeros. change (Z.to_nat 16) with 16%nat. by rewrite drop_replicate. }
    assert (length b1 = 16%nat) as L1 by (rewrite E1, pad0_short by done; rewrite length_app, length_replicate; lia).
    rewrite ghash_block by done. cbn [mbind option_bind fst snd].
    pose proof (store_app (replicate 8 0) (replicate 8 0) [] (to_bytes 8 (8 * Z.of_nat (length iv)))) as Es.
    rewrite !app_nil_r in Es. change (store_at (zeros 16) 8) with (store_at (replicate 8 0 ++ replicate 8 0) (Z.of_nat (length (replicate 8 0)))).
    rewrite Es by (rewrite length_to_bytes; done). cbn [mbind option_bind].
    set (b2 := replicate 8 0 ++ to_bytes 8 (8 * Z.of_nat (length iv))).
    assert (length b2 = 16%nat) as L2 by (subst b2; by rewrite length_app, length_to_bytes).
    rewrite ghash_block by done. cbn [mbind option_bind fst snd].
    assert (is_block b1) as B1 by (split; [done|rewrite E1, pad0_short by done; apply Forall_app; split; [done|apply zeros_ok]]).
    assert (is_block b2) as B2 by (split; [done|apply Forall_app; split; [apply zeros_ok|apply to_bytes_ok]]).
    destruct (fold_step_ok (ghash_key ctx) [b1; b2] HH ltac:(by repeat apply Forall_cons_2) (zeros 16) (proj1 zero_block)) as [Ef Bf].
    cbn [foldl] in Ef. rewrite Ef.
    assert (GHASH (ghash_key ctx) (pad0 iv ++ replicate 8 0 ++ len64 iv) = foldl (ghash_step (ghash_key ctx)) (zeros 16) [b1; b2]) as ->.
    { unfold GHASH. rewrite <- E1. replace (b1 ++ replicate 8 0 ++ len64 iv) with (concat [b1; b2]) by (cbn [concat]; rewrite app_nil_r; reflexivity).
      rewrite blocks_concat by (by repeat apply Forall_cons_2). reflexivity. }
    split; [|done]. reflexivity.
Qed.

(** A context that has seen associated data only. *)
Record gcm_fresh (key iv aad : bytes) (ctx : tls_aes_context) : Prop := {
  gf_keyed : keyed key ctx;
  gf_hash : ghash_key ctx = Cipher key (replicate 16 0);
  gf_j0 : auth_j0 ctx = J0 (Cipher key (replicate 16 0)) iv;
  gf_iv : aes_iv ctx = inc32 (auth_j0 ctx);
  gf_j0_block : is_block (auth_j0 ctx);
  gf_absorbed : hashed aad ctx;
  gf_mode : aes_mode ctx = TLS_AES_GCM;
  gf_lock : aes_lock ctx = LOCK_ALLOW_ALL;
  gf_op : op_assoc ctx = AES_OP_NONE;
  gf_last : last_block_len ctx = 0;
  gf_counts : aad_len ctx = Z.of_nat (length aad) /\ ct_len ctx = 0
}.

Definition key_context (key iv : bytes) : tls_aes_context :=
  set_round_keys (sched_array (KeyExpansion key))
    (set_aes_keysize (8 * Z.of_nat (length key)) (set_aes_iv (iv ++ replicate (16 - length iv) 0) blank_aes)).

Lemma init_front key iv mode c0 : valid_key key -> (length iv <= 16)%nat ->
  tls_aes_init (Some c0) mode (Some key) (Z.of_nat (length key)) (Some iv) (Z.of_nat (length iv)) =
  (let ctx := key_context key iv in
   if mode =? TLS_AES_GCM then
     let ctx := set_ghash_key (aes_encrypt_block (zeros 16) ctx) ctx in
     ctx ← aes_gcm_prepare_iv ctx (Some iv) (Z.of_nat (length iv));
     let ctx := set_auth_j0 (aes_iv ctx) (set_auth_tag (zeros 16) ctx) in
     let ctx := set_aes_iv (increment_iv (aes_iv ctx) AES_GCM_NONCE_LEN AES_GCM_CTR_LEN) ctx in
     Some (true, Some (set_aes_mode mode ctx))
   else if mode =? TLS_AES_CBC then Some (true, Some (set_aes_mode mode ctx))
   else Some (false, Some ctx)).
Proof.
  intros Hv Hl. destruct (schedule_built key Hv) as (Nr&Nk&Ek&Ew&_). unfold tls_aes_init, AES_BLOCK_SIZE. ztest.
  rewrite Z.shiftl_mul_pow2 by lia. change (2 ^ 3) with 8. rewrite u24_small by (destruct Hv as [Hs _]; lia).
  rewrite Z.mul_comm, Ek, rd_all by done. cbn [mbind option_bind].
  assert (length (aes_iv blank_aes) = 16%nat) as Hz by reflexivity.
  rewrite store_front by lia. cbn [mbind option_bind].
  replace (drop (length iv) (aes_iv blank_aes)) with (replicate (16 - length iv) 0)
    by (change (aes_iv blank_aes) with (replicate 16 0); by rewrite drop_replicate).
  change (round_keys (set_aes_keysize _ _)) with (replicate 60 0).
  destruct (load_words Nk 0 key (replicate 60 0)) as [w|]; [|discriminate Ew]. cbn [mbind option_bind] in Ew |- *.
  rewrite Ew. reflexivity.
Qed.

Lemma init_gcm_ok key iv c0 : valid_key key -> (0 < length iv <= 16)%nat -> Forall is_byte iv -> exists ctx,
  tls_aes_init (Some c0) TLS_AES_GCM (Some key) (Z.of_nat (length key)) (Some iv) (Z.of_nat (length iv)) = Some (true, Some ctx) /\
  gcm_fresh key iv [] ctx.
Proof.
  intros Hv Hl F. rewrite init_front by (done || lia). cbv zeta. cbn [Z.eqb TLS_AES_GCM].
  assert (keyed key (key_context key iv)) as Hk by (split; exact eq_refl).
  destruct (encrypt_block_ok key _ (zeros 16) Hv Hk (proj1 zero_block)) as [-> HH].
  set (ctx := set_ghash_key _ _). change (Cipher key (zeros 16)) with (ghash_key ctx) in HH.
  destruct (prepare_iv_ok ctx iv Hl F HH eq_refl eq_refl eq_refl) as [-> HJ]. cbn [mbind option_bind].
  remember (J0 (ghash_key ctx) iv) as J eqn:EJ. cbn [aes_iv set_auth_j0 set_auth_tag set_aes_iv].
  rewrite (proj1 (increment_iv_ok _ HJ)).
  eexists. split; [reflexivity|].
  split; [split; [exact (keyed_size _ _ Hk)|exact (keyed_words _ _ Hk)]|exact eq_refl|exact EJ|exact eq_refl|exact HJ|
    |exact eq_refl|exact eq_refl|exact eq_refl|exact eq_refl|exact (conj eq_refl eq_refl)].
  exists [], []. split; [exact eq_refl|].
  split; [constructor|cbn [length]; lia|exact eq_refl|exact eq_refl|exact eq_refl|exact eq_refl].
Qed.

(** ** Associated data *)

Lemma hashed_frame m ctx ctx' : auth_tag ctx' = auth_tag ctx -> aad_cache ctx' = aad_cache ctx ->
  aad_cache_len ctx' = aad_cache_len ctx -> ghash_key ctx' = ghash_key ctx -> hashed m ctx -> hashed m ctx'.
Proof. intros E1 E2 E3 E4 (bs&r&->&[]). exists bs, r. split; [done|]. by split; rewrite ?E1, ?E2, ?E3, ?E4. Qed.

Ltac framed H := eapply hashed_frame; [..|exact H]; exact eq_refl.

(** Calls of [tls_aes_update_aad] that all succeed. *)
Fixpoint feed_aad (ctx : tls_aes_context) (pieces : list bytes) : option tls_aes_context :=
  match pieces with
  | [] => Some ctx
  | a :: pieces' =>
      match tls_aes_update_aad ctx (Some a) (Z.of_nat (length a)) with
      | Some (true, ctx') => feed_aad ctx' pieces'
      | _ => None
      end
  end.

Lemma update_aad_ok key iv aad a ctx : gcm_fresh key iv aad ctx -> Z.of_nat (length (aad ++ a)) < 16777200 ->
  exists ctx', tls_aes_update_aad ctx (Some a) (Z.of_nat (length a)) = Some (true, ctx') /\ gcm_fresh key iv (aad ++ a) ctx'.
Proof.
  intros [? ? ? ? ? Hh Hm Hlock ? ? [Ha ?]] Hl. rewrite length_app in Hl. unfold tls_aes_update_aad.
  rewrite Hm, Hlock. cbn [Z.eqb Z.ltb Z.compare negb TLS_AES_GCM LOCK_ALLOW_ALL].
  destruct (ghash_tag_ok aad ctx a [] Hh ltac:(lia)) as (tag&c&n&E&Hh'). rewrite app_nil_r in E. rewrite E. cbn [mbind option_bind].
  eexists. split; [reflexivity|].
  split; try assumption; [by destruct gf_keyed0|framed Hh'|].
  split; [|assumption]. cbn. rewrite Ha, length_app, u24_small by lia. lia.
Qed.
Lemma feed_aad_ok key iv pieces : forall aad ctx, gcm_fresh key iv aad ctx ->
  Z.of_nat (length (aad ++ concat pieces)) < 16777200 ->
  exists ctx', feed_aad ctx pieces = Some ctx' /\ gcm_fresh key iv (aad ++ concat pieces) ctx'.
Proof.
  induction pieces as [|a pieces IH]; intros aad ctx H Hl; cbn [feed_aad concat] in *; [rewrite app_nil_r; by eexists|].
  rewrite app_assoc in Hl. destruct (update_aad_ok key iv aad a ctx H) as (ctx1&->&H1); [rewrite length_app in Hl; lia|].
  destruct (IH (aad ++ a) ctx1 H1 Hl) as (ctx2&E2&H2). exists ctx2.
  by rewrite <- app_assoc in H2.
Qed.

(** The queue is filled up with zeros. *)
Lemma pad_queue m ctx : hashed m ctx -> (length m mod 16 <> 0)%nat -> exists tag c n,
  ghash_tag ctx (Some (zeros 16)) (u24 (AES_BLOCK_SIZE - aad_cache_len ctx)) = Some (with_hash tag c n ctx) /\
  hashed (pad0 m) (with_hash tag c n ctx).
Proof.
  intros H Hm. rewrite (hashed_queue m ctx H). pose proof (Nat.mod_upper_bound (length m) 16 ltac:(lia)).
  unfold AES_BLOCK_SIZE. rewrite u24_small by lia. set (k := (16 - length m mod 16)%nat).
  replace (16 - Z.of_nat (length m mod 16)) with (Z.of_nat (length (replicate k 0))) by (rewrite length_replicate; lia).
  assert (pad0 m = m ++ replicate k 0) as Ep by (unfold pad0, padding; fold k; by rewrite (Nat.mod_small k) by lia).
  rewrite Ep. replace (zeros 16) with (replicate k 0 ++ replicate (16 - k) 0).
  2: { rewrite <- replicate_add. by replace (k + (16 - k))%nat with 16%nat by lia. }
  apply ghash_tag_ok; [done|rewrite length_replicate; lia].
Qed.
Lemma pad0_whole m : (length m mod 16 = 0)%nat -> pad0 m = m.
Proof. intros H. unfold pad0, padding. rewrite H. cbn. apply app_nil_r. Qed.
Lemma pad_aad_ok aad ctx : aes_lock ctx = LOCK_ALLOW_ALL -> hashed aad ctx -> exists tag c n,
  pad_aad ctx = Some (with_hash tag c n ctx) /\ hashed (pad0 aad) (with_hash tag c n ctx).
Proof.
  intros Hlock H. unfold pad_aad. rewrite Hlock. cbn [Z.eqb LOCK_ALLOW_ALL andb].
  pose proof (hashed_queue _ _ H) as Hq. destruct (decide (length aad mod 16 = 0)%nat) as [E|E].
  - rewrite Hq, E. cbn. eexists _, _, _. rewrite with_hash_id. split; [reflexivity|]. by rewrite pad0_whole.
  - rewrite (proj2 (Z.eqb_neq _ _)) by lia. cbn [negb]. by apply pad_queue.
Qed.

(** ** The message *)

(** A context that has seen the associated data and the ciphertext. *)
Record gcm_done (key iv aad c : bytes) (ctx : tls_aes_context) : Prop := {
  gd_keyed : keyed key ctx;
  gd_hash : ghash_key ctx = Cipher key (replicate 16 0);
  gd_j0 : auth_j0 ctx = J0 (Cipher key (replicate 16 0)) iv;
  gd_j0_block : is_block (auth_j0 ctx);
  gd_absorbed : hashed (pad0 aad ++ c) ctx;
  gd_mode : aes_mode ctx = TLS_AES_GCM;
  gd_counts : aad_len ctx = Z.of_nat (length aad) /\ ct_len ctx = Z.of_nat (length c)
}.

Lemma length_GCTR key icb p : valid_key key -> is_block icb -> length (GCTR (Cipher key) icb p) = length p.
Proof.
  intros Hv Hb. unfold GCTR, xor_bytes. rewrite length_zip_with, (length_stream (Cipher key) icb); [|by intros; apply cipher_block|done].
  pose proof (Nat.div_mod_eq (length p + 15) 16). pose proof (Nat.mod_upper_bound (length p + 15) 16 ltac:(lia)). lia.
Qed.
Lemma written_ge w out : length w = length out -> written w out = w.
Proof. intros H. unfold written. rewrite drop_ge by lia. apply app_nil_r. Qed.

Ltac fresh_tests Hop Hlock Hm :=
  rewrite Hop, Hlock; cbn [Z.eqb Z.ltb Z.compare Pos.compare Pos.compare_cont Pos.eqb AES_OP_NONE AES_OP_ENCRYPT AES_OP_DECRYPT
    LOCK_ALLOW_ALL LOCK_ALLOW_ENCRYPT];
  cbn [aes_mode set_op_assoc]; rewrite Hm; cbn [Z.eqb TLS_AES_GCM].

Lemma fresh_icb key iv aad ctx : gcm_fresh key iv aad ctx ->
  is_block (aes_iv ctx) /\ forall x, seal_text key iv x = GCTR (Cipher key) (aes_iv ctx) x.
Proof.
  intros H. rewrite (gf_iv _ _ _ _ H). split; [apply increment_iv_ok, (gf_j0_block _ _ _ _ H)|].
  intros x. unfold seal_text. by rewrite (gf_j0 _ _ _ _ H).
Qed.

Lemma encrypt_ok key iv aad p out ctx : valid_key key -> gcm_fresh key iv aad ctx -> p <> [] ->
  (length p <= length out)%nat -> Z.of_nat (length p) < 16777200 -> exists ctx',
  tls_aes_encrypt (Some ctx) (Some p) (Z.of_nat (length p)) (Some out) =
    Some (true, Some ctx', Some (written (seal_text key iv p) out)) /\
  gcm_done key iv aad (seal_text key iv p) ctx'.
Proof.
  intros Hv H Hp Hl H24. assert (0 < length p)%nat by (destruct p; [done|cbn; lia]).
  destruct (fresh_icb _ _ _ _ H) as [Hicb Hseal]. rewrite Hseal.
  destruct H as [Hk Hh Hj Hi HJ Ha Hm Hlock Hop Hlast [Hal Hct]].
  unfold tls_aes_encrypt. rewrite (proj2 (Z.eqb_neq _ _)) by lia. fresh_tests Hop Hlock Hm.
  match goal with |- context [pad_aad ?x] => destruct (pad_aad_ok aad x Hlock) as (t1&c1&n1&->&H1) end;
    [framed Ha|]. cbn [mbind option_bind].
  set (ctx1 := set_aes_lock _ _).
  destruct (gcm_crypt_ok key ctx1 p out Hv) as (iv'&lb&n&->); [by destruct Hk|exact Hicb|exact Hlast|done|lia|].
  cbn [mbind option_bind fst snd]. change (aes_iv ctx1) with (aes_iv ctx).
  pose proof (length_GCTR key (aes_iv ctx) p Hv Hicb) as Hc. set (c := GCTR (Cipher key) (aes_iv ctx) p) in *. rewrite <- Hc.
  destruct (ghash_tag_ok (pad0 aad) (with_ctr iv' lb n ctx1) c (drop (length c) out)) as (t2&c2&n2&E2&H2);
    [framed H1|lia|].
  unfold written. rewrite E2. cbn [mbind option_bind]. eexists. split; [reflexivity|].
  split; [destruct Hk; split; assumption|exact Hh|exact Hj|exact HJ|framed H2|exact Hm|].
  split; [exact Hal|]. cbn [ct_len set_ct_len]. change (ct_len (with_hash t2 c2 n2 (with_ctr iv' lb n ctx1))) with (ct_len ctx).
  rewrite Hct, u24_small by lia. apply Z.add_0_l.
Qed.

(** What lies behind the input is not read. *)
Lemma rd_at_front a r off n d : rd_at a off n = Some d -> rd_at (a ++ r) off n = Some d.
Proof.
  unfold rd_at, at_off, rd, in_bounds. destruct (0 <=? off) eqn:E0; [|done]. rewrite length_app. cbn [andb].
  destruct (0 <=? 0) eqn:Ez; [|done]. cbn [andb]. destruct (off + 0 <=? Z.of_nat (length a)) eqn:E1; [|done].
  zbool. rewrite (proj2 (Z.leb_le (off + 0) _)) by lia. cbn [mbind option_bind]. rewrite drop_app_le by lia.
  rewrite length_app. destruct ((0 <=? n) && _) eqn:E2; [|done]. apply andb_true_iff in E2 as [H1 H2]. zbool.
  rewrite (proj2 (Z.leb_le 0 n)), (proj2 (Z.leb_le (0 + n) _)) by lia. cbn [andb]. intros [= <-]. f_equal.
  unfold slice. change (Z.to_nat 0) with 0%nat. rewrite !drop_0, take_app_le by lia. done.
Qed.
Lemma ctr_loop_front r n : forall idx ctx inb outb off len blocks res,
  ctr_loop n idx ctx inb outb off len blocks = Some res -> ctr_loop n idx ctx (inb ++ r) outb off len blocks = Some res.
Proof.
  induction n as [|n IH]; intros idx ctx inb outb off len blocks res E; [done|]. cbn [ctr_loop] in E |- *. cbv zeta in E |- *.
  match type of E with (?t ≫= _) = _ => destruct t as [part|] eqn:Er; [|discriminate E] end.
  rewrite (rd_at_front _ r _ _ _ Er). cbn [mbind option_bind] in E |- *.
  destruct (store_at _ _ part) as [o1|]; [|discriminate E]. cbn [mbind option_bind] in E |- *.
  destruct (xor_into o1 _ _ _) as [o2|]; [|discriminate E]. cbn [mbind option_bind] in E |- *. by apply IH.
Qed.
Lemma gcm_crypt_front ctx inb r outb n res : last_block_len ctx = 0 ->
  gcm_crypt ctx inb outb n = Some res -> gcm_crypt ctx (inb ++ r) outb n = Some res.
Proof.
  intros H0. unfold gcm_crypt. rewrite H0. cbn [Z.modulo Z.div_eucl negb Z.eqb snd AES_BLOCK_SIZE]. apply ctr_loop_front.
Qed.

(** Decryption of the front of a buffer, and the dry run of [tls_aes_verify]
    without an output. *)
Lemma decrypt_front key iv aad c post ctx b outbuf : valid_key key -> gcm_fresh key iv aad ctx -> c <> [] ->
  Z.of_nat (length c) < 16777200 -> (if outbuf is Some out then (length c <= length out)%nat else b = true) ->
  exists ctx', aes_decrypt b (Some ctx) (Some (c ++ post)) (Z.of_nat (length c)) outbuf =
    Some (true, Some ctx', written (seal_text key iv c) <$> outbuf) /\
  gcm_done key iv aad c ctx'.
Proof.
  intros Hv H Hp H24 Hout. assert (0 < length c)%nat by (destruct c; [done|cbn; lia]).
  destruct (fresh_icb _ _ _ _ H) as [Hicb Hseal]. rewrite Hseal.
  destruct H as [Hk Hh Hj Hi HJ Ha Hm Hlock Hop Hlast [Hal Hct]].
  unfold aes_decrypt. rewrite (proj2 (Z.eqb_neq _ _)) by lia.
  replace (negb b && is_null outbuf) with false by (destruct outbuf; [by rewrite andb_false_r|by rewrite Hout]).
  fresh_tests Hop Hlock Hm.
  match goal with |- context [pad_aad ?x] => destruct (pad_aad_ok aad x Hlock) as (t1&c1&n1&->&H1) end;
    [framed Ha|]. cbn [mbind option_bind]. set (ctx1 := with_hash _ _ _ _) in *.
  destruct (ghash_tag_ok (pad0 aad) ctx1 c post H1 H24) as (t2&c2&n2&E2&H2). rewrite E2.
  cbn [mbind option_bind]. set (ctx2 := set_ct_len _ _).
  assert (ct_len ctx2 = Z.of_nat (length c)) as Hct2.
  { subst ctx2. cbn [ct_len set_ct_len]. rewrite u24_small; change (ct_len (with_hash t2 c2 n2 ctx1)) with (ct_len ctx); lia. }
  destruct outbuf as [out|].
  - set (ctx3 := set_aes_lock _ _).
    destruct (gcm_crypt_ok key ctx3 c out Hv) as (iv'&lb&n&Ec); [destruct Hk; split; assumption|exact Hicb|exact Hlast|exact Hout|lia|].
    rewrite (gcm_crypt_front ctx3 c post out _ _ Hlast Ec). cbn [mbind option_bind fst snd]. eexists. split; [reflexivity|].
    split; [destruct Hk; split; assumption|exact Hh|exact Hj|exact HJ|framed H2|exact Hm|].
    exact (conj Hal Hct2).
  - eexists. split; [reflexivity|].
    split; [destruct Hk; split; assumption|exact Hh|exact Hj|exact HJ|framed H2|exact Hm|].
    exact (conj Hal Hct2).
Qed.
Lemma decrypt_ok key iv aad c ctx b outbuf : valid_key key -> gcm_fresh key iv aad ctx -> c <> [] ->
  Z.of_nat (length c) < 16777200 -> (if outbuf is Some out then (length c <= length out)%nat else b = true) ->
  exists ctx', aes_decrypt b (Some ctx) (Some c) (Z.of_nat (length c)) outbuf =
    Some (true, Some ctx', written (seal_text key iv c) <$> outbuf) /\
  gcm_done key iv aad c ctx'.
Proof.
  intros Hv H Hp H24 Hout. destruct (decrypt_front key iv aad c [] ctx b outbuf Hv H Hp H24 Hout) as (ctx'&E&Hd).
  rewrite app_nil_r in E. by exists ctx'.
Qed.

(** ** The tag *)

(** What the last part of the hash is padded with: one to sixteen zeros. *)
Definition pad_always (c : bytes) : bytes := c ++ replicate (16 - length c mod 16) 0.
Lemma xor_bytes_comm a b : xor_bytes a b = xor_bytes b a.
Proof.
  revert b. induction a as [|x a IH]; intros [|y b]; [done..|]. unfold xor_bytes in *. cbn. by rewrite IH, Z.lxor_comm.
Qed.
Lemma pad0_mod m : (length (pad0 m) mod 16 = 0)%nat.
Proof.
  unfold pad0, padding. rewrite length_app, length_replicate.
  pose proof (Nat.div_mod_eq (length m) 16) as D. pose proof (Nat.mod_upper_bound (length m) 16 ltac:(lia)).
  destruct (decide (length m mod 16 = 0)%nat) as [E|E].
  - rewrite E. cbn [Nat.sub]. change (16 mod 16)%nat with 0%nat. by rewrite Nat.add_0_r.
  - rewrite (Nat.mod_small (16 - _)) by lia. rewrite D at 1.
    replace (16 * (length m / 16) + length m mod 16 + (16 - length m mod 16))%nat with ((length m / 16 + 1) * 16)%nat by lia.
    apply Nat.Div0.mod_mul.
Qed.
Lemma mod16_app (a b : bytes) : (length a mod 16 = 0)%nat -> (length (a ++ b) mod 16 = length b mod 16)%nat.
Proof. intros H. rewrite length_app, Nat.Div0.add_mod, H, Nat.add_0_l, Nat.Div0.mod_mod. done. Qed.

Lemma pad_any m ctx : hashed m ctx -> exists tag c n,
  ghash_tag ctx (Some (zeros 16)) (u24 (AES_BLOCK_SIZE - aad_cache_len ctx)) = Some (with_hash tag c n ctx) /\
  hashed (pad_always m) (with_hash tag c n ctx) /\ (length (pad_always m) mod 16 = 0)%nat.
Proof.
  intros H. destruct (decide (length m mod 16 = 0)%nat) as [E|E].
  - pose proof (hashed_queue m ctx H) as Hq. rewrite Hq. unfold pad_always. rewrite E.
    destruct (ghash_tag_ok m ctx (replicate 16 0) [] H ltac:(cbn; lia)) as (t&c&n&Eg&Hh). exists t, c, n.
    split; [exact Eg|]. split; [exact Hh|]. rewrite mod16_app by done. reflexivity.
  - destruct (pad_queue m ctx H E) as (t&c&n&Eg&Hh). exists t, c, n. split; [exact Eg|].
    assert (pad0 m = pad_always m) as <-; [|split; [exact Hh|apply pad0_mod]].
    unfold pad0, padding, pad_always. rewrite (Nat.mod_small (16 - _)) by lia. done.
Qed.

(** The tag the code computes, with the padding of the code. *)
Definition code_tag (key iv aad c : bytes) : bytes :=
  let E := Cipher key in
  let H := E (replicate 16 0) in
  GCTR E (J0 H iv) (GHASH H (pad_always (pad0 aad ++ c) ++ len64 aad ++ len64 c)).

Lemma pad_ok m : Forall is_byte m -> Forall is_byte (pad0 m) /\ Forall is_byte (pad_always m).
Proof. intros F. split; apply Forall_app; split; (done || apply zeros_ok). Qed.
Lemma gctr_block key j s : valid_key key -> is_block j -> is_block s -> GCTR (Cipher key) j s = xor_bytes (Cipher key j) s.
Proof.
  intros Hv Hj [Ls _]. unfold GCTR, key_stream. rewrite Ls. change ((16 + 15) / 16)%nat with 1%nat. cbn [seq fmap list_fmap concat].
  rewrite app_nil_r. apply xor_bytes_comm.
Qed.

Lemma digest_tag key iv aad c ctx : valid_key key -> gcm_done key iv aad c ctx -> Forall is_byte aad -> Forall is_byte c ->
  Z.of_nat (length aad) < 8192 -> Z.of_nat (length c) < 8192 -> exists ctx',
  tls_aes_digest (Some ctx) (Some (zeros 16)) = Some (true, Some ctx', Some (code_tag key iv aad c)) /\
  length (code_tag key iv aad c) = 16%nat.
Proof.
  intros Hv [Hk Hh Hj HJ Ha Hm [Hal Hct]] Fa Fc La Lc. unfold tls_aes_digest. cbn [mbind option_bind].
  rewrite Hm. cbn [Z.eqb TLS_AES_GCM negb]. set (ctx0 := set_aes_lock _ ctx).
  assert (hashed (pad0 aad ++ c) ctx0) as H0 by framed Ha.
  destruct (pad_any _ _ H0) as (t1&c1&n1&->&H1&M1). cbn [mbind option_bind].
  set (ctx1 := with_hash t1 c1 n1 ctx0) in *. change (aad_len ctx1) with (aad_len ctx). change (ct_len ctx1) with (ct_len ctx).
  rewrite Hal, Hct, !bitlen_ok by lia. set (lens := to_bytes 8 _ ++ to_bytes 8 _).
  assert (Z.of_nat (length lens) = 16) as Ll by (subst lens; rewrite length_app, !length_to_bytes; reflexivity).
  destruct (ghash_tag_ok _ ctx1 lens [] H1 ltac:(lia)) as (t2&c2&n2&E2&H2). rewrite app_nil_r, Ll in E2.
  unfold AES_BLOCK_SIZE. rewrite E2. cbn [mbind option_bind]. set (ctx2 := with_hash t2 c2 n2 ctx1) in *.
  assert (is_block (ghash_key ctx2)) as HH.
  { change (ghash_key ctx2) with (ghash_key ctx). rewrite Hh. apply cipher_block; [done|apply zero_block]. }
  destruct (hashed_tag _ _ H2) as [Et Bt].
  { rewrite mod16_app by done. replace (length lens) with 16%nat by lia. reflexivity. }
  { done. }
  { apply Forall_app. split; [apply pad_ok, Forall_app; split; [by apply pad_ok|done]|].
    apply Forall_app. split; apply to_bytes_ok. }
  change (auth_j0 ctx2) with (auth_j0 ctx).
  rewrite (proj1 (encrypt_block_ok key ctx2 (auth_j0 ctx) Hv ltac:(destruct Hk; split; assumption) HJ)).
  change (ghash_key ctx2) with (ghash_key ctx) in Et. rewrite Hh in Et.
  assert (xor_bytes (Cipher key (auth_j0 ctx)) (auth_tag ctx2) = code_tag key iv aad c) as ->.
  { rewrite <- (gctr_block key (auth_j0 ctx) _ Hv HJ Bt), Et, Hj. reflexivity. }
  assert (length (code_tag key iv aad c) = length (zeros 16)) as Lt.
  { unfold code_tag. rewrite <- Hj. rewrite length_GCTR by done. fold (len64 aad) (len64 c) in lens.
    change (len64 aad ++ len64 c) with lens. rewrite <- Et. apply Bt. }
  rewrite store_front by lia. cbn [mbind option_bind]. rewrite drop_ge, app_nil_r by lia. eexists. by split; [|rewrite Lt].
Qed.
Lemma digest_ok key iv aad c ctx : valid_key key -> gcm_done key iv aad c ctx -> Forall is_byte aad -> Forall is_byte c ->
  Z.of_nat (length aad) < 8192 -> Z.of_nat (length c) < 8192 -> exists ctx',
  tls_aes_digest (Some ctx) (Some (zeros 16)) = Some (true, Some ctx', Some (code_tag key iv aad c)).
Proof.
  intros Hv Hd Fa Fc La Lc. destruct (digest_tag key iv aad c ctx Hv Hd Fa Fc La Lc) as (ctx'&E&_). by exists ctx'.
Qed.

(** ** Sealing and opening *)

(** The calls the TLS layer makes for one record, all of which succeed. *)
Definition gcm_start (key iv : bytes) (aads : list bytes) : option tls_aes_context :=
  match tls_aes_init (Some blank_aes) TLS_AES_GCM (Some key) (Z.of_nat (length key)) (Some iv) (Z.of_nat (length iv)) with
  | Some (true, Some ctx) => feed_aad ctx aads
  | _ => None
  end.
Definition gcm_finish (r : option (bool * option tls_aes_context * option bytes)) : option (bytes * bytes) :=
  match r with
  | Some (true, ctx, Some out) =>
      match tls_aes_digest ctx (Some (zeros 16)) with
      | Some (true, _, Some tag) => Some (out, tag)
      | _ => None
      end
  | _ => None
  end.
Definition gcm_seal (key iv : bytes) (aads : list bytes) (p out : bytes) : option (bytes * bytes) :=
  ctx ← gcm_start key iv aads; gcm_finish (tls_aes_encrypt (Some ctx) (Some p) (Z.of_nat (length p)) (Some out)).
Definition gcm_open (key iv : bytes) (aads : list bytes) (c out : bytes) : option (bytes * bytes) :=
  ctx ← gcm_start key iv aads; gcm_finish (tls_aes_decrypt (Some ctx) (Some c) (Z.of_nat (length c)) (Some out)).
Definition gcm_check (key iv aad c tag : bytes) : option bool :=
  ctx ← gcm_start key iv [];
  tls_aes_verify (Some ctx) (if aad is [] then None else Some aad) (Z.of_nat (length aad))
    (Some c) (Z.of_nat (length c)) (Some tag).

Lemma gcm_start_ok key iv aads : valid_key key -> (0 < length iv <= 16)%nat -> Forall is_byte iv ->
  Z.of_nat (length (concat aads)) < 8192 -> exists ctx, gcm_start key iv aads = Some ctx /\ gcm_fresh key iv (concat aads) ctx.
Proof.
  intros Hv Hl F Ha. unfold gcm_start. destruct (init_gcm_ok key iv blank_aes Hv Hl F) as (ctx&->&H).
  apply (feed_aad_ok key iv aads [] ctx H). cbn [app]. lia.
Qed.
Lemma gcm_finish_ok key iv aad c ctx out : valid_key key -> gcm_done key iv aad c ctx -> Forall is_byte aad -> Forall is_byte c ->
  Z.of_nat (length aad) < 8192 -> Z.of_nat (length c) < 8192 ->
  gcm_finish (Some (true, Some ctx, Some out)) = Some (out, code_tag key iv aad c).
Proof.
  intros Hv H Fa Fc La Lc. unfold gcm_finish. destruct (digest_ok key iv aad c ctx Hv H Fa Fc La Lc) as [ctx' ->]. done.
Qed.

Lemma seal_text_facts key iv p : valid_key key -> (0 < length iv <= 16)%nat -> Forall is_byte iv ->
  length (seal_text key iv p) = length p /\ seal_text key iv (seal_text key iv p) = p /\
  (Forall is_byte p -> Forall is_byte (seal_text key iv p)).
Proof.
  intros Hv Hl F. destruct (init_gcm_ok key iv blank_aes Hv Hl F) as (ctx&_&H). destruct (fresh_icb _ _ _ _ H) as [Hicb Hs].
  rewrite !Hs. pose proof (length_GCTR key (aes_iv ctx) p Hv Hicb) as L. split; [done|].
  set (n := ((length p + 15) / 16)%nat).
  assert (length p <= length (key_stream (Cipher key) (aes_iv ctx) n))%nat as Ln.
  { rewrite length_stream; [|by intros; apply cipher_block|done].
    pose proof (Nat.div_mod_eq (length p + 15) 16). pose proof (Nat.mod_upper_bound (length p + 15) 16 ltac:(lia)). lia. }
  split.
  - unfold GCTR at 1. rewrite L. fold n. unfold GCTR. fold n. set (s := key_stream _ _ n) in *.
    rewrite <- (xor_bytes_cut p s (length p) eq_refl Ln).
    rewrite <- (xor_bytes_cut _ s (length p)); [|rewrite length_xor; [done|rewrite length_take; lia]|done].
    apply xor_cancel. rewrite length_take. lia.
  - intros Fp. unfold GCTR. apply (xor_bytes_ok p _ Fp). unfold key_stream. apply Forall_concat, Forall_fmap, Forall_seq.
    intros i _. exact (proj2 (cipher_block key _ Hv (iter_inc32 _ i Hicb))).
Qed.

Lemma gcm_seal_ok key iv aads p out : valid_key key -> (0 < length iv <= 16)%nat -> Forall is_byte iv ->
  Forall is_byte (concat aads) -> Z.of_nat (length (concat aads)) < 8192 -> p <> [] -> Forall is_byte p ->
  Z.of_nat (length p) < 8192 -> (length p <= length out)%nat ->
  gcm_seal key iv aads p out = Some (written (seal_text key iv p) out, code_tag key iv (concat aads) (seal_text key iv p)).
Proof.
  intros Hv Hl F Fa La Hp Fp Lp Lo. destruct (seal_text_facts key iv p Hv Hl F) as (Lc&_&Fc).
  unfold gcm_seal. destruct (gcm_start_ok key iv aads Hv Hl F La) as (ctx&->&H). cbn [mbind option_bind].
  destruct (encrypt_ok key iv (concat aads) p out ctx Hv H Hp Lo ltac:(lia)) as (ctx'&->&Hd).
  apply gcm_finish_ok; first [assumption|lia|exact (Fc Fp)].
Qed.
Lemma gcm_open_ok key iv aads c out : valid_key key -> (0 < length iv <= 16)%nat -> Forall is_byte iv ->
  Forall is_byte (concat aads) -> Z.of_nat (length (concat aads)) < 8192 -> c <> [] -> Forall is_byte c ->
  Z.of_nat (length c) < 8192 -> (length c <= length out)%nat ->
  gcm_open key iv aads c out = Some (written (seal_text key iv c) out, code_tag key iv (concat aads) c).
Proof.
  intros Hv Hl F Fa La Hp Fp Lp Lo.
  unfold gcm_open. destruct (gcm_start_ok key iv aads Hv Hl F La) as (ctx&->&H). cbn [mbind option_bind].
  unfold tls_aes_decrypt. destruct (decrypt_ok key iv (concat aads) c ctx false (Some out) Hv H Hp ltac:(lia) Lo) as (ctx'&->&Hd).
  cbn [fmap option_fmap option_map]. apply gcm_finish_ok; first [assumption|lia].
Qed.

Lemma gcm_check_ok key iv aad c tag : valid_key key -> (0 < length iv <= 16)%nat -> Forall is_byte iv ->
  Forall is_byte aad -> Z.of_nat (length aad) < 8192 -> c <> [] -> Forall is_byte c -> Z.of_nat (length c) < 8192 ->
  length tag = 16%nat -> gcm_check key iv aad c tag = Some (bool_decide (tag = code_tag key iv aad c)).
Proof.
  intros Hv Hl F Fa La Hp Fc Lc Lt. assert (0 < length c)%nat as Hpos by (destruct c; [done|cbn; lia]).
  unfold gcm_check. destruct (gcm_start_ok key iv [] Hv Hl F ltac:(cbn; lia)) as (ctx&->&H). cbn [mbind option_bind].
  unfold tls_aes_verify. cbn [mbind option_bind]. rewrite (gf_mode _ _ _ _ H). cbn [Z.eqb TLS_AES_GCM negb is_null orb].
  rewrite (proj2 (Z.eqb_neq (Z.of_nat (length c)) 0)) by lia. cbn [orb].
  assert (exists tmp, (if is_null (if aad is [] then None else Some aad) then Some ctx
      else r ← tls_aes_update_aad ctx (if aad is [] then None else Some aad) (Z.of_nat (length aad)); Some r.2) = Some tmp /\
      gcm_fresh key iv aad tmp /\
      negb (is_null (if aad is [] then None else Some aad)) && (Z.of_nat (length aad) =? 0) = false) as (tmp&E&Hf&E0).
  { destruct aad as [|x aad]; [by exists ctx|]. set (a := x :: aad) in *.
    destruct (update_aad_ok key iv [] a ctx H ltac:(cbn [app]; lia)) as (ctx'&E&H'). exists ctx'.
    cbn [is_null negb andb]. rewrite E. split; [done|]. split; [exact H'|]. apply Z.eqb_neq. subst a. cbn. lia. }
  rewrite E0, E. cbn [mbind option_bind].
  destruct (decrypt_ok key iv aad c tmp true None Hv Hf Hp ltac:(lia) eq_refl) as (ctx'&->&Hd).
  cbn [mbind option_bind fst snd]. destruct (digest_ok key iv aad c ctx' Hv Hd Fa Fc La Lc) as [ctx2 ->].
  cbn [mbind option_bind fst snd]. rewrite rd_all by (rewrite Lt; reflexivity). reflexivity.
Qed.

Lemma code_tag_standard key iv aad c : (length c mod 16 <> 0)%nat -> code_tag key iv aad c = tag_of_cipher key iv aad c.
Proof.
  intros Hc. unfold code_tag, tag_of_cipher. f_equal. f_equal. rewrite (app_assoc (pad0 aad)). f_equal.
  unfold pad_always. rewrite mod16_app by apply pad0_mod. rewrite <- app_assoc. f_equal. unfold pad0, padding.
  rewrite (Nat.mod_small (16 - _)) by lia. reflexivity.
Qed.

(** C11. Sealing a record is GCM of SP 800-38D: for every key of 128, 192 or 256
    bits, every initialisation vector of up to 16 bytes, associated data in any
    pieces and every message that does not end on a block boundary (both
    shorter than 8192 bytes), the calls produce the standard ciphertext and
    the standard tag. *)
Theorem gcm_seal_is_sp800_38d key iv aads p out : valid_key key -> (0 < length iv <= 16)%nat -> Forall is_byte iv ->
  Forall is_byte (concat aads) -> Z.of_nat (length (concat aads)) < 8192 -> Forall is_byte p ->
  Z.of_nat (length p) < 8192 -> (length p <= length out)%nat -> (length p mod 16 <> 0)%nat ->
  gcm_seal key iv aads p out =
  Some (seal_text key iv p ++ drop (length p) out, tag_of_cipher key iv (concat aads) (seal_text key iv p)).
Proof.
  intros Hv Hl F Fa La Fp Lp Lo Hm. destruct (seal_text_facts key iv p Hv Hl F) as (Lc&_).
  assert (p <> []) as Hp by (intros ->; by apply Hm).
  rewrite gcm_seal_ok by assumption. rewrite code_tag_standard by (rewrite Lc; exact Hm). unfold written. rewrite Lc. reflexivity.
Qed.

(** What was sealed opens: for every message the other end, however it
    feeds the same associated data, recovers the message with the same tag, and
    [tls_aes_verify] accepts exactly that tag. *)
Theorem gcm_round_trip key iv aads aads' p out out' : valid_key key -> (0 < length iv <= 16)%nat -> Forall is_byte iv ->
  Forall is_byte (concat aads) -> Z.of_nat (length (concat aads)) < 8192 -> concat aads' = concat aads ->
  p <> [] -> Forall is_byte p -> Z.of_nat (length p) < 8192 -> (length p <= length out)%nat -> (length p <= length out')%nat ->
  exists c tag, length c = length p /\
    gcm_seal key iv aads p out = Some (c ++ drop (length p) out, tag) /\
    gcm_open key iv aads' c out' = Some (p ++ drop (length p) out', tag) /\
    forall t, length t = 16%nat -> gcm_check key iv (concat aads) c t = Some (bool_decide (t = tag)).
Proof.
  intros Hv Hl F Fa La Ea Hp Fp Lp Lo Lo'. destruct (seal_text_facts key iv p Hv Hl F) as (Lc&Et&Fc).
  specialize (Fc Fp). exists (seal_text key iv p), (code_tag key iv (concat aads) (seal_text key iv p)).
  assert (seal_text key iv p <> []) as Hc by (intros E; rewrite E in Lc; by destruct p).
  split; [exact Lc|]. split; [rewrite gcm_seal_ok by assumption; unfold written; rewrite Lc; reflexivity|]. split.
  - rewrite gcm_open_ok by (rewrite ?Ea, ?Lc; assumption). rewrite Et, Ea. reflexivity.
  - intros t Ht. apply gcm_check_ok; rewrite ?Lc; assumption.
Qed.
