(* ===== verification/AesTyped.v ===== *)
(** * AES contexts stay well formed

    A typing invariant of [struct tls_aes_context]: the arrays keep their sizes
    and hold bytes, and the counters and flags stay in their ranges, whatever
    the operations are called with. *)

From S2P Require Import Prelude MemState RingList TlsHash TlsKdf Rsa RsaCorrect Aes AesRef AesBlock GcmField GcmCorrect.

Record aes_typed (ctx : tls_aes_context) : Prop := {
  ty_mode : aes_mode ctx = TLS_AES_GCM \/ aes_mode ctx = TLS_AES_CBC;
  ty_words : length (round_keys ctx) = 60%nat;
  ty_iv : is_block (aes_iv ctx);
  ty_op : 0 <= op_assoc ctx <= AES_OP_DECRYPT;
  ty_key : is_block (ghash_key ctx);
  ty_tag : is_block (auth_tag ctx);
  ty_last : is_block (last_block ctx);
  ty_last_len : 0 <= last_block_len ctx <= 16;
  ty_cache : is_block (aad_cache ctx);
  ty_cache_len : 0 <= aad_cache_len ctx < 16;
  ty_j0 : is_block (auth_j0 ctx);
  ty_counts : 0 <= aad_len ctx < 16777216 /\ 0 <= ct_len ctx < 16777216;
  ty_lock : 0 <= aes_lock ctx <= LOCK_ALLOW_NONE
}.

(** ** Buffers *)

Definition same_buffer (a b : bytes) : Prop := length b = length a /\ Forall is_byte b.
Lemma rd_typed p n d : rd (Some p) n = Some d -> Forall is_byte p -> Forall is_byte d /\ Z.of_nat (length d) = n.
Proof.
  unfold rd. cbn [mbind option_bind]. destruct (in_bounds p 0 n) eqn:E; [|discriminate]. intros [= <-] F.
  unfold in_bounds in E. zbool. split; [by apply Forall_take, Forall_drop|].
  unfold slice. rewrite length_take, length_drop. lia.
Qed.
Lemma rd_at_typed p off n d : rd_at p off n = Some d -> Forall is_byte p -> Forall is_byte d /\ Z.of_nat (length d) = n.
Proof.
  unfold rd_at, at_off. destruct (in_bounds p off 0); [|discriminate]. intros E F.
  eapply rd_typed; [exact E|by apply Forall_drop].
Qed.
Lemma store_typed b off d b' : store_at b off d = Some b' -> Forall is_byte b -> Forall is_byte d -> same_buffer b b'.
Proof.
  unfold store_at. destruct (in_bounds b off _) eqn:E; [|discriminate]. intros [= <-] Fb Fd. unfold in_bounds in E. zbool.
  split; [apply length_splice; lia|]. unfold splice. apply Forall_app. split; [by apply Forall_take|].
  apply Forall_app. split; [done|by apply Forall_drop].
Qed.
Lemma store_block b off d b' : store_at b off d = Some b' -> is_block b -> Forall is_byte d -> is_block b'.
Proof. intros E [L F] Fd. destruct (store_typed _ _ _ _ E F Fd) as [L' F']. split; [by rewrite L'|done]. Qed.
Lemma xor_into_typed b off n m b' : xor_into b off n m = Some b' -> Forall is_byte b -> Forall is_byte m -> same_buffer b b'.
Proof.
  unfold xor_into. destruct (rd_at b off n) as [s|] eqn:E1; [|discriminate]. cbn [mbind option_bind].
  destruct (rd (Some m) n) as [k|] eqn:E2; [|discriminate]. cbn [mbind option_bind]. intros E Fb Fm.
  eapply store_typed; [exact E|done|]. apply xor_bytes_ok; [eapply rd_at_typed|eapply rd_typed]; eauto.
Qed.
Lemma buffer_trans a b c : same_buffer a b -> same_buffer b c -> same_buffer a c.
Proof. intros [L _] [L' F]. split; [congruence|done]. Qed.

(** ** Blocks *)

Lemma encrypt_block_typed b ctx : is_block b -> is_block (aes_encrypt_block b ctx).
Proof.
  intros H. unfold aes_encrypt_block, encrypt_state, enc_last.
  ifs; apply transpose_block, add_block, shift_block, sub_block; repeat apply enc_rounds_block; apply add_block, transpose_block, H.
Qed.
Lemma inv_sub_block s : is_block s -> is_block (aes_InvSubBytes s).
Proof.
  intros [L F]. unfold aes_InvSubBytes. split; [by rewrite length_fmap|]. apply Forall_fmap. eapply Forall_impl; [exact F|].
  intros b Hb. cbn. pose proof (all_bytes_spec (fun b => (0 <=? aes_sub aes_invsbox b) && (aes_sub aes_invsbox b <? 256)) b
    ltac:(vm_compute; reflexivity) Hb) as E. cbv beta in E. unfold is_byte. lia.
Qed.
Lemma inv_shift_block s : is_block s -> is_block (aes_InvShiftRows s).
Proof. intros H. sixteen H. split; [done|]. cbn. repeat (apply Forall_cons; split); done. Qed.
Lemma inv_mix_block s : is_block s -> is_block (aes_InvMixColumns s).
Proof.
  intros H. sixteen H. split; [done|]. cbn -[gf Z.lxor].
  repeat (apply Forall_cons; split); [..|constructor]; repeat apply lxor_byte;
    first [by apply (gf_byte _ 2); [|lia] | by apply (gf_byte _ 3); [|lia] | by apply (gf_byte _ 4); [|lia] | by apply (gf_byte _ 5); [|lia]].
Qed.
Lemma dec_rounds_block ks l : forall s, is_block s -> is_block (foldl (dec_round ks) s l).
Proof.
  induction l as [|i l IH]; intros s H; [done|]. cbn [foldl]. apply IH. unfold dec_round.
  by apply inv_mix_block, add_block, inv_sub_block, inv_shift_block.
Qed.
Lemma decrypt_block_typed b ctx : is_block b -> is_block (aes_decrypt_block b ctx).
Proof.
  intros H. unfold aes_decrypt_block, decrypt_state, dec_last.
  ifs; apply transpose_block, add_block, inv_sub_block, inv_shift_block; repeat apply dec_rounds_block; apply add_block, transpose_block, H.
Qed.
Lemma fold_step_block H Y X : is_block H -> is_block Y -> is_block X -> is_block (fold_step H Y X).
Proof. intros HH HY HX. apply gf128_mul_product; [by apply xor_block|done]. Qed.

(** ** Hashing *)

Definition bytes_ptr (p : option bytes) : Prop := forall d, p = Some d -> Forall is_byte d.
Definition with_queue (cache : bytes) (n : Z) (ctx : tls_aes_context) : tls_aes_context :=
  set_aad_cache_len n (set_aad_cache cache ctx).
(** The outcome of hashing: a new queue and a new value. *)
Definition hash_result (ctx : tls_aes_context) (r : tls_aes_context * bytes) : Prop :=
  exists cache n, r.1 = with_queue cache n ctx /\ is_block cache /\ 0 <= n < 16 /\ is_block r.2.

Lemma rd_off_typed p off n d : rd_off p off n = Some d -> bytes_ptr p -> Forall is_byte d /\ Z.of_nat (length d) = n.
Proof. unfold rd_off. destruct p as [b|]; [|discriminate]. intros E F. eapply rd_at_typed; [exact E|by apply F]. Qed.

Lemma ghash_loop_typed data len : bytes_ptr data -> forall fuel ctx Y idx r,
  is_block (ghash_key ctx) -> is_block Y -> is_block (aad_cache ctx) -> 0 <= aad_cache_len ctx < 16 -> 
  ghash_loop fuel ctx Y data idx len = Some r -> hash_result ctx r.
Proof.
  intros Fd. induction fuel as [|fuel IH]; intros ctx Y idx r Hk HY Hc Hn E; [discriminate E|]. cbn [ghash_loop] in E.
  destruct (len <=? idx) eqn:El.
  { injection E as <-. exists (aad_cache ctx), (aad_cache_len ctx). split; [by destruct ctx|done]. }
  zbool. unfold AES_BLOCK_SIZE in E. destruct (_ <? 16) eqn:Es; zbool.
  - destruct (rd_off data idx _) as [part|] eqn:Er; [|discriminate E]. cbn [mbind option_bind] in E.
    destruct (rd_off_typed _ _ _ _ Er Fd) as [Fp _].
    destruct (store_at (aad_cache ctx) 0 part) as [cache|] eqn:Est; [|discriminate E]. cbn [mbind option_bind] in E.
    pose proof (store_block _ _ _ _ Est Hc Fp) as Hc'.
    destruct (IH (with_queue cache (Z.min 16 (len - idx)) ctx) Y _ r Hk HY Hc' ltac:(cbn; lia) E) as (c&n&E1&H1).
    exists c, n. split; [rewrite E1; reflexivity|exact H1].
  - destruct (rd_off data idx 16) as [tbuf|] eqn:Er; [|discriminate E]. cbn [mbind option_bind] in E.
    destruct (rd_off_typed _ _ _ _ Er Fd) as [Fp Lp].
    eapply IH; [exact Hk| |exact Hc|exact Hn|exact E]. apply fold_step_block; [done|done|]. split; [lia|done].
Qed.

Lemma ghash_typed ctx Y data len r : bytes_ptr data -> is_block (ghash_key ctx) -> is_block Y -> is_block (aad_cache ctx) ->
  0 <= aad_cache_len ctx < 16 -> 0 <= len -> ghash ctx Y data len = Some r -> hash_result ctx r.
Proof.
  intros Fd Hk HY Hc Hn Hlen E. unfold ghash, AES_BLOCK_SIZE in E. set (q := aad_cache_len ctx) in *.
  destruct (negb (q =? 0)) eqn:Eq; [|exact (ghash_loop_typed data len Fd _ ctx Y 0 r Hk HY Hc Hn E)]. zbool. rewrite u24_small in E by lia.
  destruct data as [d|]; [|discriminate E]. pose proof (Fd d eq_refl) as Fd'.
  destruct (rd (Some d) _) as [head|] eqn:Er; [|discriminate E]. cbn [mbind option_bind] in E.
  destruct (rd_typed _ _ _ Er Fd') as [Fh Lh]. destruct (_ <? 16) eqn:Es; zbool.
  - destruct (store_at (aad_cache ctx) q head) as [cache|] eqn:Est; [|discriminate E]. injection E as <-.
    exists cache, (u8 (q + Z.min len (16 - q))). split; [reflexivity|].
    split; [by eapply store_block|]. split; [rewrite u8_small by lia; lia|exact HY].
  - destruct (rd (Some (aad_cache ctx)) q) as [queued|] eqn:Er2; [|discriminate E]. cbn [mbind option_bind] in E.
    destruct (rd_typed _ _ _ Er2 (proj2 Hc)) as [Fq Lq].
    destruct (store_at (zeros 16) 0 queued) as [t1|] eqn:E1; [|discriminate E]. cbn [mbind option_bind] in E.
    pose proof (store_block _ _ _ _ E1 (proj1 zero_block) Fq) as B1.
    destruct (store_at t1 q head) as [t2|] eqn:E2; [|discriminate E]. cbn [mbind option_bind] in E.
    pose proof (store_block _ _ _ _ E2 B1 Fh) as B2.
    assert (is_block (hash_block ctx t2 Y)) as BH by by apply fold_step_block.
    destruct (ghash_loop_typed (Some d) len Fd _ (set_aad_cache_len 0 ctx) _ _ r Hk BH Hc ltac:(cbn; lia) E) as (c&n&Er1&H1).
    exists c, n. split; [rewrite Er1; reflexivity|exact H1].
Qed.

Lemma ghash_tag_typed ctx data len ctx' : bytes_ptr data -> aes_typed ctx -> 0 <= len ->
  ghash_tag ctx data len = Some ctx' -> aes_typed ctx' /\ exists cache n, ctx' = with_hash (auth_tag ctx') cache n ctx.
Proof.
  intros Fd [] Hlen E. unfold ghash_tag in E. destruct (ghash ctx (auth_tag ctx) data len) as [r|] eqn:Eg; [|discriminate E].
  injection E as <-. destruct (ghash_typed ctx (auth_tag ctx) data len r) as (c&n&E1&Hc&Hn&Ht); [assumption..|].
  rewrite E1. split; [split; assumption|]. exists c, n. reflexivity.
Qed.

(** ** Encryption and decryption *)

Lemma ctr_loop_typed inb off in_len blocks : Forall is_byte inb -> forall n idx ctx outb r, aes_typed ctx -> Forall is_byte outb ->
  ctr_loop n idx ctx inb outb off in_len blocks = Some r -> aes_typed r.1 /\ same_buffer outb r.2.
Proof.
  intros Fi. induction n as [|n IH]; intros idx ctx outb r Ht Fo E; [injection E as <-; done|]. cbn [ctr_loop] in E.
  destruct (rd_at inb _ _) as [part|] eqn:E1; [|discriminate E]. cbn [mbind option_bind] in E.
  destruct (rd_at_typed _ _ _ _ E1 Fi) as [Fp _].
  destruct (store_at outb _ part) as [o1|] eqn:E2; [|discriminate E]. cbn [mbind option_bind] in E.
  pose proof (store_typed _ _ _ _ E2 Fo Fp) as S1.
  pose proof (encrypt_block_typed (aes_iv ctx) ctx (ty_iv _ Ht)) as Hb.
  destruct (xor_into o1 _ _ _) as [o2|] eqn:E3; [|discriminate E]. cbn [mbind option_bind] in E.
  pose proof (xor_into_typed _ _ _ _ _ E3 (proj2 S1) (proj2 Hb)) as S2.
  destruct (increment_iv_ok (aes_iv ctx) (ty_iv _ Ht)) as [Ei Hi]. rewrite Ei in E.
  assert (0 <= Z.min AES_BLOCK_SIZE (u24 (in_len - off - idx * AES_BLOCK_SIZE)) <= 16) as Hm
    by (unfold AES_BLOCK_SIZE; pose proof (u24_range (in_len - off - idx * 16)); lia).
  match type of E with ctr_loop _ _ ?c _ _ _ _ _ = _ => assert (aes_typed c) as Hc end.
  { destruct Ht, (idx =? blocks); split; assumption. }
  destruct (IH _ _ _ _ Hc (proj2 S2) E) as [Hr S3].
  split; [exact Hr|]. eapply buffer_trans; [exact S1|]. by eapply buffer_trans.
Qed.
Lemma gcm_crypt_typed ctx inb outb in_len r : Forall is_byte inb -> Forall is_byte outb -> aes_typed ctx ->
  gcm_crypt ctx inb outb in_len = Some r -> aes_typed r.1 /\ same_buffer outb r.2.
Proof.
  intros Fi Fo Ht E. unfold gcm_crypt in E. destruct (negb _); [|exact (ctr_loop_typed inb _ _ _ Fi _ _ _ _ _ Ht Fo E)].
  destruct (rd (Some inb) _) as [part|] eqn:E1; [|discriminate E]. cbn [mbind option_bind] in E.
  destruct (rd_typed _ _ _ E1 Fi) as [Fp _].
  destruct (store_at outb 0 part) as [o1|] eqn:E2; [|discriminate E]. cbn [mbind option_bind] in E.
  pose proof (store_typed _ _ _ _ E2 Fo Fp) as S1.
  destruct (rd_at (last_block ctx) _ _) as [stream|] eqn:E3; [|discriminate E]. cbn [mbind option_bind] in E.
  destruct (rd_at_typed _ _ _ _ E3 (proj2 (ty_last _ Ht))) as [Fs _].
  destruct (xor_into o1 0 _ stream) as [o2|] eqn:E4; [|discriminate E]. cbn [mbind option_bind] in E.
  pose proof (xor_into_typed _ _ _ _ _ E4 (proj2 S1) Fs) as S2.
  destruct (ctr_loop_typed inb _ _ _ Fi _ _ _ _ _ Ht (proj2 S2) E) as [Hr S3]. split; [exact Hr|].
  eapply buffer_trans; [exact S1|]. by eapply buffer_trans.
Qed.

Lemma pad_aad_typed ctx ctx' : aes_typed ctx -> pad_aad ctx = Some ctx' -> aes_typed ctx'.
Proof.
  intros Ht E. unfold pad_aad in E. destruct (_ && _); [|by injection E as <-].
  eapply ghash_tag_typed in E; [apply E| |exact Ht|apply u24_range]. intros d [= <-]. apply zero_block.
Qed.

Lemma cbc_encrypt_typed inb in_len : Forall is_byte inb -> forall n idx ctx outb r, aes_typed ctx -> Forall is_byte outb ->
  cbc_encrypt_loop n idx ctx inb outb in_len = Some r -> aes_typed r.1 /\ same_buffer outb r.2.
Proof.
  intros Fi. induction n as [|n IH]; intros idx ctx outb r Ht Fo E; [injection E as <-; done|]. cbn [cbc_encrypt_loop] in E.
  set (k := Z.min _ _) in E. destruct (rd_at inb _ k) as [part|] eqn:E1; [|discriminate E]. cbn [mbind option_bind] in E.
  destruct (rd_at_typed _ _ _ _ E1 Fi) as [Fp Lp].
  assert (0 <= k <= 16) as Hk by (subst k; unfold AES_BLOCK_SIZE; pose proof (u24_range (in_len - idx * 16)); lia).
  unfold AES_BLOCK_SIZE in E. set (buf := part ++ _) in E.
  assert (is_block buf) as Hb.
  { split; [subst buf; rewrite length_app, length_replicate; lia|]. apply Forall_app. split; [done|].
    apply Forall_replicate. unfold is_byte. lia. }
  pose proof (encrypt_block_typed _ ctx (xor_block _ _ Hb (ty_iv _ Ht))) as Hc. set (c := aes_encrypt_block _ ctx) in *.
  destruct (store_at outb _ c) as [o1|] eqn:E2; [|discriminate E]. cbn [mbind option_bind] in E.
  pose proof (store_typed _ _ _ _ E2 Fo (proj2 Hc)) as S1.
  assert (aes_typed (set_aes_iv c ctx)) as Ht' by (destruct Ht; split; assumption).
  destruct (IH _ _ _ _ Ht' (proj2 S1) E) as [Hr S2]. split; [exact Hr|]. by eapply buffer_trans.
Qed.

Definition same_ptr (a b : option bytes) : Prop :=
  match a, b with Some x, Some y => same_buffer x y | None, None => True | _, _ => False end.
Lemma cbc_decrypt_typed inb : Forall is_byte inb -> forall n idx ctx outbuf r, aes_typed ctx -> bytes_ptr outbuf ->
  cbc_decrypt_loop n idx ctx inb outbuf = Some r -> aes_typed r.1 /\ same_ptr outbuf r.2.
Proof.
  intros Fi. induction n as [|n IH]; intros idx ctx outbuf r Ht Fo E.
  { injection E as <-. split; [done|]. destruct outbuf as [o|]; [|done]. split; [done|by apply Fo]. }
  cbn [cbc_decrypt_loop] in E. destruct (rd_at inb _ _) as [b|] eqn:E1; [|discriminate E]. cbn [mbind option_bind] in E.
  destruct (rd_at_typed _ _ _ _ E1 Fi) as [Fb Lb]. unfold AES_BLOCK_SIZE in *.
  destruct outbuf as [o|]; [|discriminate E]. cbn [mbind option_bind] in E.
  assert (is_block b) as Hb by (split; [lia|done]).
  pose proof (xor_block _ _ (decrypt_block_typed b ctx Hb) (ty_iv _ Ht)) as Hx.
  destruct (store_at o _ _) as [o1|] eqn:E2; [|discriminate E]. cbn [mbind option_bind] in E.
  pose proof (store_typed _ _ _ _ E2 (Fo o eq_refl) (proj2 Hx)) as S1.
  assert (aes_typed (set_aes_iv b ctx)) as Ht' by (destruct Ht; split; assumption).
  destruct (IH _ _ (Some o1) _ Ht' ltac:(intros d [= <-]; apply S1) E) as [Hr S2]. split; [exact Hr|].
  destruct r as [c [o2|]]; [|done]. by eapply buffer_trans.
Qed.

(** ** The operations *)

Lemma load_length n : forall idx key w w', load_words n idx key w = Some w' -> length w' = length w.
Proof.
  induction n as [|n IH]; intros idx key w w' E; [by injection E as <-|]. cbn [load_words] in E.
  destruct (word_at key idx); [|discriminate E]. cbn [mbind option_bind] in E. apply IH in E. by rewrite length_insert in E.
Qed.
Lemma expand_length n : forall idx Nk w w', expand_words n idx Nk w = Some w' -> length w' = length w.
Proof.
  induction n as [|n IH]; intros idx Nk w w' E; [by injection E as <-|]. cbn [expand_words] in E.
  destruct (w !! (idx - 1)%nat); [|discriminate E]. cbn [mbind option_bind] in E.
  match type of E with (?t ≫= _) = _ => destruct t; [|discriminate E] end. cbn [mbind option_bind] in E.
  destruct (w !! (idx - Nk)%nat); [|discriminate E]. cbn [mbind option_bind] in E. apply IH in E. by rewrite length_insert in E.
Qed.

Lemma bitlen_bytes n : 0 <= n < 16777216 -> Forall is_byte (bytelen_to_bitlen n).
Proof.
  intros H. unfold bytelen_to_bitlen. pose proof (Z.div_lt_upper_bound (8 * n) (2 ^ 24) 8). pose proof (Z.div_pos (8 * n) (2 ^ 24)).
  pose proof (Z.mod_pos_bound (8 * n / 256) 256). pose proof (Z.mod_pos_bound (8 * n) 256).
  repeat (apply Forall_cons; split); try (apply Forall_nil; exact I); unfold is_byte; lia.
Qed.
Lemma bytes_ptr_some d : Forall is_byte d -> bytes_ptr (Some d).
Proof. by intros F x [= <-]. Qed.
Lemma prepare_iv_typed ctx iv n ctx' : bytes_ptr iv -> aes_typed ctx -> 0 <= n <= 16 ->
  aes_gcm_prepare_iv ctx iv n = Some ctx' -> aes_typed ctx'.
Proof.
  intros Fi Ht Hn E. unfold aes_gcm_prepare_iv in E. destruct (n =? 12).
  { injection E as <-. destruct Ht. split; try assumption. destruct ty_iv0 as [L F].
    change (is_block (<[15%nat := 1]> (aes_iv ctx))).
    split; [by rewrite length_insert|]. apply Forall_insert; [done|unfold is_byte; lia]. }
  destruct iv as [b|]; [|discriminate E]. destruct (rd (Some b) n) as [d|] eqn:E1; [|discriminate E]. cbn [mbind option_bind] in E.
  destruct (rd_typed _ _ _ E1 (Fi b eq_refl)) as [Fd _].
  destruct (store_at (zeros 16) 0 d) as [t1|] eqn:E2; [|discriminate E]. cbn [mbind option_bind] in E.
  pose proof (store_block _ _ _ _ E2 (proj1 zero_block) Fd) as B1.
  destruct (ghash ctx (zeros 16) (Some t1) 16) as [r|] eqn:E3; [|discriminate E]. cbn [mbind option_bind] in E.
  destruct (ghash_typed ctx _ _ 16 _ (bytes_ptr_some _ (proj2 B1)) (ty_key _ Ht) (proj1 zero_block) (ty_cache _ Ht)
    (ty_cache_len _ Ht) ltac:(lia) E3) as (c&q&Er&Hc&Hq&HY).
  destruct (store_at (zeros 16) 8 _) as [t2|] eqn:E4; [|discriminate E]. cbn [mbind option_bind] in E.
  pose proof (store_block _ _ _ _ E4 (proj1 zero_block) (bitlen_bytes n ltac:(lia))) as B2.
  rewrite Er in E. destruct (ghash _ r.2 (Some t2) 16) as [r'|] eqn:E5; [|discriminate E]. injection E as <-.
  destruct (ghash_typed (with_queue c q ctx) _ _ 16 _ (bytes_ptr_some _ (proj2 B2)) (ty_key _ Ht) HY Hc Hq ltac:(lia) E5) as (c'&q'&->&Hc'&Hq'&HY').
  destruct Ht. split; assumption.
Qed.

Lemma init_typed ctx0 mode key key_len iv iv_len ctx : bytes_ptr key -> bytes_ptr iv -> 0 <= iv_len ->
  tls_aes_init (Some ctx0) mode key key_len iv iv_len = Some (true, Some ctx) -> aes_typed ctx.
Proof.
  intros Fk Fi Hn E. unfold tls_aes_init in E. destruct key as [k|]; [|discriminate E]. destruct iv as [v|]; [|discriminate E].
  unfold AES_BLOCK_SIZE in E. destruct (16 <? iv_len) eqn:El; [discriminate E|]. zbool.
  destruct (key_rounds _) as [[Nr Nk]|]; [|discriminate E].
  destruct (rd (Some v) iv_len) as [ivb|] eqn:E1; [|discriminate E]. cbn [mbind option_bind] in E.
  destruct (rd_typed _ _ _ E1 (Fi v eq_refl)) as [Fv _].
  destruct (store_at (aes_iv blank_aes) 0 ivb) as [iv'|] eqn:E2; [|discriminate E]. cbn [mbind option_bind] in E.
  pose proof (store_block _ _ _ _ E2 (proj1 zero_block) Fv) as Biv.
  destruct (load_words Nk 0 k _) as [w1|] eqn:E3; [|discriminate E]. cbn [mbind option_bind] in E.
  destruct (expand_words _ _ _ w1) as [w|] eqn:E4; [|discriminate E]. cbn [mbind option_bind] in E.
  apply load_length in E3. apply expand_length in E4. rewrite E3 in E4. change (length (round_keys _)) with 60%nat in E4.
  set (ctx1 := set_round_keys w _) in E. pose proof (proj1 zero_block) as Bz.
  assert (aes_typed ctx1) as H1 by (split; (assumption || (cbn; unfold AES_OP_DECRYPT, LOCK_ALLOW_NONE; lia) || (by left))).
  destruct (mode =? TLS_AES_GCM) eqn:Em.
  - zbool. set (ctx2 := set_ghash_key _ ctx1) in E.
    assert (aes_typed ctx2) as H2 by (pose proof (encrypt_block_typed _ ctx1 Bz); destruct H1; split; assumption).
    destruct (aes_gcm_prepare_iv ctx2 _ _) as [ctx3|] eqn:E5; [|discriminate E]. cbn [mbind option_bind] in E.
    pose proof (prepare_iv_typed ctx2 _ iv_len ctx3 Fi H2 ltac:(lia) E5) as H3.
    destruct (increment_iv_ok (aes_iv ctx3) (ty_iv _ H3)) as [Ei Hi]. 
    change (aes_iv (set_auth_j0 (aes_iv ctx3) (set_auth_tag (zeros 16) ctx3))) with (aes_iv ctx3) in E. rewrite Ei in E.
    injection E as <-. destruct H3. split; (assumption || (by left)).
  - destruct (mode =? TLS_AES_CBC) eqn:Ec; [|discriminate E]. zbool. injection E as <-. destruct H1. split; (assumption || (by right)).
Qed.

Lemma update_aad_typed ctx aad len b ctx' : bytes_ptr aad -> aes_typed ctx -> 0 <= len ->
  tls_aes_update_aad ctx aad len = Some (b, ctx') -> aes_typed ctx'.
Proof.
  intros Fa Ht Hn E. unfold tls_aes_update_aad in E. destruct (negb _); [by injection E as _ <-|].
  destruct (_ <? _); [by injection E as _ <-|]. destruct (ghash_tag ctx aad len) as [c|] eqn:Eg; [|discriminate E].
  injection E as _ <-. apply ghash_tag_typed in Eg as [Ht' _]; [|done..]. pose proof (u24_range (aad_len c + len)).
  destruct Ht'. split; try assumption. split; [assumption|apply ty_counts0].
Qed.

Lemma digest_typed ctx digest b ctx' out : bytes_ptr digest -> aes_typed ctx ->
  tls_aes_digest (Some ctx) digest = Some (b, Some ctx', out) -> aes_typed ctx' /\ same_ptr digest out.
Proof.
  intros Fd Ht E. unfold tls_aes_digest in E. cbn [mbind option_bind] in E.
  assert (same_ptr digest digest) as Sd by (destruct digest; [split; [done|by apply Fd]|done]).
  destruct (negb _); [by injection E as _ <- <-|]. destruct digest as [o|]; [|by injection E as _ <- <-].
  match type of E with (ghash_tag ?c _ _ ≫= _) = _ => assert (aes_typed c) as H0 by (destruct Ht; split; (assumption || (cbn; unfold LOCK_ALLOW_NONE; lia))) end.
  destruct (ghash_tag _ _ _) as [c1|] eqn:E1; [|discriminate E]. cbn [mbind option_bind] in E.
  apply ghash_tag_typed in E1 as [H1 _]; [|apply bytes_ptr_some, zero_block|exact H0|apply u24_range].
  destruct (ghash_tag c1 _ _) as [c2|] eqn:E2; [|discriminate E]. cbn [mbind option_bind] in E.
  apply ghash_tag_typed in E2 as [H2 _]; [|apply bytes_ptr_some, Forall_app; split; apply bitlen_bytes, H1|exact H1|done].
  destruct (store_at o 0 _) as [o1|] eqn:E3; [|discriminate E]. injection E as _ <- <-. split; [exact H2|].
  eapply store_typed; [exact E3|by apply Fd|]. apply xor_block; [apply encrypt_block_typed, H2|apply H2].
Qed.

Lemma same_ptr_refl p : bytes_ptr p -> same_ptr p p.
Proof. intros F. destruct p; [split; [done|by apply F]|done]. Qed.

Lemma encrypt_typed ctx inbuf n outbuf b ctx' out : bytes_ptr inbuf -> bytes_ptr outbuf -> aes_typed ctx -> 0 <= n ->
  tls_aes_encrypt (Some ctx) inbuf n outbuf = Some (b, Some ctx', out) -> aes_typed ctx' /\ same_ptr outbuf out.
Proof.
  intros Fi Fo Ht Hn E. unfold tls_aes_encrypt in E. pose proof (same_ptr_refl _ Fo) as So.
  destruct inbuf as [i|]; [|by injection E as _ <- <-]. destruct outbuf as [o|]; [|by injection E as _ <- <-].
  destruct (n =? 0); [by injection E as _ <- <-|]. destruct (_ =? AES_OP_DECRYPT); [by injection E as _ <- <-|].
  destruct (LOCK_ALLOW_ENCRYPT <? _); [by injection E as _ <- <-|].
  set (c0 := set_op_assoc _ ctx) in E.
  assert (aes_typed c0) as H0 by (destruct Ht; split; (assumption || (cbn; unfold AES_OP_ENCRYPT, AES_OP_DECRYPT; lia))).
  destruct (_ =? TLS_AES_GCM).
  - destruct (pad_aad c0) as [c1|] eqn:E1; [|discriminate E]. cbn [mbind option_bind] in E. apply pad_aad_typed in E1; [|exact H0].
    set (c2 := set_aes_lock _ c1) in E.
    assert (aes_typed c2) as H2 by (destruct E1; split; (assumption || (cbn; unfold LOCK_ALLOW_ENCRYPT, LOCK_ALLOW_NONE; lia))).
    destruct (gcm_crypt c2 i o n) as [r|] eqn:E2; [|discriminate E]. cbn [mbind option_bind] in E.
    apply gcm_crypt_typed in E2 as [H3 S3]; [|by apply Fi|by apply Fo|exact H2].
    destruct (ghash_tag _ _ _) as [c3|] eqn:E3; [|discriminate E]. cbn [mbind option_bind] in E.
    apply ghash_tag_typed in E3 as [H4 _]; [|apply bytes_ptr_some, S3|exact H3|exact Hn]. injection E as _ <- <-.
    split; [|exact S3]. pose proof (u24_range (ct_len c3 + n)). destruct H4. split; try assumption. split; [apply ty_counts0|assumption].
  - destruct (_ =? TLS_AES_CBC); [|by injection E as _ <- <-].
    destruct (cbc_encrypt_loop _ _ _ _ _ _) as [r|] eqn:E1; [|discriminate E]. injection E as _ <- <-.
    eapply cbc_encrypt_typed in E1; [exact E1|by apply Fi|exact H0|by apply Fo].
Qed.

Lemma decrypt_typed v ctx inbuf n outbuf b ctx' out : bytes_ptr inbuf -> bytes_ptr outbuf -> aes_typed ctx -> 0 <= n ->
  aes_decrypt v (Some ctx) inbuf n outbuf = Some (b, Some ctx', out) -> aes_typed ctx' /\ same_ptr outbuf out.
Proof.
  intros Fi Fo Ht Hn E. unfold aes_decrypt in E. pose proof (same_ptr_refl _ Fo) as So.
  destruct inbuf as [i|]; [|by injection E as _ <- <-].
  destruct (n =? 0); [by injection E as _ <- <-|]. destruct (_ && _); [by injection E as _ <- <-|].
  destruct (_ =? AES_OP_ENCRYPT); [by injection E as _ <- <-|].
  destruct (LOCK_ALLOW_ENCRYPT <? _); [by injection E as _ <- <-|].
  set (c0 := set_op_assoc _ ctx) in E.
  assert (aes_typed c0) as H0 by (destruct Ht; split; (assumption || (cbn; unfold AES_OP_DECRYPT; lia))).
  destruct (_ =? TLS_AES_GCM).
  - destruct (pad_aad c0) as [c1|] eqn:E1; [|discriminate E]. cbn [mbind option_bind] in E. apply pad_aad_typed in E1; [|exact H0].
    destruct (ghash_tag _ _ _) as [c3|] eqn:E3; [|discriminate E]. cbn [mbind option_bind] in E.
    apply ghash_tag_typed in E3 as [H4 _]; [|exact Fi|exact E1|exact Hn].
    set (c4 := set_ct_len _ c3) in E. assert (aes_typed c4) as H5.
    { pose proof (u24_range (ct_len c3 + n)). destruct H4. split; try assumption. split; [apply ty_counts0|assumption]. }
    destruct outbuf as [o|]; [|by injection E as _ <- <-]. set (c2 := set_aes_lock _ c4) in E.
    assert (aes_typed c2) as H2 by (destruct H5; split; (assumption || (cbn; unfold LOCK_ALLOW_ENCRYPT, LOCK_ALLOW_NONE; lia))).
    destruct (gcm_crypt c2 i o n) as [r|] eqn:E2; [|discriminate E]. injection E as _ <- <-.
    eapply gcm_crypt_typed in E2; [exact E2|by apply Fi|by apply Fo|exact H2].
  - destruct (_ =? TLS_AES_CBC); [|by injection E as _ <- <-]. destruct (negb _); [by injection E as _ <- <-|].
    destruct (cbc_decrypt_loop _ _ _ _ _) as [r|] eqn:E1; [|discriminate E]. injection E as _ <- <-.
    eapply cbc_decrypt_typed in E1; [exact E1|by apply Fi|exact H0|exact Fo].
Qed.

(** ** What a context keeps *)

Ltac unbind E :=
  match type of E with (?t ≫= _) = _ => destruct t eqn:?; [|discriminate E] end; cbn [mbind option_bind] in E.

(** Key material, mode and the initial counter block; then the direction and the
    lock, which the blocks of a message do not touch either. *)
Definition key_part (c : tls_aes_context) := (aes_mode c, aes_keysize c, round_keys c, ghash_key c, auth_j0 c).
Definition fixed_part (c : tls_aes_context) := (key_part c, op_assoc c, aes_lock c).
Record aes_evolves (c c' : tls_aes_context) : Prop := {
  ev_key : key_part c' = key_part c;
  ev_lock : aes_lock c <= aes_lock c';
  ev_op : op_assoc c <> AES_OP_NONE -> op_assoc c' = op_assoc c
}.
#[global] Instance aes_evolves_preorder : PreOrder aes_evolves.
Proof.
  split; [intros c; by split|]. intros a b c [H1 H2 H3] [H4 H5 H6]. split; [congruence|lia|].
  intros H. rewrite <- (H3 H). apply H6. by rewrite (H3 H).
Qed.
Lemma fixed_evolves c c' : fixed_part c' = fixed_part c -> aes_evolves c c'.
Proof. unfold fixed_part. intros [= H1 H2 H3 H4 H5 H6 H7]. split; [unfold key_part; congruence|lia|congruence]. Qed.

Lemma ghash_tag_fixed ctx data len ctx' : bytes_ptr data -> aes_typed ctx -> 0 <= len ->
  ghash_tag ctx data len = Some ctx' -> fixed_part ctx' = fixed_part ctx.
Proof. intros Fd Ht Hn E. apply ghash_tag_typed in E as [_ (c&n&->)]; done. Qed.
Lemma pad_aad_fixed ctx ctx' : aes_typed ctx -> pad_aad ctx = Some ctx' -> fixed_part ctx' = fixed_part ctx.
Proof.
  intros Ht E. unfold pad_aad in E. destruct (_ && _); [|by injection E as <-].
  eapply ghash_tag_fixed; [|exact Ht|apply u24_range|exact E]. apply bytes_ptr_some, zero_block.
Qed.
Lemma ctr_loop_fixed n : forall idx ctx inb outb off len blocks r,
  ctr_loop n idx ctx inb outb off len blocks = Some r -> fixed_part r.1 = fixed_part ctx.
Proof.
  induction n as [|n IH]; intros idx ctx inb outb off len blocks r E; [by injection E as <-|]. cbn [ctr_loop] in E.
  do 3 unbind E.
  apply IH in E. rewrite E. by destruct (_ =? _).
Qed.
Lemma gcm_crypt_fixed ctx inb outb n r : gcm_crypt ctx inb outb n = Some r -> fixed_part r.1 = fixed_part ctx.
Proof.
  intros E. unfold gcm_crypt in E. destruct (negb _); [|by apply ctr_loop_fixed in E].
  do 4 unbind E.
  by apply ctr_loop_fixed in E.
Qed.
Lemma cbc_encrypt_fixed n : forall idx ctx inb outb len r,
  cbc_encrypt_loop n idx ctx inb outb len = Some r -> fixed_part r.1 = fixed_part ctx.
Proof.
  induction n as [|n IH]; intros idx ctx inb outb len r E; [by injection E as <-|]. cbn [cbc_encrypt_loop] in E.
  do 2 unbind E.
  by apply IH in E.
Qed.
Lemma cbc_decrypt_fixed n : forall idx ctx inb outb r,
  cbc_decrypt_loop n idx ctx inb outb = Some r -> fixed_part r.1 = fixed_part ctx.
Proof.
  induction n as [|n IH]; intros idx ctx inb outb r E; [by injection E as <-|]. cbn [cbc_decrypt_loop] in E.
  do 3 unbind E.
  by apply IH in E.
Qed.

(** ** Every call *)

Lemma update_aad_evolves ctx aad len b ctx' : bytes_ptr aad -> aes_typed ctx -> 0 <= len ->
  tls_aes_update_aad ctx aad len = Some (b, ctx') -> aes_evolves ctx ctx'.
Proof.
  intros Fa Ht Hn E. unfold tls_aes_update_aad in E. destruct (negb _); [by injection E as _ <-|].
  destruct (_ <? _); [by injection E as _ <-|]. destruct (ghash_tag ctx aad len) as [c|] eqn:Eg; [|discriminate E].
  injection E as _ <-. apply fixed_evolves. change (fixed_part c = fixed_part ctx). eapply ghash_tag_fixed; eassumption.
Qed.
Lemma digest_evolves ctx digest b ctx' out : aes_typed ctx ->
  tls_aes_digest (Some ctx) digest = Some (b, Some ctx', out) -> aes_evolves ctx ctx'.
Proof.
  intros Ht E. unfold tls_aes_digest in E. cbn [mbind option_bind] in E.
  destruct (negb _); [by injection E as _ <- _|]. destruct digest as [o|]; [|by injection E as _ <- _].
  set (c0 := set_aes_lock LOCK_ALLOW_NONE ctx) in E.
  assert (aes_typed c0) as H0 by (destruct Ht; split; (assumption || (cbn; unfold LOCK_ALLOW_NONE; lia))).
  destruct (ghash_tag c0 _ _) as [c1|] eqn:E1; [|discriminate E]. cbn [mbind option_bind] in E.
  pose proof (bytes_ptr_some _ (proj2 (proj1 zero_block))) as Fz.
  pose proof (ghash_tag_fixed _ _ _ _ Fz H0 (proj1 (u24_range _)) E1) as F1.
  apply ghash_tag_typed in E1 as [H1 _]; [|exact Fz|exact H0|apply u24_range].
  destruct (ghash_tag c1 _ _) as [c2|] eqn:E2; [|discriminate E]. cbn [mbind option_bind] in E.
  apply ghash_tag_fixed in E2; [|apply bytes_ptr_some, Forall_app; split; apply bitlen_bytes, H1|exact H1|done].
  unbind E. injection E as _ <- _. transitivity c0; [|apply fixed_evolves; congruence].
  split; [done|apply (ty_lock _ Ht)|done].
Qed.

Lemma direction_evolves op l ctx : aes_typed ctx -> op_assoc ctx = op \/ op_assoc ctx = AES_OP_NONE -> aes_lock ctx <= l ->
  aes_evolves ctx (set_aes_lock l (set_op_assoc op ctx)).
Proof. intros Ht Ho Hl. split; [done|exact Hl|]. intros Hn. cbn. by destruct Ho. Qed.

Lemma encrypt_evolves ctx inbuf n outbuf b ctx' out : bytes_ptr inbuf -> bytes_ptr outbuf -> aes_typed ctx -> 0 <= n ->
  tls_aes_encrypt (Some ctx) inbuf n outbuf = Some (b, Some ctx', out) -> aes_evolves ctx ctx'.
Proof.
  intros Fi Fo Ht Hn E. unfold tls_aes_encrypt in E.
  destruct inbuf as [i|]; [|by injection E as _ <- _]. destruct outbuf as [o|]; [|by injection E as _ <- _].
  destruct (n =? 0); [by injection E as _ <- _|]. destruct (_ =? AES_OP_DECRYPT) eqn:Ed; [by injection E as _ <- _|].
  destruct (LOCK_ALLOW_ENCRYPT <? _) eqn:El; [by injection E as _ <- _|].
  set (c0 := set_op_assoc _ ctx) in E. pose proof (ty_op _ Ht) as Hop. unfold AES_OP_DECRYPT in *. zbool.
  assert (op_assoc ctx = AES_OP_ENCRYPT \/ op_assoc ctx = AES_OP_NONE) as Ho by (unfold AES_OP_ENCRYPT, AES_OP_NONE; lia).
  assert (aes_typed c0) as H0 by (destruct Ht; split; (assumption || (cbn; unfold AES_OP_ENCRYPT, AES_OP_DECRYPT; lia))).
  assert (aes_evolves ctx c0) as V0 by (exact (direction_evolves AES_OP_ENCRYPT (aes_lock ctx) ctx Ht Ho (Z.le_refl _))).
  destruct (_ =? TLS_AES_GCM).
  - destruct (pad_aad c0) as [c1|] eqn:E1; [|discriminate E]. cbn [mbind option_bind] in E.
    pose proof (pad_aad_fixed _ _ H0 E1) as F1. apply pad_aad_typed in E1; [|exact H0].
    set (c2 := set_aes_lock _ c1) in E.
    assert (aes_typed c2) as H2 by (destruct E1; split; (assumption || (cbn; unfold LOCK_ALLOW_ENCRYPT, LOCK_ALLOW_NONE; lia))).
    destruct (gcm_crypt c2 i o n) as [r|] eqn:E2; [|discriminate E]. cbn [mbind option_bind] in E.
    pose proof (gcm_crypt_fixed _ _ _ _ _ E2) as F2. apply gcm_crypt_typed in E2 as [H3 S3]; [|by apply Fi|by apply Fo|exact H2].
    destruct (ghash_tag _ _ _) as [c3|] eqn:E3; [|discriminate E]. cbn [mbind option_bind] in E.
    apply ghash_tag_fixed in E3; [|apply bytes_ptr_some, S3|exact H3|exact Hn]. injection E as _ <- _.
    transitivity c0; [exact V0|]. transitivity c1; [by apply fixed_evolves|]. transitivity c2.
    + split; [done| |done]. unfold fixed_part in F1. injection F1 as F1. cbn. unfold c0 in *. cbn in *. lia.
    + apply fixed_evolves. change (fixed_part c3 = fixed_part c2). congruence.
  - destruct (_ =? TLS_AES_CBC); [|by injection E as _ <- _].
    destruct (cbc_encrypt_loop _ _ _ _ _ _) as [r|] eqn:E1; [|discriminate E]. injection E as _ <- _.
    transitivity c0; [exact V0|]. by apply fixed_evolves, (cbc_encrypt_fixed _ _ _ _ _ _ _ E1).
Qed.
Lemma lock_evolves c : aes_lock c <= LOCK_ALLOW_ENCRYPT -> aes_evolves c (set_aes_lock LOCK_ALLOW_ENCRYPT c).
Proof. intros H. by split. Qed.
Lemma decrypt_evolves v ctx inbuf n outbuf b ctx' out : bytes_ptr inbuf -> aes_typed ctx -> 0 <= n ->
  aes_decrypt v (Some ctx) inbuf n outbuf = Some (b, Some ctx', out) -> aes_evolves ctx ctx'.
Proof.
  intros Fi Ht Hn E. unfold aes_decrypt in E.
  destruct inbuf as [i|]; [|by injection E as _ <- _].
  destruct (n =? 0); [by injection E as _ <- _|]. destruct (_ && _); [by injection E as _ <- _|].
  destruct (_ =? AES_OP_ENCRYPT) eqn:Ed; [by injection E as _ <- _|].
  destruct (LOCK_ALLOW_ENCRYPT <? _) eqn:El; [by injection E as _ <- _|].
  set (c0 := set_op_assoc _ ctx) in E. pose proof (ty_op _ Ht) as Hop. unfold AES_OP_DECRYPT, AES_OP_ENCRYPT in *. zbool.
  assert (op_assoc ctx = AES_OP_DECRYPT \/ op_assoc ctx = AES_OP_NONE) as Ho by (unfold AES_OP_DECRYPT, AES_OP_NONE; lia).
  assert (aes_typed c0) as H0 by (destruct Ht; split; (assumption || (cbn; unfold AES_OP_DECRYPT; lia))).
  assert (aes_evolves ctx c0) as V0 by (exact (direction_evolves AES_OP_DECRYPT (aes_lock ctx) ctx Ht Ho (Z.le_refl _))).
  transitivity c0; [exact V0|]. destruct (_ =? TLS_AES_GCM).
  - destruct (pad_aad c0) as [c1|] eqn:E1; [|discriminate E]. cbn [mbind option_bind] in E.
    pose proof (pad_aad_fixed _ _ H0 E1) as F1. apply pad_aad_typed in E1; [|exact H0].
    destruct (ghash_tag _ _ _) as [c3|] eqn:E3; [|discriminate E]. cbn [mbind option_bind] in E.
    apply ghash_tag_fixed in E3; [|exact Fi|exact E1|exact Hn]. set (c4 := set_ct_len _ c3) in E.
    assert (fixed_part c4 = fixed_part c0) as F4 by (change (fixed_part c3 = fixed_part c0); congruence).
    transitivity c4; [by apply fixed_evolves|]. destruct outbuf as [o|]; [|by injection E as _ <- _].
    destruct (gcm_crypt _ i o n) as [r|] eqn:E2; [|discriminate E]. injection E as _ <- _.
    apply gcm_crypt_fixed in E2. transitivity (set_aes_lock LOCK_ALLOW_ENCRYPT c4); [|by apply fixed_evolves].
    apply lock_evolves. unfold fixed_part in F4. injection F4 as _ _ _ _ _ _ F4. change (aes_lock c3 <= LOCK_ALLOW_ENCRYPT). rewrite F4. exact El.
  - destruct (_ =? TLS_AES_CBC); [|by injection E as _ <- _]. destruct (negb _); [by injection E as _ <- _|].
    destruct (cbc_decrypt_loop _ _ _ _ _) as [r|] eqn:E1; [|discriminate E]. injection E as _ <- _.
    by apply fixed_evolves, (cbc_decrypt_fixed _ _ _ _ _ _ E1).
Qed.

(** One call on a context, with whatever arguments the caller has: buffers of
    bytes and lengths that need not match them.  A call that reads or writes
    outside its buffers does not return and makes no step. *)
Inductive aes_step (ctx : tls_aes_context) : tls_aes_context -> Prop :=
  | step_update_aad aad len b ctx' : bytes_ptr aad -> 0 <= len ->
      tls_aes_update_aad ctx aad len = Some (b, ctx') -> aes_step ctx ctx'
  | step_encrypt inbuf n outbuf b ctx' out : bytes_ptr inbuf -> bytes_ptr outbuf -> 0 <= n ->
      tls_aes_encrypt (Some ctx) inbuf n outbuf = Some (b, Some ctx', out) -> aes_step ctx ctx'
  | step_decrypt inbuf n outbuf b ctx' out : bytes_ptr inbuf -> bytes_ptr outbuf -> 0 <= n ->
      tls_aes_decrypt (Some ctx) inbuf n outbuf = Some (b, Some ctx', out) -> aes_step ctx ctx'
  | step_digest digest b ctx' out : bytes_ptr digest ->
      tls_aes_digest (Some ctx) digest = Some (b, Some ctx', out) -> aes_step ctx ctx'.

Lemma aes_step_ok ctx ctx' : aes_step ctx ctx' -> aes_typed ctx -> aes_typed ctx' /\ aes_evolves ctx ctx'.
Proof.
  intros [aad len b c Fa Hn E|i n o b c out Fi Fo Hn E|i n o b c out Fi Fo Hn E|d b c out Fd E] Ht.
  - split; [by eapply update_aad_typed|by eapply update_aad_evolves].
  - split; [exact (proj1 (encrypt_typed _ _ _ _ _ _ _ Fi Fo Ht Hn E))|exact (encrypt_evolves _ _ _ _ _ _ _ Fi Fo Ht Hn E)].
  - split; [exact (proj1 (decrypt_typed _ _ _ _ _ _ _ _ Fi Fo Ht Hn E))|exact (decrypt_evolves _ _ _ _ _ _ _ _ Fi Ht Hn E)].
  - split; [exact (proj1 (digest_typed _ _ _ _ _ Fd Ht E))|exact (digest_evolves _ _ _ _ _ Ht E)].
Qed.

(** C31. A context that tls_aes_init accepted stays well formed under every
    sequence of calls that return, whatever buffers and lengths they get: its
    arrays keep their sizes and hold bytes, its counters stay in range; the key
    schedule, the mode and the tag's counter block never change, the lock is
    never loosened, and a context that began to encrypt never decrypts. *)
Theorem aes_context_typed ctx0 mode key key_len iv iv_len ctx ctx' :
  bytes_ptr key -> bytes_ptr iv -> 0 <= iv_len ->
  tls_aes_init (Some ctx0) mode key key_len iv iv_len = Some (true, Some ctx) ->
  rtc aes_step ctx ctx' -> aes_typed ctx' /\ aes_evolves ctx ctx'.
Proof.
  intros Fk Fi Hn E Hr. pose proof (init_typed _ _ _ _ _ _ _ Fk Fi Hn E) as Ht.
  clear E. induction Hr as [c|a b c Hs _ IH]; [done|]. destruct (aes_step_ok _ _ Hs Ht) as [Hb Ve].
  destruct (IH Hb) as [Hc Ve']. split; [exact Hc|by transitivity b].
Qed.
