(* ===== verification/CbcCorrect.v ===== *)
(** * AES: the block cipher and CBC

    The theorems about the block cipher for the contexts [tls_aes_init] makes,
    CBC against SP 800-38A, and what the code does at block boundaries. *)

From S2P Require Import Prelude MemState RingList TlsHash TlsKdf Rsa RsaCorrect Aes AesRef AesBlock GcmField GcmCorrect.
Import Fips197 Gcm.

(** ** The block cipher *)

Lemma init_keyed c0 mode key iv ctx : valid_key key -> (length iv <= 16)%nat ->
  tls_aes_init (Some c0) mode (Some key) (Z.of_nat (length key)) (Some iv) (Z.of_nat (length iv)) = Some (true, Some ctx) ->
  keyed key ctx.
Proof.
  intros Hv Hl. rewrite init_front by assumption. cbv zeta.
  assert (keyed key (key_context key iv)) as Hk by (split; exact eq_refl).
  assert (forall c c', aes_keysize c' = aes_keysize c -> round_keys c' = round_keys c -> keyed key c -> keyed key c') as Hf.
  { intros c c' E1 E2 [K1 K2]. split; [by rewrite E1|by rewrite E2]. }
  destruct (mode =? TLS_AES_GCM) eqn:Em.
  - set (ctx1 := set_ghash_key _ _). unfold aes_gcm_prepare_iv. destruct (Z.of_nat (length iv) =? 12).
    + cbn [mbind option_bind]. intros E. apply (f_equal (fun r => match r with Some (_, Some c) => c | _ => ctx end)) in E.
      subst ctx. apply (Hf (key_context key iv)); [exact eq_refl|exact eq_refl|exact Hk].
    + rewrite rd_all by done. cbn [mbind option_bind].
      assert (length (zeros 16) = 16%nat) as Hz by reflexivity. rewrite store_front by lia. cbn [mbind option_bind].
      rewrite ghash_block by (exact eq_refl || (rewrite length_app, length_drop; lia)). cbn [mbind option_bind fst snd].
      destruct (store_at (zeros 16) 8 _) as [tbuf|] eqn:Es; [|discriminate]. cbn [mbind option_bind].
      assert (length tbuf = 16%nat) as Lt.
      { unfold store_at in Es. destruct (in_bounds _ _ _) eqn:Eb; [|discriminate Es]. injection Es as <-.
        unfold in_bounds in Eb. zbool. by rewrite length_splice by lia. }
      rewrite ghash_block by (exact eq_refl || exact Lt). cbn [mbind option_bind fst snd].
      intros E. apply (f_equal (fun r => match r with Some (_, Some c) => c | _ => ctx end)) in E.
      subst ctx. apply (Hf (key_context key iv)); [exact eq_refl|exact eq_refl|exact Hk].
  - destruct (mode =? TLS_AES_CBC); [|discriminate]. intros E.
    apply (f_equal (fun r => match r with Some (_, Some c) => c | _ => ctx end)) in E. subst ctx.
    apply (Hf (key_context key iv)); [exact eq_refl|exact eq_refl|exact Hk].
Qed.

(** C27. The block cipher is AES of FIPS 197: with a context set up for a key of
    128, 192 or 256 bits, in either mode, [aes_encrypt_block] computes the
    cipher of the standard on every block. *)
Theorem aes_block_is_fips197 c0 mode key iv ctx b : valid_key key -> (length iv <= 16)%nat -> is_block b ->
  tls_aes_init (Some c0) mode (Some key) (Z.of_nat (length key)) (Some iv) (Z.of_nat (length iv)) = Some (true, Some ctx) ->
  aes_encrypt_block b ctx = Cipher key b.
Proof.
  intros Hv Hl Hb E. apply (encrypt_block_ok key ctx b Hv (init_keyed c0 mode key iv ctx Hv Hl E) Hb).
Qed.

(** [aes_decrypt_block] undoes [aes_encrypt_block], for every key and block. *)
Theorem aes_block_round_trip c0 mode key iv ctx b : valid_key key -> (length iv <= 16)%nat -> is_block b ->
  tls_aes_init (Some c0) mode (Some key) (Z.of_nat (length key)) (Some iv) (Z.of_nat (length iv)) = Some (true, Some ctx) ->
  aes_decrypt_block (aes_encrypt_block b ctx) ctx = b.
Proof.
  intros Hv Hl Hb E. apply (decrypt_block_ok key ctx b Hv (init_keyed c0 mode key iv ctx Hv Hl E) Hb).
Qed.

(** ** CBC encryption *)

Lemma chain_cons E iv b bs : Cbc.chain E iv (b :: bs) = E (xor_bytes b iv) :: Cbc.chain E (E (xor_bytes b iv)) bs.
Proof. done. Qed.

Lemma pad_length p : (length (Cbc.pad p) = 16 * (length p / 16 + 1))%nat.
Proof.
  unfold Cbc.pad. rewrite length_app, length_replicate. pose proof (Nat.div_mod_eq (length p) 16).
  pose proof (Nat.mod_upper_bound (length p) 16 ltac:(lia)). lia.
Qed.
Lemma blocks_drop l k : (16 * S k <= length l)%nat ->
  blocks (drop (16 * k) l) = take 16 (drop (16 * k) l) :: blocks (drop (16 * S k) l).
Proof.
  intros H. unfold blocks. rewrite !length_drop.
  replace (length l - 16 * k)%nat with (1 * 16 + (length l - 16 * S k))%nat by lia.
  rewrite Nat.div_add_l by lia. cbn [Nat.add seq]. rewrite fmap_cons, Nat.mul_0_r, drop_0. f_equal.
  rewrite <- seq_shift, <- list_fmap_compose. apply list_fmap_ext. intros i x _. cbn [compose].
  rewrite !drop_drop. f_equal. f_equal. lia.
Qed.

(** The block [k] that the loop builds is block [k] of the padded text. *)
Lemma cbc_buffer p k : (k <= length p / 16)%nat -> (length p mod 16 <> 0)%nat -> Z.of_nat (length p) < 16777216 ->
  let n := Nat.min 16 (length p - 16 * k) in
  Z.min AES_BLOCK_SIZE (u24 (Z.of_nat (length p) - Z.of_nat k * AES_BLOCK_SIZE)) = Z.of_nat n /\
  rd_at p (Z.of_nat k * AES_BLOCK_SIZE) (Z.of_nat n) = Some (take n (drop (16 * k) p)) /\
  take n (drop (16 * k) p) ++ replicate (Z.to_nat (AES_BLOCK_SIZE - Z.of_nat n)) (AES_BLOCK_SIZE - Z.of_nat n) =
    take 16 (drop (16 * k) (Cbc.pad p)).
Proof.
  intros Hk Hm H24 n. unfold AES_BLOCK_SIZE. pose proof (Nat.div_mod_eq (length p) 16) as D.
  pose proof (Nat.mod_upper_bound (length p) 16 ltac:(lia)).
  split; [rewrite u24_small by lia; lia|]. split.
  { replace (Z.of_nat k * 16) with (Z.of_nat (16 * k)) by lia. apply rd_at_part. lia. }
  unfold Cbc.pad. rewrite drop_app_le by lia. destruct (decide (k = length p / 16)%nat) as [->|].
  - replace n with (length p mod 16)%nat by lia. rewrite (take_ge (drop _ p)) by (rewrite length_drop; lia).
    rewrite take_ge by (rewrite length_app, length_drop, length_replicate; lia). f_equal.
    replace (Z.to_nat (16 - Z.of_nat (length p mod 16))) with (16 - length p mod 16)%nat by lia. f_equal. lia.
  - replace n with 16%nat by lia. cbn [Z.of_nat Pos.of_succ_nat Pos.succ Z.sub Z.add Z.opp Z.pos_sub Z.to_nat replicate].
    rewrite app_nil_r, take_app_le by (rewrite length_drop; lia). reflexivity.
Qed.

Lemma cbc_encrypt_loop_ok key ctx p out : valid_key key -> keyed key ctx -> Forall is_byte p -> (length p mod 16 <> 0)%nat ->
  Z.of_nat (length p) < 16777216 -> (length (Cbc.pad p) <= length out)%nat ->
  forall j k iv w, (k + j = length p / 16 + 1)%nat -> is_block iv -> length w = (16 * k)%nat -> exists iv',
  cbc_encrypt_loop j (Z.of_nat k) (set_aes_iv iv ctx) p (written w out) (Z.of_nat (length p)) =
  Some (set_aes_iv iv' ctx, written (w ++ concat (Cbc.chain (Cipher key) iv (blocks (drop (16 * k) (Cbc.pad p))))) out).
Proof.
  intros Hv Hk Fp Hm H24 Hout. rewrite pad_length in Hout.
  assert (Forall is_byte (Cbc.pad p)) as Fq.
  { apply Forall_app. split; [done|]. apply Forall_replicate. unfold is_byte.
    pose proof (Nat.mod_upper_bound (length p) 16 ltac:(lia)). lia. }
  induction j as [|j IH]; intros k iv w Hkj Hiv Hw.
  { exists iv. cbn [cbc_encrypt_loop]. unfold blocks. rewrite length_drop, pad_length.
    replace (16 * (length p / 16 + 1) - 16 * k)%nat with 0%nat by lia. cbn. by rewrite app_nil_r. }
  destruct (cbc_buffer p k ltac:(lia) Hm H24) as (E1&E2&E3). cbn [cbc_encrypt_loop]. cbv zeta.
  rewrite E1, E2. cbn [mbind option_bind]. rewrite E3. cbn [aes_iv set_aes_iv].
  set (b := take 16 (drop (16 * k) (Cbc.pad p))).
  assert (is_block b) as Hb.
  { split; [subst b; rewrite length_take, length_drop, pad_length; lia|]. by apply Forall_take, Forall_drop. }
  destruct (encrypt_block_ok key (set_aes_iv iv ctx) (xor_bytes b iv) Hv (keyed_iv _ _ _ Hk) (xor_block _ _ Hb Hiv)) as [-> Hc].
  rewrite blocks_drop by (rewrite pad_length; lia). fold b. rewrite chain_cons. cbn [concat].
  set (c := Cipher key (xor_bytes b iv)) in *.
  rewrite store_next by (unfold AES_BLOCK_SIZE; rewrite ?(proj1 Hc); lia). cbn [mbind option_bind].
  replace (Z.of_nat k + 1) with (Z.of_nat (S k)) by lia. rewrite app_assoc.
  apply IH; [lia|exact Hc|rewrite length_app, (proj1 Hc); lia].
Qed.

(** ** CBC decryption *)

Lemma cbc_decrypt_loop_ok key ctx out : valid_key key -> keyed key ctx ->
  forall bs pre post iv w, Forall is_block bs -> is_block iv -> length w = length pre -> (length pre mod 16 = 0)%nat ->
  (length w + 16 * length bs <= length out)%nat -> exists iv',
  cbc_decrypt_loop (length bs) (Z.of_nat (length pre / 16)) (set_aes_iv iv ctx)
    (pre ++ concat (Cbc.chain (Cipher key) iv bs) ++ post) (Some (written w out)) =
  Some (set_aes_iv iv' ctx, Some (written (w ++ concat bs) out)).
Proof.
  intros Hv Hk. induction bs as [|b bs IH]; intros pre post iv w F Hiv Hw Hpre Hout; [exists iv; cbn; by rewrite app_nil_r|].
  apply Forall_cons in F as [Hb F]. rewrite chain_cons. cbn [length concat cbc_decrypt_loop] in *.
  pose proof (xor_block _ _ Hb Hiv) as Hx. pose proof (cipher_block key _ Hv Hx) as Hc.
  set (c := Cipher key (xor_bytes b iv)) in *. pose proof (Nat.div_mod_eq (length pre) 16) as D.
  unfold AES_BLOCK_SIZE. replace (Z.of_nat (length pre / 16) * 16) with (Z.of_nat (length pre)) by lia.
  rewrite <- app_assoc. pose proof (rd_at_app pre c (concat (Cbc.chain (Cipher key) c bs) ++ post)) as Er. rewrite (proj1 Hc) in Er.
  change (Z.of_nat 16) with 16 in Er. rewrite Er. cbn [mbind option_bind aes_iv set_aes_iv].
  assert (aes_decrypt_block c (set_aes_iv iv ctx) = xor_bytes b iv) as ->.
  { subst c. rewrite <- (proj1 (encrypt_block_ok key (set_aes_iv iv ctx) _ Hv (keyed_iv _ _ _ Hk) Hx)).
    exact (decrypt_block_ok key _ _ Hv (keyed_iv _ _ _ Hk) Hx). }
  rewrite xor_cancel by (rewrite (proj1 Hb), (proj1 Hiv); reflexivity).
  rewrite store_next by (rewrite ?(proj1 Hb); lia). cbn [mbind option_bind].
  destruct (IH (pre ++ c) post c (w ++ b) F Hc) as (iv'&E).
  - rewrite !length_app, (proj1 Hb), (proj1 Hc). lia.
  - rewrite length_app, (proj1 Hc), Nat.Div0.add_mod, Hpre. reflexivity.
  - rewrite length_app, (proj1 Hb). lia.
  - exists iv'. rewrite (app_assoc w b), (app_assoc pre c). rewrite <- E. f_equal.
    rewrite length_app, (proj1 Hc). replace (length pre + 16)%nat with (length pre + 1 * 16)%nat by lia.
    rewrite Nat.div_add by lia. lia.
Qed.

(** ** A message *)

Definition cbc_start (key iv : bytes) : option tls_aes_context :=
  match tls_aes_init (Some blank_aes) TLS_AES_CBC (Some key) (Z.of_nat (length key)) (Some iv) (Z.of_nat (length iv)) with
  | Some (true, ctx) => ctx
  | _ => None
  end.
Definition only_output (r : option (bool * option tls_aes_context * option bytes)) : option bytes :=
  match r with Some (true, _, out) => out | _ => None end.
Definition cbc_seal (key iv p out : bytes) : option bytes :=
  ctx ← cbc_start key iv; only_output (tls_aes_encrypt (Some ctx) (Some p) (Z.of_nat (length p)) (Some out)).
Definition cbc_open (key iv c out : bytes) : option bytes :=
  ctx ← cbc_start key iv; only_output (tls_aes_decrypt (Some ctx) (Some c) (Z.of_nat (length c)) (Some out)).

Lemma cbc_start_ok key iv : valid_key key -> length iv = 16%nat -> exists ctx,
  cbc_start key iv = Some ctx /\ keyed key ctx /\ aes_iv ctx = iv /\ aes_mode ctx = TLS_AES_CBC /\
  aes_lock ctx = LOCK_ALLOW_ALL /\ op_assoc ctx = AES_OP_NONE.
Proof.
  intros Hv Hl. unfold cbc_start. rewrite init_front by (assumption || lia). cbv zeta.
  cbn [Z.eqb Pos.eqb TLS_AES_GCM TLS_AES_CBC]. eexists. split; [reflexivity|].
  split; [split; exact eq_refl|]. split; [|split_and!; exact eq_refl].
  cbn [aes_iv set_aes_mode key_context set_round_keys set_aes_keysize set_aes_iv]. rewrite Hl. apply app_nil_r.
Qed.

(** Key and initialization vector may lie in longer arrays. *)
Lemma load_words_prefix key x n : forall idx w w', load_words n idx key w = Some w' -> load_words n idx (key ++ x) w = Some w'.
Proof.
  induction n as [|n IH]; intros idx w w'; cbn [load_words]; [done|]. destruct (word_at key idx) as [v|] eqn:E; [|done].
  assert (word_at (key ++ x) idx = Some v) as ->; [|apply IH].
  unfold word_at in *. apply bind_Some in E as (a&Ha&E). apply bind_Some in E as (b&Hb&E). apply bind_Some in E as (c&Hc&E).
  apply bind_Some in E as (d&Hd&E). rewrite (lookup_app_l_Some _ _ _ _ Ha), (lookup_app_l_Some _ _ _ _ Hb).
  cbn [mbind option_bind]. by rewrite (lookup_app_l_Some _ _ _ _ Hc), (lookup_app_l_Some _ _ _ _ Hd).
Qed.
Lemma cbc_init_prefix key x iv y : valid_key key -> length iv = 16%nat ->
  tls_aes_init (Some blank_aes) TLS_AES_CBC (Some (key ++ x)) (Z.of_nat (length key)) (Some (iv ++ y)) (Z.of_nat (length iv)) =
  tls_aes_init (Some blank_aes) TLS_AES_CBC (Some key) (Z.of_nat (length key)) (Some iv) (Z.of_nat (length iv)).
Proof.
  intros Hv Hl. destruct (schedule_built key Hv) as (Nr&Nk&Ek&Ew&_). unfold tls_aes_init, AES_BLOCK_SIZE. ztest.
  rewrite Z.shiftl_mul_pow2 by lia. change (2 ^ 3) with 8. rewrite u24_small by (destruct Hv as [Hs _]; lia).
  rewrite Z.mul_comm, Ek, rd_app, rd_all by done. cbn [mbind option_bind].
  destruct (store_at (aes_iv blank_aes) 0 iv) as [ivb|]; [|done]. cbn [mbind option_bind].
  change (round_keys (set_aes_keysize _ _)) with (replicate 60 0).
  destruct (load_words Nk 0 key (replicate 60 0)) as [w|] eqn:E; [|discriminate Ew]. by rewrite (load_words_prefix _ _ _ _ _ _ E).
Qed.

Ltac cbc_tests Hop Hlock Hm :=
  rewrite Hop, Hlock; cbn [Z.eqb Z.ltb Z.compare Pos.compare Pos.compare_cont Pos.eqb AES_OP_NONE AES_OP_ENCRYPT AES_OP_DECRYPT
    LOCK_ALLOW_ALL LOCK_ALLOW_ENCRYPT];
  cbn [aes_mode set_op_assoc]; rewrite Hm; cbn [Z.eqb Pos.eqb TLS_AES_GCM TLS_AES_CBC].

Lemma chain_blocks key bs : valid_key key -> forall iv, Forall is_block bs -> is_block iv ->
  Forall is_block (Cbc.chain (Cipher key) iv bs).
Proof.
  intros Hv. induction bs as [|b bs IH]; intros iv F Hiv; [constructor|]. apply Forall_cons in F as [Hb F].
  pose proof (cipher_block key _ Hv (xor_block _ _ Hb Hiv)) as Hc. rewrite chain_cons. apply Forall_cons. split; [exact Hc|].
  by apply IH.
Qed.
Lemma length_chain E iv bs : length (Cbc.chain E iv bs) = length bs.
Proof. revert iv. induction bs as [|b bs IH]; intros iv; [done|]. rewrite chain_cons. cbn [length]. by rewrite IH. Qed.
Lemma is_block_list bs : Forall is_block bs -> block_list bs.
Proof. intros F. eapply Forall_impl; [exact F|]. intros b [L _]. exact L. Qed.
Lemma pad_blocks p : Forall is_byte p -> exists bs, Cbc.pad p = concat bs /\ Forall is_block bs /\ (length bs = length p / 16 + 1)%nat.
Proof.
  intros Fp. assert (Forall is_byte (Cbc.pad p)) as Fq.
  { apply Forall_app. split; [done|]. apply Forall_replicate. unfold is_byte.
    pose proof (Nat.mod_upper_bound (length p) 16 ltac:(lia)). lia. }
  destruct (split_blocks (Cbc.pad p)) as (bs&r&F&E&Hr). exists bs.
  pose proof (pad_length p) as L. rewrite E, length_app, length_concat_blocks in L by done.
  destruct r; [|cbn [length] in *; lia]. rewrite app_nil_r in E. cbn [length] in L.
  split; [exact E|]. split; [apply blocks_of_bytes; [done|by rewrite <- E]|lia].
Qed.

(** The encryption of a padded message, block by block. *)
Lemma encrypt_chain key iv p : valid_key key -> is_block iv -> Forall is_byte p -> exists bs,
  Cbc.pad p = concat bs /\ Forall is_block bs /\ (length bs = length p / 16 + 1)%nat /\
  Cbc.encrypt (Cipher key) iv p = concat (Cbc.chain (Cipher key) iv bs) /\
  (length (Cbc.encrypt (Cipher key) iv p) = 16 * length bs)%nat.
Proof.
  intros Hv Hiv Fp. destruct (pad_blocks p Fp) as (bs&Ep&Fb&Lb). exists bs.
  assert (Cbc.encrypt (Cipher key) iv p = concat (Cbc.chain (Cipher key) iv bs)) as Ec.
  { unfold Cbc.encrypt. rewrite Ep, blocks_concat by by apply is_block_list. reflexivity. }
  split_and!; [done..|]. rewrite Ec, length_concat_blocks, length_chain; [done|]. by apply is_block_list, chain_blocks.
Qed.

(** Decryption of it, with other bytes behind it, into any buffer. *)
Lemma cbc_decrypt_ok key iv p post out ctx : valid_key key -> is_block iv -> Forall is_byte p ->
  (length (Cbc.pad p) <= length out)%nat -> keyed key ctx -> aes_iv ctx = iv -> aes_mode ctx = TLS_AES_CBC ->
  aes_lock ctx = LOCK_ALLOW_ALL -> op_assoc ctx = AES_OP_NONE ->
  let c := Cbc.encrypt (Cipher key) iv p in
  exists ctx', tls_aes_decrypt (Some ctx) (Some (c ++ post)) (Z.of_nat (length c)) (Some out) =
    Some (true, Some ctx', Some (Cbc.pad p ++ drop (length c) out)).
Proof.
  intros Hv Hiv Fp Lo Hk Ei Em Elock Eop c. destruct (encrypt_chain key iv p Hv Hiv Fp) as (bs&Ep&Fb&Lb&Ec&Lc). fold c in Ec, Lc.
  pose proof (pad_length p) as Lp. unfold tls_aes_decrypt, aes_decrypt.
  rewrite (proj2 (Z.eqb_neq _ _)) by lia. cbn [is_null negb andb]. cbc_tests Eop Elock Em.
  unfold AES_BLOCK_SIZE. replace (Z.of_nat (length c) mod 16) with 0 by (rewrite Lc, Nat2Z.inj_mul, Z.mul_comm; symmetry; apply Z_mod_mult).
  replace (Z.of_nat (length c) / 16) with (Z.of_nat (length bs)) by (rewrite Lc, Nat2Z.inj_mul, Z.mul_comm, Z.div_mul; lia).
  cbn [Z.eqb negb]. rewrite Nat2Z.id. set (ctx1 := set_op_assoc _ ctx).
  assert (keyed key ctx1) as Hk1 by (destruct Hk; split; assumption).
  destruct (cbc_decrypt_loop_ok key ctx1 out Hv Hk1 bs [] post iv [] Fb Hiv eq_refl eq_refl) as (iv'&E); [cbn; lia|].
  replace (set_aes_iv iv ctx1) with ctx1 in E by (subst ctx1; rewrite <- Ei; by destruct ctx).
  cbn [app length] in E. change (written [] out) with (drop 0 out) in E. rewrite drop_0, <- Ec in E.
  change (Z.of_nat (0 / 16)) with 0 in E. rewrite E. cbn [mbind option_bind fst snd].
  eexists. unfold written. rewrite <- Ep. replace (length (Cbc.pad p)) with (length c) by lia. reflexivity.
Qed.

(** C28. CBC: a message that does not end on a block boundary is encrypted as
    SP 800-38A says, with the padding of RFC 5652, and decryption gives the
    padded message back. *)
Theorem cbc_round_trip key iv p out out' : valid_key key -> is_block iv -> Forall is_byte p -> (length p mod 16 <> 0)%nat ->
  Z.of_nat (length p) < 16777200 -> (length (Cbc.pad p) <= length out)%nat -> (length (Cbc.pad p) <= length out')%nat ->
  let c := Cbc.encrypt (Cipher key) iv p in
  length c = length (Cbc.pad p) /\
  cbc_seal key iv p out = Some (c ++ drop (length c) out) /\
  cbc_open key iv c out' = Some (Cbc.pad p ++ drop (length c) out').
Proof.
  intros Hv Hiv Fp Hm H24 Lo Lo' c. destruct (encrypt_chain key iv p Hv Hiv Fp) as (bs&Ep&Fb&Lb&Ec&Lc). fold c in Ec, Lc.
  pose proof (pad_length p) as Lp. assert (0 < length p)%nat by (destruct p; [by destruct Hm|cbn; lia]).
  destruct (cbc_start_ok key iv Hv (proj1 Hiv)) as (ctx&Es&Hk&Ei&Em&Elock&Eop). split; [lia|]. split.
  - unfold cbc_seal. rewrite Es. cbn [mbind option_bind]. unfold tls_aes_encrypt.
    rewrite (proj2 (Z.eqb_neq _ _)) by lia. cbc_tests Eop Elock Em.
    unfold AES_BLOCK_SIZE. rewrite <- (Nat2Z.inj_mod _ 16), <- (Nat2Z.inj_div _ 16). ztest.
    rewrite Z.add_0_r, Nat2Z.id. set (ctx1 := set_op_assoc _ ctx).
    assert (keyed key ctx1) as Hk1 by (destruct Hk; split; assumption).
    destruct (cbc_encrypt_loop_ok key ctx1 p out Hv Hk1 Fp Hm ltac:(lia) Lo (S (length p / 16)) 0 iv [] ltac:(lia) Hiv eq_refl) as (iv'&E).
    replace (set_aes_iv iv ctx1) with ctx1 in E by (subst ctx1; rewrite <- Ei; by destruct ctx).
    rewrite Nat.mul_0_r, drop_0 in E. change (written [] out) with (drop 0 out) in E. rewrite drop_0 in E.
    change (Z.of_nat 0) with 0 in E. rewrite E. cbn [mbind option_bind only_output app fst snd]. reflexivity.
  - unfold cbc_open. rewrite Es. cbn [mbind option_bind].
    destruct (cbc_decrypt_ok key iv p [] out' ctx Hv Hiv Fp Lo' Hk Ei Em Elock Eop) as (ctx'&E). rewrite app_nil_r in E.
    fold c in E. by rewrite E.
Qed.

(** ** Block boundaries *)

(** The loop reads behind its input: it runs once more than there are blocks of
    the padded message, and the length that is left has wrapped around. *)
Lemma cbc_overrun ctx p outb n : Z.of_nat (length p) < 16777200 -> forall j k c, (k + j = n)%nat -> (16 * n = length p + 16)%nat ->
  cbc_encrypt_loop (S j) (Z.of_nat k) (set_aes_iv c ctx) p outb (Z.of_nat (length p)) = None.
Proof.
  intros H24 j. revert outb. induction j as [|j IH]; intros outb k c Hk Hn.
  - cbn [cbc_encrypt_loop]. cbv zeta. unfold AES_BLOCK_SIZE.
    replace (u24 _) with 16777200 by (unfold u24; replace (Z.of_nat (length p) - Z.of_nat k * 16) with (-16) by lia; reflexivity).
    unfold rd_at, at_off. replace (in_bounds p (Z.of_nat k * 16) 0) with false; [reflexivity|].
    symmetry. apply andb_false_iff. right. apply Z.leb_gt. lia.
  - remember (S j) as j' eqn:Ej. cbn [cbc_encrypt_loop]. cbv zeta. destruct (rd_at p _ _) as [part|]; [|reflexivity].
    cbn [mbind option_bind]. set (c' := aes_encrypt_block _ _). destruct (store_at outb _ c') as [outb'|]; [|reflexivity].
    cbn [mbind option_bind]. subst j'. replace (Z.of_nat k + 1) with (Z.of_nat (S k)) by lia. apply IH; lia.
Qed.

(** CBC encryption of a message of whole blocks leaves its buffers: after the
    block of padding it processes a block more. *)
Theorem cbc_whole_blocks_overrun ctx p out : aes_mode ctx = TLS_AES_CBC -> op_assoc ctx <> AES_OP_DECRYPT ->
  aes_lock ctx <= LOCK_ALLOW_ENCRYPT -> p <> [] -> (length p mod 16 = 0)%nat -> Z.of_nat (length p) < 16777200 ->
  tls_aes_encrypt (Some ctx) (Some p) (Z.of_nat (length p)) (Some out) = None.
Proof.
  intros Hm Hop Hlock Hp Hz H24. unfold tls_aes_encrypt. assert (0 < length p)%nat by (destruct p; [done|cbn; lia]).
  unfold LOCK_ALLOW_ENCRYPT, AES_OP_DECRYPT in *. ztest. cbn [aes_mode set_op_assoc]. rewrite Hm. cbn [Z.eqb Pos.eqb TLS_AES_GCM TLS_AES_CBC].
  pose proof (Nat.div_mod_eq (length p) 16) as D. unfold AES_BLOCK_SIZE.
  rewrite <- (Nat2Z.inj_mod _ 16), <- (Nat2Z.inj_div _ 16), Hz. change (Z.of_nat 0 =? 0) with true. cbv iota.
  replace (Z.to_nat (Z.of_nat (length p / 16) + 1)) with (S (length p / 16)) by lia.
  set (ctx1 := set_op_assoc _ ctx).
  pose proof (cbc_overrun ctx1 p out (length p / 16 + 1) H24 (S (length p / 16)) 0 (aes_iv ctx1) ltac:(lia) ltac:(lia)) as E.
  replace (set_aes_iv (aes_iv ctx1) ctx1) with ctx1 in E by (subst ctx1; by destruct ctx).
  change (Z.of_nat 0) with 0 in E. rewrite E. reflexivity.
Qed.

(** The tag of a message of whole blocks: the code pads the hash with a block
    of zeros that the standard does not have. *)
Theorem gcm_whole_blocks_tag key iv aads p out : valid_key key -> (0 < length iv <= 16)%nat -> Forall is_byte iv ->
  Forall is_byte (concat aads) -> Z.of_nat (length (concat aads)) < 8192 -> p <> [] -> Forall is_byte p ->
  Z.of_nat (length p) < 8192 -> (length p <= length out)%nat -> (length p mod 16 = 0)%nat ->
  let E := Cipher key in
  let H := E (replicate 16 0) in
  let c := seal_text key iv p in
  gcm_seal key iv aads p out = Some (c ++ drop (length p) out,
    GCTR E (J0 H iv) (GHASH H (pad0 (concat aads) ++ c ++ replicate 16 0 ++ len64 (concat aads) ++ len64 c))).
Proof.
  intros Hv Hl F Fa La Hp Fp Lp Lo Hm E H c. destruct (seal_text_facts key iv p Hv Hl F) as (Lc&_).
  rewrite gcm_seal_ok by assumption. unfold written, code_tag. fold c in Lc |- *. rewrite Lc. f_equal. f_equal. f_equal. f_equal.
  unfold pad_always. rewrite mod16_app, Lc, Hm by apply pad0_mod. by rewrite <- !app_assoc.
Qed.

(** A later piece that does not complete the block in progress leaves its
    buffers: the rest of the block is copied whatever the length. *)
Theorem gcm_short_piece_overrun ctx p out : aes_mode ctx = TLS_AES_GCM -> op_assoc ctx = AES_OP_ENCRYPT ->
  aes_lock ctx = LOCK_ALLOW_ENCRYPT -> 0 < last_block_len ctx < 16 -> p <> [] ->
  Z.of_nat (length p) < 16 - last_block_len ctx ->
  tls_aes_encrypt (Some ctx) (Some p) (Z.of_nat (length p)) (Some out) = None.
Proof.
  intros Hm Hop Hlock Hu Hp Hs. unfold tls_aes_encrypt. assert (0 < length p)%nat by (destruct p; [done|cbn; lia]).
  rewrite (proj2 (Z.eqb_neq _ _)) by lia. cbc_tests Hop Hlock Hm. unfold pad_aad. cbn [aes_lock set_op_assoc]. rewrite Hlock.
  cbn [Z.eqb andb mbind option_bind LOCK_ALLOW_ENCRYPT LOCK_ALLOW_ALL]. unfold gcm_crypt, AES_BLOCK_SIZE.
  cbn [last_block_len set_aes_lock set_op_assoc]. rewrite Z.mod_small by lia. ztest. cbn [negb]. unfold rd at 1. cbn [mbind option_bind].
  replace (in_bounds p 0 (16 - last_block_len ctx)) with false; [reflexivity|]. symmetry. apply andb_false_iff.
  right. apply Z.leb_gt. lia.
Qed.
