(* ===== verification/AesSamples.v ===== *)
(** * AES on concrete inputs: published vectors and witnesses *)

From S2P Require Import Prelude MemState RingList TlsHash TlsKdf Rsa RsaCorrect Aes AesRef AesBlock GcmField GcmCorrect AesTyped CbcCorrect.
Import Fips197 Gcm.

(** ** FIPS 197, appendix C *)

Definition counting (n : nat) : bytes := Z.of_nat <$> seq 0 n.
Definition fips_block : bytes := (fun i => 17 * Z.of_nat i) <$> seq 0 16.
Definition fips_cipher : bytes :=
  [0x69; 0xc4; 0xe0; 0xd8; 0x6a; 0x7b; 0x04; 0x30; 0xd8; 0xcd; 0xb7; 0x80; 0x70; 0xb4; 0xc5; 0x5a].

(** A decidable form of the assumptions on keys, blocks and texts. *)
Definition bytesb (b : bytes) : bool := forallb (fun x => (0 <=? x) && (x <? 256)) b.
Lemma bytesb_ok b : bytesb b = true -> Forall is_byte b.
Proof.
  intros H. apply Forall_forall. intros x Hx. apply list_elem_of_In in Hx. unfold bytesb in H.
  rewrite forallb_forall in H. specialize (H x Hx). unfold is_byte. lia.
Qed.
Lemma blockb_ok b : ((length b =? 16)%nat && bytesb b)%bool = true -> is_block b.
Proof. intros H. apply andb_prop in H as [L F]. split; [by apply Nat.eqb_eq|by apply bytesb_ok]. Qed.
Lemma keyb_ok k : (((length k =? 16) || (length k =? 24) || (length k =? 32))%nat && bytesb k)%bool = true -> valid_key k.
Proof.
  intros H. apply andb_prop in H as [L F]. split; [|by apply bytesb_ok].
  rewrite !orb_true_iff, !Nat.eqb_eq in L. tauto.
Qed.

(** The context of the first vector. *)
Definition fips_context : tls_aes_context :=
  match tls_aes_init (Some blank_aes) TLS_AES_CBC (Some (counting 16)) 16 (Some (zeros 16)) 16 with
  | Some (true, Some ctx) => ctx
  | _ => blank_aes
  end.
Lemma aes_block_is_fips197_witness :
  valid_key (counting 16) /\ is_block fips_block /\
  aes_encrypt_block fips_block fips_context = Cipher (counting 16) fips_block /\
  Cipher (counting 16) fips_block = fips_cipher.
Proof.
  split; [apply keyb_ok; vm_compute; reflexivity|]. split; [apply blockb_ok; vm_compute; reflexivity|].
  split; [|vm_compute; reflexivity].
  apply (aes_block_is_fips197 blank_aes TLS_AES_CBC (counting 16) (zeros 16) fips_context fips_block);
    [apply keyb_ok; vm_compute; reflexivity|vm_compute; lia|apply blockb_ok; vm_compute; reflexivity|vm_compute; reflexivity].
Defined.
Lemma aes_block_round_trip_witness :
  is_block fips_block /\ aes_encrypt_block fips_block fips_context = fips_cipher /\
  aes_decrypt_block (aes_encrypt_block fips_block fips_context) fips_context = fips_block.
Proof.
  split; [apply blockb_ok; vm_compute; reflexivity|]. split; [vm_compute; reflexivity|].
  apply (aes_block_round_trip blank_aes TLS_AES_CBC (counting 16) (zeros 16) fips_context fips_block);
    [apply keyb_ok; vm_compute; reflexivity|vm_compute; lia|apply blockb_ok; vm_compute; reflexivity|vm_compute; reflexivity].
Defined.

(** The vectors for the longer keys. *)
Example fips_192 : Cipher (counting 24) fips_block =
  [0xdd; 0xa9; 0x7c; 0xa4; 0x86; 0x4c; 0xdf; 0xe0; 0x6e; 0xaf; 0x70; 0xa0; 0xec; 0x0d; 0x71; 0x91].
Proof. vm_compute. reflexivity. Qed.
Example fips_256 : Cipher (counting 32) fips_block =
  [0x8e; 0xa2; 0xb7; 0xca; 0x51; 0x67; 0x45; 0xbf; 0xea; 0xfc; 0x49; 0x90; 0x4b; 0x49; 0x60; 0x89].
Proof. vm_compute. reflexivity. Qed.

(** ** GCM: test case 4 of the specification *)

Definition gcm_key : bytes :=
  [0xfe; 0xff; 0xe9; 0x92; 0x86; 0x65; 0x73; 0x1c; 0x6d; 0x6a; 0x8f; 0x94; 0x67; 0x30; 0x83; 0x08].
Definition gcm_iv : bytes := [0xca; 0xfe; 0xba; 0xbe; 0xfa; 0xce; 0xdb; 0xad; 0xde; 0xca; 0xf8; 0x88].
Definition gcm_aad : list bytes :=
  [[0xfe; 0xed; 0xfa; 0xce; 0xde; 0xad]; [0xbe; 0xef; 0xfe; 0xed; 0xfa; 0xce; 0xde; 0xad; 0xbe; 0xef; 0xab; 0xad; 0xda; 0xd2]].
Definition gcm_text : bytes :=
  [0xd9; 0x31; 0x32; 0x25; 0xf8; 0x84; 0x06; 0xe5; 0xa5; 0x59; 0x09; 0xc5; 0xaf; 0xf5; 0x26; 0x9a;
   0x86; 0xa7; 0xa9; 0x53; 0x15; 0x34; 0xf7; 0xda; 0x2e; 0x4c; 0x30; 0x3d; 0x8a; 0x31; 0x8a; 0x72;
   0x1c; 0x3c; 0x0c; 0x95; 0x95; 0x68; 0x09; 0x53; 0x2f; 0xcf; 0x0e; 0x24; 0x49; 0xa6; 0xb5; 0x25;
   0xb1; 0x6a; 0xed; 0xf5; 0xaa; 0x0d; 0xe6; 0x57; 0xba; 0x63; 0x7b; 0x39].
Definition gcm_tag : bytes :=
  [0x5b; 0xc9; 0x4f; 0xbc; 0x32; 0x21; 0xa5; 0xdb; 0x94; 0xfa; 0xe9; 0x5a; 0xe7; 0x12; 0x1a; 0x47].

Lemma gcm_seal_is_sp800_38d_witness :
  (length gcm_text mod 16 <> 0)%nat /\
  gcm_seal gcm_key gcm_iv gcm_aad gcm_text (zeros 60) =
    Some (seal_text gcm_key gcm_iv gcm_text ++ drop (length gcm_text) (zeros 60),
          tag_of_cipher gcm_key gcm_iv (concat gcm_aad) (seal_text gcm_key gcm_iv gcm_text)) /\
  (snd <$> gcm_seal gcm_key gcm_iv gcm_aad gcm_text (zeros 60)) = Some gcm_tag.
Proof.
  split; [vm_compute; discriminate|]. split; [|vm_compute; reflexivity].
  apply (gcm_seal_is_sp800_38d gcm_key gcm_iv gcm_aad gcm_text (zeros 60));
    [apply keyb_ok; vm_compute; reflexivity|vm_compute; lia|apply bytesb_ok; vm_compute; reflexivity|
     apply bytesb_ok; vm_compute; reflexivity|vm_compute; reflexivity|apply bytesb_ok; vm_compute; reflexivity|
     vm_compute; reflexivity|vm_compute; lia|vm_compute; discriminate].
Defined.

Lemma gcm_round_trip_witness : exists c tag, length c = length gcm_text /\
  gcm_seal gcm_key gcm_iv gcm_aad gcm_text (zeros 60) = Some (c ++ drop (length gcm_text) (zeros 60), tag) /\
  gcm_open gcm_key gcm_iv [concat gcm_aad] c (zeros 64) = Some (gcm_text ++ drop (length gcm_text) (zeros 64), tag) /\
  forall t, length t = 16%nat -> gcm_check gcm_key gcm_iv (concat gcm_aad) c t = Some (bool_decide (t = tag)).
Proof.
  apply (gcm_round_trip gcm_key gcm_iv gcm_aad [concat gcm_aad] gcm_text (zeros 60) (zeros 64));
    [apply keyb_ok; vm_compute; reflexivity|vm_compute; lia|apply bytesb_ok; vm_compute; reflexivity|
     apply bytesb_ok; vm_compute; reflexivity|vm_compute; reflexivity|vm_compute; reflexivity|discriminate|
     apply bytesb_ok; vm_compute; reflexivity|vm_compute; reflexivity|vm_compute; lia|vm_compute; lia].
Defined.

(** ** GCM at block boundaries *)

(** Test case 2: one block of zeros.  The ciphertext is the standard one, the
    tag is not. *)
Theorem whole_block_tag_differs :
  exists c tag, gcm_seal (zeros 16) (zeros 12) [] (zeros 16) (zeros 16) = Some (c, tag) /\
  c = seal_text (zeros 16) (zeros 12) (zeros 16) /\
  tag_of_cipher (zeros 16) (zeros 12) [] c =
    [0xab; 0x6e; 0x47; 0xd4; 0x2c; 0xec; 0x13; 0xbd; 0xf5; 0x3a; 0x67; 0xb2; 0x12; 0x57; 0xbd; 0xdf] /\
  tag <> tag_of_cipher (zeros 16) (zeros 12) [] c.
Proof.
  destruct (gcm_seal (zeros 16) (zeros 12) [] (zeros 16) (zeros 16)) as [[c tag]|] eqn:E; [|vm_compute in E; discriminate E].
  exists c, tag. split; [done|]. vm_compute in E. injection E as <- <-. split_and!; [vm_compute; reflexivity..|].
  vm_compute. discriminate.
Qed.

(** Encrypting the same 32 bytes in one call and in two calls of 16: the second
    call does not use the next block of the key stream. *)
Definition two_calls : option (bytes * bytes) :=
  ctx ← gcm_start (zeros 16) (zeros 12) [];
  match tls_aes_encrypt (Some ctx) (Some (zeros 16)) 16 (Some (zeros 16)) with
  | Some (true, ctx, Some c1) =>
      match tls_aes_encrypt ctx (Some (zeros 16)) 16 (Some (zeros 16)) with
      | Some (true, _, Some c2) => Some (c1, c2)
      | _ => None
      end
  | _ => None
  end.
Theorem pieces_skip_a_block : exists c1 c2, two_calls = Some (c1, c2) /\
  c1 ++ c2 <> seal_text (zeros 16) (zeros 12) (zeros 32) /\
  c1 ++ c2 = take 16 (seal_text (zeros 16) (zeros 12) (zeros 48)) ++ drop 32 (seal_text (zeros 16) (zeros 12) (zeros 48)).
Proof.
  destruct two_calls as [[c1 c2]|] eqn:E; [|vm_compute in E; discriminate E]. exists c1, c2. split; [done|].
  vm_compute in E. injection E as <- <-. split; [vm_compute; discriminate|vm_compute; reflexivity].
Qed.

(** The length block of the tag: from 8192 bytes on, bits 16 to 23 of the
    number of bits are lost. *)
Theorem long_length_truncated : bytelen_to_bitlen 8192 = bytelen_to_bitlen 0 /\
  forall n, 0 <= n < 2097152 -> bytelen_to_bitlen n = to_bytes 8 (8 * n) -> n < 8192.
Proof.
  split; [reflexivity|]. intros n Hn E. apply (f_equal (fun l => nth 5 l 0)) in E. revert E.
  unfold bytelen_to_bitlen, to_bytes. cbn [seq fmap list_fmap nth Nat.sub]. change (256 ^ Z.of_nat 2) with 65536.
  change (2 ^ 24) with 16777216. intros E. Z.to_euclidean_division_equations. lia.
Qed.

(** ** CBC *)

Definition cbc_text : bytes := counting 21.
Lemma cbc_round_trip_witness :
  let c := Cbc.encrypt (Cipher (counting 16)) fips_block cbc_text in
  length c = length (Cbc.pad cbc_text) /\
  cbc_seal (counting 16) fips_block cbc_text (zeros 32) = Some (c ++ drop (length c) (zeros 32)) /\
  cbc_open (counting 16) fips_block c (zeros 40) = Some (Cbc.pad cbc_text ++ drop (length c) (zeros 40)).
Proof.
  apply (cbc_round_trip (counting 16) fips_block cbc_text (zeros 32) (zeros 40));
    [apply keyb_ok; vm_compute; reflexivity|apply blockb_ok; vm_compute; reflexivity|apply bytesb_ok; vm_compute; reflexivity|
     vm_compute; discriminate|vm_compute; reflexivity|vm_compute; lia|vm_compute; lia].
Defined.

(** ** A context in use *)

Definition sample_ctx : tls_aes_context :=
  Eval vm_compute in default blank_aes
    (r ← tls_aes_init (Some blank_aes) TLS_AES_GCM (Some gcm_key) 16 (Some gcm_iv) 12; r.2).
Definition sample_sealed : tls_aes_context :=
  Eval vm_compute in default blank_aes
    (r ← tls_aes_encrypt (Some sample_ctx) (Some [1; 2; 3]) 3 (Some [0; 0; 0]); r.1.2).
Definition sample_out : bytes :=
  Eval vm_compute in default [] (r ← tls_aes_encrypt (Some sample_ctx) (Some [1; 2; 3]) 3 (Some [0; 0; 0]); r.2).

Lemma aes_context_typed_witness :
  tls_aes_init (Some blank_aes) TLS_AES_GCM (Some gcm_key) 16 (Some gcm_iv) 12 = Some (true, Some sample_ctx) /\
  rtc aes_step sample_ctx sample_sealed /\ sample_sealed <> sample_ctx /\
  aes_typed sample_sealed /\ aes_evolves sample_ctx sample_sealed.
Proof.
  assert (rtc aes_step sample_ctx sample_sealed) as Hr.
  { apply rtc_once, (step_encrypt _ (Some [1; 2; 3]) 3 (Some [0; 0; 0]) true _ (Some sample_out));
      [apply bytes_ptr_some, bytesb_ok; vm_compute; reflexivity..|lia|vm_compute; reflexivity]. }
  split; [vm_compute; reflexivity|]. split; [exact Hr|]. split; [discriminate|].
  apply (aes_context_typed blank_aes TLS_AES_GCM (Some gcm_key) 16 (Some gcm_iv) 12 sample_ctx sample_sealed);
    [apply bytes_ptr_some, bytesb_ok; vm_compute; reflexivity..|lia|vm_compute; reflexivity|exact Hr].
Defined.
