(* ===== verification/Handshake.v ===== *)
(** * The TLS 1.3 handshake with a pre-shared key

    [src/src/tls/core/handshake.c]: the messages of the client, the parser of
    the server's, the key schedule, Finished messages and the protection of
    records, on top of the key derivation of [TlsHash] and the GCM of [Aes].

    Arguments, buffers and faults are as in [TlsHash]: the outer [None] of a
    result is an access outside an object.  A function that returns false on the
    way out of several steps keeps what the steps before did, so its body is in
    the monad [R]: a value to go on with, or the failure result.  The context's
    pointer to the transcript is null or points to the storage beside it, so the
    two fields are one here. *)

From S2P Require Import Prelude MemState TlsHash Rsa Aes.

(** [uint64_t] *)
Definition u64 (z : Z) : Z := z mod 2 ^ 64.

(** ** Constants of handshake.h *)

Definition TLS_AES_128_GCM_SHA256 : Z := 0x1301.
Definition TLS_EXT_SUPPORTED_VERSIONS : Z := 0x002b.
Definition TLS_EXT_PRE_SHARED_KEY : Z := 0x0029.
Definition TLS_HANDSHAKE_CLIENT_HELLO : Z := 0x01.
Definition TLS_HANDSHAKE_SERVER_HELLO : Z := 0x02.
Definition TLS_HANDSHAKE_CERTIFICATE : Z := 0x0b.
Definition TLS_HANDSHAKE_FINISHED : Z := 0x14.
Definition TLS_CONTENT_TYPE_HANDSHAKE : Z := 0x16.
Definition TLS_CONTENT_TYPE_APPLICATION_DATA : Z := 0x17.
Definition TLS_ALERT_LEVEL_FATAL : Z := 0x02.

Inductive tls_state :=
  | TLS_STATE_INIT
  | TLS_STATE_CLIENT_HELLO_SENT
  | TLS_STATE_SERVER_HELLO_RECEIVED
  | TLS_STATE_HANDSHAKE_COMPLETE
  | TLS_STATE_ERROR.
#[global] Instance tls_state_eq_dec : EqDecision tls_state.
Proof. solve_decision. Defined.

Record tls_psk_identity := mk_identity {
  identity : bytes;
  identity_len : Z;
  obfuscated_ticket_age : Z
}.
Definition blank_identity : tls_psk_identity := mk_identity (zeros 32) 0 0.

Record tls_traffic_keys := mk_keys {
  handshake_secret : bytes;
  client_handshake_traffic_secret : bytes;
  server_handshake_traffic_secret : bytes;
  client_application_traffic_secret : bytes;
  server_application_traffic_secret : bytes;
  client_handshake_key : bytes;
  client_handshake_iv : bytes;
  server_handshake_key : bytes;
  server_handshake_iv : bytes;
  client_application_key : bytes;
  client_application_iv : bytes;
  server_application_key : bytes;
  server_application_iv : bytes
}.
Definition blank_keys : tls_traffic_keys :=
  mk_keys (zeros 32) (zeros 32) (zeros 32) (zeros 32) (zeros 32) (zeros 16) (zeros 12) (zeros 16) (zeros 12) (zeros 16) (zeros 12) (zeros 16) (zeros 12).
Definition set_handshake_secret (v : bytes) (k : tls_traffic_keys) : tls_traffic_keys :=
  mk_keys v (client_handshake_traffic_secret k) (server_handshake_traffic_secret k) (client_application_traffic_secret k) (server_application_traffic_secret k) (client_handshake_key k) (client_handshake_iv k) (server_handshake_key k) (server_handshake_iv k) (client_application_key k) (client_application_iv k) (server_application_key k) (server_application_iv k).
Definition set_client_handshake_traffic_secret (v : bytes) (k : tls_traffic_keys) : tls_traffic_keys :=
  mk_keys (handshake_secret k) v (server_handshake_traffic_secret k) (client_application_traffic_secret k) (server_application_traffic_secret k) (client_handshake_key k) (client_handshake_iv k) (server_handshake_key k) (server_handshake_iv k) (client_application_key k) (client_application_iv k) (server_application_key k) (server_application_iv k).
Definition set_server_handshake_traffic_secret (v : bytes) (k : tls_traffic_keys) : tls_traffic_keys :=
  mk_keys (handshake_secret k) (client_handshake_traffic_secret k) v (client_application_traffic_secret k) (server_application_traffic_secret k) (client_handshake_key k) (client_handshake_iv k) (server_handshake_key k) (server_handshake_iv k) (client_application_key k) (client_application_iv k) (server_application_key k) (server_application_iv k).
Definition set_client_application_traffic_secret (v : bytes) (k : tls_traffic_keys) : tls_traffic_keys :=
  mk_keys (handshake_secret k) (client_handshake_traffic_secret k) (server_handshake_traffic_secret k) v (server_application_traffic_secret k) (client_handshake_key k) (client_handshake_iv k) (server_handshake_key k) (server_handshake_iv k) (client_application_key k) (client_application_iv k) (server_application_key k) (server_application_iv k).
Definition set_server_application_traffic_secret (v : bytes) (k : tls_traffic_keys) : tls_traffic_keys :=
  mk_keys (handshake_secret k) (client_handshake_traffic_secret k) (server_handshake_traffic_secret k) (client_application_traffic_secret k) v (client_handshake_key k) (client_handshake_iv k) (server_handshake_key k) (server_handshake_iv k) (client_application_key k) (client_application_iv k) (server_application_key k) (server_application_iv k).
Definition set_client_handshake_key (v : bytes) (k : tls_traffic_keys) : tls_traffic_keys :=
  mk_keys (handshake_secret k) (client_handshake_traffic_secret k) (server_handshake_traffic_secret k) (client_application_traffic_secret k) (server_application_traffic_secret k) v (client_handshake_iv k) (server_handshake_key k) (server_handshake_iv k) (client_application_key k) (client_application_iv k) (server_application_key k) (server_application_iv k).
Definition set_client_handshake_iv (v : bytes) (k : tls_traffic_keys) : tls_traffic_keys :=
  mk_keys (handshake_secret k) (client_handshake_traffic_secret k) (server_handshake_traffic_secret k) (client_application_traffic_secret k) (server_application_traffic_secret k) (client_handshake_key k) v (server_handshake_key k) (server_handshake_iv k) (client_application_key k) (client_application_iv k) (server_application_key k) (server_application_iv k).
Definition set_server_handshake_key (v : bytes) (k : tls_traffic_keys) : tls_traffic_keys :=
  mk_keys (handshake_secret k) (client_handshake_traffic_secret k) (server_handshake_traffic_secret k) (client_application_traffic_secret k) (server_application_traffic_secret k) (client_handshake_key k) (client_handshake_iv k) v (server_handshake_iv k) (client_application_key k) (client_application_iv k) (server_application_key k) (server_application_iv k).
Definition set_server_handshake_iv (v : bytes) (k : tls_traffic_keys) : tls_traffic_keys :=
  mk_keys (handshake_secret k) (client_handshake_traffic_secret k) (server_handshake_traffic_secret k) (client_application_traffic_secret k) (server_application_traffic_secret k) (client_handshake_key k) (client_handshake_iv k) (server_handshake_key k) v (client_application_key k) (client_application_iv k) (server_application_key k) (server_application_iv k).
Definition set_client_application_key (v : bytes) (k : tls_traffic_keys) : tls_traffic_keys :=
  mk_keys (handshake_secret k) (client_handshake_traffic_secret k) (server_handshake_traffic_secret k) (client_application_traffic_secret k) (server_application_traffic_secret k) (client_handshake_key k) (client_handshake_iv k) (server_handshake_key k) (server_handshake_iv k) v (client_application_iv k) (server_application_key k) (server_application_iv k).
Definition set_client_application_iv (v : bytes) (k : tls_traffic_keys) : tls_traffic_keys :=
  mk_keys (handshake_secret k) (client_handshake_traffic_secret k) (server_handshake_traffic_secret k) (client_application_traffic_secret k) (server_application_traffic_secret k) (client_handshake_key k) (client_handshake_iv k) (server_handshake_key k) (server_handshake_iv k) (client_application_key k) v (server_application_key k) (server_application_iv k).
Definition set_server_application_key (v : bytes) (k : tls_traffic_keys) : tls_traffic_keys :=
  mk_keys (handshake_secret k) (client_handshake_traffic_secret k) (server_handshake_traffic_secret k) (client_application_traffic_secret k) (server_application_traffic_secret k) (client_handshake_key k) (client_handshake_iv k) (server_handshake_key k) (server_handshake_iv k) (client_application_key k) (client_application_iv k) v (server_application_iv k).
Definition set_server_application_iv (v : bytes) (k : tls_traffic_keys) : tls_traffic_keys :=
  mk_keys (handshake_secret k) (client_handshake_traffic_secret k) (server_handshake_traffic_secret k) (client_application_traffic_secret k) (server_application_traffic_secret k) (client_handshake_key k) (client_handshake_iv k) (server_handshake_key k) (server_handshake_iv k) (client_application_key k) (client_application_iv k) (server_application_key k) v.

(** ** Failing half way *)

Definition R (F A : Type) : Type := option (F + A).
#[global] Instance R_ret F : MRet (R F) := fun _ a => Some (inr a).
#[global] Instance R_bind F : MBind (R F) := fun _ _ f m =>
  match m with None => None | Some (inl e) => Some (inl e) | Some (inr a) => f a end.
(** A fault of a step is a fault of the whole. *)
Definition lift {F A} (m : option A) : R F A := m ≫= fun a => Some (inr a).
(** [if (!b) return false] *)
Definition must {F} (b : bool) (e : F) : R F unit := if b then Some (inr tt) else Some (inl e).
(** A derivation into a local buffer: its result, or failure. *)
Definition derived {F} (e : F) (r : option (bool * option bytes)) : R F bytes :=
  match r with
  | None => None
  | Some (false, _) => Some (inl e)
  | Some (true, None) => None
  | Some (true, Some d) => Some (inr d)
  end.
(** A derivation into a field: what was written stays when it fails. *)
Definition derive_into {F} (set : bytes -> F) (r : option (bool * option bytes)) : R F F :=
  match r with
  | None | Some (_, None) => None
  | Some (b, Some d) => if b : bool then Some (inr (set d)) else Some (inl (set d))
  end.
Definition outcome {F} (m : R F F) : option (bool * F) :=
  match m with None => None | Some (inl e) => Some (false, e) | Some (inr a) => Some (true, a) end.

Section Handshake.
Context {St : Type} `{Sha256 St}.
Abbreviation tls_hash_context := (tls_hash_context (St := St)).

Record tls_handshake_context := mk_handshake {
  psk : bytes;
  psk_identity : tls_psk_identity;
  client_random : bytes;
  server_random : bytes;
  cipher_suite : Z;
  transcript_hash : option tls_hash_context;
  keys : tls_traffic_keys;
  client_seq_num : Z;
  server_seq_num : Z;
  state : tls_state
}.
Definition set_server_random (v : bytes) (k : tls_handshake_context) : tls_handshake_context :=
  mk_handshake (psk k) (psk_identity k) (client_random k) v (cipher_suite k) (transcript_hash k) (keys k) (client_seq_num k) (server_seq_num k) (state k).
Definition set_transcript_hash (v : option tls_hash_context) (k : tls_handshake_context) : tls_handshake_context :=
  mk_handshake (psk k) (psk_identity k) (client_random k) (server_random k) (cipher_suite k) v (keys k) (client_seq_num k) (server_seq_num k) (state k).
Definition set_keys (v : tls_traffic_keys) (k : tls_handshake_context) : tls_handshake_context :=
  mk_handshake (psk k) (psk_identity k) (client_random k) (server_random k) (cipher_suite k) (transcript_hash k) v (client_seq_num k) (server_seq_num k) (state k).
Definition set_client_seq_num (v : Z) (k : tls_handshake_context) : tls_handshake_context :=
  mk_handshake (psk k) (psk_identity k) (client_random k) (server_random k) (cipher_suite k) (transcript_hash k) (keys k) v (server_seq_num k) (state k).
Definition set_server_seq_num (v : Z) (k : tls_handshake_context) : tls_handshake_context :=
  mk_handshake (psk k) (psk_identity k) (client_random k) (server_random k) (cipher_suite k) (transcript_hash k) (keys k) (client_seq_num k) v (state k).
Definition set_state (v : tls_state) (k : tls_handshake_context) : tls_handshake_context :=
  mk_handshake (psk k) (psk_identity k) (client_random k) (server_random k) (cipher_suite k) (transcript_hash k) (keys k) (client_seq_num k) (server_seq_num k) v.
Definition with_keys (f : tls_traffic_keys -> tls_traffic_keys) (c : tls_handshake_context) : tls_handshake_context :=
  set_keys (f (keys c)) c.

(** ** The transcript *)

Definition transcript_hash_update (data : bytes) (len : Z) (ctx : tls_handshake_context) : option tls_handshake_context :=
  match transcript_hash ctx with
  | None => Some ctx
  | Some h => h ← tls_hash_update h (Some data) len; Some (set_transcript_hash (Some h) ctx)
  end.
(** On a copy; zeros without a transcript. *)
Definition transcript_hash_digest (ctx : tls_handshake_context) : bytes :=
  match transcript_hash ctx with None => zeros 32 | Some h => tls_hash_digest h end.

(** ** Setting up *)

Definition blank_handshake : tls_handshake_context :=
  mk_handshake (zeros 32) blank_identity (zeros 32) (zeros 32) 0 None blank_keys 0 0 TLS_STATE_INIT.

(** A [uint64_t] as it lies in memory. *)
Definition le64 (v : Z) : bytes := (fun i => u8 (Z.shiftr v (8 * i))) <$> [0; 1; 2; 3; 4; 5; 6; 7].

(** [tls_random] gives the answers of its calls in order. *)
Definition tls_handshake_init (tls_random : nat -> Z) (ctx : option tls_handshake_context) (psk : option bytes)
    (id : option tls_psk_identity) : option (bool * option tls_handshake_context) :=
  match ctx, psk, id with
  | Some _, Some _, Some id =>
      k ← rd psk 32;
      let random := concat ((fun i => le64 (tls_random i)) <$> [0; 1; 2; 3]%nat) in
      let ctx := mk_handshake k id random (zeros 32) TLS_AES_128_GCM_SHA256 None blank_keys 0 0 TLS_STATE_INIT in
      match tls_hash_context_init TLS_HASH_SHA256 with
      | (Some h, true) => Some (true, Some (set_transcript_hash (Some h) ctx))
      | _ => Some (false, Some ctx)
      end
  | _, _, _ => Some (false, ctx)
  end.

(** ** ClientHello *)

(** The buffer and the offset in it. *)
Definition put (b : bytes * Z) (d : bytes) : option (bytes * Z) :=
  l ← store_at b.1 b.2 d; Some (l, u24 (b.2 + Z.of_nat (length d))).
Definition skip (b : bytes * Z) (n : Z) : bytes * Z := (b.1, u24 (b.2 + n)).
Definition be16 (v : Z) : bytes := [u8 (Z.shiftr v 8); u8 (Z.land v 255)].
Definition be24 (v : Z) : bytes := [u8 (Z.shiftr v 16); u8 (Z.shiftr v 8); u8 (Z.land v 255)].

Definition supported_versions_ext : bytes := [0x00; 0x2b; 0x00; 0x03; 0x02; 0x03; 0x04].
Definition psk_modes_ext : bytes := [0x00; 0x2d; 0x00; 0x02; 0x01; 0x00].

Definition res_binder : bytes := str "res binder".
Definition finished_label : bytes := str "finished".

(** A derivation of a local secret of [n] bytes with an empty context. *)
Definition expand_empty (secret label : bytes) (out : bytes) (n : Z) : option (bool * option bytes) :=
  tls_hkdf_expand_label TLS_HASH_SHA256 (Some secret) 32 (Some label) (Z.of_nat (length label)) None 0 (Some out) n.

(** [HMAC(finished_key, hash)] *)
Definition finished_mac {F} (e : F) (finished_key hash : bytes) : R F bytes :=
  c ← lift (tls_hmac_context_init TLS_HASH_SHA256 (Some finished_key) 32);
  match c with
  | None => Some (inl e)
  | Some c =>
      c ← lift (tls_hmac_update c (Some hash) 32);
      lift (tls_hmac_digest c)
  end.

(** The extensions up to the binder, and the places of the lengths to fill in:
    of the extensions, of the last one, and of its binders. *)
Definition hello_body (c : tls_handshake_context) (out_len w : Z) (b : bytes * Z) :
    R (tls_handshake_context * bytes * Z) (bytes * Z * (Z * Z * Z)) :=
  b ← lift (put b [0x00; 0x00; 0x02; 0x13; 0x01; 0x01; 0x00]);
  let ext_len_offset := b.2 in
  b ← lift (put (skip b 2) supported_versions_ext);
  b ← lift (put b psk_modes_ext);
  b ← lift (put b [0x00; 0x29]);
  let psk_ext_len_offset := b.2 in
  let b := skip b 2 in
  let identities_len_offset := b.2 in
  let b := skip b 2 in
  let identities_start := b.2 in
  b ← lift (put b (be16 (identity_len (psk_identity c))));
  must (u24 (b.2 + identity_len (psk_identity c)) <=? out_len) (c, b.1, w);;
  id ← lift (rd (Some (identity (psk_identity c))) (identity_len (psk_identity c)));
  b ← lift (put b id);
  b ← lift (put b (be32 (obfuscated_ticket_age (psk_identity c))));
  out ← lift (store_at b.1 identities_len_offset (be16 (u24 (b.2 - identities_start))));
  let binders_len_offset := b.2 in
  b ← lift (put (skip (out, b.2) 2) [32]);
  mret (b, (ext_len_offset, psk_ext_len_offset, binders_len_offset)).

Definition hello_lengths (b : bytes * Z) (places : Z * Z * Z) : option bytes :=
  let '(ext_len_offset, psk_ext_len_offset, binders_len_offset) := places in
  out ← store_at b.1 0 (TLS_HANDSHAKE_CLIENT_HELLO :: be24 (u24 (b.2 + 32 - 4)));
  out ← store_at out ext_len_offset (be16 (u24 (b.2 + 32 + 2 - (ext_len_offset + 2))));
  out ← store_at out psk_ext_len_offset (be16 (u24 (b.2 + 32 + 2 - (psk_ext_len_offset + 2))));
  store_at out binders_len_offset (be16 (1 + 32)).

Definition client_hello (c : tls_handshake_context) (out : bytes) (out_len w : Z) :
    R (tls_handshake_context * bytes * Z) (tls_handshake_context * bytes * Z) :=
  must (4 <=? out_len) (c, out, w);;
  b ← lift (put (out, 4) [0x03; 0x03]);
  must (u24 (b.2 + 32) <=? out_len) (c, b.1, w);;
  b ← lift (r ← rd (Some (client_random c)) 32; put b r);
  body ← hello_body c out_len w b;
  let b := body.1 in
  let binder_offset := body.2.2 in
  early_secret ← derived (c, b.1, w) (tls_hkdf_extract TLS_HASH_SHA256 None 0 (Some (psk c)) 32 (Some (zeros 32)));
  binder_key ← derived (c, b.1, w) (expand_empty early_secret res_binder (zeros 32) 32);
  finished_key ← derived (c, b.1, w) (expand_empty binder_key finished_label (zeros 32) 32);
  out ← lift (hello_lengths b body.2);
  match tls_hash_context_init TLS_HASH_SHA256 with
  | (Some hash_ctx, true) =>
      hash_ctx ← lift (tls_hash_update hash_ctx (Some out) (u24 (binder_offset + 3)));
      binder ← finished_mac (c, out, w) finished_key (tls_hash_digest hash_ctx);
      must (u24 (b.2 + 32) <=? out_len) (c, out, w);;
      b ← lift (put (out, b.2) binder);
      c ← lift (transcript_hash_update b.1 b.2 c);
      mret (set_state TLS_STATE_CLIENT_HELLO_SENT c, b.1, b.2)
  | _ => Some (inl (c, out, w))
  end.

Definition tls_send_client_hello (ctx : option tls_handshake_context) (out : option bytes) (out_len : Z)
    (written : option Z) : option (bool * (option tls_handshake_context * option bytes * option Z)) :=
  match ctx, out, written with
  | Some c, Some o, Some w =>
      r ← outcome (client_hello c o out_len w);
      let '(b, (c, o, w)) := r in Some (b, (Some c, Some o, Some w))
  | _, _, _ => Some (false, (ctx, out, written))
  end.

(** ** ServerHello *)

(** [(a << 8) | b] and [(a << 16) | (b << 8) | c] *)
Definition rd16 (data : bytes) (off : Z) : option Z :=
  a ← get8 data off; b ← get8 data (off + 1); Some (Z.lor (Z.shiftl a 8) b).
Definition rd24 (data : bytes) (off : Z) : option Z :=
  a ← get8 data off; b ← get8 data (off + 1); c ← get8 data (off + 2);
  Some (Z.lor (Z.lor (Z.shiftl a 16) (Z.shiftl b 8)) c).

(** [data[off] == a && data[off + 1] == b] *)
Definition is_pair (data : bytes) (off a b : Z) : option bool :=
  x ← get8 data off; if x =? a then y ← get8 data (off + 1); Some (y =? b) else Some false.

(** The extensions: whether the version and the key were selected; the inner
    [None] is a malformed or unacceptable one. *)
Fixpoint server_extensions (fuel : nat) (data : bytes) (offset ext_end : Z) (versions found_psk : bool) :
    option (option (bool * bool)) :=
  if negb (offset <? ext_end) then Some (Some (versions, found_psk))
  else
    match fuel with
    | O => None
    | S fuel' =>
        if ext_end <? u24 (offset + 4) then Some None
        else
          ext_type ← rd16 data offset;
          ext_data_len ← rd16 data (offset + 2);
          let offset := u24 (offset + 4) in
          if ext_end <? u24 (offset + ext_data_len) then Some None
          else if ext_type =? TLS_EXT_SUPPORTED_VERSIONS then
            if negb (ext_data_len =? 2) then Some None
            else
              v ← is_pair data offset 0x03 0x04;
              if negb v then Some None
              else server_extensions fuel' data (u24 (offset + ext_data_len)) ext_end true found_psk
          else if ext_type =? TLS_EXT_PRE_SHARED_KEY then
            if negb (ext_data_len =? 2) then Some None
            else
              selected_identity ← rd16 data offset;
              if negb (selected_identity =? 0) then Some None
              else server_extensions fuel' data (u24 (offset + ext_data_len)) ext_end versions true
          else server_extensions fuel' data (u24 (offset + ext_data_len)) ext_end versions found_psk
    end.

(** The fixed part, up to the extensions and their end. *)
Definition server_fixed (c : tls_handshake_context) (data : bytes) (msg_end offset : Z) :
    R tls_handshake_context (tls_handshake_context * Z * Z) :=
  let err c := set_state TLS_STATE_ERROR c in
  version ← lift (is_pair data offset 0x03 0x03);
  must version (err c);;
  let offset := u24 (offset + 2) in
  must (u24 (offset + 32) <=? msg_end) (err c);;
  random ← lift (rd_at data offset 32);
  let c := set_server_random random c in
  let offset := u24 (offset + 32) in
  must (offset <? msg_end) (err c);;
  session_id_len ← lift (get8 data offset);
  let offset := u24 (offset + 1) in
  must (u24 (offset + session_id_len) <=? msg_end) (err c);;
  let offset := u24 (offset + session_id_len) in
  must (u24 (offset + 2) <=? msg_end) (err c);;
  suite ← lift (rd16 data offset);
  let offset := u24 (offset + 2) in
  must (suite =? cipher_suite c) (err c);;
  must (offset <? msg_end) (err c);;
  compression ← lift (get8 data offset);
  must (compression =? 0) (err c);;
  let offset := u24 (offset + 1) in
  must (u24 (offset + 2) <=? msg_end) (err c);;
  ext_len ← lift (rd16 data offset);
  let offset := u24 (offset + 2) in
  let ext_end := u24 (offset + ext_len) in
  must (ext_end <=? msg_end) (err c);;
  mret (c, offset, ext_end).

Definition server_hello (c : tls_handshake_context) (data : bytes) (data_len : Z) :
    R tls_handshake_context tls_handshake_context :=
  type ← lift (get8 data 0);
  must (type =? TLS_HANDSHAKE_SERVER_HELLO) (set_state TLS_STATE_ERROR c);;
  msg_len ← lift (rd24 data 1);
  must (u24 (4 + msg_len) <=? data_len) (set_state TLS_STATE_ERROR c);;
  let msg_end := u24 (4 + msg_len) in
  r ← server_fixed c data msg_end 4;
  let '(c, offset, ext_end) := r in
  found ← lift (server_extensions (length data) data offset ext_end false false);
  match found with
  | Some (true, true) =>
      c ← lift (transcript_hash_update data msg_end c);
      mret (set_state TLS_STATE_SERVER_HELLO_RECEIVED c)
  | _ => Some (inl (set_state TLS_STATE_ERROR c))
  end.

Definition tls_recv_server_hello (ctx : option tls_handshake_context) (data : option bytes) (data_len : Z) :
    option (bool * option tls_handshake_context) :=
  match ctx, data with
  | Some c, Some d =>
      if negb (bool_decide (state c = TLS_STATE_CLIENT_HELLO_SENT)) then Some (false, ctx)
      else r ← outcome (server_hello c d data_len); Some (r.1, Some r.2)
  | _, _ => Some (false, ctx)
  end.

(** ** Certificate *)

(** [while (current_parse_len < cert_chain_len) { }] *)
Fixpoint parse_chain (fuel : nat) (current_parse_len cert_chain_len : Z) : option unit :=
  if current_parse_len <? cert_chain_len then
    match fuel with O => None | S fuel' => parse_chain fuel' current_parse_len cert_chain_len end
  else Some tt.

(** [fuel] bounds the turns of the loop above. *)
Definition tls_recv_certificate (fuel : nat) (ctx : option tls_handshake_context) (data : option bytes) (data_len : Z) :
    option bool :=
  match ctx, data with
  | Some _, Some d =>
      if data_len <? 4 then Some false
      else
        type ← get8 d 0;
        if negb (type =? TLS_HANDSHAKE_CERTIFICATE) then Some false
        else
          msg_len ← rd24 d 1;
          if (data_len <=? 4) && (data_len <? u24 (4 + msg_len)) then Some false
          else
            context_len ← get8 d 4;
            let offset := u24 (5 + context_len) in
            if data_len <? offset then Some false
            else
              cert_chain_len ← rd24 d offset;
              let offset := u24 (offset + 3) in
              if negb (u24 (offset + cert_chain_len) =? data_len) then Some false
              else parse_chain fuel 0 cert_chain_len;; Some true
  | _, _ => Some false
  end.

(** ** Records *)

(** The messages of a handshake record; [fuel] bounds their number and the
    turns of [parse_chain]. *)
Fixpoint record_messages (fuel : nat) (c : tls_handshake_context) (payload : bytes) (offset record_len : Z) :
    option (bool * tls_handshake_context) :=
  if negb (u24 (offset + 4) <=? record_len) then Some (offset =? record_len, c)
  else
    match fuel with
    | O => None
    | S fuel' =>
        msg_type ← get8 payload offset;
        msg_len ← rd24 payload (offset + 1);
        let msg_end := u24 (offset + 4 + msg_len) in
        if record_len <? msg_end then Some (false, c)
        else
          msg ← at_off payload offset;
          r ← (if msg_type =? TLS_HANDSHAKE_SERVER_HELLO then
                 tls_recv_server_hello (Some c) (Some msg) (u24 (msg_end - offset))
               else if msg_type =? TLS_HANDSHAKE_CERTIFICATE then
                 b ← tls_recv_certificate fuel' (Some c) (Some msg) (u24 (msg_end - offset)); Some (b, Some c)
               else Some (true, Some c));
          c ← r.2;
          if negb r.1 then Some (false, c) else record_messages fuel' c payload msg_end record_len
    end.

Definition tls_process_record (fuel : nat) (ctx : option tls_handshake_context) (data : option bytes) (data_len : Z) :
    option (bool * option tls_handshake_context) :=
  match ctx, data with
  | Some c, Some d =>
      if data_len <? 5 then Some (false, ctx)
      else
        content_type ← get8 d 0;
        record_len ← rd16 d 3;
        if negb (data_len =? 5 + record_len) then Some (false, ctx)
        else if content_type =? TLS_CONTENT_TYPE_HANDSHAKE then
          payload ← at_off d 5;
          r ← record_messages fuel c payload 0 record_len;
          Some (r.1, Some r.2)
        else Some (false, ctx)
  | _, _ => Some (false, ctx)
  end.

(** ** The key schedule *)

Definition secret32 (secret label : bytes) (hash out : bytes) : option (bool * option bytes) :=
  tls_derive_secret TLS_HASH_SHA256 (Some secret) 32 (Some label) (Z.of_nat (length label)) (Some hash) 32 (Some out).

(** The hash of nothing, from a context just set up. *)
Definition empty_hash {F} (e : F) : R F bytes :=
  match tls_hash_context_init TLS_HASH_SHA256 with
  | (Some hash_ctx, true) => mret (tls_hash_digest hash_ctx)
  | _ => Some (inl e)
  end.

(** Traffic key and IV of a secret, into two fields. *)
Definition traffic_key (secret : bytes) (label : bytes) (n : Z) (get : tls_traffic_keys -> bytes)
    (set : bytes -> tls_traffic_keys -> tls_traffic_keys) (c : tls_handshake_context) :
    R tls_handshake_context tls_handshake_context :=
  derive_into (fun d => with_keys (set d) c) (expand_empty secret label (get (keys c)) n).

Definition derive_handshake_keys (c : tls_handshake_context) : R tls_handshake_context tls_handshake_context :=
  early_secret ← derived c (tls_hkdf_extract TLS_HASH_SHA256 None 0 (Some (psk c)) 32 (Some (zeros 32)));
  hash0 ← empty_hash c;
  derived_secret ← derived c (secret32 early_secret (str "derived") hash0 (zeros 32));
  handshake_secret' ← derived c
    (tls_hkdf_extract TLS_HASH_SHA256 (Some derived_secret) 32 (Some (zeros 32)) 32 (Some (zeros 32)));
  let hash := transcript_hash_digest c in
  c ← derive_into (fun d => with_keys (set_client_handshake_traffic_secret d) c)
        (secret32 handshake_secret' (str "c hs traffic") hash (client_handshake_traffic_secret (keys c)));
  c ← derive_into (fun d => with_keys (set_server_handshake_traffic_secret d) c)
        (secret32 handshake_secret' (str "s hs traffic") hash (server_handshake_traffic_secret (keys c)));
  c ← traffic_key (client_handshake_traffic_secret (keys c)) (str "key") 16 client_handshake_key set_client_handshake_key c;
  c ← traffic_key (client_handshake_traffic_secret (keys c)) (str "iv") 12 client_handshake_iv set_client_handshake_iv c;
  c ← traffic_key (server_handshake_traffic_secret (keys c)) (str "key") 16 server_handshake_key set_server_handshake_key c;
  c ← traffic_key (server_handshake_traffic_secret (keys c)) (str "iv") 12 server_handshake_iv set_server_handshake_iv c;
  mret (with_keys (set_handshake_secret handshake_secret') c).

Definition tls_derive_handshake_keys (ctx : option tls_handshake_context) : option (bool * option tls_handshake_context) :=
  match ctx with
  | Some c =>
      if negb (bool_decide (state c = TLS_STATE_SERVER_HELLO_RECEIVED)) then Some (false, ctx)
      else r ← outcome (derive_handshake_keys c); Some (r.1, Some r.2)
  | None => Some (false, ctx)
  end.

Definition derive_application_keys (c : tls_handshake_context) : R tls_handshake_context tls_handshake_context :=
  hash0 ← empty_hash c;
  derived_secret ← derived c (secret32 (handshake_secret (keys c)) (str "derived") hash0 (zeros 32));
  master_secret ← derived c
    (tls_hkdf_extract TLS_HASH_SHA256 (Some derived_secret) 32 (Some (zeros 32)) 32 (Some (zeros 32)));
  let hash := transcript_hash_digest c in
  c ← derive_into (fun d => with_keys (set_client_application_traffic_secret d) c)
        (secret32 master_secret (str "c ap traffic") hash (client_application_traffic_secret (keys c)));
  c ← derive_into (fun d => with_keys (set_server_application_traffic_secret d) c)
        (secret32 master_secret (str "s ap traffic") hash (server_application_traffic_secret (keys c)));
  c ← traffic_key (client_application_traffic_secret (keys c)) (str "key") 16 client_application_key set_client_application_key c;
  c ← traffic_key (client_application_traffic_secret (keys c)) (str "iv") 12 client_application_iv set_client_application_iv c;
  c ← traffic_key (server_application_traffic_secret (keys c)) (str "key") 16 server_application_key set_server_application_key c;
  traffic_key (server_application_traffic_secret (keys c)) (str "iv") 12 server_application_iv set_server_application_iv c.

Definition tls_derive_application_keys (ctx : option tls_handshake_context) : option (bool * option tls_handshake_context) :=
  match ctx with
  | Some c => r ← outcome (derive_application_keys c); Some (r.1, Some r.2)
  | None => Some (false, ctx)
  end.

(** ** Finished *)

(** What a Finished message of the owner of [traffic_secret] has to carry now. *)
Definition verify_data {F} (e : F) (traffic_secret : bytes) (c : tls_handshake_context) : R F bytes :=
  finished_key ← derived e (expand_empty traffic_secret finished_label (zeros 32) 32);
  finished_mac e finished_key (transcript_hash_digest c).

Definition send_finished (c : tls_handshake_context) (is_client : bool) (out : bytes) (w : Z) :
    R (tls_handshake_context * bytes * Z) (tls_handshake_context * bytes * Z) :=
  let secret := if is_client then client_handshake_traffic_secret (keys c) else server_handshake_traffic_secret (keys c) in
  v ← verify_data (c, out, w) secret c;
  b ← lift (put (out, 0) [TLS_HANDSHAKE_FINISHED; 0x00; 0x00; 0x20]);
  b ← lift (put b v);
  c ← lift (transcript_hash_update b.1 b.2 c);
  mret (c, b.1, b.2).

Definition tls_send_finished (ctx : option tls_handshake_context) (is_client : bool) (out : option bytes) (out_len : Z)
    (written : option Z) : option (bool * (option tls_handshake_context * option bytes * option Z)) :=
  match ctx, out, written with
  | Some c, Some o, Some w =>
      if out_len <? 36 then Some (false, (ctx, out, written))
      else
        r ← outcome (send_finished c is_client o w);
        let '(b, (c, o, w)) := r in Some (b, (Some c, Some o, Some w))
  | _, _, _ => Some (false, (ctx, out, written))
  end.

Definition recv_finished (c : tls_handshake_context) (is_client : bool) (data : bytes) (data_len : Z) :
    R tls_handshake_context tls_handshake_context :=
  type ← lift (get8 data 0);
  must (type =? TLS_HANDSHAKE_FINISHED) c;;
  msg_len ← lift (rd24 data 1);
  must ((msg_len =? 32) && (4 + 32 <=? data_len)) c;;
  let secret := if is_client then server_handshake_traffic_secret (keys c) else client_handshake_traffic_secret (keys c) in
  expected ← verify_data c secret c;
  received ← lift (rd_at data 4 32);
  must (tls_bytes_compare received expected) c;;
  lift (transcript_hash_update data (4 + 32) c).

Definition tls_recv_finished (ctx : option tls_handshake_context) (is_client : bool) (data : option bytes) (data_len : Z) :
    option (bool * option tls_handshake_context) :=
  match ctx, data with
  | Some c, Some d =>
      if data_len <? 36 then Some (false, ctx)
      else r ← outcome (recv_finished c is_client d data_len); Some (r.1, Some r.2)
  | _, _ => Some (false, ctx)
  end.

(** ** Protected records *)

(** The 64-bit sequence number over the last eight bytes of the IV. *)
Definition record_nonce (iv : bytes) (seq_num : Z) : option bytes :=
  n ← rd (Some iv) 12;
  xor_into n 4 8 ((fun i => Z.land (Z.shiftr seq_num (56 - i * 8)) 255) <$> [0; 1; 2; 3; 4; 5; 6; 7]).
Definition record_aad (len : Z) : bytes := [TLS_CONTENT_TYPE_APPLICATION_DATA; 0x03; 0x03] ++ be16 len.

(** Set-up of GCM for a record. *)
Definition record_gcm {F} (e : F) (key iv : bytes) (seq_num len : Z) : R F tls_aes_context :=
  nonce ← lift (record_nonce iv seq_num);
  r ← lift (tls_aes_init (Some blank_aes) TLS_AES_GCM (Some key) 16 (Some nonce) 12);
  must r.1 e;;
  a ← lift r.2;
  r ← lift (tls_aes_update_aad a (Some (record_aad len)) 5);
  must r.1 e;;
  mret r.2.

Definition encrypt_data (c : tls_handshake_context) (plaintext : bytes) (plaintext_len : Z) (ciphertext : bytes) (w : Z) :
    R (tls_handshake_context * bytes * Z) (tls_handshake_context * bytes * Z) :=
  a ← record_gcm (c, ciphertext, w) (client_application_key (keys c)) (client_application_iv (keys c))
        (client_seq_num c) (u24 (plaintext_len + 16));
  r ← lift (tls_aes_encrypt (Some a) (Some plaintext) plaintext_len (Some ciphertext));
  out ← lift r.2;
  must r.1.1 (c, out, w);;
  t ← lift (tls_aes_digest r.1.2 (Some (zeros 16)));
  must t.1.1 (c, out, w);;
  auth_tag ← lift t.2;
  out ← lift (store_at out plaintext_len auth_tag);
  mret (set_client_seq_num (u64 (client_seq_num c + 1)) c, out, u24 (plaintext_len + 16)).

Definition tls_encrypt_data (ctx : option tls_handshake_context) (plaintext : option bytes) (plaintext_len : Z)
    (ciphertext : option bytes) (ciphertext_len : Z) (written : option Z) :
    option (bool * (option tls_handshake_context * option bytes * option Z)) :=
  match ctx, plaintext, ciphertext, written with
  | Some c, Some p, Some o, Some w =>
      if ciphertext_len <? u24 (plaintext_len + 16) then Some (false, (ctx, ciphertext, written))
      else
        r ← outcome (encrypt_data c p plaintext_len o w);
        let '(b, (c, o, w)) := r in Some (b, (Some c, Some o, Some w))
  | _, _, _, _ => Some (false, (ctx, ciphertext, written))
  end.

Definition decrypt_data (c : tls_handshake_context) (ciphertext : bytes) (ciphertext_len : Z) (plaintext : bytes) (w : Z) :
    R (tls_handshake_context * bytes * Z) (tls_handshake_context * bytes * Z) :=
  let n := ciphertext_len - 16 in
  a ← record_gcm (c, plaintext, w) (server_application_key (keys c)) (server_application_iv (keys c))
        (server_seq_num c) ciphertext_len;
  r ← lift (tls_aes_decrypt (Some a) (Some ciphertext) n (Some plaintext));
  out ← lift r.2;
  must r.1.1 (c, out, w);;
  t ← lift (tls_aes_digest r.1.2 (Some (zeros 16)));
  must t.1.1 (c, out, w);;
  computed_tag ← lift t.2;
  received_tag ← lift (rd_at ciphertext n 16);
  if negb (tls_bytes_compare computed_tag received_tag) then
    out ← lift (store_at out 0 (zeros n));
    Some (inl (c, out, w))
  else mret (set_server_seq_num (u64 (server_seq_num c + 1)) c, out, n).

Definition tls_decrypt_data (ctx : option tls_handshake_context) (ciphertext : option bytes) (ciphertext_len : Z)
    (plaintext : option bytes) (plaintext_len : Z) (written : option Z) :
    option (bool * (option tls_handshake_context * option bytes * option Z)) :=
  match ctx, ciphertext, plaintext, written with
  | Some c, Some ct, Some o, Some w =>
      if ciphertext_len <? 16 then Some (false, (ctx, plaintext, written))
      else if plaintext_len <? ciphertext_len - 16 then Some (false, (ctx, plaintext, written))
      else
        r ← outcome (decrypt_data c ct ciphertext_len o w);
        let '(b, (c, o, w)) := r in Some (b, (Some c, Some o, Some w))
  | _, _, _, _ => Some (false, (ctx, plaintext, written))
  end.

(** ** Alerts and the end *)

Definition tls_send_alert (ctx : option tls_handshake_context) (level description : Z) :
    bool * option tls_handshake_context :=
  match ctx with
  | Some c => (false, Some (if level =? TLS_ALERT_LEVEL_FATAL then set_state TLS_STATE_ERROR c else c))
  | None => (false, None)
  end.

Definition tls_handshake_cleanup (ctx : option tls_handshake_context) : option tls_handshake_context :=
  match ctx with Some _ => Some blank_handshake | None => None end.

End Handshake.
