(* ===== verification/KeySchedule.v ===== *)
(** * The key schedule of TLS 1.3

    RFC 8446, 7.1 to 7.3 and 4.4.4, for the mode with a pre-shared key and no
    Diffie-Hellman, and the proof that the handshake code derives exactly these
    secrets, keys and Finished messages. *)

From S2P Require Import Prelude MemState RingList TlsHash TlsKdf Rsa RsaCorrect Aes Handshake.

(** ** The standard *)

Section Schedule.
Context {St : Type} `{Sha256Laws St}.

Definition Derive_Secret (secret label messages : bytes) : bytes :=
  HKDF_Expand_Label secret label (sha256 messages) 32.
Definition early_secret_of (psk : bytes) : bytes := HKDF_Extract [] psk.
Definition handshake_secret_of (psk : bytes) : bytes :=
  HKDF_Extract (Derive_Secret (early_secret_of psk) (str "derived") []) (zeros 32).
Definition master_secret_of (psk : bytes) : bytes :=
  HKDF_Extract (Derive_Secret (handshake_secret_of psk) (str "derived") []) (zeros 32).
Definition write_key (secret : bytes) : bytes := HKDF_Expand_Label secret (str "key") [] 16.
Definition write_iv (secret : bytes) : bytes := HKDF_Expand_Label secret (str "iv") [] 12.
(** The verify_data of a Finished message after [messages]. *)
Definition Finished_data (base_key messages : bytes) : bytes :=
  HMAC (HKDF_Expand_Label base_key (str "finished") [] 32) (sha256 messages).
Definition Finished (base_key messages : bytes) : bytes :=
  [TLS_HANDSHAKE_FINISHED; 0; 0; 32] ++ Finished_data base_key messages.

(** The keys of the handshake after the hellos [m], and of the application
    after the messages [m']. *)
Definition client_hs (psk m : bytes) : bytes := Derive_Secret (handshake_secret_of psk) (str "c hs traffic") m.
Definition server_hs (psk m : bytes) : bytes := Derive_Secret (handshake_secret_of psk) (str "s hs traffic") m.
Definition client_ap (psk m : bytes) : bytes := Derive_Secret (master_secret_of psk) (str "c ap traffic") m.
Definition server_ap (psk m : bytes) : bytes := Derive_Secret (master_secret_of psk) (str "s ap traffic") m.
Definition handshake_keys_of (psk m : bytes) (k : tls_traffic_keys) : tls_traffic_keys :=
  mk_keys (handshake_secret_of psk) (client_hs psk m) (server_hs psk m)
    (client_application_traffic_secret k) (server_application_traffic_secret k)
    (write_key (client_hs psk m)) (write_iv (client_hs psk m)) (write_key (server_hs psk m)) (write_iv (server_hs psk m))
    (client_application_key k) (client_application_iv k) (server_application_key k) (server_application_iv k).
Definition application_keys_of (psk m : bytes) (k : tls_traffic_keys) : tls_traffic_keys :=
  mk_keys (handshake_secret k) (client_handshake_traffic_secret k) (server_handshake_traffic_secret k)
    (client_ap psk m) (server_ap psk m)
    (client_handshake_key k) (client_handshake_iv k) (server_handshake_key k) (server_handshake_iv k)
    (write_key (client_ap psk m)) (write_iv (client_ap psk m)) (write_key (server_ap psk m)) (write_iv (server_ap psk m)).
End Schedule.

Section Laws.
Context {St : Type} {ops : Sha256 St} {laws : Sha256Laws St}.
Abbreviation context := (tls_handshake_context (St := St)).

(** ** Lengths *)

Lemma length_expand prk info n : length (HKDF_Expand prk info n) = n.
Proof.
  unfold HKDF_Expand. rewrite length_take, length_blocks by apply length_T. pose proof (block_count_spec n). lia.
Qed.
Lemma length_label secret label ctx n : length (HKDF_Expand_Label secret label ctx n) = n.
Proof. apply length_expand. Qed.
Lemma length_extract salt ikm : length (HKDF_Extract salt ikm) = 32%nat.
Proof. apply length_HMAC. Qed.
Lemma not_nil (l : bytes) n : length l = S n -> l <> [].
Proof. by intros H ->. Qed.

(** ** The steps *)

(** Enough room in a buffer: exactly its size, so nothing is left of it. *)
Lemma expand_empty_ok secret label out n : length secret = 32%nat -> label <> [] -> (length label <= 249)%nat ->
  length out = n -> (n <= 255 * 32)%nat ->
  expand_empty secret label out (Z.of_nat n) = Some (true, Some (HKDF_Expand_Label secret label [] n)).
Proof.
  intros Hs Hl Hll <- Hn. pose proof (expand_label_ok secret label [] out (length out) (not_nil _ _ Hs) Hl Hll) as H.
  rewrite drop_all, app_nil_r, Hs in H. apply H; cbn; lia.
Qed.
Lemma secret32_ok secret label hash out : length secret = 32%nat -> label <> [] -> (length label <= 249)%nat ->
  length hash = 32%nat -> length out = 32%nat ->
  secret32 secret label hash out = Some (true, Some (HKDF_Expand_Label secret label hash 32)).
Proof.
  intros Hs Hl Hll Hh Ho. pose proof (expand_label_ok secret label hash out 32 (not_nil _ _ Hs) Hl Hll) as H.
  rewrite (drop_ge out), app_nil_r, Hs, Hh in H by lia. unfold secret32, tls_derive_secret.
  change (get_hash_length TLS_HASH_SHA256) with 32. cbn [Z.eqb Pos.eqb negb orb]. apply H; lia.
Qed.
Lemma extract_first_ok ikm out : length ikm = 32%nat -> length out = 32%nat ->
  tls_hkdf_extract TLS_HASH_SHA256 None 0 (Some ikm) 32 (Some out) = Some (true, Some (HKDF_Extract [] ikm)).
Proof.
  intros Hi Ho. pose proof (hkdf_extract_is_rfc5869 None 0 [] ikm out ltac:(lia) ltac:(by left; split; [|left])) as H.
  by rewrite (drop_ge out), app_nil_r, Hi in H by lia.
Qed.
Lemma extract_salt_ok salt ikm out : length salt = 32%nat -> length ikm = 32%nat -> length out = 32%nat ->
  tls_hkdf_extract TLS_HASH_SHA256 (Some salt) 32 (Some ikm) 32 (Some out) = Some (true, Some (HKDF_Extract salt ikm)).
Proof.
  intros Hs Hi Ho. pose proof (hkdf_extract_is_rfc5869 (Some salt) 32 salt ikm out ltac:(lia)
    ltac:(right; split; [by apply (not_nil _ 31)|split; [done|lia]])) as H.
  by rewrite (drop_ge out), app_nil_r, Hi in H by lia.
Qed.
Lemma finished_mac_ok {F} (e : F) key hash : length key = 32%nat -> length hash = 32%nat ->
  finished_mac e key hash = Some (inr (HMAC key hash)).
Proof.
  intros Hk Hh. unfold finished_mac. destruct (hmac_init key [] (not_nil _ _ Hk)) as (c&Hc&Hok).
  rewrite app_nil_r, Hk in Hc. change 32 with (Z.of_nat 32). rewrite Hc. cbn [lift mbind option_bind R_bind].
  destruct (hmac_update_all key [] c hash (Z.of_nat 32) Hok ltac:(by rewrite Hh)) as (c'&->&Hok').
  cbn [lift mbind option_bind R_bind]. rewrite (hmac_digest _ _ _ Hok'). done.
Qed.

(** ** The context *)

(** The transcript has taken in [m]. *)
Definition transcript (c : context) (m : bytes) : Prop :=
  exists h, transcript_hash c = Some h /\ absorbed (hash_private h) m.
Record keys_sized (k : tls_traffic_keys) : Prop := {
  sz_hs : length (handshake_secret k) = 32%nat;
  sz_chs : length (client_handshake_traffic_secret k) = 32%nat;
  sz_shs : length (server_handshake_traffic_secret k) = 32%nat;
  sz_cap : length (client_application_traffic_secret k) = 32%nat;
  sz_sap : length (server_application_traffic_secret k) = 32%nat;
  sz_chk : length (client_handshake_key k) = 16%nat;
  sz_chi : length (client_handshake_iv k) = 12%nat;
  sz_shk : length (server_handshake_key k) = 16%nat;
  sz_shi : length (server_handshake_iv k) = 12%nat;
  sz_cak : length (client_application_key k) = 16%nat;
  sz_cai : length (client_application_iv k) = 12%nat;
  sz_sak : length (server_application_key k) = 16%nat;
  sz_sai : length (server_application_iv k) = 12%nat
}.
(** Arrays have their sizes, the transcript is set up. *)
Record context_ok (c : context) (m : bytes) : Prop := {
  ok_psk : length (psk c) = 32%nat;
  ok_keys : keys_sized (keys c);
  ok_transcript : transcript c m
}.

Lemma transcript_digest c m : transcript c m -> transcript_hash_digest c = sha256 m.
Proof. intros (h&E&Ha). unfold transcript_hash_digest. rewrite E. by apply absorbed_digest. Qed.
Lemma transcript_update c m d r : transcript c m -> exists h,
  transcript_hash_update (d ++ r) (Z.of_nat (length d)) c = Some (set_transcript_hash (Some h) c) /\
  absorbed (hash_private h) (m ++ d).
Proof.
  intros (h&E&Ha). unfold transcript_hash_update, tls_hash_update. rewrite E, rd_app. cbn [mbind option_bind].
  eexists. split; [done|]. by apply absorbed_update.
Qed.
Lemma empty_hash_ok {F} (e : F) : empty_hash (St := St) e = Some (inr (sha256 [])).
Proof.
  unfold empty_hash, tls_hash_context_init. cbn [Z.eqb TLS_HASH_SHA256]. rewrite sha256_ready.
  cbn [mret R_ret]. unfold tls_hash_digest. cbn [hash_private]. by rewrite (absorbed_digest _ [] absorbed_init).
Qed.

(** ** Derivation *)

Lemma traffic_key_ok secret label n get set (c : context) : length secret = 32%nat -> label <> [] ->
  (length label <= 249)%nat -> length (get (keys c)) = n -> (n <= 255 * 32)%nat ->
  traffic_key secret label (Z.of_nat n) get set c =
  Some (inr (with_keys (set (HKDF_Expand_Label secret label [] n)) c)).
Proof. intros Hs Hl Hll Hg Hn. unfold traffic_key. by rewrite (expand_empty_ok secret label _ n). Qed.

Ltac sizes := first [assumption | apply length_label | apply length_extract | apply sha256_length | apply length_replicate |
  reflexivity | (vm_compute; discriminate) | (vm_compute; lia)].
Ltac key_step n := rewrite (traffic_key_ok _ _ n); [cbn [mbind R_bind]|sizes..].

Lemma derive_handshake_ok c m : context_ok c m ->
  derive_handshake_keys c = Some (inr (set_keys (handshake_keys_of (psk c) m (keys c)) c)).
Proof.
  intros [Hp [] Ht]. unfold derive_handshake_keys. rewrite extract_first_ok by sizes. cbn [derived mbind R_bind].
  rewrite empty_hash_ok. cbn [mbind R_bind]. rewrite secret32_ok by sizes. cbn [derived mbind R_bind].
  rewrite extract_salt_ok by sizes. cbn [derived mbind R_bind]. rewrite (transcript_digest _ _ Ht).
  rewrite secret32_ok by sizes. cbn [derive_into mbind R_bind]. rewrite secret32_ok by sizes. cbn [derive_into mbind R_bind].
  change 16 with (Z.of_nat 16). change 12 with (Z.of_nat 12).
  key_step 16%nat. key_step 12%nat. key_step 16%nat. key_step 12%nat. reflexivity.
Qed.

Lemma derive_application_ok c m : context_ok c m -> handshake_secret (keys c) = handshake_secret_of (psk c) ->
  derive_application_keys c = Some (inr (set_keys (application_keys_of (psk c) m (keys c)) c)).
Proof.
  intros [Hp [] Ht] Hs. unfold derive_application_keys.
  rewrite empty_hash_ok. cbn [mbind R_bind]. rewrite Hs in *. rewrite secret32_ok by sizes. cbn [derived mbind R_bind].
  rewrite extract_salt_ok by sizes. cbn [derived mbind R_bind]. rewrite (transcript_digest _ _ Ht).
  rewrite secret32_ok by sizes. cbn [derive_into mbind R_bind]. rewrite secret32_ok by sizes. cbn [derive_into mbind R_bind].
  change 16 with (Z.of_nat 16). change 12 with (Z.of_nat 12).
  key_step 16%nat. key_step 12%nat. key_step 16%nat. key_step 12%nat. reflexivity.
Qed.

(** ** Finished *)

Lemma verify_data_ok {F} (e : F) secret c m : length secret = 32%nat -> transcript c m ->
  verify_data e secret c = Some (inr (Finished_data secret m)).
Proof.
  intros Hs Ht. unfold verify_data. change 32 with (Z.of_nat 32) at 2. rewrite expand_empty_ok by sizes.
  cbn [derived mbind R_bind]. rewrite (transcript_digest _ _ Ht). apply finished_mac_ok; sizes.
Qed.
End Laws.
