(* ===== verification/HelloCorrect.v ===== *)
(** * The hello messages

    A ServerHello as the structure RFC 8446 defines (4.1.3), its encoding, and
    the proof that the parser accepts exactly the acceptable ones; the parser on
    arbitrary bytes; and the ClientHello the code writes, byte for byte. *)

From S2P Require Import Prelude MemState RingList TlsHash TlsKdf Rsa RsaCorrect Aes Handshake KeySchedule.

(** ** Reading at a place *)

(** What lies at [off] in [data]. *)
Definition at_place (data : bytes) (off : Z) (rest : bytes) : Prop :=
  0 <= off /\ drop (Z.to_nat off) data = rest /\ off + Z.of_nat (length rest) = Z.of_nat (length data).

Lemma place_0 data : at_place data 0 data.
Proof. split; [lia|]. split; [done|lia]. Qed.
Lemma place_skip data off d rest n : at_place data off (d ++ rest) -> n = Z.of_nat (length d) -> at_place data (off + n) rest.
Proof.
  intros (H0&Hd&Hl) ->. rewrite length_app in Hl. split; [lia|]. split; [|lia].
  rewrite Z2Nat.inj_add, Nat2Z.id by lia. rewrite <- drop_drop, Hd. by rewrite drop_app_length.
Qed.
Lemma place_get8 data off x rest : at_place data off (x :: rest) -> get8 data off = Some x.
Proof.
  intros (H0&Hd&_). unfold get8. rewrite (proj2 (Z.ltb_ge _ _)) by lia.
  rewrite <- (Nat.add_0_r (Z.to_nat off)), <- lookup_drop, Hd. done.
Qed.
Lemma place_cons data off x rest : at_place data off (x :: rest) -> at_place data (off + 1) rest.
Proof. intros H. by apply (place_skip data off [x] rest 1). Qed.
Lemma place_rd_at data off d rest n : at_place data off (d ++ rest) -> n = Z.of_nat (length d) -> rd_at data off n = Some d.
Proof.
  intros (H0&Hd&Hl) ->. unfold rd_at, at_off, in_bounds. ztest. cbn [andb]. rewrite Hd. apply rd_app.
Qed.
Lemma place_pair data off x y rest a b : at_place data off (x :: y :: rest) ->
  is_pair data off a b = Some ((x =? a) && (y =? b)).
Proof.
  intros H. unfold is_pair. rewrite (place_get8 _ _ _ _ H). cbn [mbind option_bind].
  rewrite (place_get8 _ _ _ _ (place_cons _ _ _ _ H)). by destruct (x =? a).
Qed.

(** Integers of two and three bytes. *)
Lemma be16_value v : 0 <= v < 65536 -> Z.lor (Z.shiftl (u8 (Z.shiftr v 8)) 8) (u8 (Z.land v 255)) = v.
Proof.
  intros Hv. rewrite land_255, Z.shiftr_div_pow2 by done. unfold u8. change (2 ^ 8) with 256.
  rewrite Z.mod_mod, (Z.mod_small (v / 256)) by first [done | split; [apply Z.div_pos; lia|apply Z.div_lt_upper_bound; lia]].
  rewrite lor_shiftl_add by (try lia; apply Z.mod_pos_bound; lia).
  change (2 ^ 8) with 256. pose proof (Z.div_mod v 256). lia.
Qed.
Lemma place_rd16 data off v rest : at_place data off (be16 v ++ rest) -> 0 <= v < 65536 -> rd16 data off = Some v.
Proof.
  intros H Hv. unfold rd16. cbn [be16 app] in H. rewrite (place_get8 _ _ _ _ H). cbn [mbind option_bind].
  rewrite (place_get8 _ _ _ _ (place_cons _ _ _ _ H)). cbn [mbind option_bind]. by rewrite be16_value.
Qed.
Lemma be24_value v : 0 <= v < 16777216 ->
  Z.lor (Z.lor (Z.shiftl (u8 (Z.shiftr v 16)) 16) (Z.shiftl (u8 (Z.shiftr v 8)) 8)) (u8 (Z.land v 255)) = v.
Proof.
  intros Hv. rewrite land_255, !Z.shiftr_div_pow2 by done. unfold u8. change (2 ^ 8) with 256. change (2 ^ 16) with 65536.
  rewrite Z.mod_mod, (Z.mod_small (v / 65536)) by first [done | split; [apply Z.div_pos; lia|apply Z.div_lt_upper_bound; lia]].
  rewrite <- Z.lor_assoc, (lor_shiftl_add (v / 256 mod 256)) by (try lia; apply Z.mod_pos_bound; lia). change (2 ^ 8) with 256.
  pose proof (Z.mod_pos_bound (v / 256) 256). pose proof (Z.mod_pos_bound v 256).
  rewrite lor_shiftl_add by lia. change (2 ^ 16) with 65536.
  pose proof (Z.div_mod v 256 ltac:(done)). pose proof (Z.div_mod (v / 256) 256 ltac:(done)).
  pose proof (Z.div_div v 256 256 ltac:(done) ltac:(done)) as E. change (256 * 256) with 65536 in E. lia.
Qed.
Lemma place_rd24 data off v rest : at_place data off (be24 v ++ rest) -> 0 <= v < 16777216 -> rd24 data off = Some v.
Proof.
  intros H Hv. unfold rd24. cbn [be24 app] in H. rewrite (place_get8 _ _ _ _ H). cbn [mbind option_bind].
  pose proof (place_cons _ _ _ _ H) as H1. rewrite (place_get8 _ _ _ _ H1). cbn [mbind option_bind].
  replace (off + 2) with (off + 1 + 1) by lia. rewrite (place_get8 _ _ _ _ (place_cons _ _ _ _ H1)). cbn [mbind option_bind].
  by rewrite be24_value.
Qed.

(** ** The structure *)

Record ServerHello := mk_sh {
  sh_version : Z * Z;
  sh_random : bytes;
  sh_session : bytes;
  sh_suite : Z;
  sh_compression : Z;
  sh_extensions : list (Z * bytes)
}.
Definition ext_bytes (e : Z * bytes) : bytes := be16 e.1 ++ be16 (Z.of_nat (length e.2)) ++ e.2.
Definition exts_bytes (es : list (Z * bytes)) : bytes := concat (ext_bytes <$> es).
Definition sh_body (h : ServerHello) : bytes :=
  [(sh_version h).1; (sh_version h).2] ++ sh_random h ++ [Z.of_nat (length (sh_session h))] ++ sh_session h ++
  be16 (sh_suite h) ++ [sh_compression h] ++ be16 (Z.of_nat (length (exts_bytes (sh_extensions h)))) ++
  exts_bytes (sh_extensions h).
Definition sh_bytes (h : ServerHello) : bytes :=
  [TLS_HANDSHAKE_SERVER_HELLO] ++ be24 (Z.of_nat (length (sh_body h))) ++ sh_body h.
(** The fields fit their places. *)
Record sh_wf (h : ServerHello) : Prop := {
  shw_random : length (sh_random h) = 32%nat;
  shw_session : (length (sh_session h) < 256)%nat;
  shw_suite : 0 <= sh_suite h < 65536;
  shw_types : Forall (fun e => 0 <= e.1 < 65536 /\ Z.of_nat (length e.2) < 65536) (sh_extensions h);
  shw_exts : Z.of_nat (length (exts_bytes (sh_extensions h))) < 65536
}.

(** What the client can accept: each version or key selection in it is the one
    offered, and both are there. *)
Definition ext_accepted (e : Z * bytes) : bool :=
  if e.1 =? TLS_EXT_SUPPORTED_VERSIONS then bool_decide (e.2 = [3; 4])
  else if e.1 =? TLS_EXT_PRE_SHARED_KEY then bool_decide (e.2 = [0; 0]) else true.
Definition has_ext (t : Z) (es : list (Z * bytes)) : bool := existsb (fun e => e.1 =? t) es.
Definition acceptable (suite : Z) (h : ServerHello) : bool :=
  bool_decide (sh_version h = (3, 3)) && (sh_suite h =? suite) && (sh_compression h =? 0) &&
  forallb ext_accepted (sh_extensions h) &&
  has_ext TLS_EXT_SUPPORTED_VERSIONS (sh_extensions h) && has_ext TLS_EXT_PRE_SHARED_KEY (sh_extensions h).

(** ** The extensions *)

Lemma length_be16 v : length (be16 v) = 2%nat.
Proof. done. Qed.
Lemma length_ext e : length (ext_bytes e) = (4 + length e.2)%nat.
Proof. unfold ext_bytes. rewrite !length_app, !length_be16. lia. Qed.
Lemma exts_cons e es : exts_bytes (e :: es) = ext_bytes e ++ exts_bytes es.
Proof. done. Qed.

(** Selected values are two bytes of zero. *)
Lemma zero_pair x y : (Z.lor (Z.shiftl x 8) y =? 0) = bool_decide ([x; y] = [0; 0]).
Proof.
  apply eq_true_iff_eq. rewrite Z.eqb_eq, bool_decide_eq_true, Z.lor_eq_0_iff, Z.shiftl_eq_0_iff by lia. naive_solver.
Qed.
Lemma two_bytes (d : bytes) : Z.of_nat (length d) = 2 -> exists x y, d = [x; y].
Proof. destruct d as [|x [|y [|]]]; cbn; try lia. by exists x, y. Qed.
Lemma version_pair x y : (x =? 3) && (y =? 4) = bool_decide ([x; y] = [3; 4]).
Proof. apply eq_true_iff_eq. rewrite andb_true_iff, !Z.eqb_eq, bool_decide_eq_true. naive_solver. Qed.
Lemma wrong_length (d e : bytes) : Z.of_nat (length d) <> Z.of_nat (length e) -> bool_decide (d = e) = false.
Proof. intros H. apply bool_decide_eq_false. by intros ->. Qed.

Definition scan (es : list (Z * bytes)) (v p : bool) : option (bool * bool) :=
  if forallb ext_accepted es then
    Some (v || has_ext TLS_EXT_SUPPORTED_VERSIONS es, p || has_ext TLS_EXT_PRE_SHARED_KEY es)
  else None.
Lemma scan_cons e es v p : scan (e :: es) v p =
  if ext_accepted e then scan es (v || (e.1 =? TLS_EXT_SUPPORTED_VERSIONS)) (p || (e.1 =? TLS_EXT_PRE_SHARED_KEY)) else None.
Proof.
  unfold scan, has_ext. cbn [forallb existsb]. destruct (ext_accepted e); [|done]. cbn [andb].
  by rewrite !orb_assoc.
Qed.

Lemma server_extensions_ok es : forall fuel data off post v p, at_place data off (exts_bytes es ++ post) ->
  Forall (fun e => 0 <= e.1 < 65536 /\ Z.of_nat (length e.2) < 65536) es ->
  Z.of_nat (length data) < 16777216 -> (length es <= fuel)%nat ->
  server_extensions fuel data off (off + Z.of_nat (length (exts_bytes es))) v p = Some (scan es v p).
Proof.
  induction es as [|e es IH]; intros fuel data off post v p Hp HF Hd Hf.
  { destruct fuel; cbn [server_extensions exts_bytes concat fmap list_fmap length]; ztest; cbn [negb];
      unfold scan; cbn; by rewrite !orb_false_r. }
  apply Forall_cons in HF as [[Ht Hl] HF]. destruct fuel as [|fuel]; [cbn in Hf; lia|]. cbn [server_extensions].
  rewrite exts_cons, <- app_assoc in Hp. rewrite exts_cons, length_app, length_ext.
  pose proof Hp as (H0&_&Hlen). rewrite length_app, length_ext, length_app in Hlen.
  rewrite !u24_small by (rewrite ?u24_small; lia). ztest. cbn [negb].
  unfold ext_bytes in Hp. rewrite <- !app_assoc in Hp.
  rewrite (place_rd16 _ _ _ _ Hp Ht). cbn [mbind option_bind].
  pose proof (place_skip _ _ _ _ 2 Hp eq_refl) as Hp2. rewrite (place_rd16 _ _ _ _ Hp2 ltac:(lia)). cbn [mbind option_bind].
  pose proof (place_skip _ _ _ _ 2 Hp2 eq_refl) as Hp3. replace (off + 2 + 2) with (off + 4) in Hp3 by lia.
  rewrite !u24_small by lia. ztest.
  pose proof (place_skip _ _ _ _ _ Hp3 eq_refl) as Hp4.
  assert (forall v' p', server_extensions fuel data (off + 4 + Z.of_nat (length e.2))
     (off + Z.of_nat (4 + length e.2 + length (exts_bytes es))) v' p' = Some (scan es v' p')) as Hrec.
  { intros v' p'. rewrite <- (IH fuel data _ post) by (try done; cbn in Hf; lia). f_equal. lia. }
  rewrite scan_cons. unfold ext_accepted. destruct (e.1 =? TLS_EXT_SUPPORTED_VERSIONS) eqn:Ev.
  - zbool. rewrite Ev. cbn [Z.eqb Pos.eqb TLS_EXT_SUPPORTED_VERSIONS TLS_EXT_PRE_SHARED_KEY].
    destruct (Z.of_nat (length e.2) =? 2) eqn:E2; zbool; cbn [negb]; [|by rewrite wrong_length].
    destruct (two_bytes _ E2) as (x&y&Ed). rewrite Ed in Hp3. rewrite (place_pair _ _ _ _ _ _ _ Hp3), version_pair, Ed.
    cbn [mbind option_bind]. destruct (bool_decide _); [|done]. cbn [negb]. rewrite <- Ed, Hrec. by rewrite orb_true_r, orb_false_r.
  - destruct (e.1 =? TLS_EXT_PRE_SHARED_KEY) eqn:Ek.
    + destruct (Z.of_nat (length e.2) =? 2) eqn:E2; zbool; cbn [negb]; [|by rewrite wrong_length].
      destruct (two_bytes _ E2) as (x&y&Ed). rewrite Ed in Hp3. unfold rd16 at 1. cbn [app] in Hp3.
      rewrite (place_get8 _ _ _ _ Hp3). cbn [mbind option_bind].
      rewrite (place_get8 _ _ _ _ (place_cons _ _ _ _ Hp3)), Ed. cbn [mbind option_bind]. rewrite zero_pair.
      destruct (bool_decide _); [|done]. cbn [negb]. rewrite <- Ed, Hrec. by rewrite orb_false_r, orb_true_r.
    + by rewrite Hrec, !orb_false_r.
Qed.

(** ** The message *)

Section Laws.
Context {St : Type} {ops : Sha256 St} {laws : Sha256Laws St}.
Abbreviation context := (tls_handshake_context (St := St)).

Definition fixed_ok (suite : Z) (h : ServerHello) : bool :=
  bool_decide (sh_version h = (3, 3)) && (sh_suite h =? suite) && (sh_compression h =? 0).
Lemma version_ok h : ((sh_version h).1 =? 3) && ((sh_version h).2 =? 3) = bool_decide (sh_version h = (3, 3)).
Proof.
  destruct (sh_version h) as [a b]. apply eq_true_iff_eq. rewrite andb_true_iff, !Z.eqb_eq, bool_decide_eq_true.
  cbn. naive_solver.
Qed.

(** Where the extensions start. *)
Definition exts_at (h : ServerHello) : Z := 45 - 1 + Z.of_nat (length (sh_session h)).

Lemma length_body h : sh_wf h ->
  Z.of_nat (length (sh_body h)) = exts_at h - 4 + Z.of_nat (length (exts_bytes (sh_extensions h))).
Proof.
  intros Hw. unfold sh_body, exts_at. rewrite !length_app, !length_be16, (shw_random _ Hw). cbn [length]. lia.
Qed.

Ltac refused := eexists; split; [|reflexivity]; reflexivity.
Ltac place_next H n H' := pose proof (place_skip _ _ _ _ n H ltac:(cbn; lia)) as H'.

Lemma server_fixed_ok (c : context) h data post : sh_wf h -> at_place data 4 (sh_body h ++ post) ->
  Z.of_nat (length data) < 16777216 ->
  exists e, state e = TLS_STATE_ERROR /\ server_fixed c data (4 + Z.of_nat (length (sh_body h))) 4 =
    Some (if fixed_ok (cipher_suite c) h then
            inr (set_server_random (sh_random h) c, exts_at h, exts_at h + Z.of_nat (length (exts_bytes (sh_extensions h))))
          else inl e).
Proof.
  intros Hw Hp Hlt. pose proof (length_body h Hw) as Hb. pose proof (shw_random _ Hw) as Hr.
  pose proof (shw_session _ Hw) as Hss. pose proof (shw_exts _ Hw) as Hx.
  pose proof Hp as (_&_&Hlen). rewrite length_app in Hlen. unfold server_fixed, exts_at in *. unfold sh_body in Hp. rewrite <- !app_assoc in Hp.
  rewrite (place_pair _ _ _ _ _ _ _ Hp). cbn [lift mbind option_bind R_bind]. rewrite version_ok. unfold fixed_ok.
  destruct (bool_decide _); cbn [must mbind R_bind andb]; [|refused]. place_next Hp 2 H1.
  rewrite !(u24_small (4 + 2)), !(u24_small (4 + 2 + 32)) by lia. ztest. cbn [must mbind R_bind].
  rewrite (place_rd_at _ _ _ _ 32 H1) by lia. cbn [lift mbind option_bind R_bind]. place_next H1 32 H2. ztest.
  cbn [must mbind R_bind]. rewrite (place_get8 _ _ _ _ H2). cbn [lift mbind option_bind R_bind]. place_next H2 1 H3.
  rewrite !(u24_small (4 + 2 + 32 + 1)) by lia. set (o := 4 + 2 + 32 + 1) in *.
  place_next H3 (Z.of_nat (length (sh_session h))) H4. set (s := Z.of_nat (length (sh_session h))) in *.
  rewrite !(u24_small (o + s)) by lia. ztest. cbn [must mbind R_bind]. rewrite !(u24_small (o + s + 2)) by lia. ztest.
  cbn [must mbind R_bind]. rewrite (place_rd16 _ _ _ _ H4 (shw_suite _ Hw)). cbn [lift mbind option_bind R_bind].
  change (cipher_suite (set_server_random (sh_random h) c)) with (cipher_suite c).
  destruct (sh_suite h =? cipher_suite c); cbn [must mbind R_bind andb]; [|refused]. ztest. cbn [must mbind R_bind].
  place_next H4 2 H5. rewrite (place_get8 _ _ _ _ H5). cbn [lift mbind option_bind R_bind].
  destruct (sh_compression h =? 0); cbn [must mbind R_bind]; [|refused]. place_next H5 1 H6.
  rewrite !(u24_small (o + s + 2 + 1)) by lia. rewrite !(u24_small (o + s + 2 + 1 + 2)) by lia. ztest. cbn [must mbind R_bind].
  rewrite (place_rd16 _ _ _ _ H6 ltac:(lia)). cbn [lift mbind option_bind R_bind]. rewrite u24_small by lia. ztest.
  exists (set_state TLS_STATE_ERROR c). split; [done|]. cbn [must mbind R_bind mret R_ret].
  by replace (o + s + 2 + 1 + 2) with (45 - 1 + s) by lia.
Qed.

Lemma accepted_split suite h : acceptable suite h = fixed_ok suite h &&
  match scan (sh_extensions h) false false with Some (true, true) => true | _ => false end.
Proof.
  unfold acceptable, fixed_ok, scan. cbn [orb]. destruct (forallb _ _); cbn [andb];
    [|by rewrite !andb_false_r]. rewrite andb_true_r. rewrite <- andb_assoc. f_equal. by destruct (has_ext _ _), (has_ext _ _).
Qed.
Lemma exts_count es : (length es <= length (exts_bytes es))%nat.
Proof. induction es as [|e es IH]; [done|]. rewrite exts_cons, length_app, length_ext. cbn [length]. lia. Qed.

Lemma recv_server_hello_ok (c : context) m h post n : state c = TLS_STATE_CLIENT_HELLO_SENT -> transcript c m -> sh_wf h ->
  Z.of_nat (length (sh_bytes h)) <= n <= Z.of_nat (length (sh_bytes h ++ post)) ->
  Z.of_nat (length (sh_bytes h ++ post)) < 16777216 ->
  exists c', tls_recv_server_hello (Some c) (Some (sh_bytes h ++ post)) n = Some (acceptable (cipher_suite c) h, Some c') /\
  if acceptable (cipher_suite c) h then
    state c' = TLS_STATE_SERVER_HELLO_RECEIVED /\ server_random c' = sh_random h /\ transcript c' (m ++ sh_bytes h) /\
    psk c' = psk c /\ keys c' = keys c
  else state c' = TLS_STATE_ERROR.
Proof.
  intros Hst Ht Hw Hn Hlt. set (data := sh_bytes h ++ post) in *. unfold tls_recv_server_hello. rewrite Hst.
  rewrite bool_decide_true by done. cbn [negb]. unfold server_hello. pose proof (place_0 data) as H0.
  unfold data in H0 at 2. unfold sh_bytes in H0. rewrite <- !app_assoc in H0.
  assert (Z.of_nat (length (sh_bytes h)) = 4 + Z.of_nat (length (sh_body h))) as Hsz
    by (unfold sh_bytes; rewrite !length_app; cbn [length be24]; lia).
  rewrite (place_get8 _ _ _ _ H0). cbn [lift mbind option_bind R_bind Z.eqb Pos.eqb must TLS_HANDSHAKE_SERVER_HELLO].
  pose proof (place_skip _ _ _ _ 1 H0 eq_refl) as H1. change (0 + 1) with 1 in H1.
  assert (length data = (length (sh_bytes h) + length post)%nat) as Hd by (unfold data; apply length_app).
  rewrite (place_rd24 _ _ _ _ H1) by lia. cbn [lift mbind option_bind R_bind]. rewrite u24_small by lia. ztest.
  cbn [must mbind R_bind]. pose proof (place_skip _ _ _ _ 3 H1 eq_refl) as H4. change (1 + 3) with 4 in H4.
  destruct (server_fixed_ok c h data post Hw H4 Hlt) as (e&He&->). rewrite accepted_split.
  destruct (fixed_ok _ h); cbn [andb mbind R_bind outcome option_bind fst snd]; [|by exists e].
  assert (at_place data (exts_at h) (exts_bytes (sh_extensions h) ++ post)) as Hx.
  { replace (exts_at h) with (4 + (exts_at h - 4)) by lia. unfold sh_body in H4. rewrite !app_assoc in H4.
    rewrite <- (app_assoc _ _ post) in H4. eapply place_skip; [exact H4|]. rewrite !length_app, !length_be16, (shw_random _ Hw).
    cbn [length]. unfold exts_at. lia. }
  pose proof Hx as (_&_&Hxl). rewrite length_app in Hxl. pose proof (exts_count (sh_extensions h)). unfold exts_at in Hxl.
  rewrite (server_extensions_ok _ _ _ _ post) by first [exact Hx|apply (shw_types _ Hw)|lia].
  cbn [lift mbind option_bind R_bind].
  destruct (transcript_update (set_server_random (sh_random h) c) m (sh_bytes h) post Ht) as (t&Eu&Ha).
  destruct (scan _ _ _) as [[[] []]|]; cbn [outcome mbind option_bind fst snd]; try (eexists; split; [reflexivity|reflexivity]).
  rewrite <- Hsz.  fold data in Eu. rewrite Eu. eexists. split; [reflexivity|]. cbn. split_and!; try done. by exists t.
Qed.

(** C8. The parser of the ServerHello is exact: on the encoding of any
    structure whose fields fit their places, whatever follows it in the buffer,
    it accepts if and only if the version, cipher suite and compression are
    those offered, every selection of a version or key is the one offered and
    both are present.  On acceptance the server's random value is stored and
    exactly the message is added to the transcript; otherwise the handshake
    ends in the error state. *)
Theorem server_hello_exact (c : context) m h post n : state c = TLS_STATE_CLIENT_HELLO_SENT -> transcript c m -> sh_wf h ->
  Z.of_nat (length (sh_bytes h)) <= n <= Z.of_nat (length (sh_bytes h ++ post)) ->
  Z.of_nat (length (sh_bytes h ++ post)) < 16777216 ->
  exists c', tls_recv_server_hello (Some c) (Some (sh_bytes h ++ post)) n = Some (acceptable (cipher_suite c) h, Some c') /\
  if acceptable (cipher_suite c) h then
    state c' = TLS_STATE_SERVER_HELLO_RECEIVED /\ server_random c' = sh_random h /\ transcript c' (m ++ sh_bytes h) /\
    psk c' = psk c /\ keys c' = keys c
  else state c' = TLS_STATE_ERROR.
Proof. apply recv_server_hello_ok. Qed.

(** ** Arbitrary bytes *)

(** A run that does not fault, and what it leaves. *)
Definition runs {F A} (m : R F A) (P : F -> Prop) (Q : A -> Prop) : Prop :=
  match m with None => False | Some (inl e) => P e | Some (inr a) => Q a end.
Lemma runs_bind {F A B} (m : R F A) (f : A -> R F B) P Q : runs m P (fun a => runs (f a) P Q) -> runs (m ≫= f) P Q.
Proof. by destruct m as [[e|a]|]. Qed.
Lemma runs_must {F} (b : bool) (e : F) P (Q : unit -> Prop) : (b = false -> P e) -> (b = true -> Q tt) -> runs (must b e) P Q.
Proof. destruct b; cbn; auto. Qed.
Lemma runs_lift {F A} (m : option A) a (P : F -> Prop) (Q : A -> Prop) : m = Some a -> Q a -> runs (lift m) P Q.
Proof. by intros ->. Qed.

Lemma get8_in data i : Forall is_byte data -> 0 <= i < Z.of_nat (length data) -> exists v, get8 data i = Some v /\ 0 <= v < 256.
Proof.
  intros F Hi. unfold get8. ztest. destruct (lookup_lt_is_Some_2 data (Z.to_nat i) ltac:(lia)) as [v Hv].
  exists v. split; [done|]. rewrite Forall_lookup in F. by apply (F _ _ Hv).
Qed.
Lemma rd16_in data i : Forall is_byte data -> 0 <= i -> i + 2 <= Z.of_nat (length data) ->
  exists v, rd16 data i = Some v /\ 0 <= v < 65536.
Proof.
  intros F H0 Hi. unfold rd16. destruct (get8_in data i F ltac:(lia)) as (a&->&Ha).
  destruct (get8_in data (i + 1) F ltac:(lia)) as (b&->&Hb). eexists. split; [reflexivity|].
  rewrite lor_shiftl_add by (cbn; lia). change (2 ^ 8) with 256. lia.
Qed.
Lemma rd24_in data i : Forall is_byte data -> 0 <= i -> i + 3 <= Z.of_nat (length data) ->
  exists v, rd24 data i = Some v /\ 0 <= v < 16777216.
Proof.
  intros F H0 Hi. unfold rd24. destruct (get8_in data i F ltac:(lia)) as (a&->&Ha).
  destruct (get8_in data (i + 1) F ltac:(lia)) as (b&->&Hb). destruct (get8_in data (i + 2) F ltac:(lia)) as (d&->&Hd).
  eexists. split; [reflexivity|]. rewrite <- Z.lor_assoc. rewrite (lor_shiftl_add b) by (cbn; lia). change (2 ^ 8) with 256.
  rewrite lor_shiftl_add by (cbn; lia). change (2 ^ 16) with 65536. lia.
Qed.
Lemma pair_in data i a b : Forall is_byte data -> 0 <= i -> i + 2 <= Z.of_nat (length data) -> exists v, is_pair data i a b = Some v.
Proof.
  intros F H0 Hi. unfold is_pair. destruct (get8_in data i F ltac:(lia)) as (x&->&_).
  destruct (get8_in data (i + 1) F ltac:(lia)) as (y&->&_). cbn. destruct (_ =? _); by eexists.
Qed.
Lemma rd_at_in data i n : 0 <= i -> 0 <= n -> i + n <= Z.of_nat (length data) -> exists d, rd_at data i n = Some d.
Proof.
  intros H0 Hn Hi. unfold rd_at, at_off, rd, in_bounds. ztest. cbn [andb mbind option_bind]. rewrite length_drop. ztest.
  by eexists.
Qed.

Lemma server_extensions_total data ext_end : Forall is_byte data -> ext_end <= Z.of_nat (length data) ->
  Z.of_nat (length data) < 16777216 - 65540 -> forall fuel off v p, 0 <= off -> ext_end - off <= Z.of_nat fuel ->
  exists r, server_extensions fuel data off ext_end v p = Some r.
Proof.
  intros F He Hd. induction fuel as [|fuel IH]; intros off v p H0 Hf; cbn [server_extensions];
    (destruct (Z.ltb_spec off ext_end); cbn [negb]; [|by eexists]); [lia|].
  rewrite (u24_small (off + 4)) by lia. destruct (Z.ltb_spec ext_end (off + 4)); [by eexists|].
  destruct (rd16_in data off F ltac:(lia) ltac:(lia)) as (t&->&Ht). cbn [mbind option_bind].
  destruct (rd16_in data (off + 2) F ltac:(lia) ltac:(lia)) as (l&->&Hl). cbn [mbind option_bind].
  rewrite (u24_small (off + 4 + l)) by lia. destruct (Z.ltb_spec ext_end (off + 4 + l)); [by eexists|].
  destruct (_ =? _).
  { destruct (l =? 2) eqn:E2; zbool; cbn [negb]; [|by eexists].
    destruct (pair_in data (off + 4) 3 4 F ltac:(lia) ltac:(lia)) as (b&->). cbn [mbind option_bind].
    destruct b; [|by eexists]. apply IH; lia. }
  destruct (_ =? _); [|apply IH; lia].
  destruct (l =? 2) eqn:E2; zbool; cbn [negb]; [|by eexists].
  destruct (rd16_in data (off + 4) F ltac:(lia) ltac:(lia)) as (b&->&_). cbn [mbind option_bind].
  destruct (b =? 0); [|by eexists]. apply IH; lia.
Qed.

Ltac r_must := apply runs_bind, runs_must; [done|intros ?; zbool].
Ltac r_read v H := match goal with |- runs (lift ?m ≫= _) _ _ => let E := fresh "E" in destruct H as (v&E&?); apply runs_bind, (runs_lift _ v _ _ E); clear E end.

Definition failed (e : context) : Prop := state e = TLS_STATE_ERROR.
Lemma server_fixed_total (c : context) data msg_end : Forall is_byte data -> 6 <= Z.of_nat (length data) ->
  msg_end <= Z.of_nat (length data) -> Z.of_nat (length data) < 16777216 - 65540 ->
  runs (server_fixed c data msg_end 4) failed
    (fun r => exists random, r.1.1 = set_server_random random c /\ 0 <= r.1.2 /\ r.2 <= msg_end).
Proof.
  intros F H6 Hm Hd. unfold server_fixed.
  destruct (pair_in data 4 3 3 F ltac:(lia) ltac:(lia)) as (v&Ev). apply runs_bind, (runs_lift _ v _ _ Ev).
  r_must. rewrite !(u24_small (4 + 2)), !(u24_small (4 + 2 + 32)) by lia. r_must.
  destruct (rd_at_in data (4 + 2) 32 ltac:(lia) ltac:(lia) ltac:(lia)) as (rand&Er). apply runs_bind, (runs_lift _ rand _ _ Er).
  r_must. r_read sl (get8_in data (4 + 2 + 32) F ltac:(lia)). set (o := u24 (4 + 2 + 32 + 1)).
  assert (o = 39) as Eo by done. rewrite !(u24_small (o + sl)) by lia. r_must.
  rewrite !(u24_small (o + sl + 2)) by lia. r_must. r_read suite (rd16_in data (o + sl) F ltac:(lia) ltac:(lia)).
  r_must. r_must. r_read comp (get8_in data (o + sl + 2) F ltac:(lia)). r_must.
  rewrite !(u24_small (o + sl + 2 + 1)) by lia. rewrite !(u24_small (o + sl + 2 + 1 + 2)) by lia. r_must.
  r_read xl (rd16_in data (o + sl + 2 + 1) F ltac:(lia) ltac:(lia)). rewrite u24_small by lia. r_must.
  cbn. exists rand. split; [done|]. lia.
Qed.

(** C30. The parser of the ServerHello is safe on arbitrary bytes: given six
    readable bytes and a length that the buffer has, it reads nothing outside
    the buffer, ends, and leaves the handshake advanced, with exactly a prefix
    of the buffer added to the transcript, or in the error state. *)
Theorem server_hello_total (c : context) m data n : state c = TLS_STATE_CLIENT_HELLO_SENT -> transcript c m ->
  Forall is_byte data -> 6 <= Z.of_nat (length data) -> 0 <= n <= Z.of_nat (length data) ->
  Z.of_nat (length data) < 16777216 - 65540 ->
  exists b c', tls_recv_server_hello (Some c) (Some data) n = Some (b, Some c') /\
  if b : bool then state c' = TLS_STATE_SERVER_HELLO_RECEIVED /\ exists k, (k <= Z.to_nat n)%nat /\ transcript c' (m ++ take k data)
  else state c' = TLS_STATE_ERROR.
Proof.
  intros Hst Ht F H6 Hn Hd. unfold tls_recv_server_hello. rewrite bool_decide_true by done. cbn [negb].
  assert (runs (server_hello c data n) failed (fun c' => state c' = TLS_STATE_SERVER_HELLO_RECEIVED /\
    exists k, (k <= Z.to_nat n)%nat /\ transcript c' (m ++ take k data))) as Hr.
  { unfold server_hello. r_read ty (get8_in data 0 F ltac:(lia)). r_must.
    r_read ml (rd24_in data 1 F ltac:(lia) ltac:(lia)). r_must. set (msg_end := u24 (4 + ml)) in *.
    pose proof (u24_range (4 + ml)). apply runs_bind.
    pose proof (server_fixed_total c data msg_end F H6 ltac:(lia) Hd) as Hf.
    destruct (server_fixed c data msg_end 4) as [[e|[[c1 off] xe]]|]; [exact Hf| |done].
    destruct Hf as (random&E1&Hof&Hx). cbn in E1, Hof, Hx. cbn [runs].
    destruct (server_extensions_total data xe F ltac:(lia) Hd (length data) off false false Hof ltac:(lia)) as (r&Er).
    apply runs_bind, (runs_lift _ r _ _ Er). destruct r as [[[] []]|]; try done.
    assert (transcript c1 m) as Ht1 by (by rewrite E1).
    destruct (transcript_update c1 m (take (Z.to_nat msg_end) data) (drop (Z.to_nat msg_end) data) Ht1) as (t&Et&Ha).
    rewrite take_drop, length_take_le, Z2Nat.id in Et by lia. apply runs_bind, (runs_lift _ _ _ _ Et).
    cbn. split; [done|]. exists (Z.to_nat msg_end). split; [lia|]. by exists t. }
  destruct (server_hello c data n) as [[e|c']|]; [| |done]; cbn in Hr |- *.
  - by exists false, e.
  - by exists true, c'.
Qed.
End Laws.

(** ** The ClientHello

    What [tls_send_client_hello] writes, byte for byte.  The output buffer is
    seen as a list of pieces, one per field, so that writing a field or filling
    in a length replaces a piece. *)

(** ** Buffers in pieces *)

Lemma cut_pieces sizes : forall l : bytes, (foldr Nat.add 0 sizes <= length l)%nat ->
  exists L, length <$> L = sizes /\ l = concat L ++ drop (foldr Nat.add 0%nat sizes) l.
Proof.
  induction sizes as [|n sizes IH]; intros l Hl; [by exists []|]. cbn [foldr] in Hl |- *.
  destruct (IH (drop n l)) as (L&EL&El); [rewrite length_drop; lia|]. exists (take n l :: L).
  cbn [fmap list_fmap concat]. rewrite EL, length_take_le by lia. split; [done|].
  rewrite <- app_assoc, <- drop_drop, <- El. by rewrite take_drop.
Qed.
Lemma store_piece L k old d off : L !! k = Some old -> length d = length old ->
  off = Z.of_nat (length (concat (take k L))) -> store_at (concat L) off d = Some (concat (<[k := d]> L)).
Proof.
  intros Hk Hd ->. assert (k < length L)%nat as Hlt by by eapply lookup_lt_Some.
  rewrite <- (take_drop_middle L k old Hk) at 1 3. rewrite insert_app_r_alt by (rewrite length_take; lia).
  rewrite length_take_le, Nat.sub_diag by lia. cbn [insert list_insert]. rewrite !concat_app. cbn [concat].
  set (pre := concat (take k L)). unfold store_at, in_bounds. rewrite !length_app, Hd. ztest. cbn [andb]. f_equal.
  unfold splice. rewrite Nat2Z.id, take_app_length. do 2 f_equal.
  by rewrite <- drop_drop, drop_app_length, Hd, drop_app_length.
Qed.
Lemma put_piece L k old d off off' : L !! k = Some old -> length d = length old ->
  off = Z.of_nat (length (concat (take k L))) -> off' = off + Z.of_nat (length d) -> 0 <= off <= off' /\ off' < 16777216 ->
  put (concat L, off) d = Some (concat (<[k := d]> L), off').
Proof.
  intros Hk Hd Ho -> [H0 Hlt]. unfold put. cbn [fst snd]. rewrite (store_piece L k old d off) by done. cbn [mbind option_bind].
  by rewrite u24_small by lia.
Qed.

Lemma rd_take' d n : 0 <= n <= Z.of_nat (length d) -> rd (Some d) n = Some (take (Z.to_nat n) d).
Proof. intros H. rewrite <- (Z2Nat.id n) at 1 by lia. apply rd_take. lia. Qed.

(** ** The message *)

Section Message.
Context {St : Type} `{Sha256Laws St}.
Abbreviation context := (tls_handshake_context (St := St)).

Definition hello_head (c : context) : bytes :=
  let id := psk_identity c in
  let n := identity_len id in
  [TLS_HANDSHAKE_CLIENT_HELLO] ++ be24 (103 + n) ++ [3; 3] ++ client_random c ++ [0; 0; 2; 0x13; 1; 1; 0] ++
  be16 (62 + n) ++ supported_versions_ext ++ psk_modes_ext ++
  [0; 0x29] ++ be16 (45 + n) ++
  be16 (6 + n) ++ be16 n ++ take (Z.to_nat n) (identity id) ++ be32 (obfuscated_ticket_age id) ++
  be16 33 ++ [32].
Definition hello_binder (psk head : bytes) : bytes :=
  HMAC (HKDF_Expand_Label (HKDF_Expand_Label (early_secret_of psk) res_binder [] 32) finished_label [] 32) (sha256 head).
Definition ClientHello (c : context) : bytes := hello_head c ++ hello_binder (psk c) (hello_head c).

Record identity_ok (c : context) : Prop := {
  id_random : length (client_random c) = 32%nat;
  id_array : length (identity (psk_identity c)) = 32%nat;
  id_len : 0 <= identity_len (psk_identity c) <= 32
}.
End Message.

Section Laws.
Context {St : Type} {ops : Sha256 St} {laws : Sha256Laws St}.
Abbreviation context := (tls_handshake_context (St := St)).

Lemma length_head (c : context) : identity_ok c -> Z.of_nat (length (hello_head c)) = 75 + identity_len (psk_identity c).
Proof.
  intros [Hr Ha Hn]. unfold hello_head. cbv zeta. rewrite !length_app, Hr, length_take_le by lia. cbn [length be24 be16 be32].
  change (length supported_versions_ext) with 7%nat. change (length psk_modes_ext) with 6%nat. lia.
Qed.
Lemma length_binder psk head : length (hello_binder psk head) = 32%nat.
Proof. apply length_HMAC. Qed.
Lemma length_hello (c : context) : identity_ok c ->
  Z.of_nat (length (ClientHello c)) = 107 + identity_len (psk_identity c).
Proof. intros H. unfold ClientHello. rewrite length_app, length_binder, Nat2Z.inj_add, length_head by done. lia. Qed.

(** Writing the piece [k] moves the offset to [off]. *)
Lemma length_versions : length supported_versions_ext = 7%nat.
Proof. done. Qed.
Lemma length_be24 v : length (be24 v) = 3%nat.
Proof. done. Qed.
Lemma length_be32 v : length (be32 v) = 4%nat.
Proof. done. Qed.
Lemma length_modes : length psk_modes_ext = 6%nat.
Proof. done. Qed.
Ltac lengths := cbn [take concat]; rewrite ?length_app, ?length_versions, ?length_modes, ?length_take, ?length_be16, ?length_be24, ?length_be32;
  cbn [length]; rewrite ?length_be24; lia.
Ltac run := cbn [insert list_insert mbind R_bind option_bind lift fst snd].
Ltac put_at k off := erewrite (put_piece _ k _ _ _ off); [run|reflexivity|lengths|lengths|lengths|lia].
Ltac store_at_piece k := erewrite (store_piece _ k); [run|reflexivity|lengths|lengths].

Lemma hello_body_ok (c : context) out_len w p0 p1 p2 p3 p4 p5 p6 p7 p8 p9 p10 p11 p12 p13 p14 tail :
  identity_ok c -> let n := identity_len (psk_identity c) in
  length p0 = 4%nat -> length p1 = 2%nat -> length p2 = 32%nat -> length p3 = 7%nat -> length p4 = 2%nat ->
  length p5 = 7%nat -> length p6 = 6%nat -> length p7 = 2%nat -> length p8 = 2%nat -> length p9 = 2%nat ->
  length p10 = 2%nat -> Z.of_nat (length p11) = n -> length p12 = 4%nat -> length p13 = 2%nat -> length p14 = 1%nat ->
  107 + n <= out_len ->
  hello_body c out_len w (concat [p0; p1; p2; p3; p4; p5; p6; p7; p8; p9; p10; p11; p12; p13; p14; tail], 38) =
  Some (inr (concat [p0; p1; p2; [0; 0; 2; 0x13; 1; 1; 0]; p4; supported_versions_ext; psk_modes_ext; [0; 0x29]; p8;
    be16 (6 + n); be16 n; take (Z.to_nat n) (identity (psk_identity c)); be32 (obfuscated_ticket_age (psk_identity c));
    p13; [32]; tail], 75 + n, (45, 62, 72 + n))).
Proof.
  intros [Hr Ha Hn] n L0 L1 L2 L3 L4 L5 L6 L7 L8 L9 L10 L11 L12 L13 L14 Hout. unfold hello_body. fold n in Hn |- *.
  put_at 3%nat 45. unfold skip. cbn [fst snd]. change (u24 (45 + 2)) with 47.
  put_at 5%nat 54. put_at 6%nat 60. put_at 7%nat 62. change (u24 (62 + 2)) with 64. change (u24 (64 + 2)) with 66.
  put_at 10%nat 68. rewrite !(u24_small (68 + n)) by lia. ztest. cbn [must mbind R_bind].
  rewrite (rd_take' _ n) by lia. run.
  put_at 11%nat (68 + n). put_at 12%nat (72 + n). rewrite (u24_small (72 + n - 66)) by lia.
  replace (72 + n - 66) with (6 + n) by lia.
  store_at_piece 9%nat.
  rewrite (u24_small (72 + n + 2)) by lia. put_at 14%nat (75 + n). reflexivity.
Qed.

Lemma hello_lengths_ok n p0 p1 p2 p3 p4 p5 p6 p7 p8 p9 p10 p11 p12 p13 p14 tail : 0 <= n <= 32 ->
  length p0 = 4%nat -> length p1 = 2%nat -> length p2 = 32%nat -> length p3 = 7%nat -> length p4 = 2%nat ->
  length p5 = 7%nat -> length p6 = 6%nat -> length p7 = 2%nat -> length p8 = 2%nat -> length p9 = 2%nat ->
  length p10 = 2%nat -> Z.of_nat (length p11) = n -> length p12 = 4%nat -> length p13 = 2%nat ->
  hello_lengths (concat [p0; p1; p2; p3; p4; p5; p6; p7; p8; p9; p10; p11; p12; p13; p14; tail], 75 + n) (45, 62, 72 + n) =
  Some (concat [TLS_HANDSHAKE_CLIENT_HELLO :: be24 (103 + n); p1; p2; p3; be16 (62 + n); p5; p6; p7; be16 (45 + n); p9; p10; p11;
    p12; be16 33; p14; tail]).
Proof.
  intros Hn L0 L1 L2 L3 L4 L5 L6 L7 L8 L9 L10 L11 L12 L13. unfold hello_lengths. cbn [fst snd]. rewrite !u24_small by lia.
  replace (75 + n + 32 - 4) with (103 + n) by lia. replace (75 + n + 32 + 2 - (45 + 2)) with (62 + n) by lia.
  replace (75 + n + 32 + 2 - (62 + 2)) with (45 + n) by lia.
  store_at_piece 0%nat. store_at_piece 4%nat. store_at_piece 8%nat. store_at_piece 13%nat. reflexivity.
Qed.

(** The ClientHello, byte for byte: with a context that is set up and room
    in the buffer, [tls_send_client_hello] writes the message [ClientHello] at
    the front of the buffer and nothing behind it, reports its length, adds
    exactly it to the transcript and moves to the state that waits for the
    ServerHello. *)
Theorem client_hello_written (c : context) m out out_len w : context_ok c m -> identity_ok c ->
  107 + identity_len (psk_identity c) <= out_len <= Z.of_nat (length out) -> out_len < 16777216 ->
  exists c', tls_send_client_hello (Some c) (Some out) out_len (Some w) =
    Some (true, (Some c', Some (ClientHello c ++ drop (length (ClientHello c)) out), Some (Z.of_nat (length (ClientHello c))))) /\
  state c' = TLS_STATE_CLIENT_HELLO_SENT /\ transcript c' (m ++ ClientHello c) /\
  psk c' = psk c /\ keys c' = keys c /\ cipher_suite c' = cipher_suite c.
Proof.
  intros [Hp Hk Ht] Hid Hout Hlt. pose proof (length_hello c Hid) as Hl. pose proof (length_head c Hid) as Hh.
  set (n := identity_len (psk_identity c)) in *. pose proof Hid as [Hr Ha Hn]. fold n in Hn.
  destruct (cut_pieces [4; 2; 32; 7; 2; 7; 6; 2; 2; 2; 2; Z.to_nat n; 4; 2; 1; 32]%nat out) as (L&EL&Eo); [cbn; lia|].
  set (rest := drop _ out) in Eo.
destruct L as [|p0 L]; [discriminate EL|]. destruct L as [|p1 L]; [discriminate EL|]. destruct L as [|p2 L]; [discriminate EL|]. destruct L as [|p3 L]; [discriminate EL|].
  destruct L as [|p4 L]; [discriminate EL|]. destruct L as [|p5 L]; [discriminate EL|]. destruct L as [|p6 L]; [discriminate EL|]. destruct L as [|p7 L]; [discriminate EL|].
  destruct L as [|p8 L]; [discriminate EL|]. destruct L as [|p9 L]; [discriminate EL|]. destruct L as [|p10 L]; [discriminate EL|]. destruct L as [|p11 L]; [discriminate EL|].
  destruct L as [|p12 L]; [discriminate EL|]. destruct L as [|p13 L]; [discriminate EL|]. destruct L as [|p14 L]; [discriminate EL|]. destruct L as [|p15 L]; [discriminate EL|].
  destruct L; [|discriminate EL]. injection EL as L0 L1 L2 L3 L4 L5 L6 L7 L8 L9 L10 L11 L12 L13 L14 L15.
  assert (Z.of_nat (length p11) = n) as L11' by lia.
  assert (out = concat [p0; p1; p2; p3; p4; p5; p6; p7; p8; p9; p10; p11; p12; p13; p14; p15 ++ rest]) as Eo'.
  { rewrite Eo. cbn [concat]. by rewrite <- !app_assoc, app_nil_r. }
  destruct (transcript_update c m (ClientHello c) rest Ht) as (t&Et&Hat).
  assert (client_hello c out out_len w = Some (inr (set_state TLS_STATE_CLIENT_HELLO_SENT (set_transcript_hash (Some t) c),
    ClientHello c ++ rest, Z.of_nat (length (ClientHello c))))) as E.
  { unfold client_hello. rewrite Eo'. ztest. cbn [must mbind R_bind].
    put_at 1%nat 6. change (u24 (6 + 32)) with 38. ztest. cbn [must mbind R_bind]. rewrite rd_all by lia. run.
    put_at 2%nat 38. rewrite hello_body_ok by (try done; cbn [length]; lia). fold n. run.
    rewrite extract_first_ok by first [done|apply length_replicate]. cbn [derived mbind R_bind].
    rewrite (expand_empty_ok _ _ _ 32) by first [apply length_extract|apply length_replicate|vm_compute; first [discriminate|lia]].
    cbn [derived mbind R_bind].
    rewrite (expand_empty_ok _ _ _ 32) by first [apply length_label|apply length_replicate|vm_compute; first [discriminate|lia]].
    cbn [derived mbind R_bind]. rewrite hello_lengths_ok by (try done; lengths). run.
    unfold tls_hash_context_init. cbn [Z.eqb TLS_HASH_SHA256]. rewrite sha256_ready.
    match goal with |- context [concat ?L] => assert (concat L = hello_head c ++ p15 ++ rest) as -> end.
    { unfold hello_head. cbv zeta. fold n. cbn [concat]. by rewrite <- !app_assoc, !app_nil_r. }
    rewrite (u24_small (72 + n + 3)), (u24_small (75 + n + 32)) by lia. replace (72 + n + 3) with (Z.of_nat (length (hello_head c))) by lia.
    unfold tls_hash_update. rewrite rd_app. run. unfold tls_hash_digest. cbn [hash_private].
    rewrite (absorbed_digest _ _ (absorbed_one (hello_head c))).
    rewrite finished_mac_ok by first [apply length_label|apply sha256_length]. run. ztest. cbn [must mbind R_bind].
    change (HMAC _ _) with (hello_binder (psk c) (hello_head c)).
    pose proof (put_piece [hello_head c; p15; rest] 1 p15 (hello_binder (psk c) (hello_head c)) (75 + n) (107 + n)) as Hput.
    cbn [concat insert list_insert take] in Hput. rewrite !app_nil_r in Hput.
    rewrite Hput by (rewrite ?length_binder; first [done|lia]). run. rewrite app_assoc. fold (ClientHello c).
    rewrite <- Hl, Et. reflexivity. }
  unfold tls_send_client_hello. rewrite E. cbn [outcome mbind option_bind].
  exists (set_state TLS_STATE_CLIENT_HELLO_SENT (set_transcript_hash (Some t) c)). split; [|split; [done|]; split; [by exists t|done]].
  assert (rest = drop (length (ClientHello c)) out) as <- by (unfold rest; f_equal; cbn [foldr]; lia). reflexivity.
Qed.
End Laws.
