(* ===== verification/RecordCorrect.v ===== *)
(** * Finished messages and protected records

    Finished messages are checked exactly; a protected record is opened exactly
    when its tag is the one of its ciphertext, header and sequence number; and a
    stream of records sent by one end is what the other end reads. *)

From S2P Require Import Prelude MemState RingList TlsHash TlsKdf Rsa RsaCorrect Aes AesRef AesBlock GcmField GcmCorrect Handshake KeySchedule HelloCorrect.
Import Fips197 Gcm.

Section Laws.
Context {St : Type} {ops : Sha256 St} {laws : Sha256Laws St}.
Abbreviation context := (tls_handshake_context (St := St)).

(** ** Finished *)

Definition finished_secret (c : context) (client : bool) : bytes :=
  if client then client_handshake_traffic_secret (keys c) else server_handshake_traffic_secret (keys c).
Lemma finished_secret_length c m client : context_ok c m -> length (finished_secret c client) = 32%nat.
Proof. intros [_ [] _]. by destruct client. Qed.
Lemma length_finished base m : length (Finished base m) = 36%nat.
Proof. unfold Finished. rewrite length_app. unfold Finished_data. by rewrite length_HMAC. Qed.

Lemma send_finished_ok (c : context) m client out w : context_ok c m -> (36 <= length out)%nat ->
  let fin := Finished (finished_secret c client) m in
  exists c', send_finished c client out w = Some (inr (c', fin ++ drop 36 out, 36)) /\
    (exists t, c' = set_transcript_hash t c) /\ transcript c' (m ++ fin).
Proof.
  intros Hc Ho fin. unfold send_finished. fold (finished_secret c client). destruct Hc as [Hp Hk Ht].
  rewrite (verify_data_ok _ _ _ m (finished_secret_length c m client (Build_context_ok _ _ Hp Hk Ht)) Ht). cbn [mbind R_bind].
  destruct (cut_pieces [4; 32]%nat out) as (L&EL&Eo); [cbn; lia|]. destruct L as [|a L]; [discriminate EL|].
  destruct L as [|b L]; [discriminate EL|]. destruct L; [|discriminate EL]. injection EL as La Lb.
  change (foldr Nat.add 0%nat [4; 32]%nat) with 36%nat in Eo. set (rest := drop 36 out) in *.
  assert (out = concat [a; b; rest]) as Eo' by (rewrite Eo; cbn [concat]; by rewrite <- !app_assoc, app_nil_r).
  rewrite Eo'. clear Eo Eo'. clearbody rest.
  erewrite (put_piece _ 0 _ _ 0 4); [|reflexivity|cbn [length]; lia|reflexivity|reflexivity|lia].
  cbn [insert list_insert lift mbind R_bind option_bind].
  erewrite (put_piece _ 1 _ _ 4 36); [|reflexivity|unfold Finished_data; rewrite length_HMAC; lia|reflexivity|unfold Finished_data; rewrite length_HMAC; lia|lia].
  cbn [insert list_insert lift mbind R_bind option_bind concat fst snd]. rewrite app_nil_r, app_assoc.
  change ([TLS_HANDSHAKE_FINISHED; 0; 0; 32] ++ _) with fin. change 36 with (Z.of_nat 36).
  destruct (transcript_update c m fin rest Ht) as (t&Et&Ha). unfold fin in Et at 2. rewrite length_finished in Et. rewrite Et.
  cbn [lift mbind R_bind option_bind mret R_ret]. eexists. split; [reflexivity|]. split; [by eexists|]. by exists t.
Qed.

Lemma get8_bytes data i : Forall is_byte data -> 0 <= i -> forall v, get8 data i = Some v -> is_byte v.
Proof. intros F Hi v. unfold get8. ztest. intros Hv. rewrite Forall_lookup in F. by eapply F. Qed.
(** A length of 32 is three bytes 0, 0, 32. *)
Lemma length_field a b d : is_byte a -> is_byte b -> is_byte d ->
  (Z.lor (Z.lor (Z.shiftl a 16) (Z.shiftl b 8)) d =? 32) = bool_decide ([a; b; d] = [0; 0; 32]).
Proof.
  unfold is_byte. intros Ha Hb Hd. rewrite <- Z.lor_assoc. rewrite (lor_shiftl_add b) by (cbn; lia). change (2 ^ 8) with 256.
  rewrite lor_shiftl_add by (cbn; lia). change (2 ^ 16) with 65536. apply eq_true_iff_eq.
  rewrite Z.eqb_eq, bool_decide_eq_true. split; [intros E|intros [= -> -> ->]; lia].
  assert (a = 0) by lia. assert (b = 0) by lia. by assert (d = 32) as -> by lia; subst.
Qed.

Lemma recv_finished_ok (c : context) m client data n : context_ok c m -> Forall is_byte data ->
  36 <= n <= Z.of_nat (length data) ->
  let fin := Finished (finished_secret c (negb client)) m in
  exists c', recv_finished c client data n = Some (if bool_decide (take 36 data = fin) then inr c' else inl c) /\
    (exists t, c' = set_transcript_hash t c) /\ transcript c' (m ++ fin).
Proof.
  intros Hc F Hn fin. pose proof Hc as [Hp Hk Ht].
  do 4 (destruct data as [|? data]; [cbn in Hn; lia|]). rename z into x0, z0 into x1, z1 into x2, z2 into x3.
  pose proof F as F'. apply Forall_cons in F' as [B0 F']. apply Forall_cons in F' as [B1 F'].
  apply Forall_cons in F' as [B2 F']. apply Forall_cons in F' as [B3 F'].
  destruct (transcript_update c m fin (drop 32 data) Ht) as (t&Et&Ha). unfold fin in Et at 2. rewrite length_finished in Et.
  exists (set_transcript_hash (Some t) c). split; [|split; [by eexists|by exists t]].
  unfold recv_finished. change (get8 (x0 :: x1 :: x2 :: x3 :: data) 0) with (Some x0). cbn [lift mbind option_bind R_bind].
  change (rd24 (x0 :: x1 :: x2 :: x3 :: data) 1) with (Some (Z.lor (Z.lor (Z.shiftl x1 16) (Z.shiftl x2 8)) x3)).
  change (take 36 (x0 :: x1 :: x2 :: x3 :: data)) with (x0 :: x1 :: x2 :: x3 :: take 32 data).
  destruct (x0 =? TLS_HANDSHAKE_FINISHED) eqn:E0; cbn [must mbind R_bind]; zbool.
  2: { rewrite bool_decide_false; [done|]. by intros [= ->]. }
  cbn [lift mbind option_bind R_bind]. rewrite length_field by done.
  destruct (decide ([x1; x2; x3] = [0; 0; 32])) as [E|E].
  2: { rewrite !bool_decide_false; [done| |done]. intros [= _ -> -> -> _]. by apply E. }
  rewrite (bool_decide_true _ E). ztest. cbn [andb must lift mbind option_bind R_bind]. injection E as -> -> ->. subst x0.
  assert (verify_data c (finished_secret c (negb client)) c = Some (inr (Finished_data (finished_secret c (negb client)) m))) as Ev.
  { apply verify_data_ok; [by eapply finished_secret_length|done]. }
  replace (if client then server_handshake_traffic_secret (keys c) else client_handshake_traffic_secret (keys c))
    with (finished_secret c (negb client)) by by destruct client.
  rewrite Ev. cbn [mbind R_bind]. set (v := Finished_data _ m) in *. cbn [length] in Hn.
  rewrite (place_rd_at _ 4 (take 32 data) (drop 32 data) 32).
  2: { rewrite take_drop. apply (place_skip _ 0 [TLS_HANDSHAKE_FINISHED; 0; 0; 32] data 4 (place_0 _) eq_refl). }
  2: { rewrite length_take. lia. }
  cbn [lift mbind option_bind R_bind]. unfold tls_bytes_compare.
  change fin with (TLS_HANDSHAKE_FINISHED :: 0 :: 0 :: 32 :: v).
  destruct (decide (take 32 data = v)) as [E|E].
  2: { rewrite !bool_decide_false; [done| |done]. by intros [= ?]. }
  rewrite (bool_decide_true (take 32 data = v)) by done. cbn [must mbind R_bind].
  rewrite bool_decide_true by by rewrite E. change (4 + 32) with (Z.of_nat 36).
  replace (TLS_HANDSHAKE_FINISHED :: 0 :: 0 :: 32 :: data) with (fin ++ drop 32 data); [by rewrite Et|].
  change fin with (TLS_HANDSHAKE_FINISHED :: 0 :: 0 :: 32 :: v). rewrite <- E. cbn [app]. by rewrite take_drop.
Qed.

(** Finished messages are checked exactly: with a transcript of [m], a
    message is accepted if and only if it starts with the Finished message of
    RFC 8446 for the sender's secret and [m]; then exactly that message is added
    to the transcript, otherwise nothing changes. *)
Theorem finished_exact (c : context) m client data n : context_ok c m -> Forall is_byte data ->
  36 <= n <= Z.of_nat (length data) ->
  let fin := Finished (finished_secret c (negb client)) m in
  exists c', tls_recv_finished (Some c) client (Some data) n = Some (bool_decide (take 36 data = fin), Some c') /\
    if bool_decide (take 36 data = fin) then (exists t, c' = set_transcript_hash t c) /\ transcript c' (m ++ fin) else c' = c.
Proof.
  intros Hc F Hn fin. destruct (recv_finished_ok c m client data n Hc F Hn) as (c'&E&Hc'). fold fin in E, Hc'.
  unfold tls_recv_finished. ztest. rewrite E. destruct (bool_decide _); cbn [outcome mbind option_bind]; [by exists c'|by exists c].
Qed.

(** ** Protected records *)

(** RFC 8446, 5.3: the sequence number, padded on the left, over the IV. *)
Definition nonce_of (iv : bytes) (seq_num : Z) : bytes := xor_bytes iv (replicate 4 0 ++ to_bytes 8 seq_num).
(** The ciphertext and the tag of a record. *)
Definition sealed (key iv : bytes) (seq_num : Z) (p : bytes) : bytes * bytes :=
  let c := seal_text key (nonce_of iv seq_num) p in
  (c, code_tag key (nonce_of iv seq_num) (record_aad (Z.of_nat (length p) + 16)) c).
Definition protect (key iv : bytes) (seq_num : Z) (p : bytes) : bytes :=
  (sealed key iv seq_num p).1 ++ (sealed key iv seq_num p).2.

Record direction_ok (key iv : bytes) (seq_num : Z) : Prop := {
  dir_key : length key = 16%nat /\ Forall is_byte key;
  dir_iv : length iv = 12%nat /\ Forall is_byte iv;
  dir_seq : 0 <= seq_num < 2 ^ 64
}.

Lemma seq_bytes seq_num : 0 <= seq_num ->
  ((fun i => Z.land (Z.shiftr seq_num (56 - i * 8)) 255) <$> [0; 1; 2; 3; 4; 5; 6; 7]) = to_bytes 8 seq_num.
Proof.
  intros H0. unfold to_bytes. cbn [fmap list_fmap seq Nat.sub]. rewrite !land_255, !Z.shiftr_div_pow2 by lia.
  repeat match goal with |- context [256 ^ Z.of_nat ?k] => let v := eval vm_compute in (256 ^ Z.of_nat k) in
    change (256 ^ Z.of_nat k) with v end.
  repeat match goal with |- context [2 ^ (56 - ?a * 8)] => let v := eval vm_compute in (2 ^ (56 - a * 8)) in
    change (2 ^ (56 - a * 8)) with v end. reflexivity.
Qed.
Lemma record_nonce_ok iv seq_num : length iv = 12%nat -> 0 <= seq_num -> record_nonce iv seq_num = Some (nonce_of iv seq_num).
Proof.
  intros Hl H0. unfold record_nonce, nonce_of. rewrite rd_all by lia. cbn [mbind option_bind]. rewrite seq_bytes by done.
  assert (length (to_bytes 8 seq_num) = 8%nat) as Ls by apply length_to_bytes.
  set (s := to_bytes 8 seq_num) in *. clearbody s.
  do 12 (destruct iv as [|? iv]; [discriminate Hl|]). destruct iv; [|discriminate Hl].
  do 8 (destruct s as [|? s]; [discriminate Ls|]). destruct s; [|discriminate Ls].
  cbn [replicate app]. unfold xor_bytes. cbn [zip_with]. rewrite !Z.lxor_0_r. reflexivity.
Qed.
Lemma nonce_facts iv seq_num : length iv = 12%nat -> Forall is_byte iv ->
  length (nonce_of iv seq_num) = 12%nat /\ Forall is_byte (nonce_of iv seq_num).
Proof.
  intros Hl F. assert (length (replicate 4 0 ++ to_bytes 8 seq_num) = 12%nat) as Ls
    by (rewrite length_app, length_replicate, length_to_bytes; lia).
  split; [unfold nonce_of; rewrite length_xor by congruence; done|]. apply xor_bytes_ok; [done|].
  apply Forall_app. split; [apply zeros_ok|apply to_bytes_ok].
Qed.
Lemma aad_facts len : length (record_aad len) = 5%nat /\ Forall is_byte (record_aad len).
Proof.
  split; [done|]. unfold record_aad, be16, u8. pose proof (Z.mod_pos_bound (Z.shiftr len 8) (2 ^ 8)).
  pose proof (Z.mod_pos_bound (Z.land len 255) (2 ^ 8)).
  repeat (apply Forall_cons; split); [..|constructor]; unfold is_byte, TLS_CONTENT_TYPE_APPLICATION_DATA; lia.
Qed.
(** The header of a record: its type, its version and its length. *)
Lemma aad_header len : 0 <= len -> record_aad len = [23; 3; 3] ++ to_bytes 2 len.
Proof.
  intros H0. unfold record_aad, be16, to_bytes, u8. cbn [seq fmap list_fmap Nat.sub]. rewrite land_255, Z.shiftr_div_pow2, Z.mod_mod by lia.
  change (256 ^ Z.of_nat 1) with (2 ^ 8). change (256 ^ Z.of_nat 0) with 1. rewrite Z.div_1_r. reflexivity.
Qed.
Lemma record_gcm_ok {F} (e : F) key iv seq_num len : direction_ok key iv seq_num -> exists a,
  record_gcm e key iv seq_num len = Some (inr a) /\ gcm_fresh key (nonce_of iv seq_num) (record_aad len) a /\ valid_key key.
Proof.
  intros [[Lk Fk] [Li Fi] [Hs _]]. assert (valid_key key) as Hv by (split; [by left|done]).
  destruct (nonce_facts iv seq_num Li Fi) as [Ln Fn]. unfold record_gcm. rewrite record_nonce_ok by done.
  cbn [lift mbind option_bind R_bind].
  destruct (init_gcm_ok key (nonce_of iv seq_num) blank_aes Hv ltac:(lia) Fn) as (a0&E0&H0). rewrite Lk, Ln in E0.
  change 16 with (Z.of_nat 16). change 12 with (Z.of_nat 12). rewrite E0. cbn [lift mbind option_bind R_bind must fst snd].
  assert (Z.of_nat (length ([] ++ record_aad len)) < 16777200) as Hal by (cbn [app]; rewrite (proj1 (aad_facts len)); lia).
  destruct (update_aad_ok key (nonce_of iv seq_num) [] (record_aad len) a0 H0 Hal) as (a&Ea&Ha).
  rewrite (proj1 (aad_facts len)) in Ea. change 5 with (Z.of_nat 5). rewrite Ea.
  cbn [lift mbind option_bind R_bind must fst snd mret R_ret]. by exists a.
Qed.

Lemma protect_record (c : context) p out out_len w :
  direction_ok (client_application_key (keys c)) (client_application_iv (keys c)) (client_seq_num c) ->
  p <> [] -> Forall is_byte p -> Z.of_nat (length p) < 8192 -> Z.of_nat (length p) + 16 <= out_len <= Z.of_nat (length out) ->
  tls_encrypt_data (Some c) (Some p) (Z.of_nat (length p)) (Some out) out_len (Some w) =
  Some (true, (Some (set_client_seq_num (u64 (client_seq_num c + 1)) c),
    Some (protect (client_application_key (keys c)) (client_application_iv (keys c)) (client_seq_num c) p ++ drop (length p + 16) out),
    Some (Z.of_nat (length p) + 16))).
Proof.
  intros Hd Hp Fp Lp Ho. unfold tls_encrypt_data. rewrite u24_small by lia. ztest. unfold encrypt_data.
  rewrite u24_small by lia. set (len := Z.of_nat (length p) + 16).
  destruct (record_gcm_ok (c, out, w) _ _ _ len Hd) as (a&->&Ha&Hv). cbn [mbind R_bind].
  set (key := client_application_key (keys c)) in *. set (iv := client_application_iv (keys c)) in *.
  destruct Hd as [Hk [Li Fi] Hs]. destruct (nonce_facts iv (client_seq_num c) Li Fi) as [Ln Fn].
  destruct (encrypt_ok key _ _ p out a Hv Ha Hp ltac:(lia) ltac:(lia)) as (a'&->&Hdone).
  destruct (seal_text_facts key (nonce_of iv (client_seq_num c)) p Hv ltac:(lia) Fn) as (Lc&_&Fc). specialize (Fc Fp).
  cbn [lift mbind option_bind R_bind must fst snd]. destruct (aad_facts len) as [La Fa].
  destruct (digest_tag key _ _ _ a' Hv Hdone Fa Fc ltac:(lia) ltac:(lia)) as (a2&->&Lt).
  cbn [lift mbind option_bind R_bind must fst snd]. unfold protect, sealed. cbv zeta. fold len. cbn [fst snd].
  set (ct := seal_text _ _ _) in *.
  set (tag := code_tag _ _ _ ct) in *. unfold written. rewrite <- Lc. 
  assert (store_at (ct ++ drop (length ct) out) (Z.of_nat (length ct)) tag = Some ((ct ++ tag) ++ drop (length ct + 16) out)) as ->.
  { destruct (cut_pieces [16]%nat (drop (length ct) out)) as (L&EL&El); [cbn; rewrite length_drop; lia|].
    destruct L as [|t0 L]; [discriminate EL|]. destruct L; [|discriminate EL]. injection EL as Lt0. cbn [concat foldr] in El.
    rewrite app_nil_r in El. pose proof (store_piece [ct; t0; drop (length ct + 16) out] 1 t0 tag (Z.of_nat (length ct))) as Hs1.
    cbn [concat insert list_insert take] in Hs1. rewrite !app_nil_r in Hs1. rewrite El, drop_drop. rewrite <- app_assoc.
    apply Hs1; [done|lia|done]. }
  reflexivity.
Qed.

(** A record is protected as RFC 8446 says: [tls_encrypt_data] writes the
    GCM ciphertext and tag under the client's key, with the nonce made of the IV
    and the sequence number and the record header as associated data, writes
    nothing behind them, and counts the record. *)
Theorem record_protected (c : context) p out out_len w :
  direction_ok (client_application_key (keys c)) (client_application_iv (keys c)) (client_seq_num c) ->
  p <> [] -> Forall is_byte p -> Z.of_nat (length p) < 8192 -> Z.of_nat (length p) + 16 <= out_len <= Z.of_nat (length out) ->
  tls_encrypt_data (Some c) (Some p) (Z.of_nat (length p)) (Some out) out_len (Some w) =
  Some (true, (Some (set_client_seq_num (u64 (client_seq_num c + 1)) c),
    Some (protect (client_application_key (keys c)) (client_application_iv (keys c)) (client_seq_num c) p ++ drop (length p + 16) out),
    Some (Z.of_nat (length p) + 16))).
Proof. apply protect_record. Qed.

(** A record at the front of a buffer. *)
Lemma open_record_front (c : context) ct tag post out out_len w :
  let key := server_application_key (keys c) in
  let iv := server_application_iv (keys c) in
  let nonce := nonce_of iv (server_seq_num c) in
  direction_ok key iv (server_seq_num c) -> ct <> [] -> Forall is_byte ct -> length tag = 16%nat ->
  Z.of_nat (length ct) < 8192 -> Z.of_nat (length ct) <= out_len <= Z.of_nat (length out) ->
  tls_decrypt_data (Some c) (Some (ct ++ tag ++ post)) (Z.of_nat (length ct) + 16) (Some out) out_len (Some w) =
  Some (if bool_decide (tag = code_tag key nonce (record_aad (Z.of_nat (length ct) + 16)) ct) then
    (true, (Some (set_server_seq_num (u64 (server_seq_num c + 1)) c), Some (seal_text key nonce ct ++ drop (length ct) out),
      Some (Z.of_nat (length ct))))
  else (false, (Some c, Some (replicate (length ct) 0 ++ drop (length ct) out), Some w))).
Proof.
  intros key iv nonce Hd Hp Fc Lt Lc Ho. unfold tls_decrypt_data. set (len := Z.of_nat (length ct) + 16). ztest.
  unfold decrypt_data. cbv zeta. replace (len - 16) with (Z.of_nat (length ct)) by lia.
  fold key iv. destruct (record_gcm_ok (c, out, w) _ _ _ len Hd) as (a&->&Ha&Hv). cbn [mbind R_bind].
  destruct Hd as [Hk [Li Fi] Hs]. destruct (nonce_facts iv (server_seq_num c) Li Fi) as [Ln Fn]. fold nonce in Ha, Ln, Fn |- *.
  unfold tls_aes_decrypt.
  destruct (decrypt_front key nonce _ ct (tag ++ post) a false (Some out) Hv Ha Hp ltac:(lia) ltac:(cbn; lia)) as (a'&->&Hdone).
  destruct (seal_text_facts key nonce ct Hv ltac:(lia) Fn) as (Lp&_&_).
  cbn [lift mbind option_bind R_bind must fst snd fmap option_fmap option_map]. destruct (aad_facts len) as [La Fa].
  destruct (digest_tag key _ _ _ a' Hv Hdone Fa Fc ltac:(lia) ltac:(lia)) as (a2&->&Lt').
  cbn [lift mbind option_bind R_bind must fst snd].
  rewrite (place_rd_at _ _ tag post 16); [|apply (place_skip _ 0 ct (tag ++ post) _ (place_0 _) eq_refl)|lia].
  cbn [lift mbind option_bind R_bind]. unfold tls_bytes_compare, written. rewrite Lp.
  destruct (decide (tag = code_tag key nonce (record_aad len) ct)) as [->|E].
  - rewrite !bool_decide_true by done. cbn [negb]. reflexivity.
  - rewrite !bool_decide_false by congruence. cbn [negb].
    pose proof (store_piece [seal_text key nonce ct; drop (length ct) out] 0 (seal_text key nonce ct) (zeros (Z.of_nat (length ct))) 0) as Hz.
    cbn [concat insert list_insert take] in Hz. rewrite !app_nil_r in Hz.
    rewrite Hz; [|done|unfold zeros; rewrite length_replicate; lia|done].
    cbn [lift mbind option_bind R_bind outcome]. unfold zeros. by rewrite Nat2Z.id.
Qed.
Lemma open_record (c : context) ct tag out out_len w :
  let key := server_application_key (keys c) in
  let iv := server_application_iv (keys c) in
  let nonce := nonce_of iv (server_seq_num c) in
  direction_ok key iv (server_seq_num c) -> ct <> [] -> Forall is_byte ct -> length tag = 16%nat ->
  Z.of_nat (length ct) < 8192 -> Z.of_nat (length ct) <= out_len <= Z.of_nat (length out) ->
  tls_decrypt_data (Some c) (Some (ct ++ tag)) (Z.of_nat (length ct) + 16) (Some out) out_len (Some w) =
  Some (if bool_decide (tag = code_tag key nonce (record_aad (Z.of_nat (length ct) + 16)) ct) then
    (true, (Some (set_server_seq_num (u64 (server_seq_num c + 1)) c), Some (seal_text key nonce ct ++ drop (length ct) out),
      Some (Z.of_nat (length ct))))
  else (false, (Some c, Some (replicate (length ct) 0 ++ drop (length ct) out), Some w))).
Proof.
  intros key iv nonce Hd Hp Fc Lt Lc Ho. rewrite <- (app_nil_r tag) at 1. by apply open_record_front.
Qed.

(** C29. A record whose ciphertext does not end on a block boundary (and is
    shorter than 8192 bytes) is opened exactly when its tag is the AES-128-GCM
    tag of SP 800-38D: that of its ciphertext and header under the server's key,
    with the nonce made of the IV and the sequence number, in a buffer with room
    for the plaintext.  Then the plaintext is written and the record counted; otherwise the plaintext area is cleared
    and the context stays as it was. *)
Theorem record_opened_exact (c : context) ct tag out out_len w :
  let key := server_application_key (keys c) in
  let iv := server_application_iv (keys c) in
  let nonce := nonce_of iv (server_seq_num c) in
  let header := [23; 3; 3] ++ to_bytes 2 (Z.of_nat (length ct) + 16) in
  direction_ok key iv (server_seq_num c) -> (length ct mod 16 <> 0)%nat -> Forall is_byte ct -> length tag = 16%nat ->
  Z.of_nat (length ct) < 8192 -> Z.of_nat (length ct) <= out_len <= Z.of_nat (length out) ->
  tls_decrypt_data (Some c) (Some (ct ++ tag)) (Z.of_nat (length ct) + 16) (Some out) out_len (Some w) =
  Some (if bool_decide (tag = tag_of_cipher key nonce header ct) then
    (true, (Some (set_server_seq_num (u64 (server_seq_num c + 1)) c), Some (seal_text key nonce ct ++ drop (length ct) out),
      Some (Z.of_nat (length ct))))
  else (false, (Some c, Some (replicate (length ct) 0 ++ drop (length ct) out), Some w))).
Proof.
  intros key iv nonce header Hd Hm Fc Lt Lc Ho. assert (ct <> []) as Hp by (intros ->; by apply Hm).
  rewrite (open_record c ct tag out out_len w Hd Hp Fc Lt Lc Ho). fold key iv nonce.
  rewrite code_tag_standard by exact Hm. change header with ([23; 3; 3] ++ to_bytes 2 (Z.of_nat (length ct) + 16)).
  by rewrite <- aad_header by lia.
Qed.

(** ** A stream of records *)

Lemma sealed_tag key iv seq_num p : direction_ok key iv seq_num -> p <> [] -> Forall is_byte p -> Z.of_nat (length p) < 8192 ->
  length (sealed key iv seq_num p).2 = 16%nat.
Proof.
  intros Hd Hp Fp Lp. destruct (record_gcm_ok tt key iv seq_num (Z.of_nat (length p) + 16) Hd) as (a&_&Ha&Hv).
  destruct Hd as [Hk [Li Fi] Hs]. destruct (nonce_facts iv seq_num Li Fi) as [Ln Fn].
  destruct (seal_text_facts key (nonce_of iv seq_num) p Hv ltac:(lia) Fn) as (Lc&_&Fc). specialize (Fc Fp).
  destruct (encrypt_ok key _ _ p p a Hv Ha Hp ltac:(lia) ltac:(lia)) as (a'&_&Hdone).
  destruct (aad_facts (Z.of_nat (length p) + 16)) as [La Fa].
  by destruct (digest_tag key _ _ _ a' Hv Hdone Fa Fc ltac:(lia) ltac:(lia)) as (a2&_&Lt).
Qed.

(** The records of one end, each in a buffer of its own size; and the messages
    the other end reads from them.  Both stop at the first failure. *)
Fixpoint send_all (c : context) (ps : list bytes) : option (context * list bytes) :=
  match ps with
  | [] => Some (c, [])
  | p :: ps' =>
      let n := Z.of_nat (length p) + 16 in
      match tls_encrypt_data (Some c) (Some p) (Z.of_nat (length p)) (Some (zeros n)) n (Some 0) with
      | Some (true, (Some c', Some r, Some _)) => s ← send_all c' ps'; Some (s.1, r :: s.2)
      | _ => None
      end
  end.
Fixpoint recv_all (c : context) (rs : list bytes) : option (context * list bytes) :=
  match rs with
  | [] => Some (c, [])
  | r :: rs' =>
      let n := Z.of_nat (length r) in
      match tls_decrypt_data (Some c) (Some r) n (Some (zeros n)) n (Some 0) with
      | Some (true, (Some c', Some p, Some k)) => s ← recv_all c' rs'; Some (s.1, take (Z.to_nat k) p :: s.2)
      | _ => None
      end
  end.

Lemma seq_next key iv seq_num : direction_ok key iv seq_num -> direction_ok key iv (u64 (seq_num + 1)).
Proof. intros [Hk Hi _]. split; [done|done|]. unfold u64. apply Z.mod_pos_bound. lia. Qed.

(** What one end sends the other end reads: for two ends whose write and
    read keys and sequence numbers agree, any stream of non-empty messages, each
    shorter than 8192 bytes, is protected, and opened in order it gives the
    messages back; the sequence numbers agree afterwards. *)
Theorem stream_round_trip (a b : context) ps :
  direction_ok (client_application_key (keys a)) (client_application_iv (keys a)) (client_seq_num a) ->
  server_application_key (keys b) = client_application_key (keys a) ->
  server_application_iv (keys b) = client_application_iv (keys a) -> server_seq_num b = client_seq_num a ->
  Forall (fun p => p <> [] /\ Forall is_byte p /\ Z.of_nat (length p) < 8192) ps ->
  exists a' b' rs, send_all a ps = Some (a', rs) /\ recv_all b rs = Some (b', ps) /\ length rs = length ps /\
    server_seq_num b' = client_seq_num a'.
Proof.
  revert a b. induction ps as [|p ps IH]; intros a b Hd Hk Hi Hq HF; [by exists a, b, []|].
  apply Forall_cons in HF as [(Hp&Fp&Lp) HF]. cbn [send_all]. set (n := Z.of_nat (length p) + 16).
  rewrite (protect_record a p (zeros n) n 0) by (try done; unfold zeros; rewrite ?length_replicate; lia).
  rewrite (drop_ge (zeros n)), app_nil_r by (unfold zeros; rewrite length_replicate; lia).
  set (key := client_application_key (keys a)) in *. set (iv := client_application_iv (keys a)) in *.
  destruct (IH (set_client_seq_num (u64 (client_seq_num a + 1)) a) (set_server_seq_num (u64 (server_seq_num b + 1)) b))
    as (a'&b'&rs&Es&Er&El&Eq); [by apply seq_next|done|done|cbn; by rewrite Hq|done|].
  rewrite Es. cbn [mbind option_bind fst snd]. eexists a', b', _. split; [reflexivity|]. split; [|by cbn [length]; rewrite El].
  assert (valid_key key) as Hv by (destruct Hd as [[Lk Fk] _ _]; split; [by left|done]).
  pose proof (dir_iv _ _ _ Hd) as [Li Fi]. destruct (nonce_facts iv (client_seq_num a) Li Fi) as [Ln Fn].
  destruct (seal_text_facts key (nonce_of iv (client_seq_num a)) p Hv ltac:(lia) Fn) as (Lc&Ecc&Fc). specialize (Fc Fp).
  pose proof (sealed_tag key iv (client_seq_num a) p Hd Hp Fp Lp) as Lt.
  cbn [recv_all]. unfold protect, sealed in *. cbn [fst snd] in *. set (ct := seal_text _ _ p) in *. set (tag := code_tag _ _ _ ct) in *.
  assert (Z.of_nat (length (ct ++ tag)) = Z.of_nat (length ct) + 16) as -> by (rewrite length_app; lia).
  assert (ct <> []) as Hct by (intros E; rewrite E in Lc; by destruct p).
  rewrite (open_record b ct tag) by (rewrite ?Hk, ?Hi, ?Hq; try done; unfold zeros; rewrite ?length_replicate; lia).
  rewrite Hk, Hi, Hq. rewrite bool_decide_true by (unfold tag; by rewrite Lc). rewrite Hq in Er. rewrite Er.
  cbn [mbind option_bind fst snd]. rewrite Ecc, Nat2Z.id, Lc. by rewrite take_app_length.
Qed.
End Laws.
