(* ===== verification/TlsSession.v ===== *)
(** * The start of a handshake, and its keys

    The context [tls_handshake_init] leaves, and the two derivations of traffic
    keys against the key schedule of RFC 8446. *)

From S2P Require Import Prelude MemState RingList TlsHash TlsKdf Rsa RsaCorrect Aes AesRef AesBlock GcmField GcmCorrect Handshake KeySchedule HelloCorrect RecordCorrect.

Section Session.
Context {St : Type} {ops : Sha256 St} {laws : Sha256Laws St}.
Abbreviation context := (tls_handshake_context (St := St)).

(** The context after [tls_handshake_init]. *)
Definition started (tls_random : nat -> Z) (key : bytes) (id : tls_psk_identity) : context :=
  mk_handshake key id (concat ((fun i => le64 (tls_random i)) <$> [0; 1; 2; 3]%nat)) (zeros 32) TLS_AES_128_GCM_SHA256
    (Some (mk_hash 32 tls_sha256_init.2)) blank_keys 0 0 TLS_STATE_INIT.

Lemma init_ok tls_random key id : length key = 32%nat ->
  tls_handshake_init tls_random (Some blank_handshake) (Some key) (Some id) = Some (true, Some (started tls_random key id)).
Proof.
  intros Hk. unfold tls_handshake_init. rewrite rd_all by lia. cbn [mbind option_bind].
  unfold tls_hash_context_init. cbn [Z.eqb TLS_HASH_SHA256]. by rewrite sha256_ready.
Qed.
Lemma blank_sized : keys_sized blank_keys.
Proof. by split. Qed.
Lemma started_ok tls_random key id : length key = 32%nat -> length (identity id) = 32%nat -> 0 <= identity_len id <= 32 ->
  context_ok (started tls_random key id) [] /\ identity_ok (started tls_random key id).
Proof.
  intros Hk Hi Hn. split; split; try done. eexists. split; [reflexivity|]. apply absorbed_init.
Qed.
Lemma handshake_keys_sized key m k : keys_sized k -> keys_sized (handshake_keys_of key m k).
Proof. intros []. split; try assumption; first [apply length_extract | apply length_label]. Qed.

Lemma application_keys_sized key m k : keys_sized k -> keys_sized (application_keys_of key m k).
Proof. intros []. split; try assumption; first [apply length_extract | apply length_label]. Qed.

(** C4. Both derivations compute the key schedule of RFC 8446 (section 7.1) with
    a pre-shared key of 32 bytes and no key exchange.  The handshake keys are
    derived only after a ServerHello, from the messages hashed so far; then,
    whatever further messages [m2] have been hashed, the application keys are
    those of the schedule for [m2].  Both leave everything else of the context
    alone, and neither leaves its buffers. *)
Theorem key_schedule_exact (c : context) m :
  context_ok c m ->
  tls_derive_handshake_keys (Some c) =
    Some (if decide (state c = TLS_STATE_SERVER_HELLO_RECEIVED)
          then (true, Some (set_keys (handshake_keys_of (psk c) m (keys c)) c)) else (false, Some c)) /\
  forall (c2 : context) m2,
    context_ok c2 m2 -> psk c2 = psk c -> keys c2 = handshake_keys_of (psk c) m (keys c) ->
    tls_derive_application_keys (Some c2) =
      Some (true, Some (set_keys (application_keys_of (psk c) m2 (handshake_keys_of (psk c) m (keys c))) c2)).
Proof.
  intros Hc. split.
  - unfold tls_derive_handshake_keys. case_decide as Hs; [|by rewrite bool_decide_false by done].
    rewrite bool_decide_true by done. cbn [negb]. by rewrite (derive_handshake_ok c m Hc).
  - intros c2 m2 Hc2 Ep Ek. unfold tls_derive_application_keys.
    rewrite (derive_application_ok c2 m2 Hc2) by (rewrite Ek, Ep; exact eq_refl).
    cbn [outcome mbind option_bind fst snd]. by rewrite Ep, Ek.
Qed.
End Session.
