(* ===== verification/HandshakeSamples.v ===== *)
(** * A handshake to run

    A pre-shared key, a ServerHello and records for the witnesses, with SHA-256
    of FIPS 180-4; and what the handshake code does at its edges. *)

From S2P Require Import Prelude MemState RingList TlsHash Sha256Ref TlsKdf Rsa RsaCorrect Aes AesRef AesBlock GcmField GcmCorrect Handshake KeySchedule HelloCorrect RecordCorrect TlsSession.

Definition bytes_test (b : bytes) : bool := forallb (fun x => (0 <=? x) && (x <? 256)) b.
Lemma bytes_test_ok b : bytes_test b = true -> Forall is_byte b.
Proof. unfold bytes_test. rewrite forallb_forall, Forall_forall. intros H x Hx. apply list_elem_of_In, H in Hx. unfold is_byte. lia. Qed.

(** ** The parties *)

Definition the_psk : bytes := Z.of_nat <$> seq 0 32.
Definition the_id : tls_psk_identity := mk_identity (str "calculator" ++ replicate 22 0) 10 0x01020304.
Definition the_random (i : nat) : Z := 0x0123456789abcdef + Z.of_nat i.
Definition the_hello : ServerHello :=
  mk_sh (3, 3) (replicate 32 0x5a) [] 0x1301 0 [(0x2b, [3; 4]); (0x1234, [1; 2; 3]); (0x29, [0; 0])].

Lemma the_hello_wf : sh_wf the_hello.
Proof. split; [done|cbn; lia|cbn; lia|repeat constructor; cbn; lia|vm_compute; reflexivity]. Qed.

Definition the_start : tls_handshake_context (St := bytes) := started the_random the_psk the_id.
Definition the_hellos : bytes := Eval vm_compute in ClientHello (St := bytes) the_start ++ sh_bytes the_hello.

(** The context after the ClientHello. *)
Definition the_sent : tls_handshake_context (St := bytes) :=
  set_state TLS_STATE_CLIENT_HELLO_SENT (set_transcript_hash (Some (mk_hash 32 (str "hello"))) the_start).
Lemma the_sent_transcript : transcript the_sent (str "hello").
Proof. eexists. split; [reflexivity|]. by exists [str "hello"]. Qed.

(** The context after the ServerHello, and with its handshake keys. *)
Definition the_received : tls_handshake_context (St := bytes) := set_state TLS_STATE_SERVER_HELLO_RECEIVED the_sent.
Definition the_keyed : tls_handshake_context (St := bytes) :=
  set_keys (handshake_keys_of (St := bytes) the_psk (str "hello") blank_keys) the_received.
Lemma the_received_ok : context_ok the_received (str "hello").
Proof. split; [reflexivity|exact blank_sized|exact the_sent_transcript]. Qed.
Lemma the_keyed_ok : context_ok the_keyed (str "hello").
Proof. split; [reflexivity|apply handshake_keys_sized, blank_sized|exact the_sent_transcript]. Qed.

Lemma key_schedule_exact_witness :
  tls_derive_handshake_keys (Some the_received) = Some (true, Some the_keyed) /\
  tls_derive_application_keys (Some the_keyed) =
    Some (true, Some (set_keys (application_keys_of (St := bytes) the_psk (str "hello") (keys the_keyed)) the_keyed)).
Proof.
  destruct (key_schedule_exact the_received (str "hello") the_received_ok) as [H1 H2].
  split; [exact H1|]. exact (H2 the_keyed (str "hello") the_keyed_ok eq_refl eq_refl).
Defined.

Lemma server_hello_exact_witness : exists c',
  tls_recv_server_hello (Some the_sent) (Some (sh_bytes the_hello ++ [1; 2])) (Z.of_nat (length (sh_bytes the_hello))) =
    Some (acceptable 0x1301 the_hello, Some c') /\ acceptable 0x1301 the_hello = true /\
  state c' = TLS_STATE_SERVER_HELLO_RECEIVED /\ transcript c' (str "hello" ++ sh_bytes the_hello).
Proof.
  destruct (server_hello_exact the_sent (str "hello") the_hello [1; 2] (Z.of_nat (length (sh_bytes the_hello))))
    as (c'&E&H); [reflexivity|exact the_sent_transcript|exact the_hello_wf|vm_compute; split; discriminate|vm_compute; reflexivity|].
  change (cipher_suite the_sent) with 0x1301 in E, H. assert (acceptable 0x1301 the_hello = true) as Ha by (vm_compute; reflexivity).
  rewrite Ha in H. exists c'. split; [exact E|]. split; [exact Ha|]. split; [apply H|apply H].
Defined.

(** A message that is cut off. *)
Lemma server_hello_total_witness : exists b c',
  tls_recv_server_hello (Some the_sent) (Some (take 40 (sh_bytes the_hello))) 40 = Some (b, Some c') /\
  if b : bool then state c' = TLS_STATE_SERVER_HELLO_RECEIVED /\
    exists k, (k <= 40)%nat /\ transcript c' (str "hello" ++ take k (take 40 (sh_bytes the_hello)))
  else state c' = TLS_STATE_ERROR.
Proof.
  apply (server_hello_total the_sent (str "hello") (take 40 (sh_bytes the_hello)) 40);
    [reflexivity|exact the_sent_transcript|apply bytes_test_ok; vm_compute; reflexivity|vm_compute; discriminate|
     vm_compute; split; discriminate|vm_compute; reflexivity].
Defined.

(** ** Records *)

Definition record_keys : tls_traffic_keys :=
  set_client_application_key (Z.of_nat <$> seq 0 16) (set_client_application_iv (Z.of_nat <$> seq 100 12) blank_keys).
Definition peer_keys : tls_traffic_keys :=
  set_server_application_key (Z.of_nat <$> seq 0 16) (set_server_application_iv (Z.of_nat <$> seq 100 12) blank_keys).
Definition the_sender : tls_handshake_context (St := bytes) := set_client_seq_num 255 (set_keys record_keys the_start).
Definition the_reader : tls_handshake_context (St := bytes) := set_server_seq_num 255 (set_keys peer_keys the_start).

Lemma the_direction : direction_ok (Z.of_nat <$> seq 0 16) (Z.of_nat <$> seq 100 12) 255.
Proof. split; [split; [done|apply bytes_test_ok; done]|split; [done|apply bytes_test_ok; done]|lia]. Qed.

Lemma stream_round_trip_witness : exists a' b' rs,
  send_all the_sender [str "USER anonymous"; str "QUIT"] = Some (a', rs) /\
  recv_all the_reader rs = Some (b', [str "USER anonymous"; str "QUIT"]) /\ length rs = 2%nat /\
  server_seq_num b' = client_seq_num a'.
Proof.
  apply (stream_round_trip the_sender the_reader [str "USER anonymous"; str "QUIT"]);
    [exact the_direction|reflexivity|reflexivity|reflexivity|].
  repeat (apply Forall_cons; split); [..|constructor]; split; [discriminate| |discriminate|];
    (split; [apply bytes_test_ok; vm_compute; reflexivity|vm_compute; reflexivity]).
Defined.

Lemma record_opened_exact_witness :
  exists tag, tag <> replicate 16 0 /\
  tag = Gcm.tag_of_cipher (Z.of_nat <$> seq 0 16) (nonce_of (Z.of_nat <$> seq 100 12) 255) [23; 3; 3; 0; 19] [1; 2; 3] /\
  tls_decrypt_data (Some the_reader) (Some ([1; 2; 3] ++ replicate 16 0)) (Z.of_nat (length [1; 2; 3]) + 16) (Some [7; 7; 7; 7]) 3 (Some 9) =
    Some (false, (Some the_reader, Some [0; 0; 0; 7], Some 9)).
Proof.
  eexists. split; [|split; [reflexivity|]]; [vm_compute; discriminate|].
  rewrite (record_opened_exact the_reader [1; 2; 3] (replicate 16 0) [7; 7; 7; 7] 3 9);
    [|exact the_direction|discriminate|apply bytes_test_ok; reflexivity|reflexivity|reflexivity|cbn; lia].
  rewrite bool_decide_false by (vm_compute; discriminate). reflexivity.
Defined.

(** ** Edges *)

(** The lengths of the extensions and of the last extension are two too large:
    60 + n bytes follow a length of 62 + n, and 43 + n a length of 45 + n. *)
Theorem hello_lengths_too_large (c : tls_handshake_context (St := bytes)) : identity_ok c ->
  let n := identity_len (psk_identity c) in
  exists pre exts mid last, ClientHello c = pre ++ be16 (62 + n) ++ exts /\ Z.of_nat (length exts) = 60 + n /\
    exts = mid ++ be16 (45 + n) ++ last /\ Z.of_nat (length last) = 43 + n.
Proof.
  intros Hid n. pose proof Hid as [Hr Ha Hn]. fold n in Hn. unfold ClientHello. set (binder := hello_binder _ _).
  assert (length binder = 32%nat) as Lb by apply length_binder. unfold hello_head. cbv zeta. fold n.
  set (last := be16 (6 + n) ++ be16 n ++ take (Z.to_nat n) (identity (psk_identity c)) ++
    be32 (obfuscated_ticket_age (psk_identity c)) ++ be16 33 ++ [32] ++ binder).
  assert (Z.of_nat (length last) = 43 + n) as Ll.
  { unfold last. rewrite !length_app, length_take, !length_be16, length_be32, Lb. cbn [length]. lia. }
  exists ([TLS_HANDSHAKE_CLIENT_HELLO] ++ be24 (103 + n) ++ [3; 3] ++ client_random c ++ [0; 0; 2; 0x13; 1; 1; 0]),
    ((supported_versions_ext ++ psk_modes_ext ++ [0; 0x29]) ++ be16 (45 + n) ++ last),
    (supported_versions_ext ++ psk_modes_ext ++ [0; 0x29]), last.
  split; [unfold last; rewrite <- !app_assoc; reflexivity|].
  split; [|split; [reflexivity|exact Ll]]. rewrite !length_app, length_be16, length_versions, length_modes. cbn [length]. lia.
Qed.

(** The room in the output buffer is not checked between the random value and
    the identity: a buffer of 40 bytes is overrun. *)
Theorem short_hello_overruns : tls_send_client_hello (Some the_start) (Some (zeros 40)) 40 (Some 0) = None.
Proof. vm_compute. reflexivity. Qed.
(** An identity length of more than 32 reads behind the identity. *)
Theorem long_identity_overreads :
  tls_send_client_hello (Some (mk_handshake the_psk (mk_identity (zeros 32) 33 0) (zeros 32) (zeros 32) 0x1301 None blank_keys 0 0 TLS_STATE_INIT))
    (Some (zeros 200)) 200 (Some 0) = None (A := bool * (option (tls_handshake_context (St := bytes)) * option bytes * option Z)).
Proof. vm_compute. reflexivity. Qed.
(** An empty ServerHello message at the end of its buffer is read behind its
    end. *)
Theorem empty_server_hello_overreads : tls_recv_server_hello (Some the_sent) (Some [2; 0; 0; 0]) 4 = None.
Proof. vm_compute. reflexivity. Qed.

(** A certificate message with a chain never returns: the loop over the chain
    has no body, so no number of turns is enough. *)
Theorem certificate_chain_hangs (c : tls_handshake_context (St := bytes)) chain fuel : chain <> [] ->
  Z.of_nat (length chain) < 16000000 ->
  tls_recv_certificate fuel (Some c)
    (Some ([TLS_HANDSHAKE_CERTIFICATE] ++ be24 (4 + Z.of_nat (length chain)) ++ [0] ++ be24 (Z.of_nat (length chain)) ++ chain))
    (8 + Z.of_nat (length chain)) = None.
Proof.
  intros Hc Hl. assert (0 < length chain)%nat by (destruct chain; [done|cbn; lia]). set (n := Z.of_nat (length chain)) in *.
  set (data := _ ++ _). unfold tls_recv_certificate. ztest. pose proof (place_0 data) as H0. unfold data in H0 at 2.
  rewrite (place_get8 _ _ _ _ H0). cbn [mbind option_bind Z.eqb Pos.eqb negb TLS_HANDSHAKE_CERTIFICATE].
  pose proof (place_skip _ _ _ _ 1 H0 eq_refl) as H1. change (0 + 1) with 1 in H1.
  rewrite (place_rd24 _ _ _ _ H1) by lia. cbn [mbind option_bind]. ztest. cbn [andb].
  pose proof (place_skip _ _ _ _ 3 H1 eq_refl) as H4. change (1 + 3) with 4 in H4. rewrite (place_get8 _ _ _ _ H4).
  cbn [mbind option_bind]. change (u24 (5 + 0)) with 5. ztest.
  pose proof (place_skip _ _ _ _ 1 H4 eq_refl) as H5. change (4 + 1) with 5 in H5. rewrite (place_rd24 _ _ _ _ H5) by lia.
  cbn [mbind option_bind]. change (u24 (5 + 3)) with 8. rewrite u24_small by lia. ztest. cbn [negb].
  assert (forall f, parse_chain f 0 n = None) as ->; [|reflexivity].
  induction f as [|f IH]; cbn [parse_chain]; ztest; [reflexivity|exact IH].
Qed.
