(* ===== verification/AppConfig.v ===== *)
(** * The stored configuration

    [src/src/core/app_config.c]: the configuration of the stack in the AppVar
    "lwIPCFG", and the copy of it kept in memory.

    An AppVar is the memory its pointer points to, the length word first; an
    access outside it is the outer [None] of a result, as in [TlsHash].  The
    structs have no padding on the target, so their layouts are the [enc] of
    the class below. *)

From S2P Require Import Prelude MemState TlsHash Rsa.

(** ** Structs in memory *)

(** Little-endian fields. *)
Definition enc16 (v : Z) : bytes := [u8 v; u8 (v / 256)].
Definition enc32 (v : Z) : bytes := enc16 v ++ enc16 (v / 65536).
Definition ld16 (b : bytes) (off : Z) : option Z :=
  lo ← get8 b off; hi ← get8 b (off + 1); Some (lo + 256 * hi).
Definition ld32 (b : bytes) (off : Z) : option Z :=
  lo ← ld16 b off; hi ← ld16 b (off + 2); Some (lo + 65536 * hi).
(** [int16_t] *)
Definition s16 (v : Z) : Z := if v <? 32768 then v else v - 65536.

(** A type of structs: its size, its layout and how its fields are read. *)
Class Layout (A : Type) := {
  sizeof : Z;
  enc : A -> bytes;
  ld : bytes -> Z -> option A
}.
Arguments sizeof A {_} : assert.

(** ** app_config.h *)

Definition LWIP_CFG_VERSION : Z := 2.
Definition LWIP_CFG_ENABLE_TLS : Z := Z.shiftl 1 0.
Definition LWIP_CFG_DHCP : Z := Z.shiftl 1 3.
Definition LWIP_CFG_CERT_CHECK_DATES : Z := Z.shiftl 1 5.
Definition LWIP_CFG_CERT_CHECK_OWNER : Z := Z.shiftl 1 6.

Record lwip_app_config := mk_config {
  cfg_version : Z;
  max_heap_bytes : Z;
  cfg_flags : Z;
  reserved : Z;
  tz_offset_minutes : Z;
  dst_enabled : Z;
  reserved2 : Z;
  ip_addr : bytes;
  ip_gateway : bytes;
  ip_netmask : bytes
}.
#[global] Instance config_layout : Layout lwip_app_config := {
  sizeof := 22;
  enc c := enc16 (cfg_version c) ++ enc16 (max_heap_bytes c) ++ [cfg_flags c; reserved c] ++
    enc16 (tz_offset_minutes c) ++ [dst_enabled c; reserved2 c] ++ ip_addr c ++ ip_gateway c ++ ip_netmask c;
  ld b off :=
    v ← ld16 b off; heap ← ld16 b (off + 2); flags ← get8 b (off + 4); r ← get8 b (off + 5);
    tz ← ld16 b (off + 6); dst ← get8 b (off + 8); r2 ← get8 b (off + 9);
    ip ← rd_at b (off + 10) 4; gw ← rd_at b (off + 14) 4; mask ← rd_at b (off + 18) 4;
    Some (mk_config v heap flags r (s16 tz) dst r2 ip gw mask)
}.

(** The struct of the first version. *)
Record lwip_app_config_v1 := mk_config_v1 {
  v1_version : Z;
  v1_max_heap_bytes : Z;
  v1_flags : Z;
  v1_reserved : Z;
  v1_ip_addr : bytes;
  v1_ip_gateway : bytes;
  v1_ip_netmask : bytes
}.
#[global] Instance config_v1_layout : Layout lwip_app_config_v1 := {
  sizeof := 18;
  enc c := enc16 (v1_version c) ++ enc16 (v1_max_heap_bytes c) ++ [v1_flags c; v1_reserved c] ++
    v1_ip_addr c ++ v1_ip_gateway c ++ v1_ip_netmask c;
  ld b off :=
    v ← ld16 b off; heap ← ld16 b (off + 2); flags ← get8 b (off + 4); r ← get8 b (off + 5);
    ip ← rd_at b (off + 6) 4; gw ← rd_at b (off + 10) 4; mask ← rd_at b (off + 14) 4;
    Some (mk_config_v1 v heap flags r ip gw mask)
}.

(** [g_cfg] and [g_cfg_loaded] *)
Record cfg_state := mk_cfg { g_cfg : lwip_app_config; g_cfg_loaded : bool }.

(** ** Operations *)

(** [memset] first: all the fields not named are zero. *)
Definition lwip_app_config_defaults : lwip_app_config :=
  mk_config LWIP_CFG_VERSION (32 * 1024) (Z.lor LWIP_CFG_ENABLE_TLS LWIP_CFG_DHCP) 0 0 0 0 (zeros 4) (zeros 4) (zeros 4).

Definition lwip_app_config_load (var : option bytes) : option (bool * lwip_app_config) :=
  match var with
  | None => Some (false, lwip_app_config_defaults)
  | Some v =>
      size ← ld16 v 0;
      if size <? sizeof lwip_app_config_v1 then Some (false, lwip_app_config_defaults)
      else
        version ← ld16 v 2;
        if (version =? LWIP_CFG_VERSION) && (sizeof lwip_app_config <=? size) then
          stored ← ld v 2; Some (true, stored)
        else if (version =? 1) && (sizeof lwip_app_config_v1 <=? size) then
          stored_v1 ← ld (A := lwip_app_config_v1) v 2;
          let d := lwip_app_config_defaults in
          Some (true, mk_config (cfg_version d) (v1_max_heap_bytes stored_v1) (v1_flags stored_v1) (reserved d)
            (tz_offset_minutes d) (dst_enabled d) (reserved2 d)
            (v1_ip_addr stored_v1) (v1_ip_gateway stored_v1) (v1_ip_netmask stored_v1))
        else Some (false, lwip_app_config_defaults)
  end.

(** [opened]: whether [ti_Open] could create the AppVar; [room]: whether
    [ti_Write] had memory for the struct, which it writes whole or not at all. *)
Definition lwip_app_config_save (opened room : bool) (cfg : lwip_app_config) (var : option bytes) :
    bool * option bytes :=
  if negb opened then (false, var)
  else
    let data := if room then enc cfg else [] in
    (true, Some (enc16 (Z.of_nat (length data)) ++ data)).

(** The pointer returned is to [g_cfg]. *)
Definition lwip_app_config_get (var : option bytes) (s : cfg_state) : option cfg_state :=
  if negb (g_cfg_loaded s) then
    r ← lwip_app_config_load var; Some (mk_cfg r.2 true)
  else Some s.

Definition lwip_app_config_refresh (var : option bytes) : option (bool * cfg_state) :=
  r ← lwip_app_config_load var; Some (r.1, mk_cfg r.2 r.1).
