(* ===== verification/Truststore.v ===== *)
(** * The trust store

    [src/src/tls/core/truststore.c]: pinned hashes of public keys, in an AppVar
    signed by the owner of the repository.  [tls_truststore_init] checks the
    signature once and keeps the header; a lookup compares the AppVar with what
    was kept, and searches its entries.

    The state is the global [tls_ctx] ([Rsa]) and the configuration
    ([AppConfig]).  What is outside is in [env]: the two AppVars and the clock
    of the calculator.  The modular exponentiation is assembly, a parameter.
    The outer [None] of a result is an access outside an object. *)

From S2P Require Import Prelude MemState TlsHash Rsa AppConfig.

(** ** truststore.h *)

Definition TLS_SPKI_OWNER_ID_LEN : Z := 32.
Definition TLS_TRUSTSTORE_VERSION : Z := 0.
Definition TRUSTSTORE_SIG_LEN : Z := 256.

Record tls_truststore_header := mk_header {
  created_timestamp : Z;
  entry_count : Z;
  version : Z
}.
#[global] Instance header_layout : Layout tls_truststore_header := {
  sizeof := 8;
  enc h := enc32 (created_timestamp h) ++ enc16 (entry_count h) ++ enc16 (version h);
  ld b off := t ← ld32 b off; n ← ld16 b (off + 4); v ← ld16 b (off + 6); Some (mk_header t n v)
}.

Record tls_spki_entry := mk_entry {
  owner_id : bytes;
  issuer_id : bytes;
  not_before : Z;
  not_after : Z;
  spki_hash : bytes
}.
#[global] Instance entry_layout : Layout tls_spki_entry := {
  sizeof := 104;
  enc e := owner_id e ++ issuer_id e ++ enc32 (not_before e) ++ enc32 (not_after e) ++ spki_hash e;
  ld b off :=
    o ← rd_at b off 32; i ← rd_at b (off + 32) 32; nb ← ld32 b (off + 64); na ← ld32 b (off + 68);
    h ← rd_at b (off + 72) 32; Some (mk_entry o i nb na h)
}.

(** [enum tls_truststore_status]; zero is [TLS_STORE_UNINITIALIZED] *)
Definition TLS_STORE_OK : Z := 1.
Definition TLS_STORE_NOT_FOUND : Z := 2.
Definition TLS_STORE_HASH_INIT_FAIL : Z := 3.
Definition TLS_STORE_SIZE_INVALID : Z := 4.
Definition TLS_STORE_VERSION_MISMATCH : Z := 5.
Definition TLS_STORE_SIG_DECRYPT_FAIL : Z := 6.
Definition TLS_STORE_SIG_INVALID : Z := 7.
Definition TLS_STORE_ENTRY_MISMATCH : Z := 8.
Definition TLS_STORE_TIME_INVALID : Z := 9.

Definition trust_store_pubkey : bytes :=
  [0xA1; 0xD3; 0x45; 0x9D; 0xC3; 0xD2; 0x1D; 0x6A; 0x9B; 0xA1; 0xD2; 0xCD; 0xEB; 0x4A; 0x10; 0xD0;
   0x79; 0x34; 0xB1; 0x06; 0xDA; 0xB3; 0x6D; 0x36; 0x01; 0x75; 0x3E; 0xA3; 0x56; 0xBD; 0x74; 0xDB;
   0x5A; 0xBF; 0xC4; 0xF4; 0x25; 0x5A; 0xA6; 0x50; 0x8F; 0x5D; 0xDC; 0x1B; 0x99; 0x13; 0x0E; 0xD5;
   0x57; 0xE1; 0x47; 0x01; 0x9A; 0xCE; 0xC8; 0x78; 0x6E; 0x83; 0x0E; 0x38; 0xE5; 0xDB; 0xB9; 0x2B;
   0xB2; 0x09; 0x87; 0x29; 0x44; 0x2A; 0x19; 0xAB; 0xFD; 0xF9; 0xB0; 0x73; 0x61; 0xDA; 0x17; 0x3B;
   0xAC; 0x0C; 0x85; 0x41; 0x39; 0x74; 0x20; 0xF1; 0xD5; 0xC9; 0x59; 0x8E; 0xB0; 0x3C; 0xCC; 0x0A;
   0xF7; 0xB6; 0x18; 0x14; 0x24; 0x67; 0x14; 0x66; 0xF0; 0xB9; 0x26; 0x47; 0xDD; 0xAF; 0x40; 0x46;
   0x59; 0x29; 0x75; 0x5B; 0x6C; 0x85; 0x11; 0x3C; 0xD6; 0x32; 0xF1; 0x78; 0xA5; 0x02; 0xFC; 0x12;
   0xF6; 0x79; 0x4E; 0xDB; 0x1D; 0x53; 0xA8; 0xEC; 0xA7; 0x2C; 0x0E; 0x8F; 0x51; 0x14; 0x68; 0xDB;
   0x4C; 0x56; 0xB3; 0x40; 0xEA; 0x5E; 0x30; 0x2E; 0xE0; 0xBF; 0x1D; 0x33; 0xAB; 0x9F; 0x0E; 0x8D;
   0x85; 0x18; 0xED; 0xF7; 0xBA; 0xCC; 0xB2; 0xA7; 0xEE; 0xA6; 0xE0; 0xEC; 0xE5; 0xF5; 0x49; 0x44;
   0x74; 0x25; 0xD9; 0x8A; 0xCC; 0x71; 0xAA; 0x99; 0x05; 0x84; 0x64; 0x6A; 0x7E; 0x35; 0x8A; 0x01;
   0xFA; 0xA2; 0xD5; 0xE7; 0xA4; 0xF4; 0x3A; 0x6A; 0x94; 0x19; 0x75; 0x7F; 0xDD; 0xD3; 0x08; 0x58;
   0x20; 0x5C; 0xDA; 0xBB; 0x6E; 0xE3; 0xB5; 0x6E; 0x29; 0x7F; 0xA6; 0x01; 0x14; 0x33; 0x98; 0x81;
   0x72; 0xA5; 0x1A; 0x10; 0x78; 0x95; 0x97; 0x23; 0x19; 0x69; 0x0B; 0xC3; 0x59; 0x49; 0x3E; 0x6D;
   0x3D; 0x4D; 0xA5; 0x7B; 0x4B; 0xD5; 0x1A; 0xD0; 0x68; 0xD6; 0x59; 0x7B; 0xF6; 0x23; 0x69; 0x95].

(** ** The clock *)

(** The answers of [boot_GetDate] and [boot_GetTime]. *)
Record rtc_time := mk_rtc {
  day : Z;
  month : Z;
  year : Z;
  seconds : Z;
  minutes : Z;
  hours : Z
}.
Record env := mk_env {
  cfg_var : option bytes;
  store_var : option bytes;
  rtc : rtc_time
}.

Definition is_leap_year (year : Z) : bool :=
  (year mod 4 =? 0) && (negb (year mod 100 =? 0) || (year mod 400 =? 0)).

Definition days_in_month : list Z := [31; 28; 31; 30; 31; 30; 31; 31; 30; 31; 30; 31].

(** [n] turns of the loop over the years, and over the months. *)
Fixpoint year_loop (n : nat) (y days : Z) : Z :=
  match n with
  | O => days
  | S n' => year_loop n' (u16 (y + 1)) (u32 (days + (if is_leap_year y then 366 else 365)))
  end.
Fixpoint month_loop (n : nat) (year m days : Z) : option Z :=
  match n with
  | O => Some days
  | S n' =>
      dim ← get8 days_in_month (m - 1);
      let dim := if (m =? 2) && is_leap_year year then 29 else dim in
      month_loop n' year (u8 (m + 1)) (u32 (days + dim))
  end.

(** The inner [None] is a return of false. *)
Definition tls_truststore_get_utc (e : env) (s : cfg_state) : option (option Z * cfg_state) :=
  s ← lwip_app_config_get (cfg_var e) s;
  let cfg := g_cfg s in
  let t := rtc e in
  if (year t <? 1970) || (month t =? 0) || (12 <? month t) || (day t =? 0) then Some (None, s)
  else
    let days := year_loop (Z.to_nat (year t - 1970)) 1970 0 in
    days ← month_loop (Z.to_nat (month t - 1)) (year t) 1 days;
    let days := u32 (days + (day t - 1)) in
    let local := u32 (u32 (days * 86400) + hours t * 3600 + minutes t * 60 + seconds t) in
    let utc := local - tz_offset_minutes cfg * 60 in
    let utc := if negb (dst_enabled cfg =? 0) then utc - 3600 else utc in
    if utc <? 0 then Some (None, s) else Some (Some (u32 utc), s).

(** ** Identifiers *)

(** The index of the first zero of [b] from [i] on, at most [i + n]. *)
Fixpoint strnlen (n : nat) (b : bytes) (i : Z) : option Z :=
  match n with
  | O => Some i
  | S n' => x ← get8 b i; if x =? 0 then Some i else strnlen n' b (i + 1)
  end.

Definition tls_truststore_match_id (entry_id : bytes) (id : option bytes) : option bool :=
  match id with
  | None => Some false
  | Some id =>
      len ← strnlen (Z.to_nat TLS_SPKI_OWNER_ID_LEN) id 0;
      a ← rd (Some entry_id) len;
      b ← rd (Some id) len;
      if negb (bool_decide (a = b)) then Some false
      else
        rest ← rd_at entry_id len (TLS_SPKI_OWNER_ID_LEN - len);
        Some (forallb (fun x => x =? 0) rest)
  end.

(** ** The status *)

Definition set_store (f : truststore_state -> truststore_state) (ctx : tls_context) : tls_context :=
  mk_tls (rsa_scratch ctx) (ecc_scratch ctx) (initialized ctx) (f (truststore ctx)).
Definition tls_truststore_set_status (status : Z) (ctx : tls_context) : tls_context :=
  set_store (fun t => mk_store status (ts_size t) (ts_entry_count t) (ts_version t) (ts_created t)) ctx.
Definition tls_truststore_status (ctx : tls_context) : Z := ts_status (truststore ctx).

Section Store.
Context {St : Type} `{Sha256 St}.
(** [powmod_exp_u24(size, base, exp, mod)]: [base] becomes its power. *)
Variable powmod_exp_u24 : Z -> bytes -> Z -> bytes -> bytes.

Definition tls_truststore_init (e : env) (ctx : tls_context) : option (bool * tls_context) :=
  let fails status ctx := Some (false, tls_truststore_set_status status ctx) in
  match tls_hash_context_init (St := St) TLS_HASH_SHA256 with
  | (Some hash_ctx, true) =>
      match store_var e with
      | None => fails TLS_STORE_NOT_FOUND ctx
      | Some var =>
          truststore_size ← ld16 var 0;
          if truststore_size <? TRUSTSTORE_SIG_LEN + sizeof tls_truststore_header + 2 then fails TLS_STORE_SIZE_INVALID ctx
          else
            let spki_store_len := u16 (truststore_size - TRUSTSTORE_SIG_LEN - 2) in
            let spki_header := 2 + TRUSTSTORE_SIG_LEN in
            v ← ld16 var (spki_header + 6);
            if negb (v =? TLS_TRUSTSTORE_VERSION) then fails TLS_STORE_VERSION_MISMATCH ctx
            else
              p ← at_off var spki_header;
              hash_ctx ← tls_hash_update hash_ctx (Some p) spki_store_len;
              let tstore_hash := tls_hash_digest hash_ctx in
              sig ← at_off var 2;
              (* the local buffer is written before it is read *)
              r ← tls_rsa_decrypt_signature powmod_exp_u24 (Some sig) TRUSTSTORE_SIG_LEN (Some (zeros TRUSTSTORE_SIG_LEN))
                    (Some trust_store_pubkey) (Z.of_nat (length trust_store_pubkey));
              if negb r.1 then fails TLS_STORE_SIG_DECRYPT_FAIL ctx
              else
                r ← tls_rsa_pss_verify (St := St) ctx r.2 (Z.of_nat (length trust_store_pubkey)) (Some tstore_hash)
                      (digestlen hash_ctx) TLS_HASH_SHA256;
                let ctx := r.2 in
                if negb r.1 then fails TLS_STORE_SIG_INVALID ctx
                else
                  header ← ld (A := tls_truststore_header) var spki_header;
                  let ctx := set_store (fun t => mk_store (ts_status t) truststore_size (entry_count header) (version header)
                    (created_timestamp header)) ctx in
                  Some (true, tls_truststore_set_status TLS_STORE_OK ctx)
      end
  | _ => fails TLS_STORE_HASH_INIT_FAIL ctx
  end.
End Store.

(** ** Lookup *)

(** What a lookup changes: the context, the configuration and [*result]. *)
Abbreviation lookup_state := (tls_context * cfg_state * option bytes)%type.

(** [spki_count - i] turns of the loop, the entries from [i] on. *)
Fixpoint lookup_loop (n : nat) (i : Z) (var : bytes) (recvd_hash : bytes) (owner issuer : option bytes)
    (check_dates check_owner : bool) (now : Z) (s : lookup_state) : option (bool * lookup_state) :=
  let '(ctx, cfg, result) := s in
  match n with
  | O => Some (false, s)
  | S n' =>
      let off := 2 + TRUSTSTORE_SIG_LEN + sizeof tls_truststore_header + i * sizeof tls_spki_entry in
      entry ← ld (A := tls_spki_entry) var off;
      received ← rd (Some recvd_hash) TLS_SHA256_DIGEST_LEN;
      if tls_bytes_compare received (spki_hash entry) then
        if check_dates && ((now <? not_before entry) || (not_after entry <? now)) then
          Some (false, (tls_truststore_set_status TLS_STORE_TIME_INVALID ctx, cfg, result))
        else
          ids ← (if check_owner then
                   o ← tls_truststore_match_id (owner_id entry) owner;
                   if negb o then Some false else tls_truststore_match_id (issuer_id entry) issuer
                 else Some true);
          if negb ids then Some (false, (tls_truststore_set_status TLS_STORE_ENTRY_MISMATCH ctx, cfg, result))
          else
            match result with
            | None => Some (true, s)
            | Some r =>
                raw ← rd_at var off (sizeof tls_spki_entry);
                r ← store_at r 0 raw;
                Some (true, (ctx, cfg, Some r))
            end
      else lookup_loop n' (u16 (i + 1)) var recvd_hash owner issuer check_dates check_owner now s
  end.

Definition tls_truststore_lookup_ex (e : env) (recvd_hash owner_id issuer_id : option bytes) (s : lookup_state) :
    option (bool * lookup_state) :=
  let '(ctx, cfg, result) := s in
  let fails status cfg := Some (false, (tls_truststore_set_status status ctx, cfg, result)) in
  match recvd_hash with
  | None => Some (false, s)
  | Some recvd_hash =>
      if negb (ts_status (truststore ctx) =? TLS_STORE_OK) then Some (false, s)
      else
        cfg ← lwip_app_config_get (cfg_var e) cfg;
        let check_dates := negb (Z.land (cfg_flags (g_cfg cfg)) LWIP_CFG_CERT_CHECK_DATES =? 0) in
        let check_owner := negb (Z.land (cfg_flags (g_cfg cfg)) LWIP_CFG_CERT_CHECK_OWNER =? 0) in
        match store_var e with
        | None => fails TLS_STORE_NOT_FOUND cfg
        | Some var =>
            truststore_size ← ld16 var 0;
            if truststore_size <? TRUSTSTORE_SIG_LEN + sizeof tls_truststore_header + 2 then fails TLS_STORE_SIZE_INVALID cfg
            else
              let at_header := 2 + TRUSTSTORE_SIG_LEN in
              v ← ld16 var (at_header + 6);
              if negb (v =? TLS_TRUSTSTORE_VERSION) then fails TLS_STORE_VERSION_MISMATCH cfg
              else
                header ← ld (A := tls_truststore_header) var at_header;
                let spki_db_len := u16 (truststore_size - 2 - TRUSTSTORE_SIG_LEN - sizeof tls_truststore_header) in
                if negb (spki_db_len mod sizeof tls_spki_entry =? 0) then fails TLS_STORE_SIZE_INVALID cfg
                else
                  let spki_count := spki_db_len / sizeof tls_spki_entry in
                  if negb (entry_count header =? spki_count) then fails TLS_STORE_ENTRY_MISMATCH cfg
                  else
                    let t := truststore ctx in
                    if negb (truststore_size =? ts_size t) || negb (entry_count header =? ts_entry_count t) ||
                       negb (version header =? ts_version t) || negb (created_timestamp header =? ts_created t)
                    then fails TLS_STORE_ENTRY_MISMATCH cfg
                    else
                      r ← (if check_dates then tls_truststore_get_utc e cfg else Some (Some 0, cfg));
                      match r with
                      | (None, cfg) => fails TLS_STORE_TIME_INVALID cfg
                      | (Some now, cfg) =>
                          lookup_loop (Z.to_nat spki_count) 0 var recvd_hash owner_id issuer_id check_dates check_owner now
                            (ctx, cfg, result)
                      end
        end
  end.

Definition tls_truststore_lookup (e : env) (recvd_hash : option bytes) (s : lookup_state) : option (bool * lookup_state) :=
  tls_truststore_lookup_ex e recvd_hash None None s.
