(* ===== verification/ConfigCorrect.v ===== *)
(** * Stored structs and the configuration: correctness

    The laws of a struct in memory ([LayoutLaws]): a struct written is read
    back, and any bytes of its size are a struct whose fields are in range.
    Clients of a layout use the laws only.  With them, what is loaded from an
    AppVar, and that a saved configuration is the one loaded. *)

From S2P Require Import Prelude MemState TlsHash TlsKdf Rsa RsaCorrect Handshake HelloCorrect AppConfig.

(** ** Fields *)

Lemma mod_65536 v : v mod 65536 = v mod 256 + 256 * (v / 256 mod 256).
Proof. change 65536 with (256 * 256). by rewrite Z.rem_mul_r. Qed.
Lemma mod_2_32 v : v mod 4294967296 = v mod 65536 + 65536 * (v / 65536 mod 65536).
Proof. change 4294967296 with (65536 * 65536). by rewrite Z.rem_mul_r. Qed.
Lemma place_ld16 data off v rest : at_place data off (enc16 v ++ rest) -> ld16 data off = Some (v mod 65536).
Proof.
  intros H. unfold ld16. rewrite (place_get8 _ _ _ _ H). cbn [mbind option_bind].
  apply place_cons in H. rewrite (place_get8 _ _ _ _ H). cbn [mbind option_bind]. f_equal. unfold u8.
  symmetry. apply mod_65536.
Qed.
Lemma length_enc16 v : length (enc16 v) = 2%nat.
Proof. done. Qed.
Lemma length_enc32 v : length (enc32 v) = 4%nat.
Proof. done. Qed.
Lemma place_ld32 data off v rest : at_place data off (enc32 v ++ rest) -> ld32 data off = Some (v mod 4294967296).
Proof.
  intros H. unfold ld32. unfold enc32 in H. rewrite <- app_assoc in H. rewrite (place_ld16 _ _ _ _ H). cbn [mbind option_bind].
  rewrite (place_ld16 _ _ (v / 65536) rest) by (by apply (place_skip _ _ (enc16 v) _ 2 H)). cbn [mbind option_bind]. f_equal.
  symmetry. apply mod_2_32.
Qed.
Lemma s16_mod v : -32768 <= v < 32768 -> s16 (v mod 65536) = v.
Proof.
  intros Hv. unfold s16. destruct (decide (0 <= v)).
  - rewrite Z.mod_small by lia. ztest. done.
  - rewrite <- (Z.mod_add v 1 65536), Z.mod_small by lia. ztest. lia.
Qed.


(** Any bytes are a field. *)
Lemma enc16_pair x y : is_byte x -> is_byte y -> enc16 (x + 256 * y) = [x; y].
Proof.
  intros Hx Hy. red in Hx, Hy. unfold enc16, u8. change (2 ^ 8) with 256. rewrite (Z.mul_comm 256 y), Z.mod_add, Z.div_add by lia.
  rewrite (Z.mod_small x), (Z.div_small x), Z.add_0_l, Z.mod_small by lia. done.
Qed.
Lemma enc16_mod v w : v mod 65536 = w mod 65536 -> enc16 v = enc16 w.
Proof.
  intros H. unfold enc16, u8. change (2 ^ 8) with 256. rewrite !mod_65536 in H.
  pose proof (Z.mod_pos_bound v 256 eq_refl). pose proof (Z.mod_pos_bound w 256 eq_refl). f_equal; [lia|]. f_equal. lia.
Qed.
Lemma enc16_s16 v : enc16 (s16 v) = enc16 v.
Proof.
  apply enc16_mod. unfold s16. destruct (_ <? _); [done|]. replace (v - 65536) with (v + (-1) * 65536) by lia.
  by rewrite Z.mod_add.
Qed.
Lemma enc32_quad x y z w : is_byte x -> is_byte y -> is_byte z -> is_byte w ->
  enc32 (x + 256 * y + 65536 * (z + 256 * w)) = [x; y; z; w].
Proof.
  intros Hx Hy Hz Hw. unfold enc32. red in Hx, Hy. rewrite (Z.mul_comm 65536), Z.div_add, (Z.div_small (x + _)), Z.add_0_l by lia.
  rewrite (enc16_mod _ (x + 256 * y)) by (by rewrite Z.mod_add). by rewrite !enc16_pair.
Qed.
Lemma enc16_bytes v : Forall is_byte (enc16 v).
Proof. repeat constructor; apply u8_range. Qed.
Lemma enc32_bytes v : Forall is_byte (enc32 v).
Proof. apply Forall_app; split; apply enc16_bytes. Qed.

(** ** The laws of a layout *)

Class LayoutLaws (A : Type) `{Layout A} (field_ok : A -> Prop) := {
  sizeof_nonneg : 0 <= sizeof A;
  enc_length a : field_ok a -> Z.of_nat (length (enc a)) = sizeof A;
  enc_bytes a : field_ok a -> Forall is_byte (enc a);
  ld_enc data off a rest : field_ok a -> at_place data off (enc a ++ rest) -> ld data off = Some a;
  enc_onto d : Forall is_byte d -> Z.of_nat (length d) = sizeof A -> exists a, field_ok a /\ enc a = d
}.

(** Any memory that is long enough holds a struct. *)
Lemma ld_onto {A} `{LayoutLaws A field_ok} data off rest : Forall is_byte data -> at_place data off rest ->
  sizeof A <= Z.of_nat (length rest) ->
  exists (a : A) rest', field_ok a /\ rest = enc a ++ rest' /\ ld data off = Some a.
Proof.
  intros HF Hp Hl. pose proof (sizeof_nonneg (A := A)) as Hs. pose proof Hp as (_&Hd&_).
  destruct (enc_onto (A := A) (take (Z.to_nat (sizeof A)) rest)) as (a&Hok&Ea).
  { rewrite <- Hd. by apply Forall_take, Forall_drop. }
  { rewrite length_take. lia. }
  exists a, (drop (Z.to_nat (sizeof A)) rest). split; [done|]. rewrite Ea, take_drop. split; [done|].
  apply (ld_enc _ _ _ (drop (Z.to_nat (sizeof A)) rest) Hok). by rewrite Ea, take_drop.
Qed.

Definition ipv4_ok (b : bytes) : Prop := length b = 4%nat /\ Forall is_byte b.
Definition config_ok (c : lwip_app_config) : Prop :=
  0 <= cfg_version c < 65536 /\ 0 <= max_heap_bytes c < 65536 /\ Forall is_byte [cfg_flags c; reserved c] /\
  -32768 <= tz_offset_minutes c < 32768 /\ Forall is_byte [dst_enabled c; reserved2 c] /\
  ipv4_ok (ip_addr c) /\ ipv4_ok (ip_gateway c) /\ ipv4_ok (ip_netmask c).
Definition config_v1_ok (c : lwip_app_config_v1) : Prop :=
  0 <= v1_version c < 65536 /\ 0 <= v1_max_heap_bytes c < 65536 /\ Forall is_byte [v1_flags c; v1_reserved c] /\
  ipv4_ok (v1_ip_addr c) /\ ipv4_ok (v1_ip_gateway c) /\ ipv4_ok (v1_ip_netmask c).

(** One field read, and the place of the next. *)
Ltac ld_step H :=
  lazymatch type of H with
  | at_place ?data ?off (enc16 ?v ++ ?rest) =>
      rewrite (place_ld16 _ _ _ _ H); apply (place_skip _ _ (enc16 v) rest 2) in H; [|reflexivity]
  | at_place ?data ?off (enc32 ?v ++ ?rest) =>
      rewrite (place_ld32 _ _ _ _ H); apply (place_skip _ _ (enc32 v) rest 4) in H; [|reflexivity]
  | at_place ?data ?off (?x :: ?rest) =>
      rewrite (place_get8 _ _ _ _ H); apply place_cons in H
  | at_place ?data ?off (?d ++ ?rest) =>
      match goal with |- context [rd_at data off ?n] =>
        rewrite (place_rd_at _ _ d rest n H) by lia; apply (place_skip _ _ d rest n) in H; [|lia] end
  end; cbn [mbind option_bind];
  try match type of H with
  | at_place _ (?o + ?a + ?b) _ => let c := eval compute in (a + b) in replace (o + a + b) with (o + c) in H by lia
  end.

Lemma three_addresses (d : bytes) : length d = 12%nat -> take 4 d ++ take 4 (drop 4 d) ++ take 4 (drop 8 d) = d.
Proof.
  intros H. rewrite (take_ge (drop 8 d)) by (rewrite length_drop; lia). change 8%nat with (4 + 4)%nat. rewrite <- drop_drop.
  by rewrite !take_drop.
Qed.

#[global] Instance config_laws : LayoutLaws lwip_app_config config_ok.
Proof.
  constructor.
  - done.
  - intros [] (?&?&?&?&?&[? ?]&[? ?]&[? ?]); cbn in *. rewrite !length_app. cbn. lia.
  - intros [] (?&?&?&?&?&[? ?]&[? ?]&[? ?]); cbn [enc config_layout] in *.
    repeat (apply Forall_app; split); try apply enc16_bytes; done.
  - intros data off [v h f r tz d r2 ip gw mask] rest (Hv&Hh&_&Ht&_&[? _]&[? _]&[? _]) Hp; cbn in Hv, Hh, Ht.
    cbn [enc ld config_layout cfg_version max_heap_bytes cfg_flags reserved tz_offset_minutes dst_enabled reserved2
      ip_addr ip_gateway ip_netmask] in *.
    rewrite <- ?app_assoc in Hp. do 2 ld_step Hp. cbn [app] in Hp. do 3 ld_step Hp. cbn [app] in Hp.
    do 5 ld_step Hp. rewrite !Z.mod_small, s16_mod by lia. done.
  - intros d HF Hl. cbn in Hl.
    destruct d as [|v0 [|v1 [|h0 [|h1 [|f [|r [|t0 [|t1 [|ds [|r2 d]]]]]]]]]]; try (cbn in Hl; lia).
    repeat match goal with H : Forall _ (_ :: _) |- _ => apply Forall_cons in H as [? H] end.
    exists (mk_config (v0 + 256 * v1) (h0 + 256 * h1) f r (s16 (t0 + 256 * t1)) ds r2
      (take 4 d) (take 4 (drop 4 d)) (take 4 (drop 8 d))).
    assert (length d = 12%nat) by (cbn in Hl; lia). unfold is_byte in *. split.
    + red. cbn. unfold ipv4_ok. rewrite !length_take, !length_drop. unfold s16.
      split_and!; try (apply Forall_take; try apply Forall_drop; done); repeat (constructor; [unfold is_byte; lia|]);
        try constructor; try lia; destruct (_ <? _) eqn:E; zbool; lia.
    + cbn [enc config_layout cfg_version max_heap_bytes cfg_flags reserved tz_offset_minutes dst_enabled reserved2
        ip_addr ip_gateway ip_netmask]. rewrite enc16_s16, !enc16_pair by (unfold is_byte; lia). cbn [app]. do 10 f_equal. by apply three_addresses.
Qed.

#[global] Instance config_v1_laws : LayoutLaws lwip_app_config_v1 config_v1_ok.
Proof.
  constructor.
  - done.
  - intros [] (?&?&?&[? ?]&[? ?]&[? ?]); cbn in *. rewrite !length_app. cbn. lia.
  - intros [] (?&?&?&[? ?]&[? ?]&[? ?]); cbn [enc config_v1_layout] in *.
    repeat (apply Forall_app; split); try apply enc16_bytes; done.
  - intros data off [v h f r ip gw mask] rest (Hv&Hh&_&[? _]&[? _]&[? _]) Hp; cbn in Hv, Hh.
    cbn [enc ld config_v1_layout v1_version v1_max_heap_bytes v1_flags v1_reserved v1_ip_addr v1_ip_gateway v1_ip_netmask] in *.
    rewrite <- ?app_assoc in Hp. do 2 ld_step Hp. cbn [app] in Hp. do 5 ld_step Hp. rewrite !Z.mod_small by lia. done.
  - intros d HF Hl. cbn in Hl. destruct d as [|v0 [|v1 [|h0 [|h1 [|f [|r d]]]]]]; try (cbn in Hl; lia).
    repeat match goal with H : Forall _ (_ :: _) |- _ => apply Forall_cons in H as [? H] end.
    exists (mk_config_v1 (v0 + 256 * v1) (h0 + 256 * h1) f r (take 4 d) (take 4 (drop 4 d)) (take 4 (drop 8 d))).
    assert (length d = 12%nat) by (cbn in Hl; lia). unfold is_byte in *. split.
    + red. cbn. unfold ipv4_ok. rewrite !length_take, !length_drop.
      split_and!; try (apply Forall_take; try apply Forall_drop; done); repeat (constructor; [unfold is_byte; lia|]);
        try constructor; lia.
    + cbn [enc config_v1_layout v1_version v1_max_heap_bytes v1_flags v1_reserved v1_ip_addr v1_ip_gateway v1_ip_netmask].
      rewrite !enc16_pair by (unfold is_byte; lia). cbn [app]. do 6 f_equal. by apply three_addresses.
Qed.

(** ** Loading and saving *)

(** An AppVar with this contents. *)
Definition appvar (data : bytes) : bytes := enc16 (Z.of_nat (length data)) ++ data.

(** The configuration a struct of the first version stands for. *)
Definition upgraded (c : lwip_app_config_v1) : lwip_app_config :=
  mk_config 2 (v1_max_heap_bytes c) (v1_flags c) 0 0 0 0 (v1_ip_addr c) (v1_ip_gateway c) (v1_ip_netmask c).

(** What the contents of the AppVar denote, if anything. *)
Inductive denotes (data : bytes) : lwip_app_config -> Prop :=
  | denotes_current c rest : config_ok c -> cfg_version c = 2 -> data = enc c ++ rest -> denotes data c
  | denotes_v1 c rest : config_v1_ok c -> v1_version c = 1 -> data = enc c ++ rest -> denotes data (upgraded c).

Lemma defaults_ok : config_ok lwip_app_config_defaults /\ cfg_version lwip_app_config_defaults = 2.
Proof. split; [|done]. split_and!; try done; cbn; try lia; repeat constructor; try done; cbn; lia. Qed.
Lemma upgraded_ok c : config_v1_ok c -> config_ok (upgraded c).
Proof.
  intros (?&?&Hf&?&?&?). apply Forall_cons in Hf as [? _].
  red. cbn. split_and!; try done; try lia; repeat (apply Forall_cons; split); try done; by apply Forall_nil.
Qed.

Lemma appvar_place data : at_place (appvar data) 2 data.
Proof. exact (place_skip _ 0 (enc16 _) data 2 (place_0 _) eq_refl). Qed.
Lemma appvar_size data : Z.of_nat (length data) < 65536 -> ld16 (appvar data) 0 = Some (Z.of_nat (length data)).
Proof. intros H. unfold appvar. rewrite (place_ld16 _ _ _ _ (place_0 _)), Z.mod_small by lia. done. Qed.

(** The version is the first field. *)
Lemma config_first (data : bytes) off (c : lwip_app_config) rest : config_ok c -> at_place data off (enc c ++ rest) ->
  ld16 data off = Some (cfg_version c).
Proof.
  intros [Hv _] Hp. cbn [enc config_layout] in Hp. rewrite <- app_assoc in Hp. rewrite (place_ld16 _ _ _ _ Hp), Z.mod_small by lia. done.
Qed.
Lemma config_v1_first (data : bytes) off (c : lwip_app_config_v1) rest : config_v1_ok c -> at_place data off (enc c ++ rest) ->
  ld16 data off = Some (v1_version c).
Proof.
  intros [Hv _] Hp. cbn [enc config_v1_layout] in Hp. rewrite <- app_assoc in Hp. rewrite (place_ld16 _ _ _ _ Hp), Z.mod_small by lia.
  done.
Qed.

Section Load.
Context (data : bytes) (small : Z.of_nat (length data) < 65536).

Lemma load_current c rest : config_ok c -> cfg_version c = 2 -> data = enc c ++ rest ->
  lwip_app_config_load (Some (appvar data)) = Some (true, c).
Proof.
  intros Hok Hv ->. unfold lwip_app_config_load. rewrite appvar_size by done. cbn [mbind option_bind].
  pose proof (enc_length c Hok) as Hl. rewrite length_app, Nat2Z.inj_add, Hl. cbn [sizeof config_layout config_v1_layout]. ztest.
  pose proof (appvar_place (enc c ++ rest)) as Hp. rewrite (ld_enc _ _ _ _ Hok Hp).
  rewrite (config_first _ _ _ _ Hok Hp), Hv. cbn [mbind option_bind]. unfold LWIP_CFG_VERSION. ztest. done.
Qed.
Lemma load_v1 c rest : config_v1_ok c -> v1_version c = 1 -> data = enc c ++ rest ->
  lwip_app_config_load (Some (appvar data)) = Some (true, upgraded c).
Proof.
  intros Hok Hv ->. unfold lwip_app_config_load. rewrite appvar_size by done. cbn [mbind option_bind].
  pose proof (enc_length c Hok) as Hl. rewrite length_app, Nat2Z.inj_add, Hl. cbn [sizeof config_layout config_v1_layout]. ztest.
  pose proof (appvar_place (enc c ++ rest)) as Hp. rewrite (ld_enc (A := lwip_app_config_v1) _ _ _ _ Hok Hp).
  rewrite (config_v1_first _ _ _ _ Hok Hp), Hv. cbn [mbind option_bind]. unfold LWIP_CFG_VERSION. ztest. done.
Qed.

Lemma load_cases : Forall is_byte data ->
  lwip_app_config_load (Some (appvar data)) = Some (false, lwip_app_config_defaults) \/
  exists c, lwip_app_config_load (Some (appvar data)) = Some (true, c) /\ denotes data c.
Proof.
  intros HF. assert (Forall is_byte (appvar data)) as HF' by (apply Forall_app; split; [apply enc16_bytes|done]).
  destruct (decide (Z.of_nat (length data) < 18)).
  { left. unfold lwip_app_config_load. rewrite appvar_size by done. cbn. by ztest. }
  destruct (ld_onto (A := lwip_app_config_v1) _ _ _ HF' (appvar_place data)) as (c1&r1&Hok1&E1&_); [cbn; lia|].
  destruct (decide (v1_version c1 = 1)) as [Hv|Hv].
  { right. exists (upgraded c1). split; [by apply (load_v1 c1 r1)|by econstructor 2]. }
  destruct (decide (v1_version c1 = 2 /\ 22 <= Z.of_nat (length data))) as [[Hv2 Hl]|Hn].
  - destruct (ld_onto (A := lwip_app_config) _ _ _ HF' (appvar_place data)) as (c&r&Hok&E&_); [cbn; lia|].
    assert (cfg_version c = 2) as Hc; [|right; exists c; split; [by apply (load_current c r)|by econstructor 1]].
    pose proof (appvar_place data) as Hp. rewrite E in Hp at 2. pose proof (appvar_place data) as Hp1. rewrite E1 in Hp1 at 2.
    apply (config_first _ _ _ _ Hok) in Hp. rewrite (config_v1_first _ _ _ _ Hok1 Hp1) in Hp. by injection Hp as <-.
  - left. unfold lwip_app_config_load. rewrite appvar_size by done. cbn [mbind option_bind sizeof config_v1_layout config_layout]. ztest.
    pose proof (appvar_place data) as Hp1. rewrite E1 in Hp1 at 2. rewrite (config_v1_first _ _ _ _ Hok1 Hp1). cbn [mbind option_bind].
    rewrite (proj2 (Z.eqb_neq _ 1)) by done. unfold LWIP_CFG_VERSION.
    destruct (Z.eqb_spec (v1_version c1) 2) as [E2|]; [|done]. cbn [andb]. rewrite (proj2 (Z.leb_gt _ _)) by lia. done.
Qed.
End Load.

(** C36. Loading is total and exact: for every contents of the AppVar, the load
    gives the configuration the contents denote, a current struct or one of the
    first version brought up to date, and says so; when they denote none it
    gives the defaults and returns false.  What is loaded is always a
    configuration of the current version with its fields in range. *)
Theorem config_load_exact data : Forall is_byte data -> Z.of_nat (length data) < 65536 ->
  (forall c, denotes data c -> lwip_app_config_load (Some (appvar data)) = Some (true, c)) /\
  ((~ exists c, denotes data c) -> lwip_app_config_load (Some (appvar data)) = Some (false, lwip_app_config_defaults)) /\
  exists b c, lwip_app_config_load (Some (appvar data)) = Some (b, c) /\ config_ok c /\ cfg_version c = 2.
Proof.
  intros HF Hl. split_and!.
  - intros c [c' rest Hok Hv E|c' rest Hok Hv E]; [by apply (load_current data Hl c' rest)|by apply (load_v1 data Hl c' rest)].
  - intros Hn. destruct (load_cases data Hl HF) as [?|(c&_&Hd)]; [done|]. destruct Hn. by exists c.
  - destruct (load_cases data Hl HF) as [?|(c&?&Hd)].
    + exists false, lwip_app_config_defaults. split; [done|apply defaults_ok].
    + exists true, c. split; [done|]. destruct Hd; [done|]. split; [by apply upgraded_ok|done].
Qed.

(** A saved configuration is the one loaded: after a save that had room,
    a refresh succeeds and leaves exactly the saved struct, and so does the
    first access of a program that had loaded none; without the AppVar both
    give the defaults, and the refresh says so. *)
Theorem saved_config_loaded c var s : config_ok c -> cfg_version c = 2 -> g_cfg_loaded s = false ->
  exists v, lwip_app_config_save true true c var = (true, v) /\
  lwip_app_config_refresh v = Some (true, mk_cfg c true) /\ lwip_app_config_get v s = Some (mk_cfg c true) /\
  lwip_app_config_save false true c var = (false, var) /\
  lwip_app_config_refresh None = Some (false, mk_cfg lwip_app_config_defaults false) /\
  lwip_app_config_get None s = Some (mk_cfg lwip_app_config_defaults true).
Proof.
  intros Hok Hv Hs. exists (Some (appvar (enc c))). split; [reflexivity|]. unfold lwip_app_config_refresh, lwip_app_config_get.
  assert (Z.of_nat (length (enc c)) < 65536) as Hl by (rewrite (enc_length c Hok); done).
  rewrite (load_current (enc c) Hl c [] Hok Hv) by (by rewrite app_nil_r). rewrite Hs. done.
Qed.
