(* ===== verification/TrustCorrect.v ===== *)
(** * The trust store: correctness

    The clock is the Gregorian calendar; identifiers are compared as padded
    strings; a store is accepted exactly when its signature is the PSS encoding
    of its hash; and a lookup after that finds an entry with the hash, subject
    to the checks the configuration asks for. *)

From S2P Require Import Prelude MemState TlsHash TlsKdf Rsa RsaCorrect Handshake HelloCorrect AppConfig ConfigCorrect Truststore.

(** ** The calendar *)

(** Days since 1 January 1970 in the Gregorian calendar, with years that begin
    in March so that the leap day comes last. *)
Definition days_from_civil (y m d : Z) : Z :=
  let y := if m <=? 2 then y - 1 else y in
  365 * y + y / 4 - y / 100 + y / 400 + (153 * ((m + 9) mod 12) + 2) / 5 + (d - 1) - 719468.

Lemma civil_next y : days_from_civil (y + 1) 1 1 = days_from_civil y 1 1 + (if is_leap_year y then 366 else 365).
Proof.
  unfold days_from_civil, is_leap_year. change (1 <=? 2) with true. cbv iota.
  destruct (Z.eqb_spec (y mod 4) 0), (Z.eqb_spec (y mod 100) 0), (Z.eqb_spec (y mod 400) 0); cbn [andb orb negb];
    Z.to_euclidean_division_equations; lia.
Qed.

Lemma year_loop_ok n : forall y, 1970 <= y -> y + Z.of_nat n <= 65535 ->
  year_loop n y (days_from_civil y 1 1) = days_from_civil (y + Z.of_nat n) 1 1.
Proof.
  induction n as [|n IH]; intros y H0 H1; cbn [year_loop]; [by rewrite Z.add_0_r|].
  rewrite u16_small, <- civil_next, u32_small by (first [lia | unfold days_from_civil; change (1 <=? 2) with true; cbv iota;
    Z.to_euclidean_division_equations; lia]).
  rewrite IH by lia. f_equal. lia.
Qed.

Lemma civil_bound y m : 1970 <= y <= 65535 -> 1 <= m <= 12 -> 0 <= days_from_civil y m 1 < 24000000.
Proof. intros. unfold days_from_civil. destruct (_ <=? _) eqn:E; zbool; Z.to_euclidean_division_equations; lia. Qed.
(** The length of a month. *)
Lemma civil_month y m : 1 <= m <= 11 -> exists dim, days_in_month !! Z.to_nat (m - 1) = Some dim /\
  days_from_civil y (m + 1) 1 = days_from_civil y m 1 + (if (m =? 2) && is_leap_year y then 29 else dim).
Proof.
  intros Hm. unfold days_from_civil.
  assert (m = 1 \/ m = 2 \/ m = 3 \/ m = 4 \/ m = 5 \/ m = 6 \/ m = 7 \/ m = 8 \/ m = 9 \/ m = 10 \/ m = 11) as C by lia.
  destruct C as [->|[->|C]].
  - eexists. split; [reflexivity|]. ztest. cbn [andb]. Z.to_euclidean_division_equations. lia.
  - eexists. split; [reflexivity|]. ztest. cbn [andb]. unfold is_leap_year.
    destruct (Z.eqb_spec (y mod 4) 0), (Z.eqb_spec (y mod 100) 0), (Z.eqb_spec (y mod 400) 0); cbn [andb orb negb];
      Z.to_euclidean_division_equations; lia.
  - destruct_or! C; subst m; (eexists; split; [reflexivity|]); ztest; cbn [andb]; Z.to_euclidean_division_equations; lia.
Qed.
Lemma month_loop_ok y n : 1970 <= y <= 65535 -> forall m, 1 <= m -> m + Z.of_nat n <= 12 ->
  month_loop n y m (days_from_civil y m 1) = Some (days_from_civil y (m + Z.of_nat n) 1).
Proof.
  intros Hy. induction n as [|n IH]; intros m H0 H1; cbn [month_loop]; [by rewrite Z.add_0_r|].
  destruct (civil_month y m ltac:(lia)) as (dim&Hd&E). unfold get8. rewrite (proj2 (Z.ltb_ge _ _)), Hd by lia.
  cbn [mbind option_bind]. rewrite <- E. pose proof (civil_bound y (m + 1) Hy ltac:(lia)).
  rewrite u8_small, u32_small, IH by lia. do 2 f_equal. lia.
Qed.

(** A date and time of the clock up to the year 2105. *)
Definition civil_time (t : rtc_time) : Prop :=
  1970 <= year t <= 2105 /\ 1 <= month t <= 12 /\ 1 <= day t <= 31 /\
  0 <= hours t <= 23 /\ 0 <= minutes t <= 59 /\ 0 <= seconds t <= 59.
(** The Unix time it stands for. *)
Definition unix_time (t : rtc_time) (c : lwip_app_config) : Z :=
  86400 * days_from_civil (year t) (month t) (day t) + 3600 * hours t + 60 * minutes t + seconds t
  - 60 * tz_offset_minutes c - (if dst_enabled c =? 0 then 0 else 3600).

Lemma civil_day y m d : days_from_civil y m d = days_from_civil y m 1 + (d - 1).
Proof. unfold days_from_civil. destruct (_ <=? _); lia. Qed.
Lemma civil_2105 y m : 1970 <= y <= 2105 -> 1 <= m <= 12 -> 0 <= days_from_civil y m 1 <= 49643.
Proof. intros. unfold days_from_civil. destruct (_ <=? _) eqn:E; zbool; Z.to_euclidean_division_equations; lia. Qed.

Lemma utc_out (a b : Z) (s : cfg_state) : a = b -> b < 4294967296 ->
  (if a <? 0 then Some (None, s) else Some (Some (u32 a), s)) = Some (if b <? 0 then None else Some b, s).
Proof. intros -> Hb. destruct (Z.ltb_spec b 0); [done|]. by rewrite u32_small by lia. Qed.
Lemma get_utc_ok e s s' : civil_time (rtc e) -> lwip_app_config_get (cfg_var e) s = Some s' ->
  -32768 <= tz_offset_minutes (g_cfg s') < 32768 ->
  tls_truststore_get_utc e s =
    Some (if unix_time (rtc e) (g_cfg s') <? 0 then None else Some (unix_time (rtc e) (g_cfg s')), s').
Proof.
  intros (Hy&Hm&Hd&Hh&Hmi&Hs) Hg Htz. unfold tls_truststore_get_utc. rewrite Hg. cbn [mbind option_bind]. cbv zeta.
  ztest. cbn [orb]. change 0 with (days_from_civil 1970 1 1) at 2.
  rewrite year_loop_ok, Z2Nat.id, Zplus_minus by lia. rewrite month_loop_ok, Z2Nat.id, Zplus_minus by lia.
  cbn [mbind option_bind]. rewrite <- civil_day. set (t := rtc e) in *. unfold unix_time.
  pose proof (civil_2105 (year t) (month t) Hy Hm). rewrite civil_day. set (days := days_from_civil _ _ 1) in *.
  rewrite (u32_small (days + _)), (u32_small (_ * 86400)), (u32_small (_ + seconds t)) by lia.
  destruct (dst_enabled (g_cfg s') =? 0); cbn [negb]; apply utc_out; lia.
Qed.

(** C35. The clock is the Gregorian calendar: for every date from 1970 to 2105
    and every time of day, the seconds computed by counting years and months are
    the Unix time of the date, less the configured zone and the daylight saving
    hour; the call fails when that is before 1970. *)
Theorem utc_is_gregorian e s s' : civil_time (rtc e) -> lwip_app_config_get (cfg_var e) s = Some s' ->
  config_ok (g_cfg s') ->
  tls_truststore_get_utc e s =
    Some (if unix_time (rtc e) (g_cfg s') <? 0 then None else Some (unix_time (rtc e) (g_cfg s')), s').
Proof. intros Ht Hg (_&_&_&Htz&_). by apply get_utc_ok. Qed.

(** ** Identifiers *)

(** A C string of at most 32 bytes in a longer memory. *)
Definition c_string (id s : bytes) : Prop :=
  Forall (fun x => x <> 0) s /\ ((length s = 32%nat /\ exists r, id = s ++ r) \/ ((length s < 32)%nat /\ exists r, id = s ++ 0 :: r)).
(** As an entry holds it. *)
Definition padded (s : bytes) : bytes := s ++ replicate (32 - length s) 0.

Lemma strnlen_ok s : Forall (fun x => x <> 0) s -> forall n pre r, (length s <= n)%nat ->
  (length s = n \/ exists r', r = 0 :: r') ->
  strnlen n (pre ++ s ++ r) (Z.of_nat (length pre)) = Some (Z.of_nat (length pre + length s)).
Proof.
  induction 1 as [|x s Hx Hs IH]; intros n pre r Hn Hr.
  - destruct n as [|n]; cbn [strnlen]; [do 2 f_equal; cbn; lia|]. destruct Hr as [?|(r'&->)]; [done|].
    cbn [app]. rewrite get8_app. cbn. do 2 f_equal. lia.
  - destruct n as [|n]; [cbn in Hn; lia|]. cbn [strnlen app]. rewrite get8_app. cbn [mbind option_bind]. ztest.
    pose proof (IH n (pre ++ [x]) r) as IH'. rewrite <- app_assoc, length_app in IH'. cbn [app length] in IH', Hn, Hr.
    replace (Z.of_nat (length pre) + 1) with (Z.of_nat (length pre + 1)) by lia.
    rewrite IH' by (first [lia | destruct Hr; [left; lia|by right]]). do 2 f_equal. cbn. lia.
Qed.

Lemma forallb_zeros (l : bytes) : forallb (fun x => x =? 0) l = bool_decide (l = replicate (length l) 0).
Proof.
  induction l as [|x l IH]; [done|]. cbn [forallb]. rewrite IH. destruct (Z.eqb_spec x 0) as [->|Hx]; cbn [andb].
  - apply bool_decide_ext. cbn. split; [intros E; by f_equal|intros E; by injection E].
  - symmetry. apply bool_decide_false. by intros [= ? _].
Qed.

Lemma match_id_ok entry id s : length entry = 32%nat -> c_string id s ->
  tls_truststore_match_id entry (Some id) = Some (bool_decide (entry = padded s)).
Proof.
  intros He (Hs&Hc). assert (exists r, id = s ++ r /\ (length s = 32%nat \/ exists r', r = 0 :: r') /\ (length s <= 32)%nat)
    as (r&->&Hr&Hl).
  { destruct Hc as [(?&r&->)|(?&r&->)]; eexists; (split; [reflexivity|]); (split; [|lia]); [by left|right; by eexists]. }
  unfold tls_truststore_match_id. change (Z.to_nat TLS_SPKI_OWNER_ID_LEN) with 32%nat.
  pose proof (strnlen_ok s Hs 32 [] r Hl Hr) as E. cbn [app length Nat.add] in E. change (Z.of_nat 0) with 0 in E. rewrite E.
  clear E. cbn [mbind option_bind].
  rewrite (rd_take entry (length s)) by (rewrite He; exact Hl). rewrite rd_app. cbn [mbind option_bind].
  destruct (decide (take (length s) entry = s)) as [E|E].
  - rewrite (bool_decide_true _ E). cbn [negb]. rewrite <- (take_drop (length s) entry), E.
    rewrite (place_rd_at _ _ (drop (length s) entry) []); [|rewrite app_nil_r; exact (place_skip _ 0 s _ _ (place_0 _) eq_refl)|].
    2: { unfold TLS_SPKI_OWNER_ID_LEN. rewrite length_drop. lia. }
    cbn [mbind option_bind]. rewrite forallb_zeros. f_equal. apply bool_decide_ext. unfold padded. rewrite length_drop, He.
    split; [by intros ->|apply app_inv_head].
  - rewrite (bool_decide_false _ E). cbn [negb]. symmetry. f_equal. apply bool_decide_false. intros ->. apply E.
    unfold padded. by rewrite take_app_length.
Qed.

(** The string a pointer gives, if it is not null. *)
Definition id_given (p s : option bytes) : Prop :=
  match p, s with Some id, Some s => c_string id s | None, None => True | _, _ => False end.
Lemma match_given entry p s : length entry = 32%nat -> id_given p s ->
  tls_truststore_match_id entry p = Some (bool_decide (Some entry = padded <$> s)).
Proof.
  intros He Hg. destruct p as [id|], s as [s|]; try done. rewrite (match_id_ok _ _ s He Hg). cbn. f_equal.
  apply bool_decide_ext. split; [by intros ->|by intros [=]].
Qed.

(** ** The structs of the store *)

Definition bytes32 (b : bytes) : Prop := length b = 32%nat /\ Forall is_byte b.
Definition header_ok (h : tls_truststore_header) : Prop :=
  0 <= created_timestamp h < 4294967296 /\ 0 <= entry_count h < 65536 /\ 0 <= version h < 65536.
Definition entry_ok (e : tls_spki_entry) : Prop :=
  bytes32 (owner_id e) /\ bytes32 (issuer_id e) /\ 0 <= not_before e < 4294967296 /\
  0 <= not_after e < 4294967296 /\ bytes32 (spki_hash e).

#[global] Instance header_laws : LayoutLaws tls_truststore_header header_ok.
Proof.
  constructor.
  - done.
  - done.
  - intros h _. cbn [enc header_layout]. repeat (apply Forall_app; split); try apply enc16_bytes; apply enc32_bytes.
  - intros data off [t n v] rest (?&?&?) Hp. cbn [enc ld header_layout created_timestamp entry_count version] in *.
    rewrite <- !app_assoc in Hp. do 3 ld_step Hp. by rewrite !Z.mod_small by lia.
  - intros d HF Hl. cbn in Hl.
    destruct d as [|t0 [|t1 [|t2 [|t3 [|n0 [|n1 [|v0 [|v1 [|? ?]]]]]]]]]; try (cbn in Hl; lia).
    repeat match goal with H : Forall _ (_ :: _) |- _ => apply Forall_cons in H as [? H] end.
    exists (mk_header (t0 + 256 * t1 + 65536 * (t2 + 256 * t3)) (n0 + 256 * n1) (v0 + 256 * v1)). split.
    + unfold is_byte in *. red. cbn. lia.
    + cbn [enc header_layout created_timestamp entry_count version]. rewrite enc32_quad, !enc16_pair by done. done.
Qed.

#[global] Instance entry_laws : LayoutLaws tls_spki_entry entry_ok.
Proof.
  constructor.
  - done.
  - intros [] ([? ?]&[? ?]&?&?&[? ?]); cbn in *. rewrite !length_app. cbn. lia.
  - intros [] ([? ?]&[? ?]&?&?&[? ?]); cbn [enc entry_layout] in *.
    repeat (apply Forall_app; split); try apply enc16_bytes; done.
  - intros data off [o i nb na h] rest ([? _]&[? _]&?&?&[? _]) Hp.
    cbn [enc ld entry_layout owner_id issuer_id not_before not_after spki_hash] in *.
    rewrite <- !app_assoc in Hp. do 5 ld_step Hp. by rewrite !Z.mod_small by lia.
  - intros d HF Hl. cbn in Hl. pose proof (take_drop 64 d) as Ed.
    destruct (drop 64 d) as [|b0 [|b1 [|b2 [|b3 [|a0 [|a1 [|a2 [|a3 h]]]]]]]] eqn:E;
      apply (f_equal length) in E as El; rewrite length_drop in El; cbn in El; try lia.
    assert (Forall is_byte (drop 64 d)) as HF2 by (by apply Forall_drop). rewrite E in HF2.
    repeat match goal with H : Forall _ (_ :: _) |- _ => apply Forall_cons in H as [? H] end.
    exists (mk_entry (take 32 d) (take 32 (drop 32 d)) (b0 + 256 * b1 + 65536 * (b2 + 256 * b3))
      (a0 + 256 * a1 + 65536 * (a2 + 256 * a3)) h). split.
    + red. cbn. unfold bytes32. rewrite !length_take, length_drop. unfold is_byte in *.
      split_and!; try lia; try (apply Forall_take; try apply Forall_drop; done); done.
    + cbn [enc entry_layout owner_id issuer_id not_before not_after spki_hash]. rewrite !enc32_quad by done.
      rewrite app_assoc, take_take_drop. exact Ed.
Qed.

(** ** The search *)

(** The first entry with the hash. *)
Definition find_pin (h : bytes) (entries : list tls_spki_entry) : option tls_spki_entry :=
  List.find (fun e => bool_decide (spki_hash e = h)) entries.
Definition ids_match (owner issuer : option bytes) (e : tls_spki_entry) : bool :=
  bool_decide (Some (owner_id e) = padded <$> owner) && bool_decide (Some (issuer_id e) = padded <$> issuer).
Definition in_period (now : Z) (e : tls_spki_entry) : bool := (not_before e <=? now) && (now <=? not_after e).

(** What a search comes to: true or not, the entry, and the status it leaves,
    if it leaves a new one. *)
Definition verdict (dates : option Z) (ids : option (option bytes * option bytes)) (h : bytes) (entries : list tls_spki_entry) :
    bool * option tls_spki_entry * option Z :=
  match find_pin h entries with
  | None => (false, None, None)
  | Some e =>
      if from_option (fun now => in_period now e) true dates then
        if from_option (fun p => ids_match p.1 p.2 e) true ids then (true, Some e, None)
        else (false, None, Some TLS_STORE_ENTRY_MISMATCH)
      else (false, None, Some TLS_STORE_TIME_INVALID)
  end.

(** Where the result of a verdict goes. *)
Definition after_verdict (v : bool * option tls_spki_entry * option Z) (s : lookup_state) : lookup_state :=
  let '(ctx, cfg, result) := s in
  (from_option (fun st => tls_truststore_set_status st ctx) ctx v.2, cfg,
   match v.1.2, result with Some e, Some r => Some (enc e ++ drop 104 r) | _, _ => result end).

Lemma length_entry (e : tls_spki_entry) : entry_ok e -> length (enc e) = 104%nat.
Proof. intros H. pose proof (enc_length e H) as E. cbn [sizeof entry_layout] in E. lia. Qed.

Lemma lookup_loop_ok entries : Forall entry_ok entries -> forall i var h owner issuer (dates : option Z) so si (co : bool) now s rest,
  length h = 32%nat -> from_option (fun r => 104 <= length r)%nat True s.2 -> id_given owner so -> id_given issuer si ->
  (dates = None \/ dates = Some now) ->
  at_place var (266 + i * 104) (concat (enc <$> entries) ++ rest) -> 0 <= i -> i + Z.of_nat (length entries) < 65536 ->
  lookup_loop (length entries) i var h owner issuer (bool_decide (is_Some dates)) co now s =
    let v := verdict dates (if co then Some (so, si) else None) h entries in
    Some (v.1.1, after_verdict v s).
Proof.
  induction 1 as [|e es He Hes IH]; intros i var h owner issuer dates so si co now [[ctx cfg] result] rest Hh Hres Ho Hs Hd Hp Hi Hlen.
  - cbn. by destruct result.
  - cbn [length lookup_loop fmap list_fmap concat] in *. cbn [sizeof header_layout entry_layout].
    rewrite <- app_assoc in Hp. unfold TRUSTSTORE_SIG_LEN. change (2 + 256 + 8) with 266.
    rewrite (ld_enc (A := tls_spki_entry) _ _ _ _ He Hp). cbn [mbind option_bind]. rewrite rd_all by (rewrite Hh; done).
    cbn [mbind option_bind]. unfold tls_bytes_compare. unfold verdict, find_pin. cbn [List.find].
    destruct (decide (spki_hash e = h)) as [E|E].
    2: { rewrite (bool_decide_false (h = _)), (bool_decide_false (_ = h)) by (by intros ?).
         rewrite u16_small by lia. eapply IH; [done|done|done|done|done| |lia|lia].
         pose proof (place_skip _ _ (enc e) _ 104 Hp) as Hp'. rewrite (length_entry e He) in Hp'.
         replace (266 + (i + 1) * 104) with (266 + i * 104 + 104) by lia. by apply Hp'. }
    rewrite (bool_decide_true (h = _)), (bool_decide_true (_ = h)) by done. clear IH. cbv zeta.
    assert ((bool_decide (is_Some dates) && ((now <? not_before e) || (not_after e <? now))) =
      negb (from_option (fun now => in_period now e) true dates)) as ->.
    { destruct Hd as [->| ->]; cbn; [done|]. unfold in_period. by rewrite negb_andb, <- !Z.ltb_antisym. }
    destruct (from_option (fun now => in_period now e) true dates); cbn [negb]; [|by destruct result].
    rewrite (match_given (owner_id e) owner so), (match_given (issuer_id e) issuer si); [|apply He|done|apply He|done].
    cbn [mbind option_bind]. set (b1 := bool_decide (Some (owner_id e) = _)). set (b2 := bool_decide (Some (issuer_id e) = _)).
    assert ((if co then if negb b1 then Some false else Some b2 else Some true) =
      Some (from_option (fun p => ids_match p.1 p.2 e) true (if co then Some (so, si) else None))) as ->.
    { destruct co; [|done]. cbn. unfold ids_match. fold b1 b2. by destruct b1. }
    cbn [mbind option_bind]. destruct (from_option (fun p => _) true _); cbn [negb]; [|by destruct result].
    destruct result as [r|]; [|done]. cbn in Hres.
    rewrite (place_rd_at _ _ _ _ 104 Hp) by (by rewrite (length_entry e He)). cbn [mbind option_bind].
    rewrite store_front by (by rewrite (length_entry e He)). cbn [mbind option_bind].
    rewrite (length_entry e He). reflexivity.
Qed.

(** ** The whole store *)

(** The memory of a store: the length word, the signature, the signed part and
    what lies behind. *)
Record store_image := mk_image {
  im_sig : bytes;
  im_header : tls_truststore_header;
  im_body : bytes;
  im_rest : bytes
}.
Definition signed_part (m : store_image) : bytes := enc (im_header m) ++ im_body m.
Definition image (m : store_image) : bytes :=
  enc16 (258 + Z.of_nat (length (signed_part m))) ++ im_sig m ++ signed_part m ++ im_rest m.
Record image_ok (m : store_image) : Prop := {
  io_sig : length (im_sig m) = 256%nat;
  io_header : header_ok (im_header m);
  io_size : 266 + Z.of_nat (length (im_body m)) < 65536
}.

Lemma length_entries es : Forall entry_ok es -> length (concat (enc <$> es)) = (104 * length es)%nat.
Proof.
  induction 1 as [|e es He Hes IH]; [done|]. cbn [fmap list_fmap concat length]. rewrite length_app, IH, length_entry by done. lia.
Qed.
Lemma length_store_header (h : tls_truststore_header) : length (enc h) = 8%nat.
Proof. done. Qed.
Lemma length_signed m : Z.of_nat (length (signed_part m)) = 8 + Z.of_nat (length (im_body m)).
Proof. unfold signed_part. rewrite length_app, length_store_header. lia. Qed.

Lemma place_at_off data off rest : at_place data off rest -> at_off data off = Some rest.
Proof. intros (H0&Hd&Hl). unfold at_off, in_bounds. ztest. cbn [andb]. by rewrite Hd. Qed.

Section Image.
Context (m : store_image) (ok : image_ok m).
Let size := 266 + Z.of_nat (length (im_body m)).

Lemma image_size : ld16 (image m) 0 = Some size.
Proof.
  unfold image. rewrite (place_ld16 _ _ _ _ (place_0 _)), length_signed, Z.mod_small by (destruct ok; lia). f_equal. unfold size. lia.
Qed.
Lemma image_sig : at_place (image m) 2 (im_sig m ++ signed_part m ++ im_rest m).
Proof. exact (place_skip _ 0 (enc16 _) _ 2 (place_0 _) eq_refl). Qed.
Lemma image_signed : at_place (image m) 258 (signed_part m ++ im_rest m).
Proof. apply (place_skip _ 2 (im_sig m) _ 256 image_sig). by rewrite io_sig. Qed.
Lemma image_header : ld (image m) 258 = Some (im_header m).
Proof. pose proof image_signed as Hp. unfold signed_part in Hp. rewrite <- app_assoc in Hp. by apply (ld_enc _ _ _ _ (io_header _ ok) Hp). Qed.
Lemma image_version : ld16 (image m) 264 = Some (version (im_header m)).
Proof.
  pose proof image_signed as Hp. unfold signed_part in Hp. rewrite <- app_assoc in Hp. cbn [enc header_layout] in Hp. rewrite <- !app_assoc in Hp.
  apply (place_skip _ _ _ _ 4) in Hp; [|reflexivity]. apply (place_skip _ _ _ _ 2) in Hp; [|reflexivity].
  change (258 + 4 + 2) with 264 in Hp. rewrite (place_ld16 _ _ _ _ Hp), Z.mod_small by apply (io_header _ ok). done.
Qed.
Lemma image_body : at_place (image m) 266 (im_body m ++ im_rest m).
Proof.
  pose proof image_signed as Hp. unfold signed_part in Hp. rewrite <- app_assoc in Hp. by apply (place_skip _ _ _ _ 8 Hp).
Qed.
End Image.



(** ** Acceptance *)

Section Accept.
Context {St : Type} {ops : Sha256 St} {laws : Sha256Laws St}.
Context (powmod_exp_u24 : Z -> bytes -> Z -> bytes -> bytes).
(** The exponentiation replaces its base by as many bytes. *)
Definition powmod_in_place : Prop := forall size base exp key,
  length (powmod_exp_u24 size base exp key) = length base /\ Forall is_byte (powmod_exp_u24 size base exp key).

(** The signature opened with the public key, whose length of 256 bytes is
    passed as a byte. *)
Definition opened (m : store_image) : bytes := powmod_exp_u24 0 (im_sig m) 65537 trust_store_pubkey.
Definition signature_valid (m : store_image) : Prop :=
  exists salt, length salt = 32%nat /\ opened m = PSS_encode (sha256 (signed_part m)) salt 256.

Definition recorded (m : store_image) : truststore_state :=
  mk_store TLS_STORE_OK (266 + Z.of_nat (length (im_body m))) (entry_count (im_header m)) 0
    (created_timestamp (im_header m)).

(** Verification touches the scratch buffer only. *)
Lemma pss_verify_frame ctx em n mhash k alg b ctx' : tls_rsa_pss_verify (St := St) ctx em n mhash k alg = Some (b, ctx') ->
  truststore ctx' = truststore ctx.
Proof.
  unfold tls_rsa_pss_verify. intros H.
  repeat match goal with
  | H : (if ?b then _ else _) = Some _ |- _ => destruct b
  | H : match ?b with _ => _ end = Some _ |- _ => destruct b
  | H : (_ ≫= _) = Some _ |- _ => apply bind_Some in H as (?&?&H)
  | H : Some _ = Some _ |- _ => injection H as <- <-
  | H : None = Some _ |- _ => discriminate H
  | |- _ = _ => reflexivity
  end.
Qed.

Lemma decrypt_sig_ok m r : image_ok m ->
  tls_rsa_decrypt_signature powmod_exp_u24 (Some (im_sig m ++ r)) 256 (Some (zeros 256)) (Some trust_store_pubkey)
    (Z.of_nat (length trust_store_pubkey)) = Some (true, Some (opened m)).
Proof.
  intros ok. change (Z.of_nat (length trust_store_pubkey)) with 256. unfold tls_rsa_decrypt_signature.
  change (is_null _ || _ || _ || _ || _ || _) with false. cbv iota. cbn [mbind option_bind].
  change (get8 trust_store_pubkey (256 - 1)) with (Some 0x95). cbn [mbind option_bind].
  change (Z.land 0x95 1 =? 0) with false. cbv iota.
  assert (rd (Some (im_sig m ++ r)) 256 = Some (im_sig m)) as ->.
  { change 256 with (Z.of_nat 256). rewrite <- (io_sig m ok). apply rd_app. }
  cbn [mbind option_bind]. rewrite store_front by (by rewrite (io_sig m ok)). cbn [mbind option_bind]. rewrite (io_sig m ok).
  change (drop 256 (zeros 256)) with (@nil Z). rewrite app_nil_r. done.
Qed.

Lemma init_image e ctx m : powmod_in_place -> store_var e = Some (image m) -> image_ok m -> ready ctx -> exists b ctx',
  tls_truststore_init (St := St) powmod_exp_u24 e ctx = Some (b, ctx') /\
  (b = true <-> version (im_header m) = 0 /\ signature_valid m) /\
  truststore ctx' =
    if b then recorded m
    else let t := truststore ctx in
      mk_store (if version (im_header m) =? 0 then TLS_STORE_SIG_INVALID else TLS_STORE_VERSION_MISMATCH)
        (ts_size t) (ts_entry_count t) (ts_version t) (ts_created t).
Proof.
  intros Hpow He ok Hctx. pose proof (length_signed m) as Hls. pose proof (io_size m ok) as Hsz.
  unfold tls_truststore_init. rewrite hash_init, He, image_size by done. cbn [mbind option_bind].
  cbn [sizeof header_layout]. unfold TRUSTSTORE_SIG_LEN, TLS_TRUSTSTORE_VERSION.
  ztest. change (2 + 256) with 258. change (258 + 6) with 264. rewrite image_version by done. cbn [mbind option_bind].
  destruct (Z.eqb_spec (version (im_header m)) 0) as [Hv|Hv]; cbn [negb].
  2: { eexists _, _. split; [reflexivity|]. split; [|reflexivity]. split; [done|]. by intros [? _]. }
  rewrite (place_at_off _ _ _ (image_signed m ok)), (place_at_off _ _ _ (image_sig m)). cbn [mbind option_bind].
  unfold tls_hash_update. rewrite u16_small by lia.
  replace (266 + Z.of_nat (length (im_body m)) - 256 - 2) with (Z.of_nat (length (signed_part m))) by lia.
  rewrite rd_app. cbn [mbind option_bind]. rewrite decrypt_sig_ok by done. cbn [mbind option_bind fst snd negb digestlen hash_private].
  assert (tls_hash_digest (mk_hash 32 (tls_sha256_update tls_sha256_init.2 (signed_part m))) = sha256 (signed_part m)) as ->
    by (apply absorbed_digest, absorbed_one).
  destruct (Hpow 0 (im_sig m) 65537 trust_store_pubkey) as [Hl HF]. rewrite (io_sig m ok) in Hl. fold (opened m) in Hl, HF.
  destruct (pss_verify_iff ctx (opened m) (sha256 (signed_part m)) 256 Hctx Hl HF (sha256_length _) ltac:(lia)) as (b&ctx'&Hp&Hiff).
  change (Z.of_nat (length trust_store_pubkey)) with (Z.of_nat 256). rewrite Hp. cbn [mbind option_bind fst snd].
  apply pss_verify_frame in Hp. destruct b; cbn [negb].
  - rewrite image_header by done. cbn [mbind option_bind]. eexists true, _. split; [reflexivity|]. split.
    + split; [|done]. intros _. split; [done|by apply Hiff].
    + cbn. unfold recorded. by rewrite Hv.
  - eexists false, _. split; [reflexivity|]. split.
    + split; [done|]. intros [_ Hs]. by apply Hiff.
    + cbn. by rewrite Hp.
Qed.

End Accept.

(** ** Lookup *)

Lemma get_idem var s s' : lwip_app_config_get var s = Some s' -> lwip_app_config_get var s' = Some s'.
Proof.
  unfold lwip_app_config_get. destruct (g_cfg_loaded s) eqn:E; cbn [negb].
  - intros [= <-]. by rewrite E.
  - intros (r&_&[= <-])%bind_Some. done.
Qed.

(** What the configuration asks to check. *)
Definition checks_dates (c : lwip_app_config) : bool := negb (Z.land (cfg_flags c) LWIP_CFG_CERT_CHECK_DATES =? 0).
Definition checks_owner (c : lwip_app_config) : bool := negb (Z.land (cfg_flags c) LWIP_CFG_CERT_CHECK_OWNER =? 0).

Lemma lookup_image e m entries ctx cfg cfg' h owner issuer so si result :
  store_var e = Some (image m) -> image_ok m -> version (im_header m) = 0 -> truststore ctx = recorded m ->
  im_body m = concat (enc <$> entries) -> Forall entry_ok entries -> entry_count (im_header m) = Z.of_nat (length entries) ->
  lwip_app_config_get (cfg_var e) cfg = Some cfg' -> config_ok (g_cfg cfg') -> civil_time (rtc e) ->
  0 <= unix_time (rtc e) (g_cfg cfg') ->
  length h = 32%nat -> id_given owner so -> id_given issuer si -> from_option (fun r => 104 <= length r)%nat True result ->
  tls_truststore_lookup_ex e (Some h) owner issuer (ctx, cfg, result) =
    let v := verdict (if checks_dates (g_cfg cfg') then Some (unix_time (rtc e) (g_cfg cfg')) else None)
      (if checks_owner (g_cfg cfg') then Some (so, si) else None) h entries in
    Some (v.1.1, after_verdict v (ctx, cfg', result)).
Proof.
  intros He ok Hv Hts Hb Hes Hn Hcfg Hc Ht Hu Hh Ho Hi Hr. pose proof (io_size m ok) as Hsz.
  assert (Z.of_nat (length (im_body m)) = 104 * Z.of_nat (length entries)) as Hlb by (rewrite Hb, length_entries by done; lia).
  unfold tls_truststore_lookup_ex. rewrite Hts. cbn [recorded ts_status ts_size ts_entry_count ts_version ts_created].
  change (negb (TLS_STORE_OK =? TLS_STORE_OK)) with false. cbv iota. rewrite Hcfg, He. cbn [mbind option_bind].
  rewrite image_size by done. cbn [mbind option_bind]. cbn [sizeof header_layout entry_layout].
  unfold TRUSTSTORE_SIG_LEN, TLS_TRUSTSTORE_VERSION. ztest. change (2 + 256) with 258. change (258 + 6) with 264.
  rewrite image_version, Hv, image_header by done. cbn [Z.eqb negb mbind option_bind]. rewrite u16_small by lia.
  replace (266 + Z.of_nat (length (im_body m)) - 2 - 256 - 8) with (Z.of_nat (length entries) * 104) by lia.
  rewrite Z.mod_mul, Z.div_mul by done. cbn [Z.eqb negb]. rewrite Hn, Hv, !Z.eqb_refl. cbn [negb orb].
  fold (checks_dates (g_cfg cfg')) (checks_owner (g_cfg cfg')).
  rewrite (get_utc_ok e cfg' cfg' Ht (get_idem _ _ _ Hcfg)) by apply Hc. rewrite (proj2 (Z.ltb_ge _ 0)) by done.
  rewrite Nat2Z.id. set (now := unix_time (rtc e) (g_cfg cfg')).
  pose proof (image_body m ok) as Hp. rewrite Hb in Hp. change 266 with (266 + 0 * 104) in Hp.
  destruct (checks_dates (g_cfg cfg')); cbn [mbind option_bind].
  - apply (lookup_loop_ok entries Hes 0 (image m) h owner issuer (Some now) so si _ now (ctx, cfg', result) (im_rest m));
      [done|done|done|done|by right|done|done|lia].
  - apply (lookup_loop_ok entries Hes 0 (image m) h owner issuer None so si _ 0 (ctx, cfg', result) (im_rest m));
      [done|done|done|done|by left|done|done|lia].
Qed.

(** Whether an entry passes the checks asked for. *)
Definition passes (dates : option Z) (ids : option (option bytes * option bytes)) (e : tls_spki_entry) : bool :=
  from_option (fun now => in_period now e) true dates && from_option (fun p => ids_match p.1 p.2 e) true ids.

Lemma find_pin_some h entries en : find_pin h entries = Some en -> In en entries /\ spki_hash en = h.
Proof. unfold find_pin. intros [Hin Hb]%find_some. by apply bool_decide_eq_true in Hb. Qed.
Lemma find_pin_none h entries : find_pin h entries = None -> Forall (fun en => spki_hash en <> h) entries.
Proof.
  intros Hf. apply Forall_forall. intros en Hin%list_elem_of_In. pose proof (find_none _ _ Hf en Hin) as Hb.
  by apply bool_decide_eq_false in Hb.
Qed.

(** C22. A lookup is exact, on a context whose trust store is as the accepting
    initialisation left it (lookups that succeed or find no entry keep it so).
    [tls_truststore_lookup_ex] returns; it returns true only for an entry that
    has the hash and passes the checks the configuration asks for (its validity
    period at the Unix time of the clock, and the owner and issuer as padded
    strings), of which [*result] is then a copy; it returns false with nothing
    changed only when no entry has the hash, and otherwise with the status that
    says which check an entry with the hash has failed.  When the entries with
    the hash pass or fail together (one entry per hash, or no checks asked for)
    it returns true if and only if any entry has the hash and passes. *)
Theorem pin_lookup_exact {St} `{Sha256Laws St} powmod e m entries ctx0 ctx1 ctx cfg cfg' h owner issuer so si result :
  powmod_in_place powmod -> store_var e = Some (image m) -> image_ok m -> ready ctx0 ->
  tls_truststore_init (St := St) powmod e ctx0 = Some (true, ctx1) -> truststore ctx = truststore ctx1 ->
  im_body m = concat (enc <$> entries) -> Forall entry_ok entries -> entry_count (im_header m) = Z.of_nat (length entries) ->
  lwip_app_config_get (cfg_var e) cfg = Some cfg' -> config_ok (g_cfg cfg') -> civil_time (rtc e) ->
  0 <= unix_time (rtc e) (g_cfg cfg') ->
  length h = 32%nat -> id_given owner so -> id_given issuer si -> from_option (fun r => 104 <= length r)%nat True result ->
  let dates := if checks_dates (g_cfg cfg') then Some (unix_time (rtc e) (g_cfg cfg')) else None in
  let ids := if checks_owner (g_cfg cfg') then Some (so, si) else None in
  exists b s', tls_truststore_lookup_ex e (Some h) owner issuer (ctx, cfg, result) = Some (b, s') /\
  (if b then exists en, In en entries /\ spki_hash en = h /\ passes dates ids en = true /\
     s' = (ctx, cfg', (fun r => enc en ++ drop 104 r) <$> result)
   else (Forall (fun en => spki_hash en <> h) entries /\ s' = (ctx, cfg', result)) \/
     exists en st, In en entries /\ spki_hash en = h /\ passes dates ids en = false /\
       st = (if from_option (fun now => in_period now en) true dates then TLS_STORE_ENTRY_MISMATCH else TLS_STORE_TIME_INVALID) /\
       s' = (tls_truststore_set_status st ctx, cfg', result)) /\
  ((forall e1 e2, In e1 entries -> In e2 entries -> spki_hash e1 = h -> spki_hash e2 = h ->
      passes dates ids e1 = passes dates ids e2) ->
   (b = true <-> exists en, In en entries /\ spki_hash en = h /\ passes dates ids en = true)).
Proof.
  intros Hpow He ok Hr Hi Hsame Hb Hes Hn Hcfg Hc Ht Hu Hh Ho Hs Hres dates ids.
  destruct (init_image powmod e ctx0 m Hpow He ok Hr) as (b0&ctx'&Hi'&Hiff&Hts).
  rewrite Hi in Hi'. injection Hi' as <- <-. rewrite <- Hsame in Hts.
  rewrite (lookup_image e m entries ctx cfg cfg' h owner issuer so si result) by (try done; by apply Hiff).
  cbv zeta. fold dates ids. eexists _, _. split; [reflexivity|]. unfold verdict, passes.
  destruct (find_pin h entries) as [en|] eqn:Ef.
  - apply find_pin_some in Ef as [Hin Hhash].
    destruct (from_option (fun now => in_period now en) true dates) eqn:Ed;
      [destruct (from_option (fun p => ids_match p.1 p.2 en) true ids) eqn:Ei|]; cbn.
    + split; [|split; [intros _; exists en; by rewrite Ed, Ei|done]].
      exists en. rewrite Ed, Ei. by destruct result.
    + split; [right; exists en, TLS_STORE_ENTRY_MISMATCH; rewrite Ed, Ei; by destruct result|].
      intros Hall. split; [done|]. intros (en'&Hin'&Hh'&Hp). rewrite (Hall en' en) in Hp by done. by rewrite Ed, Ei in Hp.
    + split; [right; exists en, TLS_STORE_TIME_INVALID; rewrite Ed; by destruct result|].
      intros Hall. split; [done|]. intros (en'&Hin'&Hh'&Hp). rewrite (Hall en' en) in Hp by done. by rewrite Ed in Hp.
  - apply find_pin_none in Ef. cbn. split; [left; by destruct result|]. intros _. split; [done|].
    intros (en&Hin&Hh'&_). rewrite Forall_forall in Ef. apply list_elem_of_In in Hin. by apply Ef in Hin.
Qed.

(** ** Edges *)

(** A lookup that fails a check, or finds the AppVar gone, ends the use of the
    store: every later lookup returns false, whatever it looks for, until the
    store is initialised again. *)
Theorem failed_check_ends_store e h owner issuer s : tls_truststore_status s.1.1 <> TLS_STORE_OK ->
  tls_truststore_lookup_ex e h owner issuer s = Some (false, s).
Proof.
  destruct s as [[ctx cfg] result]. unfold tls_truststore_status. cbn. intros Hs. destruct h as [h|]; [|done].
  by rewrite (proj2 (Z.eqb_neq _ _)).
Qed.

(** Only the first entry with a hash counts: an expired one hides a valid one
    for the same key. *)
Theorem first_pin_decides h e1 e2 now : spki_hash e1 = h -> spki_hash e2 = h -> in_period now e1 = false ->
  in_period now e2 = true -> verdict (Some now) None h [e1; e2] = (false, None, Some TLS_STORE_TIME_INVALID) /\
  verdict (Some now) None h [e2; e1] = (true, Some e2, None).
Proof.
  intros <- E H1 H2. unfold verdict, find_pin. cbn. rewrite !bool_decide_true by done. cbn. by rewrite H1, H2.
Qed.

(** A length word that counts the contents, as the configuration's does, is
    taken to count itself too: a store of whole entries, with such a word, is
    refused. *)
Theorem counted_contents_refused e sig hdr entries ctx cfg cfg' h owner issuer result :
  store_var e = Some (appvar (sig ++ enc hdr ++ concat (enc <$> entries))) -> length sig = 256%nat -> header_ok hdr ->
  version hdr = 0 -> Forall entry_ok entries -> entries <> [] -> 264 + 104 * Z.of_nat (length entries) < 65536 ->
  tls_truststore_status ctx = TLS_STORE_OK -> lwip_app_config_get (cfg_var e) cfg = Some cfg' ->
  tls_truststore_lookup_ex e (Some h) owner issuer (ctx, cfg, result) =
    Some (false, (tls_truststore_set_status TLS_STORE_SIZE_INVALID ctx, cfg', result)).
Proof.
  intros He Ls Hh Hv Hes Hne Hl Hs Hcfg. set (d := sig ++ enc hdr ++ concat (enc <$> entries)) in He.
  assert (Z.of_nat (length d) = 264 + 104 * Z.of_nat (length entries)) as Ld.
  { unfold d. rewrite !length_app, Ls, length_store_header, length_entries by done. lia. }
  assert (0 < length entries)%nat by (destruct entries; [done|cbn; lia]).
  pose proof (appvar_place d) as Hp. unfold d in Hp at 2. apply (place_skip _ _ _ _ 256) in Hp; [|by rewrite Ls].
  unfold tls_truststore_lookup_ex. unfold tls_truststore_status in Hs. rewrite Hs. change (negb (TLS_STORE_OK =? TLS_STORE_OK)) with false.
  cbv iota. rewrite Hcfg, He. cbn [mbind option_bind]. rewrite appvar_size by lia. cbn [mbind option_bind sizeof header_layout entry_layout].
  unfold TRUSTSTORE_SIG_LEN, TLS_TRUSTSTORE_VERSION. ztest. rewrite (ld_enc _ _ _ _ Hh Hp). cbn [enc header_layout] in Hp.
  rewrite <- !app_assoc in Hp. apply (place_skip _ _ _ _ 4) in Hp; [|reflexivity]. apply (place_skip _ _ _ _ 2) in Hp; [|reflexivity].
  change (2 + 256 + 4 + 2) with (2 + 256 + 6) in Hp. rewrite (place_ld16 _ _ _ _ Hp), Hv. cbn [mbind option_bind]. rewrite u16_small by lia.
  rewrite Ld. replace (264 + _ - 2 - 256 - 8) with (102 + (Z.of_nat (length entries) - 1) * 104) by lia. rewrite Z.mod_add by done. done.
Qed.
