(* ===== verification/TrustSamples.v ===== *)
(** * A trust store to search

    A configuration, a clock and a signed store of two entries, with SHA-256 of
    FIPS 180-4, for the witnesses. *)

From S2P Require Import Prelude MemState TlsHash Sha256Ref TlsKdf Rsa RsaCorrect TlsSamples HelloCorrect HandshakeSamples AppConfig ConfigCorrect Truststore TrustCorrect.

(** Dates and owners are checked; the clock is one hour ahead of UTC. *)
Definition the_config : lwip_app_config :=
  mk_config 2 0x8000 0x60 0 60 0 0 [192; 168; 1; 2] [192; 168; 1; 1] [255; 255; 255; 0].
Lemma the_config_ok : config_ok the_config.
Proof. red. cbn. unfold ipv4_ok. split_and!; try lia; try done; apply bytes_test_ok; done. Qed.
Definition no_config : cfg_state := mk_cfg lwip_app_config_defaults false.

Lemma config_load_exact_witness :
  lwip_app_config_load (Some (appvar (enc the_config))) = Some (true, the_config) /\
  lwip_app_config_load (Some (appvar (enc (mk_config_v1 1 0x4000 1 0 (zeros 4) (zeros 4) (zeros 4))))) =
    Some (true, mk_config 2 0x4000 1 0 0 0 0 (zeros 4) (zeros 4) (zeros 4)) /\
  exists b c, lwip_app_config_load (Some (appvar [1; 2; 3])) = Some (b, c) /\ config_ok c /\ cfg_version c = 2.
Proof.
  split; [|split].
  - apply (config_load_exact (enc the_config)); [apply enc_bytes, the_config_ok|done|].
    econstructor 1; [exact the_config_ok|done|by rewrite app_nil_r].
  - set (c := mk_config_v1 1 0x4000 1 0 (zeros 4) (zeros 4) (zeros 4)).
    assert (config_v1_ok c) as Hc.
    { red. cbn. unfold ipv4_ok. split_and!; try lia; try done; apply bytes_test_ok; done. }
    apply (config_load_exact (enc c)); [by apply enc_bytes|done|].
    apply (denotes_v1 (enc c) c []); [done|done|by rewrite app_nil_r].
  - apply (config_load_exact [1; 2; 3]); [by apply bytes_test_ok|done].
Defined.

Lemma saved_config_loaded_witness : exists v,
  lwip_app_config_save true true the_config None = (true, v) /\
  lwip_app_config_refresh v = Some (true, mk_cfg the_config true) /\ lwip_app_config_get v no_config = Some (mk_cfg the_config true).
Proof.
  destruct (saved_config_loaded the_config None no_config the_config_ok eq_refl eq_refl) as (v&Hs&Hr&Hg&_). by exists v.
Defined.

(** ** The clock *)

(** 29 February 2024, 12:34:56, in a zone one hour east. *)
Definition the_rtc : rtc_time := mk_rtc 29 2 2024 56 34 12.
Definition the_header : tls_truststore_header := mk_header 1700000000 2 0.
Definition pin (owner : bytes) (from upto : Z) (h : Z) : tls_spki_entry :=
  mk_entry (padded owner) (padded (str "Some CA")) from upto (replicate 32 h).
Definition the_entries : list tls_spki_entry :=
  [pin (str "old.example") 1600000000 1650000000 1; pin (str "ftp.example") 1700000000 1800000000 2].
Definition the_body : bytes := concat (enc <$> the_entries).
Definition the_signed : bytes := enc the_header ++ the_body.
Definition the_store : store_image := mk_image (zeros 256) the_header the_body [].
Definition the_opened : bytes := Eval vm_compute in PSS_encode (St := bytes) (sha256 the_signed) (zeros 32) 256.
(** An exponentiation that opens the signature of the store. *)
Definition the_powmod (size : Z) (base : bytes) (exp : Z) (key : bytes) : bytes :=
  if decide (length base = 256%nat) then the_opened else zeros (Z.of_nat (length base)).
Definition the_env : env := mk_env (Some (appvar (enc the_config))) (Some (image the_store)) the_rtc.

Lemma the_powmod_ok : powmod_in_place the_powmod.
Proof.
  intros size base exp key. unfold the_powmod. destruct (decide _) as [->|].
  - split; [vm_compute; reflexivity|apply bytes_test_ok; vm_compute; reflexivity].
  - unfold zeros. rewrite length_replicate, Nat2Z.id. split; [done|]. by apply Forall_replicate.
Qed.
Lemma the_store_ok : image_ok the_store.
Proof. split; [done|red; cbn; lia|vm_compute; reflexivity]. Qed.
Lemma the_entries_ok : Forall entry_ok the_entries.
Proof.
  assert (forall o a b h, bytes32 (padded o) -> is_byte h -> 0 <= a < 4294967296 -> 0 <= b < 4294967296 -> entry_ok (pin o a b h)) as Hp.
  { intros o a b h Ho Hh Ha Hb. unfold entry_ok, pin. cbn [owner_id issuer_id not_before not_after spki_hash].
    split; [done|]. split; [split; [done|by apply bytes_test_ok]|]. split; [done|]. split; [done|]. split; [done|by apply Forall_replicate]. }
  apply Forall_cons; split; [|apply Forall_cons; split; [|by apply Forall_nil]];
    (apply Hp; [split; [done|by apply bytes_test_ok]|done|lia|lia]).
Qed.
Lemma the_config_loaded : lwip_app_config_get (cfg_var the_env) no_config = Some (mk_cfg the_config true).
Proof. reflexivity. Qed.

Lemma utc_is_gregorian_witness :
  tls_truststore_get_utc the_env no_config = Some (Some (1709210096 - 3600), mk_cfg the_config true).
Proof.
  rewrite (utc_is_gregorian the_env no_config (mk_cfg the_config true)); [reflexivity|red; cbn; lia|exact the_config_loaded|exact the_config_ok].
Defined.

(** ** The store *)

Lemma the_store_signed : signature_valid (St := bytes) the_powmod the_store.
Proof. exists (zeros 32). split; [reflexivity|]. vm_compute. reflexivity. Qed.


Lemma id_string (s : bytes) : bool_decide (Forall (fun x => x <> 0) s) = true -> bool_decide (length s < 32)%nat = true ->
  c_string (s ++ [0]) s.
Proof. intros H1 H2. split; [by apply bool_decide_eq_true in H1|]. right. split; [by apply bool_decide_eq_true in H2|by exists []]. Qed.

(** The server's own entry is found; its hash is in the store once. *)
Lemma pin_lookup_exact_witness : exists ctx' s',
  tls_truststore_init (St := bytes) the_powmod the_env sample_tls = Some (true, ctx') /\
  tls_truststore_lookup_ex the_env (Some (replicate 32 2)) (Some (str "ftp.example" ++ [0])) (Some (str "Some CA" ++ [0]))
    (ctx', no_config, Some (zeros 104)) = Some (true, s').
Proof.
  destruct (init_image (St := bytes) the_powmod the_env sample_tls the_store the_powmod_ok eq_refl the_store_ok sample_ready)
    as (b&ctx'&Hi&Hb&_).
  assert (b = true) as -> by (apply Hb; split; [reflexivity|exact the_store_signed]).
  destruct (pin_lookup_exact (St := bytes) the_powmod the_env the_store the_entries sample_tls ctx' ctx' no_config (mk_cfg the_config true)
    (replicate 32 2) (Some (str "ftp.example" ++ [0])) (Some (str "Some CA" ++ [0]))
    (Some (str "ftp.example")) (Some (str "Some CA")) (Some (zeros 104))) as (b&s'&E&_&Hiff);
    [exact the_powmod_ok|reflexivity|exact the_store_ok|exact sample_ready|exact Hi|reflexivity|reflexivity|exact the_entries_ok|
     reflexivity|exact the_config_loaded|exact the_config_ok|red; cbn; lia|vm_compute; discriminate|reflexivity|
     exact (id_string (str "ftp.example") eq_refl eq_refl)|exact (id_string (str "Some CA") eq_refl eq_refl)|exact (Nat.le_refl 104)|].
  assert (b = true) as ->.
  { apply Hiff.
    - intros e1 e2 [<-|[<-|[]]] [<-|[<-|[]]] H1 H2; solve [reflexivity|discriminate H1|discriminate H2].
    - exists (pin (str "ftp.example") 1700000000 1800000000 2). split; [right; left; reflexivity|]. split; [reflexivity|].
      vm_compute. reflexivity. }
  exists ctx', s'. split; [exact Hi|exact E].
Defined.
