(* ===== verification/CertCorrect.v ===== *)
(** * Elements of a tree, as a schema sees them

    The decoder with a schema, on memory that holds a tree, is a function of the
    tree alone: of the list of its elements, each a tag, a depth and contents.
    [next_on] is that function, with its four ways to go on (a match, a search, an
    optional element that is absent, a mismatch), and [next_refines] the
    refinement, with the turns of the search counted. *)

From S2P Require Import Prelude MemState Base64 TlsHash Rsa RsaCorrect Asn1 Asn1Correct KeyObject KeyCorrect.

(** An element: its tag, its depth and its contents. *)
Record element := mk_el { el_tag : Z; el_depth : Z; el_content : bytes }.

(** What is written for an element: nothing, an absent element, or one with its
    tag and the bytes found. *)
Inductive written := W_none | W_absent | W_got (tag : Z) (c : bytes).

Definition wanted (sc : tls_asn1_schema) (e : element) : bool :=
  (sc_depth sc =? el_depth e) && ((sc_tag sc =? el_tag e) || (sc_allow_null sc && (el_tag e =? ASN1_NULL))).
Definition output_of (sc : tls_asn1_schema) (e : element) : written :=
  if sc_output sc then W_got (el_tag e) (if sc_raw_output sc then tlv (el_tag e) (el_content e) else el_content e) else W_none.

(** One call, on the elements that are left. *)
Fixpoint next_on (sc : tls_asn1_schema) (els : list element) : option (bool * written * list element) :=
  match els with
  | [] => None
  | e :: els' =>
      if wanted sc e then Some (true, output_of sc e, els')
      else if bool_decide (sc_mode sc = ASN1_SEEK) then next_on sc els'
      else if sc_optional sc then Some (true, W_absent, els) else Some (false, W_none, els)
  end.

Lemma next_on_seek sc skip e els : sc_mode sc = ASN1_SEEK -> Forall (fun x => wanted sc x = false) skip -> wanted sc e = true ->
  next_on sc (skip ++ e :: els) = Some (true, output_of sc e, els).
Proof.
  intros Hm HF He. induction HF as [|x skip Hx HF IH]; cbn [app next_on]; [by rewrite He|]. rewrite Hx. by rewrite bool_decide_true.
Qed.

Section Reads.
Context (mem : bytes).

(** The context is in front of these elements. *)
Inductive reads : decoder -> list element -> Prop :=
| reads_nil ctx : reads ctx []
| reads_cons ctx d off nx tag c pre post els : pops ctx d off nx -> (d = 0 -> ctx_depth ctx = 0) ->
    mem = pre ++ tlv tag c ++ post -> off = Z.of_nat (length pre) -> off + Z.of_nat (length (tlv tag c)) <= nx ->
    tag_ok tag -> Z.of_nat (length c) < 16777216 -> (tls_asn1_getform tag <> 0 -> d + 1 < 16) ->
    reads (after_tlv ctx d off nx tag c) els -> reads ctx (mk_el tag d c :: els).

Lemma after_depth ctx d off nx tag c : d <= ctx_depth (after_tlv ctx d off nx tag c) <= d + 1.
Proof. unfold after_tlv. destruct (_ =? 0); cbn; lia. Qed.

(** The contents a field is given. *)
Definition is_written (it : option item) (w : written) : Prop :=
  match w with
  | W_none => it = None
  | W_absent => it = Some (mk_item 0 None 0 255)
  | W_got tag c => exists x, it = Some x /\ it_tag x = tag /\ located mem x c
  end.

Lemma output_written sc pre tag c post d : mem = pre ++ tlv tag c ++ post -> Z.of_nat (length (tlv tag c)) < 16777216 ->
  let cur := Z.of_nat (length pre) + tlv_header (Z.of_nat (length c)) in
  is_written (if sc_output sc then
      Some (if sc_raw_output sc then mk_item tag (Some (Z.of_nat (length pre))) (u24 (cur - Z.of_nat (length pre) + Z.of_nat (length c))) d
            else mk_item tag (Some cur) (Z.of_nat (length c)) d) else None)
    (output_of sc (mk_el tag d c)).
Proof.
  intros E Hl cur. unfold output_of. cbn [el_tag el_content]. destruct (sc_output sc); [|done]. cbn [is_written]. eexists. split; [done|].
  destruct (sc_raw_output sc); (split; [done|]); [|by apply (tlv_located mem pre tag c post)].
  pose proof (length_tlv tag c) as Hn. unfold cur. replace (_ - _ + _) with (Z.of_nat (length (tlv tag c))) by lia.
  exists (Z.of_nat (length pre)). cbn [it_data it_len]. rewrite u24_small by lia. rewrite E. split; [done|]. split; [done|]. apply rd_at_app.
Qed.

(** One turn at the level of the element. *)
Lemma turn_element sc ctx d off nx tag c pre post : length (ctx_nodes ctx) = 16%nat -> ctx_depth ctx = d -> 0 <= d < 16 ->
  node_at ctx d = Some (mk_node off nx) -> mem = pre ++ tlv tag c ++ post -> off = Z.of_nat (length pre) ->
  off + Z.of_nat (length (tlv tag c)) <= nx -> tag_ok tag -> Z.of_nat (length (tlv tag c)) < 16777216 ->
  (tls_asn1_getform tag <> 0 -> d + 1 < 16) ->
  let e := mk_el tag d c in let ctx' := after_tlv ctx d off nx tag c in
  if wanted sc e then exists it, decode_turn mem (Some sc) ctx = Some (T_return true it ctx') /\ is_written it (output_of sc e)
  else if bool_decide (sc_mode sc = ASN1_SEEK) then decode_turn mem (Some sc) ctx = Some (T_restart ctx')
  else decode_turn mem (Some sc) ctx =
    Some (if sc_optional sc then T_return true (Some (mk_item 0 None 0 255)) ctx else T_return false None ctx).
Proof.
  intros Hl Hcd Hd Hn E Eoff Hnx Ht Hc Hform e ctx'. pose proof (length_tlv tag c). pose proof (len_bytes_bound (Z.of_nat (length c))).
  rewrite (turn_judged mem (Some sc) ctx d off nx tag c pre post) by (done || unfold tlv_header in *; lia).
  unfold judged, wanted. cbn [el_tag el_depth e]. rewrite Hcd. set (cur := off + tlv_header (Z.of_nat (length c))).
  assert (exists it, found (Some sc) off tag cur (Z.of_nat (length c)) ctx = Some (T_return true it ctx') /\ is_written it (output_of sc e)) as Hf.
  { pose proof (output_written sc pre tag c post d E Hc) as Ho. cbn zeta in Ho. rewrite <- Eoff in Ho. fold cur in Ho.
    unfold found. rewrite Hcd. unfold cur. rewrite (seek_next_ok (Some sc) true _ ctx d off nx tag c) by done. fold cur.
    eexists. split; [reflexivity|exact Ho]. }
  destruct (Z.eqb_spec (sc_depth sc) d) as [Hsd|Hsd]; cbn [negb andb]; rewrite ?andb_false_r, ?orb_true_r, ?orb_false_r, ?andb_true_r.
  - destruct (sc_tag sc =? tag); cbn [negb orb]; [done|]. destruct (sc_allow_null sc && (tag =? ASN1_NULL)); [done|].
    destruct (bool_decide (sc_mode sc = ASN1_SEEK)) eqn:Em; [|by destruct (sc_optional sc)].
    unfold cur. rewrite (seek_next_ok (Some sc) false None ctx d off nx tag c) by done. by rewrite Em.
  - destruct (bool_decide (sc_mode sc = ASN1_SEEK)) eqn:Em; [|by destruct (sc_optional sc)].
    unfold cur. rewrite (seek_next_ok (Some sc) false None ctx d off nx tag c) by done. by rewrite Em.
Qed.

(** Levels that are finished are left, one turn each. *)
Lemma leave_levels schema ctx d off nx x fuel : pops ctx d off nx -> (d = 0 -> ctx_depth ctx = 0) -> get8 mem off = Some x -> x <> 0 ->
  next_loop mem (Z.to_nat (ctx_depth ctx - d) + fuel) schema ctx = next_loop mem fuel schema (set_depth d ctx).
Proof.
  intros Hp H0 Hx Hne. pose proof (po_depth _ _ _ _ Hp). destruct (decide (d = 0)) as [->|].
  - destruct ctx as [depth nodes]. cbn in H0 |- *. by rewrite (H0 eq_refl).
  - apply (loop_pops mem schema d off nx x); try done; lia.
Qed.

Lemma pops_leave ctx d off nx : pops ctx d off nx -> pops (set_depth d ctx) d off nx.
Proof. intros [H1 H2 H3 H4 H5]. split; cbn; try done; try lia. Qed.

(** Fewer than 2^24 bytes of memory; so every element is that short. *)
Context (Hmem : Z.of_nat (length mem) < 16777216).

Lemma loop_refines sc : forall els ctx fuel r w els', reads ctx els -> next_on sc els = Some (r, w, els') ->
  (Z.to_nat (ctx_depth ctx) + 2 * length els <= fuel)%nat -> exists it ctx',
  next_loop mem fuel (Some sc) ctx = Some (r, it, ctx') /\ is_written it w /\ reads ctx' els'.
Proof.
  induction els as [|e els IH]; intros ctx fuel r w els' Hr Hn Hf; [done|].
  inversion Hr as [|? d off nx tag c pre post ? Hp H0 E Eoff Hnx Ht Hc Hform Hr']; subst e els0 ctx0.
  pose proof Hp as [G1 G2 G3 G4 G5]. cbn [length] in Hf.
  assert (get8 mem off = Some tag) as Hx by (rewrite Eoff, E; unfold tlv; cbn [app]; apply get8_app).
  assert (exists f, (fuel = Z.to_nat (ctx_depth ctx - d) + S f /\ Z.to_nat d + 1 + 2 * length els <= f)%nat) as (f&->&Hf')
    by (exists (fuel - Z.to_nat (ctx_depth ctx - d) - 1)%nat; lia).
  rewrite (leave_levels _ _ _ _ _ _ _ Hp H0 Hx) by (unfold tag_ok in Ht; lia). cbn [next_loop].
  assert (Z.of_nat (length (tlv tag c)) < 16777216) as Hs by (rewrite E, !length_app in Hmem; lia).
  pose proof (turn_element sc (set_depth d ctx) d off nx tag c pre post G3 eq_refl ltac:(lia) G4 E Eoff Hnx Ht Hs Hform) as HT.
  cbn zeta in HT. cbn [next_on] in Hn. change (after_tlv (set_depth d ctx) d off nx tag c) with (after_tlv ctx d off nx tag c) in HT.
  destruct (wanted sc (mk_el tag d c)).
  - destruct HT as (it&->&Hw). injection Hn as <- <- <-. eexists _, _. by split_and!.
  - destruct (bool_decide _); rewrite HT; cbn [mbind option_bind].
    + apply IH; [done|done|]. pose proof (after_depth ctx d off nx tag c). lia.
    + assert (reads (set_depth d ctx) (mk_el tag d c :: els)) as Hr2.
      { apply (reads_cons (set_depth d ctx) d off nx tag c pre post els); try done. by apply pops_leave. }
      destruct (sc_optional sc); injection Hn as <- <- <-; by eexists _, _.
Qed.

(** A call of [tls_asn1_decode_next] with a schema sees a tree as the list of
    its elements. *)
Lemma next_refines sc els ctx r w els' : reads ctx els -> next_on sc els = Some (r, w, els') ->
  (2 * length els <= length mem)%nat -> exists it ctx',
  tls_asn1_decode_next mem (Some sc) ctx = Some (r, it, ctx') /\ is_written it w /\ reads ctx' els'.
Proof.
  intros Hr Hn Hl. apply (loop_refines sc els); [done|done|].
  assert (Z.to_nat (ctx_depth ctx) <= 16)%nat by (destruct Hr as [|? ? ? ? ? ? ? ? ? [? ? ? ? ?]]; [done|lia]). lia.
Qed.
End Reads.

(** ** The elements of a tree *)

Fixpoint elements (t : asn1) (d : Z) : list element :=
  mk_el (tag_of t) d (content t) ::
  match t with Prim _ _ => [] | Cons _ l => concat (map (fun u => elements u (d + 1)) l) end.

Lemma elements_short t : forall d, (2 * length (elements t d) <= length (der t))%nat.
Proof.
  induction t as [tag c|tag l IH] using asn1_induction; intros d; cbn [elements der length]; unfold tlv; cbn [length];
    rewrite length_app; [pose proof (len_bytes_bound (Z.of_nat (length c)))|pose proof (len_bytes_bound (Z.of_nat (length (concat (map der l)))))].
  - lia.
  - enough (2 * length (concat (map (fun u => elements u (d + 1)) l)) <= length (concat (map der l)))%nat by lia.
    clear H. induction IH as [|u l Hu Hl IHl]; cbn [map concat]; [done|]. rewrite !length_app. specialize (Hu (d + 1)). lia.
Qed.

Section Tree.
Context (mem : bytes).

(** Behind the elements of a tree come those that follow it. *)
Definition tree_reads (t : asn1) : Prop := forall ctx d off nx pre post els, wf d t -> pops ctx d off nx ->
  (d = 0 -> ctx_depth ctx = 0) -> mem = pre ++ der t ++ post -> off = Z.of_nat (length pre) ->
  off + Z.of_nat (length (der t)) <= nx ->
  (forall ctx', pops ctx' d (off + Z.of_nat (length (der t))) nx -> (forall j, 0 <= j < d -> node_at ctx' j = node_at ctx j) ->
     reads mem ctx' els) -> reads mem ctx (elements t d ++ els).

Lemma reads_forest l d nx : Forall tree_reads l -> Forall (wf d) l -> 0 < d -> forall ctx off pre post els,
  pops ctx d off nx -> mem = pre ++ concat (map der l) ++ post -> off = Z.of_nat (length pre) ->
  off + Z.of_nat (length (concat (map der l))) <= nx ->
  (forall ctx', pops ctx' d (off + Z.of_nat (length (concat (map der l)))) nx ->
     (forall j, 0 <= j < d -> node_at ctx' j = node_at ctx j) -> reads mem ctx' els) ->
  reads mem ctx (concat (map (fun u => elements u d) l) ++ els).
Proof.
  intros HW HF Hd. induction HW as [|t l Ht HW IH]; intros ctx off pre post els Hp E Eoff Hnx Hk; cbn [map concat] in *.
  { apply Hk; [|done]. by rewrite Z.add_0_r. }
  apply Forall_cons in HF as [Hwt HF]. rewrite length_app in Hnx. rewrite <- app_assoc in E |- *.
  apply (Ht ctx d off nx pre (concat (map der l) ++ post)); [done|done|lia|done|done|lia|]. intros c1 Hp1 Hj1.
  apply (IH HF c1 (off + Z.of_nat (length (der t))) (pre ++ der t) post); [done|by rewrite <- app_assoc|rewrite length_app; lia|lia|].
  intros c2 Hp2 Hj2. apply Hk; [by rewrite length_app, Nat2Z.inj_add, Z.add_assoc|]. intros j Hj. by rewrite Hj2, Hj1.
Qed.

Lemma reads_tree t : tree_reads t.
Proof.
  induction t as [tag c|tag l IHl] using asn1_induction; intros ctx d off nx pre post els Hwf Hp H0 E Eoff Hnx Hk.
  - inversion_clear Hwf as [? ? ? Ht Hf Hc|]. cbn [elements app der content tag_of] in *.
    destruct (after_prim ctx d off nx tag c Hp Hf) as [Hp' Hj]. apply (reads_cons mem ctx d off nx tag c pre post); try done.
    by apply Hk.
  - inversion_clear Hwf as [|? ? ? Ht Hf Hc Hd HF]. rewrite der_tlv in *. cbn [elements app tag_of content] in *.
    set (c := concat (map der l)) in *. destruct (after_cons ctx d off nx tag c Hp Hf Hd) as (Hp1&Hn1&Hj1).
    pose proof (length_tlv tag c) as Hlen. apply (reads_cons mem ctx d off nx tag c pre post); try done.
    apply (reads_forest l (d + 1) (off + Z.of_nat (length (tlv tag c))) IHl HF ltac:(pose proof (po_depth _ _ _ _ Hp); lia)
      (after_tlv ctx d off nx tag c) (off + tlv_header (Z.of_nat (length c))) (pre ++ tag :: len_bytes (Z.of_nat (length c))) post).
    + exact Hp1.
    + rewrite E. unfold tlv. fold c. rewrite <- app_assoc. cbn [app]. by rewrite <- app_assoc.
    + rewrite length_app. unfold tlv_header. cbn [length]. lia.
    + fold c. lia.
    + intros c2 Hp2 Hj2. fold c in Hp2.
      replace (off + tlv_header (Z.of_nat (length c)) + Z.of_nat (length c)) with (off + Z.of_nat (length (tlv tag c))) in Hp2 by lia.
      pose proof (po_depth _ _ _ _ Hp). apply Hk; [|intros j Hj; by rewrite Hj2, Hj1 by lia].
      destruct Hp2 as [G1 G2 G3 G4 G5]. split; [lia|done|done|rewrite Hj2 by lia; exact Hn1|].
      intros j Hj. destruct (decide (j = d + 1)) as [->|]; [exact G4|]. apply G5. lia.
Qed.
End Tree.

(** A decoder at the start of an array that is a tree. *)
Lemma reads_file t : wf 0 t -> exists ctx,
  tls_asn1_decoder_init 0 (Z.of_nat (length (der t))) = Some ctx /\ reads (der t) ctx (elements t 0).
Proof.
  intros Hwf. assert (0 < length (der t))%nat by (rewrite der_tlv; cbn; lia). unfold tls_asn1_decoder_init.
  rewrite (proj2 (Z.eqb_neq _ _)) by lia. eexists. split; [reflexivity|].
  rewrite <- (app_nil_r (elements t 0)).
  apply (reads_tree (der t) t _ 0 0 (Z.of_nat (length (der t))) [] []); try done; [|by rewrite app_nil_r|intros; constructor].
  split; cbn; try done. intros; lia.
Qed.

(** ** Certificates: correctness

    The loop of [tls_keyobject_import_certificate] over the certificate schema, as
    a function of the elements of the certificate ([fields_on]), and what it comes
    to on the certificates of RFC 5280 with a common name in issuer and subject:
    each field of the object lies where that part of the certificate is. *)

(** ** Fields *)

Record field_value := mk_fv { fv_name : option string; fv_tag : Z; fv_data : option bytes }.
Definition blank_fv : field_value := mk_fv None 0 None.
Definition is_field (mem : bytes) (s : serialization) (v : field_value) : Prop :=
  ser_name s = fv_name v /\ ser_tag s = fv_tag v /\
  match fv_data v with None => ser_len s = 0 /\ ser_data s = None | Some c => holds mem s c end.
Definition put (w : written) (v : field_value) : field_value :=
  match w with
  | W_none => v
  | W_absent => mk_fv (fv_name v) 0 None
  | W_got tag c => mk_fv (fv_name v) tag (Some c)
  end.
Definition named (name : string) (v : field_value) : field_value := mk_fv (Some name) (fv_tag v) (fv_data v).

Lemma alter_insert_at {A} (f : A -> A) (l : list A) v : forall k, l !! k = Some v -> alter f k l = <[k := f v]> l.
Proof.
  induction l as [|x l IH]; intros [|k] H; [done|done|by injection H as ->|]. change (x :: alter f k l = x :: <[k := f v]> l).
  f_equal. by apply IH.
Qed.

(** Comparisons of a field with a table stop at the first difference. *)
Lemma memcmp_in n c : forall pre post i table j b, memcmp_eq n c i table j = Some b ->
  0 <= i -> memcmp_eq n (pre ++ c ++ post) (Z.of_nat (length pre) + i) table j = Some b.
Proof.
  induction n as [|n IH]; intros pre post i table j b; cbn [memcmp_eq]; [done|]. intros H Hi.
  destruct (get8 c i) as [x|] eqn:Ex; [|done]. assert (get8 (pre ++ c ++ post) (Z.of_nat (length pre) + i) = Some x) as ->.
  { unfold get8 in *. destruct (Z.ltb_spec i 0); [lia|]. destruct (Z.ltb_spec (Z.of_nat (length pre) + i) 0); [lia|].
    rewrite lookup_app_r by lia. replace (Z.to_nat _ - length pre)%nat with (Z.to_nat i) by lia. by apply lookup_app_l_Some. }
  cbn [mbind option_bind] in *. destruct (get8 table j) as [y|]; [|done]. cbn [mbind option_bind] in *.
  destruct (x =? y); [|done]. rewrite <- Z.add_assoc. apply IH; [done|lia].
Qed.

Section Loop.
Context (mem : bytes) (Hmem : Z.of_nat (length mem) < 16777216).

Lemma field_at t vs k : Forall2 (is_field mem) t vs -> (k < length vs)%nat -> exists s v,
  t !! k = Some s /\ vs !! k = Some v /\ is_field mem s v.
Proof.
  intros HF Hk. destruct (lookup_lt_is_Some_2 _ _ Hk) as [v Hv]. destruct (Forall2_lookup_r _ _ _ _ _ HF Hv) as (s&Hs&Hsv). by exists s, v.
Qed.
Lemma fields_alter t vs k s v f : Forall2 (is_field mem) t vs -> vs !! k = Some v -> is_field mem s (f v) ->
  Forall2 (is_field mem) (<[k := s]> t) (alter f k vs).
Proof.
  intros HF Hv Hs. rewrite (alter_insert_at f vs v k Hv). by apply Forall2_insert.
Qed.

Lemma write_item_ok t vs k it w : Forall2 (is_field mem) t vs -> (k < length vs)%nat -> is_written mem it w -> exists t',
  write_item t (Z.of_nat k) it = Some t' /\ Forall2 (is_field mem) t' (alter (put w) k vs).
Proof.
  intros HF Hk Hw. destruct (field_at _ _ _ HF Hk) as (s&v&Hs&Hv&Hn&_). destruct w as [| |tag c]; cbn [is_written] in Hw.
  - subst it. exists t. split; [done|]. by replace (alter (put W_none) k vs) with vs by (symmetry; by apply list_alter_id).
  - subst it. cbn [write_item]. rewrite (proj2 (Z.ltb_ge _ 0)), Nat2Z.id, Hs by lia. eexists. split; [done|].
    by apply (fields_alter _ _ _ _ v).
  - destruct Hw as (x&->&Ht&Hl). cbn [write_item]. rewrite (proj2 (Z.ltb_ge _ 0)), Nat2Z.id, Hs by lia. eexists. split; [done|].
    apply (fields_alter _ _ _ _ v); [done|done|]. by split_and!.
Qed.
Lemma write_name_ok t vs k name : Forall2 (is_field mem) t vs -> (k < length vs)%nat -> exists t',
  write_name true t (Z.of_nat k) name = Some t' /\ Forall2 (is_field mem) t' (alter (named name) k vs).
Proof.
  intros HF Hk. destruct (field_at _ _ _ HF Hk) as (s&v&Hs&Hv&Hf). cbn [write_name].
  rewrite (proj2 (Z.ltb_ge _ 0)), Nat2Z.id, Hs by lia. eexists. split; [done|]. apply (fields_alter _ _ _ _ v); [done|done|].
  destruct Hf as (_&Ht&Hd). by split_and!.
Qed.

Lemma field_eq_in s c n table j b : holds mem s c -> memcmp_eq (Z.to_nat n) c 0 table j = Some b ->
  field_eq mem s n table j = Some b.
Proof.
  intros (p&Hp&_&Hr) H. unfold field_eq. rewrite Hp. destruct (rd_at_split _ _ _ _ Hr) as (pre&post&E&->). rewrite E.
  rewrite <- (Z.add_0_r (Z.of_nat (length pre))). by apply memcmp_in.
Qed.
Lemma oid_in s c oid b : holds mem s c -> memcmp_eq (length c) c 0 tls_objectid_bytes (10 * oid) = Some b ->
  oid_is mem s oid = Some b.
Proof. intros Hs H. unfold oid_is. apply (field_eq_in _ c); [done|]. destruct Hs as (p&_&->&_). by rewrite Nat2Z.id. Qed.

(** ** The loop *)

(** Elements up to an object identifier that passes for that of a common name. *)
Fixpoint cn_on (fuel : nat) (sc : tls_asn1_schema) (els : list element) (vs : list field_value) (k : nat) :
    option (list element * list field_value) :=
  match fuel with
  | O => None
  | S fuel' =>
      match next_on sc els with
      | Some (true, w, els') =>
          let vs := alter (put w) k vs in
          match vs !! k with
          | Some (mk_fv _ _ (Some c)) =>
              match memcmp_eq (length c) c 0 common_name_oid 0 with
              | Some true => Some (els', vs)
              | Some false => cn_on fuel' sc els' vs k
              | None => None
              end
          | _ => None
          end
      | _ => None
      end
  end.

Fixpoint fields_on (fuel n i : nat) (els : list element) (vs : list field_value) (k : nat) : option (list field_value) :=
  match tls_x509_cert_schema !! i with
  | None => Some vs
  | Some sc =>
      match fuel with
      | O => None
      | S fuel' =>
          if (length vs <=? k)%nat then None
          else if (i =? 1)%nat || (i =? 9)%nat then
            r ← cn_on n sc els vs k; fields_on fuel' n (S i) r.1 r.2 k
          else
            match next_on sc els with
            | Some (true, w, els') =>
                let vs := alter (put w) k vs in
                let i := if (i =? 4)%nat || (i =? 6)%nat then S i else i in
                sc ← tls_x509_cert_schema !! i;
                if sc_output sc then fields_on fuel' n (S i) els' (alter (named (sc_name sc)) k vs) (S k)
                else fields_on fuel' n (S i) els' vs k
            | Some (false, _, els') =>
                if ((4 <=? i) && (i <=? 7))%nat then fields_on fuel' n (S i) els' vs k else None
            | None => None
            end
      end
  end.

Lemma next_on_length sc els r w els' : next_on sc els = Some (r, w, els') -> (length els' <= length els)%nat.
Proof.
  induction els as [|e els IH]; cbn [next_on]; [done|]. destruct (wanted sc e); [intros [= <- <- <-]; cbn; lia|].
  destruct (bool_decide _); [intros H%IH; cbn; lia|]. by destruct (sc_optional sc); intros [= <- <- <-].
Qed.
Lemma fits_next sc els ctx r w els' : reads mem ctx els -> (2 * length els <= length mem)%nat -> next_on sc els = Some (r, w, els') ->
  (2 * length els' <= length mem)%nat /\ exists it ctx',
  tls_asn1_decode_next mem (Some sc) ctx = Some (r, it, ctx') /\ is_written mem it w /\ reads mem ctx' els'.
Proof. intros Hr Hl Hn. split; [pose proof (next_on_length _ _ _ _ _ Hn); lia|]. by apply (next_refines mem Hmem sc els). Qed.

Lemma cn_refines sc k : forall fuel els vs els' vs' ctx t, cn_on fuel sc els vs k = Some (els', vs') -> reads mem ctx els ->
  (2 * length els <= length mem)%nat -> Forall2 (is_field mem) t vs -> (k < length vs)%nat -> exists ctx' t',
  seek_common_name fuel mem sc ctx t (Z.of_nat k) = Some (Some (ctx', t')) /\ reads mem ctx' els' /\
  (2 * length els' <= length mem)%nat /\ Forall2 (is_field mem) t' vs' /\ length vs' = length vs.
Proof.
  induction fuel as [|fuel IH]; intros els vs els' vs' ctx t; cbn [cn_on seek_common_name]; [done|].
  destruct (next_on sc els) as [[[[] w] rest]|] eqn:En; [|done|done]. intros H Hr Hl HF Hk.
  destruct (fits_next _ _ _ _ _ _ Hr Hl En) as (Hl'&it&c1&->&Hw&Hr'). cbn [mbind option_bind negb].
  destruct (write_item_ok _ _ _ _ _ HF Hk Hw) as (t1&->&HF1). cbn [mbind option_bind].
  set (vs1 := alter (put w) k vs) in *. assert (length vs1 = length vs) as Lv by apply length_alter.
  destruct (field_at t1 vs1 k HF1 ltac:(lia)) as (s&v&Hs&Hv&Hsv).
  assert (ser_at t1 (Z.to_nat (Z.of_nat k)) = s) as -> by (unfold ser_at; by rewrite Nat2Z.id, Hs).
  rewrite Hv in H. destruct v as [nm tg [c|]]; [|done]. destruct Hsv as (_&_&Hh). cbn [fv_data] in Hh.
  destruct (memcmp_eq (length c) c 0 common_name_oid 0) as [b|] eqn:Em; [|done].
  rewrite (field_eq_in s c (ser_len s) common_name_oid 0 b Hh) by (destruct Hh as (p&_&->&_); by rewrite Nat2Z.id).
  cbn [mbind option_bind id]. destruct b.
  - injection H as <- <-. eexists _, _. by split_and!.
  - destruct (IH _ _ _ _ c1 t1 H Hr' Hl' HF1 ltac:(lia)) as (ctx'&t'&?&?&?&?&?). exists ctx', t'. split_and!; try done. congruence.
Qed.

Lemma fields_refine : forall fuel i els vs vs' k ctx t, fields_on fuel (S (length mem)) i els vs k = Some vs' ->
  reads mem ctx els -> (2 * length els <= length mem)%nat -> Forall2 (is_field mem) t vs -> (k + fuel < 256)%nat -> exists t',
  certificate_fields fuel mem i ctx t (Z.of_nat k) = Some (Some t') /\ Forall2 (is_field mem) t' vs'.
Proof.
  induction fuel as [|fuel IH]; intros i els vs vs' k ctx t; cbn [fields_on certificate_fields];
    (destruct (tls_x509_cert_schema !! i) as [sc|]; [|intros [= <-]; by exists t]); [done|].
  destruct (Nat.leb_spec (length vs) k) as [|Hk]; [done|]. intros H Hr Hl HF Hs. destruct ((i =? 1)%nat || (i =? 9)%nat).
  { destruct (cn_on _ sc els vs k) as [[els1 vs1]|] eqn:Ec; [|done]. cbn [mbind option_bind fst snd] in H.
    destruct (cn_refines sc k _ _ _ _ _ ctx t Ec Hr Hl HF Hk) as (c1&t1&->&Hr1&Hl1&HF1&_). cbn [mbind option_bind].
    apply (IH _ _ _ _ _ _ _ H); (done || lia). }
  destruct (next_on sc els) as [[[[] w] rest]|] eqn:En; [| |done];
    destruct (fits_next _ _ _ _ _ _ Hr Hl En) as (Hl'&it&c1&->&Hw&Hr'); cbn [mbind option_bind].
  - destruct (write_item_ok _ _ _ _ _ HF Hk Hw) as (t1&->&HF1). cbn [mbind option_bind].
    set (i' := if (i =? 4)%nat || (i =? 6)%nat then S i else i) in *. destruct (tls_x509_cert_schema !! i') as [sc'|]; [|done]. cbn [mbind option_bind] in *.
    destruct (sc_output sc'); [|apply (IH _ _ _ _ _ _ _ H); (done || lia)].
    destruct (write_name_ok _ _ k (sc_name sc') HF1) as (t2&->&HF2); [by rewrite length_alter|]. cbn [mbind option_bind].
    rewrite u8_small by lia. replace (Z.of_nat k + 1) with (Z.of_nat (S k)) by lia. apply (IH _ _ _ _ _ _ _ H); (done || lia).
  - destruct ((4 <=? i) && (i <=? 7))%nat; [|done]. apply (IH _ _ _ _ _ _ _ H); (done || lia).
Qed.
End Loop.
