(* ===== verification/CertImport.v ===== *)
(** * The import of certificates

    Certificates of RFC 5280: the trees, what the loop of the import comes to on
    their elements, and the object made of the PEM file of one. *)

From S2P Require Import Prelude MemState Base64 TlsHash Rsa RsaCorrect Asn1 Asn1Correct KeyObject KeyCorrect CertCorrect.

(** ** Certificates *)

Record attribute := mk_attr { at_type : bytes; at_tag : Z; at_value : bytes }.
(** A name with a common name in it. *)
Record dn := mk_dn { dn_before : list attribute; dn_cn : bytes; dn_after : list attribute }.
Definition attributes (n : dn) : list attribute := dn_before n ++ mk_attr common_name_oid ASN1_UTF8STRING (dn_cn n) :: dn_after n.
Definition rdn (a : attribute) : asn1 := Cons 0x31 [Cons 0x30 [Prim 6 (at_type a); Prim (at_tag a) (at_value a)]].
Definition name_tree (n : dn) : asn1 := Cons 0x30 (map rdn (attributes n)).
(** The attributes in front of the common name have other types. *)
Definition other (a : attribute) : Prop :=
  memcmp_eq (length (at_type a)) (at_type a) 0 common_name_oid 0 = Some false /\ at_tag a <> 6.

Inductive algorithm := SHA256_RSA | SHA256_ECDSA.
Definition algorithm_oid (a : algorithm) : bytes :=
  match a with
  | SHA256_RSA => [0x2A; 0x86; 0x48; 0x86; 0xF7; 0x0D; 0x01; 0x01; 0x0B]
  | SHA256_ECDSA => [0x2A; 0x86; 0x48; 0xCE; 0x3D; 0x04; 0x03; 0x02]
  end.
Definition algorithm_tree (a : algorithm) : asn1 :=
  Cons 0x30 (Prim 6 (algorithm_oid a) :: match a with SHA256_RSA => [Prim 5 []] | SHA256_ECDSA => [] end).

Inductive public_key := RSA_key (modulus exponent : bytes) | EC_key (curve point : bytes).
Definition ec_oid : bytes := [0x2A; 0x86; 0x48; 0xCE; 0x3D; 0x02; 0x01].
Definition key_bits (k : public_key) : bytes :=
  0 :: match k with RSA_key n e => der (integers [n; e]) | EC_key _ point => point end.
Definition spki (k : public_key) : asn1 :=
  Cons 0x30 [match k with RSA_key _ _ => algorithm_rsa | EC_key curve _ => Cons 0x30 [Prim 6 ec_oid; Prim 6 curve] end; Prim 3 (key_bits k)].

Inductive not_before := UTC (t : bytes) | Generalized (t : bytes).
Definition time_of (t : not_before) : bytes := match t with UTC t | Generalized t => t end.
Definition time_tag (t : not_before) : Z := match t with UTC _ => ASN1_UTCTIME | Generalized _ => ASN1_GENERALIZEDTIME end.

Record certificate := mk_cert {
  ce_version : option bytes;
  ce_serial : bytes;
  ce_alg : algorithm;
  ce_issuer : dn;
  ce_before : not_before;
  ce_after : bytes;
  ce_subject : dn;
  ce_key : public_key;
  ce_more : list asn1;
  ce_ca_alg : algorithm;
  ce_signature : bytes
}.
Definition tbs_tree (c : certificate) : asn1 :=
  Cons 0x30 (match ce_version c with Some v => [Cons 0xA0 [Prim 2 v]] | None => [] end ++
    Prim 2 (ce_serial c) :: algorithm_tree (ce_alg c) :: name_tree (ce_issuer c) ::
    Cons 0x30 [Prim (time_tag (ce_before c)) (time_of (ce_before c)); Prim ASN1_UTCTIME (ce_after c)] ::
    name_tree (ce_subject c) :: spki (ce_key c) :: ce_more c).
Definition cert_tree (c : certificate) : asn1 :=
  Cons 0x30 [tbs_tree c; algorithm_tree (ce_ca_alg c); Prim 3 (ce_signature c)].

(** ** What the loop picks *)

Definition cert_values (c : certificate) : list field_value :=
  [mk_fv (Some "algorithm"%string) 6 (Some (algorithm_oid (ce_alg c)));
   mk_fv (Some "issuerName"%string) 12 (Some (dn_cn (ce_issuer c)));
   mk_fv (Some "valid-before"%string) (time_tag (ce_before c)) (Some (time_of (ce_before c)));
   mk_fv (Some "valid-after"%string) 23 (Some (ce_after c));
   mk_fv (Some "subjectName"%string) 12 (Some (dn_cn (ce_subject c)));
   mk_fv (Some "SubjectPublicKeyInfo"%string) 0x30 (Some (der (spki (ce_key c))));
   mk_fv (Some "algorithm"%string) 6 (Some (match ce_key c with RSA_key _ _ => rsa_oid | EC_key _ _ => ec_oid end));
   match ce_key c with
   | RSA_key _ _ => mk_fv (Some "parameters"%string) 5 (Some [])
   | EC_key curve _ => mk_fv (Some "parameters"%string) 6 (Some curve)
   end;
   mk_fv (Some "subjectPublicKey"%string) 3 (Some (key_bits (ce_key c)));
   mk_fv (Some "algorithm"%string) 6 (Some (algorithm_oid (ce_ca_alg c)));
   match ce_ca_alg c with
   | SHA256_RSA => mk_fv (Some "parameters"%string) 5 (Some [])
   | SHA256_ECDSA => mk_fv (Some "parameters"%string) 0 None
   end;
   mk_fv (Some "signatureValue"%string) 3 (Some (ce_signature c))].

Definition rdn_els (l : list attribute) : list element := concat (map (fun a => elements (rdn a) 3) l).

(** A schema that looks for object identifiers at depth five. *)
Definition seeks_type (sc : tls_asn1_schema) : Prop :=
  sc_tag sc = 6 /\ sc_depth sc = 5 /\ sc_mode sc = ASN1_SEEK /\ sc_allow_null sc = false /\ sc_output sc = true /\ sc_raw_output sc = false.

Lemma seek_type sc skip a els : seeks_type sc -> Forall (fun x => wanted sc x = false) skip ->
  next_on sc (skip ++ elements (rdn a) 3 ++ els) = Some (true, W_got 6 (at_type a), mk_el (at_tag a) 5 (at_value a) :: els).
Proof.
  intros (H1&H2&H3&H4&H5&H6) HF. cbn [rdn elements map concat app tag_of content].
  set (e1 := mk_el 0x31 3 _). set (e2 := mk_el 0x30 _ _). set (rest := mk_el (at_tag a) _ _ :: els).
  pose proof (next_on_seek sc (skip ++ [e1; e2]) (mk_el 6 5 (at_type a)) rest H3) as H.
  rewrite <- app_assoc in H. cbn [app] in H. unfold output_of in H. rewrite H5, H6 in H. apply H.
  - apply Forall_app. split; [done|]. repeat constructor; unfold wanted; by rewrite H2.
  - unfold wanted. by rewrite H1, H2.
Qed.

Lemma cn_found sc n els k nm : seeks_type sc -> Forall other (dn_before n) -> forall fuel skip vs tg d,
  vs !! k = Some (mk_fv nm tg d) -> Forall (fun x => wanted sc x = false) skip -> (length (dn_before n) < fuel)%nat ->
  cn_on fuel sc (skip ++ rdn_els (attributes n) ++ els) vs k =
    Some (mk_el ASN1_UTF8STRING 5 (dn_cn n) :: rdn_els (dn_after n) ++ els, <[k := mk_fv nm 6 (Some common_name_oid)]> vs).
Proof.
  intros Hsc. unfold attributes. induction 1 as [|a l [Ha Ht] HF IH]; intros fuel skip vs tg d Hv Hskip Hf;
    (destruct fuel as [|fuel]; [cbn in Hf; lia|]); unfold rdn_els; cbn [app map concat cn_on]; rewrite <- app_assoc, (seek_type _ _ _ _ Hsc Hskip);
    rewrite (alter_insert_at _ _ _ _ Hv), list_lookup_insert_eq by (by eapply lookup_lt_Some); cbn [put fv_name].
  - done.
  - rewrite Ha. fold (rdn_els (l ++ mk_attr common_name_oid ASN1_UTF8STRING (dn_cn n) :: dn_after n)).
    rewrite (IH fuel [mk_el (at_tag a) 5 (at_value a)] _ 6 (Some (at_type a))); [by rewrite list_insert_insert_eq| | |cbn in Hf; lia].
    + rewrite list_lookup_insert_eq by (by eapply lookup_lt_Some). done.
    + repeat constructor. destruct Hsc as (H1&H2&_&H4&_). unfold wanted. cbn [el_depth el_tag].
      rewrite H1, H2, H4, Z.eqb_refl, (proj2 (Z.eqb_neq 6 _)) by auto. done.
Qed.

Lemma rdn_deep sc l : sc_depth sc = 2 -> Forall (fun x => wanted sc x = false) (rdn_els l).
Proof.
  intros H. induction l as [|a l IH]; [constructor|]. unfold rdn_els. cbn [map concat]. apply Forall_app. split; [|done].
  repeat constructor; unfold wanted; by rewrite H.
Qed.
Lemma elements_deep sc t : forall d, sc_depth sc < d -> Forall (fun x => wanted sc x = false) (elements t d).
Proof.
  induction t as [tag c|tag l IH] using asn1_induction; intros d Hd; cbn [elements];
    (constructor; [unfold wanted; cbn [el_depth]; by rewrite (proj2 (Z.eqb_neq _ _)) by lia|]); [constructor|].
  induction IH as [|u l Hu Hl IHl]; cbn [map concat]; [constructor|]. apply Forall_app. split; [|done]. apply Hu. lia.
Qed.
Lemma forest_deep sc l d : sc_depth sc < d -> Forall (fun x => wanted sc x = false) (concat (map (fun u => elements u d) l)).
Proof. intros H. induction l as [|u l IH]; cbn [map concat]; [constructor|]. apply Forall_app. split; [by apply elements_deep|done]. Qed.

(** ** The steps of the loop *)

Lemma step_match fuel n i sc sc' els w els' vs k : tls_x509_cert_schema !! i = Some sc -> (i =? 1)%nat || (i =? 9)%nat = false ->
  (k < length vs)%nat -> next_on sc els = Some (true, w, els') ->
  let i' := if (i =? 4)%nat || (i =? 6)%nat then S i else i in tls_x509_cert_schema !! i' = Some sc' ->
  fields_on (S fuel) n i els vs k =
  if sc_output sc' then fields_on fuel n (S i') els' (alter (named (sc_name sc')) k (alter (put w) k vs)) (S k)
  else fields_on fuel n (S i') els' (alter (put w) k vs) k.
Proof.
  intros Hs Hi Hk Hn i' Hs'. cbn [fields_on]. rewrite Hs, Hi, Hn, (proj2 (Nat.leb_gt _ _) Hk). fold i'. by rewrite Hs'.
Qed.
Lemma step_name fuel n i sc d skip els vs k nm tg dt : tls_x509_cert_schema !! i = Some sc -> (i =? 1)%nat || (i =? 9)%nat = true ->
  seeks_type sc -> Forall other (dn_before d) -> vs !! k = Some (mk_fv nm tg dt) -> Forall (fun x => wanted sc x = false) skip ->
  (length (dn_before d) < n)%nat ->
  fields_on (S fuel) n i (skip ++ rdn_els (attributes d) ++ els) vs k =
  fields_on fuel n (S i) (mk_el ASN1_UTF8STRING 5 (dn_cn d) :: rdn_els (dn_after d) ++ els)
    (<[k := mk_fv nm 6 (Some common_name_oid)]> vs) k.
Proof.
  intros Hs Hi Hsc HF Hv Hsk Hn. cbn [fields_on]. rewrite Hs, Hi. rewrite (proj2 (Nat.leb_gt _ _)) by (by eapply lookup_lt_Some).
  rewrite (cn_found sc d els k nm Hsc HF n skip vs tg dt Hv Hsk Hn). done.
Qed.

Record cert_ok (c : certificate) : Prop := {
  co_issuer : Forall other (dn_before (ce_issuer c));
  co_subject : Forall other (dn_before (ce_subject c));
  co_wf : wf 0 (cert_tree c)
}.

(** The elements, in the order of the loop. *)
Definition tail_els (c : certificate) : list element :=
  concat (map (fun u => elements u 2) (ce_more c)) ++ elements (algorithm_tree (ce_ca_alg c)) 1 ++ [mk_el 3 1 (ce_signature c)].
Definition subject_els (c : certificate) : list element :=
  mk_el 0x30 2 (content (name_tree (ce_subject c))) :: rdn_els (attributes (ce_subject c)) ++ elements (spki (ce_key c)) 2 ++ tail_els c.
Definition validity_els (c : certificate) : list element :=
  mk_el 0x30 2 (content (Cons 0x30 [Prim (time_tag (ce_before c)) (time_of (ce_before c)); Prim ASN1_UTCTIME (ce_after c)])) ::
  mk_el (time_tag (ce_before c)) 3 (time_of (ce_before c)) :: mk_el ASN1_UTCTIME 3 (ce_after c) :: subject_els c.
Definition issuer_els (c : certificate) : list element :=
  mk_el 0x30 2 (content (name_tree (ce_issuer c))) :: rdn_els (attributes (ce_issuer c)) ++ validity_els c.
Definition head_els (c : certificate) : list element :=
  mk_el 0x30 0 (content (cert_tree c)) :: mk_el 0x30 1 (content (tbs_tree c)) ::
  match ce_version c with Some v => elements (Cons 0xA0 [Prim 2 v]) 2 | None => [] end ++ [mk_el 2 2 (ce_serial c)].

Lemma elements_name n d : elements (name_tree n) d = mk_el 0x30 d (content (name_tree n)) :: concat (map (fun a => elements (rdn a) (d + 1)) (attributes n)).
Proof. unfold name_tree. cbn [elements tag_of]. by rewrite map_map. Qed.

Lemma cert_elements c : elements (cert_tree c) 0 = head_els c ++ elements (algorithm_tree (ce_alg c)) 2 ++ issuer_els c.
Proof.
  unfold cert_tree, head_els. cbn [elements map concat app tag_of]. cbn [Z.add Z.mul Pos.add Pos.mul]. f_equal.
  assert (forall d, elements (tbs_tree c) d = mk_el 0x30 d (content (tbs_tree c)) :: drop 1 (elements (tbs_tree c) d)) as -> by done.
  cbn [app]. f_equal. unfold tbs_tree. cbn [elements tag_of drop]. rewrite drop_0. change (0 + 1 + 1) with 2. change (1 + 1) with 2. change (0 + 1) with 1.
  unfold issuer_els, validity_els, subject_els, tail_els, rdn_els. rewrite map_app, concat_app. cbn [map concat].
  rewrite !elements_name. change (2 + 1) with 3.
  destruct (ce_version c); cbn [map concat app]; rewrite ?app_nil_r; do 4 (rewrite <- ?app_assoc; cbn [app]); reflexivity.
Qed.

(** A step of the loop, and the fields after it. *)
Ltac next_field :=
  erewrite step_match; [|reflexivity|reflexivity|cbn; lia| |reflexivity];
  [cbn [sc_output sc_name Nat.eqb orb alter list_alter replicate put named output_of sc_raw_output el_tag el_content fv_name fv_tag fv_data]|].

(** A date in the other form. *)
Lemma step_missing fuel n t els vs k : (k < length vs)%nat ->
  fields_on (S fuel) n 4 (mk_el ASN1_GENERALIZEDTIME 3 t :: els) vs k = fields_on fuel n 5 (mk_el ASN1_GENERALIZEDTIME 3 t :: els) vs k.
Proof. intros H. cbn [fields_on]. by rewrite (proj2 (Nat.leb_gt _ _) H). Qed.

Lemma spki_elements k : elements (spki k) 2 =
  [mk_el 0x30 2 (content (spki k)); mk_el 0x30 3 (match k with RSA_key _ _ => content algorithm_rsa | EC_key curve _ => content (Cons 0x30 [Prim 6 ec_oid; Prim 6 curve]) end);
   mk_el 6 4 (match k with RSA_key _ _ => rsa_oid | EC_key _ _ => ec_oid end);
   match k with RSA_key _ _ => mk_el 5 4 [] | EC_key curve _ => mk_el 6 4 curve end; mk_el 3 3 (key_bits k)].
Proof. by destruct k. Qed.

(** From the second date on. *)
Lemma run_rest c n f v0 v1 v2 : Forall other (dn_before (ce_subject c)) -> (length (dn_before (ce_subject c)) < n)%nat ->
  fields_on (13 + f) n 6 (mk_el ASN1_UTCTIME 3 (ce_after c) :: subject_els c) (v0 :: v1 :: v2 :: replicate 9 blank_fv) 3 =
  Some (v0 :: v1 :: v2 :: drop 3 (cert_values c)).
Proof.
  intros Hs Ns. cbn [Nat.add]. next_field; [|reflexivity]. unfold subject_els. next_field; [|reflexivity].
  match goal with |- fields_on _ _ _ ?l _ _ = _ => change l with ([] ++ l) end.
  erewrite step_name; [|reflexivity|reflexivity|done|exact Hs|reflexivity|constructor|exact Ns].
  cbn [insert list_insert]. next_field; [|reflexivity]. rewrite spki_elements. cbn [app].
  next_field; [|apply next_on_seek; [done|by apply rdn_deep|done]].
  next_field; [|reflexivity]. next_field; [|reflexivity]. 
  unfold cert_values, tail_els, algorithm_tree. destruct (ce_key c) as [m e|curve point]; destruct (ce_ca_alg c);
    (next_field; [|reflexivity]; next_field; [|reflexivity]; cbn [elements map concat app];
     next_field; [|apply next_on_seek; [done|by apply forest_deep|done]]; do 3 (next_field; [|reflexivity]); by destruct f).
Qed.

Lemma cert_run c n : cert_ok c -> (length (dn_before (ce_issuer c)) < n)%nat -> (length (dn_before (ce_subject c)) < n)%nat ->
  fields_on 20 n 0 (elements (cert_tree c) 0) (replicate 12 blank_fv) 0 = Some (cert_values c).
Proof.
  intros [Hi Hs Hwf] Ni Ns. rewrite cert_elements. change (replicate 12 blank_fv) with (blank_fv :: replicate 11 blank_fv).
  assert (exists skip, head_els c ++ elements (algorithm_tree (ce_alg c)) 2 ++ issuer_els c =
    skip ++ mk_el 6 3 (algorithm_oid (ce_alg c)) :: tl (tl (elements (algorithm_tree (ce_alg c)) 2)) ++ issuer_els c /\
    Forall (fun x => forall sc, tls_x509_cert_schema !! 0%nat = Some sc -> wanted sc x = false) skip) as (skip&->&Hskip).
  { exists (head_els c ++ [mk_el 0x30 2 (content (algorithm_tree (ce_alg c)))]). split.
    - rewrite <- app_assoc. by destruct (ce_alg c).
    - unfold head_els. destruct (ce_version c); repeat constructor; by intros sc [= <-]. }
  next_field; [|apply next_on_seek; [done| |done]; eapply Forall_impl; [exact Hskip|]; intros x Hx; by apply Hx].
  unfold issuer_els. set (e := mk_el 0x30 2 (content (name_tree (ce_issuer c)))).
  replace (tl _ ++ e :: _) with ((tl (tl (elements (algorithm_tree (ce_alg c)) 2)) ++ [e]) ++ rdn_els (attributes (ce_issuer c)) ++ validity_els c)
    by (by rewrite <- app_assoc).
  erewrite step_name; [|reflexivity|reflexivity|done|exact Hi|reflexivity|destruct (ce_alg c); by repeat constructor|exact Ni].
  cbn [insert list_insert replicate]. next_field; [|reflexivity].
  unfold validity_els. next_field; [|apply next_on_seek; [done|by apply rdn_deep|done]].
  unfold cert_values. destruct (ce_before c); cbn [time_tag time_of].
  - next_field; [|reflexivity]. by apply (run_rest c n 2).
  - rewrite step_missing by (cbn; lia). next_field; [|reflexivity]. by apply (run_rest c n 1).
Qed.

(** ** The object *)

Lemma at_field mem t vs i v : Forall2 (is_field mem) t vs -> vs !! i = Some v -> is_field mem (ser_at t i) v.
Proof. intros HF Hv. destruct (Forall2_lookup_r _ _ _ _ _ HF Hv) as (s&Hs&H). unfold ser_at. by rewrite Hs. Qed.

Lemma signature_ok mem s a : holds mem s (algorithm_oid a) -> signature_known mem s = Some true.
Proof.
  intros H. unfold signature_known. destruct a.
  - by rewrite (oid_in mem s _ TLS_OID_SHA256_RSA_ENCRYPTION true H).
  - rewrite (oid_in mem s _ TLS_OID_SHA256_RSA_ENCRYPTION false H) by done. cbn [mbind option_bind]. by apply (oid_in mem s _ _ true H).
Qed.

Lemma attributes_few c : (length (dn_before (ce_issuer c)) <= length (der (cert_tree c)))%nat /\
  (length (dn_before (ce_subject c)) <= length (der (cert_tree c)))%nat.
Proof.
  pose proof (elements_short (cert_tree c) 0) as H. rewrite cert_elements in H. unfold issuer_els, validity_els, subject_els in H.
  assert (forall n, length (dn_before n) <= length (rdn_els (attributes n)))%nat as Hr.
  { intros n. unfold attributes. induction (dn_before n) as [|a l IH]; [cbn; lia|]. unfold rdn_els in *. cbn [map concat app length].
    rewrite length_app. change (length (elements (rdn a) 3)) with 4%nat. lia. }
  pose proof (Hr (ce_issuer c)). pose proof (Hr (ce_subject c)). rewrite !length_app in H. cbn [length] in H. rewrite length_app in H.
  cbn [length] in H. rewrite length_app in H. lia.
Qed.

(** What the key of the object is to hold. *)
Definition key_values (k : public_key) : list bytes := match k with RSA_key n e => [n; e] | EC_key _ _ => [key_bits k] end.
Definition cert_type (k : public_key) : Z := match k with RSA_key _ _ => 4 | EC_key _ _ => 6 end.

Lemma short_key c : short (cert_tree c) -> short (Prim 3 (key_bits (ce_key c))).
Proof.
  intros H. apply (short_part 0x30 _ (tbs_tree c)) in H; [|cbn; tauto]. apply (short_part 0x30 _ (spki (ce_key c))) in H.
  - apply (short_part 0x30 _ (Prim 3 (key_bits (ce_key c)))) in H; [done|cbn; tauto].
  - apply in_or_app. right. cbn. tauto.
Qed.

Lemma decode_certificate_ok c : cert_ok c -> short (cert_tree c) ->
  let mem := der (cert_tree c) in
  exists f sa sg pk, decode_certificate mem = Some (Some (cert_type (ce_key c), M_certificate f sa sg pk)) /\
    Forall2 (is_field mem) f (take 6 (cert_values c)) /\ holds mem sa (algorithm_oid (ce_ca_alg c)) /\
    holds mem sg (ce_signature c) /\ Forall2 (holds mem) pk (key_values (ce_key c)).
Proof.
  intros Hc Hs mem. destruct (reads_file (cert_tree c) (co_wf c Hc)) as (ctx&Hi&Hr). fold mem in Hi, Hr.
  destruct (attributes_few c) as [N1 N2]. fold mem in N1, N2.
  destruct (fields_refine mem Hs 20 0 _ _ _ 0 ctx (replicate 12 blank_ser) (cert_run c (S (length mem)) Hc ltac:(lia) ltac:(lia)) Hr)
    as (t&Ht&HF); [apply elements_short|by repeat constructor|lia|].
  unfold decode_certificate. rewrite Hi. change (length tls_x509_cert_schema) with 20%nat. change (Z.of_nat 0) with 0 in Ht. rewrite Ht.
  cbn [mbind option_bind].
  assert (forall i v d, cert_values c !! i = Some v -> fv_data v = Some d -> holds mem (ser_at t i) d) as Hh.
  { intros i v d Hv Hd. pose proof (at_field _ _ _ _ _ HF Hv) as (_&_&H). by rewrite Hd in H. }
  pose proof (Hh 0%nat _ _ eq_refl eq_refl) as H0. pose proof (Hh 9%nat _ _ eq_refl eq_refl) as H9.
  pose proof (Hh 6%nat _ _ eq_refl eq_refl) as H6. pose proof (Hh 8%nat _ _ eq_refl eq_refl) as H8. pose proof (Hh 11%nat _ _ eq_refl eq_refl) as H11.
  rewrite (signature_ok _ _ _ H0). cbn [mbind option_bind negb]. rewrite (signature_ok _ _ _ H9). cbn [mbind option_bind negb].
  assert (ser_len (ser_at t 0) = Z.of_nat (length (algorithm_oid (ce_alg c)))) as -> by (by destruct H0 as (?&_&->&_)).
  pose proof (Forall2_take _ _ _ 6 HF) as HF6. pose proof (short_key c Hs) as Hk. destruct (ce_key c) as [m e|curve point] eqn:Ek.
  - rewrite (field_eq_in mem _ _ _ tls_objectid_bytes (10 * TLS_OID_RSA_ENCRYPTION) true H6) by (by destruct (ce_alg c)). cbn [mbind option_bind].
    apply short_content in Hk. cbn [content key_bits length] in Hk.
    destruct (field_tree mem _ (integers [m; e]) tls_pkcs1_pubkey_schema 2 true H8) as (ctx'&pk&->&->&Hpk&_);
      [apply wf_integers; [unfold short; lia|lia]|done|done|lia|]. cbn [mbind option_bind].
    by eexists _, _, _, _.
  - rewrite (field_eq_in mem _ _ _ tls_objectid_bytes (10 * TLS_OID_RSA_ENCRYPTION) false H6) by (by destruct (ce_alg c)). cbn [mbind option_bind].
    rewrite (oid_in mem _ _ TLS_OID_EC_PUBLICKEY true H6) by done. cbn [mbind option_bind].
    eexists _, _, _, _. split_and!; [done..|]. constructor; [exact H8|constructor].
Qed.

Definition certificate_banner : bytes := str "-----BEGIN CERTIFICATE-----".

Lemma banner_found t rest : find_banner lookups_certificate (pem_text certificate_banner t rest) = Some (Some X509_CERT).
Proof. reflexivity. Qed.
Lemma banner_no_end : Forall no_end certificate_banner.
Proof. apply (bool_decide_unpack _). vm_compute. exact I. Qed.
Lemma first_fields mem c f : Forall2 (is_field mem) f (take 6 (cert_values c)) ->
  Forall2 (holds mem) f [algorithm_oid (ce_alg c); dn_cn (ce_issuer c); time_of (ce_before c); ce_after c;
    dn_cn (ce_subject c); der (spki (ce_key c))] /\
  ser_name <$> f = Some <$> ["algorithm"; "issuerName"; "valid-before"; "valid-after"; "subjectName"; "SubjectPublicKeyInfo"]%string.
Proof.
  intros H. destruct f as [|f0 [|f1 [|f2 [|f3 [|f4 [|f5 [|? ?]]]]]]]; try by apply Forall2_length in H.
  assert (forall i v, take 6 (cert_values c) !! i = Some v -> is_field mem (ser_at [f0; f1; f2; f3; f4; f5] i) v) as Hi
    by (intros i v; by apply at_field).
  pose proof (Hi 0%nat _ eq_refl) as (N0&_&H0). pose proof (Hi 1%nat _ eq_refl) as (N1&_&H1). pose proof (Hi 2%nat _ eq_refl) as (N2&_&H2).
  pose proof (Hi 3%nat _ eq_refl) as (N3&_&H3). pose proof (Hi 4%nat _ eq_refl) as (N4&_&H4). pose proof (Hi 5%nat _ eq_refl) as (N5&_&H5).
  split; [by repeat constructor|]. cbn [fmap list_fmap]. cbn in N0, N1, N2, N3, N4, N5. by rewrite N0, N1, N2, N3, N4, N5.
Qed.

Lemma import_opened malloc pem addr size sc data type meta : size <> 0 ->
  pem_open lookups_certificate malloc pem addr size = Some (P_file sc data) -> decode_certificate data = Some (Some (type, meta)) ->
  tls_keyobject_import_certificate malloc (Some pem) addr size =
    Some (Some (mk_keyobject (keyobject_size + Z.of_nat (length data)) type meta data), [keyobject_size + Z.of_nat (length data)]).
Proof.
  intros Hs Hp Hd. unfold tls_keyobject_import_certificate. rewrite (proj2 (Z.eqb_neq _ _) Hs), Hp. cbn [mbind option_bind].
  rewrite Hd. reflexivity.
Qed.

(** C19. Certificates are imported exactly.  The file has the banner and then
    the base64 text in one line; the X.509 certificate has SHA-256 signature
    algorithms, in issuer and subject a common name of type UTF8String with any
    other attributes around (no object identifier as value in front of it), the end of validity as UTCTime (the start as
    UTCTime or GeneralizedTime), any extensions, and an RSA or an EC key.  With
    the memory it asks for, the import gives an object that holds the bytes of the certificate and whose
    fields, under their names, lie where the signature algorithm, the issuer,
    the dates, the subject, the whole SubjectPublicKeyInfo, the outer algorithm,
    the signature and the numbers or the point of the key are. *)
Theorem certificate_imported c rest malloc addr size : cert_ok c -> short (cert_tree c) -> Forall is_byte (der (cert_tree c)) ->
  Z.of_nat (length (tls_base64_encode (der (cert_tree c)))) <= size -> (forall n, malloc n = true) ->
  let t := cert_tree c in
  exists f sa sg pk, tls_keyobject_import_certificate malloc (Some (pem_text certificate_banner (der t) rest)) addr size =
    Some (Some (mk_keyobject (object_length t) (cert_type (ce_key c)) (M_certificate f sa sg pk) (der t)), [object_length t]) /\
  Forall2 (holds (der t)) f [algorithm_oid (ce_alg c); dn_cn (ce_issuer c); time_of (ce_before c); ce_after c;
    dn_cn (ce_subject c); der (spki (ce_key c))] /\
  ser_name <$> f = Some <$> ["algorithm"; "issuerName"; "valid-before"; "valid-after"; "subjectName"; "SubjectPublicKeyInfo"]%string /\
  holds (der t) sa (algorithm_oid (ce_ca_alg c)) /\ holds (der t) sg (ce_signature c) /\
  Forall2 (holds (der t)) pk (key_values (ce_key c)).
Proof.
  intros Hc Hs HF Hsz Hm t. destruct (decode_certificate_ok c Hc Hs) as (f&sa&sg&pk&Hd&Hf&Ha&Hg&Hp). exists f, sa, sg, pk. split_and!; try done.
  - apply (import_opened _ _ _ _ X509_CERT); [pose proof (text_nonempty (cert_tree c)); lia| |exact Hd].
    apply pem_open_ok; [apply der_nonempty|exact HF|exact banner_no_end|apply banner_found|exact Hsz|exact Hm].
  - by apply first_fields in Hf as [? _].
  - by apply first_fields in Hf as [_ ?].
Qed.
