(* ===== verification/KeySamples.v ===== *)
(** * Keys and a certificate to import

    An RSA key, a certificate and an encrypted key for the witnesses, and what the
    imports do at their edges. *)

From S2P Require Import Prelude MemState Base64 TlsHash Sha256Ref TlsKdf Rsa RsaCorrect Asn1 Asn1Correct Aes AesRef AesBlock GcmField HandshakeSamples KeyObject KeyCorrect CertCorrect CertImport KeyEncrypted.

Definition always (n : Z) : bool := true.
Definition the_numbers : list bytes := [[0; 0xc5; 0x11]; [1; 0; 1]; [0x35; 0x71]; [0x65]; [0x7f]; [0x31]; [0x33]; [0x29]].

Lemma rsa_private_imported_witness :
  let t := private_tree (Pkcs8 [0]) [0] the_numbers in
  exists f, tls_keyobject_import_private (St := bytes) always (Some (pem_text (private_banner (Pkcs8 [0])) (der t) (str "-----END"))) 0 200 None =
    Some (Some (mk_keyobject (object_length t) TLS_KEY_PRIVATE (M_privkey_rsa f) (der t)), [object_length t]) /\
  Forall2 (holds (der t)) f the_numbers /\ ser_name <$> f = Some <$> output_names tls_pkcs1_privkey_schema.
Proof.
  apply (rsa_private_imported (St := bytes) (Pkcs8 [0]) [0] the_numbers (str "-----END") always 0 200 None);
    [reflexivity|vm_compute; reflexivity|apply bytes_test_ok; vm_compute; reflexivity|vm_compute; discriminate|reflexivity].
Defined.

Lemma rsa_public_imported_witness :
  let t := public_tree (Pkcs8 []) (take 2 the_numbers) in
  exists f, tls_keyobject_import_public always (Some (pem_text (public_banner (Pkcs8 [])) (der t) [])) 0 100 =
    Some (Some (mk_keyobject (object_length t) TLS_KEY_PUBLIC (M_pubkey_rsa f) (der t)), [object_length t]) /\
  Forall2 (holds (der t)) f (take 2 the_numbers) /\ ser_name <$> f = Some <$> output_names tls_pkcs1_pubkey_schema.
Proof.
  apply (rsa_public_imported (Pkcs8 []) (take 2 the_numbers) [] always 0 100);
    [reflexivity|vm_compute; reflexivity|apply bytes_test_ok; vm_compute; reflexivity|vm_compute; discriminate|reflexivity].
Defined.

(** ** A certificate *)

Definition the_cert : certificate :=
  mk_cert (Some [2]) [0x11; 0x22] SHA256_RSA
    (mk_dn [mk_attr [0x55; 4; 6] 19 (str "DE"); mk_attr [0x55; 4; 10] 12 (str "Test")] (str "Test CA") [])
    (UTC (str "240101000000Z")) (str "340101000000Z")
    (mk_dn [] (str "ftp.example") [mk_attr [0x55; 4; 11] 12 (str "Unit")])
    (RSA_key [0; 0xc5; 0x11] [1; 0; 1]) [Cons 0xA3 [Cons 0x30 [Cons 0x30 [Prim 6 [0x55; 0x1d; 0x0e]; Prim 4 [4; 1; 7]]]]]
    SHA256_RSA (0 :: replicate 16 0x5a).

Lemma the_cert_ok : cert_ok the_cert.
Proof. split; [by repeat constructor|constructor|]. apply short_wf; [reflexivity|vm_compute; reflexivity]. Qed.

Lemma certificate_imported_witness :
  let t := cert_tree the_cert in
  exists f sa sg pk, tls_keyobject_import_certificate always (Some (pem_text certificate_banner (der t) [])) 0 1000 =
    Some (Some (mk_keyobject (object_length t) 4 (M_certificate f sa sg pk) (der t)), [object_length t]) /\
  Forall2 (holds (der t)) f [algorithm_oid SHA256_RSA; str "Test CA"; str "240101000000Z"; str "340101000000Z"; str "ftp.example";
    der (spki (ce_key the_cert))] /\ Forall2 (holds (der t)) pk [[0; 0xc5; 0x11]; [1; 0; 1]].
Proof.
  destruct (certificate_imported the_cert [] always 0 1000) as (f&sa&sg&pk&Hi&Hf&_&_&_&Hp);
    [exact the_cert_ok|vm_compute; reflexivity|apply bytes_test_ok; vm_compute; reflexivity|vm_compute; discriminate|reflexivity|].
  exists f, sa, sg, pk. split; [exact Hi|]. split; [exact Hf|exact Hp].
Defined.

(** ** An encrypted key *)

Definition the_encryption : encryption := mk_enc (str "NaCl") [2] None false (Z.of_nat <$> seq 50 16).
Definition the_password : bytes := str "secret".
Definition the_plain : bytes := Eval vm_compute in der (private_tree (Pkcs8 [0]) [0] the_numbers).
Definition the_cipher : bytes :=
  Eval vm_compute in Cbc.encrypt (Fips197.Cipher (file_key (St := bytes) the_encryption the_password)) (en_iv the_encryption) the_plain.
Definition the_encrypted : asn1 := encrypted_tree the_encryption the_cipher.

Lemma encrypted_private_imported_witness :
  let mem := Cbc.pad the_plain ++ drop (length the_cipher) (der the_encrypted) in
  exists f, tls_keyobject_import_private (St := bytes) always (Some (pem_text encrypted_banner (der the_encrypted) [])) 0 400
      (Some (the_password ++ [0])) =
    Some (Some (mk_keyobject (object_length the_encrypted) TLS_KEY_PRIVATE (M_privkey_rsa f) mem), [object_length the_encrypted]) /\
  Forall2 (holds mem) f the_numbers.
Proof.
  pose proof (encrypted_private_imported (St := bytes) the_encryption [0] [0] the_numbers the_password [] [] always 0 400) as H.
  cbn zeta in H. assert (der (private_tree (Pkcs8 [0]) [0] the_numbers) = the_plain) as Ep by (vm_compute; reflexivity).
  assert (Cbc.encrypt (Fips197.Cipher (file_key (St := bytes) the_encryption the_password)) (en_iv the_encryption) the_plain = the_cipher) as Ec
    by (vm_compute; reflexivity). rewrite Ep, Ec in H. destruct H as (f&Hi&Hf&_).
  - split; [discriminate|split; [cbn; lia|reflexivity]|exact I|left; reflexivity|]. split; [reflexivity|apply bytes_test_ok; reflexivity].
  - discriminate.
  - apply (bool_decide_unpack _). vm_compute. exact I.
  - reflexivity.
  - apply bytes_test_ok. vm_compute. reflexivity.
  - vm_compute. reflexivity.
  - apply bytes_test_ok. vm_compute. reflexivity.
  - vm_compute. discriminate.
  - reflexivity.
  - exists f. split; [exact Hi|exact Hf].
Defined.
(** Another password. *)
Example wrong_password_refused :
  tls_keyobject_import_private (St := bytes) always (Some (pem_text encrypted_banner (der the_encrypted) [])) 0 400
    (Some (str "Secret" ++ [0])) = Some (None, []).
Proof. vm_compute. reflexivity. Qed.

(** ** Edges *)

(** EC private keys are refused: no branch of the import decodes one. *)
Theorem ec_private_refused mem password : decode_private (St := bytes) SEC1_PRIV mem password = Some None.
Proof. unfold decode_private. by destruct (tls_asn1_decoder_init 0 _). Qed.

(** The block of the decoded text is lost when the object cannot be allocated. *)
Example text_block_leaked :
  tls_keyobject_import_private (St := bytes) (fun n => n <? 100)
    (Some (pem_text (private_banner Plain) (der (private_tree Plain [0] the_numbers)) [])) 0 200 None = Some (None, [64]).
Proof. vm_compute. reflexivity. Qed.

(** Only the first line of text is decoded: of a key whose text is broken into
    lines of 64 characters, as RFC 7468 asks for, the end is missing, and the
    decoder runs out of the object. *)
Definition long_text : bytes :=
  Eval vm_compute in tls_base64_encode (der (private_tree Plain [0] (replicate 30 0x41 :: replicate 30 0x42 :: drop 2 the_numbers))).
Example wrapped_text_overrun :
  tls_keyobject_import_private (St := bytes) always
    (Some (private_banner Plain ++ 10 :: take 64 long_text ++ 10 :: drop 64 long_text ++ [10])) 0 400 None = None /\
  exists k live, tls_keyobject_import_private (St := bytes) always (Some (private_banner Plain ++ 10 :: long_text ++ [10])) 0 400 None =
    Some (Some k, live).
Proof. split; [vm_compute; reflexivity|]. eexists _, _. vm_compute. reflexivity. Qed.

(** The lengths of the comparisons come from the file: an empty algorithm passes
    for RSA. *)
Example empty_algorithm_is_rsa : exists k live,
  tls_keyobject_import_private (St := bytes) always (Some (pem_text (private_banner (Pkcs8 [0]))
    (der (Cons 0x30 [Prim 2 [0]; Cons 0x30 [Prim 6 []; Prim 5 []]; Prim 4 (der (integers ([0] :: the_numbers)))])) [])) 0 400 None =
    Some (Some k, live).
Proof. eexists _, _. vm_compute. reflexivity. Qed.

(** A SEC 1 point is decoded as an RSA key, and so refused. *)
Example ec_point_refused :
  tls_keyobject_import_public always (Some (pem_text (str "-----BEGIN EC PUBLIC KEY-----") (der (Prim 4 (4 :: replicate 64 7))) [])) 0 400 =
    Some (None, []).
Proof. vm_compute. reflexivity. Qed.

(** A certificate that ends in 2050 or later, with the date in the form RFC 5280
    asks for then: the search for the other form passes it, and runs out of the
    object. *)
Example late_certificate_overrun :
  tls_keyobject_import_certificate always (Some (pem_text certificate_banner
    (der (Cons 0x30 [Cons 0x30 [Prim 2 [1]; algorithm_tree SHA256_RSA; name_tree (ce_issuer the_cert);
        Cons 0x30 [Prim ASN1_UTCTIME (str "240101000000Z"); Prim ASN1_GENERALIZEDTIME (str "20600101000000Z")];
        name_tree (ce_subject the_cert); spki (ce_key the_cert)]; algorithm_tree SHA256_RSA; Prim 3 [0; 1; 2; 3]])) [])) 0 1000 = None.
Proof. vm_compute. reflexivity. Qed.
