(* ===== verification/AltcpTls.v ===== *)
(** * TLS under altcp

    [src/src/apps/altcp_tls/altcp_tls_ce.c]: the layer that puts TLS between an
    application and a TCP connection of lwIP, with the handshake of [Handshake].
    Handshake bytes wait in a ring until a record is complete; application data
    waits in chains of packet buffers, before and behind decryption; the
    acknowledgement of received bytes can be held back under memory pressure.

    Connections, states and configurations are objects with numbers, and a number
    whose object is gone is a dangling pointer.  The TCP connection below
    ([inner_pcb]), the allocators and the random generator answer through a record
    [tls_env], and so does the application above, whose callbacks may change the
    whole world; every call in both directions is also written into a list.
    Undefined behaviour is the outer [None].  The function pointers of lwIP's
    altcp.c have one target each here and are called directly; that an abort of
    the TCP connection calls the error callback is altcp_tcp.c and tcp_abort. *)

From S2P Require Import Prelude MemState Session TlsHash Rsa Handshake.

Definition ERR_MEM : Z := -1.
Definition ERR_VAL : Z := -6.
Definition ERR_ABRT : Z := -13.
Definition ERR_CLSD : Z := -15.

Definition ALTCP_TLS_CE_DEFAULT_RX_RING_SIZE : Z := 4096.
Definition FLAGS_HANDSHAKE_DONE : Z := 0x01.
Definition FLAGS_UPPER_CALLED : Z := 0x02.
Definition FLAGS_RX_CLOSE_QUEUED : Z := 0x04.
Definition FLAGS_RX_CLOSED : Z := 0x08.
Definition PBUF_POOL_BUFSIZE : Z := 256.
Definition INT_MAX : Z := 2 ^ 23 - 1.

(** [int] has 24 bits and a sign. *)
Definition s24 (z : Z) : Z := (z + 2 ^ 23) mod 2 ^ 24 - 2 ^ 23.
Definition has_flag (flags f : Z) : bool := negb (Z.land flags f =? 0).

(** ** Packet buffers (pbuf.c) *)

(** A chain: of each buffer the bytes it holds and the number of references. *)
Record pbuf_seg := mk_seg { payload : bytes; ref : Z }.
Definition pbuf : Type := list pbuf_seg.
Definition pbuf_bytes (p : pbuf) : bytes := concat (payload <$> p).
Definition tot_len (p : pbuf) : Z := u16 (Z.of_nat (length (pbuf_bytes p))).
(** How many buffers go, and what is left of the chain. *)
Fixpoint pbuf_free (p : pbuf) : Z * pbuf :=
  match p with
  | [] => (0, [])
  | s :: q =>
      let ref := ref s - 1 in
      if ref =? 0 then let r := pbuf_free q in (1 + r.1, r.2) else (0, mk_seg (payload s) ref :: q)
  end.
Definition pbuf_cat (h t : pbuf) : pbuf := h ++ t.
(** The first buffer is taken out of its chain; what follows it, unless it is gone. *)
Definition pbuf_dechain (p : pbuf) : option pbuf :=
  match p with
  | s :: ((_ :: _) as q) => let r := pbuf_free q in if 0 <? r.1 then None else Some r.2
  | _ => None
  end.
(** [pbuf_header] by a negative amount: nothing happens when the first buffer is
    shorter. *)
Definition pbuf_remove_header (p : pbuf) (n : Z) : pbuf :=
  match p with
  | s :: q => if Z.of_nat (length (payload s)) <? n then p else mk_seg (drop (Z.to_nat n) (payload s)) (ref s) :: q
  | [] => []
  end.
(** One buffer of the pool. *)
Definition pool_pbuf (b : bytes) : pbuf := [mk_seg b 1].

(** ** State *)

Section Altcp.
Context {St : Type} `{Sha256 St}.
Abbreviation tls_handshake_context := (tls_handshake_context (St := St)).

Record altcp_tls_ce_config := mk_tconf {
  is_server : Z;
  cf_rx_ring_size : Z;
  cf_psk : bytes;
  cf_psk_identity : tls_psk_identity
}.

Record altcp_tls_ce_state := mk_tstate {
  ts_conf : nat;
  ts_ctx : tls_handshake_context;
  ts_conn : option nat;
  ts_rx : option pbuf;
  ts_rx_app : option pbuf;
  rx_passed_unrecved : Z;
  bio_bytes_read : Z;
  bio_bytes_appl : Z;
  overhead_bytes_adjust : Z;
  rx_ring_head : Z;
  rx_ring_len : Z;
  rx_ring_size : Z;
  rx_ring : option bytes;
  rx_throttle_pending : Z;
  rx_mild_toggle : Z;
  ts_flags : Z
}.
Definition set_ts_conf (v : nat) (s : altcp_tls_ce_state) : altcp_tls_ce_state := mk_tstate v (ts_ctx s) (ts_conn s) (ts_rx s) (ts_rx_app s) (rx_passed_unrecved s) (bio_bytes_read s) (bio_bytes_appl s) (overhead_bytes_adjust s) (rx_ring_head s) (rx_ring_len s) (rx_ring_size s) (rx_ring s) (rx_throttle_pending s) (rx_mild_toggle s) (ts_flags s).
Definition set_ts_ctx (v : tls_handshake_context) (s : altcp_tls_ce_state) : altcp_tls_ce_state := mk_tstate (ts_conf s) v (ts_conn s) (ts_rx s) (ts_rx_app s) (rx_passed_unrecved s) (bio_bytes_read s) (bio_bytes_appl s) (overhead_bytes_adjust s) (rx_ring_head s) (rx_ring_len s) (rx_ring_size s) (rx_ring s) (rx_throttle_pending s) (rx_mild_toggle s) (ts_flags s).
Definition set_ts_conn (v : option nat) (s : altcp_tls_ce_state) : altcp_tls_ce_state := mk_tstate (ts_conf s) (ts_ctx s) v (ts_rx s) (ts_rx_app s) (rx_passed_unrecved s) (bio_bytes_read s) (bio_bytes_appl s) (overhead_bytes_adjust s) (rx_ring_head s) (rx_ring_len s) (rx_ring_size s) (rx_ring s) (rx_throttle_pending s) (rx_mild_toggle s) (ts_flags s).
Definition set_ts_rx (v : option pbuf) (s : altcp_tls_ce_state) : altcp_tls_ce_state := mk_tstate (ts_conf s) (ts_ctx s) (ts_conn s) v (ts_rx_app s) (rx_passed_unrecved s) (bio_bytes_read s) (bio_bytes_appl s) (overhead_bytes_adjust s) (rx_ring_head s) (rx_ring_len s) (rx_ring_size s) (rx_ring s) (rx_throttle_pending s) (rx_mild_toggle s) (ts_flags s).
Definition set_ts_rx_app (v : option pbuf) (s : altcp_tls_ce_state) : altcp_tls_ce_state := mk_tstate (ts_conf s) (ts_ctx s) (ts_conn s) (ts_rx s) v (rx_passed_unrecved s) (bio_bytes_read s) (bio_bytes_appl s) (overhead_bytes_adjust s) (rx_ring_head s) (rx_ring_len s) (rx_ring_size s) (rx_ring s) (rx_throttle_pending s) (rx_mild_toggle s) (ts_flags s).
Definition set_rx_passed_unrecved (v : Z) (s : altcp_tls_ce_state) : altcp_tls_ce_state := mk_tstate (ts_conf s) (ts_ctx s) (ts_conn s) (ts_rx s) (ts_rx_app s) v (bio_bytes_read s) (bio_bytes_appl s) (overhead_bytes_adjust s) (rx_ring_head s) (rx_ring_len s) (rx_ring_size s) (rx_ring s) (rx_throttle_pending s) (rx_mild_toggle s) (ts_flags s).
Definition set_bio_bytes_read (v : Z) (s : altcp_tls_ce_state) : altcp_tls_ce_state := mk_tstate (ts_conf s) (ts_ctx s) (ts_conn s) (ts_rx s) (ts_rx_app s) (rx_passed_unrecved s) v (bio_bytes_appl s) (overhead_bytes_adjust s) (rx_ring_head s) (rx_ring_len s) (rx_ring_size s) (rx_ring s) (rx_throttle_pending s) (rx_mild_toggle s) (ts_flags s).
Definition set_bio_bytes_appl (v : Z) (s : altcp_tls_ce_state) : altcp_tls_ce_state := mk_tstate (ts_conf s) (ts_ctx s) (ts_conn s) (ts_rx s) (ts_rx_app s) (rx_passed_unrecved s) (bio_bytes_read s) v (overhead_bytes_adjust s) (rx_ring_head s) (rx_ring_len s) (rx_ring_size s) (rx_ring s) (rx_throttle_pending s) (rx_mild_toggle s) (ts_flags s).
Definition set_overhead_bytes_adjust (v : Z) (s : altcp_tls_ce_state) : altcp_tls_ce_state := mk_tstate (ts_conf s) (ts_ctx s) (ts_conn s) (ts_rx s) (ts_rx_app s) (rx_passed_unrecved s) (bio_bytes_read s) (bio_bytes_appl s) v (rx_ring_head s) (rx_ring_len s) (rx_ring_size s) (rx_ring s) (rx_throttle_pending s) (rx_mild_toggle s) (ts_flags s).
Definition set_rx_ring_head (v : Z) (s : altcp_tls_ce_state) : altcp_tls_ce_state := mk_tstate (ts_conf s) (ts_ctx s) (ts_conn s) (ts_rx s) (ts_rx_app s) (rx_passed_unrecved s) (bio_bytes_read s) (bio_bytes_appl s) (overhead_bytes_adjust s) v (rx_ring_len s) (rx_ring_size s) (rx_ring s) (rx_throttle_pending s) (rx_mild_toggle s) (ts_flags s).
Definition set_rx_ring_len (v : Z) (s : altcp_tls_ce_state) : altcp_tls_ce_state := mk_tstate (ts_conf s) (ts_ctx s) (ts_conn s) (ts_rx s) (ts_rx_app s) (rx_passed_unrecved s) (bio_bytes_read s) (bio_bytes_appl s) (overhead_bytes_adjust s) (rx_ring_head s) v (rx_ring_size s) (rx_ring s) (rx_throttle_pending s) (rx_mild_toggle s) (ts_flags s).
Definition set_rx_ring_size (v : Z) (s : altcp_tls_ce_state) : altcp_tls_ce_state := mk_tstate (ts_conf s) (ts_ctx s) (ts_conn s) (ts_rx s) (ts_rx_app s) (rx_passed_unrecved s) (bio_bytes_read s) (bio_bytes_appl s) (overhead_bytes_adjust s) (rx_ring_head s) (rx_ring_len s) v (rx_ring s) (rx_throttle_pending s) (rx_mild_toggle s) (ts_flags s).
Definition set_rx_ring (v : option bytes) (s : altcp_tls_ce_state) : altcp_tls_ce_state := mk_tstate (ts_conf s) (ts_ctx s) (ts_conn s) (ts_rx s) (ts_rx_app s) (rx_passed_unrecved s) (bio_bytes_read s) (bio_bytes_appl s) (overhead_bytes_adjust s) (rx_ring_head s) (rx_ring_len s) (rx_ring_size s) v (rx_throttle_pending s) (rx_mild_toggle s) (ts_flags s).
Definition set_rx_throttle_pending (v : Z) (s : altcp_tls_ce_state) : altcp_tls_ce_state := mk_tstate (ts_conf s) (ts_ctx s) (ts_conn s) (ts_rx s) (ts_rx_app s) (rx_passed_unrecved s) (bio_bytes_read s) (bio_bytes_appl s) (overhead_bytes_adjust s) (rx_ring_head s) (rx_ring_len s) (rx_ring_size s) (rx_ring s) v (rx_mild_toggle s) (ts_flags s).
Definition set_rx_mild_toggle (v : Z) (s : altcp_tls_ce_state) : altcp_tls_ce_state := mk_tstate (ts_conf s) (ts_ctx s) (ts_conn s) (ts_rx s) (ts_rx_app s) (rx_passed_unrecved s) (bio_bytes_read s) (bio_bytes_appl s) (overhead_bytes_adjust s) (rx_ring_head s) (rx_ring_len s) (rx_ring_size s) (rx_ring s) (rx_throttle_pending s) v (ts_flags s).
Definition set_ts_flags (v : Z) (s : altcp_tls_ce_state) : altcp_tls_ce_state := mk_tstate (ts_conf s) (ts_ctx s) (ts_conn s) (ts_rx s) (ts_rx_app s) (rx_passed_unrecved s) (bio_bytes_read s) (bio_bytes_appl s) (overhead_bytes_adjust s) (rx_ring_head s) (rx_ring_len s) (rx_ring_size s) (rx_ring s) (rx_throttle_pending s) (rx_mild_toggle s) v.

(** [struct altcp_pcb]: whether the functions are those of this layer, the
    connection below, the state, and which callbacks of the application are set. *)
Record altcp_pcb := mk_pcb {
  ap_fns : bool;
  inner_conn : option nat;
  ap_state : option nat;
  ap_connected : bool;
  ap_recv : bool;
  ap_sent : bool;
  ap_poll : bool;
  ap_err : bool;
  ap_accept : bool
}.
Definition set_ap_fns (v : bool) (s : altcp_pcb) : altcp_pcb := mk_pcb v (inner_conn s) (ap_state s) (ap_connected s) (ap_recv s) (ap_sent s) (ap_poll s) (ap_err s) (ap_accept s).
Definition set_inner_conn (v : option nat) (s : altcp_pcb) : altcp_pcb := mk_pcb (ap_fns s) v (ap_state s) (ap_connected s) (ap_recv s) (ap_sent s) (ap_poll s) (ap_err s) (ap_accept s).
Definition set_ap_state (v : option nat) (s : altcp_pcb) : altcp_pcb := mk_pcb (ap_fns s) (inner_conn s) v (ap_connected s) (ap_recv s) (ap_sent s) (ap_poll s) (ap_err s) (ap_accept s).
Definition set_ap_connected (v : bool) (s : altcp_pcb) : altcp_pcb := mk_pcb (ap_fns s) (inner_conn s) (ap_state s) v (ap_recv s) (ap_sent s) (ap_poll s) (ap_err s) (ap_accept s).
Definition set_ap_recv (v : bool) (s : altcp_pcb) : altcp_pcb := mk_pcb (ap_fns s) (inner_conn s) (ap_state s) (ap_connected s) v (ap_sent s) (ap_poll s) (ap_err s) (ap_accept s).
Definition set_ap_sent (v : bool) (s : altcp_pcb) : altcp_pcb := mk_pcb (ap_fns s) (inner_conn s) (ap_state s) (ap_connected s) (ap_recv s) v (ap_poll s) (ap_err s) (ap_accept s).
Definition set_ap_poll (v : bool) (s : altcp_pcb) : altcp_pcb := mk_pcb (ap_fns s) (inner_conn s) (ap_state s) (ap_connected s) (ap_recv s) (ap_sent s) v (ap_err s) (ap_accept s).
Definition set_ap_err (v : bool) (s : altcp_pcb) : altcp_pcb := mk_pcb (ap_fns s) (inner_conn s) (ap_state s) (ap_connected s) (ap_recv s) (ap_sent s) (ap_poll s) v (ap_accept s).
Definition set_ap_accept (v : bool) (s : altcp_pcb) : altcp_pcb := mk_pcb (ap_fns s) (inner_conn s) (ap_state s) (ap_connected s) (ap_recv s) (ap_sent s) (ap_poll s) (ap_err s) v.
Definition blank_pcb : altcp_pcb := mk_pcb false None None false false false false false false.

(** The connection below: its argument, whether the callbacks of this layer are
    set, whether the poll callback is, and its interval. *)
Record inner_pcb := mk_inner { in_arg : option nat; in_callbacks : bool; in_poll : bool; in_interval : Z }.

(** Calls down and up. *)
Inductive call :=
| C_write (i : nat) (d : bytes)
| C_output (i : nat)
| C_recved (i : nat) (n : Z)
| C_abort (i : nat)
| C_close (i : nat)
| C_connect (i : nat)
| C_freed (p : pbuf)
| U_connected (c : nat) (err : Z)
| U_recv (c : nat) (p : option bytes)
| U_sent (c : nat) (n : Z)
| U_err (c : nat) (err : Z)
| U_poll (c : nat)
| U_accept (c : nat).

Record world := mk_world {
  conns : gmap nat altcp_pcb;
  states : gmap nat altcp_tls_ce_state;
  configs : gmap nat altcp_tls_ce_config;
  inners : gmap nat inner_pcb;
  g_tls_state_head : list nat;
  g_tls_rx_throttle_level : mem_pressure_level;
  g_tls_hook_registered : bool;
  calls : list call;
  next_id : nat
}.
Definition set_conns (v : gmap nat altcp_pcb) (s : world) : world := mk_world v (states s) (configs s) (inners s) (g_tls_state_head s) (g_tls_rx_throttle_level s) (g_tls_hook_registered s) (calls s) (next_id s).
Definition set_states (v : gmap nat altcp_tls_ce_state) (s : world) : world := mk_world (conns s) v (configs s) (inners s) (g_tls_state_head s) (g_tls_rx_throttle_level s) (g_tls_hook_registered s) (calls s) (next_id s).
Definition set_configs (v : gmap nat altcp_tls_ce_config) (s : world) : world := mk_world (conns s) (states s) v (inners s) (g_tls_state_head s) (g_tls_rx_throttle_level s) (g_tls_hook_registered s) (calls s) (next_id s).
Definition set_inners (v : gmap nat inner_pcb) (s : world) : world := mk_world (conns s) (states s) (configs s) v (g_tls_state_head s) (g_tls_rx_throttle_level s) (g_tls_hook_registered s) (calls s) (next_id s).
Definition set_g_tls_state_head (v : list nat) (s : world) : world := mk_world (conns s) (states s) (configs s) (inners s) v (g_tls_rx_throttle_level s) (g_tls_hook_registered s) (calls s) (next_id s).
Definition set_g_tls_rx_throttle_level (v : mem_pressure_level) (s : world) : world := mk_world (conns s) (states s) (configs s) (inners s) (g_tls_state_head s) v (g_tls_hook_registered s) (calls s) (next_id s).
Definition set_g_tls_hook_registered (v : bool) (s : world) : world := mk_world (conns s) (states s) (configs s) (inners s) (g_tls_state_head s) (g_tls_rx_throttle_level s) v (calls s) (next_id s).
Definition set_calls (v : list call) (s : world) : world := mk_world (conns s) (states s) (configs s) (inners s) (g_tls_state_head s) (g_tls_rx_throttle_level s) (g_tls_hook_registered s) v (next_id s).
Definition set_next_id (v : nat) (s : world) : world := mk_world (conns s) (states s) (configs s) (inners s) (g_tls_state_head s) (g_tls_rx_throttle_level s) (g_tls_hook_registered s) (calls s) v.

(** ** The monad *)

Definition TM (A : Type) : Type := world -> option (A * world).
#[global] Instance TM_ret : MRet TM := fun A a w => Some (a, w).
#[global] Instance TM_bind : MBind TM := fun A B k c w => match c w with Some (a, w') => k a w' | None => None end.
Definition tfail {A} : TM A := fun _ => None.
Definition tgets {A} (f : world -> A) : TM A := fun w => Some (f w, w).
Definition tmodify (f : world -> world) : TM unit := fun w => Some (tt, f w).
Definition or_fail {A} (o : option A) : TM A := match o with Some a => mret a | None => tfail end.
Definition log (c : call) : TM unit := tmodify (fun w => set_calls (calls w ++ [c]) w).
Definition whenT (b : bool) (m : TM unit) : TM unit := if b then m else mret tt.

(** What pointers point to. *)
Definition get_conn (c : nat) : TM altcp_pcb := fun w => p ← conns w !! c; Some (p, w).
Definition upd_conn (c : nat) (f : altcp_pcb -> altcp_pcb) : TM unit :=
  p ← get_conn c; tmodify (fun w => set_conns (<[c := f p]> (conns w)) w).
Definition get_state (s : nat) : TM altcp_tls_ce_state := fun w => x ← states w !! s; Some (x, w).
Definition upd_state (s : nat) (f : altcp_tls_ce_state -> altcp_tls_ce_state) : TM unit :=
  x ← get_state s; tmodify (fun w => set_states (<[s := f x]> (states w)) w).
(** An operation on the state. *)
Definition with_state {A} (s : nat) (g : altcp_tls_ce_state -> option (A * altcp_tls_ce_state)) : TM A :=
  x ← get_state s;
  r ← or_fail (g x);
  tmodify (fun w => set_states (<[s := r.2]> (states w)) w);;
  mret r.1.
Definition get_config (k : nat) : TM altcp_tls_ce_config := fun w => x ← configs w !! k; Some (x, w).
Definition get_inner (i : nat) : TM inner_pcb := fun w => x ← inners w !! i; Some (x, w).
Definition upd_inner (i : nat) (f : inner_pcb -> inner_pcb) : TM unit :=
  x ← get_inner i; tmodify (fun w => set_inners (<[i := f x]> (inners w)) w).
Definition fresh : TM nat := n ← tgets next_id; tmodify (set_next_id (S n));; mret n.

(** What the layer asks [mem_malloc] for. *)
Inductive request := A_config | A_state | A_ring (n : Z) | A_record (n : Z).

(** The surroundings: memory, the generator, TCP, and the application. *)
Record tls_env := mk_tenv {
  te_malloc : world -> request -> bool;
  te_pcb : world -> bool;
  te_pbuf : world -> bool;
  te_random : world -> nat -> Z;
  te_write : world -> nat -> bytes -> Z;
  te_close : world -> nat -> Z;
  te_connect : world -> nat -> Z;
  te_listen : world -> nat -> bool;
  te_new : world -> bool;
  te_sndbuf : world -> nat -> Z;
  te_mss : world -> nat -> Z;
  up_connected : nat -> Z -> TM Z;
  up_recv : nat -> option pbuf -> Z -> TM Z;
  up_sent : nat -> Z -> TM Z;
  up_poll : nat -> TM Z;
  up_err : nat -> Z -> TM unit;
  up_accept : nat -> Z -> TM Z
}.

(** ** The record ring *)

Definition tls_ring_space (s : altcp_tls_ce_state) : Z := u24 (rx_ring_size s - rx_ring_len s).

Definition tls_ring_write (s : altcp_tls_ce_state) (data : bytes) (len : Z) : option (bool * altcp_tls_ce_state) :=
  match rx_ring s with
  | None => Some (false, s)
  | Some ring =>
      if tls_ring_space s <? len then Some (false, s)
      else if rx_ring_size s =? 0 then None
      else
        let tail := u24 (rx_ring_head s + rx_ring_len s) mod rx_ring_size s in
        let first := Z.min len (rx_ring_size s - tail) in
        a ← rd_at data 0 first;
        ring ← store_at ring tail a;
        b ← rd_at data first (len - first);
        ring ← store_at ring 0 b;
        Some (true, set_rx_ring_len (u24 (rx_ring_len s + len)) (set_rx_ring (Some ring) s))
  end.

Fixpoint tls_ring_write_pbuf (s : altcp_tls_ce_state) (p : pbuf) : option (bool * altcp_tls_ce_state) :=
  match p with
  | [] => Some (true, s)
  | q :: p' =>
      r ← tls_ring_write s (payload q) (Z.of_nat (length (payload q)));
      if r.1 : bool then tls_ring_write_pbuf r.2 p' else Some (false, r.2)
  end.

(** The output buffer. *)
Definition tls_ring_peek (s : altcp_tls_ce_state) (offset : Z) (out : bytes) (len : Z) : option (bool * bytes) :=
  if rx_ring_len s <? u24 (offset + len) then Some (false, out)
  else if rx_ring_size s =? 0 then None
  else
    let pos := u24 (rx_ring_head s + offset) mod rx_ring_size s in
    let first := Z.min len (rx_ring_size s - pos) in
    ring ← rx_ring s;
    a ← rd_at ring pos first;
    out ← store_at out 0 a;
    b ← rd_at ring 0 (len - first);
    out ← store_at out first b;
    Some (true, out).

(** A pointer into the ring, when the bytes are in one piece. *)
Definition tls_ring_ptr (s : altcp_tls_ce_state) (offset len : Z) : option (option Z) :=
  if rx_ring_len s <? u24 (offset + len) then Some None
  else if rx_ring_size s =? 0 then None
  else
    let pos := u24 (rx_ring_head s + offset) mod rx_ring_size s in
    Some (if u24 (pos + len) <=? rx_ring_size s then Some pos else None).

Definition tls_ring_discard (s : altcp_tls_ce_state) (len : Z) : option altcp_tls_ce_state :=
  if rx_ring_size s =? 0 then None
  else Some (set_rx_ring_len (u24 (rx_ring_len s - len)) (set_rx_ring_head (u24 (rx_ring_head s + len) mod rx_ring_size s) s)).

(** ** The list of states *)

Definition tls_state_add (s : nat) : TM unit := tmodify (fun w => set_g_tls_state_head (s :: g_tls_state_head w) w).
Fixpoint remove_first (s : nat) (l : list nat) : list nat :=
  match l with [] => [] | x :: l' => if (x =? s)%nat then l' else x :: remove_first s l' end.
Definition tls_state_remove (s : nat) : TM unit :=
  tmodify (fun w => set_g_tls_state_head (remove_first s (g_tls_state_head w)) w).

(** [fuel] bounds the turns of the loops over queued data and handshake messages. *)
Section Env.
Context (E : tls_env) (fuel : nat).

(** The calls of the connection below. *)
Definition inner_write (i : option nat) (d : bytes) : TM Z :=
  match i with
  | None => mret ERR_VAL
  | Some i => _ ← get_inner i; e ← tgets (fun w => te_write E w i d); log (C_write i d);; mret e
  end.
Definition inner_output (i : option nat) : TM unit :=
  match i with None => mret tt | Some i => _ ← get_inner i; log (C_output i) end.
Definition inner_recved (i : option nat) (n : Z) : TM unit :=
  match i with None => mret tt | Some i => _ ← get_inner i; log (C_recved i n) end.

(** ** Configurations *)

Definition create_config (server : Z) (psk : bytes) (psk_identity : tls_psk_identity) : TM (option nat) :=
  ok ← tgets (fun w => te_malloc E w A_config);
  if negb ok then mret None
  else
    k ← or_fail (rd (Some psk) 32);
    n ← fresh;
    tmodify (fun w => set_configs (<[n := mk_tconf server ALTCP_TLS_CE_DEFAULT_RX_RING_SIZE k psk_identity]> (configs w)) w);;
    mret (Some n).
Definition altcp_tls_ce_create_config_psk_client := create_config 0.
Definition altcp_tls_ce_create_config_psk_server := create_config 1.
Definition altcp_tls_ce_free_config (conf : option nat) : TM unit :=
  match conf with
  | None => mret tt
  | Some k => _ ← get_config k; tmodify (fun w => set_configs (delete k (configs w)) w)
  end.

(** ** Release *)

Definition free_chain (p : option pbuf) : TM unit := match p with None => mret tt | Some p => log (C_freed p) end.

Definition altcp_tls_ce_dealloc (c : nat) : TM unit :=
  p ← get_conn c;
  match ap_state p with
  | None => mret tt
  | Some s =>
      x ← get_state s;
      free_chain (ts_rx x);;
      free_chain (ts_rx_app x);;
      tls_state_remove s;;
      tmodify (fun w => set_states (delete s (states w)) w);;
      upd_conn c (set_ap_state None)
  end.

(** [altcp_free] *)
Definition altcp_free (c : nat) : TM unit :=
  p ← get_conn c;
  (if ap_fns p then altcp_tls_ce_dealloc c else mret tt);;
  tmodify (fun w => set_conns (delete c (conns w)) w).

Definition altcp_tls_ce_lower_err (arg : option nat) (err : Z) : TM unit :=
  match arg with
  | None => mret tt
  | Some c =>
      upd_conn c (set_inner_conn None);;
      p ← get_conn c;
      (if ap_err p then log (U_err c err);; up_err E c err else mret tt);;
      altcp_free c
  end.

(** An abort of the connection below calls the error callback and releases it. *)
Definition inner_abort (i : nat) : TM unit :=
  x ← get_inner i;
  log (C_abort i);;
  (if in_callbacks x then altcp_tls_ce_lower_err (in_arg x) ERR_ABRT else mret tt);;
  tmodify (fun w => set_inners (delete i (inners w)) w).

Definition altcp_tls_ce_abort (c : nat) : TM unit :=
  p ← get_conn c;
  match inner_conn p with None => mret tt | Some i => inner_abort i end.

Definition inner_close (i : nat) : TM Z :=
  _ ← get_inner i;
  e ← tgets (fun w => te_close E w i);
  log (C_close i);;
  (if e =? ERR_OK then tmodify (fun w => set_inners (delete i (inners w)) w) else mret tt);;
  mret e.

Definition altcp_tls_ce_remove_callbacks (i : nat) : TM unit :=
  upd_inner i (fun x => mk_inner None false false (in_interval x)).
Definition altcp_tls_ce_setup_callbacks (c i : nat) : TM unit :=
  upd_inner i (fun x => mk_inner (Some c) true (in_poll x) (in_interval x)).

Definition altcp_tls_ce_close (c : nat) : TM Z :=
  p ← get_conn c;
  r ← match inner_conn p with
      | None => mret ERR_OK
      | Some i =>
          x ← get_inner i;
          altcp_tls_ce_remove_callbacks i;;
          err ← inner_close i;
          if negb (err =? ERR_OK) then
            altcp_tls_ce_setup_callbacks c i;;
            upd_inner i (fun y => mk_inner (in_arg y) (in_callbacks y) (in_poll x) (in_interval y));;
            mret err
          else upd_conn c (set_inner_conn None);; mret ERR_OK
      end;
  if negb (r =? ERR_OK) then mret r else altcp_free c;; mret ERR_OK.

(** ** Application data *)

(** Parts of at most 0xFFFF bytes; [n] turns. *)
Fixpoint lower_recved_loop (n : nat) (i : option nat) (recvd_cnt : Z) : TM unit :=
  if recvd_cnt <=? 0 then mret tt
  else match n with
       | O => tfail
       | S n' =>
           let part := u16 (Z.min recvd_cnt 0xFFFF) in
           inner_recved i part;; lower_recved_loop n' i (recvd_cnt - part)
       end.
Definition altcp_tls_ce_lower_recved (i : option nat) (recvd_cnt : Z) : TM unit := lower_recved_loop 256 i recvd_cnt.

Definition altcp_tls_ce_pass_rx_data (c s : nat) : TM Z :=
  x ← get_state s;
  r ← match ts_rx_app x with
      | Some buf =>
          upd_state s (set_ts_rx_app None);;
          p ← get_conn c;
          if ap_recv p then
            upd_state s (fun x => set_ts_flags (Z.lor (ts_flags x) FLAGS_UPPER_CALLED)
              (set_rx_passed_unrecved (s24 (rx_passed_unrecved x + tot_len buf)) x));;
            log (U_recv c (Some (pbuf_bytes buf)));;
            err ← up_recv E c (Some buf) ERR_OK;
            if negb (err =? ERR_OK) then
              if err =? ERR_ABRT then mret (Some ERR_ABRT)
              else
                upd_state s (fun x =>
                  let n := s24 (rx_passed_unrecved x - tot_len buf) in
                  set_rx_passed_unrecved (if n <? 0 then 0 else n) (set_ts_rx_app (Some buf) x));;
                mret (Some err)
            else mret None
          else log (C_freed buf);; mret None
      | None =>
          if has_flag (ts_flags x) FLAGS_RX_CLOSE_QUEUED && negb (has_flag (ts_flags x) FLAGS_RX_CLOSED) then
            upd_state s (fun x => set_ts_flags (Z.lor (ts_flags x) FLAGS_RX_CLOSED) x);;
            p ← get_conn c;
            if ap_recv p then log (U_recv c None);; e ← up_recv E c None ERR_OK; mret (Some e) else mret None
          else mret None
      end;
  match r with
  | Some e => mret e
  | None => p ← get_conn c; mret (if bool_decide (ap_state p = Some s) then ERR_OK else ERR_ARG)
  end.

(** The bytes a turn takes off the queue, and the queue after it. *)
Definition rx_advance (p : pbuf) (ct_len : Z) : option pbuf :=
  let p := pbuf_remove_header p ct_len in
  match p with
  | s :: _ => if (length (payload s) =? 0)%nat then pbuf_dechain p else Some p
  | [] => None
  end.

(** The loop over the queue: a result, or the next turn. *)
Definition rx_turn (c s : nat) (q : pbuf) : TM (option Z) :=
  ok ← tgets (te_pbuf E);
  if negb ok then mret (Some ERR_OK)
  else
    let ct_len := Z.min (tot_len q) (PBUF_POOL_BUFSIZE + 16) in
    let ciphertext := take (Z.to_nat ct_len) (pbuf_bytes q) ++ zeros (PBUF_POOL_BUFSIZE + 16 - ct_len) in
    x ← get_state s;
    r ← or_fail (tls_decrypt_data (Some (ts_ctx x)) (Some ciphertext) ct_len (Some (zeros PBUF_POOL_BUFSIZE)) PBUF_POOL_BUFSIZE (Some 0));
    let '(ok, (ctx, out, n)) := r in
    ctx ← or_fail ctx;
    out ← or_fail out;
    plaintext_len ← or_fail n;
    upd_state s (set_ts_ctx ctx);;
    if negb ok then log (C_freed (pool_pbuf out));; altcp_tls_ce_abort c;; mret (Some ERR_ABRT)
    else
      upd_state s (set_ts_rx (rx_advance q ct_len));;
      upd_state s (fun x => set_bio_bytes_appl (s24 (bio_bytes_appl x + plaintext_len))
        (set_bio_bytes_read (s24 (bio_bytes_read x + ct_len)) x));;
      (if 0 <? plaintext_len then
         let buf := pool_pbuf (take (Z.to_nat (u16 plaintext_len)) out) in
         x ← get_state s;
         p ← get_conn c;
         altcp_tls_ce_lower_recved (inner_conn p) (s24 (bio_bytes_read x - bio_bytes_appl x));;
         upd_state s (fun x => set_ts_rx_app (Some (match ts_rx_app x with None => buf | Some a => pbuf_cat a buf end))
           (set_bio_bytes_appl 0 (set_bio_bytes_read 0 x)))
       else log (C_freed (pool_pbuf out)));;
      err ← altcp_tls_ce_pass_rx_data c s;
      if negb (err =? ERR_OK) then mret (Some (if err =? ERR_ABRT then ERR_ABRT else ERR_OK)) else mret None.

Fixpoint rx_loop (n : nat) (c s : nat) : TM Z :=
  x ← get_state s;
  match ts_rx x with
  | None => mret ERR_OK
  | Some q =>
      match n with
      | O => tfail
      | S n' =>
          r ← rx_turn c s q;
          match r with Some e => mret e | None => rx_loop n' c s end
      end
  end.
Definition altcp_tls_ce_handle_rx_appldata (c s : nat) : TM Z :=
  x ← get_state s;
  if negb (has_flag (ts_flags x) FLAGS_HANDSHAKE_DONE) then mret ERR_VAL else rx_loop fuel c s.

(** ** The handshake *)

Definition abort_with {A} (c : nat) (a : A) : TM A := altcp_tls_ce_abort c;; mret a.

(** A turn of the record loop. *)
Inductive turn := T_next | T_break | T_return (e : Z).

(** The record at the head of the ring: in place, or copied together. *)
Definition ring_record (c s : nat) (x : altcp_tls_ce_state) (total_len : Z) : TM (option bytes) :=
  record ← or_fail (tls_ring_ptr x 0 total_len);
  match record with
  | Some pos => ring ← or_fail (rx_ring x); d ← or_fail (at_off ring pos); mret (Some d)
  | None =>
      ok ← tgets (fun w => te_malloc E w (A_record total_len));
      if negb ok then abort_with c None
      else
        r ← or_fail (tls_ring_peek x 0 (zeros total_len) total_len);
        if negb r.1 then abort_with c None else mret (Some r.2)
  end.

Definition record_turn (c s : nat) (x : altcp_tls_ce_state) : TM turn :=
  r ← or_fail (tls_ring_peek x 0 (zeros 5) 5);
  if negb r.1 then abort_with c (T_return ERR_ABRT)
  else
    rec_len ← or_fail (rd16 r.2 3);
    let total_len := 5 + rec_len in
    if rx_ring_size x <? total_len then abort_with c (T_return ERR_ABRT)
    else if rx_ring_len x <? total_len then mret T_break
    else
      record ← ring_record c s x total_len;
      match record with
      | None => mret (T_return ERR_ABRT)
      | Some d =>
          r ← or_fail (tls_process_record fuel (Some (ts_ctx x)) (Some d) total_len);
          ctx ← or_fail r.2;
          upd_state s (set_ts_ctx ctx);;
          if negb r.1 then abort_with c (T_return ERR_ABRT)
          else
            with_state s (fun x => x ← tls_ring_discard x total_len; Some (tt, x));;
            mret T_next
      end.

Fixpoint record_loop (n : nat) (c s : nat) : TM (option Z) :=
  x ← get_state s;
  if negb (5 <=? rx_ring_len x) then mret None
  else
    match n with
    | O => tfail
    | S n' =>
        r ← record_turn c s x;
        match r with T_next => record_loop n' c s | T_break => mret None | T_return e => mret (Some e) end
    end.

(** After the ServerHello: a result, or application data can be handled. *)
Definition finish_handshake (c s : nat) : TM (option Z) :=
  x ← get_state s;
  r ← or_fail (tls_derive_handshake_keys (Some (ts_ctx x)));
  ctx ← or_fail r.2;
  upd_state s (set_ts_ctx ctx);;
  if negb r.1 then abort_with c (Some ERR_ABRT)
  else
    r ← or_fail (tls_send_finished (Some ctx) true (Some (zeros 36)) 36 (Some 0));
    let '(ok, (ctx, finished, finished_len)) := r in
    ctx ← or_fail ctx;
    finished ← or_fail finished;
    finished_len ← or_fail finished_len;
    upd_state s (set_ts_ctx ctx);;
    if negb ok then abort_with c (Some ERR_ABRT)
    else
      p ← get_conn c;
      write_err ← inner_write (inner_conn p) (take (Z.to_nat (u16 finished_len)) finished);
      inner_output (inner_conn p);;
      if negb (write_err =? ERR_OK) then abort_with c (Some ERR_ABRT)
      else
        x ← get_state s;
        r ← or_fail (tls_derive_application_keys (Some (ts_ctx x)));
        ctx ← or_fail r.2;
        upd_state s (set_ts_ctx ctx);;
        if negb r.1 then abort_with c (Some ERR_ABRT)
        else
          upd_state s (fun x => set_ts_ctx (set_state TLS_STATE_HANDSHAKE_COMPLETE (ts_ctx x))
            (set_ts_flags (Z.lor (ts_flags x) FLAGS_HANDSHAKE_DONE) x));;
          p ← get_conn c;
          err ← (if ap_connected p then log (U_connected c ERR_OK);; up_connected E c ERR_OK else mret ERR_OK);
          if negb (err =? ERR_OK) then mret (Some err)
          else x ← get_state s; mret (match ts_rx x with None => Some ERR_OK | Some _ => None end).

Definition altcp_tls_ce_lower_recv_process (c s : nat) : TM Z :=
  x ← get_state s;
  r ← (if has_flag (ts_flags x) FLAGS_HANDSHAKE_DONE then mret None
       else
         config ← get_config (ts_conf x);
         if negb (is_server config =? 0) then abort_with c (Some ERR_ABRT)
         else
           r ← record_loop fuel c s;
           match r with
           | Some e => mret (Some e)
           | None =>
               x ← get_state s;
               if bool_decide (state (ts_ctx x) = TLS_STATE_SERVER_HELLO_RECEIVED) then finish_handshake c s else mret None
           end);
  match r with Some e => mret e | None => altcp_tls_ce_handle_rx_appldata c s end.

(** ** Callbacks from the connection below *)

(** An error is reported, then the connection is aborted. *)
Definition report_abort (c : nat) (err : Z) : TM Z :=
  p ← get_conn c;
  (if ap_err p then log (U_err c err);; up_err E c err else mret tt);;
  abort_with c ERR_ABRT.

Definition altcp_tls_ce_lower_connected (arg : option nat) (inner : option nat) (err : Z) : TM Z :=
  match arg with
  | None => mret ERR_VAL
  | Some c =>
      p ← get_conn c;
      match ap_state p with
      | None => mret ERR_VAL
      | Some s =>
          if negb (err =? ERR_OK) && ap_connected p then log (U_connected c err);; up_connected E c err
          else
            upd_state s (set_overhead_bytes_adjust 0);;
            x ← get_state s;
            config ← get_config (ts_conf x);
            if negb (is_server config =? 0) then altcp_tls_ce_lower_recv_process c s
            else
              r ← or_fail (tls_send_client_hello (Some (ts_ctx x)) (Some (zeros 512)) 512 (Some 0));
              let '(ok, (ctx, client_hello, client_hello_len)) := r in
              ctx ← or_fail ctx;
              client_hello ← or_fail client_hello;
              client_hello_len ← or_fail client_hello_len;
              upd_state s (set_ts_ctx ctx);;
              if negb ok then report_abort c ERR_ABRT
              else
                write_err ← inner_write inner (take (Z.to_nat (u16 client_hello_len)) client_hello);
                inner_output inner;;
                if negb (write_err =? ERR_OK) then report_abort c write_err
                else
                  upd_state s (fun x => set_ts_ctx (set_state TLS_STATE_CLIENT_HELLO_SENT (ts_ctx x)) x);;
                  altcp_tls_ce_lower_recv_process c s
      end
  end.

Definition closed_below (i : option nat) (p : option pbuf) : TM Z :=
  free_chain p;;
  (match i with None => mret tt | Some i => inner_close i;; mret tt end);;
  mret ERR_CLSD.

(** The end of the stream. *)
Definition end_of_stream (c s : nat) : TM Z :=
  p ← get_conn c;
  x ← get_state s;
  if has_flag (ts_flags x) FLAGS_HANDSHAKE_DONE && has_flag (ts_flags x) FLAGS_UPPER_CALLED then
    if bool_decide (ts_rx x <> None) || bool_decide (ts_rx_app x <> None) then
      upd_state s (fun x => set_ts_flags (Z.lor (ts_flags x) FLAGS_RX_CLOSE_QUEUED) x);;
      altcp_tls_ce_handle_rx_appldata c s;;
      mret ERR_OK
    else
      upd_state s (fun x => set_ts_flags (Z.lor (ts_flags x) FLAGS_RX_CLOSED) x);;
      if ap_recv p then log (U_recv c None);; up_recv E c None ERR_OK else mret ERR_OK
  else
    (if ap_err p then log (U_err c ERR_ABRT);; up_err E c ERR_ABRT else mret tt);;
    altcp_tls_ce_close c;;
    mret ERR_OK.

Definition altcp_tls_ce_lower_recv (arg : option nat) (inner : option nat) (p : option pbuf) : TM Z :=
  match arg with
  | None => closed_below inner p
  | Some c =>
      conn ← get_conn c;
      match ap_state conn, p with
      | None, _ => closed_below inner p
      | Some s, None => end_of_stream c s
      | Some s, Some p =>
          x ← get_state s;
          if negb (has_flag (ts_flags x) FLAGS_HANDSHAKE_DONE) then
            ok ← with_state s (fun x => tls_ring_write_pbuf x p);
            log (C_freed p);;
            if negb ok then abort_with c ERR_ABRT else altcp_tls_ce_lower_recv_process c s
          else
            upd_state s (fun x => set_ts_rx (Some (match ts_rx x with None => p | Some q => pbuf_cat q p end)) x);;
            altcp_tls_ce_lower_recv_process c s
      end
  end.

Definition altcp_tls_ce_lower_sent (arg : option nat) (len : Z) : TM Z :=
  match arg with
  | None => mret ERR_OK
  | Some c =>
      p ← get_conn c;
      s ← or_fail (ap_state p);
      x ← get_state s;
      let overhead := if len <? u24 (overhead_bytes_adjust x) then len else overhead_bytes_adjust x in
      let app_len := u16 (len - u16 overhead) in
      upd_state s (fun x => set_overhead_bytes_adjust (s24 (overhead_bytes_adjust x - len)) x);;
      if app_len =? 0 then mret ERR_OK
      else
        upd_state s (fun x => set_overhead_bytes_adjust (s24 (overhead_bytes_adjust x + app_len)) x);;
        if ap_sent p then log (U_sent c app_len);; up_sent E c app_len else mret ERR_OK
  end.

Definition altcp_tls_ce_lower_poll (arg : option nat) : TM Z :=
  match arg with
  | None => mret ERR_OK
  | Some c =>
      p ← get_conn c;
      r ← match ap_state p with None => mret ERR_OK | Some s => altcp_tls_ce_handle_rx_appldata c s end;
      if r =? ERR_ABRT then mret ERR_ABRT
      else
        p ← get_conn c;
        if ap_poll p then log (U_poll c);; up_poll E c else mret ERR_OK
  end.

(** ** Set-up *)

Definition altcp_alloc : TM (option nat) :=
  ok ← tgets (te_pcb E);
  if negb ok then mret None
  else c ← fresh; tmodify (fun w => set_conns (<[c := blank_pcb]> (conns w)) w);; mret (Some c).

(** The ring starts with bytes that nothing reads before they are written. *)
Definition altcp_tls_ce_setup (conf : option nat) (c i : nat) : TM Z :=
  match conf with
  | None => mret ERR_ARG
  | Some k =>
      ok ← tgets (fun w => te_malloc E w A_state);
      if negb ok then mret ERR_MEM
      else
        config ← get_config k;
        let size := if negb (cf_rx_ring_size config =? 0) then cf_rx_ring_size config else ALTCP_TLS_CE_DEFAULT_RX_RING_SIZE in
        ok ← tgets (fun w => te_malloc E w (A_ring size));
        if negb ok then mret ERR_MEM
        else
          random ← tgets (te_random E);
          r ← or_fail (tls_handshake_init random (Some blank_handshake) (Some (cf_psk config)) (Some (cf_psk_identity config)));
          ctx ← or_fail r.2;
          if negb r.1 then mret ERR_MEM
          else
            s ← fresh;
            tmodify (fun w => set_states
              (<[s := mk_tstate k ctx (Some c) None None 0 0 0 0 0 0 size (Some (zeros size)) 0 0 0]> (states w)) w);;
            altcp_tls_ce_setup_callbacks c i;;
            upd_conn c (fun p => set_ap_state (Some s) (set_ap_fns true (set_inner_conn (Some i) p)));;
            tls_state_add s;;
            tmodify (set_g_tls_hook_registered true);;
            mret ERR_OK
  end.

Definition altcp_tls_ce_lower_accept (arg : option nat) (accepted : nat) (err : Z) : TM Z :=
  match arg with
  | None => mret ERR_ARG
  | Some l =>
      p ← get_conn l;
      match ap_state p with
      | Some s =>
          if negb (ap_accept p) then mret ERR_ARG
          else
            x ← get_state s;
            n ← altcp_alloc;
            match n with
            | None => mret ERR_MEM
            | Some c =>
                setup_err ← altcp_tls_ce_setup (Some (ts_conf x)) c accepted;
                if negb (setup_err =? ERR_OK) then altcp_free c;; mret setup_err
                else log (U_accept c);; up_accept E c err
            end
      | None => mret ERR_ARG
      end
  end.

Definition altcp_tls_ce_wrap (conf : option nat) (inner : option nat) : TM (option nat) :=
  match inner with
  | None => mret None
  | Some i =>
      ret ← altcp_alloc;
      match ret with
      | None => mret None
      | Some c =>
          e ← altcp_tls_ce_setup conf c i;
          if negb (e =? ERR_OK) then altcp_free c;; mret None else mret (Some c)
      end
  end.

Definition altcp_tcp_new : TM (option nat) :=
  ok ← tgets (te_new E);
  if negb ok then mret None
  else i ← fresh; tmodify (fun w => set_inners (<[i := mk_inner None false false 0]> (inners w)) w);; mret (Some i).

Definition altcp_tls_ce_new (conf : option nat) : TM (option nat) :=
  i ← altcp_tcp_new;
  match i with
  | None => mret None
  | Some i =>
      ret ← altcp_tls_ce_wrap conf (Some i);
      (if bool_decide (ret = None) then inner_close i;; mret tt else mret tt);;
      mret ret
  end.
Definition altcp_tls_ce_alloc := altcp_tls_ce_new.

(** ** The functions of the layer *)

(** At most [INT_MAX] bytes at a time; [n] turns. *)
Fixpoint release_pending (n : nat) (x : altcp_tls_ce_state) (pending : Z) : TM unit :=
  if pending <=? 0 then mret tt
  else
    match ts_conn x with
    | None => mret tt
    | Some c =>
        p ← get_conn c;
        match inner_conn p, n with
        | None, _ => mret tt
        | Some _, O => tfail
        | Some i, S n' =>
            let chunk := if INT_MAX <? pending then INT_MAX else pending in
            altcp_tls_ce_lower_recved (Some i) chunk;; release_pending n' x (pending - chunk)
        end
    end.
Fixpoint release_states (l : list nat) : TM unit :=
  match l with
  | [] => mret tt
  | s :: l' =>
      x ← get_state s;
      release_pending 4 x (rx_throttle_pending x);;
      upd_state s (fun x => set_rx_mild_toggle 0 (set_rx_throttle_pending 0 x));;
      release_states l'
  end.
Definition altcp_tls_ce_set_rx_throttle (level : mem_pressure_level) : TM unit :=
  tmodify (set_g_tls_rx_throttle_level level);;
  match level with
  | MEM_PRESSURE_NONE => l ← tgets g_tls_state_head; release_states l
  | _ => mret tt
  end.

(** The callbacks an application sets (altcp.c). *)
Definition altcp_recv (c : nat) (b : bool) : TM unit := upd_conn c (set_ap_recv b).
Definition altcp_sent (c : nat) (b : bool) : TM unit := upd_conn c (set_ap_sent b).
Definition altcp_err (c : nat) (b : bool) : TM unit := upd_conn c (set_ap_err b).
Definition altcp_accept (c : nat) (b : bool) : TM unit := upd_conn c (set_ap_accept b).

Definition altcp_tls_ce_set_poll (conn : option nat) (interval : Z) : TM unit :=
  match conn with
  | None => mret tt
  | Some c =>
      p ← get_conn c;
      match inner_conn p with
      | None => mret tt
      | Some i => upd_inner i (fun x => mk_inner (in_arg x) (in_callbacks x) true interval)
      end
  end.
Definition altcp_poll (c : nat) (b : bool) (interval : Z) : TM unit :=
  upd_conn c (set_ap_poll b);; altcp_tls_ce_set_poll (Some c) interval.

(** Bytes whose acknowledgement waits for less pressure. *)
Definition hold_back (s : nat) (n : Z) : TM unit :=
  upd_state s (fun x => set_rx_throttle_pending (u24 (rx_throttle_pending x + n)) x).

Definition altcp_tls_ce_recved (conn : option nat) (len : Z) : TM unit :=
  match conn with
  | None => mret tt
  | Some c =>
      p ← get_conn c;
      match ap_state p with
      | None => mret tt
      | Some s =>
          x ← get_state s;
          if negb (has_flag (ts_flags x) FLAGS_HANDSHAKE_DONE) then mret tt
          else
            let lower_recved := if rx_passed_unrecved x <? len then u16 (rx_passed_unrecved x) else len in
            upd_state s (fun x => set_rx_passed_unrecved (s24 (rx_passed_unrecved x - lower_recved)) x);;
            level ← tgets g_tls_rx_throttle_level;
            match level with
            | MEM_PRESSURE_MILD =>
                upd_state s (fun x => set_rx_mild_toggle (Z.lxor (rx_mild_toggle x) 1) x);;
                x ← get_state s;
                if rx_mild_toggle x =? 0 then hold_back s lower_recved
                else
                  (if (0 <? rx_throttle_pending x) && bool_decide (inner_conn p <> None) then
                     let chunk := if INT_MAX <? rx_throttle_pending x then INT_MAX else rx_throttle_pending x in
                     altcp_tls_ce_lower_recved (inner_conn p) chunk;;
                     upd_state s (fun x => set_rx_throttle_pending (rx_throttle_pending x - chunk) x)
                   else mret tt);;
                  inner_recved (inner_conn p) lower_recved
            | MEM_PRESSURE_NONE => inner_recved (inner_conn p) lower_recved
            | _ => hold_back s lower_recved
            end
      end
  end.

Definition altcp_tls_ce_connect (conn : option nat) (connected : bool) : TM Z :=
  match conn with
  | None => mret ERR_VAL
  | Some c =>
      upd_conn c (set_ap_connected connected);;
      p ← get_conn c;
      match inner_conn p with
      | None => mret ERR_VAL
      | Some i => _ ← get_inner i; e ← tgets (fun w => te_connect E w i); log (C_connect i);; mret e
      end
  end.

(** The connection below listens in place. *)
Definition altcp_tls_ce_listen (conn : option nat) : TM (option nat) :=
  match conn with
  | None => mret None
  | Some c =>
      p ← get_conn c;
      match inner_conn p with
      | None => mret None
      | Some i => _ ← get_inner i; ok ← tgets (fun w => te_listen E w i); mret (if ok : bool then Some c else None)
      end
  end.

Definition altcp_tls_ce_sndbuf (conn : option nat) : TM Z :=
  match conn with
  | None => mret 0
  | Some c =>
      p ← get_conn c;
      match ap_state p with
      | None => mret 0
      | Some s =>
          x ← get_state s;
          if negb (has_flag (ts_flags x) FLAGS_HANDSHAKE_DONE) then mret 0
          else
            match inner_conn p with
            | None => mret 0
            | Some i => sndbuf ← tgets (fun w => te_sndbuf E w i); mret (if 16 <? sndbuf then sndbuf - 16 else 0)
            end
      end
  end.

Definition altcp_tls_ce_write (conn : option nat) (dataptr : option bytes) (len : Z) : TM Z :=
  match conn with
  | None => mret ERR_VAL
  | Some c =>
      p ← get_conn c;
      match ap_state p with
      | None => mret ERR_ARG
      | Some s =>
          x ← get_state s;
          if negb (has_flag (ts_flags x) FLAGS_HANDSHAKE_DONE) then mret ERR_VAL
          else
            r ← or_fail (tls_encrypt_data (Some (ts_ctx x)) dataptr len (Some (zeros 2048)) 2048 (Some 0));
            let '(ok, (ctx, ciphertext, ciphertext_len)) := r in
            ctx ← or_fail ctx;
            ciphertext ← or_fail ciphertext;
            ciphertext_len ← or_fail ciphertext_len;
            upd_state s (set_ts_ctx ctx);;
            if negb ok then mret ERR_MEM
            else
              err ← inner_write (inner_conn p) (take (Z.to_nat (u16 ciphertext_len)) ciphertext);
              if err =? ERR_OK then
                inner_output (inner_conn p);;
                upd_state s (fun x => set_overhead_bytes_adjust
                  (s24 (s24 (overhead_bytes_adjust x - len) + ciphertext_len)) x);;
                mret err
              else mret err
      end
  end.

Definition altcp_tls_ce_mss (conn : option nat) : TM Z :=
  match conn with
  | None => mret 0
  | Some c =>
      p ← get_conn c;
      inner_mss ← match inner_conn p with None => mret 0 | Some i => tgets (fun w => te_mss E w i) end;
      mret (if 16 <? inner_mss then inner_mss - 16 else 0)
  end.
End Env.
End Altcp.
