(* ===== verification/AltcpCorrect.v ===== *)
(** * Correctness of TLS under altcp

    The record ring of [AltcpTls] is a queue of bytes; the client's handshake
    ends when one delivery brings the ServerHello; messages written at one
    end are received at the other; acknowledgements that were held back are all
    given when the pressure ends. *)

From S2P Require Import Prelude MemState RingList Session TlsHash TlsKdf Rsa RsaCorrect Aes AesRef AesBlock GcmField GcmCorrect Handshake KeySchedule HelloCorrect RecordCorrect TlsSession AltcpTls.

Import Fips197 Gcm.

(** ** The ring is a queue *)

Lemma min_before_end c pos n : Z.min n (c - pos) = before_end c pos n.
Proof. unfold before_end. destruct (Z.ltb_spec n (c - pos)); lia. Qed.
Lemma rd_at_slice b off n : 0 <= off -> 0 <= n -> off + n <= Z.of_nat (length b) -> rd_at b off n = Some (slice b off n).
Proof.
  intros Ho Hn Hl. unfold rd_at, at_off, rd, in_bounds. ztest. cbn [andb mbind option_bind]. rewrite length_drop. ztest. cbn [andb].
  unfold slice. by rewrite drop_drop, Nat.add_0_r.
Qed.
Lemma store_at_splice b off d : 0 <= off -> off + Z.of_nat (length d) <= Z.of_nat (length b) -> store_at b off d = Some (splice b off d).
Proof. intros Ho Hl. unfold store_at, in_bounds. by ztest. Qed.

Section Laws.
Context {St : Type} {ops : Sha256 St} {laws : Sha256Laws St}.
Abbreviation context := (tls_handshake_context (St := St)).
Abbreviation tstate := (altcp_tls_ce_state (St := St)).
Abbreviation world := (world (St := St)).
Abbreviation TM := (TM (St := St)).
Abbreviation tls_env := (tls_env (St := St)).

(** The state holds the bytes [q] in its ring. *)
Record holds (x : tstate) (q : bytes) : Prop := {
  h_ring : exists ring, rx_ring x = Some ring /\ Z.of_nat (length ring) = rx_ring_size x /\
    q = rot ring (Z.to_nat (rx_ring_head x)) (Z.to_nat (rx_ring_len x));
  h_head : 0 <= rx_ring_head x < rx_ring_size x;
  h_len : 0 <= rx_ring_len x <= rx_ring_size x;
  h_size : rx_ring_size x < 2 ^ 23
}.
Lemma holds_length x q : holds x q -> Z.of_nat (length q) = rx_ring_len x.
Proof. intros [(ring&_&Hl&->) Hh Hn _]. rewrite length_rot by lia. lia. Qed.

(** What [x] may become by a write. *)
Definition refilled (x x' : tstate) : Prop := exists n ring, x' = set_rx_ring_len n (set_rx_ring ring x).

Lemma ring_write_ok x q d : holds x q -> Z.of_nat (length d) < 2 ^ 23 ->
  exists x', tls_ring_write x d (Z.of_nat (length d)) =
    Some (bool_decide (Z.of_nat (length q + length d) <= rx_ring_size x), x') /\ refilled x x' /\
    holds x' (if bool_decide (Z.of_nat (length q + length d) <= rx_ring_size x) then q ++ d else q).
Proof.
  intros Hq Hd. pose proof (holds_length x q Hq) as Hql. pose proof Hq as [(ring&Er&Hl&Hqe) Hh Hn Hs]. cbn in Hs, Hd.
  assert (refilled x x) as Hx by (exists (rx_ring_len x), (rx_ring x); by destruct x).
  unfold tls_ring_write. rewrite Er. unfold tls_ring_space. rewrite u24_small by lia.
  case_bool_decide as Hfit; ztest; [|by exists x].
  rewrite !u24_small by lia. rewrite min_before_end. rewrite <- Hl.
  set (tail := (rx_ring_head x + rx_ring_len x) mod Z.of_nat (length ring)).
  assert (0 <= tail < Z.of_nat (length ring)) as Ht by (apply Z.mod_pos_bound; lia).
  pose proof (before_end_spec (Z.of_nat (length ring)) tail (Z.of_nat (length d)) Ht ltac:(lia)) as (_&Hf&Hf2&_).
  set (first := before_end _ _ _) in *.
  rewrite (rd_at_slice d 0 first) by lia. cbn [mbind option_bind].
  assert (slice d 0 first = take (Z.to_nat first) d) as -> by (unfold slice; by rewrite drop_0).
  assert (slice d first (Z.of_nat (length d) - first) = drop (Z.to_nat first) d) as Hd2.
  { unfold slice. apply take_ge. rewrite length_drop. lia. }
  rewrite store_at_splice by (rewrite ?length_take; lia). cbn [mbind option_bind].
  rewrite rd_at_slice, Hd2 by lia. cbn [mbind option_bind].
  rewrite store_at_splice by (rewrite ?length_splice, ?length_drop, ?length_take by (rewrite ?length_take; lia); lia). cbn [mbind option_bind].
  eexists. split; [reflexivity|]. split; [by eexists _, _|].
  split; cbn; rewrite <- ?Hl; [|lia..]. eexists. split; [reflexivity|]. split.
  { rewrite !length_splice by (rewrite ?length_splice, ?length_drop, ?length_take by (rewrite ?length_take; lia); lia). lia. }
  rewrite Hqe. symmetry. apply write_ring; lia.
Qed.

Lemma refilled_trans x y z : refilled x y -> refilled y z -> refilled x z.
Proof. intros (n&r&->) (n'&r'&->). by exists n', r'. Qed.
Lemma refilled_size x y : refilled x y -> rx_ring_size y = rx_ring_size x.
Proof. by intros (n&r&->). Qed.

(** A chain that fits is written whole. *)
Lemma ring_write_pbuf_ok p : forall x q, holds x q -> Z.of_nat (length q + length (pbuf_bytes p)) <= rx_ring_size x ->
  exists x', tls_ring_write_pbuf x p = Some (true, x') /\ refilled x x' /\ holds x' (q ++ pbuf_bytes p).
Proof.
  induction p as [|g p IH]; intros x q Hq Hfit.
  - exists x. rewrite app_nil_r. split_and!; try done. exists (rx_ring_len x), (rx_ring x). by destruct x.
  - change (pbuf_bytes (g :: p)) with (payload g ++ pbuf_bytes p) in *. rewrite length_app in Hfit. pose proof (h_size _ _ Hq).
    destruct (ring_write_ok x q (payload g) Hq ltac:(lia)) as (x1&E1&R1&H1). rewrite bool_decide_true in E1, H1 by lia.
    cbn [tls_ring_write_pbuf]. rewrite E1. cbn [mbind option_bind fst snd].
    destruct (IH x1 (q ++ payload g) H1) as (x2&E2&R2&H2).
    { rewrite (refilled_size _ _ R1), length_app. lia. }
    exists x2. split; [done|]. split; [by eapply refilled_trans|]. by rewrite app_assoc.
Qed.

Lemma ring_peek_ok x q off out n : holds x q -> 0 <= off -> 0 < n -> off + n < 2 ^ 24 -> n = Z.of_nat (length out) ->
  tls_ring_peek x off out n = Some (if bool_decide (off + n <= Z.of_nat (length q))
    then (true, take (Z.to_nat n) (drop (Z.to_nat off) q)) else (false, out)).
Proof.
  intros Hq Ho Hn H24 Hout. pose proof (holds_length x q Hq) as Hql. pose proof Hq as [(ring&Er&Hl&Hqe) Hh Hlen Hs]. cbn in Hs, H24.
  unfold tls_ring_peek. rewrite u24_small by lia. case_bool_decide as Hfit; ztest; [|done].
  rewrite u24_small by lia. rewrite min_before_end, Er. cbn [mbind option_bind]. rewrite <- Hl.
  set (pos := (rx_ring_head x + off) mod Z.of_nat (length ring)).
  assert (0 <= pos < Z.of_nat (length ring)) as Hp by (apply Z.mod_pos_bound; lia).
  pose proof (before_end_spec (Z.of_nat (length ring)) pos n Hp ltac:(lia)) as (Hor&Hf&Hf2&_). rewrite Hqe.
  rewrite <- (read_ring ring (rx_ring_head x) (rx_ring_len x)) by lia. cbv zeta. fold pos.
  set (first := before_end _ _ _) in *.
  assert (length (slice ring pos first) = Z.to_nat first) as La by (apply length_slice; lia).
  assert (length (slice ring 0 (n - first)) = Z.to_nat (n - first)) as Lb by (apply length_slice; lia).
  rewrite (rd_at_slice ring pos first) by lia. cbn [mbind option_bind]. rewrite store_at_splice by lia. cbn [mbind option_bind].
  rewrite rd_at_slice by lia. cbn [mbind option_bind]. rewrite store_at_splice by (rewrite ?length_splice; lia). cbn [mbind option_bind].
  do 2 f_equal. unfold splice. rewrite La. change (Z.to_nat 0) with 0%nat. rewrite !take_0, !app_nil_l.
  rewrite take_app_le, (take_ge (slice ring pos first)) by lia. rewrite drop_ge; [by rewrite app_nil_r|].
  rewrite length_app, length_drop. lia.
Qed.



(** ** Running the layer *)

(** The world with [x] as the state [s] and the calls [l] made. *)
Definition put_state (w : world) (s : nat) (x : tstate) (l : list call) : world :=
  set_calls (calls w ++ l) (set_states (<[s := x]> (states w)) w).
Lemma tm_step {A B} (m : TM A) (f : A -> TM B) w a w' : m w = Some (a, w') -> (m ≫= f) w = f a w'.
Proof. intros Hm. unfold mbind, TM_bind. by rewrite Hm. Qed.
Lemma tm_assoc {A B D} (m : TM A) (f : A -> TM B) (g : B -> TM D) w : ((m ≫= f) ≫= g) w = (m ≫= (fun a => f a ≫= g)) w.
Proof. unfold mbind, TM_bind. by destruct (m w) as [[]|]. Qed.
Lemma put_state_nil w s x : states w !! s = Some x -> put_state w s x [] = w.
Proof. intros Hx. unfold put_state. destruct w. cbn in *. by rewrite app_nil_r, insert_id. Qed.
Lemma put_put w s x l x' l' : put_state (put_state w s x l) s x' l' = put_state w s x' (l ++ l').
Proof. unfold put_state. destruct w. cbn. by rewrite insert_insert_eq, app_assoc. Qed.
Lemma get_put w s x l : get_state s (put_state w s x l) = Some (x, put_state w s x l).
Proof. unfold get_state, put_state. cbn. by rewrite lookup_insert_eq. Qed.
Lemma upd_put w s x l f : upd_state s f (put_state w s x l) = Some (tt, put_state w s (f x) l).
Proof. unfold upd_state. rewrite (tm_step _ _ _ _ _ (get_put w s x l)). unfold tmodify, put_state. cbn. by rewrite insert_insert_eq. Qed.
Lemma with_put {A} w s x l (g : tstate -> option (A * tstate)) a x' : g x = Some (a, x') ->
  with_state s g (put_state w s x l) = Some (a, put_state w s x' l).
Proof.
  intros Hg. unfold with_state. rewrite (tm_step _ _ _ _ _ (get_put w s x l)), Hg. unfold or_fail.
  rewrite (tm_step (mret (a, x')) _ _ (a, x') _ eq_refl). unfold tmodify, put_state, mbind, TM_bind. cbn. by rewrite insert_insert_eq.
Qed.
Lemma log_put w s x l k : log k (put_state w s x l) = Some (tt, put_state w s x (l ++ [k])).
Proof. unfold log, tmodify, put_state. destruct w. cbn. by rewrite app_assoc. Qed.
Lemma conn_put w s x l c p : conns w !! c = Some p -> get_conn c (put_state w s x l) = Some (p, put_state w s x l).
Proof. intros Hc. unfold get_conn, put_state. cbn. by rewrite Hc. Qed.
Lemma config_put w s x l k g : configs w !! k = Some g -> get_config k (put_state w s x l) = Some (g, put_state w s x l).
Proof. intros Hc. unfold get_config, put_state. cbn. by rewrite Hc. Qed.
Lemma inner_put w s x l i y : inners w !! i = Some y -> get_inner i (put_state w s x l) = Some (y, put_state w s x l).
Proof. intros Hc. unfold get_inner, put_state. cbn. by rewrite Hc. Qed.

(** Run the next call of a sequence. *)
Ltac texec :=
  repeat (first [ rewrite tm_assoc | erewrite tm_step by (first [ apply get_put | apply upd_put | apply log_put | apply conn_put; eassumption
    | apply config_put; eassumption | apply inner_put; eassumption | reflexivity ]) ]; cbv beta iota).

Section Conn.
Context (E : tls_env) (w : world) (c s i k : nat) (p : altcp_pcb) (y : inner_pcb) (cfg : altcp_tls_ce_config).
Context (Hc : conns w !! c = Some p) (Hps : ap_state p = Some s) (Hpi : inner_conn p = Some i) (Hy : inners w !! i = Some y).
Context (Hk : configs w !! k = Some cfg) (Hclient : is_server cfg = 0).
Abbreviation W := (put_state w s).

Lemma write_put x l d : inner_write E (Some i) d (W x l) = Some (te_write E (W x l) i d, W x (l ++ [C_write i d])).
Proof using Hy. unfold inner_write. by texec. Qed.
Lemma output_put x l : inner_output (Some i) (W x l) = Some (tt, W x (l ++ [C_output i])).
Proof using Hy. unfold inner_output. texec. apply log_put. Qed.
Lemma recved_put x l n : inner_recved (Some i) n (W x l) = Some (tt, W x (l ++ [C_recved i n])).
Proof using Hy. unfold inner_recved. texec. apply log_put. Qed.

(** ** The handshake *)

Definition record (h : ServerHello) : bytes := [22; 3; 3] ++ be16 (Z.of_nat (length (sh_bytes h))) ++ sh_bytes h.
Lemma length_record h : length (record h) = (5 + length (sh_bytes h))%nat.
Proof. unfold record. rewrite !length_app. cbn [length be16]. lia. Qed.

Lemma header_len h q rest : record h = q ++ rest -> (5 <= length q)%nat -> Z.of_nat (length (record h)) < 65536 ->
  rd16 (take (Z.to_nat 5) q) 3 = Some (Z.of_nat (length (sh_bytes h))).
Proof.
  intros Eq Hq Hr. rewrite length_record in Hr. change (Z.to_nat 5) with 5%nat. assert (take 5 q = [22; 3; 3] ++ be16 (Z.of_nat (length (sh_bytes h))) ++ []) as ->.
  { transitivity (take 5 (record h)); [rewrite Eq; by rewrite take_app_le by lia|]. unfold record. reflexivity. }
  apply (place_rd16 _ 3 _ []); [|lia]. apply (place_skip _ 0 [22; 3; 3] _ 3); [apply place_0|done].
Qed.


(** Before the record is complete nothing happens. *)
Record waiting (x : tstate) (m : bytes) (q : bytes) : Prop := {
  wt_conf : ts_conf x = k;
  wt_flags : has_flag (ts_flags x) FLAGS_HANDSHAKE_DONE = false;
  wt_state : state (ts_ctx x) = TLS_STATE_CLIENT_HELLO_SENT;
  wt_ok : context_ok (ts_ctx x) m;
  wt_rx : ts_rx x = None;
  wt_holds : holds x q
}.
Lemma appldata_early fuel x l : has_flag (ts_flags x) FLAGS_HANDSHAKE_DONE = false ->
  altcp_tls_ce_handle_rx_appldata E fuel c s (W x l) = Some (ERR_VAL, W x l).
Proof. intros Hf. unfold altcp_tls_ce_handle_rx_appldata. texec. by rewrite Hf. Qed.

Lemma peeked x q n : holds x q -> 0 < n <= Z.of_nat (length q) -> tls_ring_peek x 0 (zeros n) n = Some (true, take (Z.to_nat n) q).
Proof.
  intros Hq Hn. pose proof (holds_length x q Hq). pose proof (h_size _ _ Hq). pose proof (h_len _ _ Hq).
  rewrite (ring_peek_ok x q) by (try done; unfold zeros; rewrite ?length_replicate; lia).
  rewrite bool_decide_true by lia. by rewrite drop_0.
Qed.

Lemma loop_waits n fuel x l q rest h : holds x q -> record h = q ++ rest -> rest <> [] ->
  Z.of_nat (length (record h)) <= rx_ring_size x -> Z.of_nat (length (record h)) < 65536 ->
  record_loop E fuel (S n) c s (W x l) = Some (None, W x l).
Proof.
  intros Hq Eq Hr Hsz Hlt. pose proof (holds_length x q Hq) as Hl.
  assert (length q < length (record h))%nat as Hql by (rewrite Eq, length_app; destruct rest; [done|cbn; lia]).
  rewrite length_record in *. cbn [record_loop]. texec. destruct (Z.leb_spec 5 (rx_ring_len x)) as [H5|]; [|done]. cbn [negb].
  unfold record_turn. rewrite (peeked x q 5 Hq) by lia. texec. cbn [fst snd negb]. rewrite (header_len h q rest) by (try done; rewrite ?length_record; lia).
  texec. ztest. by texec.
Qed.
Lemma process_waits fuel x m l q rest h : waiting x m q -> record h = q ++ rest -> rest <> [] ->
  Z.of_nat (length (record h)) <= rx_ring_size x -> Z.of_nat (length (record h)) < 65536 ->
  altcp_tls_ce_lower_recv_process E (S fuel) c s (W x l) = Some (ERR_VAL, W x l).
Proof using Hk Hclient.
  intros [Hcf Hf Hst _ _ Hq] Eq Hr Hsz Hlt. unfold altcp_tls_ce_lower_recv_process. rewrite <- Hcf in Hk. texec. rewrite Hf.
  texec. rewrite Hclient. cbn [negb Z.eqb]. texec.
  rewrite (tm_step _ _ _ _ _ (loop_waits fuel (S fuel) x l q rest h Hq Eq Hr Hsz Hlt)). texec.
  rewrite bool_decide_false by by rewrite Hst. texec. by apply appldata_early.
Qed.






Lemma waiting_refilled x x' m q q' : waiting x m q -> refilled x x' -> holds x' q' -> waiting x' m q'.
Proof. intros [] (n&r&->) Hh. by split. Qed.

(** A piece that was received is in the ring. *)
Lemma recv_piece fuel x m l q g : waiting x m q -> Z.of_nat (length q + length (pbuf_bytes g)) <= rx_ring_size x ->
  exists x', refilled x x' /\ waiting x' m (q ++ pbuf_bytes g) /\
    altcp_tls_ce_lower_recv E fuel (Some c) (Some i) (Some g) (W x l) =
    altcp_tls_ce_lower_recv_process E fuel c s (W x' (l ++ [C_freed g])).
Proof using Hc Hps.
  intros Hwt Hfit. destruct (ring_write_pbuf_ok g x q (wt_holds _ _ _ Hwt) Hfit) as (x'&Ew&Hr&Hh). exists x'. split; [done|].
  split; [by eapply waiting_refilled|]. unfold altcp_tls_ce_lower_recv. texec. rewrite Hps. texec. rewrite (wt_flags _ _ _ Hwt).
  cbn [negb]. rewrite (tm_step _ _ _ _ _ (with_put w s x l _ _ _ Ew)). texec. reflexivity.
Qed.

(** What TCP delivers, one chain of buffers after the other, as long as each is
    taken: a buffer refused is not followed by another. *)
Fixpoint deliver_all (fuel : nat) (ps : list pbuf) : TM (list Z) :=
  match ps with
  | [] => mret []
  | g :: ps' =>
      e ← altcp_tls_ce_lower_recv E fuel (Some c) (Some i) (Some g);
      if e =? ERR_OK then es ← deliver_all fuel ps'; mret (e :: es) else mret [e]
  end.


(** A piece of the record that is not its end is kept in the ring and its
    buffers are released, but the answer is that of a buffer refused. *)
Lemma piece_refused fuel h g x m l q rest : waiting x m q ->
  Z.of_nat (length (record h)) <= rx_ring_size x -> Z.of_nat (length (record h)) < 65536 ->
  record h = q ++ pbuf_bytes g ++ rest -> rest <> [] ->
  exists x', altcp_tls_ce_lower_recv E (S fuel) (Some c) (Some i) (Some g) (W x l) = Some (ERR_VAL, W x' (l ++ [C_freed g])) /\
    waiting x' m (q ++ pbuf_bytes g).
Proof using Hc Hps Hk Hclient.
  intros Hwt Hsz Hlt Eq Hne.
  assert (Z.of_nat (length q + length (pbuf_bytes g)) <= rx_ring_size x) as Hfit by (rewrite Eq, !length_app in Hsz; lia).
  destruct (recv_piece (S fuel) x m l q g Hwt Hfit) as (x1&Hr&Hwt1&Er). pose proof Hr as (n&r&Ex1). rewrite app_assoc in Eq.
  assert (rx_ring_size x1 = rx_ring_size x) as Es by by rewrite Ex1. rewrite <- Es in Hsz.
  exists x1. split; [|exact Hwt1]. rewrite Er. exact (process_waits fuel x1 m (l ++ [C_freed g]) _ _ h Hwt1 Eq Hne Hsz Hlt).
Qed.

End Conn.

(** A connection, its state and the connection below. *)
Record link (w : world) (c s i : nat) (p : altcp_pcb) (y : inner_pcb) (x : tstate) : Prop := {
  ln_pcb : conns w !! c = Some p;
  ln_state : ap_state p = Some s;
  ln_inner : inner_conn p = Some i;
  ln_below : inners w !! i = Some y;
  ln_states : states w !! s = Some x
}.


(** ** Application data *)

Lemma s24_small z : - 2 ^ 23 <= z < 2 ^ 23 -> s24 z = z.
Proof. intros Hz. cbn in Hz. unfold s24. rewrite Z.mod_small by (cbn; lia). lia. Qed.
Lemma flag_kept f g b : has_flag f b = true -> has_flag (Z.lor f g) b = true.
Proof.
  unfold has_flag. rewrite !negb_true_iff, !Z.eqb_neq. intros Hf H0. apply Hf. rewrite Z.land_lor_distr_l in H0.
  by apply Z.lor_eq_0_iff in H0 as [? _].
Qed.
Lemma protect_split key iv seq_num m : direction_ok key iv seq_num -> m <> [] -> Forall is_byte m -> Z.of_nat (length m) < 8192 ->
  let ct := (sealed key iv seq_num m).1 in let tag := (sealed key iv seq_num m).2 in
  protect key iv seq_num m = ct ++ tag /\ length ct = length m /\ length tag = 16%nat /\ ct <> [] /\ Forall is_byte ct /\
  seal_text key (nonce_of iv seq_num) ct = m /\
  tag = code_tag key (nonce_of iv seq_num) (record_aad (Z.of_nat (length ct) + 16)) ct.
Proof.
  intros Hd Hm Fm Lm ct tag. pose proof (sealed_tag key iv seq_num m Hd Hm Fm Lm) as Lt. fold tag in Lt.
  assert (valid_key key) as Hv by (destruct Hd as [[Lk Fk] _ _]; split; [by left|done]).
  pose proof (dir_iv _ _ _ Hd) as [Li Fi]. destruct (nonce_facts iv seq_num Li Fi) as [Ln Fn].
  destruct (seal_text_facts key (nonce_of iv seq_num) m Hv ltac:(lia) Fn) as (Lc&Ecc&Fc). specialize (Fc Fm).
  change (seal_text key (nonce_of iv seq_num) m) with ct in Lc, Ecc, Fc.
  split_and!; try done.
  - intros H0. apply Hm. apply length_zero_iff_nil. by rewrite <- Lc, H0.
  - unfold tag, sealed. cbn [snd]. by rewrite Lc.
Qed.

(** A record at the front of the buffer of [rx_turn]. *)
Lemma record_opened (ctx : context) m z :
  let key := server_application_key (keys ctx) in
  let iv := server_application_iv (keys ctx) in
  let q := server_seq_num ctx in
  direction_ok key iv q -> m <> [] -> Forall is_byte m -> Z.of_nat (length m) <= 256 ->
  length (protect key iv q m) = (length m + 16)%nat /\
  tls_decrypt_data (Some ctx) (Some (protect key iv q m ++ z)) (Z.of_nat (length m) + 16)
    (Some (zeros PBUF_POOL_BUFSIZE)) PBUF_POOL_BUFSIZE (Some 0) =
  Some (true, (Some (set_server_seq_num (u64 (q + 1)) ctx), Some (m ++ drop (length m) (zeros PBUF_POOL_BUFSIZE)),
    Some (Z.of_nat (length m)))).
Proof.
  intros key iv q Hd Hm Fm Lm. destruct (protect_split key iv q m Hd Hm Fm ltac:(lia)) as (->&Lc&Lt&Hct&Fc&Ecc&Etag).
  set (ct := (sealed key iv q m).1) in *. set (tag := (sealed key iv q m).2) in *. clearbody tag. clearbody ct.
  split; [rewrite length_app; lia|]. rewrite <- app_assoc.
  pose proof (open_record_front ctx ct tag z (zeros PBUF_POOL_BUFSIZE) PBUF_POOL_BUFSIZE 0 Hd Hct Fc Lt) as Ho.
  assert (PBUF_POOL_BUFSIZE = 256) as Hb by done. assert (length (zeros PBUF_POOL_BUFSIZE) = 256%nat) as Hz by done.
  specialize (Ho ltac:(lia) ltac:(lia)). fold key iv q in Ho. rewrite bool_decide_true in Ho by exact Etag. rewrite Ecc, Lc in Ho. exact Ho.
Qed.

Lemma advance_all r n : n = Z.of_nat (length r) -> rx_advance [mk_seg r 1] n = None.
Proof. intros ->. unfold rx_advance. cbn [pbuf_remove_header payload]. rewrite Z.ltb_irrefl, Nat2Z.id, drop_all. reflexivity. Qed.

(** The application takes what it gets. *)
Record taking (E : tls_env) : Prop := {
  tk_pbuf : forall w', te_pbuf E w' = true;
  tk_recv : forall j b w', up_recv E j (Some b) ERR_OK w' = Some (ERR_OK, w')
}.
(** Nothing is queued. *)
Record ready (x : tstate) : Prop := {
  rd_flags : has_flag (ts_flags x) FLAGS_HANDSHAKE_DONE = true;
  rd_rx : ts_rx x = None;
  rd_app : ts_rx_app x = None;
  rd_read : bio_bytes_read x = 0;
  rd_appl : bio_bytes_appl x = 0
}.

Section Data.
Context (E : tls_env) (w : world) (c s i : nat) (p : altcp_pcb) (y : inner_pcb).
Context (Hc : conns w !! c = Some p) (Hps : ap_state p = Some s) (Hpi : inner_conn p = Some i) (Hy : inners w !! i = Some y).
Abbreviation W := (put_state w s).

(** At most 65535 bytes are acknowledged at once. *)
Lemma lower_recved_small x l n : 0 < n <= 65535 -> altcp_tls_ce_lower_recved (Some i) n (W x l) = Some (tt, W x (l ++ [C_recved i n])).
Proof using Hy.
  intros Hn. assert (forall k, lower_recved_loop (S k) (Some i) n (W x l) = Some (tt, W x (l ++ [C_recved i n]))) as H0; [|apply H0].
  intros k. cbn [lower_recved_loop]. ztest. rewrite Z.min_l, u16_small by lia.
  rewrite (tm_step _ _ _ _ _ (recved_put w s i y Hy x l n)). rewrite Z.sub_diag. by destruct k.
Qed.

Lemma pass_ok x l b : taking E -> ap_recv p = true -> ts_rx_app x = Some b ->
  exists n, altcp_tls_ce_pass_rx_data E c s (W x l) = Some (ERR_OK,
    W (set_ts_flags (Z.lor (ts_flags x) FLAGS_UPPER_CALLED) (set_rx_passed_unrecved n (set_ts_rx_app None x)))
      (l ++ [U_recv c (Some (pbuf_bytes b))])).
Proof using Hc Hps.
  intros [_ Hr] Hrecv Ha. eexists. unfold altcp_tls_ce_pass_rx_data. texec. rewrite Ha. texec. rewrite Hrecv. texec.
  rewrite (tm_step _ _ _ _ _ (Hr _ _ _)). change (negb (ERR_OK =? ERR_OK)) with false. cbv iota. texec.
  rewrite bool_decide_true by done. reflexivity.
Qed.

(** What the arrival of a record leaves. *)
Lemma record_received fuel x l m :
  let key := server_application_key (keys (ts_ctx x)) in
  let iv := server_application_iv (keys (ts_ctx x)) in
  let q := server_seq_num (ts_ctx x) in
  taking E -> ap_recv p = true -> ready x -> direction_ok key iv q -> m <> [] -> Forall is_byte m -> Z.of_nat (length m) <= 256 ->
  exists x', altcp_tls_ce_lower_recv E (S fuel) (Some c) (Some i) (Some [mk_seg (protect key iv q m) 1]) (W x l) =
      Some (ERR_OK, W x' (l ++ [C_recved i 16; U_recv c (Some m)])) /\
    ready x' /\ ts_ctx x' = set_server_seq_num (u64 (q + 1)) (ts_ctx x).
Proof using Hc Hps Hpi Hy.
  intros key iv q Htk Hrecv [Hf Hrx Happ Hrd Hap] Hd Hm Fm Lm.
  destruct (record_opened (ts_ctx x) m (zeros (272 - (Z.of_nat (length m) + 16))) Hd Hm Fm Lm) as [Lr Eo]. fold key iv q in Lr, Eo.
  set (r := protect key iv q m) in *. clearbody r. set (n := Z.of_nat (length m)) in *.
  unfold altcp_tls_ce_lower_recv. texec. rewrite Hps. texec. rewrite Hf. cbn [negb]. texec. rewrite Hrx.
  unfold altcp_tls_ce_lower_recv_process. texec. cbn [ts_flags set_ts_rx]. rewrite Hf. texec.
  unfold altcp_tls_ce_handle_rx_appldata. texec. cbn [ts_flags set_ts_rx]. rewrite Hf. cbn [negb].
  cbn [rx_loop]. texec. cbn [ts_rx set_ts_rx]. unfold rx_turn at 1. texec. rewrite (tk_pbuf E Htk). cbn [negb].
  assert (pbuf_bytes [mk_seg r 1] = r) as Ep by (cbn; by rewrite app_nil_r).
  assert (tot_len [mk_seg r 1] = n + 16) as El by (unfold tot_len; rewrite Ep, u16_small by lia; lia).
  rewrite El, Ep. change (PBUF_POOL_BUFSIZE + 16) with 272. rewrite Z.min_l, (take_ge r) by lia. texec. cbn [ts_ctx set_ts_rx].
  rewrite Eo. texec. cbn [negb]. texec.
  rewrite (proj2 (Z.ltb_lt 0 n)) by (destruct m; [done|unfold n; cbn; lia]). texec. rewrite Hpi.
  cbn [bio_bytes_read bio_bytes_appl set_bio_bytes_appl set_bio_bytes_read set_ts_rx set_ts_ctx]. rewrite Hrd, Hap.
  assert (- 2 ^ 23 <= n + 16 < 2 ^ 23) as Hb1 by (cbn; lia). assert (- 2 ^ 23 <= n < 2 ^ 23) as Hb2 by (cbn; lia).
  rewrite !Z.add_0_l, (s24_small _ Hb1), (s24_small _ Hb2). replace (n + 16 - n) with 16 by lia. change (s24 16) with 16.
  rewrite (tm_step _ _ _ _ _ (lower_recved_small _ _ 16 ltac:(lia))). texec.
  rewrite u16_small by lia. rewrite (take_app_length' m) by lia. rewrite (advance_all r (n + 16)) by lia.
  match goal with |- context [put_state w s ?xx (l ++ [C_recved i 16])] => set (x1 := xx) end.
  assert (ts_rx_app x1 = Some (pool_pbuf m)) as Ha1 by (subst x1; cbn; by rewrite Happ). 
  destruct (pass_ok x1 (l ++ [C_recved i 16]) _ Htk Hrecv Ha1) as (u&Eu). rewrite (tm_step _ _ _ _ _ Eu).
  change (negb (ERR_OK =? ERR_OK)) with false. cbv iota. texec. eexists. split.
  - destruct fuel; cbn [rx_loop]; texec; cbn; rewrite app_nil_r, <- app_assoc; reflexivity.
  - split; [|reflexivity]. split; try reflexivity. by apply flag_kept.
Qed.

Lemma record_written x l m :
  let key := client_application_key (keys (ts_ctx x)) in
  let iv := client_application_iv (keys (ts_ctx x)) in
  let q := client_seq_num (ts_ctx x) in
  has_flag (ts_flags x) FLAGS_HANDSHAKE_DONE = true -> (forall w' j d, te_write E w' j d = ERR_OK) ->
  direction_ok key iv q -> m <> [] -> Forall is_byte m -> Z.of_nat (length m) <= 2032 ->
  exists n, altcp_tls_ce_write E (Some c) (Some m) (Z.of_nat (length m)) (W x l) = Some (ERR_OK,
    W (set_overhead_bytes_adjust n (set_ts_ctx (set_client_seq_num (u64 (q + 1)) (ts_ctx x)) x))
      (l ++ [C_write i (protect key iv q m); C_output i])).
Proof using Hc Hps Hpi Hy.
  intros key iv q Hf Hwr Hd Hm Fm Lm. pose proof (protect_record (ts_ctx x) m (zeros 2048) 2048 0 Hd Hm Fm ltac:(lia)) as Ep.
  assert (length (zeros 2048) = 2048%nat) as Lz by (unfold zeros; by rewrite length_replicate). specialize (Ep ltac:(lia)). fold key iv q in Ep.
  destruct (protect_split key iv q m Hd Hm Fm ltac:(lia)) as (Es&Lc&Lt&_). cbv zeta in Es.
  assert (length (protect key iv q m) = (length m + 16)%nat) as Lr by (rewrite Es, length_app; lia). clear Es Lc Lt.
  set (r := protect key iv q m) in *. clearbody r. clear Lz. set (z := drop (length m + 16) (zeros 2048)) in *. clearbody z.
  eexists. unfold altcp_tls_ce_write. texec. rewrite Hps. texec. rewrite Hf. cbn [negb]. rewrite Ep. texec. cbn [negb]. rewrite Hpi.
  rewrite u16_small by lia. rewrite (take_app_length' r) by lia. rewrite (tm_step _ _ _ _ _ (write_put E w s i y Hy _ _ _)), Hwr.
  change (ERR_OK =? ERR_OK) with true. cbv iota. rewrite (tm_step _ _ _ _ _ (output_put w s i y Hy _ _)). texec. by rewrite <- app_assoc.
Qed.

Fixpoint write_all (ms : list bytes) : TM (list Z) :=
  match ms with
  | [] => mret []
  | m :: ms' => e ← altcp_tls_ce_write E (Some c) (Some m) (Z.of_nat (length m)); es ← write_all ms'; mret (e :: es)
  end.
End Data.

(** A record in a buffer of its own. *)
Definition segment (r : bytes) : pbuf := [mk_seg r 1].
(** Calls for a record, at the sender and at the receiver. *)
Definition sent_calls (i : nat) (r : bytes) : list call := [C_write i r; C_output i].
Definition received_calls (c i : nat) (m : bytes) : list call := [C_recved i 16; U_recv c (Some m)].
Definition message_ok (m : bytes) : Prop := m <> [] /\ Forall is_byte m /\ Z.of_nat (length m) <= 256.

(** The worlds of the two ends while messages pass. *)
Lemma messages_pass Ea Eb fuel wa ca sa ia pa ya wb cb sb ib pb yb ms : forall xa xb la lb,
  link wa ca sa ia pa ya xa -> link wb cb sb ib pb yb xb -> forall x1 x2,
  has_flag (ts_flags x1) FLAGS_HANDSHAKE_DONE = true -> (forall w' j d, te_write Ea w' j d = ERR_OK) ->
  taking Eb -> ap_recv pb = true -> ready x2 ->
  direction_ok (client_application_key (keys (ts_ctx x1))) (client_application_iv (keys (ts_ctx x1))) (client_seq_num (ts_ctx x1)) ->
  server_application_key (keys (ts_ctx x2)) = client_application_key (keys (ts_ctx x1)) ->
  server_application_iv (keys (ts_ctx x2)) = client_application_iv (keys (ts_ctx x1)) ->
  server_seq_num (ts_ctx x2) = client_seq_num (ts_ctx x1) -> Forall message_ok ms ->
  exists rs x1' x2',
    write_all Ea ca ms (put_state wa sa x1 la) =
      Some (replicate (length ms) ERR_OK, put_state wa sa x1' (la ++ concat (sent_calls ia <$> rs))) /\
    deliver_all Eb cb ib (S fuel) (segment <$> rs) (put_state wb sb x2 lb) =
      Some (replicate (length ms) ERR_OK, put_state wb sb x2' (lb ++ concat (received_calls cb ib <$> ms))) /\ ready x2'.
Proof.
  induction ms as [|m ms IH]; intros xa xb la lb La Lb x1 x2 Hf Hwr Htk Hrecv Hrd Hd Ek Ei Eq HF.
  { exists [], x1, x2. cbn. rewrite !app_nil_r. done. }
  apply Forall_cons in HF as [(Hm&Fm&Lm) HF]. pose proof La as [A1 A2 A3 A4 _]. pose proof Lb as [B1 B2 B3 B4 _].
  destruct (record_written Ea wa ca sa ia pa ya A1 A2 A3 A4 x1 la m Hf Hwr Hd Hm Fm ltac:(lia)) as (n&Ew).
  set (r := protect _ _ _ m) in Ew.
  assert (direction_ok (server_application_key (keys (ts_ctx x2))) (server_application_iv (keys (ts_ctx x2))) (server_seq_num (ts_ctx x2)))
    as Hd2 by by rewrite Ek, Ei, Eq.
  destruct (record_received Eb wb cb sb ib pb yb B1 B2 B3 B4 fuel x2 lb m Htk Hrecv Hrd Hd2 Hm Fm Lm) as (x2'&Er&Hrd'&Ectx).
  rewrite Ek, Ei, Eq in Er. change (protect _ _ _ m) with r in Er. set (x1' := set_overhead_bytes_adjust n _) in Ew.
  destruct (IH xa xb (la ++ sent_calls ia r) (lb ++ received_calls cb ib m) La Lb x1' x2' Hf Hwr Htk Hrecv Hrd') as (rs&y1&y2&E1&E2&Hy);
    [by apply seq_next|by rewrite Ectx|by rewrite Ectx|rewrite Ectx; cbn; by rewrite Eq|done|].
  exists (r :: rs), y1, y2. cbn [write_all deliver_all fmap list_fmap concat length replicate].
  rewrite (tm_step _ _ _ _ _ Ew), (tm_step _ _ _ _ _ E1), (tm_step _ _ _ _ _ Er).
  change (ERR_OK =? ERR_OK) with true. cbv iota. rewrite (tm_step _ _ _ _ _ E2).
  rewrite <- !app_assoc. by split_and!.
Qed.

(** C9. What is written arrives: two connections whose handshake is over, the
    one with the write keys and sequence number that the other one has for
    reading.  The application at the first writes messages of 1 to 256 bytes;
    TCP takes the records and delivers each in a buffer of its own.  Every call
    succeeds; the application at the other end gets exactly the messages, in
    order, and for each the 16 bytes of the record it does not see are
    acknowledged at once. *)
Theorem messages_arrive Ea Eb fuel wa ca sa ia pa ya xa wb cb sb ib pb yb xb ms :
  link wa ca sa ia pa ya xa -> link wb cb sb ib pb yb xb ->
  has_flag (ts_flags xa) FLAGS_HANDSHAKE_DONE = true -> (forall w j d, te_write Ea w j d = ERR_OK) ->
  taking Eb -> ap_recv pb = true -> ready xb ->
  direction_ok (client_application_key (keys (ts_ctx xa))) (client_application_iv (keys (ts_ctx xa))) (client_seq_num (ts_ctx xa)) ->
  server_application_key (keys (ts_ctx xb)) = client_application_key (keys (ts_ctx xa)) ->
  server_application_iv (keys (ts_ctx xb)) = client_application_iv (keys (ts_ctx xa)) ->
  server_seq_num (ts_ctx xb) = client_seq_num (ts_ctx xa) -> Forall message_ok ms ->
  exists rs wa' wb',
    write_all Ea ca ms wa = Some (replicate (length ms) ERR_OK, wa') /\
    calls wa' = calls wa ++ concat (sent_calls ia <$> rs) /\
    deliver_all Eb cb ib (S fuel) (segment <$> rs) wb = Some (replicate (length ms) ERR_OK, wb') /\
    calls wb' = calls wb ++ concat (received_calls cb ib <$> ms).
Proof.
  intros La Lb Hf Hwr Htk Hrecv Hrd Hd Ek Ei Eq HF.
  destruct (messages_pass Ea Eb fuel wa ca sa ia pa ya wb cb sb ib pb yb ms xa xb [] [] La Lb xa xb Hf Hwr Htk Hrecv Hrd Hd Ek Ei Eq HF)
    as (rs&y1&y2&E1&E2&_).
  rewrite (put_state_nil _ _ _ (ln_states _ _ _ _ _ _ _ La)) in E1. rewrite (put_state_nil _ _ _ (ln_states _ _ _ _ _ _ _ Lb)) in E2.
  eexists rs, _, _. split; [exact E1|]. split; [reflexivity|]. split; [exact E2|]. reflexivity.
Qed.

(** ** Acknowledgements under memory pressure *)

(** The bytes acknowledged to the connection [i]. *)
Fixpoint acked (i : nat) (l : list call) : Z :=
  match l with
  | [] => 0
  | C_recved j n :: l' => (if (j =? i)%nat then n else 0) + acked i l'
  | _ :: l' => acked i l'
  end.
Lemma acked_app i l l' : acked i (l ++ l') = acked i l + acked i l'.
Proof. induction l as [|[]]; cbn [acked app]; lia. Qed.
Definition add_calls (w : world) (l : list call) : world := set_calls (calls w ++ l) w.
Lemma add_calls_nil w : add_calls w [] = w.
Proof. unfold add_calls. destruct w. cbn. by rewrite app_nil_r. Qed.
Lemma add_add w l l' : add_calls (add_calls w l) l' = add_calls w (l ++ l').
Proof. unfold add_calls. destruct w. cbn. by rewrite app_assoc. Qed.
(** The calls [l] acknowledge [n] bytes to [i] and nothing to others. *)
Definition acks (i : nat) (n : Z) (l : list call) : Prop := forall j, acked j l = if decide (j = i) then n else 0.
Lemma acks_nil i : acks i 0 [].
Proof. intros j. by case_decide. Qed.
Lemma acks_one i n : acks i n [C_recved i n].
Proof. intros j. cbn [acked]. destruct (decide (j = i)) as [->|]; [rewrite Nat.eqb_refl; lia|]. rewrite (proj2 (Nat.eqb_neq i j)) by congruence. done. Qed.
Lemma acks_app i n m l l' : acks i n l -> acks i m l' -> acks i (n + m) (l ++ l').
Proof. intros H1 H2 j. rewrite acked_app, H1, H2. case_decide; lia. Qed.

Lemma inner_recved_ok w i y n : inners w !! i = Some y -> inner_recved (Some i) n w = Some (tt, add_calls w [C_recved i n]).
Proof. intros Hy. unfold inner_recved, get_inner. unfold mbind, TM_bind. cbn. rewrite Hy. reflexivity. Qed.

Lemma lower_recved_all i y turns : forall n w, inners w !! i = Some y -> 0 <= n <= 65535 * Z.of_nat turns ->
  exists l, lower_recved_loop turns (Some i) n w = Some (tt, add_calls w l) /\ acks i n l.
Proof.
  induction turns as [|turns IH]; intros n w Hy Hn; cbn [lower_recved_loop]; destruct (Z.leb_spec n 0) as [H0|H0].
  - exists []. rewrite add_calls_nil. split; [done|]. assert (n = 0) as -> by lia. apply acks_nil.
  - lia.
  - exists []. rewrite add_calls_nil. split; [done|]. assert (n = 0) as -> by lia. apply acks_nil.
  - rewrite u16_small by lia. rewrite (tm_step _ _ _ _ _ (inner_recved_ok w i y _ Hy)).
    destruct (IH (n - Z.min n 65535) (add_calls w [C_recved i (Z.min n 65535)]) Hy) as (l&E1&H1); [lia|].
    eexists. split; [rewrite E1, add_add; reflexivity|]. replace n with (Z.min n 65535 + (n - Z.min n 65535)) at 1 by lia.
    apply acks_app; [apply acks_one|exact H1].
Qed.
Lemma lower_recved_ok i y n w : inners w !! i = Some y -> 0 <= n <= INT_MAX ->
  exists l, altcp_tls_ce_lower_recved (Some i) n w = Some (tt, add_calls w l) /\ acks i n l.
Proof. intros Hy Hn. apply (lower_recved_all i y); [done|]. unfold INT_MAX in Hn. cbn in Hn. lia. Qed.

Lemma release_pending_ok c p i y turns : forall (x : tstate) n w, ts_conn x = Some c -> conns w !! c = Some p -> inner_conn p = Some i ->
  inners w !! i = Some y -> 0 <= n <= INT_MAX * Z.of_nat turns ->
  exists l, release_pending turns x n w = Some (tt, add_calls w l) /\ acks i n l.
Proof.
  induction turns as [|turns IH]; intros x n w Hx Hc Hi Hy Hn; cbn [release_pending]; destruct (Z.leb_spec n 0) as [H0|H0].
  1, 3: exists []; rewrite add_calls_nil; (split; [done|]); assert (n = 0) as -> by lia; apply acks_nil.
  - lia.
  - rewrite Hx. assert (get_conn c w = Some (p, w)) as Eg by (unfold get_conn; cbn; by rewrite Hc).
    rewrite (tm_step _ _ _ _ _ Eg), Hi. set (chunk := if INT_MAX <? n then INT_MAX else n).
    assert (0 <= chunk <= INT_MAX /\ chunk <= n /\ (n <= INT_MAX -> chunk = n) /\ (INT_MAX < n -> chunk = INT_MAX)) as Hch.
    { assert (INT_MAX = 8388607) as HI by done. unfold chunk. destruct (Z.ltb_spec INT_MAX n); lia. }
    destruct (lower_recved_ok i y chunk w Hy ltac:(lia)) as (l1&E1&A1). rewrite (tm_step _ _ _ _ _ E1).
    destruct (IH x (n - chunk) (add_calls w l1) Hx Hc Hi Hy) as (l2&E2&A2).
    { assert (INT_MAX = 8388607) as HI by done. destruct (decide (n <= INT_MAX)); lia. }
    eexists. split; [rewrite E2, add_add; reflexivity|]. replace n with (chunk + (n - chunk)) at 1 by lia. by apply acks_app.
Qed.

(** A state [s'] of the list; only that of [s] belongs to the connection [i]. *)
Definition entry (w : world) (s i s' : nat) : Prop := exists x c p,
  states w !! s' = Some x /\ ts_conn x = Some c /\ conns w !! c = Some p /\ 0 <= rx_throttle_pending x < 2 ^ 24 /\
  (forall j, inner_conn p = Some j -> is_Some (inners w !! j)) /\ (inner_conn p = Some i <-> s' = s).
Definition released (x : tstate) : tstate := set_rx_mild_toggle 0 (set_rx_throttle_pending 0 x).

Lemma release_one w s i s' x : entry w s i s' -> states w !! s' = Some x ->
  exists l, release_pending 4 x (rx_throttle_pending x) w = Some (tt, add_calls w l) /\
    acked i l = if decide (s' = s) then rx_throttle_pending x else 0.
Proof.
  intros (x'&c&p&Hx&Hcn&Hc&Hn&Hin&Hi) Ex. rewrite Ex in Hx. injection Hx as <-. cbn in Hn.
  destruct (inner_conn p) as [j|] eqn:Ej.
  - destruct (Hin j eq_refl) as [y Hy].
    destruct (release_pending_ok c p j y 4 x (rx_throttle_pending x) w Hcn Hc Ej Hy) as (l&El&Al); [unfold INT_MAX; cbn; lia|].
    exists l. split; [exact El|]. rewrite Al. destruct (decide (i = j)) as [->|Hij], (decide (s' = s)) as [->|Hs]; try done.
    + by destruct Hs; apply Hi.
    + destruct Hij. assert (Some j = Some i) as Hji by by apply Hi. by injection Hji.
  - exists []. rewrite add_calls_nil. split; [|case_decide as D; [apply Hi in D; discriminate D|done]].
    cbn [release_pending]. destruct (_ <=? 0); [done|]. rewrite Hcn. assert (get_conn c w = Some (p, w)) as Eg by (unfold get_conn; cbn; by rewrite Hc).
    by rewrite (tm_step _ _ _ _ _ Eg), Ej.
Qed.

Lemma release_states_ok s i l : forall w x, NoDup l -> Forall (entry w s i) l -> states w !! s = Some x ->
  exists k st, release_states l w = Some (tt, add_calls (set_states st w) k) /\
    (forall s', st !! s' = if decide (s' ∈ l) then released <$> states w !! s' else states w !! s') /\
    acked i k = if decide (s ∈ l) then rx_throttle_pending x else 0.
Proof.
  induction l as [|s' l IH]; intros w x Hnd HF Hx.
  { exists [], (states w). rewrite add_calls_nil. split; [by destruct w|]. split; intros; rewrite decide_False by apply not_elem_of_nil; done. }
  apply NoDup_cons in Hnd as [Hn Hnd]. apply Forall_cons in HF as [He HF]. pose proof He as (x'&_&_&Hx'&_).
  destruct (release_one w s i s' x' He Hx') as (k1&E1&A1).
  set (w1 := set_states (<[s' := released x']> (states w)) (add_calls w k1)).
  assert (release_states (s' :: l) w = release_states l w1) as Ew.
  { cbn [release_states]. assert (get_state s' w = Some (x', w)) as Eg by (unfold get_state; cbn; by rewrite Hx').
    rewrite (tm_step _ _ _ _ _ Eg), (tm_step _ _ _ _ _ E1).
    assert (get_state s' (add_calls w k1) = Some (x', add_calls w k1)) as Eg' by (unfold get_state; cbn; by rewrite Hx').
    unfold upd_state. rewrite tm_assoc, (tm_step _ _ _ _ _ Eg'). reflexivity. }
  assert (exists x1, states w1 !! s = Some x1 /\ (s' <> s -> x1 = x)) as (x1&Hx1&Ex1).
  { destruct (decide (s' = s)) as [->|]; cbn; [rewrite lookup_insert_eq; by eexists|rewrite lookup_insert_ne by done; by exists x]. }
  destruct (IH w1 x1 Hnd) as (k2&st&E2&Hst&A2); [|exact Hx1|].
  { apply Forall_forall. intros z Hz. rewrite Forall_forall in HF. destruct (HF z Hz) as (a&c&p&Ha&Hr).
    exists a, c, p. split; [|exact Hr]. cbn. rewrite lookup_insert_ne by (intros ->; done). exact Ha. }
  exists (k1 ++ k2), st. split; [|split].
  - rewrite Ew, E2. unfold add_calls. destruct w. cbn. by rewrite app_assoc.
  - intros z. rewrite Hst. cbn. destruct (decide (z = s')) as [->|Hz].
    + rewrite decide_False by done. rewrite decide_True by apply list_elem_of_here. by rewrite lookup_insert_eq, Hx'.
    + rewrite lookup_insert_ne by done. destruct (decide (z ∈ l)) as [Hl|Hl].
      * rewrite decide_True by (by apply list_elem_of_further). done.
      * rewrite decide_False; [done|]. intros [?|?]%elem_of_cons; done.
  - rewrite acked_app, A1, A2. destruct (decide (s' = s)) as [->|Hne].
    + rewrite decide_False by done. rewrite decide_True by apply list_elem_of_here. rewrite Hx in Hx'. injection Hx' as <-. lia.
    + rewrite (Ex1 Hne). destruct (decide (s ∈ l)) as [Hl|Hl].
      * rewrite decide_True by (by apply list_elem_of_further). lia.
      * rewrite decide_False; [lia|]. intros [?|?]%elem_of_cons; [by subst|done].
Qed.

Record throttled (w : world) (c s i : nat) (p : altcp_pcb) (y : inner_pcb) (x : tstate) : Prop := {
  th_link : link w c s i p y x;
  th_nodup : NoDup (g_tls_state_head w);
  th_in : s ∈ g_tls_state_head w;
  th_entries : Forall (entry w s i) (g_tls_state_head w);
  th_conn : ts_conn x = Some c;
  th_flags : has_flag (ts_flags x) FLAGS_HANDSHAKE_DONE = true;
  th_unrecved : 0 <= rx_passed_unrecved x;
  th_pending : 0 <= rx_throttle_pending x;
  th_bound : rx_passed_unrecved x + rx_throttle_pending x < 2 ^ 23
}.
Lemma add_put w s x l l' : add_calls (put_state w s x l) l' = put_state w s x (l ++ l').
Proof. unfold add_calls, put_state. destruct w. cbn. by rewrite app_assoc. Qed.

(** Bytes the application has taken: acknowledged now or held back. *)
Lemma recved_ok w c s i p y x len : throttled w c s i p y x -> 0 <= len < 65536 ->
  let n := Z.min len (rx_passed_unrecved x) in
  exists q tg l, let x' := set_rx_throttle_pending q (set_rx_mild_toggle tg (set_rx_passed_unrecved (rx_passed_unrecved x - n) x)) in
    altcp_tls_ce_recved (Some c) len w = Some (tt, put_state w s x' l) /\
    0 <= q <= rx_throttle_pending x + n /\ acked i l + q = rx_throttle_pending x + n.
Proof.
  intros [[Hc Hps Hpi Hy Hx] _ _ _ _ Hf Hu Hq Hb] Hlen n. cbn in Hb. cbv zeta.
  assert (altcp_tls_ce_recved (Some c) len w = altcp_tls_ce_recved (Some c) len (put_state w s x [])) as -> by by rewrite put_state_nil.
  unfold altcp_tls_ce_recved. texec. rewrite Hps. texec. rewrite Hf. cbn [negb].
  assert ((if rx_passed_unrecved x <? len then u16 (rx_passed_unrecved x) else len) = n) as ->.
  { destruct (Z.ltb_spec (rx_passed_unrecved x) len); [rewrite u16_small by lia|]; unfold n; lia. }
  texec. assert (- 2 ^ 23 <= rx_passed_unrecved x - n < 2 ^ 23) as Hn by (cbn; lia). rewrite (s24_small _ Hn).
  assert (forall tg, exists q l, hold_back s n (put_state w s (set_rx_mild_toggle tg (set_rx_passed_unrecved (rx_passed_unrecved x - n) x)) []) =
    Some (tt, put_state w s (set_rx_throttle_pending q (set_rx_mild_toggle tg (set_rx_passed_unrecved (rx_passed_unrecved x - n) x))) l) /\
    0 <= q <= rx_throttle_pending x + n /\ acked i l + q = rx_throttle_pending x + n) as Hhold.
  { intros tg. exists (rx_throttle_pending x + n), []. unfold hold_back. rewrite upd_put. cbn [rx_throttle_pending set_rx_mild_toggle set_rx_passed_unrecved].
    rewrite u24_small by lia. split; [done|]. cbn [acked]. lia. }
  set (x0 := set_rx_passed_unrecved (rx_passed_unrecved x - n) x) in *.
  assert (x0 = set_rx_mild_toggle (rx_mild_toggle x) x0) as E0 by by destruct x.
  assert (forall q, q = rx_throttle_pending x -> x0 = set_rx_throttle_pending q (set_rx_mild_toggle (rx_mild_toggle x) x0)) as E1
    by (intros q ->; by destruct x).
  change (g_tls_rx_throttle_level (put_state w s x0 [])) with (g_tls_rx_throttle_level w).
  destruct (g_tls_rx_throttle_level w).
  - exists (rx_throttle_pending x), (rx_mild_toggle x), [C_recved i n]. rewrite Hpi, <- (E1 _ eq_refl), (recved_put w s i y Hy). split; [done|].
    cbn [acked]. rewrite Nat.eqb_refl. lia.
  - texec. set (tg := Z.lxor (rx_mild_toggle x0) 1). set (x1 := set_rx_mild_toggle tg x0) in *.
    change (rx_mild_toggle x1) with tg. destruct (tg =? 0).
    { destruct (Hhold tg) as (q&l&Eh&Hr). by exists q, tg, l. }
    rewrite Hpi, (bool_decide_true (Some i <> None)), andb_true_r by done. change (rx_throttle_pending x1) with (rx_throttle_pending x).
    destruct (Z.ltb_spec 0 (rx_throttle_pending x)) as [Hpos|Hz].
    + assert (INT_MAX = 8388607) as HI by done. ztest.
      destruct (lower_recved_ok i y (rx_throttle_pending x) (put_state w s x1 []) Hy ltac:(lia)) as (l&El&Al). rewrite add_put in El.
      rewrite tm_assoc, (tm_step _ _ _ _ _ El). texec. rewrite (recved_put w s i y Hy). eexists _, tg, _. split; [reflexivity|].
      change (rx_throttle_pending x1) with (rx_throttle_pending x). rewrite Z.sub_diag, acked_app. cbn [app acked]. rewrite Nat.eqb_refl, Al.
      rewrite decide_True by done. lia.
    + texec. rewrite (recved_put w s i y Hy). exists (rx_throttle_pending x), tg, [C_recved i n].
      split; [by destruct x|]. cbn [acked]. rewrite Nat.eqb_refl. lia.
  - destruct (Hhold (rx_mild_toggle x)) as (q&l&Eh&Hr). rewrite <- E0 in Eh. exists q, (rx_mild_toggle x), l. by rewrite <- E0.
  - destruct (Hhold (rx_mild_toggle x)) as (q&l&Eh&Hr). rewrite <- E0 in Eh. exists q, (rx_mild_toggle x), l. by rewrite <- E0.
Qed.

(** What happens to a connection: its application takes bytes, and the
    pressure changes. *)
Inductive ack_event := Taken (len : Z) | Pressure (level : mem_pressure_level).
Definition run_ack (c : nat) (e : ack_event) : TM unit :=
  match e with Taken len => altcp_tls_ce_recved (Some c) len | Pressure level => altcp_tls_ce_set_rx_throttle level end.
Fixpoint run_acks (c : nat) (es : list ack_event) : TM unit :=
  match es with [] => mret tt | e :: es' => run_ack c e;; run_acks c es' end.
Definition event_ok (e : ack_event) : Prop := match e with Taken len => 0 <= len < 65536 | Pressure _ => True end.
Fixpoint taken (es : list ack_event) : Z :=
  match es with [] => 0 | Taken len :: es' => len + taken es' | Pressure _ :: es' => taken es' end.
Lemma taken_nonneg es : Forall event_ok es -> 0 <= taken es.
Proof. induction 1 as [|[] es He _ IH]; cbn in *; lia. Qed.

Lemma entry_put w s i x x' l s' : states w !! s = Some x -> ts_conn x' = ts_conn x -> 0 <= rx_throttle_pending x' < 2 ^ 24 ->
  entry w s i s' -> entry (put_state w s x' l) s i s'.
Proof.
  intros Hx Hcn Hn (z&c&p&Hz&Hzc&Hc&Hzn&Hr). destruct (decide (s' = s)) as [->|Hs].
  - rewrite Hx in Hz. injection Hz as <-. exists x', c, p.
    split; [apply lookup_insert_eq|]. split; [by rewrite Hcn|]. split; [exact Hc|]. split; [exact Hn|exact Hr].
  - exists z, c, p. split; [cbn; by rewrite lookup_insert_ne by done|]. split; [exact Hzc|]. split; [exact Hc|]. split; [exact Hzn|exact Hr].
Qed.

(** One event: what is acknowledged and what waits. *)
Lemma ack_step w c s i p y x e : throttled w c s i p y x -> event_ok e ->
  let n := match e with Taken len => Z.min len (rx_passed_unrecved x) | Pressure _ => 0 end in
  exists w' x', run_ack c e w = Some (tt, w') /\ throttled w' c s i p y x' /\
    rx_passed_unrecved x' = rx_passed_unrecved x - n /\
    acked i (calls w') + rx_throttle_pending x' = acked i (calls w) + rx_throttle_pending x + n /\
    (e = Pressure MEM_PRESSURE_NONE -> rx_throttle_pending x' = 0).
Proof.
  intros Hth He n. pose proof Hth as [[Hc Hps Hpi Hy Hx] Hnd Hin HF Hcn Hf Hu Hq Hb]. cbn in Hb. destruct e as [len|level].
  - destruct (recved_ok w c s i p y x len Hth He) as (q&tg&l&Er&Hq0&Ha). fold n in Er, Ha.
    match type of Er with _ = Some (_, put_state w s ?z l) => set (x' := z) in Er end. exists (put_state w s x' l), x'.
    assert (0 <= n <= rx_passed_unrecved x) as Hn by (unfold n; cbn in He; lia).
    assert (rx_passed_unrecved x' + rx_throttle_pending x' < 2 ^ 23) as Hb' by (cbn; lia).
    split; [exact Er|]. split; [|split; [done|split; [cbn; rewrite acked_app; lia|done]]].
    split; try done; [split; try done; apply lookup_insert_eq| |cbn; lia|cbn; lia].
    apply (Forall_impl (entry w s i)); [exact HF|]. intros s'. apply entry_put with (x := x); [done|done|cbn; lia].
  - assert (forall v, throttled (set_g_tls_rx_throttle_level v w) c s i p y x) as Hlv by (intros v; split; try done; by split).
    destruct (decide (level = MEM_PRESSURE_NONE)) as [->|Hl].
    + destruct (release_states_ok s i (g_tls_state_head w) (set_g_tls_rx_throttle_level MEM_PRESSURE_NONE w) x Hnd HF Hx) as (l&st&Er&Hst&Ha).
      rewrite decide_True in Ha by done. eexists _, (released x). split; [exact Er|].
      split; [|split; [cbn; lia|split; [cbn; rewrite acked_app; lia|done]]].
      split; try done; [split; try done; cbn; rewrite Hst, decide_True by done; cbn; by rewrite Hx| |cbn; lia].
      apply (Forall_impl (entry w s i)); [exact HF|]. intros s' (z&d&g&Hz&Hzc&Hd&Hzn&Hr).
      destruct (decide (s' ∈ g_tls_state_head w)) as [Hs'|Hs'].
      * exists (released z), d, g. split; [cbn; rewrite Hst, decide_True by done; cbn; by rewrite Hz|]. split; [done|]. split; [done|].
        split; [done|exact Hr].
      * exists z, d, g. split; [cbn; rewrite Hst, decide_False by done; exact Hz|]. split; [done|]. split; [done|]. split; [done|exact Hr].
    + exists (set_g_tls_rx_throttle_level level w), x. split; [by destruct level|]. split; [apply Hlv|].
      split; [cbn; lia|]. split; [cbn; lia|]. by intros [= ->].
Qed.

Lemma acks_run c s i p y es : forall w x, throttled w c s i p y x -> Forall event_ok es ->
  exists w' x', run_acks c es w = Some (tt, w') /\ throttled w' c s i p y x' /\
    rx_passed_unrecved x' = rx_passed_unrecved x - Z.min (taken es) (rx_passed_unrecved x) /\
    acked i (calls w') + rx_throttle_pending x' = acked i (calls w) + rx_throttle_pending x + Z.min (taken es) (rx_passed_unrecved x).
Proof.
  induction es as [|e es IH]; intros w x Hth HF.
  { exists w, x. pose proof (th_unrecved _ _ _ _ _ _ _ Hth). cbn [taken]. split; [done|]. split; [done|]. lia. }
  apply Forall_cons in HF as [He HF]. pose proof (taken_nonneg es HF) as Ht. pose proof (th_unrecved _ _ _ _ _ _ _ Hth) as Hu0.
  destruct (ack_step w c s i p y x e Hth He) as (w1&x1&E1&Hth1&Hu1&Ha1&_). destruct (IH w1 x1 Hth1 HF) as (w2&x2&E2&Hth2&Hu2&Ha2).
  exists w2, x2. cbn [run_acks]. rewrite (tm_step _ _ _ _ _ E1). split; [exact E2|]. split; [exact Hth2|].
  destruct e; cbn [taken event_ok] in *; lia.
Qed.

(** C10. No acknowledgement is lost and none is given twice, whatever the
    pressure in between: with other connections in the list, after any sequence
    of bytes taken by the application and of changes of the pressure, the bytes
    acknowledged to TCP and those held back are together those before and those
    taken, as far as they had been passed on; and when the pressure ends, all of
    them are acknowledged. *)
Theorem acknowledgements_complete w c s i p y x es : throttled w c s i p y x -> Forall event_ok es ->
  let n := Z.min (taken es) (rx_passed_unrecved x) in
  exists w1 x1 w2 x2,
    run_acks c es w = Some (tt, w1) /\ states w1 !! s = Some x1 /\ 0 <= rx_throttle_pending x1 /\
    acked i (calls w1) + rx_throttle_pending x1 = acked i (calls w) + rx_throttle_pending x + n /\
    altcp_tls_ce_set_rx_throttle MEM_PRESSURE_NONE w1 = Some (tt, w2) /\ states w2 !! s = Some x2 /\ rx_throttle_pending x2 = 0 /\
    acked i (calls w2) = acked i (calls w) + rx_throttle_pending x + n.
Proof.
  intros Hth HF n. destruct (acks_run c s i p y es w x Hth HF) as (w1&x1&E1&Hth1&_&Ha1). fold n in Ha1.
  destruct (ack_step w1 c s i p y x1 (Pressure MEM_PRESSURE_NONE) Hth1 I) as (w2&x2&E2&Hth2&_&Ha2&Hz). specialize (Hz eq_refl).
  exists w1, x1, w2, x2. split; [exact E1|]. split; [apply (th_link _ _ _ _ _ _ _ Hth1)|]. split; [apply (th_pending _ _ _ _ _ _ _ Hth1)|].
  split; [exact Ha1|]. split; [exact E2|]. split; [apply (th_link _ _ _ _ _ _ _ Hth2)|]. split; [exact Hz|]. lia.
Qed.
End Laws.
