(* ===== verification/AltcpLinks.v ===== *)
(** * The states of the TLS layer

    The list of states that the memory manager's hook walks is the list of the
    live states, each owned by one live connection, after any sequence of calls of
    the layer ([AltcpTls]).  Then concrete runs. *)

From S2P Require Import Prelude MemState RingList Session TlsHash Sha256Ref TlsKdf Rsa RsaCorrect Aes AesRef AesBlock GcmField GcmCorrect Handshake KeySchedule HelloCorrect RecordCorrect TlsSession HandshakeSamples AltcpTls AltcpCorrect.

Create HintDb links.

Section Links.
Context {St : Type} {ops : Sha256 St}.
Abbreviation world := (world (St := St)).
Abbreviation TM := (TM (St := St)).
Abbreviation tls_env := (tls_env (St := St)).
Abbreviation tstate := (altcp_tls_ce_state (St := St)).

Record linked (w : world) : Prop := {
  lk_nodup : NoDup (g_tls_state_head w);
  lk_list : forall s, s ∈ g_tls_state_head w <-> is_Some (states w !! s);
  lk_owner : forall s x, states w !! s = Some x -> exists c p, ts_conn x = Some c /\ conns w !! c = Some p /\ ap_state p = Some s;
  lk_owned : forall c p s, conns w !! c = Some p -> ap_state p = Some s -> exists x, states w !! s = Some x /\ ts_conn x = Some c;
  lk_fns : forall c p s, conns w !! c = Some p -> ap_state p = Some s -> ap_fns p = true;
  lk_fresh : (forall s, is_Some (states w !! s) -> (s < next_id w)%nat) /\ (forall c, is_Some (conns w !! c) -> (c < next_id w)%nat)
}.

(** A call that keeps the links. *)
Definition keeps {A} (m : TM A) : Prop := forall w a w', linked w -> m w = Some (a, w') -> linked w'.

Lemma tm_inv {A B} (m : TM A) (f : A -> TM B) w b w2 : (m ≫= f) w = Some (b, w2) ->
  exists a w1, m w = Some (a, w1) /\ f a w1 = Some (b, w2).
Proof. unfold mbind, TM_bind. destruct (m w) as [[a w1]|]; [|done]. by exists a, w1. Qed.
Lemma links_bind {A B} (m : TM A) (f : A -> TM B) : keeps m -> (forall a, keeps (f a)) -> keeps (m ≫= f).
Proof. intros Hm Hf w b w2 Hl (a&w1&E1&E2)%tm_inv. eapply Hf; [|exact E2]. by eapply Hm. Qed.
Lemma links_ret {A} (a : A) : keeps (mret a).
Proof. by intros w b w' Hl [= <- <-]. Qed.
Lemma links_fail {A} : keeps (tfail (A := A)).
Proof. done. Qed.
Lemma links_or_fail {A} (o : option A) : keeps (or_fail o).
Proof. destruct o; [apply links_ret|apply links_fail]. Qed.
Lemma links_gets {A} (f : world -> A) : keeps (tgets f).
Proof. by intros w a w' Hl [= <- <-]. Qed.
Lemma links_get_state s : keeps (get_state s).
Proof. intros w x w' Hl. unfold get_state. cbn. destruct (states w !! s); [by intros [= <- <-]|done]. Qed.
Lemma links_get_conn c : keeps (get_conn c).
Proof. intros w x w' Hl. unfold get_conn. cbn. destruct (conns w !! c); [by intros [= <- <-]|done]. Qed.
Lemma links_get_config k : keeps (get_config k).
Proof. intros w x w' Hl. unfold get_config. cbn. destruct (configs w !! k); [by intros [= <- <-]|done]. Qed.
Lemma links_get_inner i : keeps (get_inner i).
Proof. intros w x w' Hl. unfold get_inner. cbn. destruct (inners w !! i); [by intros [= <- <-]|done]. Qed.

(** Changes of what no link depends on. *)
Definition same_links (w w' : world) : Prop := conns w' = conns w /\ states w' = states w /\
  g_tls_state_head w' = g_tls_state_head w /\ (next_id w <= next_id w')%nat.
Lemma linked_same w w' : linked w -> same_links w w' -> linked w'.
Proof.
  intros [? ? ? ? ? [F1 F2]] (Ec&Es&Eg&En).
  split; rewrite ?Ec, ?Es, ?Eg; try assumption. split; intros j Hj; [specialize (F1 j Hj)|specialize (F2 j Hj)]; lia.
Qed.
Lemma links_apart f : (forall w, same_links w (f w)) -> keeps (tmodify f).
Proof. intros Hf w [] w' Hl [= <-]. by eapply linked_same. Qed.
Lemma links_log k : keeps (log k).
Proof. by apply links_apart. Qed.
Lemma links_upd_inner i f : keeps (upd_inner i f).
Proof. apply links_bind; [apply links_get_inner|]. intros x. by apply links_apart. Qed.
Lemma links_fresh : keeps fresh.
Proof. intros w a w' Hl [= <- <-]. apply (linked_same w); [done|]. split_and!; try done. cbn. lia. Qed.

(** A state keeps its connection. *)
Lemma linked_state w s x x' : linked w -> states w !! s = Some x -> ts_conn x' = ts_conn x ->
  linked (set_states (<[s := x']> (states w)) w).
Proof.
  intros [N L O P F [R1 R2]] Hx Ec. assert (forall j, is_Some (<[s := x']> (states w) !! j) <-> is_Some (states w !! j)) as Hs.
  { intros j. destruct (decide (j = s)) as [->|]; [rewrite lookup_insert_eq, Hx|rewrite lookup_insert_ne by done]; split; eauto. }
  split; cbn; try done.
  - intros j. by rewrite Hs.
  - intros j z. destruct (decide (j = s)) as [->|]; [rewrite lookup_insert_eq; intros [= <-]; rewrite Ec; by apply O|].
    rewrite lookup_insert_ne by done. apply O.
  - intros c p j Hc Hp. destruct (P c p j Hc Hp) as (z&Hz&Hzc). destruct (decide (j = s)) as [->|].
    + exists x'. rewrite lookup_insert_eq. rewrite Hx in Hz. injection Hz as <-. by rewrite Ec.
    + exists z. by rewrite lookup_insert_ne.
  - split; [intros j Hj; by apply R1, Hs|done].
Qed.
Lemma links_with_state {A} s (g : tstate -> option (A * tstate)) : (forall x a x', g x = Some (a, x') -> ts_conn x' = ts_conn x) ->
  keeps (with_state s g).
Proof.
  intros Hg w a w' Hl H0. apply tm_inv in H0 as (x&w1&E1&H0). unfold get_state in E1. cbn in E1.
  destruct (states w !! s) as [z|] eqn:Hz; [|done]. injection E1 as <- <-. destruct (g z) as [[b z']|] eqn:Eg; [|done].
  injection H0 as <- <-. eapply linked_state; [done|exact Hz|by eapply Hg].
Qed.
Lemma links_upd_state s f : (forall x, ts_conn (f x) = ts_conn x) -> keeps (upd_state s f).
Proof.
  intros Hf w a w' Hl H0. apply tm_inv in H0 as (x&w1&E1&H0). unfold get_state in E1. cbn in E1.
  destruct (states w !! s) as [z|] eqn:Hz; [|done]. injection E1 as <- <-. injection H0 as <- <-. by eapply linked_state.
Qed.

(** A connection keeps its state. *)
Lemma linked_conn w c p p' : linked w -> conns w !! c = Some p -> ap_state p' = ap_state p -> (ap_fns p = true -> ap_fns p' = true) ->
  linked (set_conns (<[c := p']> (conns w)) w).
Proof.
  intros [N L O P F [R1 R2]] Hp Es Ef. split; cbn; try done.
  - intros s x Hx. destruct (O s x Hx) as (d&q&Hd&Hq&Hqs). exists d. destruct (decide (d = c)) as [->|].
    + rewrite lookup_insert_eq. exists p'. rewrite Hp in Hq. injection Hq as <-. by rewrite Es.
    + rewrite lookup_insert_ne by done. by exists q.
  - intros d q s. destruct (decide (d = c)) as [->|]; [rewrite lookup_insert_eq; intros [= <-]; rewrite Es; by apply P|].
    rewrite lookup_insert_ne by done. apply P.
  - intros d q s. destruct (decide (d = c)) as [->|]; [rewrite lookup_insert_eq; intros [= <-]; rewrite Es; eauto|].
    rewrite lookup_insert_ne by done. apply F.
  - split; [done|]. intros d. destruct (decide (d = c)) as [->|]; [intros _; apply R2; eauto|]. rewrite lookup_insert_ne by done. apply R2.
Qed.
Lemma links_upd_conn c f : (forall p, ap_state (f p) = ap_state p) -> (forall p, ap_fns (f p) = ap_fns p) -> keeps (upd_conn c f).
Proof.
  intros Hf Hg w a w' Hl H0. apply tm_inv in H0 as (x&w1&E1&H0). unfold get_conn in E1. cbn in E1.
  destruct (conns w !! c) as [z|] eqn:Hz; [|done]. injection E1 as <- <-. injection H0 as <- <-.
  eapply linked_conn; [done|exact Hz|apply Hf|by rewrite Hg].
Qed.

(** ** Release *)

Lemma elem_remove_first s l z : NoDup l -> z ∈ remove_first s l <-> z ∈ l /\ z <> s.
Proof.
  induction l as [|y l IH]; intros Hn; cbn [remove_first]; [set_solver|]. apply NoDup_cons in Hn as [Hy Hn].
  destruct (Nat.eqb_spec y s) as [->|]; [set_solver|]. rewrite !elem_of_cons, IH by done. set_solver.
Qed.
Lemma NoDup_remove_first s l : NoDup l -> NoDup (remove_first s l).
Proof.
  induction l as [|y l IH]; intros Hn; cbn [remove_first]; [done|]. pose proof Hn as Hn'. apply NoDup_cons in Hn' as [Hy Hl].
  destruct (Nat.eqb_spec y s); [done|]. apply NoDup_cons. split; [|by apply IH]. rewrite elem_remove_first by done. set_solver.
Qed.
(** The state of [c] goes. *)
Lemma linked_dealloc w c p s : linked w -> conns w !! c = Some p -> ap_state p = Some s ->
  linked (set_conns (<[c := set_ap_state None p]> (conns w))
    (set_states (delete s (states w)) (set_g_tls_state_head (remove_first s (g_tls_state_head w)) w))).
Proof.
  intros [N L O P F [R1 R2]] Hp Hs. destruct (P c p s Hp Hs) as (x&Hx&Hxc). split; cbn.
  - by apply NoDup_remove_first.
  - intros j. rewrite elem_remove_first by done. rewrite L. destruct (decide (j = s)) as [->|].
    + rewrite lookup_delete_eq. split; [by intros [_ ?]|by intros [? ?]].
    + rewrite lookup_delete_ne by done. tauto.
  - intros j z Hz. apply lookup_delete_Some in Hz as [Hj Hz]. destruct (O j z Hz) as (d&q&Hd&Hq&Hqs). exists d, q.
    rewrite lookup_insert_ne; [done|]. intros ->. congruence.
  - intros d q j Hq Hqs. destruct (decide (d = c)) as [->|Hd]; [rewrite lookup_insert_eq in Hq; by injection Hq as <-|].
    rewrite lookup_insert_ne in Hq by done. destruct (P d q j Hq Hqs) as (z&Hz&Hzc). exists z. rewrite lookup_delete_ne; [done|]. intros ->. congruence.
  - intros d q j Hq Hqs. destruct (decide (d = c)) as [->|Hd]; [rewrite lookup_insert_eq in Hq; by injection Hq as <-|].
    rewrite lookup_insert_ne in Hq by done. by eapply F.
  - split.
    + intros j [z Hz]. apply lookup_delete_Some in Hz as [_ Hz]. eauto.
    + intros d. destruct (decide (d = c)) as [->|]; [intros _; apply R2; eauto|]. rewrite lookup_insert_ne by done. apply R2.
Qed.
Lemma linked_delete w c p : linked w -> conns w !! c = Some p -> ap_state p = None -> linked (set_conns (delete c (conns w)) w).
Proof.
  intros [N L O P F [R1 R2]] Hp Hs. split; cbn; try done.
  - intros j z Hz. destruct (O j z Hz) as (d&q&Hd&Hq&Hqs). exists d, q. rewrite lookup_delete_ne; [done|]. intros ->. congruence.
  - intros d q j Hq Hqs. apply lookup_delete_Some in Hq as [_ Hq]. by eapply P.
  - intros d q j Hq Hqs. apply lookup_delete_Some in Hq as [_ Hq]. by eapply F.
  - split; [done|]. intros d [q Hq]. apply lookup_delete_Some in Hq as [_ Hq]. eauto.
Qed.

Lemma free_chain_same o w u w' : free_chain o w = Some (u, w') -> same_links w w'.
Proof. destruct o; cbn; [intros [= <- <-]|intros [= <- <-]]; by split_and!. Qed.
Lemma dealloc_ok w c u w' : linked w -> altcp_tls_ce_dealloc c w = Some (u, w') ->
  linked w' /\ exists p, conns w' !! c = Some p /\ ap_state p = None.
Proof.
  intros Hl (p&w1&E1&H0)%tm_inv. unfold get_conn in E1. cbn in E1. destruct (conns w !! c) as [q|] eqn:Hq; [|done]. injection E1 as <- <-.
  destruct (ap_state q) as [s|] eqn:Hs; [|injection H0 as <- <-; eauto].
  apply tm_inv in H0 as (x&w2&E2&H0). unfold get_state in E2. cbn in E2. destruct (states w !! s) as [z|] eqn:Hz; [|done]. injection E2 as <- <-.
  apply tm_inv in H0 as ([]&w3&E3&H0). apply tm_inv in H0 as ([]&w4&E4&H0).
  pose proof (free_chain_same _ _ _ _ E3) as S3. pose proof (free_chain_same _ _ _ _ E4) as S4.
  assert (linked w4) as Hl4 by (eapply linked_same; [eapply linked_same; [exact Hl|exact S3]|exact S4]).
  assert (conns w4 !! c = Some q) as Hq4 by (rewrite (proj1 S4), (proj1 S3); exact Hq).
  apply tm_inv in H0 as ([]&w5&[= <-]&H0). apply tm_inv in H0 as ([]&w6&[= <-]&H0).
  apply tm_inv in H0 as (p'&w7&E7&H0). unfold get_conn in E7. cbn in E7. rewrite Hq4 in E7. injection E7 as <- <-. injection H0 as <- <-.
  split; [by apply linked_dealloc|]. cbn. rewrite lookup_insert_eq. by eexists.
Qed.
Lemma links_altcp_free c : keeps (altcp_free c).
Proof.
  intros w u w' Hl (p&w1&E1&H0)%tm_inv. unfold get_conn in E1. cbn in E1. destruct (conns w !! c) as [q|] eqn:Hq; [|done]. injection E1 as <- <-.
  apply tm_inv in H0 as ([]&w2&E2&[= <- <-]). destruct (ap_fns q) eqn:Hf.
  - destruct (dealloc_ok w c () w2 Hl E2) as (Hl2&p2&Hp2&Hs2). by eapply linked_delete.
  - injection E2 as <-. eapply linked_delete; [done|exact Hq|]. destruct (ap_state q) as [s|] eqn:Hs; [|done].
    by rewrite (lk_fns w Hl c q s Hq Hs) in Hf.
Qed.

(** ** Every call *)

(** The application keeps the links: it reaches them only by these calls. *)
Record polite (E : tls_env) : Prop := {
  po_connected : forall c e, keeps (up_connected E c e);
  po_recv : forall c p e, keeps (up_recv E c p e);
  po_sent : forall c n, keeps (up_sent E c n);
  po_poll : forall c, keeps (up_poll E c);
  po_err : forall c e, keeps (up_err E c e);
  po_accept : forall c e, keeps (up_accept E c e)
}.

#[local] Hint Resolve links_ret links_fail links_or_fail links_gets links_get_state links_get_conn links_get_config links_get_inner
  links_log links_upd_inner links_fresh links_altcp_free : links.
(** Take a call apart: its sequences, choices and changes. *)
Ltac keep :=
  repeat match goal with
  | |- keeps (_ ≫= _) => apply links_bind; [|intros ?]
  | |- keeps (upd_state _ _) => apply links_upd_state; intros; try done
  | |- keeps (upd_conn _ _) => apply links_upd_conn; intros; try done
  | |- keeps (with_state _ _) => apply links_with_state
  | |- keeps (tmodify _) => apply links_apart; intros; by split_and!
  | |- keeps _ => solve [eauto with links]
  | |- keeps (match ?x with _ => _ end) => destruct x
  end.

Section Env.
Context (E : tls_env) (HE : polite E) (fuel : nat).
#[local] Hint Resolve po_connected po_recv po_sent po_poll po_err po_accept : links.

Lemma links_inner_write i d : keeps (inner_write E i d).
Proof. unfold inner_write. keep. Qed.
Lemma links_inner_output i : keeps (inner_output (St := St) i).
Proof. unfold inner_output. keep. Qed.
Lemma links_inner_recved i n : keeps (inner_recved (St := St) i n).
Proof. unfold inner_recved. keep. Qed.
Lemma links_free_chain o : keeps (free_chain (St := St) o).
Proof. unfold free_chain. keep. Qed.
Lemma links_lower_err a e : keeps (altcp_tls_ce_lower_err E a e).
Proof using HE. unfold altcp_tls_ce_lower_err. keep. Qed.
#[local] Hint Resolve links_inner_write links_inner_output links_inner_recved links_free_chain links_lower_err : links.
Lemma links_inner_abort i : keeps (inner_abort E i).
Proof using HE. unfold inner_abort. keep. Qed.
#[local] Hint Resolve links_inner_abort : links.
Lemma links_abort c : keeps (altcp_tls_ce_abort E c).
Proof using HE. unfold altcp_tls_ce_abort. keep. Qed.
Lemma links_inner_close i : keeps (inner_close E i).
Proof. unfold inner_close. keep. Qed.
#[local] Hint Resolve links_abort links_inner_close : links.
Lemma links_close c : keeps (altcp_tls_ce_close E c).
Proof. unfold altcp_tls_ce_close, altcp_tls_ce_remove_callbacks, altcp_tls_ce_setup_callbacks. keep. Qed.
Lemma links_lower_recved_loop n : forall i r, keeps (lower_recved_loop (St := St) n i r).
Proof. induction n as [|n IH]; intros i r; cbn [lower_recved_loop]; keep. Qed.
Lemma links_lower_recved i n : keeps (altcp_tls_ce_lower_recved (St := St) i n).
Proof. apply links_lower_recved_loop. Qed.
#[local] Hint Resolve links_close links_lower_recved : links.
Lemma links_pass c s : keeps (altcp_tls_ce_pass_rx_data E c s).
Proof using HE. unfold altcp_tls_ce_pass_rx_data. keep. Qed.
#[local] Hint Resolve links_pass : links.
Lemma links_rx_turn c s q : keeps (rx_turn E c s q).
Proof using HE. unfold rx_turn. keep. Qed.
#[local] Hint Resolve links_rx_turn : links.
Lemma links_rx_loop n : forall c s, keeps (rx_loop E n c s).
Proof using HE. induction n as [|n IH]; intros c s; cbn [rx_loop]; keep. Qed.
Lemma links_appldata c s : keeps (altcp_tls_ce_handle_rx_appldata E fuel c s).
Proof using HE. unfold altcp_tls_ce_handle_rx_appldata. keep; apply links_rx_loop. Qed.
Lemma links_abort_with {A} c (a : A) : keeps (abort_with E c a).
Proof using HE. unfold abort_with. keep. Qed.
#[local] Hint Resolve links_appldata links_abort_with : links.
Lemma discard_conn (x : tstate) n u x' : (x ← tls_ring_discard x n; Some (tt, x)) = Some (u, x') -> ts_conn x' = ts_conn x.
Proof. unfold tls_ring_discard. destruct (_ =? _); [done|]. by intros [= <- <-]. Qed.
Lemma links_record_turn c s x : keeps (record_turn E fuel c s x).
Proof using HE. unfold record_turn, ring_record. keep. intros z u z'. apply discard_conn. Qed.
#[local] Hint Resolve links_record_turn : links.
Lemma links_record_loop n : forall c s, keeps (record_loop E fuel n c s).
Proof using HE. induction n as [|n IH]; intros c s; cbn [record_loop]; keep. Qed.
Lemma links_finish c s : keeps (finish_handshake E c s).
Proof using HE. unfold finish_handshake. keep. Qed.
#[local] Hint Resolve links_record_loop links_finish : links.
Lemma links_process c s : keeps (altcp_tls_ce_lower_recv_process E fuel c s).
Proof using HE. unfold altcp_tls_ce_lower_recv_process. keep. Qed.
#[local] Hint Resolve links_process : links.

Lemma links_connected a i e : keeps (altcp_tls_ce_lower_connected E fuel a i e).
Proof using HE. unfold altcp_tls_ce_lower_connected, report_abort. keep. Qed.
Lemma links_end_of_stream c s : keeps (end_of_stream E fuel c s).
Proof using HE. unfold end_of_stream. keep. Qed.
Lemma links_closed_below i p : keeps (closed_below E i p).
Proof. unfold closed_below. keep. Qed.
#[local] Hint Resolve links_end_of_stream links_closed_below : links.
Lemma ring_write_conn (x : tstate) d n b x' : tls_ring_write x d n = Some (b, x') -> ts_conn x' = ts_conn x.
Proof.
  unfold tls_ring_write. destruct (rx_ring x) as [r|]; [|by intros [= <- <-]]. destruct (_ <? _); [by intros [= <- <-]|].
  destruct (_ =? _); [done|]. cbn. repeat match goal with |- context [mbind _ ?o] => destruct o; cbn; [|done] end; by intros [= <- <-].
Qed.
Lemma write_pbuf_conn p : forall (x : tstate) b x', tls_ring_write_pbuf x p = Some (b, x') -> ts_conn x' = ts_conn x.
Proof.
  induction p as [|g p IH]; intros x b x'; cbn [tls_ring_write_pbuf]; [by intros [= <- <-]|].
  destruct (tls_ring_write x _ _) as [[[] z]|] eqn:Ez; cbn [mbind option_bind fst snd]; [|intros [= <- <-]|done].
  - intros Hw. rewrite (IH _ _ _ Hw). by eapply ring_write_conn.
  - by eapply ring_write_conn.
Qed.
Lemma links_recv a i p : keeps (altcp_tls_ce_lower_recv E fuel a i p).
Proof using HE. unfold altcp_tls_ce_lower_recv. keep. intros z u z'. apply write_pbuf_conn. Qed.
Lemma links_sent a n : keeps (altcp_tls_ce_lower_sent E a n).
Proof using HE. unfold altcp_tls_ce_lower_sent. keep. Qed.
Lemma links_poll a : keeps (altcp_tls_ce_lower_poll E fuel a).
Proof using HE. unfold altcp_tls_ce_lower_poll. keep. Qed.
Lemma links_write c d n : keeps (altcp_tls_ce_write E c d n).
Proof. unfold altcp_tls_ce_write. keep. Qed.
Lemma links_recved c n : keeps (altcp_tls_ce_recved (St := St) c n).
Proof. unfold altcp_tls_ce_recved, hold_back. keep. Qed.
Lemma links_release_pending n : forall x q, keeps (release_pending (St := St) n x q).
Proof. induction n as [|n IH]; intros x q; cbn [release_pending]; keep. Qed.
#[local] Hint Resolve links_release_pending : links.
Lemma links_release l : keeps (release_states (St := St) l).
Proof. induction l as [|s l IH]; cbn [release_states]; keep. Qed.
#[local] Hint Resolve links_release : links.
Lemma links_throttle v : keeps (altcp_tls_ce_set_rx_throttle (St := St) v).
Proof. unfold altcp_tls_ce_set_rx_throttle. keep. Qed.
Lemma links_connect c b : keeps (altcp_tls_ce_connect E c b).
Proof. unfold altcp_tls_ce_connect. keep. Qed.
Lemma links_listen c : keeps (altcp_tls_ce_listen E c).
Proof. unfold altcp_tls_ce_listen. keep. Qed.
Lemma links_set_poll c n : keeps (altcp_tls_ce_set_poll (St := St) c n).
Proof. unfold altcp_tls_ce_set_poll. keep. Qed.
Lemma links_create_config v k d : keeps (create_config E v k d).
Proof. unfold create_config. keep. Qed.
Lemma links_free_config k : keeps (altcp_tls_ce_free_config (St := St) k).
Proof. unfold altcp_tls_ce_free_config. keep. Qed.

(** A new connection has no state. *)
Lemma alloc_ok w o w' : linked w -> altcp_alloc E w = Some (o, w') ->
  linked w' /\ forall c, o = Some c -> conns w' !! c = Some blank_pcb.
Proof.
  intros Hl (ok&w1&[= <- <-]&H0)%tm_inv. destruct (te_pcb E w); cbn [negb] in H0; [|by injection H0 as <- <-].
  injection H0 as <- <-. destruct Hl as [N L O P F [R1 R2]]. assert (conns w !! next_id w = None) as Hnew.
  { destruct (conns w !! next_id w) eqn:Ec; [|done]. assert (next_id w < next_id w)%nat; [apply R2; by rewrite Ec; eexists|lia]. }
  split; [|intros c [= <-]; cbn; apply lookup_insert_eq]. split; cbn; try done.
  - intros j z Hz. destruct (O j z Hz) as (d&q&Hd&Hq&Hqs). exists d, q. rewrite lookup_insert_ne; [done|]. intros <-. congruence.
  - intros d q j Hq Hqs. apply lookup_insert_Some in Hq as [[<- <-]|[_ Hq]]; [done|by eapply P].
  - intros d q j Hq Hqs. apply lookup_insert_Some in Hq as [[<- <-]|[_ Hq]]; [done|by eapply F].
  - split; intros j Hj; [specialize (R1 j Hj); lia|]. destruct (decide (j = next_id w)) as [->|]; [lia|].
    rewrite lookup_insert_ne in Hj by done. specialize (R2 j Hj). lia.
Qed.

(** A new state, for a connection that has none. *)
Lemma linked_setup w w' c p p' x : linked w -> conns w !! c = Some p -> ap_state p = None ->
  let s := next_id w in
  conns w' = <[c := p']> (conns w) -> states w' = <[s := x]> (states w) -> g_tls_state_head w' = s :: g_tls_state_head w ->
  next_id w' = S s -> ts_conn x = Some c -> ap_state p' = Some s -> ap_fns p' = true -> linked w'.
Proof.
  intros [N L O P F [R1 R2]] Hp Hs s Ec Es El En Hx Hp' Hf. assert (states w !! s = None) as Hnew.
  { destruct (states w !! s) eqn:Ez; [|done]. assert (s < next_id w)%nat; [apply R1; rewrite Ez; by eexists|lia]. }
  split; rewrite ?Ec, ?Es, ?El, ?En.
  - apply NoDup_cons. split; [|done]. rewrite L, Hnew. by intros [].
  - intros j. rewrite elem_of_cons, L. destruct (decide (j = s)) as [->|]; [rewrite lookup_insert_eq|rewrite lookup_insert_ne by done].
    + split; [by eexists|by left].
    + split; [by intros [?|?]|by right].
  - intros j z Hz. apply lookup_insert_Some in Hz as [[<- <-]|[_ Hz]].
    + exists c, p'. by rewrite lookup_insert_eq.
    + destruct (O j z Hz) as (d&q&Hd&Hq&Hqs). exists d, q. rewrite lookup_insert_ne; [done|]. intros ->. congruence.
  - intros d q j Hq Hqs. apply lookup_insert_Some in Hq as [[<- <-]|[_ Hq]].
    + rewrite Hp' in Hqs. injection Hqs as <-. exists x. by rewrite lookup_insert_eq.
    + destruct (P d q j Hq Hqs) as (z&Hz&Hzc). exists z. rewrite lookup_insert_ne; [done|]. intros <-. congruence.
  - intros d q j Hq Hqs. apply lookup_insert_Some in Hq as [[<- <-]|[_ Hq]]; [done|by eapply F].
  - split; intros j [z Hj].
    + apply lookup_insert_Some in Hj as [[<- _]|[_ Hj]]; [lia|]. specialize (R1 j ltac:(eauto)). unfold s. lia.
    + apply lookup_insert_Some in Hj as [[<- _]|[_ Hj]]; [specialize (R2 c ltac:(eauto))|specialize (R2 j ltac:(eauto))]; unfold s; lia.
Qed.
Lemma setup_ok w k c i p e w' : linked w -> conns w !! c = Some p -> ap_state p = None ->
  altcp_tls_ce_setup E k c i w = Some (e, w') -> linked w'.
Proof.
  intros Hl Hp Hs H0. destruct k as [k|]; [|by injection H0 as <- <-].
  apply tm_inv in H0 as (ok&w1&[= <- <-]&H0). destruct (te_malloc E w A_state); cbn [negb] in H0; [|by injection H0 as <- <-].
  apply tm_inv in H0 as (cfg&w1&Eg&H0). unfold get_config in Eg. cbn in Eg. destruct (configs w !! k); [|done]. injection Eg as <- <-.
  apply tm_inv in H0 as (ok&w1&[= <- <-]&H0). destruct (te_malloc E w _); cbn [negb] in H0; [|by injection H0 as <- <-].
  apply tm_inv in H0 as (rnd&w1&[= <- <-]&H0). apply tm_inv in H0 as (r&w1&Er&H0).
  destruct (tls_handshake_init _ _ _ _) as [r'|]; [|done]. injection Er as <- <-.
  apply tm_inv in H0 as (ctx&w1&Ex&H0). destruct (r'.2) as [ctx'|]; [|done]. injection Ex as <- <-.
  destruct (r'.1); cbn [negb] in H0; [|by injection H0 as <- <-].
  apply tm_inv in H0 as (s&w1&[= <- <-]&H0). apply tm_inv in H0 as ([]&w2&[= <-]&H0).
  apply tm_inv in H0 as ([]&w3&E3&H0). apply tm_inv in E3 as (y&w4&E4&E3). unfold get_inner in E4. cbn in E4.
  destruct (inners w !! i) as [y'|]; [|done]. injection E4 as <- <-. injection E3 as <-.
  apply tm_inv in H0 as ([]&w5&E5&H0). apply tm_inv in E5 as (q&w6&E6&E5). unfold get_conn in E6. cbn in E6.
  rewrite Hp in E6. injection E6 as <- <-. injection E5 as <-. injection H0 as <- <-.
  eapply linked_setup; [exact Hl|exact Hp|exact Hs|reflexivity..].
Qed.
Lemma links_wrap k i : keeps (altcp_tls_ce_wrap E k i).
Proof.
  intros w o w' Hl H0. destruct i as [i|]; [|by injection H0 as <- <-]. apply tm_inv in H0 as (r&w1&E1&H0).
  destruct (alloc_ok w r w1 Hl E1) as [Hl1 Hc]. destruct r as [c|]; [|by injection H0 as <- <-].
  apply tm_inv in H0 as (e&w2&E2&H0). pose proof (setup_ok w1 k c i _ e w2 Hl1 (Hc c eq_refl) eq_refl E2) as Hl2.
  revert Hl2 H0. generalize w2 o w'. change (keeps (if negb (e =? ERR_OK) then altcp_free c;; mret None else mret (Some c))). keep.
Qed.
Lemma links_accept a i e : keeps (altcp_tls_ce_lower_accept E a i e).
Proof using HE.
  unfold altcp_tls_ce_lower_accept. destruct a as [l|]; [|keep]. apply links_bind; [auto with links|]. intros p.
  destruct (ap_state p) as [s|]; [|keep]. destruct (ap_accept p); cbn [negb]; [|keep]. apply links_bind; [auto with links|]. intros x.
  intros w r w' Hl (o&w1&E1&H0)%tm_inv. destruct (alloc_ok w o w1 Hl E1) as [Hl1 Hc]. destruct o as [c|]; [|by injection H0 as <- <-].
  apply tm_inv in H0 as (f&w2&E2&H0). pose proof (setup_ok w1 _ c i _ f w2 Hl1 (Hc c eq_refl) eq_refl E2) as Hl2.
  revert Hl2 H0. generalize w2 r w'.
  change (keeps (if negb (f =? ERR_OK) then altcp_free c;; mret f else log (U_accept c);; up_accept E c e)). keep.
Qed.
#[local] Hint Resolve links_wrap : links.
Lemma links_new k : keeps (altcp_tls_ce_new E k).
Proof. unfold altcp_tls_ce_new, altcp_tcp_new. keep. Qed.

(** Calls of the application, of TCP and of the memory manager. *)
Inductive layer_event :=
| Ev_config_client (psk : bytes) (id : tls_psk_identity)
| Ev_config_server (psk : bytes) (id : tls_psk_identity)
| Ev_free_config (k : option nat)
| Ev_new (k : option nat)
| Ev_wrap (k i : option nat)
| Ev_recv_fn (c : nat) (b : bool)
| Ev_sent_fn (c : nat) (b : bool)
| Ev_err_fn (c : nat) (b : bool)
| Ev_accept_fn (c : nat) (b : bool)
| Ev_poll_fn (c : nat) (b : bool) (interval : Z)
| Ev_connect (c : option nat) (b : bool)
| Ev_listen (c : option nat)
| Ev_write (c : option nat) (d : option bytes) (n : Z)
| Ev_recved (c : option nat) (n : Z)
| Ev_close (c : nat)
| Ev_abort (c : nat)
| Ev_lower_accept (a : option nat) (i : nat) (e : Z)
| Ev_lower_connected (a i : option nat) (e : Z)
| Ev_lower_recv (a i : option nat) (p : option pbuf)
| Ev_lower_sent (a : option nat) (n : Z)
| Ev_lower_poll (a : option nat)
| Ev_lower_err (a : option nat) (e : Z)
| Ev_pressure (v : mem_pressure_level).
Definition run_event (ev : layer_event) : TM unit :=
  match ev with
  | Ev_config_client k id => altcp_tls_ce_create_config_psk_client E k id;; mret tt
  | Ev_config_server k id => altcp_tls_ce_create_config_psk_server E k id;; mret tt
  | Ev_free_config k => altcp_tls_ce_free_config k
  | Ev_new k => altcp_tls_ce_alloc E k;; mret tt
  | Ev_wrap k i => altcp_tls_ce_wrap E k i;; mret tt
  | Ev_recv_fn c b => altcp_recv c b
  | Ev_sent_fn c b => altcp_sent c b
  | Ev_err_fn c b => altcp_err c b
  | Ev_accept_fn c b => altcp_accept c b
  | Ev_poll_fn c b n => altcp_poll c b n
  | Ev_connect c b => altcp_tls_ce_connect E c b;; mret tt
  | Ev_listen c => altcp_tls_ce_listen E c;; mret tt
  | Ev_write c d n => altcp_tls_ce_write E c d n;; mret tt
  | Ev_recved c n => altcp_tls_ce_recved c n
  | Ev_close c => altcp_tls_ce_close E c;; mret tt
  | Ev_abort c => altcp_tls_ce_abort E c
  | Ev_lower_accept a i e => altcp_tls_ce_lower_accept E a i e;; mret tt
  | Ev_lower_connected a i e => altcp_tls_ce_lower_connected E fuel a i e;; mret tt
  | Ev_lower_recv a i p => altcp_tls_ce_lower_recv E fuel a i p;; mret tt
  | Ev_lower_sent a n => altcp_tls_ce_lower_sent E a n;; mret tt
  | Ev_lower_poll a => altcp_tls_ce_lower_poll E fuel a;; mret tt
  | Ev_lower_err a e => altcp_tls_ce_lower_err E a e
  | Ev_pressure v => altcp_tls_ce_set_rx_throttle v
  end.
Fixpoint run_events (evs : list layer_event) : TM unit :=
  match evs with [] => mret tt | ev :: evs' => run_event ev;; run_events evs' end.

Lemma links_event ev : keeps (run_event ev).
Proof using HE.
  destruct ev; cbn [run_event]; repeat (apply links_bind; [|intros; apply links_ret]);
  first [ apply links_create_config | apply links_free_config | apply links_new | apply links_wrap
    | by apply links_upd_conn | apply links_connect | apply links_listen | apply links_write | apply links_recved | apply links_close
    | apply links_abort | apply links_accept | apply links_connected | apply links_recv | apply links_sent | apply links_poll
    | apply links_lower_err | apply links_throttle | idtac ].
  apply links_bind; [by apply links_upd_conn|]. intros _. apply links_set_poll.
Qed.
Lemma links_events evs : keeps (run_events evs).
Proof using HE. induction evs as [|ev evs IH]; cbn [run_events]; [apply links_ret|]. apply links_bind; [apply links_event|]. by intros []. Qed.
End Env.

Definition start_world : world := mk_world ∅ ∅ ∅ ∅ [] MEM_PRESSURE_NONE false [] 0.
Lemma linked_start : linked start_world.
Proof.
  split; cbn; try done; [constructor|intros s; rewrite lookup_empty; split; [by intros ?%elem_of_nil|by intros []]|].
  split; intros j; rewrite lookup_empty; by intros [].
Qed.

(** C15. The list the memory manager's hook walks never has a dangling entry:
    after any sequence of calls of the application, of TCP and of the memory
    manager, with an application that reaches the layer only by such calls, it
    names each live state once, and each of them belongs to one live connection,
    which knows it as its state; and no connection has a state outside the list. *)
Theorem states_listed E fuel evs w : polite E -> run_events E fuel evs start_world = Some (tt, w) ->
  NoDup (g_tls_state_head w) /\
  (forall s, s ∈ g_tls_state_head w <-> exists x c p,
    states w !! s = Some x /\ ts_conn x = Some c /\ conns w !! c = Some p /\ ap_state p = Some s) /\
  (forall c p s, conns w !! c = Some p -> ap_state p = Some s -> s ∈ g_tls_state_head w).
Proof.
  intros HE Hr. destruct (links_events E HE fuel evs _ _ _ linked_start Hr) as [N L O P _ _]. split; [exact N|]. split.
  - intros s. rewrite L. split; [|intros (x&_&_&Hx&_); by eexists]. intros [x Hx]. destruct (O s x Hx) as (c&p&Hc). by exists x, c, p.
  - intros c p s Hc Hs. apply L. destruct (P c p s Hc Hs) as (x&Hx&_). by eexists.
Qed.
End Links.

(** ** Runs *)

(** An application that takes note and does nothing. *)
Definition quiet : tls_env (St := bytes) :=
  mk_tenv (fun _ _ => true) (fun _ => true) (fun _ => true) (fun _ => the_random) (fun _ _ _ => ERR_OK) (fun _ _ => ERR_OK)
    (fun _ _ => ERR_OK) (fun _ _ => true) (fun _ => true) (fun _ _ => 1024) (fun _ _ => 1024)
    (fun _ _ => mret ERR_OK) (fun _ _ _ => mret ERR_OK) (fun _ _ => mret ERR_OK) (fun _ => mret ERR_OK) (fun _ _ => mret tt)
    (fun _ _ => mret ERR_OK).
Lemma quiet_polite : polite quiet.
Proof. split; intros; apply links_ret. Qed.

(** Two connections: numbers 2 and 5, with the states 3 and 6. *)
Definition two_connections : list layer_event :=
  [Ev_config_client the_psk the_id; Ev_new (Some 0%nat); Ev_new (Some 0%nat); Ev_connect (Some 2%nat) true; Ev_pressure MEM_PRESSURE_HIGH;
   Ev_lower_connected (Some 2%nat) (Some 1%nat) ERR_OK].
Lemma states_listed_witness : exists w,
  run_events quiet 5 (two_connections ++ [Ev_close 2%nat; Ev_pressure MEM_PRESSURE_NONE]) start_world = Some (tt, w) /\
  g_tls_state_head w = [6%nat] /\ NoDup (g_tls_state_head w) /\
  (forall s, s ∈ g_tls_state_head w <-> exists x c p,
    states w !! s = Some x /\ ts_conn x = Some c /\ conns w !! c = Some p /\ ap_state p = Some s).
Proof.
  eexists. split; [vm_compute; reflexivity|]. split; [reflexivity|].
  match goal with |- NoDup (g_tls_state_head ?w) /\ _ => destruct (states_listed quiet 5
    (two_connections ++ [Ev_close 2%nat; Ev_pressure MEM_PRESSURE_NONE]) w quiet_polite) as (H1&H2&_) end; [vm_compute; reflexivity|].
  split; [exact H1|exact H2].
Defined.

(** A client that was set up: configuration 0, TCP connection 1, connection 2, state 3. *)
Definition client_conf : altcp_tls_ce_config := mk_tconf 0 4096 the_psk the_id.
Definition client_pcb : altcp_pcb := mk_pcb true (Some 1%nat) (Some 3%nat) true true true false true false.
Definition tcp_pcb : inner_pcb := mk_inner (Some 2%nat) true false 0.
Definition state_of (ctx : tls_handshake_context (St := bytes)) (flags unrecved pending : Z) : altcp_tls_ce_state :=
  mk_tstate 0 ctx (Some 2%nat) None None unrecved 0 0 0 0 0 4096 (Some (zeros 4096)) pending 0 flags.
Definition world_of (x : altcp_tls_ce_state (St := bytes)) : world (St := bytes) :=
  mk_world {[2%nat := client_pcb]} {[3%nat := x]} {[0%nat := client_conf]} {[1%nat := tcp_pcb]} [3%nat] MEM_PRESSURE_NONE true [] 4.
Lemma world_link x : link (world_of x) 2 3 1 client_pcb tcp_pcb x.
Proof. split; [apply lookup_singleton_eq|done|done|apply lookup_singleton_eq|apply lookup_singleton_eq]. Qed.
(** [altcp_tls_ce_new] sets up such a state. *)
Example set_up : match run_events quiet 1 [Ev_config_client the_psk the_id; Ev_new (Some 0%nat)] start_world with
  | Some (_, w) => states w !! 3%nat = Some (state_of the_start 0 0 0) /\ configs w !! 0%nat = Some client_conf
  | None => False
  end.
Proof. vm_compute. split; reflexivity. Qed.



(** ** Messages *)

Definition sender : altcp_tls_ce_state := state_of the_sender 1 0 0.
Definition reader : altcp_tls_ce_state := state_of the_reader 1 0 0.
Lemma quiet_taking : taking quiet.
Proof. by split. Qed.
Lemma messages_arrive_witness : exists rs wa wb,
  write_all quiet 2 [str "USER anonymous"; str "QUIT"] (world_of sender) = Some ([ERR_OK; ERR_OK], wa) /\
  calls wa = concat (sent_calls 1 <$> rs) /\
  deliver_all quiet 2 1 1 (segment <$> rs) (world_of reader) = Some ([ERR_OK; ERR_OK], wb) /\
  calls wb = [C_recved 1 16; U_recv 2 (Some (str "USER anonymous")); C_recved 1 16; U_recv 2 (Some (str "QUIT"))].
Proof.
  destruct (messages_arrive quiet quiet 0 (world_of sender) 2 3 1 client_pcb tcp_pcb sender (world_of reader) 2 3 1 client_pcb tcp_pcb reader
    [str "USER anonymous"; str "QUIT"]) as (rs&wa&wb&E1&E2&E3&E4);
    [apply world_link|apply world_link|done|done|apply quiet_taking|done|by split|exact the_direction|done|done|done| |].
  - repeat (apply Forall_cons; split); [..|constructor]; (split; [discriminate|]);
      (split; [apply bytes_test_ok; vm_compute; reflexivity|vm_compute; discriminate]).
  - exists rs, wa, wb. split; [exact E1|]. split; [exact E2|]. split; [exact E3|]. exact E4.
Defined.

(** ** Acknowledgements *)

Lemma acknowledgements_complete_witness : exists w1 x1 w2 x2,
  run_acks (St := bytes) 2 [Pressure MEM_PRESSURE_HIGH; Taken 600; Pressure MEM_PRESSURE_MILD; Taken 100; Taken 500] (world_of (state_of the_sender 1 1000 70)) = Some (tt, w1) /\
  states w1 !! 3%nat = Some x1 /\ acked 1 (calls w1) + rx_throttle_pending x1 = 1070 /\
  altcp_tls_ce_set_rx_throttle MEM_PRESSURE_NONE w1 = Some (tt, w2) /\ states w2 !! 3%nat = Some x2 /\
  rx_throttle_pending x2 = 0 /\ acked 1 (calls w2) = 1070.
Proof.
  destruct (acknowledgements_complete (world_of (state_of the_sender 1 1000 70)) 2 3 1 client_pcb tcp_pcb (state_of the_sender 1 1000 70)
    [Pressure MEM_PRESSURE_HIGH; Taken 600; Pressure MEM_PRESSURE_MILD; Taken 100; Taken 500]) as (w1&x1&w2&x2&E1&E2&_&E3&E4&E5&E6&E7).
  - split; [apply world_link|repeat constructor; by intros ?%elem_of_nil|apply list_elem_of_here| |done|done|cbn; lia|cbn; lia|cbn; lia].
    constructor; [|constructor]. eexists _, _, _. split; [apply lookup_singleton_eq|]. split; [done|]. split; [apply lookup_singleton_eq|].
    split; [cbn; lia|]. split; [|done]. intros j [= <-]. by exists tcp_pcb.
  - repeat constructor; cbn; lia.
  - exists w1, x1, w2, x2. split; [exact E1|]. split; [exact E2|]. split; [exact E3|]. split; [exact E4|]. split; [exact E5|].
    split; [exact E6|exact E7].
Defined.

(** ** Edges *)

(** The result and what the application and TCP see of it. *)
Definition seen (k : call) : bool := match k with C_freed _ | C_write _ _ => false | _ => true end.
Definition run_seen {A} (m : TM (St := bytes) A) (w : world) : option (A * list call) :=
  r ← m w; Some (r.1, filter (fun k => seen k = true) (calls r.2)).
Definition the_record (n : Z) (m : bytes) : bytes := protect (Z.of_nat <$> seq 0 16) (Z.of_nat <$> seq 100 12) n m.
Definition receive (E : tls_env) (p : pbuf) : TM (St := bytes) Z := altcp_tls_ce_lower_recv E 9 (Some 2%nat) (Some 1%nat) (Some p).

(** The end of a record is the end of what TCP has delivered: two records in
    one buffer are taken for one, and the connection is aborted. *)
Theorem two_records_abort : run_seen (receive quiet [mk_seg (the_record 255 (str "USER") ++ the_record 256 (str "QUIT")) 1]) (world_of reader) =
  Some (ERR_ABRT, [C_abort 1; U_err 2 ERR_ABRT]).
Proof. vm_compute. reflexivity. Qed.
(** A record in a chain of two buffers is passed on but stays in the queue;
    the next turn finds it again, and the connection is aborted. *)
Theorem chained_record_abort : let r := the_record 255 (str "USER") in
  run_seen (receive quiet [mk_seg (take 10 r) 1; mk_seg (drop 10 r) 1]) (world_of reader) =
  Some (ERR_ABRT, [C_recved 1 16; U_recv 2 (Some (str "USER")); C_abort 1; U_err 2 ERR_ABRT]).
Proof. vm_compute. reflexivity. Qed.
(** Behind a record that fills its buffer the rest of the chain is released
    with it: nothing is left of what was queued. *)
Theorem queued_record_lost r q : Forall (fun g => ref g = 1) q -> rx_advance (mk_seg r 1 :: q) (Z.of_nat (length r)) = None.
Proof.
  intros HF. unfold rx_advance. cbn [pbuf_remove_header payload]. rewrite Z.ltb_irrefl, Nat2Z.id, drop_all. cbn [length payload Nat.eqb].
  destruct HF as [|g q Hg HF]; [done|]. cbn [pbuf_dechain pbuf_free]. rewrite Hg. change (1 - 1 =? 0) with true. cbv iota zeta.
  cbn [fst]. assert (0 <= (pbuf_free q).1) as Hn; [|by ztest].
  clear. induction q as [|g q IH]; cbn [pbuf_free]; [done|]. destruct (_ =? 0); cbn [fst]; lia.
Qed.

(** TCP takes nothing. *)
Definition busy : tls_env (St := bytes) :=
  mk_tenv (fun _ _ => true) (fun _ => true) (fun _ => true) (fun _ => the_random) (fun _ _ _ => ERR_MEM) (fun _ _ => ERR_OK)
    (fun _ _ => ERR_OK) (fun _ _ => true) (fun _ => true) (fun _ _ => 1024) (fun _ _ => 1024)
    (fun _ _ => mret ERR_OK) (fun _ _ _ => mret ERR_OK) (fun _ _ => mret ERR_OK) (fun _ => mret ERR_OK) (fun _ _ => mret tt)
    (fun _ _ => mret ERR_OK).
(** A ClientHello that cannot be sent is reported twice. *)
Theorem error_reported_twice :
  run_seen (altcp_tls_ce_lower_connected busy 3 (Some 2%nat) (Some 1%nat) ERR_OK) (world_of (state_of the_start 0 0 0)) =
  Some (ERR_ABRT, [C_output 1; U_err 2 ERR_MEM; C_abort 1; U_err 2 ERR_ABRT]).
Proof. vm_compute. reflexivity. Qed.
(** The bytes of the ClientHello are reported to the application as its own. *)
Theorem hello_reported_sent : run_seen (altcp_tls_ce_lower_sent quiet (Some 2%nat) 117) (world_of (state_of the_sent 0 0 0)) =
  Some (ERR_OK, [U_sent 2 117]).
Proof. vm_compute. reflexivity. Qed.

(** An application that closes the connection when data arrives. *)
Definition closing : tls_env (St := bytes) :=
  mk_tenv (fun _ _ => true) (fun _ => true) (fun _ => true) (fun _ => the_random) (fun _ _ _ => ERR_OK) (fun _ _ => ERR_OK)
    (fun _ _ => ERR_OK) (fun _ _ => true) (fun _ => true) (fun _ _ => 1024) (fun _ _ => 1024)
    (fun _ _ => mret ERR_OK) (fun c _ _ => altcp_tls_ce_close quiet c) (fun _ _ => mret ERR_OK) (fun _ => mret ERR_OK) (fun _ _ => mret tt)
    (fun _ _ => mret ERR_OK).
(** The connection is read after it was released. *)
Theorem close_in_recv_dangles : receive closing [mk_seg (the_record 255 (str "USER")) 1] (world_of reader) = None.
Proof. vm_compute. reflexivity. Qed.

(** A server gives up at the first byte. *)
Theorem server_aborts : let w := world_of (state_of the_start 0 0 0) in
  run_seen (receive quiet [mk_seg [22] 1]) (set_configs {[0%nat := mk_tconf 1 4096 the_psk the_id]} w) =
  Some (ERR_ABRT, [C_abort 1; U_err 2 ERR_ABRT]).
Proof. vm_compute. reflexivity. Qed.
